(* ===== verification/_CoqProject ===== *)
-Q . S2P
Prelude.v
Status.v
Hash.v
Fips.v
Ids.v
Bytes.v
Evidence.v
Policy.v
Authority.v
Attempt.v
Decision.v
Selector.v
Fs.v
Journal.v
State.v
Store.v
Image.v
Progress.v
Intake.v
Engine.v
EngineLogic.v
EngineSafety.v
Durable.v
Restart.v
Reopen.v
History.v
Leases.v
Revocation.v
Liveness.v
Wire.v
Server.v
Typed.v
Served.v
Accept.v
Client.v
Tool.v
Process.v
Ctl.v
Spelling.v
Worker.v
Fabricd.v
Daemon.v
Embed.v
Socket.v
Fault.v
Scenario.v
Deployment.v
Lifetimes.v
