(* ===== verification/Prelude.v ===== *)
(** * Link Failover Fabric: verification library

    The program is a coordinator that decides, for a failed link of a fabric, which
    alternate may replace it. Publishers send it observations; a client asks for a
    failover; the coordinator evaluates the evidence, selects a replacement, writes
    an intent and a grant to a durable journal, and hands the grant to an applier,
    whose acknowledgement and whose verified effect complete the attempt. It answers
    over a framed protocol on a socket. This development translates that program
    (C++, under include/lff and src) to executable definitions and proves what makes
    it correct.

    ** The parts and their files
    - [Prelude]: machine integers as [Z] with their ranges and wrap-around, strings
      and bytes, little-endian words (the helpers of wire.cpp and journal.cpp),
      enumerations with codes and name tables, [std_sort], the tactics.
    - [Status] (outcome.cpp): outcomes, reason codes, [Status] with its bounded list
      of reasons, [Result].
    - [Hash] (hash.cpp): CRC-32C, the SHA-256 object, the digest builder. [Fips]: SHA-256
      as FIPS 180-4 defines it, written down without the code.
    - [Ids] (ids.cpp): names, keys, counters with checked arithmetic, endpoints.
    - [Bytes] (bytes.cpp): [Writer] and [Reader]. The class [Codec] is the interface
      between a record and everything that stores or sends it: an encoder, a decoder,
      a well-formedness predicate, and the laws that the decoder reads the encoding
      back, never succeeds on a failed reader and reads no further than it checked.
      Round trip, refusal of truncations and of trailing bytes, and injectivity are
      proved once, from the laws.
    - [Evidence], [Policy], [Authority], [Attempt], [Decision] (the files of the same
      names): the data of the coordinator, its validation, text forms, digests and
      codecs.
    - [Selector] (selector.cpp): candidate assessment, the objective, the selection
      and its independent validation.
    - [Fs] (detail/fsutil.cpp): a medium, that is a map from paths to bytes with an
      oracle of faults: every operating system call may fail, and a write may stop
      after any number of bytes.
    - [Journal] (journal.cpp): the formats of the lineage journal, appending, replay
      with the repair of a torn tail.
    - [State] and [Store] (store.cpp): the durable state, the effect of each record,
      retention and eviction, the snapshot; opening, commit, checkpoint, restart fence.
    - [Image] and [Progress] (proofs about store.cpp, journal.cpp and fsutil.cpp): when the
      snapshot and the journal of a directory are an image of the lineage in memory, that
      commits and checkpoints keep it so and opening inverts it; what records and
      snapshots measure, and that on a quiet medium commits and checkpoints succeed.
    - [Intake] and [Engine] (engine.cpp): publishers and evidence tables, the failure
      verdict, candidate resolution; then every operation of the engine as a function
      on the engine's state and the medium. The engine holds its mutex through each
      operation, so an operation is one step and a run is a sequence of steps.
    - [EngineLogic], [EngineSafety]: a program logic that describes an operation by
      the durable effects it wrote, and the safety theorems proved with it.
    - [Durable], [Restart], [Reopen], [History], [Liveness]: a second judgement, [keeps], that walks every
      operation and shows it keeps the engine well typed and its medium an image;
      [lives], a coordinator through operations, medium failures and restarts; what the
      boot and the restart fence make of the table, record by record; histories, which are
      lives as sequences of moments; and [thrives], which bounds the records an operation needs to succeed.
    - [Leases]: the abstract specification, a table of holders under an epoch: leases are
      given up, taken where nobody holds them, or reclaimed by a re-binding revalidation;
      that the engine implements it, operation by operation and along every history.
      [Revocation]: what a policy change leaves in memory, in the journal and at a
      restart.
    - [Wire] (wire.cpp): frames, the incremental decoder, every protocol body.
    - [Server] (server.cpp): sessions, admission, the handshake, the session authority
      check, dispatch, the read loop and stopping. What threads may interleave are
      whole frames, admissions, session ends and stops, as a step relation. [Accept]: the
      accept thread over the answers of the system, and the public object.
    - [Typed] and [Served]: what the decoders accept from any octets is well formed (the
      class [SoundCodec], the converse of [Codec]), so the lives of an engine go on
      under a server whose peers send whatever they like.
    - [Client] (client.cpp): connecting, the handshake, the stamped call and every remote
      operation, over a transport that is a parameter ([dial], [transmit]); at its end
      composed with [Server] over a line that delivers.
    - [Tool] (detail/tool_common.cpp): the arguments of the tools, the topology text with
      the stream extractions it uses, synthetic reports, printing. [Process] is what
      their main programs share: exit codes, the state of a connected process, and the
      traffic of a run.
    - [Ctl] (tools/lffctl.cpp), [Worker] (tools/lff-worker.cpp), [Fabricd]
      (tools/lff-fabricd.cpp): the three programs from the command line to the exit
      code, over the client, the file system and, for the daemon, engine and server.
      [Spelling]: requests spelled as command lines of lffctl and decisions read off
      its output, independently of [Ctl].
      [Daemon]: the daemon from its command line to its peers. [Embed]: the version
      constants, and the two programs that embed the engine in one process (examples/,
      consumer/).
    - [Socket] (detail/socket.cpp) and [Fault] (detail/fault.cpp): the socket helpers over
      the answers of the operating system, and the crash points.
    - [Scenario]: a small fabric, executed; the inputs at which the theorems are
      applied, and the behaviours recorded as findings. [Deployment]: the programs run
      on it. [Lifetimes]: lives of its coordinator.

    ** What the theorems show
    - Decisions ([EngineSafety], [Intake], [Selector]): a grant is justified by the
      evidence, the policy and the selection, and is exclusive; at most one attempt
      is live per subject generation, kept by every operation and every sequence of
      frames; attempts only move along their life cycle and commit only on an effect;
      definition changes and restarts revoke, durably; a repeated request is answered from the
      record; a failed store grants nothing. The selector decides, independently of
      the order of its input, and its outcome passes its own validation.
    - Durability ([Journal], [Store], [State]): a journal cut at any byte replays to
      the records wholly present; one changed byte is refused; a commit is atomic
      under any fault and implements "append one record, then apply"; the snapshot
      round trips; retention never drops an attempt in flight.
    - Lives ([Restart], [Reopen], [History], [Leases], [Liveness], [Served]): along every life of a
      coordinator there is one winner per subject generation, each boot outranks every boot
      before it, authority changes hands only by way of nobody or by a
      contested re-binding (a revalidation does not look for another holder), and the data stays well typed, also when its
      inputs are whatever bytes its peers send; a restart gives the lineage back unless a fence was journaled since the
      last checkpoint, in which case the directory is refused, and a clean shutdown
      with snapshots always gives it back; a killed coordinator comes up again with every
      attempt in its place, those in flight interrupted, and answers a retried request
      as before; an authorized attempt can be completed.
    - Protocol ([Wire], [Server], [Client]): frames survive any cutting of the stream within
      the decoder's slack; nothing is invented, one changed byte is refused, the
      buffer is bounded; bodies round trip; a remote operation is the engine's
      operation, performed once, and a call takes exactly one sequence; no effect without session authority, a
      request is executed at most once, sessions are bounded, and serving the bytes is
      serving the frames.
    - Programs ([Ctl], [Worker], [Fabricd], [Daemon], [Socket]): lffctl sends one message beside its
      inspection, and a request spelled as a command line is performed as the engine's
      operation on that very request; the worker acknowledges only effects whose record is in place, carries
      a directive out in the engine, and ends; a daemon that comes up, whatever its
      arguments and files say, lives on under whatever its peers send and keeps the
      single winner; all bytes are sent, or a prefix.
    - Codecs, texts and digests ([Bytes], [Hash], [Policy], [Tool], ...): round trips,
      canonical forms, SHA-256 against the standard.

    ** Fuel and bounds
    The loops of the source that are not structural carry fuel, and the theorems show
    it is enough: [replay_loop] gets one unit more than there are bytes and uses at
    least 32 bytes per step; [push_loop] one more than the buffer holds, 20 per frame;
    [evict_loop] as much as the list is long; the padding of SHA-256 at most 64; [send_loop] as
    much as there are bytes, one per round; [worker_loop] the number of rounds asked
    for. The results of running out are values of their own, excluded by the theorems. Integers
    keep their width: counters that the source increments unchecked wrap at 64 bits,
    checked additions return an option, and casts between widths are written out.

    ** Parameters
    What the operating system answers is an argument: the fault oracle of [Fs], the
    fresh incarnation of a process, the toolchain names of the boot record, what
    [send_all] answers and what the listener's creation answers; for the client also
    what the transport brings back. Theorems about them hold for every answer; the
    remote-operation theorems instantiate the transport with the server itself. The
    theorems about lives assume that the inputs are well typed ([operation_typed]), which
    is proved for whatever comes over the wire ([request_op_typed]), that the files read back are within the bounds of their readers ([medium_readable],
    [compact]) and that the table of attempts is within its limit when a restart fences
    it; a restart is only considered where the medium holds a whole lineage or one with
    a torn commit ([at_rest]), not after a checkpoint that failed half way, which the
    program does not survive.

    ** Not modelled
    Threads, mutexes and condition variables (the granularity of the locks is that of
    the steps); the system calls themselves (sockets, processes, signals, delays, socket
    options), whose answers are arguments; the places where a crash point ends a process,
    which the medium's faults and the prefixes of a run stand for; linkage macros; tests
    and benchmarks. The wall clock is never used for a decision by the program. *)
From Stdlib Require Export Ascii ZArith Lia.
From stdpp Require Export prelude gmap strings list sorting.

Declare Scope lff_scope.
Delimit Scope lff_scope with lff.
#[export] Set Default Goal Selector "!".
#[global] Open Scope Z_scope.

Create HintDb lff discriminated.

(** ** Machine integers

    An unsigned [w]-bit integer of the source is a [Z]; the ranges are stated
    as predicates and the wrap-around of an unchecked [++] is written out. *)
Abbreviation byte := Z (only parsing).
Abbreviation bytes := (list Z) (only parsing).

Abbreviation two8 := 256 (only parsing).
Abbreviation two16 := 65536 (only parsing).
Abbreviation two32 := 4294967296 (only parsing).
Abbreviation two64 := 18446744073709551616 (only parsing).

Definition is_u8 (z : Z) : Prop := 0 <= z < two8.
Definition is_u16 (z : Z) : Prop := 0 <= z < two16.
Definition is_u32 (z : Z) : Prop := 0 <= z < two32.
Definition is_u64 (z : Z) : Prop := 0 <= z < two64.

#[global] Instance is_u8_dec z : Decision (is_u8 z).
Proof. unfold is_u8. apply _. Defined.
#[global] Instance is_u16_dec z : Decision (is_u16 z).
Proof. unfold is_u16. apply _. Defined.
#[global] Instance is_u32_dec z : Decision (is_u32 z).
Proof. unfold is_u32. apply _. Defined.
#[global] Instance is_u64_dec z : Decision (is_u64 z).
Proof. unfold is_u64. apply _. Defined.

Definition wrap32 (z : Z) : Z := z mod two32.
Definition wrap64 (z : Z) : Z := z mod two64.

(** [ints] closes goals about machine ranges. *)
Ltac ints := unfold is_u8, is_u16, is_u32, is_u64, wrap32, wrap64 in *; lia.

Lemma wrap64_small z : is_u64 z -> wrap64 z = z.
Proof. unfold is_u64, wrap64. intros H. apply Z.mod_small. lia. Qed.

(** [bool_prop] turns the boolean tests of the code into the propositions they
    decide; [bsimpl] does the same and substitutes. *)
Ltac bool_prop :=
  repeat match goal with
  | H : (_ && _)%bool = true |- _ => apply andb_true_iff in H as [? ?]
  | H : (_ || _)%bool = false |- _ => apply orb_false_iff in H as [? ?]
  | H : negb _ = true |- _ => apply negb_true_iff in H
  | H : negb _ = false |- _ => apply negb_false_iff in H
  | H : (_ <? _) = true |- _ => apply Z.ltb_lt in H
  | H : (_ <? _) = false |- _ => apply Z.ltb_ge in H
  | H : (_ <=? _) = true |- _ => apply Z.leb_le in H
  | H : (_ <=? _) = false |- _ => apply Z.leb_gt in H
  | H : (_ =? _) = true |- _ => apply Z.eqb_eq in H
  | H : (_ =? _) = false |- _ => apply Z.eqb_neq in H
  | H : bool_decide _ = true |- _ => apply bool_decide_eq_true in H
  | H : bool_decide _ = false |- _ => apply bool_decide_eq_false in H
  end.
Ltac bsimpl := bool_prop; simplify_eq/=.

(** Case analysis on the tests and matches of a handler, in the goal or in a
    hypothesis. *)
Ltac case_if :=
  match goal with
  | |- context [if ?b then _ else _] => destruct b eqn:?
  | H : context [if ?b then _ else _] |- _ => destruct b eqn:?
  end.

(** ** Strings and bytes

    A [std::string] is a [string]; the encoders see its bytes. *)
Definition byte_of_ascii (a : Ascii.ascii) : byte := Z.of_N (Ascii.N_of_ascii a).
Definition ascii_of_byte (z : byte) : Ascii.ascii := Ascii.ascii_of_N (Z.to_N z).

Fixpoint bytes_of_string (s : string) : bytes :=
  match s with
  | EmptyString => []
  | String a s' => byte_of_ascii a :: bytes_of_string s'
  end.

Fixpoint string_of_bytes (bs : bytes) : string :=
  match bs with
  | [] => EmptyString
  | b :: bs' => String (ascii_of_byte b) (string_of_bytes bs')
  end.

Lemma byte_of_ascii_range a : is_u8 (byte_of_ascii a).
Proof.
  unfold is_u8, byte_of_ascii. pose proof (Ascii.N_ascii_bounded a). lia.
Qed.

Lemma ascii_of_byte_of_ascii a : ascii_of_byte (byte_of_ascii a) = a.
Proof.
  unfold ascii_of_byte, byte_of_ascii. rewrite N2Z.id. apply Ascii.ascii_N_embedding.
Qed.

Lemma byte_of_ascii_of_byte b : is_u8 b -> byte_of_ascii (ascii_of_byte b) = b.
Proof.
  intros Hb. unfold byte_of_ascii, ascii_of_byte.
  rewrite Ascii.N_ascii_embedding by ints. rewrite Z2N.id; ints.
Qed.

Lemma string_of_bytes_of_string s : string_of_bytes (bytes_of_string s) = s.
Proof.
  induction s as [|a s IH]; [done|]. cbn. by rewrite ascii_of_byte_of_ascii, IH.
Qed.

Lemma bytes_of_string_of_bytes bs :
  Forall is_u8 bs -> bytes_of_string (string_of_bytes bs) = bs.
Proof.
  induction 1 as [|b bs Hb _ IH]; [done|]. cbn. by rewrite byte_of_ascii_of_byte, IH.
Qed.

Lemma bytes_of_string_u8 s : Forall is_u8 (bytes_of_string s).
Proof. induction s; cbn; constructor; auto using byte_of_ascii_range. Qed.

Lemma bytes_of_string_length s : length (bytes_of_string s) = String.length s.
Proof. induction s; cbn; auto. Qed.

#[global] Instance bytes_of_string_inj : Inj (=) (=) bytes_of_string.
Proof.
  intros s1 s2 H. rewrite <- (string_of_bytes_of_string s1), H.
  apply string_of_bytes_of_string.
Qed.

Lemma bytes_of_string_app s1 s2 :
  bytes_of_string (s1 +:+ s2) = bytes_of_string s1 ++ bytes_of_string s2.
Proof. induction s1 as [|a s1 IH]; cbn; [done|]. by rewrite <- IH. Qed.

(** ** Little-endian integers

    [le_bytes n v] is the loop [for (i = 0; i < n; ++i) out[i] = (v >> 8i) & 0xFF]
    of the writers and of the [store_u*] helpers; [le_value] is the loop
    [value |= in[i] << 8i] of the readers and of the [load_u*] helpers. *)
Fixpoint le_bytes (n : nat) (v : Z) : bytes :=
  match n with
  | O => []
  | S n' => Z.land v 255 :: le_bytes n' (Z.shiftr v 8)
  end.

Fixpoint le_value (bs : bytes) : Z :=
  match bs with
  | [] => 0
  | b :: bs' => Z.lor b (Z.shiftl (le_value bs') 8)
  end.

Lemma le_bytes_length n v : length (le_bytes n v) = n.
Proof. revert v. induction n; intros; cbn; auto. Qed.

Lemma land_255 v : Z.land v 255 = v mod 256.
Proof. change 255 with (Z.ones 8). by rewrite Z.land_ones. Qed.

Lemma le_bytes_u8 n v : Forall is_u8 (le_bytes n v).
Proof.
  revert v. induction n; intros v; cbn; constructor; auto.
  rewrite land_255. pose proof (Z.mod_pos_bound v 256). ints.
Qed.

Lemma lor_shiftl8 a b : is_u8 a -> 0 <= b -> Z.lor a (Z.shiftl b 8) = a + 256 * b.
Proof.
  intros Ha Hb.
  assert (Hl : Z.land a (Z.shiftl b 8) = 0).
  { apply Z.bits_inj'. intros i Hi. rewrite Z.land_spec, Z.bits_0.
    destruct (decide (i < 8)).
    - rewrite (Z.shiftl_spec_low b 8 i) by lia. apply andb_false_r.
    - rewrite (Z.bits_above_log2 a i); [done|ints|].
      destruct (decide (a = 0)) as [->|]; [cbn; lia|].
      apply Z.log2_lt_pow2; [ints|]. apply Z.lt_le_trans with (2 ^ 8); [ints|].
      apply Z.pow_le_mono_r; lia. }
  rewrite <- Z.lxor_lor by done. rewrite <- Z.add_nocarry_lxor by done.
  rewrite Z.shiftl_mul_pow2 by lia. change (2 ^ 8) with 256. lia.
Qed.

Lemma le_value_bound bs : Forall is_u8 bs -> 0 <= le_value bs < 256 ^ Z.of_nat (length bs).
Proof.
  induction 1 as [|b bs Hb Hbs IH]; [cbn; lia|].
  cbn [le_value length]. rewrite lor_shiftl8 by (auto; lia).
  rewrite Nat2Z.inj_succ, Z.pow_succ_r by lia. ints.
Qed.

Lemma le_value_bytes n v :
  le_value (le_bytes n v) = v mod 256 ^ Z.of_nat n.
Proof.
  revert v. induction n as [|n IH]; intros v; [cbn; by rewrite Z.mod_1_r|].
  cbn [le_bytes le_value].
  assert (Hp : 0 < 256 ^ Z.of_nat n) by lia.
  rewrite IH, land_255, lor_shiftl8.
  - rewrite Nat2Z.inj_succ, Z.pow_succ_r, Z.shiftr_div_pow2 by lia.
    change (2 ^ 8) with 256. rewrite Z.rem_mul_r by lia. done.
  - pose proof (Z.mod_pos_bound v 256). ints.
  - pose proof (Z.mod_pos_bound (Z.shiftr v 8) _ Hp). lia.
Qed.

Lemma le_value_u16 v : is_u16 v -> le_value (le_bytes 2 v) = v.
Proof. intros. rewrite le_value_bytes. apply Z.mod_small. ints. Qed.
Lemma le_value_u32 v : is_u32 v -> le_value (le_bytes 4 v) = v.
Proof. intros. rewrite le_value_bytes. apply Z.mod_small. ints. Qed.
Lemma le_value_u64 v : is_u64 v -> le_value (le_bytes 8 v) = v.
Proof. intros. rewrite le_value_bytes. apply Z.mod_small. ints. Qed.

Lemma le_bytes_inj n v1 v2 :
  0 <= v1 < 256 ^ Z.of_nat n -> 0 <= v2 < 256 ^ Z.of_nat n ->
  le_bytes n v1 = le_bytes n v2 -> v1 = v2.
Proof.
  intros H1 H2 H. apply (f_equal le_value) in H.
  rewrite !le_value_bytes, !Z.mod_small in H by done. done.
Qed.

(** ** Strict total orders

    The interface every comparison of the source ([operator<] on identities,
    digests and keys) promises to its users: the sorted containers and
    [std::sort] are only meaningful under it. *)
Class StrictTotal {A} (ltb : A -> A -> bool) : Prop := {
  st_irrefl x : ltb x x = false;
  st_trans x y z : ltb x y = true -> ltb y z = true -> ltb x z = true;
  st_total x y : ltb x y = false -> ltb y x = false -> x = y;
}.

(** Strict weak orders: what [std::sort] requires of its comparator. *)
Class StrictWeak {A} (ltb : A -> A -> bool) : Prop := {
  sw_irrefl x : ltb x x = false;
  sw_trans x y z : ltb x y = true -> ltb y z = true -> ltb x z = true;
  sw_negtrans x y z : ltb x z = true -> ltb x y = true \/ ltb y z = true;
}.

Lemma st_asym {A} (ltb : A -> A -> bool) `{!StrictTotal ltb} x y :
  ltb x y = true -> ltb y x = false.
Proof.
  intros H. destruct (ltb y x) eqn:E; [|done].
  pose proof (st_trans _ _ _ H E) as C. by rewrite st_irrefl in C.
Qed.

Lemma sw_asym {A} (ltb : A -> A -> bool) `{!StrictWeak ltb} x y :
  ltb x y = true -> ltb y x = false.
Proof.
  intros H. destruct (ltb y x) eqn:E; [|done].
  pose proof (sw_trans _ _ _ H E) as C. by rewrite sw_irrefl in C.
Qed.

#[global] Instance strict_total_weak {A} (ltb : A -> A -> bool) `{!StrictTotal ltb} :
  StrictWeak ltb.
Proof.
  split.
  - apply st_irrefl.
  - apply st_trans.
  - intros x y z H. destruct (ltb x y) eqn:E1; [by left|].
    destruct (ltb y z) eqn:E2; [by right|].
    destruct (ltb y x) eqn:E3.
    + pose proof (st_trans _ _ _ E3 H) as C. congruence.
    + rewrite (st_total _ _ E1 E3) in H. congruence.
Qed.

#[global] Instance Zltb_strict_total : StrictTotal Z.ltb.
Proof. split; intros; bool_prop; lia. Qed.

(** Descending comparison of a counter, as the source writes it with [>]. *)
#[global] Instance Zgtb_strict_total : StrictTotal Z.gtb.
Proof. split; intros *; rewrite !Z.gtb_ltb; bool_prop; intros; bool_prop; try apply Z.ltb_lt; lia. Qed.

(** A comparator that looks at a key only. *)
Lemma strict_weak_key {A B} (key : A -> B) (ltb : B -> B -> bool) `{!StrictWeak ltb} :
  StrictWeak (fun x y => ltb (key x) (key y)).
Proof.
  split; intros.
  - apply sw_irrefl.
  - by eapply sw_trans.
  - by apply sw_negtrans.
Qed.

(** Lexicographic comparison, first component then second, in the shape the
    source writes it: [if (a1 < b1) return true; if (b1 < a1) return false; return a2 < b2]. *)
Definition lex_ltb {A B} (lt1 : A -> A -> bool) (lt2 : B -> B -> bool) (x y : A * B) : bool :=
  if lt1 x.1 y.1 then true else if lt1 y.1 x.1 then false else lt2 x.2 y.2.

#[global] Instance lex_strict_weak {A B} (lt1 : A -> A -> bool) (lt2 : B -> B -> bool)
  `{!StrictTotal lt1} `{!StrictWeak lt2} : StrictWeak (lex_ltb lt1 lt2).
Proof.
  assert (Hcase : forall x y : A, (lt1 x y = true /\ lt1 y x = false) \/
    (lt1 x y = false /\ lt1 y x = true) \/ (x = y /\ lt1 x y = false)).
  { intros x y. destruct (lt1 x y) eqn:E1.
    - left. split; [done|]. by apply st_asym.
    - destruct (lt1 y x) eqn:E2; [by right; left|]. right; right. split; [|done].
      by apply st_total. }
  split.
  - intros [x1 x2]. unfold lex_ltb; cbn. rewrite st_irrefl. apply sw_irrefl.
  - intros [x1 x2] [y1 y2] [z1 z2]. unfold lex_ltb; cbn.
    destruct (Hcase x1 y1) as [[E1 E2]|[[E1 E2]|[-> E]]];
      rewrite ?E1, ?E2, ?E; [|done|].
    + intros _. destruct (Hcase y1 z1) as [[E3 E4]|[[E3 E4]|[-> E3]]];
        rewrite ?E3, ?E4; [|done|by rewrite E1].
      intros _. by rewrite (st_trans _ _ _ E1 E3).
    + intros H. destruct (Hcase y1 z1) as [[E3 E4]|[[E3 E4]|[-> E3]]];
        rewrite ?E3, ?E4; [done|done|]. by apply sw_trans.
  - intros [x1 x2] [y1 y2] [z1 z2]. unfold lex_ltb; cbn.
    destruct (Hcase x1 y1) as [[E1 E2]|[[E1 E2]|[-> E]]];
      rewrite ?E1, ?E2, ?E; [by left| |].
    + intros H. right. destruct (Hcase x1 z1) as [[E3 E4]|[[E3 E4]|[-> E3]]];
        rewrite ?E3, ?E4 in H; [|done|by rewrite E2].
      by rewrite (st_trans _ _ _ E2 E3).
    + intros H. destruct (Hcase y1 z1) as [[E3 E4]|[[E3 E4]|[-> E3]]];
        rewrite ?E3, ?E4 in H |- *; [by right|done|]. by apply sw_negtrans.
Qed.

#[global] Instance lex_strict_total {A B} (lt1 : A -> A -> bool) (lt2 : B -> B -> bool)
  `{!StrictTotal lt1} `{!StrictTotal lt2} : StrictTotal (lex_ltb lt1 lt2).
Proof.
  split; [apply sw_irrefl|apply sw_trans|].
  intros [x1 x2] [y1 y2]. unfold lex_ltb; cbn.
  destruct (lt1 x1 y1) eqn:E1; [done|]. destruct (lt1 y1 x1) eqn:E2; [done|].
  intros H1 H2. by rewrite (st_total _ _ E1 E2), (st_total _ _ H1 H2).
Qed.

(** [std::array] and [std::string] compare their bytes lexicographically, as
    unsigned characters. *)
Fixpoint bytes_ltb (a b : bytes) : bool :=
  match a, b with
  | _, [] => false
  | [], _ :: _ => true
  | x :: a', y :: b' => if x <? y then true else if y <? x then false else bytes_ltb a' b'
  end.

Definition string_ltb (a b : string) : bool := bytes_ltb (bytes_of_string a) (bytes_of_string b).

#[global] Instance bytes_ltb_strict_total : StrictTotal bytes_ltb.
Proof.
  split.
  - induction x as [|x a IH]; cbn; [done|]. by rewrite Z.ltb_irrefl.
  - intros x. induction x as [|x a IH]; intros [|y b] [|z c]; cbn; try done.
    destruct (Z.ltb_spec x y); destruct (Z.ltb_spec y z);
      destruct (Z.ltb_spec x z); try lia; try done;
      destruct (Z.ltb_spec y x); destruct (Z.ltb_spec z y); destruct (Z.ltb_spec z x);
      try lia; try done. apply IH.
  - intros x. induction x as [|x a IH]; intros [|y b]; cbn; try done.
    destruct (Z.ltb_spec x y); [done|]. destruct (Z.ltb_spec y x); [done|].
    intros H1 H2. f_equal; [lia|]. by apply IH.
Qed.

#[global] Instance string_ltb_strict_total : StrictTotal string_ltb.
Proof.
  split; unfold string_ltb; intros.
  - apply st_irrefl.
  - by eapply st_trans.
  - apply (inj bytes_of_string). by apply st_total.
Qed.

(** ** [std::sort]

    The library sort is modelled by a sort that is stable where the standard
    leaves the order of equivalent elements open; every use below either has
    no equivalent elements or does not observe their order. *)
Section std_sort.
Context {A : Type} (ltb : A -> A -> bool).

Definition not_after (x y : A) : Prop := ltb y x = false.
#[global] Instance not_after_dec x y : Decision (not_after x y).
Proof. unfold not_after. apply _. Defined.

Definition std_sort (l : list A) : list A := merge_sort not_after l.

Lemma std_sort_perm l : std_sort l ≡ₚ l.
Proof. apply merge_sort_Permutation. Qed.

Lemma elem_of_std_sort l x : x ∈ std_sort l <-> x ∈ l.
Proof. by rewrite std_sort_perm. Qed.

Lemma std_sort_length l : length (std_sort l) = length l.
Proof. by rewrite std_sort_perm. Qed.

Context `{!StrictWeak ltb}.

#[global] Instance not_after_total : Total not_after.
Proof.
    intros x y. unfold not_after. destruct (ltb y x) eqn:E; [right|by left].
    by apply sw_asym.
Qed.

#[global] Instance not_after_trans : Transitive not_after.
Proof.
    intros x y z. unfold not_after. intros H1 H2.
    destruct (ltb z x) eqn:E; [|done].
    destruct (sw_negtrans _ y _ E); congruence.
Qed.

Lemma std_sort_sorted l : StronglySorted not_after (std_sort l).
Proof. apply StronglySorted_merge_sort; apply _. Qed.

  (** The result depends on the set of elements only, when equivalent elements
      are equal: the determinism claim behind every canonical order. *)
Lemma std_sort_unique l1 l2 :
    l1 ≡ₚ l2 ->
    (forall x y, x ∈ l1 -> y ∈ l1 -> ltb x y = false -> ltb y x = false -> x = y) ->
    std_sort l1 = std_sort l2.
Proof.
    intros Hp Heq. apply (StronglySorted_unique_strong not_after).
    - intros x y Hx Hy H1 H2. rewrite elem_of_std_sort in Hx, Hy.
      rewrite <- Hp in Hy. by apply Heq.
    - apply std_sort_sorted.
    - apply std_sort_sorted.
    - by rewrite !std_sort_perm.
Qed.
End std_sort.

(** ** Enumerations

    An [enum class E : std::uint16_t] is an inductive type; [enum_code] is
    [static_cast<std::uint16_t>] and [enum_cast] the converse cast, which the
    decoders apply to a value they have bounded first. *)
Class EnumCode (A : Type) := {
  enum_values : list A;
  enum_code : A -> Z;
  enum_nonneg a : 0 <= enum_code a;
  enum_nth a : enum_values !! Z.to_nat (enum_code a) = Some a;
}.

Arguments enum_code : simpl never.

Section enum.
Context {A : Type} `{!EnumCode A}.

Definition enum_count : Z := Z.of_nat (length (enum_values (A := A))).
Definition enum_cast (d : A) (z : Z) : A := default d (enum_values !! Z.to_nat z).

Lemma enum_cast_code d a : enum_cast d (enum_code a) = a.
Proof. unfold enum_cast. by rewrite enum_nth. Qed.

Lemma enum_code_count a : enum_code a < enum_count.
Proof.
    pose proof (lookup_lt_Some _ _ _ (enum_nth a)). pose proof (enum_nonneg a).
    unfold enum_count. lia.
Qed.

#[global] Instance enum_code_inj : Inj (=) (=) enum_code.
Proof.
    intros a b H. pose proof (enum_nth a) as Ha. pose proof (enum_nth b) as Hb.
    rewrite H in Ha. congruence.
Qed.

Definition enum_eqb (a b : A) : bool := enum_code a =? enum_code b.

Lemma enum_eqb_eq a b : enum_eqb a b = true <-> a = b.
Proof.
    unfold enum_eqb. rewrite Z.eqb_eq. split; [apply (inj enum_code)|by intros ->].
Qed.

Definition enum_eq_dec : EqDecision A.
Proof.
    intros a b. destruct (enum_eqb a b) eqn:E.
    - left. abstract (by apply enum_eqb_eq).
    - right. abstract (intros ->; unfold enum_eqb in E; by rewrite Z.eqb_refl in E).
Defined.
End enum.

(** The [{value, name}] tables behind the [*_name] and [*_parse] functions. *)
Section names.
Context {A : Type} `{!EnumCode A}.

Fixpoint table_name (unrecognised : string) (t : list (A * string)) (v : A) : string :=
    match t with
    | [] => unrecognised
    | (v', n) :: t' => if enum_eqb v' v then n else table_name unrecognised t' v
    end.

Fixpoint table_parse (t : list (A * string)) (text : string) : option A :=
    match t with
    | [] => None
    | (v, n) :: t' => if bool_decide (n = text) then Some v else table_parse t' text
    end.

Lemma table_name_In u t v : v ∈ t.*1 -> (v, table_name u t v) ∈ t.
Proof.
    induction t as [|[v' n] t IH]; [by intros ?%elem_of_nil|].
    cbn. rewrite elem_of_cons. destruct (enum_eqb v' v) eqn:E.
    - apply enum_eqb_eq in E as ->. intros _. constructor.
    - intros [->|Hv]; [by rewrite (proj2 (enum_eqb_eq v' v')) in E|].
      constructor. auto.
Qed.

Lemma table_parse_In t v n : NoDup t.*2 -> (v, n) ∈ t -> table_parse t n = Some v.
Proof.
    induction t as [|[v' n'] t IH]; [by intros _ ?%elem_of_nil|].
    cbn. rewrite NoDup_cons, elem_of_cons. intros [Hn Hd] [[= -> ->]|Hv].
    - by rewrite bool_decide_eq_true_2.
    - rewrite bool_decide_eq_false_2; [by apply IH|].
      intros ->. apply Hn. apply list_elem_of_fmap. by exists (v, n).
Qed.

Lemma table_parse_name u t v :
    NoDup t.*2 -> v ∈ t.*1 -> table_parse t (table_name u t v) = Some v.
Proof. intros. apply table_parse_In; [done|]. by apply table_name_In. Qed.

(** A table is complete when it names every enumerator, and names differ. *)
Definition table_complete (t : list (A * string)) : bool :=
  bool_decide (NoDup t.*2) &&
  forallb (fun v => existsb (fun e => enum_eqb e.1 v) t) (enum_values (A := A)).

Lemma table_complete_parse_name u t v :
  table_complete t = true -> table_parse t (table_name u t v) = Some v.
Proof.
  intros H. unfold table_complete in H. bool_prop.
  apply table_parse_name; [done|].
  rewrite forallb_forall in H0.
  specialize (H0 v). rewrite <- list_elem_of_In in H0.
  specialize (H0 (list_elem_of_lookup_2 _ _ _ (enum_nth v))).
  apply existsb_exists in H0 as ([w n] & Hin & Hw). cbn in Hw.
  apply enum_eqb_eq in Hw as ->. apply list_elem_of_In in Hin.
  apply list_elem_of_fmap. by exists (v, n).
Qed.

Lemma table_parse_sound u t n v :
    NoDup t.*1 -> table_parse t n = Some v -> table_name u t v = n.
Proof.
    induction t as [|[v' n'] t IH]; [done|]. cbn. rewrite NoDup_cons. intros [Hn Hd].
    case_bool_decide as E.
    - intros [= ->]. by rewrite (proj2 (enum_eqb_eq v v)).
    - intros H. destruct (enum_eqb v' v) eqn:Ev; [|auto].
      apply enum_eqb_eq in Ev as ->. exfalso. apply Hn. clear -H.
      induction t as [|[w m] t IH]; [done|]. cbn in *.
      case_bool_decide; simplify_eq; constructor; auto.
Qed.
End names.

(** ** Lists *)
Lemma list_find_Some_elem {A} (P : A -> Prop) `{!forall x, Decision (P x)} l i x :
  list_find P l = Some (i, x) -> x ∈ l /\ P x.
Proof.
  intros (Hl & HP & _)%list_find_Some. split; [|done]. by eapply list_elem_of_lookup_2.
Qed.

(** [find_first p l] is [std::find_if] and the search loops of the source. *)
Fixpoint find_first {A} (p : A -> bool) (l : list A) : option A :=
  match l with
  | [] => None
  | x :: l' => if p x then Some x else find_first p l'
  end.

Lemma find_first_Some {A} (p : A -> bool) l x :
  find_first p l = Some x -> x ∈ l /\ p x = true.
Proof.
  induction l as [|y l IH]; [done|]. cbn. destruct (p y) eqn:E.
  - intros [= ->]. split; [constructor|done].
  - intros H. apply IH in H as [? ?]. split; [by constructor|done].
Qed.

Lemma find_first_None {A} (p : A -> bool) l :
  find_first p l = None <-> forall x, x ∈ l -> p x = false.
Proof.
  induction l as [|y l IH]; cbn.
  { split; [by intros _ ? ?%elem_of_nil|done]. }
  destruct (p y) eqn:E.
  - split; [done|]. intros H. rewrite (H y) in E by constructor. done.
  - rewrite IH. split.
    + intros H x. rewrite elem_of_cons. intros [->|?]; auto.
    + intros H x Hx. apply H. by constructor.
Qed.

(** [table_roundtrip] proves that parsing a printed enumerator gives it back. *)
Ltac table_roundtrip := intros; apply table_complete_parse_name; vm_compute; reflexivity.
