(* ===== verification/Status.v ===== *)
(** * Outcomes, reason codes, status and results

    Models include/lff/outcome.hpp and src/outcome.cpp: the two enumerations
    with their frozen 16-bit values, the name tables, [Reason] (whose
    constructor bounds the detail text), [Status] (whose [add] bounds the number
    of reasons) and [Result<T>]. *)
From S2P Require Import Prelude.

(** ** Outcome *)
Module Outcome.
Inductive Outcome :=
| Ok
| Refused
| Unknown
| Stale
| Conflict
| Invalid
| Unsupported
| NotFound
| LimitExceeded
| Corrupt
| Indeterminate
| Interrupted
| Exhausted
| IoError
| Closed
| Unauthenticated.
End Outcome.
Abbreviation Outcome := Outcome.Outcome.

Definition outcome_code (v : Outcome) : Z :=
  match v with
  | Outcome.Ok => 0
  | Outcome.Refused => 1
  | Outcome.Unknown => 2
  | Outcome.Stale => 3
  | Outcome.Conflict => 4
  | Outcome.Invalid => 5
  | Outcome.Unsupported => 6
  | Outcome.NotFound => 7
  | Outcome.LimitExceeded => 8
  | Outcome.Corrupt => 9
  | Outcome.Indeterminate => 10
  | Outcome.Interrupted => 11
  | Outcome.Exhausted => 12
  | Outcome.IoError => 13
  | Outcome.Closed => 14
  | Outcome.Unauthenticated => 15
  end.

#[global] Instance outcome_enum : EnumCode Outcome := {|
  enum_values :=
    [Outcome.Ok; Outcome.Refused; Outcome.Unknown; Outcome.Stale; Outcome.Conflict;
     Outcome.Invalid; Outcome.Unsupported; Outcome.NotFound; Outcome.LimitExceeded;
     Outcome.Corrupt; Outcome.Indeterminate; Outcome.Interrupted; Outcome.Exhausted;
     Outcome.IoError; Outcome.Closed; Outcome.Unauthenticated];
  enum_code := outcome_code;
  enum_nonneg := ltac:(by intros []);
  enum_nth := ltac:(by intros []);
|}.
#[global] Instance outcome_eq_dec : EqDecision Outcome := enum_eq_dec.

Definition kOutcomeNames : list (Outcome * string) := [
  (Outcome.Ok, "Ok");
  (Outcome.Refused, "Refused");
  (Outcome.Unknown, "Unknown");
  (Outcome.Stale, "Stale");
  (Outcome.Conflict, "Conflict");
  (Outcome.Invalid, "Invalid");
  (Outcome.Unsupported, "Unsupported");
  (Outcome.NotFound, "NotFound");
  (Outcome.LimitExceeded, "LimitExceeded");
  (Outcome.Corrupt, "Corrupt");
  (Outcome.Indeterminate, "Indeterminate");
  (Outcome.Interrupted, "Interrupted");
  (Outcome.Exhausted, "Exhausted");
  (Outcome.IoError, "IoError");
  (Outcome.Closed, "Closed");
  (Outcome.Unauthenticated, "Unauthenticated")
].

Definition outcome_name (v : Outcome) : string :=
  table_name "UnrecognisedOutcome" kOutcomeNames v.

Definition outcome_parse (text : string) : option Outcome :=
  table_parse kOutcomeNames text.
Definition kOutcomeCount : Z := 16.

Definition outcome_is_ok (v : Outcome) : bool := enum_eqb v Outcome.Ok.

(** ** Reason codes *)
Module ReasonCode.
Inductive ReasonCode :=
| None
| InvalidArgument
| MalformedEncoding
| UnsupportedValue
| LimitExceeded
| TrailingBytes
| ChecksumMismatch
| UnsupportedFormatVersion
| CorruptRecord
| SequenceRegression
| TornTailRecovered
| NullField
| UnknownFabric
| UnknownLink
| UnknownGeneration
| GenerationMismatch
| PolicyGenerationMismatch
| TopologyGenerationMismatch
| SubjectGenerationMismatch
| ReplacementGenerationMismatch
| EpochMismatch
| IncarnationMismatch
| StaleAuthority
| SessionMismatch
| SessionSequenceRegressed
| SessionSequenceReplayed
| CoordinatorIncarnationMismatch
| PublisherIncarnationMismatch
| WorkerIncarnationMismatch
| PreRestartAuthority
| EvidenceMissing
| EvidenceUnknown
| EvidenceStale
| EvidenceConflicted
| EvidenceLowConfidence
| EvidenceDigestMismatch
| EvidenceFromPriorIncarnation
| SubjectNotFailed
| SubjectUnknown
| ReplacementNotEligible
| ReplacementInsufficientCapacity
| ReplacementNotAdjacencyAuthorized
| ReplacementStateUnusable
| ReplacementIsSubject
| NoEligibleReplacement
| SelectionIndeterminate
| SelectedHighestObjective
| CertifiedInfeasible
| CandidateSetEmpty
| AlreadyAuthoritative
| AttemptInFlight
| AttemptCompleted
| AttemptUnknown
| DuplicateCompletion
| LateAcknowledgement
| ReplayDetected
| IdempotentReplay
| RevalidationRequired
| FenceRequired
| Fenced
| AttemptsExhausted
| BackendRejected
| BackendUnknown
| EffectUnverified
| EffectVerified
| AcknowledgementNotEffect
| RollbackRequested
| RollbackNotAuthorized
| RollbackCompleted
| RestoreRequiresNewGeneration
| OriginalLinkRestored
| InterruptedBeforeCommit
| InterruptedAfterCommit
| InterruptedAfterApply
| EpochAdvancedOnBoot
| DurableLineagePreserved
| DynamicStateNotRestored
| ProtocolVersionMismatch
| FrameTooLarge
| UnknownMessageType
| StickyDecodeFailure
| ConnectionClosed
| SocketError
| NotListening
| Shutdown
| TruncatedFrame
| ReservedBitsSet
| PolicyRejected
| PolicyConfidenceUnreachable
| PolicyDisabled
| InternalError
| CheckedArithmeticOverflow
| FeatureUnsupported
| SyntheticFixture.
End ReasonCode.
Abbreviation ReasonCode := ReasonCode.ReasonCode.

Definition reason_code_code (v : ReasonCode) : Z :=
  match v with
  | ReasonCode.None => 0
  | ReasonCode.InvalidArgument => 1
  | ReasonCode.MalformedEncoding => 2
  | ReasonCode.UnsupportedValue => 3
  | ReasonCode.LimitExceeded => 4
  | ReasonCode.TrailingBytes => 5
  | ReasonCode.ChecksumMismatch => 6
  | ReasonCode.UnsupportedFormatVersion => 7
  | ReasonCode.CorruptRecord => 8
  | ReasonCode.SequenceRegression => 9
  | ReasonCode.TornTailRecovered => 10
  | ReasonCode.NullField => 11
  | ReasonCode.UnknownFabric => 12
  | ReasonCode.UnknownLink => 13
  | ReasonCode.UnknownGeneration => 14
  | ReasonCode.GenerationMismatch => 15
  | ReasonCode.PolicyGenerationMismatch => 16
  | ReasonCode.TopologyGenerationMismatch => 17
  | ReasonCode.SubjectGenerationMismatch => 18
  | ReasonCode.ReplacementGenerationMismatch => 19
  | ReasonCode.EpochMismatch => 20
  | ReasonCode.IncarnationMismatch => 21
  | ReasonCode.StaleAuthority => 22
  | ReasonCode.SessionMismatch => 23
  | ReasonCode.SessionSequenceRegressed => 24
  | ReasonCode.SessionSequenceReplayed => 25
  | ReasonCode.CoordinatorIncarnationMismatch => 26
  | ReasonCode.PublisherIncarnationMismatch => 27
  | ReasonCode.WorkerIncarnationMismatch => 28
  | ReasonCode.PreRestartAuthority => 29
  | ReasonCode.EvidenceMissing => 30
  | ReasonCode.EvidenceUnknown => 31
  | ReasonCode.EvidenceStale => 32
  | ReasonCode.EvidenceConflicted => 33
  | ReasonCode.EvidenceLowConfidence => 34
  | ReasonCode.EvidenceDigestMismatch => 35
  | ReasonCode.EvidenceFromPriorIncarnation => 36
  | ReasonCode.SubjectNotFailed => 37
  | ReasonCode.SubjectUnknown => 38
  | ReasonCode.ReplacementNotEligible => 39
  | ReasonCode.ReplacementInsufficientCapacity => 40
  | ReasonCode.ReplacementNotAdjacencyAuthorized => 41
  | ReasonCode.ReplacementStateUnusable => 42
  | ReasonCode.ReplacementIsSubject => 43
  | ReasonCode.NoEligibleReplacement => 44
  | ReasonCode.SelectionIndeterminate => 45
  | ReasonCode.SelectedHighestObjective => 46
  | ReasonCode.CertifiedInfeasible => 47
  | ReasonCode.CandidateSetEmpty => 48
  | ReasonCode.AlreadyAuthoritative => 49
  | ReasonCode.AttemptInFlight => 50
  | ReasonCode.AttemptCompleted => 51
  | ReasonCode.AttemptUnknown => 52
  | ReasonCode.DuplicateCompletion => 53
  | ReasonCode.LateAcknowledgement => 54
  | ReasonCode.ReplayDetected => 55
  | ReasonCode.IdempotentReplay => 56
  | ReasonCode.RevalidationRequired => 57
  | ReasonCode.FenceRequired => 58
  | ReasonCode.Fenced => 59
  | ReasonCode.AttemptsExhausted => 60
  | ReasonCode.BackendRejected => 61
  | ReasonCode.BackendUnknown => 62
  | ReasonCode.EffectUnverified => 63
  | ReasonCode.EffectVerified => 64
  | ReasonCode.AcknowledgementNotEffect => 65
  | ReasonCode.RollbackRequested => 66
  | ReasonCode.RollbackNotAuthorized => 67
  | ReasonCode.RollbackCompleted => 68
  | ReasonCode.RestoreRequiresNewGeneration => 69
  | ReasonCode.OriginalLinkRestored => 70
  | ReasonCode.InterruptedBeforeCommit => 71
  | ReasonCode.InterruptedAfterCommit => 72
  | ReasonCode.InterruptedAfterApply => 73
  | ReasonCode.EpochAdvancedOnBoot => 74
  | ReasonCode.DurableLineagePreserved => 75
  | ReasonCode.DynamicStateNotRestored => 76
  | ReasonCode.ProtocolVersionMismatch => 77
  | ReasonCode.FrameTooLarge => 78
  | ReasonCode.UnknownMessageType => 79
  | ReasonCode.StickyDecodeFailure => 80
  | ReasonCode.ConnectionClosed => 81
  | ReasonCode.SocketError => 82
  | ReasonCode.NotListening => 83
  | ReasonCode.Shutdown => 84
  | ReasonCode.TruncatedFrame => 85
  | ReasonCode.ReservedBitsSet => 86
  | ReasonCode.PolicyRejected => 87
  | ReasonCode.PolicyConfidenceUnreachable => 88
  | ReasonCode.PolicyDisabled => 89
  | ReasonCode.InternalError => 90
  | ReasonCode.CheckedArithmeticOverflow => 91
  | ReasonCode.FeatureUnsupported => 92
  | ReasonCode.SyntheticFixture => 93
  end.

#[global] Instance reason_code_enum : EnumCode ReasonCode := {|
  enum_values :=
    [ReasonCode.None; ReasonCode.InvalidArgument; ReasonCode.MalformedEncoding;
     ReasonCode.UnsupportedValue; ReasonCode.LimitExceeded; ReasonCode.TrailingBytes;
     ReasonCode.ChecksumMismatch; ReasonCode.UnsupportedFormatVersion;
     ReasonCode.CorruptRecord; ReasonCode.SequenceRegression; ReasonCode.TornTailRecovered;
     ReasonCode.NullField; ReasonCode.UnknownFabric; ReasonCode.UnknownLink;
     ReasonCode.UnknownGeneration; ReasonCode.GenerationMismatch;
     ReasonCode.PolicyGenerationMismatch; ReasonCode.TopologyGenerationMismatch;
     ReasonCode.SubjectGenerationMismatch; ReasonCode.ReplacementGenerationMismatch;
     ReasonCode.EpochMismatch; ReasonCode.IncarnationMismatch; ReasonCode.StaleAuthority;
     ReasonCode.SessionMismatch; ReasonCode.SessionSequenceRegressed;
     ReasonCode.SessionSequenceReplayed; ReasonCode.CoordinatorIncarnationMismatch;
     ReasonCode.PublisherIncarnationMismatch; ReasonCode.WorkerIncarnationMismatch;
     ReasonCode.PreRestartAuthority; ReasonCode.EvidenceMissing; ReasonCode.EvidenceUnknown;
     ReasonCode.EvidenceStale; ReasonCode.EvidenceConflicted;
     ReasonCode.EvidenceLowConfidence; ReasonCode.EvidenceDigestMismatch;
     ReasonCode.EvidenceFromPriorIncarnation; ReasonCode.SubjectNotFailed;
     ReasonCode.SubjectUnknown; ReasonCode.ReplacementNotEligible;
     ReasonCode.ReplacementInsufficientCapacity;
     ReasonCode.ReplacementNotAdjacencyAuthorized; ReasonCode.ReplacementStateUnusable;
     ReasonCode.ReplacementIsSubject; ReasonCode.NoEligibleReplacement;
     ReasonCode.SelectionIndeterminate; ReasonCode.SelectedHighestObjective;
     ReasonCode.CertifiedInfeasible; ReasonCode.CandidateSetEmpty;
     ReasonCode.AlreadyAuthoritative; ReasonCode.AttemptInFlight;
     ReasonCode.AttemptCompleted; ReasonCode.AttemptUnknown; ReasonCode.DuplicateCompletion;
     ReasonCode.LateAcknowledgement; ReasonCode.ReplayDetected; ReasonCode.IdempotentReplay;
     ReasonCode.RevalidationRequired; ReasonCode.FenceRequired; ReasonCode.Fenced;
     ReasonCode.AttemptsExhausted; ReasonCode.BackendRejected; ReasonCode.BackendUnknown;
     ReasonCode.EffectUnverified; ReasonCode.EffectVerified;
     ReasonCode.AcknowledgementNotEffect; ReasonCode.RollbackRequested;
     ReasonCode.RollbackNotAuthorized; ReasonCode.RollbackCompleted;
     ReasonCode.RestoreRequiresNewGeneration; ReasonCode.OriginalLinkRestored;
     ReasonCode.InterruptedBeforeCommit; ReasonCode.InterruptedAfterCommit;
     ReasonCode.InterruptedAfterApply; ReasonCode.EpochAdvancedOnBoot;
     ReasonCode.DurableLineagePreserved; ReasonCode.DynamicStateNotRestored;
     ReasonCode.ProtocolVersionMismatch; ReasonCode.FrameTooLarge;
     ReasonCode.UnknownMessageType; ReasonCode.StickyDecodeFailure;
     ReasonCode.ConnectionClosed; ReasonCode.SocketError; ReasonCode.NotListening;
     ReasonCode.Shutdown; ReasonCode.TruncatedFrame; ReasonCode.ReservedBitsSet;
     ReasonCode.PolicyRejected; ReasonCode.PolicyConfidenceUnreachable;
     ReasonCode.PolicyDisabled; ReasonCode.InternalError;
     ReasonCode.CheckedArithmeticOverflow; ReasonCode.FeatureUnsupported;
     ReasonCode.SyntheticFixture];
  enum_code := reason_code_code;
  enum_nonneg := ltac:(by intros []);
  enum_nth := ltac:(by intros []);
|}.
#[global] Instance reason_code_eq_dec : EqDecision ReasonCode := enum_eq_dec.

Definition kReasonNames : list (ReasonCode * string) := [
  (ReasonCode.None, "None");
  (ReasonCode.InvalidArgument, "InvalidArgument");
  (ReasonCode.MalformedEncoding, "MalformedEncoding");
  (ReasonCode.UnsupportedValue, "UnsupportedValue");
  (ReasonCode.LimitExceeded, "LimitExceeded");
  (ReasonCode.TrailingBytes, "TrailingBytes");
  (ReasonCode.ChecksumMismatch, "ChecksumMismatch");
  (ReasonCode.UnsupportedFormatVersion, "UnsupportedFormatVersion");
  (ReasonCode.CorruptRecord, "CorruptRecord");
  (ReasonCode.SequenceRegression, "SequenceRegression");
  (ReasonCode.TornTailRecovered, "TornTailRecovered");
  (ReasonCode.NullField, "NullField");
  (ReasonCode.UnknownFabric, "UnknownFabric");
  (ReasonCode.UnknownLink, "UnknownLink");
  (ReasonCode.UnknownGeneration, "UnknownGeneration");
  (ReasonCode.GenerationMismatch, "GenerationMismatch");
  (ReasonCode.PolicyGenerationMismatch, "PolicyGenerationMismatch");
  (ReasonCode.TopologyGenerationMismatch, "TopologyGenerationMismatch");
  (ReasonCode.SubjectGenerationMismatch, "SubjectGenerationMismatch");
  (ReasonCode.ReplacementGenerationMismatch, "ReplacementGenerationMismatch");
  (ReasonCode.EpochMismatch, "EpochMismatch");
  (ReasonCode.IncarnationMismatch, "IncarnationMismatch");
  (ReasonCode.StaleAuthority, "StaleAuthority");
  (ReasonCode.SessionMismatch, "SessionMismatch");
  (ReasonCode.SessionSequenceRegressed, "SessionSequenceRegressed");
  (ReasonCode.SessionSequenceReplayed, "SessionSequenceReplayed");
  (ReasonCode.CoordinatorIncarnationMismatch, "CoordinatorIncarnationMismatch");
  (ReasonCode.PublisherIncarnationMismatch, "PublisherIncarnationMismatch");
  (ReasonCode.WorkerIncarnationMismatch, "WorkerIncarnationMismatch");
  (ReasonCode.PreRestartAuthority, "PreRestartAuthority");
  (ReasonCode.EvidenceMissing, "EvidenceMissing");
  (ReasonCode.EvidenceUnknown, "EvidenceUnknown");
  (ReasonCode.EvidenceStale, "EvidenceStale");
  (ReasonCode.EvidenceConflicted, "EvidenceConflicted");
  (ReasonCode.EvidenceLowConfidence, "EvidenceLowConfidence");
  (ReasonCode.EvidenceDigestMismatch, "EvidenceDigestMismatch");
  (ReasonCode.EvidenceFromPriorIncarnation, "EvidenceFromPriorIncarnation");
  (ReasonCode.SubjectNotFailed, "SubjectNotFailed");
  (ReasonCode.SubjectUnknown, "SubjectUnknown");
  (ReasonCode.ReplacementNotEligible, "ReplacementNotEligible");
  (ReasonCode.ReplacementInsufficientCapacity, "ReplacementInsufficientCapacity");
  (ReasonCode.ReplacementNotAdjacencyAuthorized, "ReplacementNotAdjacencyAuthorized");
  (ReasonCode.ReplacementStateUnusable, "ReplacementStateUnusable");
  (ReasonCode.ReplacementIsSubject, "ReplacementIsSubject");
  (ReasonCode.NoEligibleReplacement, "NoEligibleReplacement");
  (ReasonCode.SelectionIndeterminate, "SelectionIndeterminate");
  (ReasonCode.SelectedHighestObjective, "SelectedHighestObjective");
  (ReasonCode.CertifiedInfeasible, "CertifiedInfeasible");
  (ReasonCode.CandidateSetEmpty, "CandidateSetEmpty");
  (ReasonCode.AlreadyAuthoritative, "AlreadyAuthoritative");
  (ReasonCode.AttemptInFlight, "AttemptInFlight");
  (ReasonCode.AttemptCompleted, "AttemptCompleted");
  (ReasonCode.AttemptUnknown, "AttemptUnknown");
  (ReasonCode.DuplicateCompletion, "DuplicateCompletion");
  (ReasonCode.LateAcknowledgement, "LateAcknowledgement");
  (ReasonCode.ReplayDetected, "ReplayDetected");
  (ReasonCode.IdempotentReplay, "IdempotentReplay");
  (ReasonCode.RevalidationRequired, "RevalidationRequired");
  (ReasonCode.FenceRequired, "FenceRequired");
  (ReasonCode.Fenced, "Fenced");
  (ReasonCode.AttemptsExhausted, "AttemptsExhausted");
  (ReasonCode.BackendRejected, "BackendRejected");
  (ReasonCode.BackendUnknown, "BackendUnknown");
  (ReasonCode.EffectUnverified, "EffectUnverified");
  (ReasonCode.EffectVerified, "EffectVerified");
  (ReasonCode.AcknowledgementNotEffect, "AcknowledgementNotEffect");
  (ReasonCode.RollbackRequested, "RollbackRequested");
  (ReasonCode.RollbackNotAuthorized, "RollbackNotAuthorized");
  (ReasonCode.RollbackCompleted, "RollbackCompleted");
  (ReasonCode.RestoreRequiresNewGeneration, "RestoreRequiresNewGeneration");
  (ReasonCode.OriginalLinkRestored, "OriginalLinkRestored");
  (ReasonCode.InterruptedBeforeCommit, "InterruptedBeforeCommit");
  (ReasonCode.InterruptedAfterCommit, "InterruptedAfterCommit");
  (ReasonCode.InterruptedAfterApply, "InterruptedAfterApply");
  (ReasonCode.EpochAdvancedOnBoot, "EpochAdvancedOnBoot");
  (ReasonCode.DurableLineagePreserved, "DurableLineagePreserved");
  (ReasonCode.DynamicStateNotRestored, "DynamicStateNotRestored");
  (ReasonCode.ProtocolVersionMismatch, "ProtocolVersionMismatch");
  (ReasonCode.FrameTooLarge, "FrameTooLarge");
  (ReasonCode.UnknownMessageType, "UnknownMessageType");
  (ReasonCode.StickyDecodeFailure, "StickyDecodeFailure");
  (ReasonCode.ConnectionClosed, "ConnectionClosed");
  (ReasonCode.SocketError, "SocketError");
  (ReasonCode.NotListening, "NotListening");
  (ReasonCode.Shutdown, "Shutdown");
  (ReasonCode.TruncatedFrame, "TruncatedFrame");
  (ReasonCode.ReservedBitsSet, "ReservedBitsSet");
  (ReasonCode.PolicyRejected, "PolicyRejected");
  (ReasonCode.PolicyConfidenceUnreachable, "PolicyConfidenceUnreachable");
  (ReasonCode.PolicyDisabled, "PolicyDisabled");
  (ReasonCode.InternalError, "InternalError");
  (ReasonCode.CheckedArithmeticOverflow, "CheckedArithmeticOverflow");
  (ReasonCode.FeatureUnsupported, "FeatureUnsupported");
  (ReasonCode.SyntheticFixture, "SyntheticFixture")
].

Definition reason_code_name (v : ReasonCode) : string :=
  table_name "UnrecognisedReasonCode" kReasonNames v.

Definition reason_code_parse (text : string) : option ReasonCode :=
  table_parse kReasonNames text.
Definition kReasonCodeCount : Z := 94.

(** ** Reason and Status *)
Definition kMaxReasonDetail : nat := 160.
Definition kMaxReasons : nat := 24.

Record Reason := MkReason { reason_code : ReasonCode; reason_detail : string }.

(** The constructor truncates the detail: [detail.resize(kMaxReasonDetail)]. *)
Definition reason (code : ReasonCode) (detail : string) : Reason :=
  MkReason code
    (if Nat.ltb kMaxReasonDetail (String.length detail)
     then String.substring 0 kMaxReasonDetail detail else detail).

#[global] Instance reason_eq_dec : EqDecision Reason.
Proof. solve_decision. Defined.

(** [operator<] on reasons: by code, then by detail. *)
Definition reason_ltb (a b : Reason) : bool :=
  if negb (enum_eqb (reason_code a) (reason_code b))
  then enum_code (reason_code a) <? enum_code (reason_code b)
  else string_ltb (reason_detail a) (reason_detail b).

Record Status := MkStatus { status_outcome : Outcome; status_reasons : list Reason }.

Definition status_of (o : Outcome) : Status := MkStatus o [].
Definition status_success : Status := status_of Outcome.Ok.

Definition status_add (s : Status) (code : ReasonCode) (detail : string) : Status :=
  if Nat.ltb (length (status_reasons s)) kMaxReasons
  then MkStatus (status_outcome s) (status_reasons s ++ [reason code detail])
  else s.

Definition status_failure (o : Outcome) (code : ReasonCode) (detail : string) : Status :=
  status_add (status_of o) code detail.

Definition status_ok (s : Status) : bool := enum_eqb (status_outcome s) Outcome.Ok.

Definition status_has (s : Status) (code : ReasonCode) : bool :=
  existsb (fun r => enum_eqb (reason_code r) code) (status_reasons s).

(** [Status::to_string]: ["Ok"] or ["Stale(EvidenceStale=detail, EpochMismatch)"]. *)
Definition reason_text (r : Reason) : string :=
  reason_code_name (reason_code r) +:+
  (if bool_decide (reason_detail r = EmptyString) then "" else "=" +:+ reason_detail r).

Definition status_to_string (s : Status) : string :=
  outcome_name (status_outcome s) +:+
  match status_reasons s with
  | [] => ""
  | rs => "(" +:+ String.concat ", " (map reason_text rs) +:+ ")"
  end.

Definition status_canonical_key (s : Status) : string :=
  outcome_name (status_outcome s) +:+ "|" +:+
  String.concat "" (map (fun r => reason_code_name (reason_code r) +:+ ":" +:+
                                  reason_detail r +:+ ";") (status_reasons s)).

(** ** Result

    A [Result<T>] holds a value and [Outcome::Ok], or a status and no value. *)
Inductive Result (T : Type) :=
| Success (value : T)
| Failure (status : Status).
Arguments Success {T} _.
Arguments Failure {T} _.

Definition result_status {T} (r : Result T) : Status :=
  match r with Success _ => status_success | Failure s => s end.
Definition result_ok {T} (r : Result T) : bool :=
  match r with Success _ => true | Failure _ => false end.
Definition result_value {T} (r : Result T) : option T :=
  match r with Success v => Some v | Failure _ => None end.

(** A failing result, the [fail] lambda of the engine and [Result::failure]. *)
Definition fail {T} (o : Outcome) (code : ReasonCode) (detail : string) : Result T :=
  Failure (status_failure o code detail).

(** ** Properties *)
Lemma substring_length n s : String.length (String.substring 0 n s) = Nat.min n (String.length s).
Proof.
  revert s. induction n as [|n IH]; intros [|a s]; cbn; auto.
Qed.

Lemma reason_detail_bounded code detail :
  (String.length (reason_detail (reason code detail)) <= kMaxReasonDetail)%nat.
Proof.
  unfold reason; cbn [reason_detail]. destruct (Nat.ltb_spec kMaxReasonDetail (String.length detail)).
  - rewrite substring_length. lia.
  - done.
Qed.

Lemma status_failure_outcome o c d : status_outcome (status_failure o c d) = o.
Proof. done. Qed.

Lemma status_add_outcome s c d : status_outcome (status_add s c d) = status_outcome s.
Proof. unfold status_add. by case_if. Qed.

Lemma status_failure_not_ok o c d : o <> Outcome.Ok -> status_ok (status_failure o c d) = false.
Proof.
  intros H. unfold status_ok. rewrite status_failure_outcome.
  destruct (enum_eqb o Outcome.Ok) eqn:E; [|done]. by apply enum_eqb_eq in E.
Qed.

(** A status built by any number of [add] calls stays within both bounds, so an
    explanation can neither grow without limit nor carry an oversized detail. *)
Definition status_bounded (s : Status) : Prop :=
  (length (status_reasons s) <= kMaxReasons)%nat /\
  Forall (fun r => (String.length (reason_detail r) <= kMaxReasonDetail)%nat) (status_reasons s).

Lemma status_of_bounded o : status_bounded (status_of o).
Proof. split; cbn; [unfold kMaxReasons; lia|constructor]. Qed.

Lemma status_add_bounded s c d : status_bounded s -> status_bounded (status_add s c d).
Proof.
  intros [Hl Hf]. unfold status_add.
  destruct (Nat.ltb_spec (length (status_reasons s)) kMaxReasons); [|done].
  split; cbn.
  - rewrite length_app; cbn. lia.
  - rewrite Forall_app. split; [done|]. constructor; [apply reason_detail_bounded|constructor].
Qed.

Lemma kOutcomeCount_enum : kOutcomeCount = enum_count (A := Outcome).
Proof. reflexivity. Qed.
Lemma kReasonCodeCount_enum : kReasonCodeCount = enum_count (A := ReasonCode).
Proof. reflexivity. Qed.

(** The name tables list every enumerator once and name each differently. *)
Lemma outcome_parse_name v : outcome_parse (outcome_name v) = Some v.
Proof. table_roundtrip. Qed.
Lemma reason_code_parse_name v : reason_code_parse (reason_code_name v) = Some v.
Proof. table_roundtrip. Qed.
