(* ===== verification/Hash.v ===== *)
(** * Integrity and digest primitives

    Models include/lff/hash.hpp and src/hash.cpp: the table-driven CRC-32C, the
    incremental SHA-256 object, [Digest] with its hexadecimal form and the
    length-prefixing [DigestBuilder].  Everything is executable; the published
    test vectors are evaluated at the end. *)
From S2P Require Import Prelude.

(** ** CRC-32C *)
Definition kCrc32cPolynomial : Z := 0x82F63B78.
Definition mask32 : Z := 0xFFFFFFFF.
Definition not32 (v : Z) : Z := Z.lxor v mask32.

Definition crc_bit (crc : Z) : Z :=
  if negb (Z.land crc 1 =? 0)
  then Z.lxor (Z.shiftr crc 1) kCrc32cPolynomial
  else Z.shiftr crc 1.

Definition crc_entry (i : Z) : Z := Nat.iter 8 crc_bit i.
Definition crc_table : list Z := Eval vm_compute in map crc_entry (seqZ 0 256).

(** One step of the byte loop of [crc32c_extend]. *)
Definition crc_update (crc : Z) (b : byte) : Z :=
  Z.lxor (crc_table !!! Z.to_nat (Z.land (Z.lxor crc b) 255)) (Z.shiftr crc 8).

Definition crc32c_extend (seed : Z) (data : bytes) : Z :=
  not32 (foldl crc_update (not32 seed) data).
Definition crc32c (data : bytes) : Z := crc32c_extend 0 data.
Definition crc32c_concat (seed : Z) (first second : bytes) : Z :=
  crc32c_extend (crc32c_extend seed first) second.

(** ** SHA-256 *)
(** The table, row by row as the source prints it. *)
Definition kSha256K : list Z := List.concat [
  [0x428a2f98; 0x71374491; 0xb5c0fbcf; 0xe9b5dba5; 0x3956c25b; 0x59f111f1; 0x923f82a4];
  [0xab1c5ed5; 0xd807aa98; 0x12835b01; 0x243185be; 0x550c7dc3; 0x72be5d74; 0x80deb1fe];
  [0x9bdc06a7; 0xc19bf174; 0xe49b69c1; 0xefbe4786; 0x0fc19dc6; 0x240ca1cc; 0x2de92c6f];
  [0x4a7484aa; 0x5cb0a9dc; 0x76f988da; 0x983e5152; 0xa831c66d; 0xb00327c8; 0xbf597fc7];
  [0xc6e00bf3; 0xd5a79147; 0x06ca6351; 0x14292967; 0x27b70a85; 0x2e1b2138; 0x4d2c6dfc];
  [0x53380d13; 0x650a7354; 0x766a0abb; 0x81c2c92e; 0x92722c85; 0xa2bfe8a1; 0xa81a664b];
  [0xc24b8b70; 0xc76c51a3; 0xd192e819; 0xd6990624; 0xf40e3585; 0x106aa070; 0x19a4c116];
  [0x1e376c08; 0x2748774c; 0x34b0bcb5; 0x391c0cb3; 0x4ed8aa4a; 0x5b9cca4f; 0x682e6ff3];
  [0x748f82ee; 0x78a5636f; 0x84c87814; 0x8cc70208; 0x90befffa; 0xa4506ceb; 0xbef9a3f7];
  [0xc67178f2]].

Definition rotr (value shift : Z) : Z :=
  Z.lor (Z.shiftr value shift) (Z.land (Z.shiftl value (32 - shift)) mask32).
Definition add32 (a b : Z) : Z := wrap32 (a + b).

Record ShaWords := MkWords {
  sha_a : Z; sha_b : Z; sha_c : Z; sha_d : Z; sha_e : Z; sha_f : Z; sha_g : Z; sha_h : Z }.

Definition at_word (w : list Z) (i : nat) : Z := nth i w 0.

(** The first sixteen words are read big-endian from the block. *)
Definition block_word (block : bytes) (i : nat) : Z :=
  Z.lor (Z.lor (Z.shiftl (at_word block (i * 4)) 24) (Z.shiftl (at_word block (i * 4 + 1)) 16))
        (Z.lor (Z.shiftl (at_word block (i * 4 + 2)) 8) (at_word block (i * 4 + 3))).

Definition extend_schedule (w : list Z) (i : nat) : list Z :=
  let s0 := Z.lxor (Z.lxor (rotr (at_word w (i - 15)) 7) (rotr (at_word w (i - 15)) 18))
                   (Z.shiftr (at_word w (i - 15)) 3) in
  let s1 := Z.lxor (Z.lxor (rotr (at_word w (i - 2)) 17) (rotr (at_word w (i - 2)) 19))
                   (Z.shiftr (at_word w (i - 2)) 10) in
  w ++ [add32 (add32 (add32 (at_word w (i - 16)) s0) (at_word w (i - 7))) s1].

Definition schedule (block : bytes) : list Z :=
  foldl extend_schedule (map (block_word block) (seq 0 16)) (seq 16 48).

Definition sha_round (w : list Z) (s : ShaWords) (i : nat) : ShaWords :=
  let '(MkWords a b c d e f g h) := s in
  let s1 := Z.lxor (Z.lxor (rotr e 6) (rotr e 11)) (rotr e 25) in
  let ch := Z.lxor (Z.land e f) (Z.land (not32 e) g) in
  let temp1 := add32 (add32 (add32 (add32 h s1) ch) (at_word kSha256K i)) (at_word w i) in
  let s0 := Z.lxor (Z.lxor (rotr a 2) (rotr a 13)) (rotr a 22) in
  let maj := Z.lxor (Z.lxor (Z.land a b) (Z.land a c)) (Z.land b c) in
  let temp2 := add32 s0 maj in
  MkWords (add32 temp1 temp2) a b c (add32 d temp1) e f g.

Definition compress (state : ShaWords) (block : bytes) : ShaWords :=
  let w := schedule block in
  let r := foldl (sha_round w) state (seq 0 64) in
  MkWords (add32 (sha_a state) (sha_a r)) (add32 (sha_b state) (sha_b r))
          (add32 (sha_c state) (sha_c r)) (add32 (sha_d state) (sha_d r))
          (add32 (sha_e state) (sha_e r)) (add32 (sha_f state) (sha_f r))
          (add32 (sha_g state) (sha_g r)) (add32 (sha_h state) (sha_h r)).

(** [buffer_] and [buffer_size_] together are the list of buffered bytes. *)
Record Sha256 := MkSha {
  sha_state : ShaWords; sha_bit_count : Z; sha_buffer : bytes; sha_finished : bool }.

Definition sha_reset : Sha256 :=
  MkSha (MkWords 0x6a09e667 0xbb67ae85 0x3c6ef372 0xa54ff53a
                 0x510e527f 0x9b05688c 0x1f83d9ab 0x5be0cd19) 0 [] false.

(** [while (size - offset >= 64) compress(bytes + offset)]: the fuel is the
    number of bytes left, which bounds the number of blocks. *)
Fixpoint sha_blocks (fuel : nat) (state : ShaWords) (data : bytes) : ShaWords * bytes :=
  match fuel with
  | O => (state, data)
  | S fuel' =>
      if Nat.leb 64 (length data)
      then sha_blocks fuel' (compress state (take 64 data)) (drop 64 data)
      else (state, data)
  end.

Definition sha_update (h : Sha256) (data : bytes) : Sha256 :=
  if (sha_finished h || bool_decide (data = []))%bool then h
  else
    let bits := wrap64 (sha_bit_count h + Z.of_nat (length data) * 8) in
    let used := if bool_decide (sha_buffer h = []) then O
                else Nat.min (64 - length (sha_buffer h)) (length data) in
    let buffer := sha_buffer h ++ take used data in
    let rest := drop used data in
    let '(state, buffer) :=
      if (negb (bool_decide (sha_buffer h = [])) && Nat.eqb (length buffer) 64)%bool
      then (compress (sha_state h) buffer, [])
      else (sha_state h, buffer) in
    let '(state, rest) := sha_blocks (length rest) state rest in
    MkSha state bits (buffer ++ rest) false.

(** [while (buffer_size_ != 56) update(&zero, 1)]. *)
Fixpoint sha_pad (fuel : nat) (h : Sha256) : Sha256 :=
  match fuel with
  | O => h
  | S fuel' => if Nat.eqb (length (sha_buffer h)) 56 then h
               else sha_pad fuel' (sha_update h [0])
  end.

Definition be_bytes64 (bits : Z) : bytes :=
  map (fun i => Z.land (Z.shiftr bits ((7 - Z.of_nat i) * 8)) 255) (seq 0 8).

Definition be_bytes32 (v : Z) : bytes :=
  [Z.land (Z.shiftr v 24) 255; Z.land (Z.shiftr v 16) 255; Z.land (Z.shiftr v 8) 255; Z.land v 255].

Definition words_bytes (s : ShaWords) : bytes :=
  let '(MkWords a b c d e f g h) := s in
  be_bytes32 a ++ be_bytes32 b ++ be_bytes32 c ++ be_bytes32 d ++
  be_bytes32 e ++ be_bytes32 f ++ be_bytes32 g ++ be_bytes32 h.

Definition sha_finish (h : Sha256) : Sha256 * bytes :=
  let h' :=
    if sha_finished h then h
    else
      let bits := sha_bit_count h in
      let h1 := sha_update h [0x80] in
      let h2 := sha_pad 64 h1 in
      let h3 := sha_update h2 (be_bytes64 bits) in
      MkSha (sha_state h3) (sha_bit_count h3) (sha_buffer h3) true in
  (h', words_bytes (sha_state h')).

(** ** Digest *)
Record Digest := MkDigest { digest_bytes : bytes }.
#[global] Instance digest_eq_dec : EqDecision Digest.
Proof. solve_decision. Defined.

Definition digest_zero : Digest := MkDigest (replicate 32 0).
Definition digest_is_zero (d : Digest) : bool := forallb (fun b => b =? 0) (digest_bytes d).
Definition digest_ltb (a b : Digest) : bool := bytes_ltb (digest_bytes a) (digest_bytes b).

Definition sha256 (data : bytes) : Digest := MkDigest (sha_finish (sha_update sha_reset data)).2.

(** Hexadecimal text: [kDigits[(byte >> 4) & 0xF]], then the low nibble. *)
Definition hex_digit (n : Z) : Ascii.ascii :=
  ascii_of_byte (if n <? 10 then 48 + n else 87 + n).
Definition hex_value (ch : Ascii.ascii) : option Z :=
  let c := byte_of_ascii ch in
  if ((48 <=? c) && (c <=? 57))%bool then Some (c - 48)
  else if ((97 <=? c) && (c <=? 102))%bool then Some (c - 97 + 10)
  else if ((65 <=? c) && (c <=? 70))%bool then Some (c - 65 + 10)
  else None.

Fixpoint hex_of_bytes (bs : bytes) : string :=
  match bs with
  | [] => EmptyString
  | b :: bs' => String (hex_digit (Z.land (Z.shiftr b 4) 15))
                  (String (hex_digit (Z.land b 15)) (hex_of_bytes bs'))
  end.

(** The parse loop over [n] byte positions: each reads two characters. *)
Fixpoint bytes_of_hex (s : string) : option bytes :=
  match s with
  | EmptyString => Some []
  | String _ EmptyString => None
  | String a (String b s') =>
      match hex_value a, hex_value b with
      | Some h, Some l =>
          match bytes_of_hex s' with
          | Some bs => Some (Z.lor (Z.shiftl h 4) l :: bs)
          | None => None
          end
      | _, _ => None
      end
  end.

Definition digest_hex (d : Digest) : string := hex_of_bytes (digest_bytes d).
Definition digest_parse (text : string) : option Digest :=
  if Nat.eqb (String.length text) 64
  then match bytes_of_hex text with Some bs => Some (MkDigest bs) | None => None end
  else None.

(** ** DigestBuilder *)
Definition builder_add (buffer : bytes) (label : string) (data : bytes) : bytes :=
  buffer ++ le_bytes 4 (Z.of_nat (String.length label)) ++ le_bytes 8 (Z.of_nat (length data)) ++
  bytes_of_string label ++ data.
Definition builder_add_text (buffer : bytes) (label text : string) : bytes :=
  builder_add buffer label (bytes_of_string text).
Definition builder_add_u64 (buffer : bytes) (label : string) (value : Z) : bytes :=
  builder_add buffer label (le_bytes 8 value).
Definition builder_finish (buffer : bytes) : Digest := sha256 buffer.

Arguments sha256 : simpl never.
Arguments crc32c : simpl never.
Arguments crc32c_extend : simpl never.
Arguments crc32c_concat : simpl never.

Example crc32c_check : crc32c (bytes_of_string "123456789") = 0xE3069283.
Proof. vm_compute. reflexivity. Qed.
Example sha256_abc :
  digest_hex (sha256 (bytes_of_string "abc")) =
  "ba7816bf8f01cfea414140de5dae2223b00361a396177a9cb410ff61f20015ad"%string.
Proof. vm_compute. reflexivity. Qed.
Example sha256_empty :
  digest_hex (sha256 []) = "e3b0c44298fc1c149afbf4c8996fb92427ae41e4649b934ca495991b7852b855"%string.
Proof. vm_compute. reflexivity. Qed.

(** ** Properties of the checksum *)
Lemma crc_table_spec : crc_table = map crc_entry (seqZ 0 256).
Proof. vm_compute. reflexivity. Qed.

Lemma crc_table_length : length crc_table = 256%nat.
Proof. reflexivity. Qed.

(** The top bytes of the table entries are pairwise different: this is what
    makes a CRC step injective. *)
Lemma crc_table_top_NoDup : NoDup (map (fun e => Z.shiftr e 24) crc_table).
Proof. apply (bool_decide_unpack _). vm_compute. reflexivity. Qed.

Lemma crc_table_u32 : Forall is_u32 crc_table.
Proof. apply (bool_decide_unpack _). vm_compute. reflexivity. Qed.

Lemma land_255_u8 v : is_u8 (Z.land v 255).
Proof. rewrite land_255. pose proof (Z.mod_pos_bound v 256). ints. Qed.

Lemma crc_index_lt v : (Z.to_nat (Z.land v 255) < length crc_table)%nat.
Proof. rewrite crc_table_length. pose proof (land_255_u8 v). ints. Qed.

Lemma crc_entry_u32 v : is_u32 (crc_table !!! Z.to_nat (Z.land v 255)).
Proof.
  apply Forall_lookup_total_1; [apply crc_table_u32|apply crc_index_lt].
Qed.

Lemma lxor_cancel_l a b c : Z.lxor a b = Z.lxor a c -> b = c.
Proof.
  intros H. apply (f_equal (Z.lxor a)) in H.
  by rewrite <- !Z.lxor_assoc, Z.lxor_nilpotent, !Z.lxor_0_l in H.
Qed.

Lemma land_lxor_l a b m : Z.land (Z.lxor a b) m = Z.lxor (Z.land a m) (Z.land b m).
Proof.
  apply Z.bits_inj'. intros i _. rewrite !Z.land_spec, !Z.lxor_spec, !Z.land_spec.
  by destruct (Z.testbit a i), (Z.testbit b i), (Z.testbit m i).
Qed.

Lemma lxor_u32 a b : is_u32 a -> is_u32 b -> is_u32 (Z.lxor a b).
Proof.
  unfold is_u32. intros Ha Hb.
  assert (Hn : 0 <= Z.lxor a b) by (apply Z.lxor_nonneg; split; lia).
  split; [done|]. destruct (decide (Z.lxor a b = 0)) as [->|Hz]; [lia|].
  apply (Z.log2_lt_pow2 _ 32); [lia|].
  eapply Z.le_lt_trans; [apply Z.log2_lxor; lia|].
  apply Z.max_lub_lt.
  - destruct (decide (a = 0)) as [->|]; [cbn; lia|]. apply Z.log2_lt_pow2; lia.
  - destruct (decide (b = 0)) as [->|]; [cbn; lia|]. apply Z.log2_lt_pow2; lia.
Qed.

Lemma shiftr8_u32 c : is_u32 c -> 0 <= Z.shiftr c 8 < 16777216.
Proof.
  unfold is_u32. intros. rewrite Z.shiftr_div_pow2 by lia. change (2 ^ 8) with 256.
  split; [apply Z.div_pos; lia|]. apply Z.div_lt_upper_bound; lia.
Qed.

Lemma crc_update_u32 c b : is_u32 c -> is_u32 (crc_update c b).
Proof.
  intros Hc. apply lxor_u32; [apply crc_entry_u32|].
  pose proof (shiftr8_u32 c Hc). ints.
Qed.

Lemma not32_u32 v : is_u32 v -> is_u32 (not32 v).
Proof. intros. apply lxor_u32; [done|]. unfold mask32. ints. Qed.

Lemma not32_inj a b : not32 a = not32 b -> a = b.
Proof.
  unfold not32. rewrite (Z.lxor_comm a), (Z.lxor_comm b). apply lxor_cancel_l.
Qed.

Lemma not32_not32 v : not32 (not32 v) = v.
Proof. unfold not32. by rewrite Z.lxor_assoc, Z.lxor_nilpotent, Z.lxor_0_r. Qed.

Lemma crc_foldl_u32 c bs : is_u32 c -> is_u32 (foldl crc_update c bs).
Proof. revert c. induction bs; cbn; auto using crc_update_u32. Qed.

(** Two steps that agree came from the same table index. *)
Lemma crc_update_index c1 c2 b1 b2 :
  is_u32 c1 -> is_u32 c2 -> crc_update c1 b1 = crc_update c2 b2 ->
  Z.land (Z.lxor c1 b1) 255 = Z.land (Z.lxor c2 b2) 255 /\ Z.shiftr c1 8 = Z.shiftr c2 8.
Proof.
  intros H1 H2 H. unfold crc_update in H.
  assert (Hsh : forall c, is_u32 c -> Z.shiftr (Z.shiftr c 8) 24 = 0).
  { intros c Hc. pose proof (shiftr8_u32 c Hc).
    rewrite (Z.shiftr_div_pow2 _ 24) by lia. apply Z.div_small. lia. }
  pose proof (f_equal (fun v => Z.shiftr v 24) H) as Hs. cbn beta in Hs.
  rewrite !Z.shiftr_lxor, !Hsh, !Z.lxor_0_r in Hs by done.
  assert (Hi : Z.to_nat (Z.land (Z.lxor c1 b1) 255) = Z.to_nat (Z.land (Z.lxor c2 b2) 255)).
  { eapply NoDup_lookup; [exact crc_table_top_NoDup| |].
    - rewrite list_lookup_fmap, list_lookup_lookup_total_lt by apply crc_index_lt. done.
    - rewrite list_lookup_fmap, list_lookup_lookup_total_lt by apply crc_index_lt.
      cbn. by rewrite Hs. }
  pose proof (land_255_u8 (Z.lxor c1 b1)). pose proof (land_255_u8 (Z.lxor c2 b2)).
  split; [ints|]. rewrite Hi in H. by apply lxor_cancel_l in H.
Qed.

Lemma crc_update_inj_state c1 c2 b :
  is_u32 c1 -> is_u32 c2 -> crc_update c1 b = crc_update c2 b -> c1 = c2.
Proof.
  intros H1 H2 H. apply crc_update_index in H as [Hi Hs]; [|done..].
  rewrite !land_lxor_l, !(Z.lxor_comm _ (Z.land b 255)) in Hi.
  apply lxor_cancel_l in Hi. rewrite !land_255 in Hi.
  rewrite !Z.shiftr_div_pow2 in Hs by lia. change (2 ^ 8) with 256 in Hs.
  rewrite (Z.div_mod c1 256), (Z.div_mod c2 256) by lia. congruence.
Qed.

Lemma crc_update_inj_byte c b1 b2 :
  is_u32 c -> is_u8 b1 -> is_u8 b2 -> crc_update c b1 = crc_update c b2 -> b1 = b2.
Proof.
  intros Hc H1 H2 H. apply crc_update_index in H as [Hi _]; [|done..].
  rewrite !land_lxor_l in Hi. apply lxor_cancel_l in Hi. rewrite !land_255 in Hi.
  rewrite !Z.mod_small in Hi; ints.
Qed.

Lemma crc_foldl_inj c1 c2 bs :
  is_u32 c1 -> is_u32 c2 -> foldl crc_update c1 bs = foldl crc_update c2 bs -> c1 = c2.
Proof.
  revert c1 c2. induction bs as [|b bs IH]; intros c1 c2 H1 H2 H; [done|].
  cbn in H. apply IH in H; [|by apply crc_update_u32..].
  by apply crc_update_inj_state in H.
Qed.

Lemma crc32c_extend_app seed a b :
  crc32c_extend seed (a ++ b) = crc32c_extend (crc32c_extend seed a) b.
Proof. unfold crc32c_extend. by rewrite not32_not32, foldl_app. Qed.

Lemma crc32c_u32 bs : is_u32 (crc32c bs).
Proof.
  apply not32_u32, crc_foldl_u32, not32_u32. ints.
Qed.

(** The two-segment checksum is the checksum of the concatenation, which is how
    the frame header and the payload are covered by one CRC without a copy. *)
Lemma crc32c_concat_app seed a b : crc32c_concat seed a b = crc32c_extend seed (a ++ b).
Proof. unfold crc32c_concat. by rewrite crc32c_extend_app. Qed.

(** a message with exactly one corrupted byte never keeps its checksum. *)
Lemma crc32c_one_byte pre x y post :
  is_u8 x -> is_u8 y -> x <> y ->
  crc32c (pre ++ x :: post) <> crc32c (pre ++ y :: post).
Proof.
  intros Hx Hy Hne H. apply Hne. unfold crc32c, crc32c_extend in H.
  apply not32_inj in H. rewrite !foldl_app in H. cbn in H.
  assert (Hp : is_u32 (foldl crc_update (not32 0) pre)).
  { apply crc_foldl_u32, not32_u32. ints. }
  apply crc_foldl_inj in H; [|by apply crc_update_u32..].
  by apply crc_update_inj_byte in H.
Qed.

(** ** Properties of the incremental SHA-256 *)
Lemma sha_blocks_S fuel st data :
  (length data <= fuel)%nat ->
  sha_blocks fuel st data = sha_blocks (length data) st data.
Proof.
  revert st data. induction fuel as [fuel IH] using lt_wf_ind. intros st data Hl.
  destruct fuel as [|fuel].
  { destruct data; [done|cbn in Hl; lia]. }
  destruct (length data) as [|n] eqn:En.
  { cbn. by rewrite En. }
  cbn [sha_blocks]. rewrite En. destruct (Nat.leb_spec 64 (S n)); [|done].
  rewrite (IH fuel), (IH n); rewrite ?length_drop, ?En; try lia. done.
Qed.

Definition sha_absorb (st : ShaWords) (data : bytes) : ShaWords * bytes :=
  sha_blocks (length data) st data.
Arguments sha_absorb : simpl never.
Arguments sha_update : simpl never.

Lemma sha_absorb_short st data : (length data < 64)%nat -> sha_absorb st data = (st, data).
Proof.
  intros H. unfold sha_absorb. destruct (length data) as [|n] eqn:En; [done|].
  cbn [sha_blocks]. rewrite En. destruct (Nat.leb_spec 64 (S n)); [lia|done].
Qed.

Lemma sha_absorb_block st blk rest :
  length blk = 64%nat -> sha_absorb st (blk ++ rest) = sha_absorb (compress st blk) rest.
Proof.
  intros Hb. unfold sha_absorb.
  assert (Hl : length (blk ++ rest) = S (63 + length rest)) by (rewrite length_app; lia).
  rewrite Hl. cbn [sha_blocks]. rewrite Hl.
  destruct (Nat.leb_spec 64 (S (63 + length rest))); [|lia].
  rewrite (take_app_le blk rest 64), (take_ge blk 64) by lia.
  assert (drop 64 (blk ++ rest) = rest) as ->.
  { rewrite <- Hb. apply drop_app_length. }
  apply sha_blocks_S. lia.
Qed.

Lemma split_block (data : bytes) :
  ~ (length data < 64)%nat ->
  exists blk rest, data = blk ++ rest /\ length blk = 64%nat.
Proof.
  intros H. exists (take 64 data), (drop 64 data). split; [by rewrite take_drop|].
  rewrite length_take. lia.
Qed.

(** Induction on messages by 64-byte blocks. *)
Lemma block_ind (P : bytes -> Prop) :
  (forall data, (length data < 64)%nat -> P data) ->
  (forall blk rest, length blk = 64%nat -> P rest -> P (blk ++ rest)) ->
  forall data, P data.
Proof.
  intros Hs Hb data. remember (length data) as n eqn:En. revert data En.
  induction n as [n IH] using lt_wf_ind. intros data En.
  destruct (decide (length data < 64)%nat) as [Hlt|Hge]; [by apply Hs|].
  apply split_block in Hge as (blk & rest & -> & Hl).
  apply Hb; [done|]. apply (IH (length rest)); [|done].
  rewrite length_app in En. lia.
Qed.

Lemma sha_absorb_rest st data : (length (sha_absorb st data).2 < 64)%nat.
Proof.
  revert st. induction data as [data Hs|blk rest Hb IH] using block_ind; intros st.
  - by rewrite sha_absorb_short.
  - by rewrite sha_absorb_block.
Qed.

Lemma sha_absorb_rest_mod st data :
  Z.of_nat (length (sha_absorb st data).2) = Z.of_nat (length data) mod 64.
Proof.
  revert st. induction data as [data Hs|blk rest Hb IH] using block_ind; intros st.
  - rewrite sha_absorb_short by done. cbn. rewrite Z.mod_small; lia.
  - rewrite sha_absorb_block, IH, length_app, Hb by done.
    rewrite <- (Z_mod_plus_full (Z.of_nat (length rest)) 1 64). f_equal. lia.
Qed.

Lemma sha_absorb_app st x y :
  sha_absorb st (x ++ y) = sha_absorb (sha_absorb st x).1 ((sha_absorb st x).2 ++ y).
Proof.
  revert st. induction x as [x Hs|blk rest Hb IH] using block_ind; intros st.
  - by rewrite (sha_absorb_short st x).
  - rewrite <- app_assoc, (sha_absorb_block st blk (rest ++ y)), (sha_absorb_block st blk rest) by done.
    apply IH.
Qed.

(** The reachable objects: fewer than 64 buffered bytes, not yet finished. *)
Definition sha_live (h : Sha256) : Prop :=
  (length (sha_buffer h) < 64)%nat /\ is_u64 (sha_bit_count h) /\ sha_finished h = false.

Lemma sha_reset_live : sha_live sha_reset.
Proof. repeat split; cbn; lia. Qed.

(** What [update] does, whatever is buffered and however the chunk straddles
    block boundaries: absorb the buffered bytes followed by the chunk. *)
Lemma sha_update_absorb h data :
  sha_live h ->
  sha_update h data =
  MkSha (sha_absorb (sha_state h) (sha_buffer h ++ data)).1
        (wrap64 (sha_bit_count h + Z.of_nat (length data) * 8))
        (sha_absorb (sha_state h) (sha_buffer h ++ data)).2 false.
Proof.
  intros (Hb & Hc & Hf). destruct h as [st bits buf fin]; cbn in *. subst fin.
  unfold sha_update; cbn [sha_finished sha_buffer sha_state sha_bit_count].
  rewrite orb_false_l. case_bool_decide as Hd.
  { subst data. rewrite app_nil_r, sha_absorb_short by done. cbn.
    rewrite Z.add_0_r. f_equal. unfold wrap64. rewrite Z.mod_small; ints. }
  case_bool_decide as He; cbn [negb andb].
  { subst buf. rewrite take_0, drop_0. cbn [app].
    destruct (sha_blocks (length data) st data) eqn:E. unfold sha_absorb. by rewrite E. }
  assert (Hl : length buf <> 0%nat) by (destruct buf; [done|cbn; lia]).
  set (used := Nat.min (64 - length buf) (length data)).
  assert (Hsplit : buf ++ data = (buf ++ take used data) ++ drop used data).
  { by rewrite <- app_assoc, take_drop. }
  assert (Hlen : length (buf ++ take used data) = Nat.min 64 (length buf + length data)).
  { rewrite length_app, length_take. lia. }
  destruct (Nat.eqb_spec (length (buf ++ take used data)) 64) as [E64|E64].
  - rewrite Hsplit, sha_absorb_block by done.
    destruct (sha_blocks _ _ (drop used data)) eqn:E. unfold sha_absorb. by rewrite E.
  - assert (Hd0 : drop used data = []) by (apply drop_ge; lia).
    rewrite Hsplit, Hd0, app_nil_r, sha_absorb_short by lia. cbn. by rewrite app_nil_r.
Qed.

Lemma sha_update_live h data : sha_live h -> sha_live (sha_update h data).
Proof.
  intros H. rewrite sha_update_absorb by done. repeat split; cbn.
  - apply sha_absorb_rest.
  - unfold wrap64. pose proof (Z.mod_pos_bound (sha_bit_count h + Z.of_nat (length data) * 8) two64). lia.
  - unfold wrap64. pose proof (Z.mod_pos_bound (sha_bit_count h + Z.of_nat (length data) * 8) two64). lia.
Qed.

(** hashing in any chunks is hashing the concatenation. *)
Lemma sha_update_app h a b :
  sha_live h -> sha_update (sha_update h a) b = sha_update h (a ++ b).
Proof.
  intros H. rewrite (sha_update_absorb (sha_update h a) b) by by apply sha_update_live.
  rewrite !sha_update_absorb by done. cbn [sha_state sha_buffer sha_bit_count].
  rewrite (app_assoc (sha_buffer h)), (sha_absorb_app _ (sha_buffer h ++ a) b). f_equal.
  unfold wrap64. rewrite Zplus_mod_idemp_l, length_app, Nat2Z.inj_add. f_equal. lia.
Qed.

(** The padding loop appends the zero bytes that make the buffered length 56. *)
Definition pad_zeros (buffered : nat) : nat := Z.to_nat ((56 - Z.of_nat buffered) mod 64).

Lemma sha_update_buffer_len h data :
  sha_live h ->
  Z.of_nat (length (sha_buffer (sha_update h data))) =
  (Z.of_nat (length (sha_buffer h)) + Z.of_nat (length data)) mod 64.
Proof.
  intros H. rewrite sha_update_absorb by done. cbn [sha_buffer].
  rewrite sha_absorb_rest_mod, length_app. f_equal. lia.
Qed.

Lemma pad_zeros_le n : (pad_zeros n <= 63)%nat.
Proof. unfold pad_zeros. pose proof (Z.mod_pos_bound (56 - Z.of_nat n) 64). lia. Qed.

Lemma pad_zeros_0 n : (n < 64)%nat -> pad_zeros n = O -> n = 56%nat.
Proof.
  unfold pad_zeros. intros Hn Hk. pose proof (Z.mod_pos_bound (56 - Z.of_nat n) 64).
  assert (H0 : (56 - Z.of_nat n) mod 64 = 0) by lia.
  apply Z.mod_divide in H0; [|lia]. destruct H0 as [q Hq]. clear Hk H. lia.
Qed.

Lemma pad_zeros_S n m k :
  pad_zeros n = S k -> Z.of_nat m = (Z.of_nat n + 1) mod 64 -> pad_zeros m = k.
Proof.
  unfold pad_zeros. intros Hk ->. pose proof (Z.mod_pos_bound (56 - Z.of_nat n) 64).
  assert (Hm : (56 - Z.of_nat n) mod 64 = Z.of_nat (S k)) by lia.
  rewrite Zminus_mod_idemp_r.
  replace (56 - (Z.of_nat n + 1)) with ((56 - Z.of_nat n) - 1) by lia.
  rewrite <- Zminus_mod_idemp_l, Hm, Z.mod_small by lia. lia.
Qed.

Lemma sha_pad_spec k fuel h :
  sha_live h -> pad_zeros (length (sha_buffer h)) = k -> (k <= fuel)%nat ->
  sha_pad fuel h = sha_update h (replicate k 0).
Proof.
  revert fuel h. induction k as [|k IH]; intros fuel h Hlive Hk Hf.
  - assert (H56 : length (sha_buffer h) = 56%nat) by (apply pad_zeros_0; [apply Hlive|done]).
    assert (sha_pad fuel h = h) as ->.
    { destruct fuel; [done|]. cbn. by rewrite H56. }
    unfold sha_update. by rewrite orb_true_r.
  - destruct fuel as [|fuel]; [lia|]. cbn [sha_pad].
    destruct (Nat.eqb_spec (length (sha_buffer h)) 56) as [E|E]; [by rewrite E in Hk|].
    change (replicate (S k) 0) with ([0] ++ replicate k 0).
    rewrite <- sha_update_app by done. apply IH; [by apply sha_update_live| |lia].
    eapply pad_zeros_S; [done|]. by apply sha_update_buffer_len.
Qed.

(** What the buffering and the padding loop come to on a whole message: pad it to a
    multiple of 64 bytes with 0x80, zeros and the big-endian bit length, and compress
    block by block from the initial words. *)
Definition sha_padded (data : bytes) : bytes :=
  data ++ [0x80] ++ replicate (pad_zeros ((length data + 1) mod 64)) 0 ++
  be_bytes64 (wrap64 (Z.of_nat (length data) * 8)).

Lemma sha256_absorbs data :
  digest_bytes (sha256 data) = words_bytes (sha_absorb (sha_state sha_reset) (sha_padded data)).1.
Proof.
  unfold sha256, sha_finish; cbn [digest_bytes].
  set (h := sha_update sha_reset data).
  assert (Hh : sha_live h) by apply sha_update_live, sha_reset_live.
  assert (Hfin : sha_finished h = false) by apply Hh.
  rewrite Hfin. cbn [snd sha_state].
  set (h1 := sha_update h [128]).
  assert (Hh1 : sha_live h1) by by apply sha_update_live.
  rewrite (sha_pad_spec (pad_zeros (length (sha_buffer h1)))); [|done|done|].
  2: { pose proof (pad_zeros_le (length (sha_buffer h1))). lia. }
  subst h1. rewrite !sha_update_app by done.
  assert (Hbits : sha_bit_count h = wrap64 (Z.of_nat (length data) * 8)).
  { subst h. by rewrite sha_update_absorb by apply sha_reset_live. }
  assert (Hlen : length (sha_buffer (sha_update h [128])) = ((length data + 1) mod 64)%nat).
  { apply Nat2Z.inj. subst h. rewrite sha_update_app by apply sha_reset_live.
    rewrite sha_update_buffer_len by apply sha_reset_live.
    rewrite length_app, Nat2Z.inj_mod. cbn [length sha_buffer sha_reset]. by rewrite Nat2Z.inj_add. }
  rewrite Hlen, Hbits. subst h. rewrite sha_update_app by apply sha_reset_live.
  rewrite sha_update_absorb by apply sha_reset_live. cbn [sha_state sha_buffer app].
  done.
Qed.

Lemma be_bytes32_length v : length (be_bytes32 v) = 4%nat.
Proof. done. Qed.

Lemma words_bytes_length s : length (words_bytes s) = 32%nat.
Proof. by destruct s. Qed.

Lemma sha256_length data : length (digest_bytes (sha256 data)) = 32%nat.
Proof. unfold sha256; cbn [digest_bytes]. apply words_bytes_length. Qed.

Lemma be_bytes32_u8 v : Forall is_u8 (be_bytes32 v).
Proof. repeat constructor; try apply land_255_u8. Qed.

Lemma sha256_u8 data : Forall is_u8 (digest_bytes (sha256 data)).
Proof.
  unfold sha256; cbn [digest_bytes]. unfold sha_finish; cbn [snd].
  destruct (sha_state _) as [a b c d e f g h].
  repeat apply Forall_app_2; apply be_bytes32_u8.
Qed.

(** ** Properties of digests *)
#[global] Instance digest_ltb_strict_total : StrictTotal digest_ltb.
Proof.
  split; unfold digest_ltb.
  - intros; apply st_irrefl.
  - intros; by eapply st_trans.
  - intros [x] [y] H1 H2; cbn in *. f_equal. by apply st_total.
Qed.

Lemma nibble_hex n : 0 <= n < 16 -> hex_value (hex_digit n) = Some n.
Proof.
  assert (H16 : Forall (fun n => hex_value (hex_digit n) = Some n) (map Z.of_nat (seq 0 16)))
    by (repeat (constructor; [vm_compute; reflexivity|]); constructor).
  intros H. rewrite Forall_forall in H16. apply H16, list_elem_of_In, in_map_iff.
  exists (Z.to_nat n). split; [lia|]. apply in_seq. lia.
Qed.

Lemma byte_nibbles b :
  is_u8 b -> 0 <= Z.land (Z.shiftr b 4) 15 < 16 /\ 0 <= Z.land b 15 < 16 /\
  Z.lor (Z.shiftl (Z.land (Z.shiftr b 4) 15) 4) (Z.land b 15) = b.
Proof.
  intros Hb.
  assert (Hall : Forall (fun b => 0 <= Z.land (Z.shiftr b 4) 15 < 16 /\ 0 <= Z.land b 15 < 16 /\
    Z.lor (Z.shiftl (Z.land (Z.shiftr b 4) 15) 4) (Z.land b 15) = b) (seqZ 0 256)).
  { apply (bool_decide_unpack _). vm_compute. reflexivity. }
  rewrite Forall_forall in Hall. apply Hall. rewrite elem_of_seqZ. ints.
Qed.

Lemma bytes_of_hex_of_bytes bs : Forall is_u8 bs -> bytes_of_hex (hex_of_bytes bs) = Some bs.
Proof.
  induction 1 as [|b bs Hb _ IH]; [done|].
  destruct (byte_nibbles b Hb) as (H1 & H2 & H3).
  cbn. by rewrite !nibble_hex, IH, H3 by done.
Qed.

Lemma hex_of_bytes_length bs : String.length (hex_of_bytes bs) = (2 * length bs)%nat.
Proof. induction bs as [|b bs IH]; cbn; [done|]. rewrite IH. lia. Qed.

(** A digest the runtime can hold: 32 bytes. *)
Definition digest_wf (d : Digest) : Prop :=
  length (digest_bytes d) = 32%nat /\ Forall is_u8 (digest_bytes d).

Lemma sha256_wf data : digest_wf (sha256 data).
Proof. split; [apply sha256_length|apply sha256_u8]. Qed.

Lemma digest_zero_wf : digest_wf digest_zero.
Proof. split; [done|]. apply (bool_decide_unpack _). vm_compute. reflexivity. Qed.

Lemma digest_parse_hex d : digest_wf d -> digest_parse (digest_hex d) = Some d.
Proof.
  intros [Hl Hb]. unfold digest_parse, digest_hex.
  rewrite hex_of_bytes_length, Hl. cbn [Nat.mul Nat.add Nat.eqb].
  rewrite bytes_of_hex_of_bytes by done. by destruct d.
Qed.

(** ** Properties of the digest builder *)
Definition builder_entry (e : string * bytes) : bytes := builder_add [] e.1 e.2.
Definition builder_entries (es : list (string * bytes)) : bytes :=
  foldl (fun buffer e => builder_add buffer e.1 e.2) [] es.

Definition entry_bounded (e : string * bytes) : Prop :=
  is_u32 (Z.of_nat (String.length e.1)) /\ is_u64 (Z.of_nat (length e.2)).

Lemma builder_add_app buffer label data :
  builder_add buffer label data = buffer ++ builder_entry (label, data).
Proof. done. Qed.

Lemma builder_entries_cons e es : builder_entries (e :: es) = builder_entry e ++ builder_entries es.
Proof.
  unfold builder_entries. cbn [foldl].
  enough (H : forall acc es', foldl (fun buffer e => builder_add buffer e.1 e.2) acc es' =
    acc ++ foldl (fun buffer e => builder_add buffer e.1 e.2) [] es') by apply H.
  intros acc es'. revert acc. induction es' as [|e' es' IH]; intros acc; cbn [foldl].
  { by rewrite app_nil_r. }
  rewrite IH, (IH (builder_add [] _ _)), builder_add_app, <- app_assoc. done.
Qed.

(** the label and the value are length-prefixed, so two different lists of
    labelled values never produce the same buffer: ("ab","c") and ("a","bc")
    cannot collide before hashing. *)
Lemma builder_entries_inj es1 es2 :
  Forall entry_bounded es1 -> Forall entry_bounded es2 ->
  builder_entries es1 = builder_entries es2 -> es1 = es2.
Proof.
  intros H1. revert es2.
  induction H1 as [|[l1 d1] es1 [Hl1 Hd1] _ IH]; intros es2 H2 H.
  { destruct es2 as [|[l2 d2] es2]; [done|]. by rewrite builder_entries_cons in H. }
  destruct H2 as [|[l2 d2] es2 [Hl2 Hd2] H2]; [by rewrite builder_entries_cons in H|].
  rewrite !builder_entries_cons in H. unfold builder_entry, builder_add in H. cbn in Hl1, Hd1, Hl2, Hd2.
  cbn [fst snd app] in H. rewrite <- !app_assoc in H.
  apply app_inj_1 in H as [Hlen H]; [|by rewrite !le_bytes_length].
  apply le_bytes_inj in Hlen; [|ints..].
  apply app_inj_1 in H as [Hdat H]; [|by rewrite !le_bytes_length].
  apply le_bytes_inj in Hdat; [|ints..].
  apply app_inj_1 in H as [Hlab H]; [|rewrite !bytes_of_string_length; lia].
  apply app_inj_1 in H as [Hd H]; [|lia].
  apply (inj bytes_of_string) in Hlab. rewrite (IH es2) by done. congruence.
Qed.

(** Conversion compares digests by their messages before it computes them. *)
#[global] Strategy 1000 [sha256 crc32c].
