(* ===== verification/Fips.v ===== *)
(** * SHA-256 as the standard defines it

    FIPS 180-4 read as mathematics, independently of src/hash.cpp: the initial words and
    the round constants are computed from the square and cube roots of primes, rotations
    are divisions and remainders, the round functions are given by their bits, padding
    solves the congruence on the message's length, numbers are written in base 256. The
    incremental object of [Hash] is proved to compute this function on every message. *)
From S2P Require Import Prelude Hash.

(** ** The standard *)
(** 2.2.1: words are added modulo 2^32. *)
Definition word_mod : Z := 2 ^ 32.
Definition plus32 (l : list Z) : Z := foldr Z.add 0 l mod word_mod.

(** A word with the given bits, from the highest position down. *)
Fixpoint word_of (n : nat) (bit : Z -> bool) : Z :=
  match n with
  | O => 0
  | S n' => Z.b2z (bit (Z.of_nat n')) * 2 ^ Z.of_nat n' + word_of n' bit
  end.
Definition word32 (bit : Z -> bool) : Z := word_of 32 bit.

(** 2.2.2: the low [n] bits of a rotated word come out on top. *)
Definition ROTR (n x : Z) : Z := x / 2 ^ n + (x mod 2 ^ n) * 2 ^ (32 - n).
Definition SHR (n x : Z) : Z := x / 2 ^ n.

(** 4.1.2: Ch chooses by the bits of its first argument, Maj takes the majority, and the
    sums are parities. *)
Definition Ch (x y z : Z) : Z :=
  word32 (fun i => if Z.testbit x i then Z.testbit y i else Z.testbit z i).
Definition majority (a b c : bool) : bool := Nat.leb 2 (Nat.b2n a + Nat.b2n b + Nat.b2n c).
Definition Maj (x y z : Z) : Z :=
  word32 (fun i => majority (Z.testbit x i) (Z.testbit y i) (Z.testbit z i)).
Definition parity (x y z : Z) : Z :=
  word32 (fun i => Nat.odd (Nat.b2n (Z.testbit x i) + Nat.b2n (Z.testbit y i) + Nat.b2n (Z.testbit z i))).
Definition Sigma0 (x : Z) : Z := parity (ROTR 2 x) (ROTR 13 x) (ROTR 22 x).
Definition Sigma1 (x : Z) : Z := parity (ROTR 6 x) (ROTR 11 x) (ROTR 25 x).
Definition sigma0 (x : Z) : Z := parity (ROTR 7 x) (ROTR 18 x) (SHR 3 x).
Definition sigma1 (x : Z) : Z := parity (ROTR 17 x) (ROTR 19 x) (SHR 10 x).

(** 4.2.2 and 5.3.3: the first 32 bits of the fractional parts of the cube roots of the
    first 64 primes and of the square roots of the first eight. *)
Definition prime (n : nat) : bool := forallb (fun d => negb (Nat.eqb (n mod d) 0)) (seq 2 (n - 2)).
Definition primes : list Z := map Z.of_nat (filter (fun n => prime n = true) (seq 2 310)).
(** The integer cube root, by bisection. *)
Fixpoint cube_root (steps : nat) (low high n : Z) : Z :=
  match steps with
  | O => low
  | S steps' =>
      let middle := (low + high) / 2 in
      if middle * middle * middle <=? n then cube_root steps' middle high n else cube_root steps' low middle n
  end.
Definition K (t : nat) : Z := cube_root 48 0 (2 ^ 40) (nth t primes 0 * 2 ^ 96) mod word_mod.
Definition H0 (i : nat) : Z := Z.sqrt (nth i primes 0 * 2 ^ 64) mod word_mod.

(** 5.1.1: a message of [l] bits is followed by a bit 1 and by the least number of bits
    0 that leaves room for 64 bits in a multiple of 512; all three are whole bytes. *)
Definition zero_bits (l : Z) : Z := (448 - (l + 1)) mod 512.
Definition digits256 (n : nat) (v : Z) : bytes := map (fun i => v / 256 ^ (Z.of_nat n - 1 - Z.of_nat i) mod 256) (seq 0 n).
Definition padded (message : bytes) : bytes :=
  let l := 8 * Z.of_nat (length message) in
  message ++ 128 :: replicate (Z.to_nat ((zero_bits l + 1) / 8 - 1)) 0 ++ digits256 8 l.

(** 5.2.1: word [t] of block [i]. *)
Definition number256 (bs : bytes) : Z := foldl (fun acc b => acc * 256 + b) 0 bs.
Definition M (message : bytes) (i t : nat) : Z := number256 (take 4 (drop (64 * i + 4 * t) message)).

(** 6.2.2, step 1: the message schedule, the latest word first. *)
Fixpoint W (block : nat -> Z) (n : nat) : list Z :=
  match n with
  | O => []
  | S t =>
      let w := W block t in
      let back k := nth (k - 1) w 0 in
      (if Nat.ltb t 16 then block t
       else plus32 [sigma1 (back 2%nat); back 7%nat; sigma0 (back 15%nat); back 16%nat]) :: w
  end.
Definition W_at (block : nat -> Z) (t : nat) : Z := hd 0 (W block (S t)).

(** Steps 2 and 3: the working variables. *)
Definition Eight : Type := Z * Z * Z * Z * Z * Z * Z * Z.
Definition fips_round (block : nat -> Z) (v : Eight) (t : nat) : Eight :=
  let '(a, b, c, d, e, f, g, h) := v in
  let T1 := plus32 [h; Sigma1 e; Ch e f g; K t; W_at block t] in
  let T2 := plus32 [Sigma0 a; Maj a b c] in
  (plus32 [T1; T2], a, b, c, plus32 [d; T1], e, f, g).

(** Step 4: the intermediate hash value. *)
Definition added (u v : Eight) : Eight :=
  let '(a, b, c, d, e, f, g, h) := u in let '(a', b', c', d', e', f', g', h') := v in
  (plus32 [a; a'], plus32 [b; b'], plus32 [c; c'], plus32 [d; d'],
   plus32 [e; e'], plus32 [f; f'], plus32 [g; g'], plus32 [h; h']).
Definition block_step (message : bytes) (H : Eight) (i : nat) : Eight :=
  added H (foldl (fips_round (M message i)) H (seq 0 64)).
Definition initial : Eight := (H0 0, H0 1, H0 2, H0 3, H0 4, H0 5, H0 6, H0 7).

Definition digest_of (H : Eight) : bytes :=
  let '(a, b, c, d, e, f, g, h) := H in concat (map (digits256 4) [a; b; c; d; e; f; g; h]).
Definition fips_sha256 (message : bytes) : bytes :=
  let m := padded message in
  digest_of (foldl (block_step m) initial (seq 0 (length m / 64))).

Example fips_abc : fips_sha256 [97; 98; 99] = [
  0xba; 0x78; 0x16; 0xbf; 0x8f; 0x01; 0xcf; 0xea; 0x41; 0x41; 0x40; 0xde; 0x5d; 0xae; 0x22; 0x23;
  0xb0; 0x03; 0x61; 0xa3; 0x96; 0x17; 0x7a; 0x9c; 0xb4; 0x10; 0xff; 0x61; 0xf2; 0x00; 0x15; 0xad].
Proof. vm_compute. reflexivity. Qed.

(** ** The code's words are the standard's *)
Lemma word_of_bound n bit : 0 <= word_of n bit < 2 ^ Z.of_nat n.
Proof.
  induction n as [|n IH]; [done|]. cbn [word_of]. rewrite Nat2Z.inj_succ, Z.pow_succ_r by lia.
  destruct (bit _); cbn [Z.b2z]; lia.
Qed.
Lemma word_of_spec n bit v : 0 <= v < 2 ^ Z.of_nat n ->
  (forall i, 0 <= i < Z.of_nat n -> bit i = Z.testbit v i) -> word_of n bit = v.
Proof.
  revert v. induction n as [|n IH]; intros v Hv Hbit; [cbn in *; lia|]. cbn [word_of].
  rewrite Nat2Z.inj_succ, Z.pow_succ_r in Hv by lia.
  assert (Hp : 0 < 2 ^ Z.of_nat n) by lia.
  rewrite (IH (v mod 2 ^ Z.of_nat n)).
  - rewrite Hbit by lia. rewrite Z.testbit_spec' by lia.
    pose proof (Z.div_mod v (2 ^ Z.of_nat n)). rewrite (Z.mod_small (v / _) 2); [lia|].
    split; [apply Z.div_pos; lia|]. apply Z.div_lt_upper_bound; lia.
  - by apply Z.mod_pos_bound.
  - intros i Hi. rewrite Hbit by lia. by rewrite Z.mod_pow2_bits_low by lia.
Qed.
Lemma word32_spec v bit : is_u32 v -> (forall i, 0 <= i < 32 -> bit i = Z.testbit v i) -> word32 bit = v.
Proof. intros Hv. by apply (word_of_spec 32). Qed.
Lemma word32_u32 bit : is_u32 (word32 bit).
Proof. apply (word_of_bound 32). Qed.

Lemma land_u32 a b : is_u32 a -> is_u32 b -> is_u32 (Z.land a b).
Proof.
  intros Ha Hb. assert (E : Z.land a b = Z.land a b mod 2 ^ 32).
  { rewrite <- Z.land_ones by lia. rewrite <- Z.land_assoc. f_equal. rewrite Z.land_ones by lia.
    symmetry. apply Z.mod_small. exact Hb. }
  rewrite E. by apply Z.mod_pos_bound.
Qed.
Lemma add32_u32 a b : is_u32 (add32 a b).
Proof. apply Z.mod_pos_bound. lia. Qed.
Lemma plus32_u32 l : is_u32 (plus32 l).
Proof. by apply Z.mod_pos_bound. Qed.

Lemma lor_disjoint a b n : 0 <= n -> 0 <= a < 2 ^ n -> Z.lor a (b * 2 ^ n) = a + b * 2 ^ n.
Proof.
  intros Hn Ha. assert (H0 : Z.land a (b * 2 ^ n) = 0).
  { apply Z.bits_inj'. intros i Hi. rewrite Z.land_spec, Z.bits_0.
    destruct (Z.ltb_spec i n); [by rewrite Z.mul_pow2_bits_low, andb_false_r by lia|].
    rewrite <- (Z.mod_small a (2 ^ n)) by lia.
    by rewrite Z.mod_pow2_bits_high by lia. }
  rewrite <- Z.lxor_lor by done. symmetry. by apply Z.add_nocarry_lxor.
Qed.
Lemma rotr_ROTR x n : is_u32 x -> 0 < n < 32 -> rotr x n = ROTR n x.
Proof.
  intros Hx Hn. unfold rotr, ROTR. change mask32 with (Z.ones 32).
  rewrite Z.land_ones, Z.shiftr_div_pow2, Z.shiftl_mul_pow2 by lia.
  assert (E : 2 ^ 32 = 2 ^ n * 2 ^ (32 - n)) by (rewrite <- Z.pow_add_r by lia; f_equal; lia).
  assert (0 < 2 ^ n) by (apply Z.pow_pos_nonneg; lia). assert (0 < 2 ^ (32 - n)) by (apply Z.pow_pos_nonneg; lia).
  rewrite E, Z.mul_mod_distr_r by lia. apply lor_disjoint; [lia|]. split; [apply Z.div_pos; [apply Hx|lia]|].
  apply Z.div_lt_upper_bound; [lia|]. rewrite <- E. apply Hx.
Qed.
Lemma ROTR_u32 x n : is_u32 x -> 0 < n < 32 -> is_u32 (ROTR n x).
Proof.
  intros Hx Hn. unfold ROTR, is_u32 in *.
  assert (E : 2 ^ 32 = 2 ^ n * 2 ^ (32 - n)) by (rewrite <- Z.pow_add_r by lia; f_equal; lia).
  change 4294967296 with (2 ^ 32) in *. rewrite E in *.
  assert (0 < 2 ^ n) by (apply Z.pow_pos_nonneg; lia). assert (0 < 2 ^ (32 - n)) by (apply Z.pow_pos_nonneg; lia).
  pose proof (Z.mod_pos_bound x (2 ^ n)). assert (0 <= x / 2 ^ n < 2 ^ (32 - n)).
  { split; [apply Z.div_pos; lia|]. apply Z.div_lt_upper_bound; lia. }
  nia.
Qed.
Lemma shiftr_SHR x n : 0 <= n -> Z.shiftr x n = SHR n x.
Proof. apply Z.shiftr_div_pow2. Qed.
Lemma SHR_u32 x n : is_u32 x -> 0 <= n -> is_u32 (SHR n x).
Proof.
  intros Hx Hn. unfold SHR, is_u32 in *. assert (0 < 2 ^ n) by (apply Z.pow_pos_nonneg; lia).
  split; [apply Z.div_pos; lia|]. eapply Z.le_lt_trans; [apply Z.div_le_upper_bound|apply Hx]; nia.
Qed.
Create HintDb word.
#[local] Hint Resolve lxor_u32 not32_u32 land_u32 add32_u32 plus32_u32 ROTR_u32 SHR_u32 word32_u32 : word.

Ltac by_bits := apply word32_spec; [auto with word|intros i Hi;
  rewrite ?Z.lxor_spec, ?Z.land_spec; repeat match goal with |- context [Z.testbit ?x i] =>
    let b := fresh in generalize (Z.testbit x i); intros b; destruct b end; reflexivity].
Lemma parity_lxor x y z : is_u32 x -> is_u32 y -> is_u32 z -> parity x y z = Z.lxor (Z.lxor x y) z.
Proof. intros. unfold parity. by_bits. Qed.
Lemma Maj_lxor x y z : is_u32 x -> is_u32 y -> is_u32 z ->
  Maj x y z = Z.lxor (Z.lxor (Z.land x y) (Z.land x z)) (Z.land y z).
Proof. intros. unfold Maj, majority. by_bits. Qed.
Lemma Ch_lxor x y z : is_u32 x -> is_u32 y -> is_u32 z ->
  Ch x y z = Z.lxor (Z.land x y) (Z.land (not32 x) z).
Proof.
  intros. unfold Ch. apply word32_spec; [auto with word|]. intros i Hi. unfold not32. change mask32 with (Z.ones 32).
  rewrite Z.lxor_spec, !Z.land_spec, Z.lxor_spec, (Z.ones_spec_low 32 i) by lia.
  by destruct (Z.testbit x i), (Z.testbit y i), (Z.testbit z i).
Qed.

(** ** Padding and numbers *)
Lemma land_255_digit v : Z.land v 255 = v mod 256.
Proof. apply land_255. Qed.
Lemma be_bytes32_digits v : be_bytes32 v = digits256 4 v.
Proof. unfold be_bytes32, digits256. cbn [seq map]. by rewrite !land_255, !Z.shiftr_div_pow2, Z.div_1_r by lia. Qed.
Lemma be_bytes64_digits v : be_bytes64 (wrap64 v) = digits256 8 v.
Proof.
  unfold be_bytes64, digits256. apply map_ext_in. intros i Hi%in_seq.
  replace (256 ^ (Z.of_nat 8 - 1 - Z.of_nat i)) with (2 ^ ((7 - Z.of_nat i) * 8)).
  2: { change 256 with (2 ^ 8). rewrite <- Z.pow_mul_r by lia. f_equal. lia. }
  rewrite <- Z.shiftr_div_pow2 by lia. change 256 with (2 ^ 8). change 255 with (Z.ones 8).
  rewrite <- Z.land_ones by lia. unfold wrap64. change two64 with (2 ^ 64). apply Z.bits_inj'. intros j Hj.
  rewrite !Z.land_spec, !Z.shiftr_spec by lia. destruct (Z.ltb_spec j 8).
  - by rewrite Z.mod_pow2_bits_low by lia.
  - by rewrite Z.ones_spec_high, !andb_false_r by lia.
Qed.
Lemma pad_zeros_standard n :
  pad_zeros ((n + 1) mod 64) = Z.to_nat ((zero_bits (8 * Z.of_nat n) + 1) / 8 - 1).
Proof.
  unfold pad_zeros, zero_bits. f_equal. rewrite Nat2Z.inj_mod, Nat2Z.inj_add. Z.to_euclidean_division_equations. lia.
Qed.
Lemma sha_padded_standard message : sha_padded message = padded message.
Proof.
  unfold sha_padded, padded. cbv zeta. by rewrite pad_zeros_standard, be_bytes64_digits, (Z.mul_comm 8).
Qed.
Lemma padded_whole message : exists n, length (padded message) = (64 * n)%nat.
Proof.
  unfold padded. cbv zeta. rewrite length_app. cbn [length]. rewrite length_app, length_replicate. cbn [length].
  unfold digits256. rewrite length_map, length_seq. set (l := Z.of_nat (length message)).
  assert (E : (zero_bits (8 * l) + 1) / 8 - 1 = 55 - l - 64 * ((447 - 8 * l) / 512)).
  { unfold zero_bits. replace (448 - (8 * l + 1)) with (447 - 8 * l) by lia. rewrite Z.mod_eq by lia.
    set (k := (447 - 8 * l) / 512). replace (447 - 8 * l - 512 * k + 1) with ((56 - l - 64 * k) * 8) by lia.
    rewrite Z.div_mul by lia. lia. }
  exists (Z.to_nat (1 - (447 - 8 * l) / 512)). rewrite E. subst l.
  pose proof (Z.div_mod (447 - 8 * Z.of_nat (length message)) 512).
  pose proof (Z.mod_pos_bound (447 - 8 * Z.of_nat (length message)) 512).
  set (k := (447 - 8 * Z.of_nat (length message)) / 512) in *.
  set (r := (447 - 8 * Z.of_nat (length message)) mod 512) in *. clearbody k r. lia.
Qed.
Lemma digits256_u8 n v : Forall is_u8 (digits256 n v).
Proof.
  apply Forall_forall. intros b Hb. apply list_elem_of_fmap in Hb as (i & -> & _). apply (Z.mod_pos_bound _ 256). lia.
Qed.
Lemma padded_u8 message : Forall is_u8 message -> Forall is_u8 (padded message).
Proof.
  intros H. apply Forall_app; split; [done|]. constructor; [ints|]. apply Forall_app; split; [|apply digits256_u8].
  apply Forall_replicate. ints.
Qed.

(** ** The schedule *)
Lemma number256_word a b c d : is_u8 a -> is_u8 b -> is_u8 c -> is_u8 d ->
  Z.lor (Z.lor (Z.shiftl a 24) (Z.shiftl b 16)) (Z.lor (Z.shiftl c 8) d) = number256 [a; b; c; d].
Proof.
  intros Ha Hb Hc Hd. unfold is_u8 in *. unfold number256. cbn [foldl]. rewrite !Z.shiftl_mul_pow2 by lia.
  rewrite (Z.lor_comm (c * 2 ^ 8)), (lor_disjoint d c 8), (Z.lor_comm (a * 2 ^ 24)) by lia.
  replace (Z.lor (b * 2 ^ 16) (a * 2 ^ 24)) with ((b + a * 2 ^ 8) * 2 ^ 16)
    by (rewrite (lor_disjoint (b * 2 ^ 16) a 24) by lia; lia).
  rewrite Z.lor_comm, (lor_disjoint (d + c * 2 ^ 8) (b + a * 2 ^ 8) 16) by lia. lia.
Qed.
Lemma number256_u32 a b c d : is_u8 a -> is_u8 b -> is_u8 c -> is_u8 d -> is_u32 (number256 [a; b; c; d]).
Proof. unfold is_u8, is_u32, number256. cbn [foldl]. lia. Qed.

Lemma four_octets (l : bytes) k : Forall is_u8 l -> (k + 4 <= length l)%nat ->
  exists a b c d, take 4 (drop k l) = [a; b; c; d] /\ is_u8 a /\ is_u8 b /\ is_u8 c /\ is_u8 d /\
    nth k l 0 = a /\ nth (k + 1) l 0 = b /\ nth (k + 2) l 0 = c /\ nth (k + 3) l 0 = d.
Proof.
  intros Hu Hl. rewrite <- (take_drop k l) in Hu at 1. apply Forall_app in Hu as [_ Hu].
  assert (Hn : forall i, nth (k + i) l 0 = nth i (drop k l) 0).
  { intros i. rewrite <- (take_drop k l) at 1. rewrite app_nth2 by (rewrite length_take; lia).
    f_equal. rewrite length_take. lia. }
  rewrite !Hn, <- (Nat.add_0_r k), Hn, Nat.add_0_r. pose proof (length_drop l k) as Hd.
  destruct (drop k l) as [|a [|b [|c [|d rest]]]]; cbn [length] in Hd; try lia.
  repeat (apply Forall_cons in Hu as [? Hu]). exists a, b, c, d. cbn. rewrite take_0. done.
Qed.
Lemma block_word_standard (blk : bytes) t : Forall is_u8 blk -> length blk = 64%nat -> (t < 16)%nat ->
  block_word blk t = number256 (take 4 (drop (4 * t) blk)) /\ is_u32 (block_word blk t).
Proof.
  intros Hu Hl Ht. destruct (four_octets blk (4 * t) Hu) as (a & b & c & d & -> & Ha & Hb & Hc & Hd & E0 & E1 & E2 & E3); [lia|].
  unfold block_word, at_word. rewrite (Nat.mul_comm t 4), E0, E1, E2, E3, number256_word by done.
  split; [done|by apply number256_u32].
Qed.

Lemma W_length f n : length (W f n) = n.
Proof. induction n as [|n IH]; [done|]. cbn [W length]. by rewrite IH. Qed.
Lemma W_ext f g n : (forall t, (t < n)%nat -> f t = g t) -> W f n = W g n.
Proof.
  induction n as [|n IH]; intros H; [done|]. cbn [W]. rewrite IH by (intros; apply H; lia).
  f_equal. destruct (Nat.ltb_spec n 16); [apply H; lia|done].
Qed.
Definition words32 (f : nat -> Z) : Prop := forall t, (t < 16)%nat -> is_u32 (f t).
Lemma W_u32 f n : words32 f -> Forall is_u32 (W f n).
Proof.
  intros H. induction n as [|n IH]; cbn [W]; constructor; [|done].
  destruct (Nat.ltb_spec n 16); [by apply H|apply plus32_u32].
Qed.
Lemma nth_u32 l k : Forall is_u32 l -> is_u32 (nth k l 0).
Proof. intros H. revert k. induction H as [|x l Hx _ IH]; intros [|k]; cbn; [ints..|done|apply IH]. Qed.
Lemma nth_W f n t : (t < n)%nat -> nth t (rev (W f n)) 0 = W_at f t.
Proof.
  induction n as [|n IH]; [lia|]. intros Ht. cbn [W rev].
  destruct (decide (t < n)%nat); [rewrite app_nth1 by (rewrite length_rev, W_length; lia); by apply IH|].
  assert (t = n) as -> by lia. rewrite app_nth2 by (rewrite length_rev, W_length; lia).
  by rewrite length_rev, W_length, Nat.sub_diag.
Qed.

Lemma K_table : map K (seq 0 64) = kSha256K.
Proof. vm_compute. reflexivity. Qed.
#[local] Opaque K.
Lemma at_word_K t : (t < 64)%nat -> at_word kSha256K t = K t.
Proof.
  intros Ht. unfold at_word. rewrite <- K_table.
  rewrite (nth_indep _ 0 (K 0)) by (rewrite length_map, length_seq; lia). by rewrite (map_nth K), seq_nth.
Qed.

Lemma add32_add32 a b c : add32 (add32 a b) c = add32 a (b + c).
Proof. unfold add32, wrap32. by rewrite Zplus_mod_idemp_l, Z.add_assoc. Qed.
Lemma plus32_step a b c d : add32 (add32 (add32 a b) c) d = plus32 [a; b; c; d].
Proof. rewrite !add32_add32. unfold add32, plus32. cbn [foldr]. by rewrite Z.add_0_r. Qed.
Lemma add32_plus a b : add32 a b = plus32 [a; b].
Proof. unfold add32, plus32. cbn [foldr]. by rewrite Z.add_0_r. Qed.
Lemma plus32_mix a b c d : plus32 [a; b; c; d] = plus32 [d; c; b; a].
Proof. unfold plus32. apply (f_equal (fun v => v mod word_mod)). cbn [foldr]. lia. Qed.

(** The sums of the code, by the parities of the standard. *)
Lemma rotations_parity x p q r : is_u32 x -> 0 < p < 32 -> 0 < q < 32 -> 0 < r < 32 ->
  Z.lxor (Z.lxor (rotr x p) (rotr x q)) (rotr x r) = parity (ROTR p x) (ROTR q x) (ROTR r x).
Proof. intros. rewrite parity_lxor by auto with word. by rewrite !rotr_ROTR. Qed.
Lemma shift_parity x p q r : is_u32 x -> 0 < p < 32 -> 0 < q < 32 -> 0 <= r ->
  Z.lxor (Z.lxor (rotr x p) (rotr x q)) (Z.shiftr x r) = parity (ROTR p x) (ROTR q x) (SHR r x).
Proof. intros. rewrite parity_lxor by auto with word. by rewrite !rotr_ROTR, shiftr_SHR. Qed.

(** The list the code extends at its end is the standard's, reversed. *)
Lemma back_word f n k : (0 < k <= n)%nat -> at_word (rev (W f n)) (n - k) = nth (k - 1) (W f n) 0.
Proof.
  intros Hk. unfold at_word. rewrite rev_nth by (rewrite W_length; lia). rewrite W_length. f_equal. lia.
Qed.
Lemma extend_standard f n : words32 f -> (16 <= n)%nat -> extend_schedule (rev (W f n)) n = rev (W f (S n)).
Proof.
  intros Hf Hn. unfold extend_schedule. cbn [W rev]. destruct (Nat.ltb_spec n 16); [lia|].
  rewrite !back_word by lia. pose proof (W_u32 f n Hf) as Hw.
  rewrite !shift_parity by (lia || by apply nth_u32). do 2 f_equal.
  rewrite plus32_step. apply plus32_mix.
Qed.
Lemma schedule_standard blk f :
  (forall t, (t < 16)%nat -> f t = block_word blk t) -> words32 f -> schedule blk = rev (W f 64).
Proof.
  intros Hf Hw. unfold schedule.
  assert (E : map (block_word blk) (seq 0 16) = rev (W f 16)).
  { transitivity (map f (seq 0 16)); [|reflexivity]. apply map_ext_in. intros t Ht%in_seq. symmetry. apply Hf. lia. }
  rewrite E. assert (H : forall k, foldl extend_schedule (rev (W f 16)) (seq 16 k) = rev (W f (16 + k))).
  { induction k as [|k IH]; [done|]. rewrite seq_S, foldl_snoc, IH. rewrite extend_standard by (done || lia).
    done. }
  apply (H 48%nat).
Qed.

(** ** Rounds and blocks *)
Definition eight (s : ShaWords) : Eight :=
  (sha_a s, sha_b s, sha_c s, sha_d s, sha_e s, sha_f s, sha_g s, sha_h s).
Definition sha_words (s : ShaWords) : Prop :=
  Forall is_u32 [sha_a s; sha_b s; sha_c s; sha_d s; sha_e s; sha_f s; sha_g s; sha_h s].

Ltac words := repeat match goal with H : Forall is_u32 (_ :: _) |- _ => apply Forall_cons in H as [? H] end.

Lemma plus32_five p q r u v : add32 (add32 (add32 (add32 p q) r) u) v = plus32 [p; q; r; u; v].
Proof. rewrite !add32_add32. unfold add32, plus32. cbn [foldr]. by rewrite Z.add_0_r. Qed.
Lemma round_standard f s t : sha_words s -> (t < 64)%nat ->
  eight (sha_round (rev (W f 64)) s t) = fips_round f (eight s) t /\ sha_words (sha_round (rev (W f 64)) s t).
Proof.
  intros Hs Ht. destruct s as [a b c d e k g h]. unfold sha_words in Hs. cbn in Hs. words.
  unfold sha_round, eight, fips_round, sha_words. cbn [sha_a sha_b sha_c sha_d sha_e sha_f sha_g sha_h].
  split; [|repeat (apply Forall_cons; split; [by auto with word|]); constructor].
  rewrite at_word_K by done. unfold at_word. rewrite nth_W by done. unfold Sigma0, Sigma1.
  rewrite !rotations_parity by (done || lia). rewrite Ch_lxor, Maj_lxor by done.
  by rewrite !(plus32_five h), !add32_plus.
Qed.

Lemma rounds_standard f s n : sha_words s -> (n <= 64)%nat ->
  eight (foldl (sha_round (rev (W f 64))) s (seq 0 n)) = foldl (fips_round f) (eight s) (seq 0 n) /\
  sha_words (foldl (sha_round (rev (W f 64))) s (seq 0 n)).
Proof.
  intros Hs. induction n as [|n IH]; intros Hn; [done|]. rewrite seq_S, !foldl_snoc.
  destruct IH as [<- Hw]; [lia|]. by apply round_standard.
Qed.

(** The words of the first block of a message. *)
Lemma first_block blk rest t : length blk = 64%nat -> (t < 16)%nat -> M (blk ++ rest) 0 t = M blk 0 t.
Proof.
  intros Hl Ht. unfold M. f_equal. rewrite !take_drop_commute. f_equal. by rewrite take_app_le by lia.
Qed.
Lemma later_block blk rest i t : length blk = 64%nat -> M (blk ++ rest) (S i) t = M rest i t.
Proof. intros Hl. unfold M. rewrite drop_app_ge by lia. do 3 f_equal. lia. Qed.

Lemma round_ext f g v t : (forall n, W f n = W g n) -> fips_round f v t = fips_round g v t.
Proof. intros H. unfold fips_round, W_at. by rewrite H. Qed.
Lemma rounds_ext f g v ts : (forall n, W f n = W g n) -> foldl (fips_round f) v ts = foldl (fips_round g) v ts.
Proof.
  intros H. revert v. induction ts as [|t ts IH]; intros v; cbn [foldl]; [reflexivity|].
  rewrite (round_ext f g v t H). apply IH.
Qed.
Lemma W_first f g n : (forall t, (t < 16)%nat -> f t = g t) -> W f n = W g n.
Proof.
  intros H. induction n as [|n IH]; cbn [W]; [reflexivity|]. rewrite IH. f_equal.
  destruct (Nat.ltb_spec n 16); [by apply H|reflexivity].
Qed.

Lemma compress_standard blk rest s : Forall is_u8 blk -> length blk = 64%nat -> sha_words s ->
  eight (compress s blk) = block_step (blk ++ rest) (eight s) 0 /\ sha_words (compress s blk).
Proof.
  intros Hu Hl Hs.
  assert (Hw : forall t, (t < 16)%nat -> M blk 0 t = block_word blk t /\ is_u32 (M blk 0 t)).
  { intros t Ht. destruct (block_word_standard blk t Hu Hl Ht) as [E H]. unfold M. rewrite Nat.mul_0_r, Nat.add_0_l, <- E. done. }
  unfold compress, block_step. rewrite (schedule_standard blk (M blk 0)); [|by apply Hw|intros t Ht; by apply Hw].
  rewrite (rounds_ext (M (blk ++ rest) 0) (M blk 0)).
  2: { intros n. apply W_first. intros t Ht. by apply first_block. }
  destruct (rounds_standard (M blk 0) s 64 Hs) as [<- Hr]; [lia|].
  generalize dependent (foldl (sha_round (rev (W (M blk 0) 64))) s (seq 0 64)). intros r _.
  cbv zeta. split; [unfold eight, added; cbn [sha_a sha_b sha_c sha_d sha_e sha_f sha_g sha_h]; by rewrite !add32_plus|].
  unfold sha_words. cbn [sha_a sha_b sha_c sha_d sha_e sha_f sha_g sha_h].
  repeat (apply Forall_cons; split; [by auto with word|]). constructor.
Qed.

Lemma later_step blk rest H i : length blk = 64%nat -> block_step (blk ++ rest) H (S i) = block_step rest H i.
Proof.
  intros Hl. unfold block_step. rewrite (rounds_ext (M (blk ++ rest) (S i)) (M rest i)); [reflexivity|].
  intros k. apply W_first. intros t _. apply later_block, Hl.
Qed.
Lemma later_steps blk rest H l : length blk = 64%nat ->
  foldl (block_step (blk ++ rest)) H (map S l) = foldl (block_step rest) H l.
Proof.
  intros Hl. revert H. induction l as [|i l IH]; intros H; cbn [map foldl]; [reflexivity|].
  rewrite later_step by exact Hl. apply IH.
Qed.

(** Absorbing whole blocks is the standard's loop over them. *)
Lemma absorb_standard n message s : Forall is_u8 message -> length message = (64 * n)%nat -> sha_words s ->
  eight (sha_absorb s message).1 = foldl (block_step message) (eight s) (seq 0 n).
Proof.
  revert message s. induction n as [|n IH]; intros message s Hu Hl Hs.
  { rewrite sha_absorb_short by lia. done. }
  destruct (split_block message) as (blk & rest & -> & Hb); [lia|]. rewrite length_app in Hl.
  apply Forall_app in Hu as [Hub Hur]. rewrite sha_absorb_block by done.
  destruct (compress_standard blk rest s Hub Hb Hs) as [E Hs'].
  rewrite (IH rest (compress s blk) Hur ltac:(lia) Hs').
  rewrite E. cbn [seq foldl]. rewrite <- seq_shift, later_steps by exact Hb. reflexivity.
Qed.

Lemma initial_standard : eight (sha_state sha_reset) = initial.
Proof. vm_compute. reflexivity. Qed.
Lemma digest_standard s : words_bytes s = digest_of (eight s).
Proof.
  destruct s as [a b c d e k g h]. unfold words_bytes, digest_of, eight. cbn [sha_a sha_b sha_c sha_d sha_e sha_f sha_g sha_h map concat].
  by rewrite !be_bytes32_digits, app_nil_r.
Qed.

(** C40: the incremental hashing object computes SHA-256 as FIPS 180-4 defines it. The
    reference shares nothing with the code: its constants are computed from the roots of
    primes, its functions are given bit by bit, its padding by the congruence of the
    standard. For every message of octets the digest of the code (however the object
    buffers the message and pads it) is the reference's, where the length is counted
    modulo 2^64 as the code does beyond the standard's domain. *)
Theorem sha256_correct message : Forall is_u8 message -> digest_bytes (sha256 message) = fips_sha256 message.
Proof.
  intros Hu. rewrite sha256_absorbs, sha_padded_standard, digest_standard. unfold fips_sha256. cbv zeta. f_equal.
  destruct (padded_whole message) as [n Hn]. rewrite (absorb_standard n); [|by apply padded_u8|done|].
  - by rewrite initial_standard, Hn, Nat.mul_comm, Nat.div_mul by lia.
  - apply (bool_decide_unpack _). vm_compute. reflexivity.
Qed.

Lemma sha256_correct_witness : Forall is_u8 [97; 98; 99] /\
  digest_bytes (sha256 [97; 98; 99]) = fips_sha256 [97; 98; 99].
Proof.
  assert (H : Forall is_u8 [97; 98; 99]) by (repeat constructor; ints).
  split; [exact H|exact (sha256_correct [97; 98; 99] H)].
Defined.
