(* ===== verification/Ids.v ===== *)
(** * Identities, generations and checked arithmetic

    Models include/lff/ids.hpp and src/ids.cpp: the checked additions behind
    every authority counter, [StrongUint::next], the identity grammar, [LinkKey]
    with its canonical order, [Incarnation] and [Endpoint]. The incarnation
    generator is modelled from the moment its four clock, process and entropy
    values are known. *)
From S2P Require Import Prelude Status Hash.

(** ** Checked arithmetic *)
Definition checked_add_u64 (a b : Z) : option Z :=
  if a >? 18446744073709551615 - b then None else Some (a + b).
Definition checked_mul_u64 (a b : Z) : option Z :=
  if (negb (a =? 0) && (b >? 18446744073709551615 / a))%bool then None else Some (a * b).
Definition checked_add_u32 (a b : Z) : option Z :=
  if a >? 4294967295 - b then None else Some (a + b).
Definition checked_mul_u32 (a b : Z) : option Z :=
  if (negb (a =? 0) && (b >? 4294967295 / a))%bool then None else Some (a * b).

(** Every strong counter of the runtime has a 64-bit representation; only
    [Confidence] is 32 bits wide. *)
Abbreviation LinkGeneration := Z (only parsing).
Abbreviation TopologyGeneration := Z (only parsing).
Abbreviation PolicyGeneration := Z (only parsing).
Abbreviation Epoch := Z (only parsing).
Abbreviation AttemptSeq := Z (only parsing).
Abbreviation ObservationSeq := Z (only parsing).
Abbreviation LineageSeq := Z (only parsing).
Abbreviation SessionSeq := Z (only parsing).
Abbreviation Confidence := Z (only parsing).

Definition strong_next (v : Z) : option Z := checked_add_u64 v 1.
Definition kMaxConfidence : Z := 1000.
Definition make_confidence (permille : Z) : Confidence :=
  if permille >? kMaxConfidence then kMaxConfidence else permille.

(** ** Names *)
Definition kMaxNameLength : nat := 64.

Definition char_between (lo hi : Ascii.ascii) (ch : Ascii.ascii) : bool :=
  ((byte_of_ascii lo <=? byte_of_ascii ch) && (byte_of_ascii ch <=? byte_of_ascii hi))%bool.
Definition is_alnum (ch : Ascii.ascii) : bool :=
  (char_between "a"%char "z"%char ch || char_between "A"%char "Z"%char ch || char_between "0"%char "9"%char ch)%bool.
Definition is_char (c ch : Ascii.ascii) : bool := Ascii.eqb c ch.

Fixpoint string_forallb (p : Ascii.ascii -> bool) (s : string) : bool :=
  match s with
  | EmptyString => true
  | String ch s' => (p ch && string_forallb p s')%bool
  end.

Definition name_char (ch : Ascii.ascii) : bool :=
  (is_alnum ch || (is_char "."%char ch || is_char "_"%char ch || is_char "-"%char ch || is_char ":"%char ch))%bool.

Definition is_valid_name (text : string) : bool :=
  if (Nat.eqb (String.length text) 0 || Nat.ltb kMaxNameLength (String.length text))%bool then false
  else if (bool_decide (text = "."%string) || bool_decide (text = ".."%string))%bool then false
  else string_forallb name_char text.

Definition name_parse (text : string) : Result string :=
  if negb (is_valid_name text)
  then fail Outcome.Invalid ReasonCode.InvalidArgument "name rejected by identity grammar"
  else Success text.

Definition string_empty (s : string) : bool := bool_decide (s = EmptyString).

(** [decode_name]: the empty text is the empty name, any other must satisfy the
    grammar. *)
Definition decode_name (text : string) : option string :=
  if string_empty text then Some EmptyString
  else match name_parse text with Success n => Some n | Failure _ => None end.

(** ** LinkKey *)
Record LinkKey := MkLinkKey { lk_fabric : string; lk_link : string }.
#[global] Instance link_key_eq_dec : EqDecision LinkKey.
Proof. solve_decision. Defined.
#[global] Program Instance link_key_countable : Countable LinkKey := {|
  encode k := encode (lk_fabric k, lk_link k);
  decode p := '(f, l) ← decode p; Some (MkLinkKey f l);
|}.
Next Obligation. intros [f l]. by rewrite decode_encode. Qed.

Definition link_key_none : LinkKey := MkLinkKey EmptyString EmptyString.
Definition link_key_empty (k : LinkKey) : bool :=
  (string_empty (lk_fabric k) || string_empty (lk_link k))%bool.
Definition link_key_to_string (k : LinkKey) : string :=
  (lk_fabric k +:+ String "/"%char (lk_link k))%string.
Definition link_key_ltb (a b : LinkKey) : bool :=
  lex_ltb string_ltb string_ltb (lk_fabric a, lk_link a) (lk_fabric b, lk_link b).

#[global] Instance link_key_ltb_total : StrictTotal link_key_ltb.
Proof.
  split; unfold link_key_ltb; intros.
  - apply st_irrefl.
  - by eapply st_trans.
  - destruct x, y. assert (E := st_total (ltb := lex_ltb string_ltb string_ltb) _ _ H H0).
    cbn in E. by simplify_eq.
Qed.

(** ** Incarnation *)
Record Incarnation := MkIncarnation { inc_bytes : bytes }.
#[global] Instance incarnation_eq_dec : EqDecision Incarnation.
Proof. solve_decision. Defined.

Definition incarnation_zero : Incarnation := MkIncarnation (replicate 16 0).
Definition incarnation_is_zero (i : Incarnation) : bool := forallb (fun b => b =? 0) (inc_bytes i).
Definition incarnation_hex (i : Incarnation) : string := hex_of_bytes (inc_bytes i).
Definition incarnation_parse (text : string) : option Incarnation :=
  if negb (Nat.eqb (String.length text) 32) then None
  else match bytes_of_hex text with Some bs => Some (MkIncarnation bs) | None => None end.
Definition incarnation_ltb (a b : Incarnation) : bool := bytes_ltb (inc_bytes a) (inc_bytes b).

Definition incarnation_generate (steady wall pid sequence entropy : Z) : Incarnation :=
  let digest := builder_finish (builder_add_u64 (builder_add_u64 (builder_add_u64
    (builder_add_u64 (builder_add_u64 [] "steady" steady) "wall" wall) "pid" pid)
    "seq" sequence) "entropy" entropy) in
  MkIncarnation (take 16 (digest_bytes digest)).

Definition incarnation_wf (i : Incarnation) : Prop :=
  length (inc_bytes i) = 16%nat /\ Forall is_u8 (inc_bytes i).

Definition link_identity_digest (key : LinkKey) : Digest :=
  builder_finish (builder_add_text (builder_add_text [] "fabric" (lk_fabric key))
    "link" (lk_link key)).

(** ** Decimal text: [std::to_string] on unsigned integers

    Twenty digits are enough for 64 bits; [decimal_text_value] is proved for
    that range. *)
Fixpoint decimal_digits (fuel : nat) (n : Z) : bytes :=
  match fuel with
  | O => []
  | S f => if n <? 10 then [48 + n] else decimal_digits f (n / 10) ++ [48 + n mod 10]
  end.
Definition decimal_text (n : Z) : string := string_of_bytes (decimal_digits 20 n).

(** ** Endpoint *)
Record Endpoint := MkEndpoint { ep_host : string; ep_port : Z }.
#[global] Instance endpoint_eq_dec : EqDecision Endpoint.
Proof. solve_decision. Defined.

Definition endpoint_to_string (e : Endpoint) : string :=
  (ep_host e +:+ String ":"%char (decimal_text (ep_port e)))%string.

(** [text.rfind(ch)] splits the text around the last occurrence. *)
Fixpoint rsplit (c : Ascii.ascii) (s : string) : option (string * string) :=
  match s with
  | EmptyString => None
  | String ch s' =>
      match rsplit c s' with
      | Some (l, r) => Some (String ch l, r)
      | None => if Ascii.eqb c ch then Some (EmptyString, s') else None
      end
  end.

Definition host_char (ch : Ascii.ascii) : bool :=
  (is_alnum ch || is_char "."%char ch || is_char "-"%char ch || is_char "_"%char ch || is_char ":"%char ch ||
   is_char "["%char ch || is_char "]"%char ch)%bool.

(** The digit loop of the port: decimal digits only, with both checked
    operations at each step. *)
Fixpoint parse_port (port : Z) (text : string) : Result Z :=
  match text with
  | EmptyString => Success port
  | String ch rest =>
      if negb (char_between "0"%char "9"%char ch)
      then fail Outcome.Invalid ReasonCode.InvalidArgument "port must be decimal"
      else
        let digit := byte_of_ascii ch - 48 in
        match checked_mul_u32 port 10 with
        | None => fail Outcome.Invalid ReasonCode.CheckedArithmeticOverflow "port overflows"
        | Some next =>
            match checked_add_u32 next digit with
            | None => fail Outcome.Invalid ReasonCode.CheckedArithmeticOverflow "port overflows"
            | Some port' => parse_port port' rest
            end
        end
  end.

Definition endpoint_parse (text : string) : Result Endpoint :=
  if (string_empty text || Nat.ltb 300 (String.length text))%bool
  then fail Outcome.Invalid ReasonCode.InvalidArgument "endpoint is empty or too long"
  else match rsplit ":"%char text with
  | None => fail Outcome.Invalid ReasonCode.InvalidArgument "endpoint must be host:port"
  | Some (host, port_text) =>
      if (string_empty host || string_empty port_text)%bool
      then fail Outcome.Invalid ReasonCode.InvalidArgument "endpoint must be host:port"
      else if Nat.ltb 255 (String.length host)
      then fail Outcome.Invalid ReasonCode.InvalidArgument "host is too long"
      else if negb (string_forallb host_char host)
      then fail Outcome.Invalid ReasonCode.InvalidArgument "host contains an unsupported character"
      else match parse_port 0 port_text with
      | Failure s => Failure s
      | Success port =>
          if port >? 65535
          then fail Outcome.Invalid ReasonCode.InvalidArgument "port out of range"
          else Success (MkEndpoint host port)
      end
  end.

Arguments is_valid_name : simpl never.
Arguments incarnation_generate : simpl never.
Arguments link_identity_digest : simpl never.
Arguments decimal_text : simpl never.

(** ** Lemmas: checked arithmetic *)
Lemma checked_add_u64_spec a b : is_u64 a -> is_u64 b ->
  checked_add_u64 a b = if bool_decide (is_u64 (a + b)) then Some (a + b) else None.
Proof.
  intros. unfold checked_add_u64. case_bool_decide; destruct (Z.gtb_spec a (18446744073709551615 - b));
    try done; ints.
Qed.

Lemma checked_add_u32_spec a b : is_u32 a -> is_u32 b ->
  checked_add_u32 a b = if bool_decide (is_u32 (a + b)) then Some (a + b) else None.
Proof.
  intros. unfold checked_add_u32. case_bool_decide; destruct (Z.gtb_spec a (4294967295 - b));
    try done; ints.
Qed.

Lemma mul_bound_div a b m : 0 < a -> (b > m / a <-> m < a * b).
Proof.
  intros Ha. split; intros H.
  - pose proof (Z.mul_succ_div_gt m a Ha). nia.
  - pose proof (Z.mul_div_le m a Ha). nia.
Qed.

Lemma checked_mul_u64_spec a b : is_u64 a -> is_u64 b ->
  checked_mul_u64 a b = if bool_decide (is_u64 (a * b)) then Some (a * b) else None.
Proof.
  intros Ha Hb. unfold checked_mul_u64. destruct (Z.eqb_spec a 0) as [->|]; cbn [negb andb].
  { rewrite Z.mul_0_l. by rewrite bool_decide_eq_true_2. }
  assert (Hm := mul_bound_div a b 18446744073709551615 ltac:(ints)).
  destruct (Z.gtb_spec b (18446744073709551615 / a)) as [Hg|Hg]; case_bool_decide as Hd; try done.
  - exfalso. unfold is_u64 in *. lia.
  - exfalso. apply Hd. unfold is_u64 in *. nia.
Qed.

Lemma checked_mul_u32_spec a b : is_u32 a -> is_u32 b ->
  checked_mul_u32 a b = if bool_decide (is_u32 (a * b)) then Some (a * b) else None.
Proof.
  intros Ha Hb. unfold checked_mul_u32. destruct (Z.eqb_spec a 0) as [->|]; cbn [negb andb].
  { rewrite Z.mul_0_l. by rewrite bool_decide_eq_true_2. }
  assert (Hm := mul_bound_div a b 4294967295 ltac:(ints)).
  destruct (Z.gtb_spec b (4294967295 / a)) as [Hg|Hg]; case_bool_decide as Hd; try done.
  - exfalso. unfold is_u32 in *. lia.
  - exfalso. apply Hd. unfold is_u32 in *. nia.
Qed.

(** A counter that advances strictly increases and stays in range. *)
Lemma strong_next_Some v v' : is_u64 v -> strong_next v = Some v' -> v' = v + 1 /\ is_u64 v'.
Proof.
  intros Hv. unfold strong_next. rewrite checked_add_u64_spec by ints.
  case_bool_decide; [|done]. by intros [= <-].
Qed.

Lemma make_confidence_le p : make_confidence p <= kMaxConfidence.
Proof. unfold make_confidence, kMaxConfidence. destruct (Z.gtb_spec p 1000); lia. Qed.

(** ** Lemmas: names *)
Lemma is_valid_name_length text :
  is_valid_name text = true -> (0 < String.length text <= 64)%nat.
Proof.
  unfold is_valid_name, kMaxNameLength. destruct (Nat.eqb_spec (String.length text) 0); [done|].
  destruct (Nat.ltb_spec 64 (String.length text)); [done|]. intros _. lia.
Qed.

Definition name_wf (n : string) : Prop := n = EmptyString \/ is_valid_name n = true.
#[global] Instance name_wf_dec n : Decision (name_wf n).
Proof. unfold name_wf. apply _. Defined.

Lemma decode_name_wf n : name_wf n -> decode_name n = Some n.
Proof.
  unfold decode_name, string_empty, name_parse. intros [->|Hv].
  - by rewrite bool_decide_eq_true_2.
  - case_bool_decide; [by subst|]. by rewrite Hv.
Qed.

Lemma decode_name_Some t n : decode_name t = Some n -> n = t /\ name_wf n.
Proof.
  unfold decode_name, string_empty, name_parse, name_wf. case_bool_decide; [intros [= <-]; auto|].
  destruct (is_valid_name t) eqn:E; cbn; [|done]. intros [= <-]. auto.
Qed.

Lemma name_wf_length n : name_wf n -> (String.length n <= 64)%nat.
Proof. intros [->|H]; [cbn; lia|]. apply is_valid_name_length in H. lia. Qed.

(** ** Lemmas: incarnations *)
Lemma incarnation_parse_hex i : incarnation_wf i -> incarnation_parse (incarnation_hex i) = Some i.
Proof.
  intros [Hl Hb]. unfold incarnation_parse, incarnation_hex.
  rewrite hex_of_bytes_length, Hl. cbn [Nat.mul Nat.add Nat.eqb negb].
  rewrite bytes_of_hex_of_bytes by done. by destruct i.
Qed.

Lemma incarnation_zero_wf : incarnation_wf incarnation_zero.
Proof. split; [done|]. apply (bool_decide_unpack _). vm_compute. reflexivity. Qed.

Lemma incarnation_generate_wf s w p q e : incarnation_wf (incarnation_generate s w p q e).
Proof.
  unfold incarnation_generate, incarnation_wf, builder_finish. cbn [inc_bytes].
  generalize (builder_add_u64 (builder_add_u64 (builder_add_u64 (builder_add_u64
    (builder_add_u64 [] "steady" s) "wall" w) "pid" p) "seq" q) "entropy" e). intros bs.
  destruct (sha256_wf bs) as [Hl Hb]. split.
  - rewrite length_take, Hl. done.
  - by apply Forall_take.
Qed.

(** ** Lemmas: decimal text *)
Definition decimal_value (bs : bytes) : Z := foldl (fun acc b => acc * 10 + (b - 48)) 0 bs.

Lemma decimal_value_snoc bs b : decimal_value (bs ++ [b]) = decimal_value bs * 10 + (b - 48).
Proof. unfold decimal_value. by rewrite foldl_app. Qed.

Lemma decimal_digits_spec fuel n :
  0 <= n < 10 ^ Z.of_nat fuel ->
  decimal_value (decimal_digits fuel n) = n /\
  Forall (fun b => 48 <= b <= 57) (decimal_digits fuel n) /\
  (0 < fuel -> 0 < length (decimal_digits fuel n))%nat.
Proof.
  revert n. induction fuel as [|f IH]; intros n Hn; cbn [decimal_digits].
  { cbn in Hn. assert (n = 0) by lia. subst. repeat split; [constructor|lia]. }
  rewrite Nat2Z.inj_succ, Z.pow_succ_r in Hn by lia.
  destruct (Z.ltb_spec n 10).
  - split; [|split]; [|constructor; [lia|constructor]|cbn; lia].
    unfold decimal_value. cbn. lia.
  - destruct (IH (n / 10)) as (H1 & H2 & H3).
    { split; [apply Z.div_pos; lia|apply Z.div_lt_upper_bound; lia]. }
    pose proof (Z.mod_pos_bound n 10 ltac:(lia)). pose proof (Z.div_mod n 10 ltac:(lia)).
    rewrite decimal_value_snoc, H1. split; [|split].
    + lia.
    + apply Forall_app_2; [done|]. constructor; [lia|constructor].
    + rewrite length_app. cbn. lia.
Qed.

Lemma decimal_digits_length fuel n : (length (decimal_digits fuel n) <= fuel)%nat.
Proof.
  revert n. induction fuel as [|f IH]; intros n; cbn [decimal_digits]; [done|].
  destruct (n <? 10); [cbn; lia|]. rewrite length_app. cbn. specialize (IH (n / 10)). lia.
Qed.

Lemma decimal_value_ge acc bs :
  Forall (fun b => 48 <= b <= 57) bs -> 0 <= acc ->
  acc <= foldl (fun acc b => acc * 10 + (b - 48)) acc bs.
Proof.
  intros H. revert acc. induction H as [|b bs Hb _ IH]; intros acc Hacc; cbn; [lia|].
  specialize (IH (acc * 10 + (b - 48))). lia.
Qed.

Lemma char_between_byte lo hi b : is_u8 b ->
  char_between lo hi (ascii_of_byte b) = ((byte_of_ascii lo <=? b) && (b <=? byte_of_ascii hi))%bool.
Proof. intros Hb. unfold char_between. by rewrite byte_of_ascii_of_byte. Qed.

(** The port loop computes the decimal value as long as it fits 32 bits. *)
Lemma parse_port_value acc bs :
  Forall (fun b => 48 <= b <= 57) bs -> 0 <= acc ->
  foldl (fun acc b => acc * 10 + (b - 48)) acc bs < two32 ->
  parse_port acc (string_of_bytes bs) = Success (foldl (fun acc b => acc * 10 + (b - 48)) acc bs).
Proof.
  intros H. revert acc. induction H as [|b bs Hb Hbs IH]; intros acc Hacc Hlt; [done|].
  cbn [string_of_bytes foldl] in *. cbn [parse_port].
  rewrite char_between_byte by ints. rewrite byte_of_ascii_of_byte by ints.
  change (byte_of_ascii "0"%char) with 48. change (byte_of_ascii "9"%char) with 57.
  rewrite (proj2 (Z.leb_le 48 b)), (proj2 (Z.leb_le b 57)) by lia. cbn [andb negb].
  pose proof (decimal_value_ge (acc * 10 + (b - 48)) bs Hbs ltac:(lia)).
  rewrite checked_mul_u32_spec by ints. rewrite bool_decide_eq_true_2 by ints.
  rewrite checked_add_u32_spec by ints. rewrite bool_decide_eq_true_2 by ints.
  apply IH; [lia|done].
Qed.

Lemma rsplit_app c l r :
  rsplit c r = None -> rsplit c (l +:+ String c r)%string = Some (l, r).
Proof.
  intros Hr. induction l as [|ch l IH].
  - change (rsplit c (String c r) = Some (EmptyString, r)). cbn. by rewrite Hr, Ascii.eqb_refl.
  - change (rsplit c (String ch (l +:+ String c r)) = Some (String ch l, r)). cbn. by rewrite IH.
Qed.

Lemma rsplit_digits bs :
  Forall (fun b => 48 <= b <= 57) bs -> rsplit ":"%char (string_of_bytes bs) = None.
Proof.
  induction 1 as [|b bs Hb _ IH]; [done|]. cbn [string_of_bytes rsplit]. rewrite IH.
  destruct (Ascii.eqb_spec ":"%char (ascii_of_byte b)) as [E|]; [|done].
  apply (f_equal byte_of_ascii) in E. rewrite byte_of_ascii_of_byte in E by ints.
  change (byte_of_ascii ":"%char) with 58 in E. lia.
Qed.

(** An endpoint the runtime can bind or connect to. *)
Definition endpoint_wf (e : Endpoint) : Prop :=
  (0 < String.length (ep_host e) <= 255)%nat /\ string_forallb host_char (ep_host e) = true /\
  is_u16 (ep_port e).
#[global] Instance endpoint_wf_dec e : Decision (endpoint_wf e).
Proof. unfold endpoint_wf. apply _. Defined.

Lemma string_length_app s1 s2 :
  String.length (s1 +:+ s2)%string = (String.length s1 + String.length s2)%nat.
Proof.
  induction s1 as [|a s1 IH]; [done|].
  change (S (String.length (s1 +:+ s2)) = S (String.length s1 + String.length s2)). by rewrite IH.
Qed.

Lemma string_empty_false s : (0 < String.length s)%nat -> string_empty s = false.
Proof. intros H. unfold string_empty. apply bool_decide_eq_false. intros ->. cbn in H. lia. Qed.

Lemma string_of_bytes_length bs : String.length (string_of_bytes bs) = length bs.
Proof. induction bs; cbn; auto. Qed.

Lemma decimal_text_u16 n : is_u16 n ->
  (0 < String.length (decimal_text n) <= 20)%nat /\
  rsplit ":"%char (decimal_text n) = None /\ parse_port 0 (decimal_text n) = Success n.
Proof.
  intros Hn. unfold decimal_text. rewrite string_of_bytes_length.
  destruct (decimal_digits_spec 20 n) as (Hv & Hd & Hl); [ints|].
  pose proof (decimal_digits_length 20 n). unfold decimal_value in Hv.
  split; [lia|split; [by apply rsplit_digits|]].
  rewrite parse_port_value; rewrite ?Hv; [done|done|lia|ints].
Qed.

(** the endpoint printed by [Endpoint::to_string] parses back, for every
    endpoint the grammar admits. *)
Theorem endpoint_parse_to_string e :
  endpoint_wf e -> endpoint_parse (endpoint_to_string e) = Success e.
Proof.
  intros (Hlen & Hchars & Hport). unfold endpoint_parse, endpoint_to_string.
  destruct (decimal_text_u16 _ Hport) as (Hdl & Hdr & Hdp).
  assert (Htl : String.length (ep_host e +:+ String ":"%char (decimal_text (ep_port e)))%string =
    (String.length (ep_host e) + S (String.length (decimal_text (ep_port e))))%nat)
    by by rewrite string_length_app.
  rewrite string_empty_false by lia. rewrite (proj2 (Nat.ltb_ge _ _)) by lia. cbn [orb].
  rewrite rsplit_app by done. rewrite !string_empty_false by lia. cbn [orb].
  rewrite (proj2 (Nat.ltb_ge 255 _)) by lia. rewrite Hchars, Hdp. cbn [negb].
  destruct (Z.gtb_spec (ep_port e) 65535) as [H|_]; [ints|]. by destruct e.
Qed.

Lemma endpoint_parse_to_string_witness :
  endpoint_parse (endpoint_to_string (MkEndpoint "127.0.0.1" 7071)) =
    Success (MkEndpoint "127.0.0.1" 7071).
Proof. apply endpoint_parse_to_string. apply (bool_decide_unpack _). vm_compute. exact I. Defined.
