(* ===== verification/Bytes.v ===== *)
(** * Canonical byte encoding

    Models include/lff/bytes.hpp and src/bytes.cpp: the [Writer] with its sticky
    failure flag and the [Reader] whose first failure is sticky and which returns
    neutral values afterwards. A decoder of the source ([static bool
    decode(Reader&, T& out)]) is a state-passing computation over the reader
    that yields an option.

    [Codec] is the interface every encoded record promises to the payload and
    frame formats built on it: what is written reads back exactly, whatever
    follows it, and a decoder that succeeds does not depend on what follows. *)
From S2P Require Import Prelude Status Hash Ids.

Definition kMaxEncodedString : Z := 4096.
Definition kMaxEncodedBlob : Z := 1048576.
Definition kIdentityFormatVersion : Z := 1.

(** ** Writer *)
Record Writer := MkWriter { wr_buf : bytes; wr_ok : bool }.
Definition writer_empty : Writer := MkWriter [] true.
Definition WriteM : Type := Writer -> Writer.

Definition wr_u8 (value : Z) : WriteM := fun w =>
  if negb (wr_ok w) then w else MkWriter (wr_buf w ++ [value]) (wr_ok w).
Definition wr_u16 (value : Z) : WriteM := fun w =>
  wr_u8 (Z.land (Z.shiftr value 8) 255) (wr_u8 (Z.land value 255) w).

(** The loop [for i: u8((value >> 8i) & 0xFF)]. *)
Definition wr_loop (n : nat) (value : Z) : WriteM := fun w =>
  foldl (fun w i => wr_u8 (Z.land (Z.shiftr value (8 * Z.of_nat i)) 255) w) w (seq 0 n).
Definition wr_u32 (value : Z) : WriteM := wr_loop 4 value.
Definition wr_u64 (value : Z) : WriteM := wr_loop 8 value.
Definition wr_i64 (value : Z) : WriteM := wr_u64 (wrap64 value).
Definition wr_bool8 (value : bool) : WriteM := wr_u8 (if value then 1 else 0).
Definition wr_raw (data : bytes) : WriteM := fun w =>
  if (negb (wr_ok w) || Nat.eqb (length data) 0)%bool then w
  else MkWriter (wr_buf w ++ data) (wr_ok w).
Definition wr_fail : WriteM := fun w => MkWriter (wr_buf w) false.

Definition wr_blob (value : bytes) (max_len : Z) : WriteM := fun w =>
  if negb (wr_ok w) then w
  else if Z.of_nat (length value) >? max_len then wr_fail w
  else wr_raw value (wr_u32 (Z.of_nat (length value)) w).
Definition wr_str_max (value : string) (max_len : Z) : WriteM := fun w =>
  if negb (wr_ok w) then w
  else if Z.of_nat (String.length value) >? max_len then wr_fail w
  else wr_raw (bytes_of_string value) (wr_u32 (Z.of_nat (String.length value)) w).
Definition wr_str (value : string) : WriteM := wr_str_max value kMaxEncodedString.
Definition wr_digest (value : Digest) : WriteM := wr_raw (digest_bytes value).
Definition wr_incarnation (value : Incarnation) : WriteM := wr_raw (inc_bytes value).

(** A body of the source that writes fields one after the other. *)
Definition writes (ms : list WriteM) : WriteM := fun w => foldl (fun w m => m w) w ms.
Definition has_value {A} (o : option A) : bool := match o with Some _ => true | None => false end.
(** [for (x : l) f(x)] and [if (o.has_value()) f( *o )]. *)
Definition wr_each {A} (f : A -> WriteM) (l : list A) : WriteM := writes (map f l).
Definition wr_opt {A} (f : A -> WriteM) (o : option A) : WriteM := fun w =>
  match o with Some a => f a w | None => w end.

(** ** Reader *)
Record Reader := MkReader { rd_data : bytes; rd_ok : bool }.
Definition reader_of (data : bytes) : Reader := MkReader data true.
Definition reader_at_end (r : Reader) : bool := Nat.eqb (length (rd_data r)) 0.

Definition ReadM (A : Type) : Type := Reader -> A * Reader.
Definition rret {A} (x : A) : ReadM A := fun r => (x, r).
Definition rbind {A B} (m : ReadM A) (k : A -> ReadM B) : ReadM B := fun r =>
  let '(x, r') := m r in k x r'.
Notation "'let*' x := m 'in' k" := (rbind m (fun x => k))
  (at level 10, x name, m at level 100, k at level 200) : lff_scope.
#[global] Open Scope lff_scope.

(** A decoder step that returns [false] when the option is empty. *)
Definition ropt {A B} (o : option A) (k : A -> ReadM (option B)) : ReadM (option B) :=
  match o with Some x => k x | None => rret None end.

Definition rd_u8 : ReadM Z := fun r =>
  if negb (rd_ok r) then (0, MkReader (rd_data r) false)
  else match rd_data r with
       | [] => (0, MkReader [] false)
       | b :: rest => (b, MkReader rest (rd_ok r))
       end.

(** The loop [for i: value |= u8() << 8i]. *)
Fixpoint rd_loop (n : nat) (shift value : Z) : ReadM Z :=
  match n with
  | O => rret value
  | S n' => let* b := rd_u8 in rd_loop n' (shift + 8) (Z.lor value (Z.shiftl b shift))
  end.
Definition rd_u16 : ReadM Z := rd_loop 2 0 0.
Definition rd_u32 : ReadM Z := rd_loop 4 0 0.
Definition rd_u64 : ReadM Z := rd_loop 8 0 0.
Definition to_i64 (v : Z) : Z := if v <? 9223372036854775808 then v else v - two64.
Definition rd_i64 : ReadM Z := let* v := rd_u64 in rret (to_i64 v).
Definition rd_bool8 : ReadM bool := let* v := rd_u8 in rret (negb (v =? 0)).
Definition rd_is_ok : ReadM bool := fun r => (rd_ok r, r).
Definition rd_fail : ReadM unit := fun r => (tt, MkReader (rd_data r) false).

Definition rd_raw (size : Z) : ReadM bytes := fun r =>
  if (negb (rd_ok r) || (size >? Z.of_nat (length (rd_data r))))%bool
  then ([], MkReader (rd_data r) false)
  else (take (Z.to_nat size) (rd_data r), MkReader (drop (Z.to_nat size) (rd_data r)) (rd_ok r)).

Definition rd_blob (max_len : Z) : ReadM bytes :=
  let* length := rd_u32 in
  let* ok := rd_is_ok in
  if negb ok then rret []
  else if length >? max_len then let* _ := rd_fail in rret []
  else rd_raw length.

Definition rd_str_max (max_len : Z) : ReadM string :=
  let* value := rd_blob max_len in
  let* ok := rd_is_ok in
  if negb ok then rret EmptyString else rret (string_of_bytes value).
Definition rd_str : ReadM string := rd_str_max kMaxEncodedString.

Definition rd_digest : ReadM Digest :=
  let* raw_bytes := rd_raw 32 in
  let* ok := rd_is_ok in
  if negb ok then rret digest_zero else rret (MkDigest raw_bytes).
Definition rd_incarnation : ReadM Incarnation :=
  let* raw_bytes := rd_raw 16 in
  let* ok := rd_is_ok in
  if negb ok then rret incarnation_zero else rret (MkIncarnation raw_bytes).

(** [for (i < count) { if (!decode(reader, x)) return false; push_back(x); }] *)
Fixpoint rd_each {A} (n : nat) (m : ReadM (option A)) : ReadM (option (list A)) :=
  match n with
  | O => rret (Some [])
  | S n' => let* x := m in ropt x (fun x =>
            let* xs := rd_each n' m in ropt xs (fun xs => rret (Some (x :: xs))))
  end.

(** [if (reader.bool8()) value = read();] *)
Definition rd_opt {A} (m : ReadM A) : ReadM (option A) :=
  let* has := rd_bool8 in
  if has : bool then let* v := m in rret (Some v) else rret None.

Arguments writes : simpl never.
Arguments wr_u8 : simpl never.
Arguments wr_u16 : simpl never.
Arguments wr_u32 : simpl never.
Arguments wr_u64 : simpl never.
Arguments wr_i64 : simpl never.
Arguments wr_bool8 : simpl never.
Arguments wr_str : simpl never.
Arguments wr_str_max : simpl never.
Arguments wr_opt : simpl never.
Arguments wr_each : simpl never.
Arguments wr_blob : simpl never.
Arguments wr_digest : simpl never.
Arguments wr_incarnation : simpl never.
Arguments rd_each : simpl never.
Arguments rbind : simpl never.

(** ** What a writer emits and what a reader accepts *)
Definition emits (m : WriteM) (bs : bytes) : Prop :=
  forall w, wr_ok w = true -> m w = MkWriter (wr_buf w ++ bs) true.
Definition reads {A} (m : ReadM A) (bs : bytes) (a : A) : Prop :=
  forall rest, m (MkReader (bs ++ rest) true) = (a, MkReader rest true).

(** A computation that keeps the failure flag and, when it ends with the flag
    still set, does the same on any longer input. *)
Record steady {A} (m : ReadM A) : Prop := {
  steady_sticky d : rd_ok (m (MkReader d false)).2 = false;
  steady_extend d extra a d' : m (MkReader d true) = (a, MkReader d' true) ->
    m (MkReader (d ++ extra) true) = (a, MkReader (d' ++ extra) true);
}.

Lemma emits_u8 v : emits (wr_u8 v) [v].
Proof. intros [b o]; cbn. by intros ->. Qed.

Lemma emits_u16 v : emits (wr_u16 v) (le_bytes 2 v).
Proof.
  intros w Hw. unfold wr_u16. rewrite (emits_u8 _ w Hw), emits_u8 by done. cbn.
  by rewrite <- app_assoc.
Qed.

Lemma wr_loop_from v n i w : wr_ok w = true ->
  foldl (fun w i => wr_u8 (Z.land (Z.shiftr v (8 * Z.of_nat i)) 255) w) w (seq i n) =
  MkWriter (wr_buf w ++ le_bytes n (Z.shiftr v (8 * Z.of_nat i))) true.
Proof.
  revert i w. induction n as [|n IH]; intros i w Hw; cbn [seq foldl le_bytes].
  { rewrite app_nil_r. destruct w; cbn in *. by subst. }
  rewrite (emits_u8 _ w Hw), IH by done. cbn [wr_buf].
  rewrite <- app_assoc, Z.shiftr_shiftr by lia. cbn [app].
  replace (8 * Z.of_nat i + 8) with (8 * Z.of_nat (S i)) by lia. done.
Qed.

Lemma emits_loop n v : emits (wr_loop n v) (le_bytes n v).
Proof.
  intros w Hw. unfold wr_loop. rewrite wr_loop_from by done. cbn. by rewrite Z.shiftr_0_r.
Qed.

Lemma emits_u32 v : emits (wr_u32 v) (le_bytes 4 v).
Proof. apply emits_loop. Qed.
Lemma emits_u64 v : emits (wr_u64 v) (le_bytes 8 v).
Proof. apply emits_loop. Qed.
Lemma emits_i64 v : emits (wr_i64 v) (le_bytes 8 (wrap64 v)).
Proof. apply emits_loop. Qed.
Lemma emits_bool8 b : emits (wr_bool8 b) [if b then 1 else 0].
Proof. apply emits_u8. Qed.

Lemma emits_raw d : emits (wr_raw d) d.
Proof.
  intros [b o]; unfold wr_raw; cbn. intros ->; cbn. destruct d; cbn; by rewrite ?app_nil_r.
Qed.

Lemma emits_str_max s m : Z.of_nat (String.length s) <= m ->
  emits (wr_str_max s m) (le_bytes 4 (Z.of_nat (String.length s)) ++ bytes_of_string s).
Proof.
  intros Hm w Hw. unfold wr_str_max. rewrite Hw; cbn [negb].
  destruct (Z.gtb_spec (Z.of_nat (String.length s)) m); [lia|].
  rewrite emits_u32, emits_raw by done. cbn [wr_buf]. by rewrite app_assoc.
Qed.

Lemma emits_blob s m : Z.of_nat (length s) <= m ->
  emits (wr_blob s m) (le_bytes 4 (Z.of_nat (length s)) ++ s).
Proof.
  intros Hm w Hw. unfold wr_blob. rewrite Hw; cbn [negb].
  destruct (Z.gtb_spec (Z.of_nat (length s)) m); [lia|].
  rewrite emits_u32, emits_raw by done. cbn [wr_buf]. by rewrite app_assoc.
Qed.

Lemma emits_str s : Z.of_nat (String.length s) <= kMaxEncodedString ->
  emits (wr_str s) (le_bytes 4 (Z.of_nat (String.length s)) ++ bytes_of_string s).
Proof. apply emits_str_max. Qed.
Lemma emits_digest d : emits (wr_digest d) (digest_bytes d).
Proof. apply emits_raw. Qed.
Lemma emits_incarnation i : emits (wr_incarnation i) (inc_bytes i).
Proof. apply emits_raw. Qed.

Lemma emits_nil : emits (writes []) [].
Proof. intros [b o]; cbn. intros ->. by rewrite app_nil_r. Qed.

Lemma emits_cons m ms b1 b2 :
  emits m b1 -> emits (writes ms) b2 -> emits (writes (m :: ms)) (b1 ++ b2).
Proof.
  intros H1 H2 w Hw. change (writes ms (m w) = MkWriter (wr_buf w ++ b1 ++ b2) true).
  rewrite H1, H2 by done. cbn [wr_buf]. by rewrite app_assoc.
Qed.

Lemma emits_each {A} (f : A -> WriteM) (g : A -> bytes) l :
  (forall a, a ∈ l -> emits (f a) (g a)) -> emits (wr_each f l) (concat (map g l)).
Proof.
  induction l as [|a l IH]; intros H; [apply emits_nil|].
  cbn [map concat]. unfold wr_each. cbn [map]. apply emits_cons.
  - apply H. constructor.
  - apply IH. intros b Hb. apply H. by constructor.
Qed.

Lemma emits_opt {A} (f : A -> WriteM) (g : A -> bytes) (o : option A) :
  (forall a, o = Some a -> emits (f a) (g a)) ->
  emits (wr_opt f o) (match o with Some a => g a | None => [] end).
Proof.
  destruct o; [intros H; exact (H _ eq_refl)|]. intros _ [b k]; cbn. intros ->. by rewrite app_nil_r.
Qed.

Lemma emits_unique m b1 b2 : emits m b1 -> emits m b2 -> b1 = b2.
Proof.
  intros H1 H2. specialize (H1 writer_empty eq_refl). specialize (H2 writer_empty eq_refl).
  rewrite H1 in H2. cbn in H2. by simplify_eq.
Qed.

(** *** Readers *)
Lemma reads_ret {A} (x : A) : reads (rret x) [] x.
Proof. done. Qed.

Lemma reads_bind {A B} (m : ReadM A) (k : A -> ReadM B) b1 b2 x y :
  reads m b1 x -> reads (k x) b2 y -> reads (rbind m k) (b1 ++ b2) y.
Proof. intros H1 H2 rest. unfold rbind. rewrite <- app_assoc, H1. apply H2. Qed.

Lemma reads_bind_nil {A B} (m : ReadM A) (k : A -> ReadM B) bs x y :
  reads m [] x -> reads (k x) bs y -> reads (rbind m k) bs y.
Proof. apply (reads_bind m k []). Qed.

Lemma reads_last {A B} (m : ReadM A) (k : A -> ReadM B) bs x y :
  reads m bs x -> reads (k x) [] y -> reads (rbind m k) bs y.
Proof. rewrite <- (app_nil_r bs) at 2. apply reads_bind. Qed.

Lemma reads_is_ok : reads rd_is_ok [] true.
Proof. done. Qed.

Lemma reads_u8 v : reads rd_u8 [v] v.
Proof. done. Qed.

Lemma rd_loop_le bs shift value : Forall is_u8 bs -> 0 <= shift -> forall rest,
  rd_loop (length bs) shift value (MkReader (bs ++ rest) true) =
  (Z.lor value (Z.shiftl (le_value bs) shift), MkReader rest true).
Proof.
  intros H. revert shift value. induction H as [|b bs Hb Hbs IH]; intros shift value Hs rest.
  { cbn. by rewrite Z.shiftl_0_l, Z.lor_0_r. }
  cbn [length rd_loop app]. unfold rbind at 1. cbn [rd_u8 negb rd_ok rd_data].
  unfold rd_u8. cbn [rd_ok rd_data negb]. rewrite IH by lia. f_equal.
  cbn [le_value]. rewrite Z.shiftl_lor, Z.shiftl_shiftl by lia.
  rewrite Z.lor_assoc, (Z.add_comm 8). done.
Qed.

Lemma reads_loop n v : 0 <= v < 256 ^ Z.of_nat n -> reads (rd_loop n 0 0) (le_bytes n v) v.
Proof.
  intros Hv rest. pose proof (rd_loop_le (le_bytes n v) 0 0 (le_bytes_u8 n v) ltac:(lia) rest) as H.
  rewrite le_bytes_length in H. rewrite H. f_equal.
  by rewrite Z.lor_0_l, Z.shiftl_0_r, le_value_bytes, Z.mod_small.
Qed.

Lemma reads_u16 v : is_u16 v -> reads rd_u16 (le_bytes 2 v) v.
Proof. intros. apply reads_loop. ints. Qed.
Lemma reads_u32 v : is_u32 v -> reads rd_u32 (le_bytes 4 v) v.
Proof. intros. apply reads_loop. ints. Qed.
Lemma reads_u64 v : is_u64 v -> reads rd_u64 (le_bytes 8 v) v.
Proof. intros. apply reads_loop. ints. Qed.

Definition is_i64 (v : Z) : Prop := -9223372036854775808 <= v < 9223372036854775808.
#[global] Instance is_i64_dec v : Decision (is_i64 v).
Proof. unfold is_i64. apply _. Defined.

Lemma reads_i64 v : is_i64 v -> reads rd_i64 (le_bytes 8 (wrap64 v)) v.
Proof.
  intros Hv. unfold rd_i64. eapply reads_last.
  { apply reads_u64. unfold is_u64, wrap64. apply Z.mod_pos_bound. lia. }
  assert (E : to_i64 (wrap64 v) = v); [|rewrite E; apply reads_ret]. unfold is_i64 in Hv.
  unfold to_i64, wrap64. destruct (Z.ltb_spec v 0).
  - rewrite <- (Z.mod_add v 1), Z.mod_small by lia.
    destruct (Z.ltb_spec (v + 1 * two64) 9223372036854775808); lia.
  - rewrite Z.mod_small by lia. destruct (Z.ltb_spec v 9223372036854775808); lia.
Qed.

Lemma reads_bool8 (b : bool) : reads rd_bool8 [if b then 1 else 0] b.
Proof. destruct b; intros rest; reflexivity. Qed.

Lemma reads_raw d : reads (rd_raw (Z.of_nat (length d))) d d.
Proof.
  intros rest. unfold rd_raw. cbn [rd_ok rd_data negb orb]. rewrite length_app.
  destruct (Z.gtb_spec (Z.of_nat (length d)) (Z.of_nat (length d + length rest))); [lia|].
  by rewrite Nat2Z.id, take_app_length, drop_app_length.
Qed.

Lemma reads_blob s m :
  Z.of_nat (length s) <= m -> is_u32 (Z.of_nat (length s)) ->
  reads (rd_blob m) (le_bytes 4 (Z.of_nat (length s)) ++ s) s.
Proof.
  intros Hm Hs. unfold rd_blob. eapply reads_bind; [by apply reads_u32|].
  eapply reads_bind_nil; [apply reads_is_ok|]. cbn [negb].
  destruct (Z.gtb_spec (Z.of_nat (length s)) m); [lia|]. apply reads_raw.
Qed.

Lemma reads_str_max s m :
  Z.of_nat (String.length s) <= m -> is_u32 (Z.of_nat (String.length s)) ->
  reads (rd_str_max m) (le_bytes 4 (Z.of_nat (String.length s)) ++ bytes_of_string s) s.
Proof.
  intros Hm Hs. unfold rd_str_max. rewrite <- bytes_of_string_length in *. eapply reads_last.
  { by apply reads_blob. }
  eapply reads_bind_nil; [apply reads_is_ok|]. cbn [negb].
  rewrite string_of_bytes_of_string. apply reads_ret.
Qed.

Lemma reads_str s : Z.of_nat (String.length s) <= kMaxEncodedString ->
  reads rd_str (le_bytes 4 (Z.of_nat (String.length s)) ++ bytes_of_string s) s.
Proof.
  intros H. apply reads_str_max; [done|]. unfold kMaxEncodedString in H. ints.
Qed.

Lemma reads_digest d : digest_wf d -> reads rd_digest (digest_bytes d) d.
Proof.
  intros [Hl _]. unfold rd_digest. eapply reads_last.
  { change 32 with (Z.of_nat 32). rewrite <- Hl. apply reads_raw. }
  intros rest. by destruct d.
Qed.

Lemma reads_incarnation d : incarnation_wf d -> reads rd_incarnation (inc_bytes d) d.
Proof.
  intros [Hl _]. unfold rd_incarnation. eapply reads_last.
  { change 16 with (Z.of_nat 16). rewrite <- Hl. apply reads_raw. }
  intros rest. by destruct d.
Qed.

Lemma reads_each {A} (m : ReadM (option A)) (g : A -> bytes) l :
  (forall a, a ∈ l -> reads m (g a) (Some a)) ->
  reads (rd_each (length l) m) (concat (map g l)) (Some l).
Proof.
  induction l as [|a l IH]; intros H; [apply reads_ret|].
  cbn [length rd_each map concat]. eapply reads_bind; [apply H; constructor|]. cbn [ropt].
  eapply reads_last; [apply IH; intros b Hb; apply H; by constructor|]. apply reads_ret.
Qed.

Lemma reads_opt {A} (m : ReadM A) (g : A -> bytes) (o : option A) :
  (forall a, o = Some a -> reads m (g a) a) ->
  reads (rd_opt m) ([if has_value o then 1 else 0] ++ match o with Some a => g a | None => [] end) o.
Proof.
  intros H. unfold rd_opt. eapply reads_bind.
  { apply reads_bool8. }
  destruct o as [a|]; [|apply reads_ret]. eapply reads_last; [by apply H|apply reads_ret].
Qed.

Lemma reads_bind_opt {A B} (m : ReadM A) (g : A -> bytes) (o : option A)
    (k : option A -> ReadM B) bs y :
  (forall a, o = Some a -> reads m (g a) a) -> reads (k o) bs y ->
  reads (rbind (rd_opt m) k)
    ([if has_value o then 1 else 0] ++ (match o with Some a => g a | None => [] end) ++ bs) y.
Proof. intros H1 H2. rewrite app_assoc. eapply reads_bind; [by apply reads_opt|done]. Qed.

(** *** Steady computations *)
Lemma steady_ret {A} (x : A) : steady (rret x).
Proof. split; [done|]. intros d extra a d' [= -> ->]. done. Qed.

Lemma steady_bind {A B} (m : ReadM A) (k : A -> ReadM B) :
  steady m -> (forall x, steady (k x)) -> steady (rbind m k).
Proof.
  intros Hm Hk. split.
  - intros d. unfold rbind. pose proof (steady_sticky _ Hm d) as H.
    destruct (m (MkReader d false)) as [x [d1 ok]]; cbn in H; subst. apply Hk.
  - intros d extra a d'. unfold rbind.
    destruct (m (MkReader d true)) as [x [d1 []]] eqn:E; intros H.
    + rewrite (steady_extend _ Hm _ extra _ _ E). by apply Hk.
    + pose proof (steady_sticky _ (Hk x) d1) as H1. by rewrite H in H1.
Qed.

Lemma steady_is_ok : steady rd_is_ok.
Proof. split; [done|]. intros d extra a d' [= <- <-]. done. Qed.
Lemma steady_fail : steady rd_fail.
Proof. split; [done|]. done. Qed.

Lemma steady_u8 : steady rd_u8.
Proof.
  split; [done|]. intros [|b d] extra a d'; unfold rd_u8; cbn; [done|].
  by intros [= -> ->].
Qed.

Lemma steady_raw n : steady (rd_raw n).
Proof.
  split; [done|]. intros d extra a d'. unfold rd_raw. cbn [rd_ok rd_data negb orb].
  destruct (Z.gtb_spec n (Z.of_nat (length d))); [done|]. intros [= <- <-].
  rewrite length_app. destruct (Z.gtb_spec n (Z.of_nat (length d + length extra))); [lia|].
  rewrite take_app_le, drop_app_le by lia. done.
Qed.

Lemma steady_ropt {A B} (o : option A) (k : A -> ReadM (option B)) :
  (forall x, steady (k x)) -> steady (ropt o k).
Proof. intros H. destruct o; [apply H|apply steady_ret]. Qed.

(** *** Checked computations: success is only reported by an intact reader *)
Definition checked {A} (known : bool) (m : ReadM (option A)) : Prop :=
  forall r a r', (known = true -> rd_ok r = true) -> m r = (Some a, r') -> rd_ok r' = true.

Lemma checked_none {A} b : checked b (rret (@None A)).
Proof. by intros r a r' _ [=]. Qed.
Lemma checked_some {A} (x : A) : checked true (rret (Some x)).
Proof. intros r a r' Hr [= <- <-]. by apply Hr. Qed.

Lemma checked_bind {A B} b (m : ReadM A) (k : A -> ReadM (option B)) :
  (forall x, checked false (k x)) -> checked b (rbind m k).
Proof.
  intros Hk r a r' _. unfold rbind. destruct (m r) as [x r1]. by apply Hk.
Qed.

Lemma checked_guard {A} b c (k : ReadM (option A)) :
  checked true k ->
  checked b (rbind rd_is_ok (fun ok => if (negb ok || c)%bool then rret None else k)).
Proof.
  intros Hk r a r' _. unfold rbind, rd_is_ok. destruct (rd_ok r) eqn:E; cbn [negb orb]; [|done].
  destruct c; [done|]. by apply Hk.
Qed.

Lemma checked_guard_ok {A} b (k : ReadM (option A)) :
  checked true k -> checked b (rbind rd_is_ok (fun ok => if negb ok then rret None else k)).
Proof.
  intros H. pose proof (checked_guard b false k H) as Hg. intros r x r' Hb. specialize (Hg r x r' Hb).
  unfold rbind in *. destruct (rd_is_ok r) as [ok r1]. by rewrite orb_false_r in Hg.
Qed.
Lemma checked_weaken {A} b (m : ReadM (option A)) : checked false m -> checked b m.
Proof. intros Hm r a r' _. by apply Hm. Qed.

Lemma checked_nested {A B} b (m : ReadM (option A)) (k : A -> ReadM (option B)) :
  checked b m -> (forall x, checked true (k x)) ->
  checked b (rbind m (fun o => ropt o k)).
Proof.
  intros Hm Hk r a r' Hr. unfold rbind. destruct (m r) as [[x|] r1] eqn:E; [|done].
  apply Hk. intros _. by eapply Hm.
Qed.

Lemma checked_ropt {A B} b (o : option A) (k : A -> ReadM (option B)) :
  (forall x, checked b (k x)) -> checked b (ropt o k).
Proof. intros H. destruct o; [apply H|apply checked_none]. Qed.

Lemma checked_if {A} b (c : bool) (m1 m2 : ReadM (option A)) :
  checked b m1 -> checked b m2 -> checked b (if c then m1 else m2).
Proof. by destruct c. Qed.

Lemma checked_each {A} n (m : ReadM (option A)) : checked false m -> checked true (rd_each n m).
Proof.
  intros Hm. induction n as [|n IH]; cbn [rd_each]; [apply checked_some|].
  apply checked_nested; [by apply checked_weaken|]. intros x. apply checked_nested; [done|].
  intros xs. apply checked_some.
Qed.

(** ** The codec interface *)
Arguments rd_opt : simpl never.

Class Codec (A : Type) := {
  encode : A -> WriteM;
  decode : ReadM (option A);
  codec_wf : A -> Prop;
  codec_law a : codec_wf a -> exists bs, emits (encode a) bs /\ reads decode bs (Some a);
  codec_steady : steady decode;
  codec_checked : checked false decode;
}.

(** The bytes of one value: [Writer writer; encode(writer); writer.data()]. *)
Definition encoded {A} `{Codec A} (a : A) : bytes := wr_buf (encode a writer_empty).
(** [digest()] of every encoded record. *)
Definition encoded_digest {A} `{Codec A} (a : A) : Digest := sha256 (encoded a).

Create HintDb codec discriminated.

Lemma emits_encoded {A} `{Codec A} (a : A) : codec_wf a -> emits (encode a) (encoded a).
Proof.
  intros (bs & He & _)%codec_law. unfold encoded. by rewrite (He writer_empty eq_refl).
Qed.

Lemma reads_encoded {A} `{Codec A} (a : A) : codec_wf a -> reads decode (encoded a) (Some a).
Proof.
  intros (bs & He & Hr)%codec_law. unfold encoded. by rewrite (He writer_empty eq_refl).
Qed.

Lemma reads_nested {A B} `{Codec A} (a : A) (k : A -> ReadM (option B)) bs y :
  codec_wf a -> reads (k a) bs y ->
  reads (rbind decode (fun o => ropt o k)) (encoded a ++ bs) y.
Proof. intros. eapply reads_bind; [by apply reads_encoded|done]. Qed.

Lemma emits_each_encoded {A} `{Codec A} (l : list A) :
  Forall codec_wf l -> emits (wr_each encode l) (concat (map encoded l)).
Proof.
  intros Hl. apply emits_each. intros a Ha. apply emits_encoded.
  rewrite Forall_forall in Hl. by apply Hl.
Qed.

Lemma reads_each_encoded {A} `{Codec A} (l : list A) :
  Forall codec_wf l ->
  reads (rd_each (Z.to_nat (Z.of_nat (length l))) decode) (concat (map encoded l)) (Some l).
Proof.
  intros Hl. rewrite Nat2Z.id. apply reads_each. intros a Ha. apply reads_encoded.
  rewrite Forall_forall in Hl. by apply Hl.
Qed.

Lemma reads_name {B} n (k : string -> ReadM (option B)) bs y :
  name_wf n -> reads (k n) bs y -> reads (ropt (decode_name n) k) bs y.
Proof. intros. by rewrite decode_name_wf. Qed.

Definition link_key_valid (k : LinkKey) : Prop :=
  is_valid_name (lk_fabric k) = true /\ is_valid_name (lk_link k) = true.
#[global] Instance link_key_valid_dec k : Decision (link_key_valid k).
Proof. unfold link_key_valid. apply _. Defined.

Lemma name_parse_valid n : is_valid_name n = true -> name_parse n = Success n.
Proof. unfold name_parse. by intros ->. Qed.

Lemma reads_strict_name {B} n (k : string -> ReadM (option B)) bs y :
  is_valid_name n = true -> reads (k n) bs y ->
  reads (ropt (result_value (name_parse n)) k) bs y.
Proof. intros H. by rewrite name_parse_valid. Qed.

Lemma valid_name_encoded n :
  is_valid_name n = true -> Z.of_nat (String.length n) <= kMaxEncodedString.
Proof. intros ?%is_valid_name_length. unfold kMaxEncodedString. lia. Qed.

Lemma name_wf_encoded n : name_wf n -> Z.of_nat (String.length n) <= kMaxEncodedString.
Proof. intros ?%name_wf_length. unfold kMaxEncodedString. lia. Qed.

Lemma geb_false a b : a < b -> (a >=? b) = false.
Proof. intros. destruct (Z.geb_spec a b); [lia|done]. Qed.
Lemma gtb_false a b : a <= b -> (a >? b) = false.
Proof. intros. destruct (Z.gtb_spec a b); [lia|done]. Qed.

Lemma enum_code_lt {A} `{EnumCode A} (a : A) n : enum_count (A := A) <= n -> enum_code a < n.
Proof. intros. eapply Z.lt_le_trans; [apply enum_code_count|done]. Qed.
Lemma enum_code_u16 {A} `{EnumCode A} (a : A) :
  enum_count (A := A) <= two16 -> is_u16 (enum_code a).
Proof. intros. split; [apply enum_nonneg|by apply enum_code_lt]. Qed.

Lemma format_version_u16 : is_u16 kIdentityFormatVersion.
Proof. unfold kIdentityFormatVersion. ints. Qed.

#[export] Hint Resolve name_wf_encoded valid_name_encoded format_version_u16 : codec.
#[export] Hint Extern 1 (is_u16 (enum_code _)) =>
  (apply enum_code_u16; vm_compute; discriminate) : codec.
#[export] Hint Extern 1 (enum_code _ < _) =>
  (apply enum_code_lt; vm_compute; discriminate) : codec.

Definition is_confidence (c : Z) : Prop := 0 <= c <= kMaxConfidence.
#[global] Instance is_confidence_dec c : Decision (is_confidence c).
Proof. unfold is_confidence. apply _. Defined.
Lemma confidence_u32 c : is_confidence c -> is_u32 c.
Proof. unfold is_confidence, kMaxConfidence. ints. Qed.
Lemma confidence_le c : is_confidence c -> c <= kMaxConfidence.
Proof. unfold is_confidence. lia. Qed.
#[export] Hint Resolve confidence_u32 confidence_le : codec.

(** [wf_side] discharges the bounds a field must satisfy. *)
Ltac wf_side := solve [ assumption | ints | auto with codec ].

Ltac emits_field :=
  lazymatch goal with
  | |- emits (wr_u8 _) _ => apply emits_u8
  | |- emits (wr_u16 _) _ => apply emits_u16
  | |- emits (wr_u32 _) _ => apply emits_u32
  | |- emits (wr_u64 _) _ => apply emits_u64
  | |- emits (wr_i64 _) _ => apply emits_i64
  | |- emits (wr_bool8 _) _ => apply emits_bool8
  | |- emits (wr_digest _) _ => apply emits_digest
  | |- emits (wr_incarnation _) _ => apply emits_incarnation
  | |- emits (wr_str _) _ => apply emits_str; wf_side
  | |- emits (wr_str_max _ _) _ => apply emits_str_max; wf_side
  | |- emits (encode _) _ => apply emits_encoded; wf_side
  | |- emits (wr_each encode _) _ => apply emits_each_encoded; wf_side
  | |- emits (wr_opt wr_u64 _) _ => apply (emits_opt _ (le_bytes 8)); intros; apply emits_u64
  | |- emits (wr_opt wr_digest _) _ => apply (emits_opt _ digest_bytes); intros; apply emits_digest
  | |- emits (wr_opt wr_incarnation _) _ =>
      apply (emits_opt _ inc_bytes); intros; apply emits_incarnation
  | |- _ => first [eassumption | solve [auto with codec]]
  end.
Ltac emits_fields := repeat (eapply emits_cons; [emits_field|]); apply emits_nil.

(** [reads_fields] follows a decoder on the bytes its encoder emitted: fields in
    order, then the guards, then the names. *)
Ltac reads_field :=
  lazymatch goal with
  | |- reads rd_u8 _ _ => apply reads_u8
  | |- reads rd_u16 _ _ => apply reads_u16; wf_side
  | |- reads rd_u32 _ _ => apply reads_u32; wf_side
  | |- reads rd_u64 _ _ => apply reads_u64; wf_side
  | |- reads rd_i64 _ _ => apply reads_i64; wf_side
  | |- reads rd_bool8 _ _ => apply reads_bool8
  | |- reads rd_digest _ _ => apply reads_digest; wf_side
  | |- reads rd_incarnation _ _ => apply reads_incarnation; wf_side
  | |- reads rd_str _ _ => apply reads_str; wf_side
  | |- reads (rd_str_max _) _ _ => apply reads_str_max; wf_side
  | |- reads decode _ _ => apply reads_encoded; wf_side
  | |- reads (rd_each _ decode) _ _ => apply reads_each_encoded; wf_side
  | |- _ => first [eassumption | solve [auto with codec]]
  end.
Ltac guard_side :=
  cbn [negb]; first
  [ reflexivity | assumption | apply geb_false; wf_side | apply gtb_false; wf_side
  | apply negb_false_iff; wf_side ].
Ltac guard_false :=
  match goal with
  | |- reads (if ?b then _ else _) _ _ =>
      let H := fresh in
      assert (H : b = false); [repeat (apply orb_false_intro); guard_side | rewrite H; clear H]
  end.
Ltac reads_fields :=
  cbv beta;
  lazymatch goal with
  | |- reads (rbind rd_is_ok _) _ _ => eapply reads_bind_nil; [apply reads_is_ok|]; reads_fields
  | |- reads (if _ then _ else _) _ _ => guard_false; reads_fields
  | |- reads (ropt (decode_name _) _) _ _ => apply reads_name; [wf_side|]; reads_fields
  | |- reads (ropt (result_value (name_parse _)) _) _ _ =>
      apply reads_strict_name; [wf_side|]; reads_fields
  | |- reads (ropt (Some _) _) _ _ => cbn [ropt]; reads_fields
  | |- reads (rbind (rd_opt rd_u64) _) _ _ =>
      eapply (reads_bind_opt _ (le_bytes 8)); [intros; apply reads_u64; wf_side|]; reads_fields
  | |- reads (rbind (rd_opt rd_digest) _) _ _ =>
      eapply (reads_bind_opt _ digest_bytes); [intros; apply reads_digest; wf_side|]; reads_fields
  | |- reads (rbind (rd_opt rd_incarnation) _) _ _ =>
      eapply (reads_bind_opt _ inc_bytes); [intros; apply reads_incarnation; wf_side|]; reads_fields
  | |- reads (rbind _ _) _ _ => eapply reads_bind; [reads_field|]; reads_fields
  | |- _ => idtac
  end.

Ltac steady_solve :=
  repeat first
  [ apply codec_steady | apply steady_ret | apply steady_is_ok | apply steady_fail
  | apply steady_u8 | apply steady_raw | solve [auto with codec]
  | apply steady_bind; [|intro] | apply steady_ropt; intro | case_if ].

Lemma steady_loop n s v : steady (rd_loop n s v).
Proof. revert s v. induction n; intros; cbn [rd_loop]; steady_solve. Qed.
#[export] Hint Resolve steady_loop : codec.
Lemma steady_u16 : steady rd_u16.
Proof. apply steady_loop. Qed.
Lemma steady_u32 : steady rd_u32.
Proof. apply steady_loop. Qed.
Lemma steady_u64 : steady rd_u64.
Proof. apply steady_loop. Qed.
#[export] Hint Resolve steady_u16 steady_u32 steady_u64 : codec.
Lemma steady_i64 : steady rd_i64.
Proof. unfold rd_i64. steady_solve. Qed.
Lemma steady_bool8 : steady rd_bool8.
Proof. unfold rd_bool8. steady_solve. Qed.
Lemma steady_blob m : steady (rd_blob m).
Proof. unfold rd_blob. steady_solve. Qed.
#[export] Hint Resolve steady_i64 steady_bool8 steady_blob : codec.
Lemma steady_str_max m : steady (rd_str_max m).
Proof. unfold rd_str_max. steady_solve. Qed.
Lemma steady_str : steady rd_str.
Proof. apply steady_str_max. Qed.
Lemma steady_digest : steady rd_digest.
Proof. unfold rd_digest. steady_solve. Qed.
Lemma steady_incarnation : steady rd_incarnation.
Proof. unfold rd_incarnation. steady_solve. Qed.
#[export] Hint Resolve steady_str_max steady_str steady_digest steady_incarnation : codec.
Lemma steady_each {A} n (m : ReadM (option A)) : steady m -> steady (rd_each n m).
Proof. intros. induction n; cbn [rd_each]; steady_solve. Qed.
Lemma steady_opt {A} (m : ReadM A) : steady m -> steady (rd_opt m).
Proof. intros. unfold rd_opt. steady_solve. Qed.
#[export] Hint Resolve steady_each steady_opt codec_steady : codec.

Ltac checked_solve :=
  repeat first
  [ apply checked_none | apply checked_some | apply codec_checked
  | apply checked_guard_ok | apply checked_guard
  | (apply checked_weaken; apply codec_checked)
  | apply checked_each
  | apply checked_nested; [|intro]
  | apply checked_bind; intro | apply checked_ropt; intro | apply checked_if ].

(** ** Theorems every codec inherits from its laws *)
Section codec_theorems.
Context {A : Type} `{!Codec A}.

Lemma decode_encoded (a : A) rest :
  codec_wf a -> decode (reader_of (encoded a ++ rest)) = (Some a, reader_of rest).
Proof. intros H. by apply reads_encoded. Qed.

Lemma encoded_prefix_free (a b : A) x y :
  codec_wf a -> codec_wf b -> encoded a ++ x = encoded b ++ y -> a = b /\ x = y.
Proof.
  intros Ha Hb H. pose proof (decode_encoded a x Ha) as E. rewrite H, decode_encoded in E by done.
  unfold reader_of in E. by simplify_eq.
Qed.

Lemma encoded_inj (a b : A) : codec_wf a -> codec_wf b -> encoded a = encoded b -> a = b.
Proof.
  intros Ha Hb H. apply (encoded_prefix_free a b [] []); [done..|]. by rewrite H.
Qed.

(** A truncated encoding never decodes: the torn image of a record is refused. *)
Lemma decode_truncated (a : A) k :
  codec_wf a -> (k < length (encoded a))%nat ->
  (decode (reader_of (take k (encoded a)))).1 = None.
Proof.
  intros Ha Hk. destruct (decode (reader_of (take k (encoded a)))) as [[b|] r] eqn:E; [|done].
  pose proof (codec_checked _ _ _ ltac:(done) E) as Hok. destruct r as [d ok]. cbn in Hok. subst ok.
  apply (steady_extend _ codec_steady _ (drop k (encoded a))) in E.
  rewrite take_drop in E. pose proof (decode_encoded a [] Ha) as E'.
  rewrite app_nil_r in E'. unfold reader_of in E'. rewrite E in E'. simplify_eq.
  apply (f_equal length) in H0. rewrite length_app, length_drop in H0. cbn in H0. lia.
Qed.

(** A failed reader never yields a value. *)
Lemma decode_failed_reader d : (decode (A := A) (MkReader d false)).1 = None.
Proof.
  destruct (decode (MkReader d false)) as [[b|] r] eqn:E; [|done].
  pose proof (codec_checked _ _ _ ltac:(done) E) as Hok.
  pose proof (steady_sticky _ (codec_steady (A := A)) d) as H. rewrite E in H. cbn in H. congruence.
Qed.
End codec_theorems.

(** A link key the codecs carry: both names are empty or grammatical. *)
Definition link_key_wf (k : LinkKey) : Prop := name_wf (lk_fabric k) /\ name_wf (lk_link k).
#[global] Instance link_key_wf_dec k : Decision (link_key_wf k).
Proof. unfold link_key_wf. apply _. Defined.

(** An instance in one line: the wf predicate is a conjunction of field bounds. *)
Ltac codec_law_solve :=
  match goal with |- ?wf ?a -> _ =>
    let H := fresh in intros H; unfold wf in H; cbn in H
  end;
  unfold link_key_wf, link_key_valid in *; cbn in *; destruct_and?; eexists; split;
  [ match goal with |- emits (?f _) _ => unfold f; cbn end; emits_fields
  | match goal with |- reads ?d _ _ => unfold d end; reads_fields ].
Arguments encode : simpl never.
Arguments decode : simpl never.
Arguments encoded : simpl never.
Arguments encoded_digest : simpl never.

(** A list whose length fits the bound its decoder enforces. *)
Definition count_wf {A} (bound : Z) (l : list A) : Prop := Z.of_nat (length l) <= bound.
Lemma count_le {A} b (l : list A) : count_wf b l -> Z.of_nat (length l) <= b.
Proof. done. Qed.
Lemma count_u32 {A} b (l : list A) : count_wf b l -> b < two32 -> is_u32 (Z.of_nat (length l)).
Proof. unfold count_wf. ints. Qed.
#[export] Hint Resolve count_le : codec.
#[export] Hint Extern 1 (is_u32 (Z.of_nat (length _))) =>
  (eapply count_u32; [eassumption|vm_compute; reflexivity]) : codec.
