(* ===== verification/Evidence.v ===== *)
(** * Fabric observations and replacement evidence

    Models include/lff/evidence.hpp and src/evidence.cpp: the observation,
    freshness and verdict enumerations, the evidence stamp, the failure and
    replacement reports with their canonical encodings, the retained evidence,
    and the candidate assessments with their canonical order. *)
From S2P Require Import Prelude Status Hash Ids Bytes.

(** ** Enumerations *)
Module ObservationState.
Inductive ObservationState :=
| Unknown
| Up
| Degraded
| Down
| Unusable.
End ObservationState.
Abbreviation ObservationState := ObservationState.ObservationState.

Definition observation_state_code (v : ObservationState) : Z :=
  match v with
  | ObservationState.Unknown => 0
  | ObservationState.Up => 1
  | ObservationState.Degraded => 2
  | ObservationState.Down => 3
  | ObservationState.Unusable => 4
  end.

#[global] Instance observation_state_enum : EnumCode ObservationState := {|
  enum_values :=
    [ObservationState.Unknown; ObservationState.Up; ObservationState.Degraded;
     ObservationState.Down; ObservationState.Unusable];
  enum_code := observation_state_code;
  enum_nonneg := ltac:(by intros []);
  enum_nth := ltac:(by intros []);
|}.
#[global] Instance observation_state_eq_dec : EqDecision ObservationState := enum_eq_dec.

Definition kObservationNames : list (ObservationState * string) := [
  (ObservationState.Unknown, "Unknown");
  (ObservationState.Up, "Up");
  (ObservationState.Degraded, "Degraded");
  (ObservationState.Down, "Down");
  (ObservationState.Unusable, "Unusable")
].

Definition observation_state_name (v : ObservationState) : string :=
  table_name "UnrecognisedObservationState" kObservationNames v.

Definition observation_state_parse (text : string) : option ObservationState :=
  table_parse kObservationNames text.
Definition kObservationStateCount : Z := 5.

Definition observation_state_is_failure (value : ObservationState)
    (treat_degraded_as_failure : bool) : bool :=
  match value with
  | ObservationState.Down | ObservationState.Unusable => true
  | ObservationState.Degraded => treat_degraded_as_failure
  | ObservationState.Up | ObservationState.Unknown => false
  end.

Module FreshnessClass.
Inductive FreshnessClass :=
| Current
| Expired
| PriorIncarnation
| Future.
End FreshnessClass.
Abbreviation FreshnessClass := FreshnessClass.FreshnessClass.

Definition freshness_class_code (v : FreshnessClass) : Z :=
  match v with
  | FreshnessClass.Current => 0
  | FreshnessClass.Expired => 1
  | FreshnessClass.PriorIncarnation => 2
  | FreshnessClass.Future => 3
  end.

#[global] Instance freshness_class_enum : EnumCode FreshnessClass := {|
  enum_values :=
    [FreshnessClass.Current; FreshnessClass.Expired; FreshnessClass.PriorIncarnation;
     FreshnessClass.Future];
  enum_code := freshness_class_code;
  enum_nonneg := ltac:(by intros []);
  enum_nth := ltac:(by intros []);
|}.
#[global] Instance freshness_class_eq_dec : EqDecision FreshnessClass := enum_eq_dec.

Definition kFreshnessNames : list (FreshnessClass * string) := [
  (FreshnessClass.Current, "Current");
  (FreshnessClass.Expired, "Expired");
  (FreshnessClass.PriorIncarnation, "PriorIncarnation");
  (FreshnessClass.Future, "Future")
].

Definition freshness_class_name (v : FreshnessClass) : string :=
  table_name "UnrecognisedFreshnessClass" kFreshnessNames v.

Definition freshness_class_parse (text : string) : option FreshnessClass :=
  table_parse kFreshnessNames text.
Definition kFreshnessClassCount : Z := 4.

Module Verdict.
Inductive Verdict :=
| Eligible
| Disproven
| Indeterminate.
End Verdict.
Abbreviation Verdict := Verdict.Verdict.

Definition verdict_code (v : Verdict) : Z :=
  match v with
  | Verdict.Eligible => 0
  | Verdict.Disproven => 1
  | Verdict.Indeterminate => 2
  end.

#[global] Instance verdict_enum : EnumCode Verdict := {|
  enum_values :=
    [Verdict.Eligible; Verdict.Disproven; Verdict.Indeterminate];
  enum_code := verdict_code;
  enum_nonneg := ltac:(by intros []);
  enum_nth := ltac:(by intros []);
|}.
#[global] Instance verdict_eq_dec : EqDecision Verdict := enum_eq_dec.

Definition kVerdictNames : list (Verdict * string) := [
  (Verdict.Eligible, "Eligible");
  (Verdict.Disproven, "Disproven");
  (Verdict.Indeterminate, "Indeterminate")
].

Definition verdict_name (v : Verdict) : string :=
  table_name "UnrecognisedVerdict" kVerdictNames v.

Definition verdict_parse (text : string) : option Verdict :=
  table_parse kVerdictNames text.
Definition kVerdictCount : Z := 3.

(** ** Evidence stamp *)
Abbreviation PublisherName := string (only parsing).

Record EvidenceStamp := MkStamp {
  es_publisher : PublisherName;
  es_publisher_incarnation : Incarnation;
  es_publisher_epoch : Epoch;
  es_observation_seq : ObservationSeq;
  es_wall_clock_ms : Z;
}.
#[global] Instance evidence_stamp_eq_dec : EqDecision EvidenceStamp.
Proof. solve_decision. Defined.

Definition stamp_encode (s : EvidenceStamp) : WriteM := writes [
  wr_str (es_publisher s);
  wr_incarnation (es_publisher_incarnation s);
  wr_u64 (es_publisher_epoch s);
  wr_u64 (es_observation_seq s);
  wr_i64 (es_wall_clock_ms s)].

Definition stamp_decode : ReadM (option EvidenceStamp) :=
  let* publisher := rd_str in
  let* incarnation := rd_incarnation in
  let* epoch := rd_u64 in
  let* seq := rd_u64 in
  let* wall := rd_i64 in
  let* ok := rd_is_ok in
  if negb ok then rret None else
  ropt (decode_name publisher) (fun publisher =>
  rret (Some (MkStamp publisher incarnation epoch seq wall))).

Definition stamp_wf (s : EvidenceStamp) : Prop :=
  name_wf (es_publisher s) /\ incarnation_wf (es_publisher_incarnation s) /\
  is_u64 (es_publisher_epoch s) /\ is_u64 (es_observation_seq s) /\ is_i64 (es_wall_clock_ms s).

#[global] Program Instance stamp_codec : Codec EvidenceStamp := {|
  encode := stamp_encode; decode := stamp_decode; codec_wf := stamp_wf |}.
Next Obligation. intros []. codec_law_solve. apply reads_ret. Qed.
Next Obligation. unfold stamp_decode. steady_solve. Qed.
Next Obligation. unfold stamp_decode. checked_solve. Qed.

(** ** Failure report *)
Record FailureReport := MkFailureReport {
  fr_subject : LinkKey;
  fr_link_generation : LinkGeneration;
  fr_topology_generation : TopologyGeneration;
  fr_state : ObservationState;
  fr_confidence : Confidence;
  fr_stamp : EvidenceStamp;
}.
#[global] Instance failure_report_eq_dec : EqDecision FailureReport.
Proof. solve_decision. Defined.

Definition failure_report_encode (r : FailureReport) : WriteM := writes [
  wr_str (lk_fabric (fr_subject r));
  wr_str (lk_link (fr_subject r));
  wr_u64 (fr_link_generation r);
  wr_u64 (fr_topology_generation r);
  wr_u16 (enum_code (fr_state r));
  wr_u32 (fr_confidence r);
  encode (fr_stamp r)].

Definition failure_report_decode : ReadM (option FailureReport) :=
  let* fabric := rd_str in
  let* link := rd_str in
  let* generation := rd_u64 in
  let* topology := rd_u64 in
  let* state := rd_u16 in
  let* confidence := rd_u32 in
  let* ok := rd_is_ok in
  if negb ok then rret None else
  if ((state >=? kObservationStateCount) || (confidence >? kMaxConfidence))%bool then rret None else
  let* stamp := decode in ropt stamp (fun stamp =>
  ropt (decode_name fabric) (fun fabric =>
  ropt (decode_name link) (fun link =>
  rret (Some (MkFailureReport (MkLinkKey fabric link) generation topology
    (enum_cast ObservationState.Unknown state) confidence stamp))))).

Definition failure_report_wf (r : FailureReport) : Prop :=
  name_wf (lk_fabric (fr_subject r)) /\ name_wf (lk_link (fr_subject r)) /\
  is_u64 (fr_link_generation r) /\ is_u64 (fr_topology_generation r) /\
  is_confidence (fr_confidence r) /\ stamp_wf (fr_stamp r).

#[global] Program Instance failure_report_codec : Codec FailureReport := {|
  encode := failure_report_encode; decode := failure_report_decode;
  codec_wf := failure_report_wf |}.
Next Obligation. intros [[]]. codec_law_solve. rewrite enum_cast_code. apply reads_ret. Qed.
Next Obligation. unfold failure_report_decode. steady_solve. Qed.
Next Obligation. unfold failure_report_decode. checked_solve. Qed.

(** ** Replacement report *)
Record ReplacementReport := MkReplacementReport {
  rr_candidate : LinkKey;
  rr_link_generation : LinkGeneration;
  rr_topology_generation : TopologyGeneration;
  rr_state : ObservationState;
  rr_confidence : Confidence;
  rr_capacity_units : Z;
  rr_cost_units : Z;
  rr_adjacency_authorized : bool;
  rr_adjacency_policy_generation : PolicyGeneration;
  rr_stamp : EvidenceStamp;
}.
#[global] Instance replacement_report_eq_dec : EqDecision ReplacementReport.
Proof. solve_decision. Defined.

Definition replacement_report_encode (r : ReplacementReport) : WriteM := writes [
  wr_str (lk_fabric (rr_candidate r));
  wr_str (lk_link (rr_candidate r));
  wr_u64 (rr_link_generation r);
  wr_u64 (rr_topology_generation r);
  wr_u16 (enum_code (rr_state r));
  wr_u32 (rr_confidence r);
  wr_u32 (rr_capacity_units r);
  wr_u32 (rr_cost_units r);
  wr_bool8 (rr_adjacency_authorized r);
  wr_u64 (rr_adjacency_policy_generation r);
  encode (rr_stamp r)].

Definition replacement_report_decode : ReadM (option ReplacementReport) :=
  let* fabric := rd_str in
  let* link := rd_str in
  let* generation := rd_u64 in
  let* topology := rd_u64 in
  let* state := rd_u16 in
  let* confidence := rd_u32 in
  let* capacity := rd_u32 in
  let* cost := rd_u32 in
  let* authorized := rd_bool8 in
  let* adjacency_policy := rd_u64 in
  let* ok := rd_is_ok in
  if negb ok then rret None else
  if ((state >=? kObservationStateCount) || (confidence >? kMaxConfidence))%bool then rret None else
  let* stamp := decode in ropt stamp (fun stamp =>
  ropt (decode_name fabric) (fun fabric =>
  ropt (decode_name link) (fun link =>
  rret (Some (MkReplacementReport (MkLinkKey fabric link) generation topology
    (enum_cast ObservationState.Unknown state) confidence capacity cost authorized
    adjacency_policy stamp))))).

Definition replacement_report_wf (r : ReplacementReport) : Prop :=
  name_wf (lk_fabric (rr_candidate r)) /\ name_wf (lk_link (rr_candidate r)) /\
  is_u64 (rr_link_generation r) /\ is_u64 (rr_topology_generation r) /\
  is_confidence (rr_confidence r) /\ is_u32 (rr_capacity_units r) /\
  is_u32 (rr_cost_units r) /\ is_u64 (rr_adjacency_policy_generation r) /\ stamp_wf (rr_stamp r).

#[global] Program Instance replacement_report_codec : Codec ReplacementReport := {|
  encode := replacement_report_encode; decode := replacement_report_decode;
  codec_wf := replacement_report_wf |}.
Next Obligation. intros [[]]. codec_law_solve. rewrite enum_cast_code. apply reads_ret. Qed.
Next Obligation. unfold replacement_report_decode. steady_solve. Qed.
Next Obligation. unfold replacement_report_decode. checked_solve. Qed.

(** ** Replacement candidate *)
Record ReplacementCandidate := MkCandidate {
  rc_candidate : LinkKey;
  rc_expected_generation : LinkGeneration;
}.
#[global] Instance replacement_candidate_eq_dec : EqDecision ReplacementCandidate.
Proof. solve_decision. Defined.

Definition candidate_encode (c : ReplacementCandidate) : WriteM := writes [
  wr_str (lk_fabric (rc_candidate c));
  wr_str (lk_link (rc_candidate c));
  wr_u64 (rc_expected_generation c)].

Definition candidate_decode : ReadM (option ReplacementCandidate) :=
  let* fabric := rd_str in
  let* link := rd_str in
  let* generation := rd_u64 in
  let* ok := rd_is_ok in
  if negb ok then rret None else
  ropt (decode_name fabric) (fun fabric =>
  ropt (decode_name link) (fun link =>
  rret (Some (MkCandidate (MkLinkKey fabric link) generation)))).

Definition candidate_wf (c : ReplacementCandidate) : Prop :=
  name_wf (lk_fabric (rc_candidate c)) /\ name_wf (lk_link (rc_candidate c)) /\
  is_u64 (rc_expected_generation c).

#[global] Program Instance candidate_codec : Codec ReplacementCandidate := {|
  encode := candidate_encode; decode := candidate_decode; codec_wf := candidate_wf |}.
Next Obligation. intros [[]]. codec_law_solve. apply reads_ret. Qed.
Next Obligation. unfold candidate_decode. steady_solve. Qed.
Next Obligation. unfold candidate_decode. checked_solve. Qed.

(** ** Retained evidence

    [RetainedFailureEvidence] and [RetainedReplacementEvidence] have the same
    receipt fields around their report. *)
Record Retained (R : Type) := MkRetained {
  re_report : R;
  re_digest : Digest;
  re_receipt_seq : LineageSeq;
  re_receipt_tick : Z;
  re_receipt_epoch : Epoch;
  re_receipt_coordinator : Incarnation;
  re_durable : bool;
}.
Arguments MkRetained {R}.
Arguments re_report {R}.
Arguments re_digest {R}.
Arguments re_receipt_seq {R}.
Arguments re_receipt_tick {R}.
Arguments re_receipt_epoch {R}.
Arguments re_receipt_coordinator {R}.
Arguments re_durable {R}.
Abbreviation RetainedFailureEvidence := (Retained FailureReport) (only parsing).
Abbreviation RetainedReplacementEvidence := (Retained ReplacementReport) (only parsing).

(** ** Candidate assessment *)
Record CandidateAssessment := MkAssessment {
  ca_candidate : LinkKey;
  ca_link_generation : LinkGeneration;
  ca_verdict : Verdict;
  ca_reason : ReasonCode;
  ca_detail : string;
  ca_state : ObservationState;
  ca_confidence : Confidence;
  ca_freshness : FreshnessClass;
  ca_age_ticks : Z;
  ca_capacity_units : Z;
  ca_cost_units : Z;
  ca_adjacency_authorized : bool;
  ca_evidence_digest : Digest;
}.
#[global] Instance candidate_assessment_eq_dec : EqDecision CandidateAssessment.
Proof. solve_decision. Defined.

Definition candidate_assessment_less (a b : CandidateAssessment) : bool :=
  if link_key_ltb (ca_candidate a) (ca_candidate b) then true
  else if link_key_ltb (ca_candidate b) (ca_candidate a) then false
  else ca_link_generation a >? ca_link_generation b.

Definition candidate_assessment_to_string (v : CandidateAssessment) : string :=
  (link_key_to_string (ca_candidate v) +:+ "@" +:+ decimal_text (ca_link_generation v) +:+ " " +:+
   verdict_name (ca_verdict v) +:+ " " +:+ reason_code_name (ca_reason v) +:+
   (if string_empty (ca_detail v) then "" else " (" +:+ ca_detail v +:+ ")"))%string.

#[global] Instance candidate_assessment_less_weak : StrictWeak candidate_assessment_less.
Proof.
  exact (strict_weak_key (fun v => (ca_candidate v, ca_link_generation v))
    (lex_ltb link_key_ltb Z.gtb)).
Qed.

Lemma observation_state_parse_name v :
  observation_state_parse (observation_state_name v) = Some v.
Proof. table_roundtrip. Qed.
