(* ===== verification/Policy.v ===== *)
(** * Failover policy and topology snapshots

    Models include/lff/policy.hpp and src/policy.cpp: the policy with its
    validation, its canonical encoding and its text form (printer and parser),
    and the explicitly supplied topology with its canonical order, validation,
    lookup and encoding. *)
From S2P Require Import Prelude Status Hash Ids Bytes.

(** ** Agreement rule *)
Module AgreementRule.
Inductive AgreementRule :=
| Unanimous
| MajorityOfFreshQualified.
End AgreementRule.
Abbreviation AgreementRule := AgreementRule.AgreementRule.

Definition agreement_rule_code (v : AgreementRule) : Z :=
  match v with
  | AgreementRule.Unanimous => 0
  | AgreementRule.MajorityOfFreshQualified => 1
  end.

#[global] Instance agreement_rule_enum : EnumCode AgreementRule := {|
  enum_values :=
    [AgreementRule.Unanimous; AgreementRule.MajorityOfFreshQualified];
  enum_code := agreement_rule_code;
  enum_nonneg := ltac:(by intros []);
  enum_nth := ltac:(by intros []);
|}.
#[global] Instance agreement_rule_eq_dec : EqDecision AgreementRule := enum_eq_dec.

Definition kAgreementNames : list (AgreementRule * string) := [
  (AgreementRule.Unanimous, "unanimous");
  (AgreementRule.MajorityOfFreshQualified, "majority")
].

Definition agreement_rule_name (v : AgreementRule) : string :=
  table_name "UnrecognisedAgreementRule" kAgreementNames v.

Definition agreement_rule_parse (text : string) : option AgreementRule :=
  table_parse kAgreementNames text.
Definition kAgreementRuleCount : Z := 2.
Definition kMaxPolicyCandidates : Z := 256.
Definition kMaxRetainedAttemptsPerLink : Z := 256.
Definition kMaxEvidenceAgeTicks : Z := 1099511627776.

(** ** Policy *)
Record FailoverPolicy := MkPolicy {
  fp_generation : PolicyGeneration;
  fp_min_failure_confidence : Confidence;
  fp_min_replacement_confidence : Confidence;
  fp_evidence_max_age_ticks : Z;
  fp_min_replacement_capacity : Z;
  fp_require_subject_capacity : bool;
  fp_require_adjacency_authorization : bool;
  fp_allow_degraded_replacement : bool;
  fp_treat_degraded_as_failed : bool;
  fp_agreement : AgreementRule;
  fp_max_attempts_per_generation : Z;
  fp_max_candidates : Z;
  fp_max_retained_attempts : Z;
  fp_require_verified_effect : bool;
  fp_failover_enabled : bool;
}.
#[global] Instance failover_policy_eq_dec : EqDecision FailoverPolicy.
Proof. solve_decision. Defined.

Definition set_fp_generation (v : PolicyGeneration) (r : FailoverPolicy) : FailoverPolicy :=
  MkPolicy v (fp_min_failure_confidence r) (fp_min_replacement_confidence r)
    (fp_evidence_max_age_ticks r) (fp_min_replacement_capacity r) (fp_require_subject_capacity
    r) (fp_require_adjacency_authorization r) (fp_allow_degraded_replacement r)
    (fp_treat_degraded_as_failed r) (fp_agreement r) (fp_max_attempts_per_generation r)
    (fp_max_candidates r) (fp_max_retained_attempts r) (fp_require_verified_effect r)
    (fp_failover_enabled r).
Definition set_fp_min_failure_confidence (v : Confidence) (r : FailoverPolicy) : FailoverPolicy :=
  MkPolicy (fp_generation r) v (fp_min_replacement_confidence r) (fp_evidence_max_age_ticks r)
    (fp_min_replacement_capacity r) (fp_require_subject_capacity r)
    (fp_require_adjacency_authorization r) (fp_allow_degraded_replacement r)
    (fp_treat_degraded_as_failed r) (fp_agreement r) (fp_max_attempts_per_generation r)
    (fp_max_candidates r) (fp_max_retained_attempts r) (fp_require_verified_effect r)
    (fp_failover_enabled r).
Definition set_fp_min_replacement_confidence (v : Confidence) (r : FailoverPolicy) : FailoverPolicy :=
  MkPolicy (fp_generation r) (fp_min_failure_confidence r) v (fp_evidence_max_age_ticks r)
    (fp_min_replacement_capacity r) (fp_require_subject_capacity r)
    (fp_require_adjacency_authorization r) (fp_allow_degraded_replacement r)
    (fp_treat_degraded_as_failed r) (fp_agreement r) (fp_max_attempts_per_generation r)
    (fp_max_candidates r) (fp_max_retained_attempts r) (fp_require_verified_effect r)
    (fp_failover_enabled r).
Definition set_fp_evidence_max_age_ticks (v : Z) (r : FailoverPolicy) : FailoverPolicy :=
  MkPolicy (fp_generation r) (fp_min_failure_confidence r) (fp_min_replacement_confidence r) v
    (fp_min_replacement_capacity r) (fp_require_subject_capacity r)
    (fp_require_adjacency_authorization r) (fp_allow_degraded_replacement r)
    (fp_treat_degraded_as_failed r) (fp_agreement r) (fp_max_attempts_per_generation r)
    (fp_max_candidates r) (fp_max_retained_attempts r) (fp_require_verified_effect r)
    (fp_failover_enabled r).
Definition set_fp_min_replacement_capacity (v : Z) (r : FailoverPolicy) : FailoverPolicy :=
  MkPolicy (fp_generation r) (fp_min_failure_confidence r) (fp_min_replacement_confidence r)
    (fp_evidence_max_age_ticks r) v (fp_require_subject_capacity r)
    (fp_require_adjacency_authorization r) (fp_allow_degraded_replacement r)
    (fp_treat_degraded_as_failed r) (fp_agreement r) (fp_max_attempts_per_generation r)
    (fp_max_candidates r) (fp_max_retained_attempts r) (fp_require_verified_effect r)
    (fp_failover_enabled r).
Definition set_fp_require_subject_capacity (v : bool) (r : FailoverPolicy) : FailoverPolicy :=
  MkPolicy (fp_generation r) (fp_min_failure_confidence r) (fp_min_replacement_confidence r)
    (fp_evidence_max_age_ticks r) (fp_min_replacement_capacity r) v
    (fp_require_adjacency_authorization r) (fp_allow_degraded_replacement r)
    (fp_treat_degraded_as_failed r) (fp_agreement r) (fp_max_attempts_per_generation r)
    (fp_max_candidates r) (fp_max_retained_attempts r) (fp_require_verified_effect r)
    (fp_failover_enabled r).
Definition set_fp_require_adjacency_authorization (v : bool) (r : FailoverPolicy) : FailoverPolicy :=
  MkPolicy (fp_generation r) (fp_min_failure_confidence r) (fp_min_replacement_confidence r)
    (fp_evidence_max_age_ticks r) (fp_min_replacement_capacity r) (fp_require_subject_capacity
    r) v (fp_allow_degraded_replacement r) (fp_treat_degraded_as_failed r) (fp_agreement r)
    (fp_max_attempts_per_generation r) (fp_max_candidates r) (fp_max_retained_attempts r)
    (fp_require_verified_effect r) (fp_failover_enabled r).
Definition set_fp_allow_degraded_replacement (v : bool) (r : FailoverPolicy) : FailoverPolicy :=
  MkPolicy (fp_generation r) (fp_min_failure_confidence r) (fp_min_replacement_confidence r)
    (fp_evidence_max_age_ticks r) (fp_min_replacement_capacity r) (fp_require_subject_capacity
    r) (fp_require_adjacency_authorization r) v (fp_treat_degraded_as_failed r) (fp_agreement r)
    (fp_max_attempts_per_generation r) (fp_max_candidates r) (fp_max_retained_attempts r)
    (fp_require_verified_effect r) (fp_failover_enabled r).
Definition set_fp_treat_degraded_as_failed (v : bool) (r : FailoverPolicy) : FailoverPolicy :=
  MkPolicy (fp_generation r) (fp_min_failure_confidence r) (fp_min_replacement_confidence r)
    (fp_evidence_max_age_ticks r) (fp_min_replacement_capacity r) (fp_require_subject_capacity
    r) (fp_require_adjacency_authorization r) (fp_allow_degraded_replacement r) v (fp_agreement
    r) (fp_max_attempts_per_generation r) (fp_max_candidates r) (fp_max_retained_attempts r)
    (fp_require_verified_effect r) (fp_failover_enabled r).
Definition set_fp_agreement (v : AgreementRule) (r : FailoverPolicy) : FailoverPolicy :=
  MkPolicy (fp_generation r) (fp_min_failure_confidence r) (fp_min_replacement_confidence r)
    (fp_evidence_max_age_ticks r) (fp_min_replacement_capacity r) (fp_require_subject_capacity
    r) (fp_require_adjacency_authorization r) (fp_allow_degraded_replacement r)
    (fp_treat_degraded_as_failed r) v (fp_max_attempts_per_generation r) (fp_max_candidates r)
    (fp_max_retained_attempts r) (fp_require_verified_effect r) (fp_failover_enabled r).
Definition set_fp_max_attempts_per_generation (v : Z) (r : FailoverPolicy) : FailoverPolicy :=
  MkPolicy (fp_generation r) (fp_min_failure_confidence r) (fp_min_replacement_confidence r)
    (fp_evidence_max_age_ticks r) (fp_min_replacement_capacity r) (fp_require_subject_capacity
    r) (fp_require_adjacency_authorization r) (fp_allow_degraded_replacement r)
    (fp_treat_degraded_as_failed r) (fp_agreement r) v (fp_max_candidates r)
    (fp_max_retained_attempts r) (fp_require_verified_effect r) (fp_failover_enabled r).
Definition set_fp_max_candidates (v : Z) (r : FailoverPolicy) : FailoverPolicy :=
  MkPolicy (fp_generation r) (fp_min_failure_confidence r) (fp_min_replacement_confidence r)
    (fp_evidence_max_age_ticks r) (fp_min_replacement_capacity r) (fp_require_subject_capacity
    r) (fp_require_adjacency_authorization r) (fp_allow_degraded_replacement r)
    (fp_treat_degraded_as_failed r) (fp_agreement r) (fp_max_attempts_per_generation r) v
    (fp_max_retained_attempts r) (fp_require_verified_effect r) (fp_failover_enabled r).
Definition set_fp_max_retained_attempts (v : Z) (r : FailoverPolicy) : FailoverPolicy :=
  MkPolicy (fp_generation r) (fp_min_failure_confidence r) (fp_min_replacement_confidence r)
    (fp_evidence_max_age_ticks r) (fp_min_replacement_capacity r) (fp_require_subject_capacity
    r) (fp_require_adjacency_authorization r) (fp_allow_degraded_replacement r)
    (fp_treat_degraded_as_failed r) (fp_agreement r) (fp_max_attempts_per_generation r)
    (fp_max_candidates r) v (fp_require_verified_effect r) (fp_failover_enabled r).
Definition set_fp_require_verified_effect (v : bool) (r : FailoverPolicy) : FailoverPolicy :=
  MkPolicy (fp_generation r) (fp_min_failure_confidence r) (fp_min_replacement_confidence r)
    (fp_evidence_max_age_ticks r) (fp_min_replacement_capacity r) (fp_require_subject_capacity
    r) (fp_require_adjacency_authorization r) (fp_allow_degraded_replacement r)
    (fp_treat_degraded_as_failed r) (fp_agreement r) (fp_max_attempts_per_generation r)
    (fp_max_candidates r) (fp_max_retained_attempts r) v (fp_failover_enabled r).
Definition set_fp_failover_enabled (v : bool) (r : FailoverPolicy) : FailoverPolicy :=
  MkPolicy (fp_generation r) (fp_min_failure_confidence r) (fp_min_replacement_confidence r)
    (fp_evidence_max_age_ticks r) (fp_min_replacement_capacity r) (fp_require_subject_capacity
    r) (fp_require_adjacency_authorization r) (fp_allow_degraded_replacement r)
    (fp_treat_degraded_as_failed r) (fp_agreement r) (fp_max_attempts_per_generation r)
    (fp_max_candidates r) (fp_max_retained_attempts r) (fp_require_verified_effect r) v.
Definition policy_defaults : FailoverPolicy :=
  MkPolicy 0 900 900 4096 1 true true false false AgreementRule.Unanimous 8
    kMaxPolicyCandidates kMaxRetainedAttemptsPerLink true true.

Definition policy_rejected (detail : string) : Status :=
  status_failure Outcome.Invalid ReasonCode.PolicyRejected detail.

Definition policy_validate (p : FailoverPolicy) : Status :=
  if fp_min_failure_confidence p >? kMaxConfidence
  then policy_rejected "min_failure_confidence out of range"
  else if fp_min_replacement_confidence p >? kMaxConfidence
  then policy_rejected "min_replacement_confidence out of range"
  else if ((fp_evidence_max_age_ticks p =? 0) ||
           (fp_evidence_max_age_ticks p >? kMaxEvidenceAgeTicks))%bool
  then policy_rejected "evidence_max_age_ticks out of range"
  else if ((fp_max_candidates p =? 0) || (fp_max_candidates p >? kMaxPolicyCandidates))%bool
  then policy_rejected "max_candidates out of range"
  else if ((fp_max_attempts_per_generation p =? 0) || (fp_max_attempts_per_generation p >? 1024))%bool
  then policy_rejected "max_attempts_per_generation out of range"
  else if ((fp_max_retained_attempts p =? 0) ||
           (fp_max_retained_attempts p >? kMaxRetainedAttemptsPerLink))%bool
  then policy_rejected "max_retained_attempts out of range"
  else if fp_generation p =? 0
  then policy_rejected "policy generation must be non-zero"
  else status_success.

Definition policy_encode (p : FailoverPolicy) : WriteM := writes [
  wr_u16 kIdentityFormatVersion;
  wr_u64 (fp_generation p);
  wr_u32 (fp_min_failure_confidence p);
  wr_u32 (fp_min_replacement_confidence p);
  wr_u64 (fp_evidence_max_age_ticks p);
  wr_u32 (fp_min_replacement_capacity p);
  wr_bool8 (fp_require_subject_capacity p);
  wr_bool8 (fp_require_adjacency_authorization p);
  wr_bool8 (fp_allow_degraded_replacement p);
  wr_bool8 (fp_treat_degraded_as_failed p);
  wr_u16 (enum_code (fp_agreement p));
  wr_u32 (fp_max_attempts_per_generation p);
  wr_u32 (fp_max_candidates p);
  wr_u32 (fp_max_retained_attempts p);
  wr_bool8 (fp_require_verified_effect p);
  wr_bool8 (fp_failover_enabled p)].

Definition policy_decode : ReadM (option FailoverPolicy) :=
  let* format_version := rd_u16 in
  let* generation := rd_u64 in
  let* min_failure := rd_u32 in
  let* min_replacement := rd_u32 in
  let* max_age := rd_u64 in
  let* min_capacity := rd_u32 in
  let* subject_capacity := rd_bool8 in
  let* adjacency := rd_bool8 in
  let* degraded_replacement := rd_bool8 in
  let* degraded_failure := rd_bool8 in
  let* agreement := rd_u16 in
  let* max_attempts := rd_u32 in
  let* max_candidates := rd_u32 in
  let* max_retained := rd_u32 in
  let* verified_effect := rd_bool8 in
  let* enabled := rd_bool8 in
  let* ok := rd_is_ok in
  if negb ok then rret None else
  if negb (format_version =? kIdentityFormatVersion) then rret None else
  if agreement >=? kAgreementRuleCount then rret None else
  rret (Some (MkPolicy generation min_failure min_replacement max_age min_capacity
    subject_capacity adjacency degraded_replacement degraded_failure
    (enum_cast AgreementRule.Unanimous agreement) max_attempts max_candidates max_retained
    verified_effect enabled)).

Definition policy_wf (p : FailoverPolicy) : Prop :=
  is_u64 (fp_generation p) /\
  is_u32 (fp_min_failure_confidence p) /\
  is_u32 (fp_min_replacement_confidence p) /\
  is_u64 (fp_evidence_max_age_ticks p) /\
  is_u32 (fp_min_replacement_capacity p) /\
  is_u32 (fp_max_attempts_per_generation p) /\
  is_u32 (fp_max_candidates p) /\
  is_u32 (fp_max_retained_attempts p).

#[global] Instance policy_wf_dec p : Decision (policy_wf p).
Proof. unfold policy_wf. apply _. Defined.

#[global] Program Instance policy_codec : Codec FailoverPolicy := {|
  encode := policy_encode; decode := policy_decode; codec_wf := policy_wf |}.
Next Obligation. intros []. codec_law_solve. rewrite enum_cast_code. apply reads_ret. Qed.
Next Obligation. unfold policy_decode. steady_solve. Qed.
Next Obligation. unfold policy_decode. checked_solve. Qed.

Definition policy_digest (p : FailoverPolicy) : Digest := encoded_digest p.

(** ** Policy text *)
Definition bool_text (b : bool) : string := if b then "true" else "false".
Definition newline : Ascii.ascii := ascii_of_byte 10.
Definition policy_text_line (key value : string) : string :=
  (key +:+ "=" +:+ value +:+ String newline EmptyString)%string.

Definition policy_fields (p : FailoverPolicy) : list (string * string) := [
  ("generation", decimal_text (fp_generation p));
  ("min_failure_confidence", decimal_text (fp_min_failure_confidence p));
  ("min_replacement_confidence", decimal_text (fp_min_replacement_confidence p));
  ("evidence_max_age_ticks", decimal_text (fp_evidence_max_age_ticks p));
  ("min_replacement_capacity", decimal_text (fp_min_replacement_capacity p));
  ("require_subject_capacity", bool_text (fp_require_subject_capacity p));
  ("require_adjacency_authorization", bool_text (fp_require_adjacency_authorization p));
  ("allow_degraded_replacement", bool_text (fp_allow_degraded_replacement p));
  ("treat_degraded_as_failed", bool_text (fp_treat_degraded_as_failed p));
  ("agreement", agreement_rule_name (fp_agreement p));
  ("max_attempts_per_generation", decimal_text (fp_max_attempts_per_generation p));
  ("max_candidates", decimal_text (fp_max_candidates p));
  ("max_retained_attempts", decimal_text (fp_max_retained_attempts p));
  ("require_verified_effect", bool_text (fp_require_verified_effect p));
  ("failover_enabled", bool_text (fp_failover_enabled p))].

Definition failover_policy_to_string (p : FailoverPolicy) : string :=
  foldr (fun kv rest => (policy_text_line kv.1 kv.2 +:+ rest)%string) EmptyString (policy_fields p).

(** The digit loop: at most twenty decimal digits, both operations checked. *)
Fixpoint parse_u64_loop (value : Z) (text : string) : option Z :=
  match text with
  | EmptyString => Some value
  | String ch rest =>
      if negb (char_between "0"%char "9"%char ch) then None
      else match checked_mul_u64 value 10 with
      | None => None
      | Some next =>
          match checked_add_u64 next (byte_of_ascii ch - 48) with
          | None => None
          | Some value' => parse_u64_loop value' rest
          end
      end
  end.
Definition parse_u64 (text : string) : option Z :=
  if (string_empty text || Nat.ltb 20 (String.length text))%bool then None
  else parse_u64_loop 0 text.

Definition parse_bool (text : string) : option bool :=
  if (bool_decide (text = "true"%string) || bool_decide (text = "1"%string))%bool then Some true
  else if (bool_decide (text = "false"%string) || bool_decide (text = "0"%string))%bool then Some false
  else None.

Definition is_blank (ch : Ascii.ascii) : bool :=
  let c := byte_of_ascii ch in ((c =? 32) || (c =? 9) || (c =? 13))%bool.
Fixpoint trim_front (s : string) : string :=
  match s with
  | EmptyString => EmptyString
  | String ch s' => if is_blank ch then trim_front s' else s
  end.
Fixpoint trim_back (s : string) : string :=
  match s with
  | EmptyString => EmptyString
  | String ch s' =>
      match trim_back s' with
      | EmptyString => if is_blank ch then EmptyString else String ch EmptyString
      | r => String ch r
      end
  end.
Definition trim (s : string) : string := trim_back (trim_front s).

(** [text.find(ch)] splits the text around the first occurrence; the line loop
    [while (start <= text.size())] visits every piece between line feeds. *)
Fixpoint lsplit (c : Ascii.ascii) (s : string) : option (string * string) :=
  match s with
  | EmptyString => None
  | String ch s' =>
      if Ascii.eqb c ch then Some (EmptyString, s')
      else match lsplit c s' with Some (l, r) => Some (String ch l, r) | None => None end
  end.
Fixpoint split_lines (s : string) : list string :=
  match s with
  | EmptyString => [EmptyString]
  | String ch s' =>
      if Ascii.eqb newline ch then EmptyString :: split_lines s'
      else match split_lines s' with
           | l :: ls => String ch l :: ls
           | [] => [String ch EmptyString]
           end
  end.

Definition key_is (key k : string) : bool := String.eqb key k.
Definition parse_bounded (bound : Z) (value : string) : option Z :=
  number ← parse_u64 value; if number >? bound then None else Some number.

(** One assignment of the text form. *)
Definition policy_assign (policy : FailoverPolicy) (key value : string) : option FailoverPolicy :=
  if key_is key "generation" then
    n ← parse_u64 value; Some (set_fp_generation n policy)
  else if key_is key "min_failure_confidence" then
    n ← parse_bounded kMaxConfidence value; Some (set_fp_min_failure_confidence n policy)
  else if key_is key "min_replacement_confidence" then
    n ← parse_bounded kMaxConfidence value; Some (set_fp_min_replacement_confidence n policy)
  else if key_is key "evidence_max_age_ticks" then
    n ← parse_u64 value; Some (set_fp_evidence_max_age_ticks n policy)
  else if key_is key "min_replacement_capacity" then
    n ← parse_bounded 4294967295 value; Some (set_fp_min_replacement_capacity n policy)
  else if key_is key "require_subject_capacity" then
    n ← parse_bool value; Some (set_fp_require_subject_capacity n policy)
  else if key_is key "require_adjacency_authorization" then
    n ← parse_bool value; Some (set_fp_require_adjacency_authorization n policy)
  else if key_is key "allow_degraded_replacement" then
    n ← parse_bool value; Some (set_fp_allow_degraded_replacement n policy)
  else if key_is key "treat_degraded_as_failed" then
    n ← parse_bool value; Some (set_fp_treat_degraded_as_failed n policy)
  else if key_is key "agreement" then
    n ← agreement_rule_parse value; Some (set_fp_agreement n policy)
  else if key_is key "max_attempts_per_generation" then
    n ← parse_bounded 4294967295 value; Some (set_fp_max_attempts_per_generation n policy)
  else if key_is key "max_candidates" then
    n ← parse_bounded 4294967295 value; Some (set_fp_max_candidates n policy)
  else if key_is key "max_retained_attempts" then
    n ← parse_bounded 4294967295 value; Some (set_fp_max_retained_attempts n policy)
  else if key_is key "require_verified_effect" then
    n ← parse_bool value; Some (set_fp_require_verified_effect n policy)
  else if key_is key "failover_enabled" then
    n ← parse_bool value; Some (set_fp_failover_enabled n policy)
  else None.

Definition policy_parse_line (policy : FailoverPolicy) (line : string) : option FailoverPolicy :=
  let line := trim line in
  match line with
  | EmptyString => Some policy
  | String ch _ =>
      if is_char "#"%char ch then Some policy
      else match lsplit "="%char line with
      | None => None
      | Some (k, v) => policy_assign policy (trim k) (trim v)
      end
  end.

Fixpoint policy_parse_lines (policy : FailoverPolicy) (lines : list string) : option FailoverPolicy :=
  match lines with
  | [] => Some policy
  | line :: rest => policy ← policy_parse_line policy line; policy_parse_lines policy rest
  end.

Definition failover_policy_parse (text : string) (out : FailoverPolicy) : option FailoverPolicy :=
  policy_parse_lines out (split_lines text).

(** ** Topology *)
Record LinkDefinition := MkLink {
  ld_link : LinkKey;
  ld_generation : LinkGeneration;
  ld_capacity_units : Z;
}.
#[global] Instance link_definition_eq_dec : EqDecision LinkDefinition.
Proof. solve_decision. Defined.

Definition link_definition_encode (d : LinkDefinition) : WriteM := writes [
  wr_str (lk_fabric (ld_link d));
  wr_str (lk_link (ld_link d));
  wr_u64 (ld_generation d);
  wr_u32 (ld_capacity_units d)].

Definition link_definition_decode : ReadM (option LinkDefinition) :=
  let* fabric := rd_str in
  let* link := rd_str in
  let* generation := rd_u64 in
  let* capacity := rd_u32 in
  let* ok := rd_is_ok in
  if negb ok then rret None else
  ropt (decode_name fabric) (fun fabric =>
  ropt (decode_name link) (fun link =>
  rret (Some (MkLink (MkLinkKey fabric link) generation capacity)))).

Definition link_definition_wf (d : LinkDefinition) : Prop :=
  name_wf (lk_fabric (ld_link d)) /\ name_wf (lk_link (ld_link d)) /\
  is_u64 (ld_generation d) /\ is_u32 (ld_capacity_units d).
#[global] Instance link_definition_wf_dec d : Decision (link_definition_wf d).
Proof. unfold link_definition_wf. apply _. Defined.

#[global] Program Instance link_definition_codec : Codec LinkDefinition := {|
  encode := link_definition_encode; decode := link_definition_decode;
  codec_wf := link_definition_wf |}.
Next Obligation. intros [[]]. codec_law_solve. apply reads_ret. Qed.
Next Obligation. unfold link_definition_decode. steady_solve. Qed.
Next Obligation. unfold link_definition_decode. checked_solve. Qed.

Definition link_definition_less (a b : LinkDefinition) : bool :=
  if link_key_ltb (ld_link a) (ld_link b) then true
  else if link_key_ltb (ld_link b) (ld_link a) then false
  else ld_generation a >? ld_generation b.

Definition kMaxTopologyLinks : Z := 4096.

Record TopologySnapshot := MkTopology {
  ts_generation : TopologyGeneration;
  ts_links : list LinkDefinition;
}.
#[global] Instance topology_snapshot_eq_dec : EqDecision TopologySnapshot.
Proof. solve_decision. Defined.
Definition topology_none : TopologySnapshot := MkTopology 0 [].

Definition topology_invalid (detail : string) : Status :=
  status_failure Outcome.Invalid ReasonCode.InvalidArgument detail.

(** The per-definition loop, then the loop over adjacent definitions. *)
Fixpoint topology_check_links (links : list LinkDefinition) : Status :=
  match links with
  | [] => status_success
  | d :: rest =>
      if link_key_empty (ld_link d) then topology_invalid "topology contains an empty link key"
      else if ld_generation d =? 0
      then topology_invalid "topology link generation must be non-zero"
      else topology_check_links rest
  end.
Fixpoint topology_strictly_ordered (links : list LinkDefinition) : bool :=
  match links with
  | a :: (b :: _) as rest =>
      (link_key_ltb (ld_link a) (ld_link b) && topology_strictly_ordered rest)%bool
  | _ => true
  end.

Definition topology_validate (t : TopologySnapshot) : Status :=
  if Z.of_nat (length (ts_links t)) >? kMaxTopologyLinks
  then status_failure Outcome.LimitExceeded ReasonCode.LimitExceeded
         "topology link count exceeds the supported bound"
  else let s := topology_check_links (ts_links t) in
  if negb (status_ok s) then s
  else if negb (topology_strictly_ordered (ts_links t))
  then topology_invalid "topology links are not strictly ordered and unique"
  else status_success.

Definition topology_canonicalise (t : TopologySnapshot) : TopologySnapshot :=
  MkTopology (ts_generation t) (std_sort link_definition_less (ts_links t)).

Definition topology_find (t : TopologySnapshot) (key : LinkKey) : option LinkDefinition :=
  find_first (fun d => bool_decide (ld_link d = key)) (ts_links t).

Definition topology_encode (t : TopologySnapshot) : WriteM := writes [
  wr_u16 kIdentityFormatVersion;
  wr_u64 (ts_generation t);
  wr_u32 (Z.of_nat (length (ts_links t)));
  wr_each encode (ts_links t)].

Definition topology_decode : ReadM (option TopologySnapshot) :=
  let* format_version := rd_u16 in
  let* generation := rd_u64 in
  let* count := rd_u32 in
  let* ok := rd_is_ok in
  if negb ok then rret None else
  if negb (format_version =? kIdentityFormatVersion) then rret None else
  if count >? kMaxTopologyLinks then rret None else
  let* links := rd_each (Z.to_nat count) decode in
  ropt links (fun links =>
  let* ok := rd_is_ok in
  if negb ok then rret None else
  rret (Some (MkTopology generation links))).

Definition topology_wf (t : TopologySnapshot) : Prop :=
  is_u64 (ts_generation t) /\ Z.of_nat (length (ts_links t)) <= kMaxTopologyLinks /\
  Forall link_definition_wf (ts_links t).
#[global] Instance topology_wf_dec t : Decision (topology_wf t).
Proof. unfold topology_wf. apply _. Defined.

Lemma links_count_u32 {A} (l : list A) : Z.of_nat (length l) <= kMaxTopologyLinks ->
  is_u32 (Z.of_nat (length l)).
Proof. unfold kMaxTopologyLinks. ints. Qed.
#[export] Hint Resolve links_count_u32 : codec.

#[global] Program Instance topology_codec : Codec TopologySnapshot := {|
  encode := topology_encode; decode := topology_decode; codec_wf := topology_wf |}.
Next Obligation. intros []. codec_law_solve. apply reads_ret. Qed.
Next Obligation. unfold topology_decode. steady_solve. Qed.
Next Obligation. unfold topology_decode. checked_solve. Qed.

Definition topology_digest (t : TopologySnapshot) : Digest := encoded_digest t.


(** ** Properties of the text form *)
Definition clean_char (ch : Ascii.ascii) : bool :=
  (negb (is_blank ch) && negb (Ascii.eqb newline ch) && negb (Ascii.eqb "="%char ch) &&
   negb (is_char "#"%char ch))%bool.
Definition clean (s : string) : bool := string_forallb clean_char s.

Lemma clean_cons c s : clean (String c s) = (clean_char c && clean s)%bool.
Proof. done. Qed.

Lemma clean_char_facts c : clean_char c = true ->
  is_blank c = false /\ Ascii.eqb newline c = false /\ Ascii.eqb "="%char c = false /\
  is_char "#"%char c = false.
Proof. unfold clean_char. rewrite !andb_true_iff, !negb_true_iff. tauto. Qed.

Lemma clean_cons_true c s : clean (String c s) = true ->
  is_blank c = false /\ Ascii.eqb newline c = false /\ Ascii.eqb "="%char c = false /\
  is_char "#"%char c = false /\ clean s = true.
Proof.
  rewrite clean_cons. intros [Hc Hs]%andb_true_iff. apply clean_char_facts in Hc. tauto.
Qed.

Lemma string_app_cons c s t : (String c s +:+ t)%string = String c (s +:+ t)%string.
Proof. done. Qed.

Lemma clean_app s t : clean (s +:+ t)%string = (clean s && clean t)%bool.
Proof.
  induction s as [|c s IH]; [done|]. by rewrite string_app_cons, !clean_cons, IH, andb_assoc.
Qed.

Lemma clean_decimal n : 0 <= n < two64 -> clean (decimal_text n) = true.
Proof.
  intros Hn. unfold decimal_text. destruct (decimal_digits_spec 20 n) as (_ & Hd & _); [lia|].
  induction Hd as [|b bs Hb _ IH]; [done|]. cbn [string_of_bytes].
  rewrite clean_cons, IH, andb_true_r.
  assert (Hall : Forall (fun b => clean_char (ascii_of_byte b) = true) (seqZ 48 10)).
  { apply (bool_decide_unpack _). vm_compute. exact I. }
  rewrite Forall_forall in Hall. apply Hall. apply elem_of_seqZ. lia.
Qed.

Lemma clean_bool b : clean (bool_text b) = true.
Proof. by destruct b. Qed.
Lemma clean_agreement a : clean (agreement_rule_name a) = true.
Proof. by destruct a. Qed.

(** Lines that contain no blank keep their shape under [trim]. *)
Definition unblank (s : string) : bool := string_forallb (fun ch => negb (is_blank ch)) s.

Lemma unblank_cons c s : unblank (String c s) = (negb (is_blank c) && unblank s)%bool.
Proof. done. Qed.

Lemma trim_unblank s : unblank s = true -> trim s = s.
Proof.
  intros Hs. unfold trim.
  assert (Hf : trim_front s = s).
  { destruct s as [|c s]; [done|]. rewrite unblank_cons in Hs. bool_prop.
    cbn [trim_front]. by rewrite H. }
  rewrite Hf. clear Hf. induction s as [|c s IH]; [done|].
  rewrite unblank_cons in Hs. bool_prop.
  cbn [trim_back]. rewrite IH by done. destruct s; [by rewrite H|done].
Qed.

Lemma clean_unblank s : clean s = true -> unblank s = true.
Proof.
  induction s as [|c s IH]; [done|]. intros (Hb & _ & _ & _ & Hs)%clean_cons_true.
  by rewrite unblank_cons, Hb, IH.
Qed.

Lemma trim_clean s : clean s = true -> trim s = s.
Proof. intros. by apply trim_unblank, clean_unblank. Qed.

Lemma unblank_line k v : clean k = true -> clean v = true ->
  unblank (k +:+ String "="%char v)%string = true.
Proof.
  intros Hk Hv. induction k as [|c k IH]; [by apply clean_unblank in Hv|].
  apply clean_cons_true in Hk as (Hb & _ & _ & _ & Hk).
  by rewrite string_app_cons, unblank_cons, Hb, IH.
Qed.

Lemma lsplit_line k v : clean k = true ->
  lsplit "="%char (k +:+ String "="%char v)%string = Some (k, v).
Proof.
  induction k as [|c k IH]; [done|]. intros (_ & _ & He & _ & Hk)%clean_cons_true.
  rewrite string_app_cons. cbn [lsplit]. by rewrite He, IH.
Qed.

Lemma split_lines_clean s r : clean s = true ->
  split_lines (s +:+ String newline r)%string = s :: split_lines r.
Proof.
  induction s as [|c s IH]; [done|]. intros (_ & Hn & _ & _ & Hs)%clean_cons_true.
  rewrite string_app_cons. cbn [split_lines]. by rewrite Hn, IH.
Qed.

Lemma string_app_assoc a b c : ((a +:+ b) +:+ c)%string = (a +:+ (b +:+ c))%string.
Proof. induction a as [|x a IH]; [done|]. by rewrite !string_app_cons, IH. Qed.

Lemma split_lines_line k v rest : clean k = true -> clean v = true ->
  split_lines (policy_text_line k v +:+ rest)%string =
  (k +:+ String "="%char v)%string :: split_lines rest.
Proof.
  intros Hk Hv. unfold policy_text_line. rewrite !string_app_assoc.
  change (split_lines (k +:+ String "="%char (v +:+ String newline rest)) =
    (k +:+ String "="%char v)%string :: split_lines rest).
  induction k as [|c k IH].
  - change (split_lines (String "="%char (v +:+ String newline rest)) =
      String "="%char v :: split_lines rest).
    pose proof (split_lines_clean v rest Hv) as E. cbn [split_lines].
    by rewrite E.
  - apply clean_cons_true in Hk as (_ & Hn & _ & _ & Hk).
    rewrite !string_app_cons. cbn [split_lines]. by rewrite Hn, IH.
Qed.

Lemma policy_parse_line_assign p k v :
  clean k = true -> k <> EmptyString -> clean v = true ->
  policy_parse_line p (k +:+ String "="%char v)%string = policy_assign p k v.
Proof.
  intros Hk Hne Hv. unfold policy_parse_line.
  rewrite trim_unblank by by apply unblank_line.
  rewrite lsplit_line, !trim_clean by done.
  destruct k as [|c k]; [done|]. apply clean_cons_true in Hk as (_ & _ & _ & Hc & _).
  rewrite string_app_cons. by rewrite Hc.
Qed.

Lemma parse_u64_loop_value acc bs :
  Forall (fun b => 48 <= b <= 57) bs -> 0 <= acc ->
  foldl (fun acc b => acc * 10 + (b - 48)) acc bs < two64 ->
  parse_u64_loop acc (string_of_bytes bs) = Some (foldl (fun acc b => acc * 10 + (b - 48)) acc bs).
Proof.
  intros H. revert acc. induction H as [|b bs Hb Hbs IH]; intros acc Hacc Hlt; [done|].
  cbn [string_of_bytes foldl] in *. cbn [parse_u64_loop].
  rewrite char_between_byte by ints. rewrite byte_of_ascii_of_byte by ints.
  change (byte_of_ascii "0"%char) with 48. change (byte_of_ascii "9"%char) with 57.
  rewrite (proj2 (Z.leb_le 48 b)), (proj2 (Z.leb_le b 57)) by lia. cbn [andb negb].
  pose proof (decimal_value_ge (acc * 10 + (b - 48)) bs Hbs ltac:(lia)).
  rewrite checked_mul_u64_spec by ints. rewrite bool_decide_eq_true_2 by ints.
  rewrite checked_add_u64_spec by ints. rewrite bool_decide_eq_true_2 by ints.
  apply IH; [lia|done].
Qed.

Lemma parse_u64_decimal n : is_u64 n -> parse_u64 (decimal_text n) = Some n.
Proof.
  intros Hn. unfold parse_u64, decimal_text.
  destruct (decimal_digits_spec 20 n) as (Hv & Hd & Hl); [ints|].
  pose proof (decimal_digits_length 20 n). unfold decimal_value in Hv.
  rewrite string_empty_false by (rewrite string_of_bytes_length; lia).
  rewrite string_of_bytes_length, (proj2 (Nat.ltb_ge 20 _)) by lia. cbn [orb].
  rewrite parse_u64_loop_value; rewrite ?Hv; [done|done|lia|ints].
Qed.

Lemma parse_bounded_decimal bound n : is_u64 n -> n <= bound ->
  parse_bounded bound (decimal_text n) = Some n.
Proof.
  intros. unfold parse_bounded. rewrite parse_u64_decimal by done. cbn.
  destruct (Z.gtb_spec n bound); [lia|done].
Qed.

Lemma parse_bool_text b : parse_bool (bool_text b) = Some b.
Proof. by destruct b. Qed.

Lemma agreement_rule_parse_name v : agreement_rule_parse (agreement_rule_name v) = Some v.
Proof. table_roundtrip. Qed.

(** One field after the other: the parser on a printed field list. *)
Lemma policy_parse_printed p fields :
  Forall (fun kv => clean kv.1 = true /\ kv.1 <> EmptyString /\ clean kv.2 = true) fields ->
  policy_parse_lines p (split_lines
    (foldr (fun kv rest => (policy_text_line kv.1 kv.2 +:+ rest)%string) EmptyString fields)) =
  foldl (fun acc kv => acc ≫= (fun p => policy_assign p kv.1 kv.2)) (Some p) fields.
Proof.
  intros H. revert p. induction H as [|[k v] fields (Hk & Hne & Hv) _ IH]; intros p; [done|].
  cbn [foldr fst snd] in *. rewrite split_lines_line by done. cbn [policy_parse_lines foldl].
  rewrite policy_parse_line_assign by done. cbn [mbind option_bind fst snd].
  destruct (policy_assign p k v) as [p'|]; cbn [mbind option_bind]; [apply IH|].
  clear. induction fields; cbn; auto.
Qed.

Definition policy_text_wf (p : FailoverPolicy) : Prop :=
  policy_wf p /\ is_confidence (fp_min_failure_confidence p) /\
  is_confidence (fp_min_replacement_confidence p).
#[global] Instance policy_text_wf_dec p : Decision (policy_text_wf p).
Proof. unfold policy_text_wf. apply _. Defined.

(** printing a policy as text and parsing it back gives the policy, whatever
    the record the parser starts from. *)
Theorem failover_policy_text_roundtrip p out :
  policy_text_wf p -> failover_policy_parse (failover_policy_to_string p) out = Some p.
Proof.
  intros (Hwf & Hc1 & Hc2). unfold policy_wf, is_confidence in *. destruct_and?.
  unfold failover_policy_parse, failover_policy_to_string. rewrite policy_parse_printed.
  2: { unfold policy_fields. repeat constructor; cbn [fst snd]; try done;
       first [apply clean_decimal; ints | apply clean_bool | apply clean_agreement]. }
  unfold policy_fields, policy_assign, key_is.
  cbn [foldl fst snd String.eqb Ascii.eqb Bool.eqb].
  repeat (cbn [mbind option_bind];
    first [rewrite parse_u64_decimal by ints | rewrite parse_bounded_decimal by ints
          | rewrite parse_bool_text | rewrite agreement_rule_parse_name]).
  by destruct p.
Qed.

(** ** Properties of topologies *)
#[global] Instance link_definition_less_weak : StrictWeak link_definition_less.
Proof.
  exact (strict_weak_key (fun d => (ld_link d, ld_generation d)) (lex_ltb link_key_ltb Z.gtb)).
Qed.

Definition link_definition_valid (d : LinkDefinition) : Prop :=
  link_key_empty (ld_link d) = false /\ ld_generation d <> 0.
Definition link_before (a b : LinkDefinition) : Prop := link_key_ltb (ld_link a) (ld_link b) = true.

Lemma topology_check_links_ok links :
  status_ok (topology_check_links links) = true <-> Forall link_definition_valid links.
Proof.
  induction links as [|d rest IH]; cbn [topology_check_links]; [by split|].
  rewrite Forall_cons. unfold link_definition_valid at 1.
  destruct (link_key_empty (ld_link d)); cbn; [by split; [|intros [[] ?]]|].
  destruct (Z.eqb_spec (ld_generation d) 0); cbn; [by split; [|intros [[] ?]]|].
  rewrite IH. split; [done|by intros [_ ?]].
Qed.

Lemma topology_strictly_ordered_sorted links :
  topology_strictly_ordered links = true <-> StronglySorted link_before links.
Proof.
  induction links as [|a [|b rest] IH].
  - split; [constructor|done].
  - split; [repeat constructor|done].
  - cbn [topology_strictly_ordered]. rewrite andb_true_iff.
    rewrite IH. split.
    + intros [Hab Hs]. constructor; [done|]. constructor; [done|].
      apply StronglySorted_inv in Hs as [_ Hb]. eapply Forall_impl; [exact Hb|].
      intros x. by apply (st_trans _ _ _ Hab).
    + intros Hs. apply StronglySorted_inv in Hs as [Hs Ha]. split; [|done].
      by apply Forall_cons in Ha as [? _].
Qed.

(** The topologies the engine accepts. *)
Record topology_ok (t : TopologySnapshot) : Prop := {
  topology_ok_bound : Z.of_nat (length (ts_links t)) <= kMaxTopologyLinks;
  topology_ok_valid : Forall link_definition_valid (ts_links t);
  topology_ok_sorted : StronglySorted link_before (ts_links t);
}.

(** validation accepts exactly the bounded topologies whose definitions are
    named, carry a non-zero generation and are strictly ordered by key. *)
Theorem topology_validate_iff t : status_ok (topology_validate t) = true <-> topology_ok t.
Proof.
  unfold topology_validate.
  destruct (Z.gtb_spec (Z.of_nat (length (ts_links t))) kMaxTopologyLinks) as [Hl|Hl].
  { split; [done|]. intros []. lia. }
  destruct (status_ok (topology_check_links (ts_links t))) eqn:Ec; cbn [negb].
  - destruct (topology_strictly_ordered (ts_links t)) eqn:Eo; cbn [negb].
    + split; [|done]. intros _. split; [done|by apply topology_check_links_ok|].
      by apply topology_strictly_ordered_sorted.
    + split; [done|]. intros [_ _ Hs]. apply topology_strictly_ordered_sorted in Hs. congruence.
  - rewrite Ec. split; [done|]. intros [_ Hv _]. apply topology_check_links_ok in Hv. congruence.
Qed.

Lemma link_before_irrefl d : ~ link_before d d.
Proof. unfold link_before. by rewrite st_irrefl. Qed.

Lemma sorted_key_unique links a b :
  StronglySorted link_before links -> a ∈ links -> b ∈ links -> ld_link a = ld_link b -> a = b.
Proof.
  induction 1 as [|d rest _ IH Hd]; [by intros ?%elem_of_nil|].
  rewrite Forall_forall in Hd. rewrite !elem_of_cons. intros [->|Ha] [->|Hb] E; auto.
  - specialize (Hd _ Hb). unfold link_before in Hd. rewrite E, st_irrefl in Hd. done.
  - specialize (Hd _ Ha). unfold link_before in Hd. rewrite E, st_irrefl in Hd. done.
Qed.

Lemma topology_find_Some_elem t key d :
  topology_find t key = Some d -> d ∈ ts_links t /\ ld_link d = key.
Proof. unfold topology_find. intros [? H]%find_first_Some. by apply bool_decide_eq_true in H. Qed.

(** in an accepted topology, lookup returns the one definition of the key. *)
Theorem topology_find_iff t key d :
  topology_ok t -> topology_find t key = Some d <-> d ∈ ts_links t /\ ld_link d = key.
Proof.
  intros [_ _ Hs]. split; [apply topology_find_Some_elem|]. intros [Hd Hk].
  destruct (topology_find t key) as [d'|] eqn:E.
  - apply topology_find_Some_elem in E as [Hd' Hk']. f_equal.
    eapply sorted_key_unique; [done..|congruence].
  - unfold topology_find in E. rewrite find_first_None in E. apply E in Hd.
    by apply bool_decide_eq_false in Hd.
Qed.

Lemma std_sort_links_sorted links :
  StronglySorted link_before (std_sort link_definition_less links) ->
  forall a b, a ∈ links -> b ∈ links ->
  link_definition_less a b = false -> link_definition_less b a = false -> a = b.
Proof.
  intros Hs a b Ha Hb H1 H2.
  rewrite <- (elem_of_std_sort link_definition_less) in Ha.
  rewrite <- (elem_of_std_sort link_definition_less) in Hb.
  eapply sorted_key_unique; [done..|].
  unfold link_definition_less in H1, H2.
  destruct (link_key_ltb (ld_link a) (ld_link b)) eqn:E1; [done|].
  destruct (link_key_ltb (ld_link b) (ld_link a)) eqn:E2; [done|].
  by apply st_total.
Qed.

(** the canonical form, and with it the topology digest, does not depend on
    the order in which the links were supplied. *)
Theorem topology_canonicalise_perm t1 t2 :
  topology_ok (topology_canonicalise t1) ->
  ts_generation t1 = ts_generation t2 -> ts_links t1 ≡ₚ ts_links t2 ->
  topology_canonicalise t1 = topology_canonicalise t2 /\
  topology_digest (topology_canonicalise t1) = topology_digest (topology_canonicalise t2).
Proof.
  intros [_ _ Hs] Hg Hp.
  assert (E : topology_canonicalise t1 = topology_canonicalise t2); [|by rewrite E].
  unfold topology_canonicalise. rewrite Hg. f_equal.
  apply (std_sort_unique link_definition_less); [exact Hp|]. by apply std_sort_links_sorted.
Qed.

(** ** Properties of policies *)
Record policy_ok (p : FailoverPolicy) : Prop := {
  policy_ok_failure : fp_min_failure_confidence p <= kMaxConfidence;
  policy_ok_replacement : fp_min_replacement_confidence p <= kMaxConfidence;
  policy_ok_age : fp_evidence_max_age_ticks p <> 0 /\ fp_evidence_max_age_ticks p <= kMaxEvidenceAgeTicks;
  policy_ok_candidates : fp_max_candidates p <> 0 /\ fp_max_candidates p <= kMaxPolicyCandidates;
  policy_ok_attempts : fp_max_attempts_per_generation p <> 0 /\ fp_max_attempts_per_generation p <= 1024;
  policy_ok_retained : fp_max_retained_attempts p <> 0 /\
    fp_max_retained_attempts p <= kMaxRetainedAttemptsPerLink;
  policy_ok_generation : fp_generation p <> 0;
}.

(** validation accepts exactly the policies within every documented bound. *)
Theorem policy_validate_iff p : status_ok (policy_validate p) = true <-> policy_ok p.
Proof.
  unfold policy_validate. rewrite !Z.gtb_ltb.
  repeat (case_if; [split; [done|]; intros []; bool_prop;
    repeat match goal with H : (_ || _)%bool = true |- _ => apply orb_true_iff in H as [H|H] end;
    bool_prop; lia|]).
  bool_prop. split; [|done]. intros _. by split.
Qed.
