(* ===== verification/Authority.v ===== *)
(** * Authority binding and fences

    Models include/lff/authority.hpp and src/authority.cpp: the generation-complete
    authority vector, the optional expectation a caller asserts against it, the
    field-by-field comparison, and the durable fence records. *)
From S2P Require Import Prelude Status Hash Ids Bytes.

(** ** Authority vector *)
Record AuthorityVector := MkAuthority {
  av_fabric : string;
  av_subject : LinkKey;
  av_subject_generation : LinkGeneration;
  av_replacement : LinkKey;
  av_replacement_generation : LinkGeneration;
  av_topology_generation : TopologyGeneration;
  av_topology_digest : Digest;
  av_policy_generation : PolicyGeneration;
  av_policy_digest : Digest;
  av_epoch : Epoch;
  av_coordinator : Incarnation;
  av_evidence_publisher : string;
  av_publisher_incarnation : Incarnation;
  av_publisher_seq : ObservationSeq;
  av_applier_incarnation : Incarnation;
  av_attempt_seq : AttemptSeq;
  av_evidence_digest : Digest;
}.
#[global] Instance authority_vector_eq_dec : EqDecision AuthorityVector.
Proof. solve_decision. Defined.

Definition set_av_fabric (v : string) (r : AuthorityVector) : AuthorityVector :=
  MkAuthority v (av_subject r) (av_subject_generation r) (av_replacement r)
    (av_replacement_generation r) (av_topology_generation r) (av_topology_digest r)
    (av_policy_generation r) (av_policy_digest r) (av_epoch r) (av_coordinator r)
    (av_evidence_publisher r) (av_publisher_incarnation r) (av_publisher_seq r)
    (av_applier_incarnation r) (av_attempt_seq r) (av_evidence_digest r).
Definition set_av_subject (v : LinkKey) (r : AuthorityVector) : AuthorityVector :=
  MkAuthority (av_fabric r) v (av_subject_generation r) (av_replacement r)
    (av_replacement_generation r) (av_topology_generation r) (av_topology_digest r)
    (av_policy_generation r) (av_policy_digest r) (av_epoch r) (av_coordinator r)
    (av_evidence_publisher r) (av_publisher_incarnation r) (av_publisher_seq r)
    (av_applier_incarnation r) (av_attempt_seq r) (av_evidence_digest r).
Definition set_av_subject_generation (v : LinkGeneration) (r : AuthorityVector) : AuthorityVector :=
  MkAuthority (av_fabric r) (av_subject r) v (av_replacement r) (av_replacement_generation r)
    (av_topology_generation r) (av_topology_digest r) (av_policy_generation r) (av_policy_digest
    r) (av_epoch r) (av_coordinator r) (av_evidence_publisher r) (av_publisher_incarnation r)
    (av_publisher_seq r) (av_applier_incarnation r) (av_attempt_seq r) (av_evidence_digest r).
Definition set_av_replacement (v : LinkKey) (r : AuthorityVector) : AuthorityVector :=
  MkAuthority (av_fabric r) (av_subject r) (av_subject_generation r) v
    (av_replacement_generation r) (av_topology_generation r) (av_topology_digest r)
    (av_policy_generation r) (av_policy_digest r) (av_epoch r) (av_coordinator r)
    (av_evidence_publisher r) (av_publisher_incarnation r) (av_publisher_seq r)
    (av_applier_incarnation r) (av_attempt_seq r) (av_evidence_digest r).
Definition set_av_replacement_generation (v : LinkGeneration) (r : AuthorityVector) : AuthorityVector :=
  MkAuthority (av_fabric r) (av_subject r) (av_subject_generation r) (av_replacement r) v
    (av_topology_generation r) (av_topology_digest r) (av_policy_generation r) (av_policy_digest
    r) (av_epoch r) (av_coordinator r) (av_evidence_publisher r) (av_publisher_incarnation r)
    (av_publisher_seq r) (av_applier_incarnation r) (av_attempt_seq r) (av_evidence_digest r).
Definition set_av_topology_generation (v : TopologyGeneration) (r : AuthorityVector) : AuthorityVector :=
  MkAuthority (av_fabric r) (av_subject r) (av_subject_generation r) (av_replacement r)
    (av_replacement_generation r) v (av_topology_digest r) (av_policy_generation r)
    (av_policy_digest r) (av_epoch r) (av_coordinator r) (av_evidence_publisher r)
    (av_publisher_incarnation r) (av_publisher_seq r) (av_applier_incarnation r) (av_attempt_seq
    r) (av_evidence_digest r).
Definition set_av_topology_digest (v : Digest) (r : AuthorityVector) : AuthorityVector :=
  MkAuthority (av_fabric r) (av_subject r) (av_subject_generation r) (av_replacement r)
    (av_replacement_generation r) (av_topology_generation r) v (av_policy_generation r)
    (av_policy_digest r) (av_epoch r) (av_coordinator r) (av_evidence_publisher r)
    (av_publisher_incarnation r) (av_publisher_seq r) (av_applier_incarnation r) (av_attempt_seq
    r) (av_evidence_digest r).
Definition set_av_policy_generation (v : PolicyGeneration) (r : AuthorityVector) : AuthorityVector :=
  MkAuthority (av_fabric r) (av_subject r) (av_subject_generation r) (av_replacement r)
    (av_replacement_generation r) (av_topology_generation r) (av_topology_digest r) v
    (av_policy_digest r) (av_epoch r) (av_coordinator r) (av_evidence_publisher r)
    (av_publisher_incarnation r) (av_publisher_seq r) (av_applier_incarnation r) (av_attempt_seq
    r) (av_evidence_digest r).
Definition set_av_policy_digest (v : Digest) (r : AuthorityVector) : AuthorityVector :=
  MkAuthority (av_fabric r) (av_subject r) (av_subject_generation r) (av_replacement r)
    (av_replacement_generation r) (av_topology_generation r) (av_topology_digest r)
    (av_policy_generation r) v (av_epoch r) (av_coordinator r) (av_evidence_publisher r)
    (av_publisher_incarnation r) (av_publisher_seq r) (av_applier_incarnation r) (av_attempt_seq
    r) (av_evidence_digest r).
Definition set_av_epoch (v : Epoch) (r : AuthorityVector) : AuthorityVector :=
  MkAuthority (av_fabric r) (av_subject r) (av_subject_generation r) (av_replacement r)
    (av_replacement_generation r) (av_topology_generation r) (av_topology_digest r)
    (av_policy_generation r) (av_policy_digest r) v (av_coordinator r) (av_evidence_publisher r)
    (av_publisher_incarnation r) (av_publisher_seq r) (av_applier_incarnation r) (av_attempt_seq
    r) (av_evidence_digest r).
Definition set_av_coordinator (v : Incarnation) (r : AuthorityVector) : AuthorityVector :=
  MkAuthority (av_fabric r) (av_subject r) (av_subject_generation r) (av_replacement r)
    (av_replacement_generation r) (av_topology_generation r) (av_topology_digest r)
    (av_policy_generation r) (av_policy_digest r) (av_epoch r) v (av_evidence_publisher r)
    (av_publisher_incarnation r) (av_publisher_seq r) (av_applier_incarnation r) (av_attempt_seq
    r) (av_evidence_digest r).
Definition set_av_evidence_publisher (v : string) (r : AuthorityVector) : AuthorityVector :=
  MkAuthority (av_fabric r) (av_subject r) (av_subject_generation r) (av_replacement r)
    (av_replacement_generation r) (av_topology_generation r) (av_topology_digest r)
    (av_policy_generation r) (av_policy_digest r) (av_epoch r) (av_coordinator r) v
    (av_publisher_incarnation r) (av_publisher_seq r) (av_applier_incarnation r) (av_attempt_seq
    r) (av_evidence_digest r).
Definition set_av_publisher_incarnation (v : Incarnation) (r : AuthorityVector) : AuthorityVector :=
  MkAuthority (av_fabric r) (av_subject r) (av_subject_generation r) (av_replacement r)
    (av_replacement_generation r) (av_topology_generation r) (av_topology_digest r)
    (av_policy_generation r) (av_policy_digest r) (av_epoch r) (av_coordinator r)
    (av_evidence_publisher r) v (av_publisher_seq r) (av_applier_incarnation r) (av_attempt_seq
    r) (av_evidence_digest r).
Definition set_av_publisher_seq (v : ObservationSeq) (r : AuthorityVector) : AuthorityVector :=
  MkAuthority (av_fabric r) (av_subject r) (av_subject_generation r) (av_replacement r)
    (av_replacement_generation r) (av_topology_generation r) (av_topology_digest r)
    (av_policy_generation r) (av_policy_digest r) (av_epoch r) (av_coordinator r)
    (av_evidence_publisher r) (av_publisher_incarnation r) v (av_applier_incarnation r)
    (av_attempt_seq r) (av_evidence_digest r).
Definition set_av_applier_incarnation (v : Incarnation) (r : AuthorityVector) : AuthorityVector :=
  MkAuthority (av_fabric r) (av_subject r) (av_subject_generation r) (av_replacement r)
    (av_replacement_generation r) (av_topology_generation r) (av_topology_digest r)
    (av_policy_generation r) (av_policy_digest r) (av_epoch r) (av_coordinator r)
    (av_evidence_publisher r) (av_publisher_incarnation r) (av_publisher_seq r) v
    (av_attempt_seq r) (av_evidence_digest r).
Definition set_av_attempt_seq (v : AttemptSeq) (r : AuthorityVector) : AuthorityVector :=
  MkAuthority (av_fabric r) (av_subject r) (av_subject_generation r) (av_replacement r)
    (av_replacement_generation r) (av_topology_generation r) (av_topology_digest r)
    (av_policy_generation r) (av_policy_digest r) (av_epoch r) (av_coordinator r)
    (av_evidence_publisher r) (av_publisher_incarnation r) (av_publisher_seq r)
    (av_applier_incarnation r) v (av_evidence_digest r).
Definition set_av_evidence_digest (v : Digest) (r : AuthorityVector) : AuthorityVector :=
  MkAuthority (av_fabric r) (av_subject r) (av_subject_generation r) (av_replacement r)
    (av_replacement_generation r) (av_topology_generation r) (av_topology_digest r)
    (av_policy_generation r) (av_policy_digest r) (av_epoch r) (av_coordinator r)
    (av_evidence_publisher r) (av_publisher_incarnation r) (av_publisher_seq r)
    (av_applier_incarnation r) (av_attempt_seq r) v.
Definition authority_encode (a : AuthorityVector) : WriteM := writes [
  wr_u16 kIdentityFormatVersion;
  wr_str (av_fabric a);
  wr_str (lk_fabric (av_subject a));
  wr_str (lk_link (av_subject a));
  wr_u64 (av_subject_generation a);
  wr_str (lk_fabric (av_replacement a));
  wr_str (lk_link (av_replacement a));
  wr_u64 (av_replacement_generation a);
  wr_u64 (av_topology_generation a);
  wr_digest (av_topology_digest a);
  wr_u64 (av_policy_generation a);
  wr_digest (av_policy_digest a);
  wr_u64 (av_epoch a);
  wr_incarnation (av_coordinator a);
  wr_str (av_evidence_publisher a);
  wr_incarnation (av_publisher_incarnation a);
  wr_u64 (av_publisher_seq a);
  wr_incarnation (av_applier_incarnation a);
  wr_u64 (av_attempt_seq a);
  wr_digest (av_evidence_digest a)].

Definition authority_decode : ReadM (option AuthorityVector) :=
  let* format_version := rd_u16 in
  let* fabric := rd_str in
  let* subject_fabric := rd_str in
  let* subject_link := rd_str in
  let* subject_generation := rd_u64 in
  let* replacement_fabric := rd_str in
  let* replacement_link := rd_str in
  let* replacement_generation := rd_u64 in
  let* topology_generation := rd_u64 in
  let* topology_digest := rd_digest in
  let* policy_generation := rd_u64 in
  let* policy_digest := rd_digest in
  let* epoch := rd_u64 in
  let* coordinator := rd_incarnation in
  let* evidence_publisher := rd_str in
  let* publisher_incarnation := rd_incarnation in
  let* publisher_seq := rd_u64 in
  let* applier_incarnation := rd_incarnation in
  let* attempt_seq := rd_u64 in
  let* evidence_digest := rd_digest in
  let* ok := rd_is_ok in
  if negb ok then rret None else
  if negb (format_version =? kIdentityFormatVersion) then rret None else
  ropt (decode_name fabric) (fun fabric =>
  ropt (decode_name subject_fabric) (fun subject_fabric =>
  ropt (decode_name subject_link) (fun subject_link =>
  ropt (decode_name replacement_fabric) (fun replacement_fabric =>
  ropt (decode_name replacement_link) (fun replacement_link =>
  ropt (decode_name evidence_publisher) (fun evidence_publisher =>
  rret (Some (MkAuthority fabric (MkLinkKey subject_fabric subject_link) subject_generation
    (MkLinkKey replacement_fabric replacement_link) replacement_generation topology_generation
    topology_digest policy_generation policy_digest epoch coordinator evidence_publisher
    publisher_incarnation publisher_seq applier_incarnation attempt_seq evidence_digest)))))))).

Definition authority_wf (a : AuthorityVector) : Prop :=
  name_wf (av_fabric a) /\
  link_key_wf (av_subject a) /\
  is_u64 (av_subject_generation a) /\
  link_key_wf (av_replacement a) /\
  is_u64 (av_replacement_generation a) /\
  is_u64 (av_topology_generation a) /\
  digest_wf (av_topology_digest a) /\
  is_u64 (av_policy_generation a) /\
  digest_wf (av_policy_digest a) /\
  is_u64 (av_epoch a) /\
  incarnation_wf (av_coordinator a) /\
  name_wf (av_evidence_publisher a) /\
  incarnation_wf (av_publisher_incarnation a) /\
  is_u64 (av_publisher_seq a) /\
  incarnation_wf (av_applier_incarnation a) /\
  is_u64 (av_attempt_seq a) /\
  digest_wf (av_evidence_digest a).

#[global] Program Instance authority_codec : Codec AuthorityVector := {|
  encode := authority_encode; decode := authority_decode; codec_wf := authority_wf |}.
Next Obligation. intros [? [] ? []]. codec_law_solve. apply reads_ret. Qed.
Next Obligation. unfold authority_decode. steady_solve. Qed.
Next Obligation. unfold authority_decode. checked_solve. Qed.

(** A default-constructed vector. *)
Definition authority_none : AuthorityVector :=
  MkAuthority EmptyString link_key_none 0 link_key_none 0 0 digest_zero 0 digest_zero 0
    incarnation_zero EmptyString incarnation_zero 0 incarnation_zero 0 digest_zero.

Definition authority_digest (a : AuthorityVector) : Digest := encoded_digest a.
Definition authority_to_string (a : AuthorityVector) : string :=
  (av_fabric a +:+ " subject=" +:+ link_key_to_string (av_subject a) +:+ "@" +:+
   decimal_text (av_subject_generation a) +:+ " replacement=" +:+
   link_key_to_string (av_replacement a) +:+ "@" +:+ decimal_text (av_replacement_generation a) +:+
   " topology=" +:+ decimal_text (av_topology_generation a) +:+
   " policy=" +:+ decimal_text (av_policy_generation a) +:+
   " epoch=" +:+ decimal_text (av_epoch a) +:+
   " coordinator=" +:+ incarnation_hex (av_coordinator a) +:+
   " attempt=" +:+ decimal_text (av_attempt_seq a))%string.

(** ** Expectation *)
Record AuthorityExpectation := MkExpectation {
  ae_epoch : option Epoch;
  ae_coordinator : option Incarnation;
  ae_topology_generation : option TopologyGeneration;
  ae_policy_generation : option PolicyGeneration;
  ae_subject_generation : option LinkGeneration;
  ae_policy_digest : option Digest;
  ae_topology_digest : option Digest;
}.
#[global] Instance authority_expectation_eq_dec : EqDecision AuthorityExpectation.
Proof. solve_decision. Defined.
Definition expectation_none : AuthorityExpectation :=
  MkExpectation None None None None None None None.

Definition expectation_encode (e : AuthorityExpectation) : WriteM := writes [
  wr_u16 kIdentityFormatVersion;
  wr_bool8 (has_value (ae_epoch e));
  wr_opt wr_u64 (ae_epoch e);
  wr_bool8 (has_value (ae_coordinator e));
  wr_opt wr_incarnation (ae_coordinator e);
  wr_bool8 (has_value (ae_topology_generation e));
  wr_opt wr_u64 (ae_topology_generation e);
  wr_bool8 (has_value (ae_policy_generation e));
  wr_opt wr_u64 (ae_policy_generation e);
  wr_bool8 (has_value (ae_subject_generation e));
  wr_opt wr_u64 (ae_subject_generation e);
  wr_bool8 (has_value (ae_policy_digest e));
  wr_opt wr_digest (ae_policy_digest e);
  wr_bool8 (has_value (ae_topology_digest e));
  wr_opt wr_digest (ae_topology_digest e)].

Definition expectation_decode : ReadM (option AuthorityExpectation) :=
  let* format_version := rd_u16 in
  let* epoch := rd_opt rd_u64 in
  let* coordinator := rd_opt rd_incarnation in
  let* topology_generation := rd_opt rd_u64 in
  let* policy_generation := rd_opt rd_u64 in
  let* subject_generation := rd_opt rd_u64 in
  let* policy_digest := rd_opt rd_digest in
  let* topology_digest := rd_opt rd_digest in
  let* ok := rd_is_ok in
  if (negb ok || negb (format_version =? kIdentityFormatVersion))%bool then rret None else
  rret (Some (MkExpectation epoch coordinator topology_generation policy_generation
    subject_generation policy_digest topology_digest)).

Definition opt_wf {A} (P : A -> Prop) (o : option A) : Prop := forall a, o = Some a -> P a.
Lemma opt_wf_intro {A} (P : A -> Prop) (o : option A) a : opt_wf P o -> o = Some a -> P a.
Proof. auto. Qed.

Definition expectation_wf (e : AuthorityExpectation) : Prop :=
  opt_wf is_u64 (ae_epoch e) /\ opt_wf incarnation_wf (ae_coordinator e) /\
  opt_wf is_u64 (ae_topology_generation e) /\ opt_wf is_u64 (ae_policy_generation e) /\
  opt_wf is_u64 (ae_subject_generation e) /\ opt_wf digest_wf (ae_policy_digest e) /\
  opt_wf digest_wf (ae_topology_digest e).

#[global] Program Instance expectation_codec : Codec AuthorityExpectation := {|
  encode := expectation_encode; decode := expectation_decode; codec_wf := expectation_wf |}.
Next Obligation. intros []. codec_law_solve. apply reads_ret. Qed.
Next Obligation. unfold expectation_decode. steady_solve. Qed.
Next Obligation. unfold expectation_decode. checked_solve. Qed.

(** ** Comparison: every difference, in field order *)
Record AuthorityMismatch := MkMismatch {
  am_code : ReasonCode;
  am_field : string;
  am_expected : string;
  am_actual : string;
}.

(** One [if (expectation.x.has_value() && *expectation.x != current.x) push_back(...)]. *)
Definition mismatch {A} `{EqDecision A} (code : ReasonCode) (field : string) (text : A -> string)
    (expected : option A) (actual : A) : list AuthorityMismatch :=
  match expected with
  | Some e => if bool_decide (e = actual) then []
              else [MkMismatch code field (text e) (text actual)]
  | None => []
  end.

Definition compare_authority (expectation : AuthorityExpectation) (current : AuthorityVector) :
    list AuthorityMismatch :=
  mismatch ReasonCode.EpochMismatch "epoch" decimal_text
    (ae_epoch expectation) (av_epoch current) ++
  mismatch ReasonCode.CoordinatorIncarnationMismatch "coordinator" incarnation_hex
    (ae_coordinator expectation) (av_coordinator current) ++
  mismatch ReasonCode.TopologyGenerationMismatch "topology_generation" decimal_text
    (ae_topology_generation expectation) (av_topology_generation current) ++
  mismatch ReasonCode.PolicyGenerationMismatch "policy_generation" decimal_text
    (ae_policy_generation expectation) (av_policy_generation current) ++
  mismatch ReasonCode.SubjectGenerationMismatch "subject_generation" decimal_text
    (ae_subject_generation expectation) (av_subject_generation current) ++
  mismatch ReasonCode.PolicyGenerationMismatch "policy_digest" digest_hex
    (ae_policy_digest expectation) (av_policy_digest current) ++
  mismatch ReasonCode.TopologyGenerationMismatch "topology_digest" digest_hex
    (ae_topology_digest expectation) (av_topology_digest current).

(** ** Fences *)
Module FenceKind.
Inductive FenceKind :=
| AttemptSuperseded
| PreRestartAuthority
| SessionRevoked
| PolicyChanged
| TopologyChanged
| EpochAdvanced
| RollbackRevoked.
End FenceKind.
Abbreviation FenceKind := FenceKind.FenceKind.

Definition fence_kind_code (v : FenceKind) : Z :=
  match v with
  | FenceKind.AttemptSuperseded => 0
  | FenceKind.PreRestartAuthority => 1
  | FenceKind.SessionRevoked => 2
  | FenceKind.PolicyChanged => 3
  | FenceKind.TopologyChanged => 4
  | FenceKind.EpochAdvanced => 5
  | FenceKind.RollbackRevoked => 6
  end.

#[global] Instance fence_kind_enum : EnumCode FenceKind := {|
  enum_values :=
    [FenceKind.AttemptSuperseded; FenceKind.PreRestartAuthority; FenceKind.SessionRevoked;
     FenceKind.PolicyChanged; FenceKind.TopologyChanged; FenceKind.EpochAdvanced;
     FenceKind.RollbackRevoked];
  enum_code := fence_kind_code;
  enum_nonneg := ltac:(by intros []);
  enum_nth := ltac:(by intros []);
|}.
#[global] Instance fence_kind_eq_dec : EqDecision FenceKind := enum_eq_dec.

Definition kFenceNames : list (FenceKind * string) := [
  (FenceKind.AttemptSuperseded, "AttemptSuperseded");
  (FenceKind.PreRestartAuthority, "PreRestartAuthority");
  (FenceKind.SessionRevoked, "SessionRevoked");
  (FenceKind.PolicyChanged, "PolicyChanged");
  (FenceKind.TopologyChanged, "TopologyChanged");
  (FenceKind.EpochAdvanced, "EpochAdvanced");
  (FenceKind.RollbackRevoked, "RollbackRevoked")
].

Definition fence_kind_name (v : FenceKind) : string :=
  table_name "UnrecognisedFenceKind" kFenceNames v.

Definition fence_kind_parse (text : string) : option FenceKind :=
  table_parse kFenceNames text.

Definition kFenceKindCount : Z := 7.

Record FenceRecord := MkFence {
  fe_kind : FenceKind;
  fe_subject : LinkKey;
  fe_subject_generation : LinkGeneration;
  fe_attempt_seq : AttemptSeq;
  fe_epoch : Epoch;
  fe_coordinator : Incarnation;
  fe_seq : LineageSeq;
  fe_detail : string;
}.
#[global] Instance fence_record_eq_dec : EqDecision FenceRecord.
Proof. solve_decision. Defined.
Definition set_fe_seq (v : LineageSeq) (f : FenceRecord) : FenceRecord :=
  MkFence (fe_kind f) (fe_subject f) (fe_subject_generation f) (fe_attempt_seq f) (fe_epoch f)
    (fe_coordinator f) v (fe_detail f).

Definition fence_encode (f : FenceRecord) : WriteM := writes [
  wr_u16 kIdentityFormatVersion;
  wr_u16 (enum_code (fe_kind f));
  wr_str (lk_fabric (fe_subject f));
  wr_str (lk_link (fe_subject f));
  wr_u64 (fe_subject_generation f);
  wr_u64 (fe_attempt_seq f);
  wr_u64 (fe_epoch f);
  wr_incarnation (fe_coordinator f);
  wr_u64 (fe_seq f);
  wr_str_max (fe_detail f) 512].

Definition fence_decode : ReadM (option FenceRecord) :=
  let* format_version := rd_u16 in
  let* kind := rd_u16 in
  let* fabric := rd_str in
  let* link := rd_str in
  let* generation := rd_u64 in
  let* attempt_seq := rd_u64 in
  let* epoch := rd_u64 in
  let* coordinator := rd_incarnation in
  let* seq := rd_u64 in
  let* detail := rd_str_max 512 in
  let* ok := rd_is_ok in
  if (negb ok || negb (format_version =? kIdentityFormatVersion))%bool then rret None else
  if kind >=? kFenceKindCount then rret None else
  ropt (decode_name fabric) (fun fabric =>
  ropt (decode_name link) (fun link =>
  rret (Some (MkFence (enum_cast FenceKind.PreRestartAuthority kind) (MkLinkKey fabric link)
    generation attempt_seq epoch coordinator seq detail)))).

Definition text_wf (bound : Z) (s : string) : Prop := Z.of_nat (String.length s) <= bound.
#[global] Instance text_wf_dec b s : Decision (text_wf b s).
Proof. unfold text_wf. apply _. Defined.
Lemma text_wf_le b s : text_wf b s -> Z.of_nat (String.length s) <= b.
Proof. done. Qed.
Lemma text_wf_u32 b s : text_wf b s -> b < two32 -> is_u32 (Z.of_nat (String.length s)).
Proof. unfold text_wf. ints. Qed.
#[export] Hint Resolve text_wf_le : codec.
#[export] Hint Extern 1 (is_u32 (Z.of_nat (String.length _))) =>
  (eapply text_wf_u32; [eassumption|vm_compute; reflexivity]) : codec.

Definition fence_wf (f : FenceRecord) : Prop :=
  link_key_wf (fe_subject f) /\ is_u64 (fe_subject_generation f) /\ is_u64 (fe_attempt_seq f) /\
  is_u64 (fe_epoch f) /\ incarnation_wf (fe_coordinator f) /\ is_u64 (fe_seq f) /\
  text_wf 512 (fe_detail f).

#[global] Program Instance fence_codec : Codec FenceRecord := {|
  encode := fence_encode; decode := fence_decode; codec_wf := fence_wf |}.
Next Obligation. intros [? []]. codec_law_solve. rewrite enum_cast_code. apply reads_ret. Qed.
Next Obligation. unfold fence_decode. steady_solve. Qed.
Next Obligation. unfold fence_decode. checked_solve. Qed.

(** ** Properties *)
Definition agrees {A} (expected : option A) (actual : A) : Prop :=
  match expected with Some e => e = actual | None => True end.

Lemma mismatch_nil {A} `{EqDecision A} code field (text : A -> string) e a :
  mismatch code field text e a = [] <-> agrees e a.
Proof.
  unfold mismatch, agrees. destruct e as [e|]; [|by split].
  case_bool_decide; by split.
Qed.

(** an expectation passes exactly when every field the caller asserted is the
    current one; nothing is assumed about the fields it left out. *)
Theorem compare_authority_nil e c :
  compare_authority e c = [] <->
  agrees (ae_epoch e) (av_epoch c) /\ agrees (ae_coordinator e) (av_coordinator c) /\
  agrees (ae_topology_generation e) (av_topology_generation c) /\
  agrees (ae_policy_generation e) (av_policy_generation c) /\
  agrees (ae_subject_generation e) (av_subject_generation c) /\
  agrees (ae_policy_digest e) (av_policy_digest c) /\
  agrees (ae_topology_digest e) (av_topology_digest c).
Proof.
  unfold compare_authority. rewrite !app_nil, !mismatch_nil. done.
Qed.

Lemma fence_kind_parse_name v : fence_kind_parse (fence_kind_name v) = Some v.
Proof. table_roundtrip. Qed.
