(* ===== verification/Attempt.v ===== *)
(** * Failover attempts

    Models include/lff/attempt.hpp and src/attempt.cpp: the attempt phases with
    their terminal and authority-holding subsets, the interruption reasons, the
    attempt record with its canonical encoding, and the deterministic attempt
    identity. The encoding of a reason list is shared with the decisions. *)
From S2P Require Import Prelude Status Hash Ids Bytes Authority.

(** ** Enumerations *)
Module RevalidationVerdict.
Inductive RevalidationVerdict :=
| NotApplied
| Applied
| Unknown.
End RevalidationVerdict.
Abbreviation RevalidationVerdict := RevalidationVerdict.RevalidationVerdict.

Definition revalidation_verdict_code (v : RevalidationVerdict) : Z :=
  match v with
  | RevalidationVerdict.NotApplied => 0
  | RevalidationVerdict.Applied => 1
  | RevalidationVerdict.Unknown => 2
  end.

#[global] Instance revalidation_verdict_enum : EnumCode RevalidationVerdict := {|
  enum_values :=
    [RevalidationVerdict.NotApplied; RevalidationVerdict.Applied;
     RevalidationVerdict.Unknown];
  enum_code := revalidation_verdict_code;
  enum_nonneg := ltac:(by intros []);
  enum_nth := ltac:(by intros []);
|}.
#[global] Instance revalidation_verdict_eq_dec : EqDecision RevalidationVerdict := enum_eq_dec.

Definition kRevalidationNames : list (RevalidationVerdict * string) := [
  (RevalidationVerdict.NotApplied, "NotApplied");
  (RevalidationVerdict.Applied, "Applied");
  (RevalidationVerdict.Unknown, "Unknown")
].

Definition revalidation_verdict_name (v : RevalidationVerdict) : string :=
  table_name "UnrecognisedRevalidationVerdict" kRevalidationNames v.

Definition revalidation_verdict_parse (text : string) : option RevalidationVerdict :=
  table_parse kRevalidationNames text.
Definition kRevalidationVerdictCount : Z := 3.

Module AttemptPhase.
Inductive AttemptPhase :=
| Evaluated
| Authorized
| Acknowledged
| Verified
| Refused
| Indeterminate
| Committed
| RolledBack
| Interrupted
| Superseded
| Aborted.
End AttemptPhase.
Abbreviation AttemptPhase := AttemptPhase.AttemptPhase.

Definition attempt_phase_code (v : AttemptPhase) : Z :=
  match v with
  | AttemptPhase.Evaluated => 0
  | AttemptPhase.Authorized => 1
  | AttemptPhase.Acknowledged => 2
  | AttemptPhase.Verified => 3
  | AttemptPhase.Refused => 4
  | AttemptPhase.Indeterminate => 5
  | AttemptPhase.Committed => 6
  | AttemptPhase.RolledBack => 7
  | AttemptPhase.Interrupted => 8
  | AttemptPhase.Superseded => 9
  | AttemptPhase.Aborted => 10
  end.

#[global] Instance attempt_phase_enum : EnumCode AttemptPhase := {|
  enum_values :=
    [AttemptPhase.Evaluated; AttemptPhase.Authorized; AttemptPhase.Acknowledged;
     AttemptPhase.Verified; AttemptPhase.Refused; AttemptPhase.Indeterminate;
     AttemptPhase.Committed; AttemptPhase.RolledBack; AttemptPhase.Interrupted;
     AttemptPhase.Superseded; AttemptPhase.Aborted];
  enum_code := attempt_phase_code;
  enum_nonneg := ltac:(by intros []);
  enum_nth := ltac:(by intros []);
|}.
#[global] Instance attempt_phase_eq_dec : EqDecision AttemptPhase := enum_eq_dec.

Definition kPhaseNames : list (AttemptPhase * string) := [
  (AttemptPhase.Evaluated, "Evaluated");
  (AttemptPhase.Authorized, "Authorized");
  (AttemptPhase.Acknowledged, "Acknowledged");
  (AttemptPhase.Verified, "Verified");
  (AttemptPhase.Refused, "Refused");
  (AttemptPhase.Indeterminate, "Indeterminate");
  (AttemptPhase.Committed, "Committed");
  (AttemptPhase.RolledBack, "RolledBack");
  (AttemptPhase.Interrupted, "Interrupted");
  (AttemptPhase.Superseded, "Superseded");
  (AttemptPhase.Aborted, "Aborted")
].

Definition attempt_phase_name (v : AttemptPhase) : string :=
  table_name "UnrecognisedAttemptPhase" kPhaseNames v.

Definition attempt_phase_parse (text : string) : option AttemptPhase :=
  table_parse kPhaseNames text.
Definition kAttemptPhaseCount : Z := 11.

Definition attempt_phase_is_terminal (value : AttemptPhase) : bool :=
  match value with
  | AttemptPhase.Refused | AttemptPhase.Indeterminate | AttemptPhase.Committed
  | AttemptPhase.RolledBack | AttemptPhase.Interrupted | AttemptPhase.Superseded
  | AttemptPhase.Aborted => true
  | AttemptPhase.Evaluated | AttemptPhase.Authorized | AttemptPhase.Acknowledged
  | AttemptPhase.Verified => false
  end.

Definition attempt_phase_holds_authority (value : AttemptPhase) : bool :=
  match value with
  | AttemptPhase.Authorized | AttemptPhase.Acknowledged | AttemptPhase.Verified
  | AttemptPhase.Committed => true
  | _ => false
  end.

Definition interruption_reason (value : AttemptPhase) : ReasonCode :=
  match value with
  | AttemptPhase.Evaluated => ReasonCode.InterruptedBeforeCommit
  | AttemptPhase.Authorized => ReasonCode.InterruptedAfterCommit
  | AttemptPhase.Acknowledged | AttemptPhase.Verified => ReasonCode.InterruptedAfterApply
  | _ => ReasonCode.AttemptUnknown
  end.

Definition kMaxAttemptReasons : Z := 16.
Definition kMaxRetainedAttempts : Z := 8192.

(** ** Attempt record *)
Record AttemptRecord := MkAttempt {
  at_subject : LinkKey;
  at_subject_generation : LinkGeneration;
  at_attempt_seq : AttemptSeq;
  at_attempt_id : Digest;
  at_idempotency_key : Digest;
  at_phase : AttemptPhase;
  at_replacement : LinkKey;
  at_replacement_generation : LinkGeneration;
  at_authority : AuthorityVector;
  at_evidence_digest : Digest;
  at_created_tick : Z;
  at_created_epoch : Epoch;
  at_coordinator : Incarnation;
  at_create_seq : LineageSeq;
  at_update_seq : LineageSeq;
  at_predecessor : option Digest;
  at_applier_incarnation : Incarnation;
  at_revalidated : bool;
  at_revalidation : RevalidationVerdict;
  at_reasons : list Reason;
}.
#[global] Instance attempt_record_eq_dec : EqDecision AttemptRecord.
Proof. solve_decision. Defined.

Definition set_at_subject (v : LinkKey) (r : AttemptRecord) : AttemptRecord :=
  MkAttempt v (at_subject_generation r) (at_attempt_seq r) (at_attempt_id r) (at_idempotency_key
    r) (at_phase r) (at_replacement r) (at_replacement_generation r) (at_authority r)
    (at_evidence_digest r) (at_created_tick r) (at_created_epoch r) (at_coordinator r)
    (at_create_seq r) (at_update_seq r) (at_predecessor r) (at_applier_incarnation r)
    (at_revalidated r) (at_revalidation r) (at_reasons r).
Definition set_at_subject_generation (v : LinkGeneration) (r : AttemptRecord) : AttemptRecord :=
  MkAttempt (at_subject r) v (at_attempt_seq r) (at_attempt_id r) (at_idempotency_key r)
    (at_phase r) (at_replacement r) (at_replacement_generation r) (at_authority r)
    (at_evidence_digest r) (at_created_tick r) (at_created_epoch r) (at_coordinator r)
    (at_create_seq r) (at_update_seq r) (at_predecessor r) (at_applier_incarnation r)
    (at_revalidated r) (at_revalidation r) (at_reasons r).
Definition set_at_attempt_seq (v : AttemptSeq) (r : AttemptRecord) : AttemptRecord :=
  MkAttempt (at_subject r) (at_subject_generation r) v (at_attempt_id r) (at_idempotency_key r)
    (at_phase r) (at_replacement r) (at_replacement_generation r) (at_authority r)
    (at_evidence_digest r) (at_created_tick r) (at_created_epoch r) (at_coordinator r)
    (at_create_seq r) (at_update_seq r) (at_predecessor r) (at_applier_incarnation r)
    (at_revalidated r) (at_revalidation r) (at_reasons r).
Definition set_at_attempt_id (v : Digest) (r : AttemptRecord) : AttemptRecord :=
  MkAttempt (at_subject r) (at_subject_generation r) (at_attempt_seq r) v (at_idempotency_key r)
    (at_phase r) (at_replacement r) (at_replacement_generation r) (at_authority r)
    (at_evidence_digest r) (at_created_tick r) (at_created_epoch r) (at_coordinator r)
    (at_create_seq r) (at_update_seq r) (at_predecessor r) (at_applier_incarnation r)
    (at_revalidated r) (at_revalidation r) (at_reasons r).
Definition set_at_idempotency_key (v : Digest) (r : AttemptRecord) : AttemptRecord :=
  MkAttempt (at_subject r) (at_subject_generation r) (at_attempt_seq r) (at_attempt_id r) v
    (at_phase r) (at_replacement r) (at_replacement_generation r) (at_authority r)
    (at_evidence_digest r) (at_created_tick r) (at_created_epoch r) (at_coordinator r)
    (at_create_seq r) (at_update_seq r) (at_predecessor r) (at_applier_incarnation r)
    (at_revalidated r) (at_revalidation r) (at_reasons r).
Definition set_at_phase (v : AttemptPhase) (r : AttemptRecord) : AttemptRecord :=
  MkAttempt (at_subject r) (at_subject_generation r) (at_attempt_seq r) (at_attempt_id r)
    (at_idempotency_key r) v (at_replacement r) (at_replacement_generation r) (at_authority r)
    (at_evidence_digest r) (at_created_tick r) (at_created_epoch r) (at_coordinator r)
    (at_create_seq r) (at_update_seq r) (at_predecessor r) (at_applier_incarnation r)
    (at_revalidated r) (at_revalidation r) (at_reasons r).
Definition set_at_replacement (v : LinkKey) (r : AttemptRecord) : AttemptRecord :=
  MkAttempt (at_subject r) (at_subject_generation r) (at_attempt_seq r) (at_attempt_id r)
    (at_idempotency_key r) (at_phase r) v (at_replacement_generation r) (at_authority r)
    (at_evidence_digest r) (at_created_tick r) (at_created_epoch r) (at_coordinator r)
    (at_create_seq r) (at_update_seq r) (at_predecessor r) (at_applier_incarnation r)
    (at_revalidated r) (at_revalidation r) (at_reasons r).
Definition set_at_replacement_generation (v : LinkGeneration) (r : AttemptRecord) : AttemptRecord :=
  MkAttempt (at_subject r) (at_subject_generation r) (at_attempt_seq r) (at_attempt_id r)
    (at_idempotency_key r) (at_phase r) (at_replacement r) v (at_authority r)
    (at_evidence_digest r) (at_created_tick r) (at_created_epoch r) (at_coordinator r)
    (at_create_seq r) (at_update_seq r) (at_predecessor r) (at_applier_incarnation r)
    (at_revalidated r) (at_revalidation r) (at_reasons r).
Definition set_at_authority (v : AuthorityVector) (r : AttemptRecord) : AttemptRecord :=
  MkAttempt (at_subject r) (at_subject_generation r) (at_attempt_seq r) (at_attempt_id r)
    (at_idempotency_key r) (at_phase r) (at_replacement r) (at_replacement_generation r) v
    (at_evidence_digest r) (at_created_tick r) (at_created_epoch r) (at_coordinator r)
    (at_create_seq r) (at_update_seq r) (at_predecessor r) (at_applier_incarnation r)
    (at_revalidated r) (at_revalidation r) (at_reasons r).
Definition set_at_evidence_digest (v : Digest) (r : AttemptRecord) : AttemptRecord :=
  MkAttempt (at_subject r) (at_subject_generation r) (at_attempt_seq r) (at_attempt_id r)
    (at_idempotency_key r) (at_phase r) (at_replacement r) (at_replacement_generation r)
    (at_authority r) v (at_created_tick r) (at_created_epoch r) (at_coordinator r)
    (at_create_seq r) (at_update_seq r) (at_predecessor r) (at_applier_incarnation r)
    (at_revalidated r) (at_revalidation r) (at_reasons r).
Definition set_at_created_tick (v : Z) (r : AttemptRecord) : AttemptRecord :=
  MkAttempt (at_subject r) (at_subject_generation r) (at_attempt_seq r) (at_attempt_id r)
    (at_idempotency_key r) (at_phase r) (at_replacement r) (at_replacement_generation r)
    (at_authority r) (at_evidence_digest r) v (at_created_epoch r) (at_coordinator r)
    (at_create_seq r) (at_update_seq r) (at_predecessor r) (at_applier_incarnation r)
    (at_revalidated r) (at_revalidation r) (at_reasons r).
Definition set_at_created_epoch (v : Epoch) (r : AttemptRecord) : AttemptRecord :=
  MkAttempt (at_subject r) (at_subject_generation r) (at_attempt_seq r) (at_attempt_id r)
    (at_idempotency_key r) (at_phase r) (at_replacement r) (at_replacement_generation r)
    (at_authority r) (at_evidence_digest r) (at_created_tick r) v (at_coordinator r)
    (at_create_seq r) (at_update_seq r) (at_predecessor r) (at_applier_incarnation r)
    (at_revalidated r) (at_revalidation r) (at_reasons r).
Definition set_at_coordinator (v : Incarnation) (r : AttemptRecord) : AttemptRecord :=
  MkAttempt (at_subject r) (at_subject_generation r) (at_attempt_seq r) (at_attempt_id r)
    (at_idempotency_key r) (at_phase r) (at_replacement r) (at_replacement_generation r)
    (at_authority r) (at_evidence_digest r) (at_created_tick r) (at_created_epoch r) v
    (at_create_seq r) (at_update_seq r) (at_predecessor r) (at_applier_incarnation r)
    (at_revalidated r) (at_revalidation r) (at_reasons r).
Definition set_at_create_seq (v : LineageSeq) (r : AttemptRecord) : AttemptRecord :=
  MkAttempt (at_subject r) (at_subject_generation r) (at_attempt_seq r) (at_attempt_id r)
    (at_idempotency_key r) (at_phase r) (at_replacement r) (at_replacement_generation r)
    (at_authority r) (at_evidence_digest r) (at_created_tick r) (at_created_epoch r)
    (at_coordinator r) v (at_update_seq r) (at_predecessor r) (at_applier_incarnation r)
    (at_revalidated r) (at_revalidation r) (at_reasons r).
Definition set_at_update_seq (v : LineageSeq) (r : AttemptRecord) : AttemptRecord :=
  MkAttempt (at_subject r) (at_subject_generation r) (at_attempt_seq r) (at_attempt_id r)
    (at_idempotency_key r) (at_phase r) (at_replacement r) (at_replacement_generation r)
    (at_authority r) (at_evidence_digest r) (at_created_tick r) (at_created_epoch r)
    (at_coordinator r) (at_create_seq r) v (at_predecessor r) (at_applier_incarnation r)
    (at_revalidated r) (at_revalidation r) (at_reasons r).
Definition set_at_predecessor (v : option Digest) (r : AttemptRecord) : AttemptRecord :=
  MkAttempt (at_subject r) (at_subject_generation r) (at_attempt_seq r) (at_attempt_id r)
    (at_idempotency_key r) (at_phase r) (at_replacement r) (at_replacement_generation r)
    (at_authority r) (at_evidence_digest r) (at_created_tick r) (at_created_epoch r)
    (at_coordinator r) (at_create_seq r) (at_update_seq r) v (at_applier_incarnation r)
    (at_revalidated r) (at_revalidation r) (at_reasons r).
Definition set_at_applier_incarnation (v : Incarnation) (r : AttemptRecord) : AttemptRecord :=
  MkAttempt (at_subject r) (at_subject_generation r) (at_attempt_seq r) (at_attempt_id r)
    (at_idempotency_key r) (at_phase r) (at_replacement r) (at_replacement_generation r)
    (at_authority r) (at_evidence_digest r) (at_created_tick r) (at_created_epoch r)
    (at_coordinator r) (at_create_seq r) (at_update_seq r) (at_predecessor r) v (at_revalidated
    r) (at_revalidation r) (at_reasons r).
Definition set_at_revalidated (v : bool) (r : AttemptRecord) : AttemptRecord :=
  MkAttempt (at_subject r) (at_subject_generation r) (at_attempt_seq r) (at_attempt_id r)
    (at_idempotency_key r) (at_phase r) (at_replacement r) (at_replacement_generation r)
    (at_authority r) (at_evidence_digest r) (at_created_tick r) (at_created_epoch r)
    (at_coordinator r) (at_create_seq r) (at_update_seq r) (at_predecessor r)
    (at_applier_incarnation r) v (at_revalidation r) (at_reasons r).
Definition set_at_revalidation (v : RevalidationVerdict) (r : AttemptRecord) : AttemptRecord :=
  MkAttempt (at_subject r) (at_subject_generation r) (at_attempt_seq r) (at_attempt_id r)
    (at_idempotency_key r) (at_phase r) (at_replacement r) (at_replacement_generation r)
    (at_authority r) (at_evidence_digest r) (at_created_tick r) (at_created_epoch r)
    (at_coordinator r) (at_create_seq r) (at_update_seq r) (at_predecessor r)
    (at_applier_incarnation r) (at_revalidated r) v (at_reasons r).
Definition set_at_reasons (v : list Reason) (r : AttemptRecord) : AttemptRecord :=
  MkAttempt (at_subject r) (at_subject_generation r) (at_attempt_seq r) (at_attempt_id r)
    (at_idempotency_key r) (at_phase r) (at_replacement r) (at_replacement_generation r)
    (at_authority r) (at_evidence_digest r) (at_created_tick r) (at_created_epoch r)
    (at_coordinator r) (at_create_seq r) (at_update_seq r) (at_predecessor r)
    (at_applier_incarnation r) (at_revalidated r) (at_revalidation r) v.
(** A default-constructed record. *)
Definition attempt_none : AttemptRecord :=
  MkAttempt link_key_none 0 0 digest_zero digest_zero AttemptPhase.Evaluated link_key_none 0
    authority_none digest_zero 0 0 incarnation_zero 0 0 None incarnation_zero false
    RevalidationVerdict.Unknown [].

(** ** Reasons *)
Definition reason_encode (r : Reason) : WriteM := writes [
  wr_u16 (enum_code (reason_code r));
  wr_str_max (reason_detail r) (Z.of_nat kMaxReasonDetail)].

Definition reason_decode : ReadM (option Reason) :=
  let* code := rd_u16 in
  let* detail := rd_str_max (Z.of_nat kMaxReasonDetail) in
  let* ok := rd_is_ok in
  if negb ok then rret None else
  if code >=? kReasonCodeCount then rret None else
  rret (Some (reason (enum_cast ReasonCode.None code) detail)).

Definition reason_wf (r : Reason) : Prop := text_wf 160 (reason_detail r).

Lemma substring_all s n : (String.length s <= n)%nat -> String.substring 0 n s = s.
Proof.
  revert n. induction s as [|c s IH]; intros [|n] H; cbn in *; try done; try lia.
  f_equal. apply IH. lia.
Qed.

Lemma reason_wf_eta r : reason_wf r -> reason (reason_code r) (reason_detail r) = r.
Proof.
  destruct r as [c d]. unfold reason_wf, text_wf, reason, kMaxReasonDetail. cbn [reason_detail reason_code].
  intros H. f_equal. rewrite substring_all by lia. by destruct (_ <? _)%nat.
Qed.

#[global] Program Instance reason_codec : Codec Reason := {|
  encode := reason_encode; decode := reason_decode; codec_wf := reason_wf |}.
Next Obligation.
  intros [c d]. intros H. pose proof (reason_wf_eta _ H) as E. revert H.
  codec_law_solve. rewrite enum_cast_code. cbn in E. rewrite E. apply reads_ret.
Qed.
Next Obligation. unfold reason_decode. steady_solve. Qed.
Next Obligation. unfold reason_decode. checked_solve. Qed.

Definition attempt_encode (a : AttemptRecord) : WriteM := writes [
  wr_u16 kIdentityFormatVersion;
  wr_str (lk_fabric (at_subject a));
  wr_str (lk_link (at_subject a));
  wr_u64 (at_subject_generation a);
  wr_u64 (at_attempt_seq a);
  wr_digest (at_attempt_id a);
  wr_digest (at_idempotency_key a);
  wr_u16 (enum_code (at_phase a));
  wr_str (lk_fabric (at_replacement a));
  wr_str (lk_link (at_replacement a));
  wr_u64 (at_replacement_generation a);
  encode (at_authority a);
  wr_digest (at_evidence_digest a);
  wr_u64 (at_created_tick a);
  wr_u64 (at_created_epoch a);
  wr_incarnation (at_coordinator a);
  wr_u64 (at_create_seq a);
  wr_u64 (at_update_seq a);
  wr_bool8 (has_value (at_predecessor a));
  wr_opt wr_digest (at_predecessor a);
  wr_incarnation (at_applier_incarnation a);
  wr_bool8 (at_revalidated a);
  wr_u16 (enum_code (at_revalidation a));
  wr_u32 (Z.of_nat (length (at_reasons a)));
  wr_each encode (at_reasons a)].

Definition attempt_decode : ReadM (option AttemptRecord) :=
  let* format_version := rd_u16 in
  let* fabric := rd_str in
  let* link := rd_str in
  let* generation := rd_u64 in
  let* attempt_seq := rd_u64 in
  let* attempt_id := rd_digest in
  let* idempotency_key := rd_digest in
  let* phase := rd_u16 in
  let* replacement_fabric := rd_str in
  let* replacement_link := rd_str in
  let* replacement_generation := rd_u64 in
  let* authority := decode in
  let* evidence_digest := rd_digest in
  let* created_tick := rd_u64 in
  let* created_epoch := rd_u64 in
  let* coordinator := rd_incarnation in
  let* create_seq := rd_u64 in
  let* update_seq := rd_u64 in
  let* predecessor := rd_opt rd_digest in
  let* applier := rd_incarnation in
  let* revalidated := rd_bool8 in
  let* revalidation := rd_u16 in
  let* reason_count := rd_u32 in
  let* ok := rd_is_ok in
  if (negb ok || negb (has_value authority))%bool then rret None else
  if negb (format_version =? kIdentityFormatVersion) then rret None else
  if ((phase >=? kAttemptPhaseCount) || (reason_count >? kMaxAttemptReasons) ||
      (revalidation >=? kRevalidationVerdictCount))%bool then rret None else
  ropt authority (fun authority =>
  ropt (decode_name fabric) (fun fabric =>
  ropt (decode_name link) (fun link =>
  ropt (decode_name replacement_fabric) (fun replacement_fabric =>
  ropt (decode_name replacement_link) (fun replacement_link =>
  let* reasons := rd_each (Z.to_nat reason_count) decode in
  ropt reasons (fun reasons =>
  let* ok := rd_is_ok in
  if negb ok then rret None else
  rret (Some (MkAttempt (MkLinkKey fabric link) generation attempt_seq attempt_id idempotency_key
    (enum_cast AttemptPhase.Evaluated phase) (MkLinkKey replacement_fabric replacement_link)
    replacement_generation authority evidence_digest created_tick created_epoch coordinator
    create_seq update_seq predecessor applier revalidated
    (enum_cast RevalidationVerdict.Unknown revalidation) reasons)))))))).

Definition attempt_wf (a : AttemptRecord) : Prop :=
  link_key_wf (at_subject a) /\ is_u64 (at_subject_generation a) /\ is_u64 (at_attempt_seq a) /\
  digest_wf (at_attempt_id a) /\ digest_wf (at_idempotency_key a) /\
  link_key_wf (at_replacement a) /\ is_u64 (at_replacement_generation a) /\
  authority_wf (at_authority a) /\ digest_wf (at_evidence_digest a) /\
  is_u64 (at_created_tick a) /\ is_u64 (at_created_epoch a) /\
  incarnation_wf (at_coordinator a) /\ is_u64 (at_create_seq a) /\ is_u64 (at_update_seq a) /\
  opt_wf digest_wf (at_predecessor a) /\ incarnation_wf (at_applier_incarnation a) /\
  count_wf kMaxAttemptReasons (at_reasons a) /\ Forall reason_wf (at_reasons a).

#[global] Program Instance attempt_codec : Codec AttemptRecord := {|
  encode := attempt_encode; decode := attempt_decode; codec_wf := attempt_wf |}.
Next Obligation.
  intros [[] ? ? ? ? ? []]. codec_law_solve. rewrite !enum_cast_code. apply reads_ret.
Qed.
Next Obligation. unfold attempt_decode. steady_solve. Qed.
Next Obligation. unfold attempt_decode. checked_solve. Qed.

Definition attempt_digest (a : AttemptRecord) : Digest := encoded_digest a.
Definition attempt_to_string (a : AttemptRecord) : string :=
  (link_key_to_string (at_subject a) +:+ "@" +:+ decimal_text (at_subject_generation a) +:+ "#" +:+
   decimal_text (at_attempt_seq a) +:+ " phase=" +:+ attempt_phase_name (at_phase a) +:+
   (if link_key_empty (at_replacement a) then ""
    else " replacement=" +:+ link_key_to_string (at_replacement a) +:+ "@" +:+
         decimal_text (at_replacement_generation a)))%string.

Definition attempt_id_body (fabric : string) (subject : LinkKey) (generation : LinkGeneration)
    (seq : AttemptSeq) : WriteM := writes [
  wr_u16 kIdentityFormatVersion;
  wr_str "lff.attempt";
  wr_str fabric;
  wr_str (lk_fabric subject);
  wr_str (lk_link subject);
  wr_u64 generation;
  wr_u64 seq].
Definition compute_attempt_id (fabric : string) (subject : LinkKey) (generation : LinkGeneration)
    (seq : AttemptSeq) : Digest :=
  sha256 (wr_buf (attempt_id_body fabric subject generation seq writer_empty)).

Arguments compute_attempt_id : simpl never.

(** ** Properties of the phases *)
Lemma holds_authority_cases p :
  attempt_phase_holds_authority p = true <->
  p = AttemptPhase.Authorized \/ p = AttemptPhase.Acknowledged \/ p = AttemptPhase.Verified \/
  p = AttemptPhase.Committed.
Proof. destruct p; cbn; intuition discriminate. Qed.

Lemma not_terminal_cases p :
  attempt_phase_is_terminal p = false <->
  p = AttemptPhase.Evaluated \/ p = AttemptPhase.Authorized \/ p = AttemptPhase.Acknowledged \/
  p = AttemptPhase.Verified.
Proof. destruct p; cbn; intuition discriminate. Qed.

Lemma attempt_phase_parse_name v : attempt_phase_parse (attempt_phase_name v) = Some v.
Proof. table_roundtrip. Qed.
Lemma revalidation_verdict_parse_name v :
  revalidation_verdict_parse (revalidation_verdict_name v) = Some v.
Proof. table_roundtrip. Qed.

(** The bytes an attempt identity hashes determine what it identifies. *)
Definition attempt_id_read : ReadM (string * LinkKey * Z * Z) :=
  let* _ := rd_u16 in let* _ := rd_str in let* fabric := rd_str in let* f := rd_str in
  let* l := rd_str in let* generation := rd_u64 in let* seq := rd_u64 in
  rret (fabric, MkLinkKey f l, generation, seq).

Lemma attempt_id_body_reads fabric subject generation seq :
  name_wf fabric -> link_key_wf subject -> is_u64 generation -> is_u64 seq ->
  exists bs, emits (attempt_id_body fabric subject generation seq) bs /\
    reads attempt_id_read bs (fabric, subject, generation, seq).
Proof.
  destruct subject as [f l]. intros Hf [Hs1 Hs2] Hg Hq. cbn in *.
  assert (text_wf kMaxEncodedString "lff.attempt") by (vm_compute; discriminate).
  eexists; split; [unfold attempt_id_body; cbn; emits_fields|].
  unfold attempt_id_read. reads_fields. apply reads_ret.
Qed.

(** the byte string behind an attempt identity determines the fabric, the
    subject, its generation and the sequence: two attempts share an identity
    only if SHA-256 collides. *)
Theorem attempt_id_body_inj f1 s1 g1 q1 f2 s2 g2 q2 :
  name_wf f1 -> link_key_wf s1 -> is_u64 g1 -> is_u64 q1 ->
  name_wf f2 -> link_key_wf s2 -> is_u64 g2 -> is_u64 q2 ->
  attempt_id_body f1 s1 g1 q1 writer_empty = attempt_id_body f2 s2 g2 q2 writer_empty ->
  f1 = f2 /\ s1 = s2 /\ g1 = g2 /\ q1 = q2.
Proof.
  intros Hf1 Hs1 Hg1 Hq1 Hf2 Hs2 Hg2 Hq2.
  destruct (attempt_id_body_reads f1 s1 g1 q1) as (b1 & E1 & R1); [done..|].
  destruct (attempt_id_body_reads f2 s2 g2 q2) as (b2 & E2 & R2); [done..|].
  rewrite (E1 writer_empty), (E2 writer_empty) by done. intros [= ->].
  specialize (R1 []). rewrite (R2 []) in R1. by simplify_eq.
Qed.
