(* ===== verification/Decision.v ===== *)
(** * Externally visible decisions, requests and reports

    Models include/lff/decision.hpp and src/decision.cpp: the decision kinds and
    the assertion ladder, the decision record with its identity and canonical
    key, and the encodings of the decision and of the requests and reports a
    caller submits. *)
From S2P Require Import Prelude Status Hash Ids Bytes Evidence Policy Authority Attempt.

(** ** Enumerations *)
Module DecisionKind.
Inductive DecisionKind :=
| Observe
| Grant
| Refuse
| Rollback
| Revalidate
| Indeterminate
| Acknowledge
| Verify
| Fence.
End DecisionKind.
Abbreviation DecisionKind := DecisionKind.DecisionKind.

Definition decision_kind_code (v : DecisionKind) : Z :=
  match v with
  | DecisionKind.Observe => 0
  | DecisionKind.Grant => 1
  | DecisionKind.Refuse => 2
  | DecisionKind.Rollback => 3
  | DecisionKind.Revalidate => 4
  | DecisionKind.Indeterminate => 5
  | DecisionKind.Acknowledge => 6
  | DecisionKind.Verify => 7
  | DecisionKind.Fence => 8
  end.

#[global] Instance decision_kind_enum : EnumCode DecisionKind := {|
  enum_values :=
    [DecisionKind.Observe; DecisionKind.Grant; DecisionKind.Refuse; DecisionKind.Rollback;
     DecisionKind.Revalidate; DecisionKind.Indeterminate; DecisionKind.Acknowledge;
     DecisionKind.Verify; DecisionKind.Fence];
  enum_code := decision_kind_code;
  enum_nonneg := ltac:(by intros []);
  enum_nth := ltac:(by intros []);
|}.
#[global] Instance decision_kind_eq_dec : EqDecision DecisionKind := enum_eq_dec.

Definition kKindNames : list (DecisionKind * string) := [
  (DecisionKind.Observe, "Observe");
  (DecisionKind.Grant, "Grant");
  (DecisionKind.Refuse, "Refuse");
  (DecisionKind.Rollback, "Rollback");
  (DecisionKind.Revalidate, "Revalidate");
  (DecisionKind.Indeterminate, "Indeterminate");
  (DecisionKind.Acknowledge, "Acknowledge");
  (DecisionKind.Verify, "Verify");
  (DecisionKind.Fence, "Fence")
].

Definition decision_kind_name (v : DecisionKind) : string :=
  table_name "UnrecognisedDecisionKind" kKindNames v.

Definition decision_kind_parse (text : string) : option DecisionKind :=
  table_parse kKindNames text.
Definition kDecisionKindCount : Z := 9.

Module Assertion.
Inductive Assertion :=
| None
| Observation
| Eligibility
| Recommendation
| Authorization
| Acknowledgement
| VerifiedEffect.
End Assertion.
Abbreviation Assertion := Assertion.Assertion.

Definition assertion_code (v : Assertion) : Z :=
  match v with
  | Assertion.None => 0
  | Assertion.Observation => 1
  | Assertion.Eligibility => 2
  | Assertion.Recommendation => 3
  | Assertion.Authorization => 4
  | Assertion.Acknowledgement => 5
  | Assertion.VerifiedEffect => 6
  end.

#[global] Instance assertion_enum : EnumCode Assertion := {|
  enum_values :=
    [Assertion.None; Assertion.Observation; Assertion.Eligibility; Assertion.Recommendation;
     Assertion.Authorization; Assertion.Acknowledgement; Assertion.VerifiedEffect];
  enum_code := assertion_code;
  enum_nonneg := ltac:(by intros []);
  enum_nth := ltac:(by intros []);
|}.
#[global] Instance assertion_eq_dec : EqDecision Assertion := enum_eq_dec.

Definition kAssertionNames : list (Assertion * string) := [
  (Assertion.None, "None");
  (Assertion.Observation, "Observation");
  (Assertion.Eligibility, "Eligibility");
  (Assertion.Recommendation, "Recommendation");
  (Assertion.Authorization, "Authorization");
  (Assertion.Acknowledgement, "Acknowledgement");
  (Assertion.VerifiedEffect, "VerifiedEffect")
].

Definition assertion_name (v : Assertion) : string :=
  table_name "UnrecognisedAssertion" kAssertionNames v.

Definition assertion_parse (text : string) : option Assertion :=
  table_parse kAssertionNames text.
Definition assertion_rank (v : Assertion) : Z := enum_code v.
Definition kAssertionCount : Z := 7.
Definition kMaxDecisionReasons : Z := 24.
Definition kMaxDecisionCandidates : Z := 256.
Definition kMaxRetainedDecisions : Z := 8192.

(** ** Decision *)
Record FailoverDecision := MkDecision {
  fd_decision_id : Digest;
  fd_kind : DecisionKind;
  fd_assertion : Assertion;
  fd_outcome : Outcome;
  fd_fabric : string;
  fd_subject : LinkKey;
  fd_subject_generation : LinkGeneration;
  fd_has_replacement : bool;
  fd_replacement : LinkKey;
  fd_replacement_generation : LinkGeneration;
  fd_attempt_seq : AttemptSeq;
  fd_attempt_id : Digest;
  fd_epoch : Epoch;
  fd_coordinator : Incarnation;
  fd_authority : AuthorityVector;
  fd_evidence_digest : Digest;
  fd_lineage_seq : LineageSeq;
  fd_durable : bool;
  fd_idempotent_replay : bool;
  fd_reasons : list Reason;
  fd_candidates : list CandidateAssessment;
}.
#[global] Instance failover_decision_eq_dec : EqDecision FailoverDecision.
Proof. solve_decision. Defined.

Definition set_fd_decision_id (v : Digest) (r : FailoverDecision) : FailoverDecision :=
  MkDecision v (fd_kind r) (fd_assertion r) (fd_outcome r) (fd_fabric r) (fd_subject r)
    (fd_subject_generation r) (fd_has_replacement r) (fd_replacement r)
    (fd_replacement_generation r) (fd_attempt_seq r) (fd_attempt_id r) (fd_epoch r)
    (fd_coordinator r) (fd_authority r) (fd_evidence_digest r) (fd_lineage_seq r) (fd_durable r)
    (fd_idempotent_replay r) (fd_reasons r) (fd_candidates r).
Definition set_fd_kind (v : DecisionKind) (r : FailoverDecision) : FailoverDecision :=
  MkDecision (fd_decision_id r) v (fd_assertion r) (fd_outcome r) (fd_fabric r) (fd_subject r)
    (fd_subject_generation r) (fd_has_replacement r) (fd_replacement r)
    (fd_replacement_generation r) (fd_attempt_seq r) (fd_attempt_id r) (fd_epoch r)
    (fd_coordinator r) (fd_authority r) (fd_evidence_digest r) (fd_lineage_seq r) (fd_durable r)
    (fd_idempotent_replay r) (fd_reasons r) (fd_candidates r).
Definition set_fd_assertion (v : Assertion) (r : FailoverDecision) : FailoverDecision :=
  MkDecision (fd_decision_id r) (fd_kind r) v (fd_outcome r) (fd_fabric r) (fd_subject r)
    (fd_subject_generation r) (fd_has_replacement r) (fd_replacement r)
    (fd_replacement_generation r) (fd_attempt_seq r) (fd_attempt_id r) (fd_epoch r)
    (fd_coordinator r) (fd_authority r) (fd_evidence_digest r) (fd_lineage_seq r) (fd_durable r)
    (fd_idempotent_replay r) (fd_reasons r) (fd_candidates r).
Definition set_fd_outcome (v : Outcome) (r : FailoverDecision) : FailoverDecision :=
  MkDecision (fd_decision_id r) (fd_kind r) (fd_assertion r) v (fd_fabric r) (fd_subject r)
    (fd_subject_generation r) (fd_has_replacement r) (fd_replacement r)
    (fd_replacement_generation r) (fd_attempt_seq r) (fd_attempt_id r) (fd_epoch r)
    (fd_coordinator r) (fd_authority r) (fd_evidence_digest r) (fd_lineage_seq r) (fd_durable r)
    (fd_idempotent_replay r) (fd_reasons r) (fd_candidates r).
Definition set_fd_fabric (v : string) (r : FailoverDecision) : FailoverDecision :=
  MkDecision (fd_decision_id r) (fd_kind r) (fd_assertion r) (fd_outcome r) v (fd_subject r)
    (fd_subject_generation r) (fd_has_replacement r) (fd_replacement r)
    (fd_replacement_generation r) (fd_attempt_seq r) (fd_attempt_id r) (fd_epoch r)
    (fd_coordinator r) (fd_authority r) (fd_evidence_digest r) (fd_lineage_seq r) (fd_durable r)
    (fd_idempotent_replay r) (fd_reasons r) (fd_candidates r).
Definition set_fd_subject (v : LinkKey) (r : FailoverDecision) : FailoverDecision :=
  MkDecision (fd_decision_id r) (fd_kind r) (fd_assertion r) (fd_outcome r) (fd_fabric r) v
    (fd_subject_generation r) (fd_has_replacement r) (fd_replacement r)
    (fd_replacement_generation r) (fd_attempt_seq r) (fd_attempt_id r) (fd_epoch r)
    (fd_coordinator r) (fd_authority r) (fd_evidence_digest r) (fd_lineage_seq r) (fd_durable r)
    (fd_idempotent_replay r) (fd_reasons r) (fd_candidates r).
Definition set_fd_subject_generation (v : LinkGeneration) (r : FailoverDecision) : FailoverDecision :=
  MkDecision (fd_decision_id r) (fd_kind r) (fd_assertion r) (fd_outcome r) (fd_fabric r)
    (fd_subject r) v (fd_has_replacement r) (fd_replacement r) (fd_replacement_generation r)
    (fd_attempt_seq r) (fd_attempt_id r) (fd_epoch r) (fd_coordinator r) (fd_authority r)
    (fd_evidence_digest r) (fd_lineage_seq r) (fd_durable r) (fd_idempotent_replay r)
    (fd_reasons r) (fd_candidates r).
Definition set_fd_has_replacement (v : bool) (r : FailoverDecision) : FailoverDecision :=
  MkDecision (fd_decision_id r) (fd_kind r) (fd_assertion r) (fd_outcome r) (fd_fabric r)
    (fd_subject r) (fd_subject_generation r) v (fd_replacement r) (fd_replacement_generation r)
    (fd_attempt_seq r) (fd_attempt_id r) (fd_epoch r) (fd_coordinator r) (fd_authority r)
    (fd_evidence_digest r) (fd_lineage_seq r) (fd_durable r) (fd_idempotent_replay r)
    (fd_reasons r) (fd_candidates r).
Definition set_fd_replacement (v : LinkKey) (r : FailoverDecision) : FailoverDecision :=
  MkDecision (fd_decision_id r) (fd_kind r) (fd_assertion r) (fd_outcome r) (fd_fabric r)
    (fd_subject r) (fd_subject_generation r) (fd_has_replacement r) v (fd_replacement_generation
    r) (fd_attempt_seq r) (fd_attempt_id r) (fd_epoch r) (fd_coordinator r) (fd_authority r)
    (fd_evidence_digest r) (fd_lineage_seq r) (fd_durable r) (fd_idempotent_replay r)
    (fd_reasons r) (fd_candidates r).
Definition set_fd_replacement_generation (v : LinkGeneration) (r : FailoverDecision) : FailoverDecision :=
  MkDecision (fd_decision_id r) (fd_kind r) (fd_assertion r) (fd_outcome r) (fd_fabric r)
    (fd_subject r) (fd_subject_generation r) (fd_has_replacement r) (fd_replacement r) v
    (fd_attempt_seq r) (fd_attempt_id r) (fd_epoch r) (fd_coordinator r) (fd_authority r)
    (fd_evidence_digest r) (fd_lineage_seq r) (fd_durable r) (fd_idempotent_replay r)
    (fd_reasons r) (fd_candidates r).
Definition set_fd_attempt_seq (v : AttemptSeq) (r : FailoverDecision) : FailoverDecision :=
  MkDecision (fd_decision_id r) (fd_kind r) (fd_assertion r) (fd_outcome r) (fd_fabric r)
    (fd_subject r) (fd_subject_generation r) (fd_has_replacement r) (fd_replacement r)
    (fd_replacement_generation r) v (fd_attempt_id r) (fd_epoch r) (fd_coordinator r)
    (fd_authority r) (fd_evidence_digest r) (fd_lineage_seq r) (fd_durable r)
    (fd_idempotent_replay r) (fd_reasons r) (fd_candidates r).
Definition set_fd_attempt_id (v : Digest) (r : FailoverDecision) : FailoverDecision :=
  MkDecision (fd_decision_id r) (fd_kind r) (fd_assertion r) (fd_outcome r) (fd_fabric r)
    (fd_subject r) (fd_subject_generation r) (fd_has_replacement r) (fd_replacement r)
    (fd_replacement_generation r) (fd_attempt_seq r) v (fd_epoch r) (fd_coordinator r)
    (fd_authority r) (fd_evidence_digest r) (fd_lineage_seq r) (fd_durable r)
    (fd_idempotent_replay r) (fd_reasons r) (fd_candidates r).
Definition set_fd_epoch (v : Epoch) (r : FailoverDecision) : FailoverDecision :=
  MkDecision (fd_decision_id r) (fd_kind r) (fd_assertion r) (fd_outcome r) (fd_fabric r)
    (fd_subject r) (fd_subject_generation r) (fd_has_replacement r) (fd_replacement r)
    (fd_replacement_generation r) (fd_attempt_seq r) (fd_attempt_id r) v (fd_coordinator r)
    (fd_authority r) (fd_evidence_digest r) (fd_lineage_seq r) (fd_durable r)
    (fd_idempotent_replay r) (fd_reasons r) (fd_candidates r).
Definition set_fd_coordinator (v : Incarnation) (r : FailoverDecision) : FailoverDecision :=
  MkDecision (fd_decision_id r) (fd_kind r) (fd_assertion r) (fd_outcome r) (fd_fabric r)
    (fd_subject r) (fd_subject_generation r) (fd_has_replacement r) (fd_replacement r)
    (fd_replacement_generation r) (fd_attempt_seq r) (fd_attempt_id r) (fd_epoch r) v
    (fd_authority r) (fd_evidence_digest r) (fd_lineage_seq r) (fd_durable r)
    (fd_idempotent_replay r) (fd_reasons r) (fd_candidates r).
Definition set_fd_authority (v : AuthorityVector) (r : FailoverDecision) : FailoverDecision :=
  MkDecision (fd_decision_id r) (fd_kind r) (fd_assertion r) (fd_outcome r) (fd_fabric r)
    (fd_subject r) (fd_subject_generation r) (fd_has_replacement r) (fd_replacement r)
    (fd_replacement_generation r) (fd_attempt_seq r) (fd_attempt_id r) (fd_epoch r)
    (fd_coordinator r) v (fd_evidence_digest r) (fd_lineage_seq r) (fd_durable r)
    (fd_idempotent_replay r) (fd_reasons r) (fd_candidates r).
Definition set_fd_evidence_digest (v : Digest) (r : FailoverDecision) : FailoverDecision :=
  MkDecision (fd_decision_id r) (fd_kind r) (fd_assertion r) (fd_outcome r) (fd_fabric r)
    (fd_subject r) (fd_subject_generation r) (fd_has_replacement r) (fd_replacement r)
    (fd_replacement_generation r) (fd_attempt_seq r) (fd_attempt_id r) (fd_epoch r)
    (fd_coordinator r) (fd_authority r) v (fd_lineage_seq r) (fd_durable r)
    (fd_idempotent_replay r) (fd_reasons r) (fd_candidates r).
Definition set_fd_lineage_seq (v : LineageSeq) (r : FailoverDecision) : FailoverDecision :=
  MkDecision (fd_decision_id r) (fd_kind r) (fd_assertion r) (fd_outcome r) (fd_fabric r)
    (fd_subject r) (fd_subject_generation r) (fd_has_replacement r) (fd_replacement r)
    (fd_replacement_generation r) (fd_attempt_seq r) (fd_attempt_id r) (fd_epoch r)
    (fd_coordinator r) (fd_authority r) (fd_evidence_digest r) v (fd_durable r)
    (fd_idempotent_replay r) (fd_reasons r) (fd_candidates r).
Definition set_fd_durable (v : bool) (r : FailoverDecision) : FailoverDecision :=
  MkDecision (fd_decision_id r) (fd_kind r) (fd_assertion r) (fd_outcome r) (fd_fabric r)
    (fd_subject r) (fd_subject_generation r) (fd_has_replacement r) (fd_replacement r)
    (fd_replacement_generation r) (fd_attempt_seq r) (fd_attempt_id r) (fd_epoch r)
    (fd_coordinator r) (fd_authority r) (fd_evidence_digest r) (fd_lineage_seq r) v
    (fd_idempotent_replay r) (fd_reasons r) (fd_candidates r).
Definition set_fd_idempotent_replay (v : bool) (r : FailoverDecision) : FailoverDecision :=
  MkDecision (fd_decision_id r) (fd_kind r) (fd_assertion r) (fd_outcome r) (fd_fabric r)
    (fd_subject r) (fd_subject_generation r) (fd_has_replacement r) (fd_replacement r)
    (fd_replacement_generation r) (fd_attempt_seq r) (fd_attempt_id r) (fd_epoch r)
    (fd_coordinator r) (fd_authority r) (fd_evidence_digest r) (fd_lineage_seq r) (fd_durable r)
    v (fd_reasons r) (fd_candidates r).
Definition set_fd_reasons (v : list Reason) (r : FailoverDecision) : FailoverDecision :=
  MkDecision (fd_decision_id r) (fd_kind r) (fd_assertion r) (fd_outcome r) (fd_fabric r)
    (fd_subject r) (fd_subject_generation r) (fd_has_replacement r) (fd_replacement r)
    (fd_replacement_generation r) (fd_attempt_seq r) (fd_attempt_id r) (fd_epoch r)
    (fd_coordinator r) (fd_authority r) (fd_evidence_digest r) (fd_lineage_seq r) (fd_durable r)
    (fd_idempotent_replay r) v (fd_candidates r).
Definition set_fd_candidates (v : list CandidateAssessment) (r : FailoverDecision) : FailoverDecision :=
  MkDecision (fd_decision_id r) (fd_kind r) (fd_assertion r) (fd_outcome r) (fd_fabric r)
    (fd_subject r) (fd_subject_generation r) (fd_has_replacement r) (fd_replacement r)
    (fd_replacement_generation r) (fd_attempt_seq r) (fd_attempt_id r) (fd_epoch r)
    (fd_coordinator r) (fd_authority r) (fd_evidence_digest r) (fd_lineage_seq r) (fd_durable r)
    (fd_idempotent_replay r) (fd_reasons r) v.
(** A default-constructed decision. *)
Definition decision_none : FailoverDecision :=
  MkDecision digest_zero DecisionKind.Indeterminate Assertion.None Outcome.Indeterminate EmptyString
    link_key_none 0 false link_key_none 0 0 digest_zero 0 incarnation_zero authority_none
    digest_zero 0 false false [] [].

(** [if (flag) { ... }] around a group of writes. *)
Definition wr_when (b : bool) (m : WriteM) : WriteM := fun w => if b then m w else w.
Arguments wr_when : simpl never.

Definition replacement_encode (d : FailoverDecision) : WriteM := writes [
  wr_str (lk_fabric (fd_replacement d));
  wr_str (lk_link (fd_replacement d));
  wr_u64 (fd_replacement_generation d)].

Definition decision_id_body (d : FailoverDecision) : WriteM := writes [
  wr_u16 kIdentityFormatVersion;
  wr_str "lff.decision";
  wr_str (fd_fabric d);
  wr_str (lk_fabric (fd_subject d));
  wr_str (lk_link (fd_subject d));
  wr_u64 (fd_subject_generation d);
  wr_u64 (fd_attempt_seq d);
  wr_u16 (enum_code (fd_kind d));
  wr_u16 (enum_code (fd_assertion d));
  wr_u64 (fd_lineage_seq d);
  wr_bool8 (fd_has_replacement d);
  wr_when (fd_has_replacement d) (replacement_encode d)].
Definition decision_compute_id (d : FailoverDecision) : Digest :=
  sha256 (wr_buf (decision_id_body d writer_empty)).
Arguments decision_compute_id : simpl never.

Definition generation_text (key : LinkKey) (generation : Z) : string :=
  (link_key_to_string key +:+ "@" +:+ decimal_text generation)%string.

Fixpoint join_names (sep : string) (names : list string) : string :=
  match names with
  | [] => EmptyString
  | [n] => n
  | n :: rest => (n +:+ sep +:+ join_names sep rest)%string
  end.

Definition decision_to_string (d : FailoverDecision) : string :=
  (decision_kind_name (fd_kind d) +:+ "/" +:+ outcome_name (fd_outcome d) +:+
   " assertion=" +:+ assertion_name (fd_assertion d) +:+
   " subject=" +:+ generation_text (fd_subject d) (fd_subject_generation d) +:+
   " attempt=" +:+ decimal_text (fd_attempt_seq d) +:+
   (if fd_has_replacement d
    then " replacement=" +:+ generation_text (fd_replacement d) (fd_replacement_generation d)
    else "") +:+
   " epoch=" +:+ decimal_text (fd_epoch d) +:+
   (if fd_durable d then " lineage=" +:+ decimal_text (fd_lineage_seq d) else " lineage=none") +:+
   match fd_reasons d with
   | [] => ""
   | rs => " [" +:+ join_names "," (map (fun r => reason_code_name (reason_code r)) rs) +:+ "]"
   end)%string.

Definition decision_canonical_key (d : FailoverDecision) : string :=
  (decision_kind_name (fd_kind d) +:+ "|" +:+ outcome_name (fd_outcome d) +:+ "|" +:+
   assertion_name (fd_assertion d) +:+ "|" +:+
   generation_text (fd_subject d) (fd_subject_generation d) +:+ "|" +:+
   decimal_text (fd_attempt_seq d) +:+ "|" +:+
   (if fd_has_replacement d
    then generation_text (fd_replacement d) (fd_replacement_generation d) else "") +:+ "|" +:+
   decimal_text (fd_epoch d) +:+ "|" +:+ decimal_text (fd_lineage_seq d) +:+
   foldr (fun r rest => "|" +:+ reason_code_name (reason_code r) +:+ ":" +:+ reason_detail r +:+ rest)
     "" (fd_reasons d))%string.

(** ** Candidate assessments inside a decision *)
Definition assessment_encode (a : CandidateAssessment) : WriteM := writes [
  wr_str (lk_fabric (ca_candidate a));
  wr_str (lk_link (ca_candidate a));
  wr_u64 (ca_link_generation a);
  wr_u16 (enum_code (ca_verdict a));
  wr_u16 (enum_code (ca_reason a));
  wr_str_max (ca_detail a) 256;
  wr_u16 (enum_code (ca_state a));
  wr_u32 (ca_confidence a);
  wr_u16 (enum_code (ca_freshness a));
  wr_u64 (ca_age_ticks a);
  wr_u32 (ca_capacity_units a);
  wr_u32 (ca_cost_units a);
  wr_bool8 (ca_adjacency_authorized a);
  wr_digest (ca_evidence_digest a)].

Definition assessment_decode : ReadM (option CandidateAssessment) :=
  let* candidate_fabric := rd_str in
  let* candidate_link := rd_str in
  let* candidate_generation := rd_u64 in
  let* verdict := rd_u16 in
  let* reason := rd_u16 in
  let* detail := rd_str_max 256 in
  let* state := rd_u16 in
  let* confidence := rd_u32 in
  let* freshness := rd_u16 in
  let* age := rd_u64 in
  let* capacity := rd_u32 in
  let* cost := rd_u32 in
  let* adjacency := rd_bool8 in
  let* evidence := rd_digest in
  let* ok := rd_is_ok in
  if negb ok then rret None else
  if ((verdict >=? kVerdictCount) || (reason >=? kReasonCodeCount) ||
      (state >=? kObservationStateCount) || (freshness >=? kFreshnessClassCount) ||
      (confidence >? kMaxConfidence))%bool then rret None else
  ropt (decode_name candidate_fabric) (fun candidate_fabric =>
  ropt (decode_name candidate_link) (fun candidate_link =>
  rret (Some (MkAssessment (MkLinkKey candidate_fabric candidate_link) candidate_generation
    (enum_cast Verdict.Indeterminate verdict) (enum_cast ReasonCode.None reason) detail
    (enum_cast ObservationState.Unknown state) confidence
    (enum_cast FreshnessClass.PriorIncarnation freshness) age capacity cost adjacency evidence)))).

Definition assessment_wf (a : CandidateAssessment) : Prop :=
  link_key_wf (ca_candidate a) /\ is_u64 (ca_link_generation a) /\ text_wf 256 (ca_detail a) /\
  is_confidence (ca_confidence a) /\ is_u64 (ca_age_ticks a) /\ is_u32 (ca_capacity_units a) /\
  is_u32 (ca_cost_units a) /\ digest_wf (ca_evidence_digest a).

#[global] Program Instance assessment_codec : Codec CandidateAssessment := {|
  encode := assessment_encode; decode := assessment_decode; codec_wf := assessment_wf |}.
Next Obligation. intros [[]]. codec_law_solve. rewrite !enum_cast_code. apply reads_ret. Qed.
Next Obligation. unfold assessment_decode. steady_solve. Qed.
Next Obligation. unfold assessment_decode. checked_solve. Qed.

(** ** Decision encoding *)
Definition reasons_encode (reasons : list Reason) : WriteM := writes [
  wr_u32 (Z.of_nat (length reasons));
  wr_each encode reasons].

Definition reasons_decode (limit : Z) : ReadM (option (list Reason)) :=
  let* count := rd_u32 in
  let* ok := rd_is_ok in
  if (negb ok || (count >? limit))%bool then rret None else
  rd_each (Z.to_nat count) decode.

Definition decision_encode (d : FailoverDecision) : WriteM := writes [
  wr_u16 kIdentityFormatVersion;
  wr_digest (fd_decision_id d);
  wr_u16 (enum_code (fd_kind d));
  wr_u16 (enum_code (fd_assertion d));
  wr_u16 (enum_code (fd_outcome d));
  wr_str (fd_fabric d);
  wr_str (lk_fabric (fd_subject d));
  wr_str (lk_link (fd_subject d));
  wr_u64 (fd_subject_generation d);
  wr_bool8 (fd_has_replacement d);
  wr_when (fd_has_replacement d) (replacement_encode d);
  wr_u64 (fd_attempt_seq d);
  wr_digest (fd_attempt_id d);
  wr_u64 (fd_epoch d);
  wr_incarnation (fd_coordinator d);
  encode (fd_authority d);
  wr_digest (fd_evidence_digest d);
  wr_u64 (fd_lineage_seq d);
  wr_bool8 (fd_durable d);
  wr_bool8 (fd_idempotent_replay d);
  reasons_encode (fd_reasons d);
  wr_u32 (Z.of_nat (length (fd_candidates d)));
  wr_each encode (fd_candidates d)].

(** [std::string replacement_fabric; ... if (has_replacement) { ... = reader... }] *)
Definition replacement_decode (has_replacement : bool) : ReadM (string * string * Z) :=
  if has_replacement then
    let* replacement_fabric := rd_str in
    let* replacement_link := rd_str in
    let* replacement_generation := rd_u64 in
    rret (replacement_fabric, replacement_link, replacement_generation)
  else rret (EmptyString, EmptyString, 0).

Definition decision_decode : ReadM (option FailoverDecision) :=
  let* format_version := rd_u16 in
  let* decision_id := rd_digest in
  let* kind := rd_u16 in
  let* assertion := rd_u16 in
  let* outcome := rd_u16 in
  let* fabric := rd_str in
  let* subject_fabric := rd_str in
  let* subject_link := rd_str in
  let* subject_generation := rd_u64 in
  let* has_replacement := rd_bool8 in
  let* replacement := replacement_decode has_replacement in
  let* attempt_seq := rd_u64 in
  let* attempt_id := rd_digest in
  let* epoch := rd_u64 in
  let* coordinator := rd_incarnation in
  let* authority := decode in
  let* evidence_digest := rd_digest in
  let* lineage_seq := rd_u64 in
  let* durable := rd_bool8 in
  let* idempotent_replay := rd_bool8 in
  let* reasons := reasons_decode kMaxDecisionReasons in
  let* candidate_count := rd_u32 in
  let* ok := rd_is_ok in
  if (negb ok || (negb (has_value authority) || negb (has_value reasons)))%bool then rret None else
  if negb (format_version =? kIdentityFormatVersion) then rret None else
  if ((kind >=? kDecisionKindCount) || (assertion >=? kAssertionCount) ||
      (outcome >=? kOutcomeCount) || (candidate_count >? kMaxDecisionCandidates))%bool
  then rret None else
  ropt authority (fun authority =>
  ropt reasons (fun reasons =>
  ropt (decode_name fabric) (fun fabric =>
  ropt (decode_name subject_fabric) (fun subject_fabric =>
  ropt (decode_name subject_link) (fun subject_link =>
  ropt (if has_replacement : bool then decode_name replacement.1.1 else Some EmptyString)
    (fun replacement_fabric =>
  ropt (if has_replacement : bool then decode_name replacement.1.2 else Some EmptyString)
    (fun replacement_link =>
  let* candidates := rd_each (Z.to_nat candidate_count) decode in
  ropt candidates (fun candidates =>
  rret (Some (MkDecision decision_id (enum_cast DecisionKind.Indeterminate kind)
    (enum_cast Assertion.None assertion) (enum_cast Outcome.Indeterminate outcome) fabric
    (MkLinkKey subject_fabric subject_link) subject_generation has_replacement
    (MkLinkKey replacement_fabric replacement_link) replacement.2 attempt_seq attempt_id epoch
    coordinator authority evidence_digest lineage_seq durable idempotent_replay reasons
    candidates)))))))))).

(** A decision without a replacement carries the default one. *)
Definition decision_wf (d : FailoverDecision) : Prop :=
  digest_wf (fd_decision_id d) /\ name_wf (fd_fabric d) /\ link_key_wf (fd_subject d) /\
  is_u64 (fd_subject_generation d) /\ link_key_wf (fd_replacement d) /\
  is_u64 (fd_replacement_generation d) /\
  (fd_has_replacement d = false ->
   fd_replacement d = link_key_none /\ fd_replacement_generation d = 0) /\
  is_u64 (fd_attempt_seq d) /\ digest_wf (fd_attempt_id d) /\ is_u64 (fd_epoch d) /\
  incarnation_wf (fd_coordinator d) /\ authority_wf (fd_authority d) /\
  digest_wf (fd_evidence_digest d) /\ is_u64 (fd_lineage_seq d) /\
  count_wf kMaxDecisionReasons (fd_reasons d) /\ Forall reason_wf (fd_reasons d) /\
  count_wf kMaxDecisionCandidates (fd_candidates d) /\ Forall assessment_wf (fd_candidates d).

Definition replacement_bytes (d : FailoverDecision) : bytes :=
  if fd_has_replacement d then
    (le_bytes 4 (Z.of_nat (String.length (lk_fabric (fd_replacement d)))) ++
     bytes_of_string (lk_fabric (fd_replacement d))) ++
    (le_bytes 4 (Z.of_nat (String.length (lk_link (fd_replacement d)))) ++
     bytes_of_string (lk_link (fd_replacement d))) ++
    le_bytes 8 (fd_replacement_generation d) ++ []
  else [].

Definition reasons_bytes (rs : list Reason) : bytes :=
  le_bytes 4 (Z.of_nat (length rs)) ++ concat (map encoded rs) ++ [].

Lemma emits_reasons rs : Forall reason_wf rs -> emits (reasons_encode rs) (reasons_bytes rs).
Proof. intros H. unfold reasons_encode, reasons_bytes. emits_fields. Qed.

Lemma reads_reasons rs :
  count_wf kMaxDecisionReasons rs -> Forall reason_wf rs ->
  reads (reasons_decode kMaxDecisionReasons) (reasons_bytes rs) (Some rs).
Proof.
  intros Hc Hr. unfold reasons_decode, reasons_bytes. rewrite app_nil_r. reads_fields.
  by apply reads_each_encoded.
Qed.

Lemma emits_replacement d :
  link_key_wf (fd_replacement d) ->
  emits (wr_when (fd_has_replacement d) (replacement_encode d)) (replacement_bytes d).
Proof.
  intros [Hf Hl]. unfold replacement_bytes, wr_when. destruct (fd_has_replacement d); [|exact emits_nil].
  change (emits (replacement_encode d)
    ((le_bytes 4 (Z.of_nat (String.length (lk_fabric (fd_replacement d)))) ++
      bytes_of_string (lk_fabric (fd_replacement d))) ++
     (le_bytes 4 (Z.of_nat (String.length (lk_link (fd_replacement d)))) ++
      bytes_of_string (lk_link (fd_replacement d))) ++
     le_bytes 8 (fd_replacement_generation d) ++ [])).
  unfold replacement_encode. emits_fields.
Qed.

Lemma reads_replacement d :
  link_key_wf (fd_replacement d) -> is_u64 (fd_replacement_generation d) ->
  (fd_has_replacement d = false ->
   fd_replacement d = link_key_none /\ fd_replacement_generation d = 0) ->
  reads (replacement_decode (fd_has_replacement d)) (replacement_bytes d)
    (lk_fabric (fd_replacement d), lk_link (fd_replacement d), fd_replacement_generation d).
Proof.
  intros [Hf Hl] Hg Hn. unfold replacement_bytes, replacement_decode.
  destruct (fd_has_replacement d).
  - reads_fields. apply reads_ret.
  - destruct Hn as [-> ->]; [done|]. apply reads_ret.
Qed.

#[export] Hint Resolve emits_reasons reads_reasons emits_replacement reads_replacement : codec.

Lemma steady_reasons n : steady (reasons_decode n).
Proof. unfold reasons_decode. steady_solve. Qed.
Lemma steady_replacement b : steady (replacement_decode b).
Proof. unfold replacement_decode. steady_solve. Qed.
#[export] Hint Resolve steady_reasons steady_replacement : codec.

#[global] Program Instance decision_codec : Codec FailoverDecision := {|
  encode := decision_encode; decode := decision_decode; codec_wf := decision_wf |}.
Next Obligation.
  intros d (H1 & H2 & [H3 H4] & H5 & H6 & H7 & H8 & H9 & H10 & H11 & H12 & H13 & H14 & H15 & H16 & H17 &
    H18 & H19).
  eexists; split; [unfold decision_encode; emits_fields|].
  unfold decision_decode. reads_fields. rewrite !enum_cast_code.
  destruct (fd_has_replacement d) eqn:E; cbn [fst snd].
  - destruct H6. reads_fields. destruct d as [? ? ? ? ? [] ? ? []]; cbn in *; subst. apply reads_ret.
  - destruct H8 as [Ek Eg]; [done|]. cbn [ropt]. reads_fields. rewrite Eg.
    destruct d as [? ? ? ? ? [] ? ? []]; cbn in *. injection Ek as -> ->. subst. apply reads_ret.
Qed.
Next Obligation. unfold decision_decode. steady_solve. Qed.
Next Obligation. unfold decision_decode. checked_solve. Qed.

(** ** Requests and reports

    Each of them names its subject with the strict identity grammar. *)
Record FailoverRequest := MkFailoverRequest {
  fq_subject : LinkKey;
  fq_subject_generation : LinkGeneration;
  fq_candidates : list ReplacementCandidate;
  fq_expected : AuthorityExpectation;
  fq_idempotency_key : Digest;
}.
#[global] Instance failover_request_eq_dec : EqDecision FailoverRequest.
Proof. solve_decision. Defined.

Definition failover_request_encode (q : FailoverRequest) : WriteM := writes [
  wr_u16 kIdentityFormatVersion;
  wr_str (lk_fabric (fq_subject q));
  wr_str (lk_link (fq_subject q));
  wr_u64 (fq_subject_generation q);
  wr_u32 (Z.of_nat (length (fq_candidates q)));
  wr_each encode (fq_candidates q);
  encode (fq_expected q);
  wr_digest (fq_idempotency_key q)].

Definition failover_request_decode : ReadM (option FailoverRequest) :=
  let* format_version := rd_u16 in
  let* fabric := rd_str in
  let* link := rd_str in
  let* generation := rd_u64 in
  let* count := rd_u32 in
  let* ok := rd_is_ok in
  if (negb ok || negb (format_version =? kIdentityFormatVersion))%bool then rret None else
  if count >? kMaxPolicyCandidates then rret None else
  ropt (result_value (name_parse fabric)) (fun fabric =>
  ropt (result_value (name_parse link)) (fun link =>
  let* candidates := rd_each (Z.to_nat count) decode in
  ropt candidates (fun candidates =>
  let* expected := decode in
  ropt expected (fun expected =>
  let* idempotency_key := rd_digest in
  let* ok := rd_is_ok in
  if negb ok then rret None else
  rret (Some (MkFailoverRequest (MkLinkKey fabric link) generation candidates expected
    idempotency_key)))))).

Definition failover_request_wf (q : FailoverRequest) : Prop :=
  link_key_valid (fq_subject q) /\ is_u64 (fq_subject_generation q) /\
  count_wf kMaxPolicyCandidates (fq_candidates q) /\ Forall candidate_wf (fq_candidates q) /\
  expectation_wf (fq_expected q) /\ digest_wf (fq_idempotency_key q).

#[global] Program Instance failover_request_codec : Codec FailoverRequest := {|
  encode := failover_request_encode; decode := failover_request_decode;
  codec_wf := failover_request_wf |}.
Next Obligation. intros [[]]. codec_law_solve. apply reads_ret. Qed.
Next Obligation. unfold failover_request_decode. steady_solve. Qed.
Next Obligation. unfold failover_request_decode. checked_solve. Qed.
Definition failover_request_digest (q : FailoverRequest) : Digest := encoded_digest q.

Record RollbackRequest := MkRollbackRequest {
  bq_subject : LinkKey;
  bq_subject_generation : LinkGeneration;
  bq_attempt_seq : AttemptSeq;
  bq_expected : AuthorityExpectation;
  bq_idempotency_key : Digest;
  bq_rationale : string;
}.

Definition rollback_request_encode (q : RollbackRequest) : WriteM := writes [
  wr_u16 kIdentityFormatVersion;
  wr_str (lk_fabric (bq_subject q));
  wr_str (lk_link (bq_subject q));
  wr_u64 (bq_subject_generation q);
  wr_u64 (bq_attempt_seq q);
  encode (bq_expected q);
  wr_digest (bq_idempotency_key q);
  wr_str_max (bq_rationale q) 256].

Definition rollback_request_decode : ReadM (option RollbackRequest) :=
  let* format_version := rd_u16 in
  let* fabric := rd_str in
  let* link := rd_str in
  let* generation := rd_u64 in
  let* attempt_seq := rd_u64 in
  let* ok := rd_is_ok in
  if (negb ok || negb (format_version =? kIdentityFormatVersion))%bool then rret None else
  ropt (result_value (name_parse fabric)) (fun fabric =>
  ropt (result_value (name_parse link)) (fun link =>
  let* expected := decode in
  ropt expected (fun expected =>
  let* idempotency_key := rd_digest in
  let* rationale := rd_str_max 256 in
  let* ok := rd_is_ok in
  if negb ok then rret None else
  rret (Some (MkRollbackRequest (MkLinkKey fabric link) generation attempt_seq expected
    idempotency_key rationale))))).

Definition rollback_request_wf (q : RollbackRequest) : Prop :=
  link_key_valid (bq_subject q) /\ is_u64 (bq_subject_generation q) /\
  is_u64 (bq_attempt_seq q) /\ expectation_wf (bq_expected q) /\
  digest_wf (bq_idempotency_key q) /\ text_wf 256 (bq_rationale q).

#[global] Program Instance rollback_request_codec : Codec RollbackRequest := {|
  encode := rollback_request_encode; decode := rollback_request_decode;
  codec_wf := rollback_request_wf |}.
Next Obligation. intros [[]]. codec_law_solve. apply reads_ret. Qed.
Next Obligation. unfold rollback_request_decode. steady_solve. Qed.
Next Obligation. unfold rollback_request_decode. checked_solve. Qed.
Definition rollback_request_digest (q : RollbackRequest) : Digest := encoded_digest q.

Record RevalidationRequest := MkRevalidationRequest {
  vq_subject : LinkKey;
  vq_subject_generation : LinkGeneration;
  vq_attempt_seq : AttemptSeq;
  vq_verdict : RevalidationVerdict;
  vq_observer_incarnation : Incarnation;
  vq_observer_epoch : Epoch;
  vq_rationale : string;
}.

Definition revalidation_request_encode (q : RevalidationRequest) : WriteM := writes [
  wr_u16 kIdentityFormatVersion;
  wr_str (lk_fabric (vq_subject q));
  wr_str (lk_link (vq_subject q));
  wr_u64 (vq_subject_generation q);
  wr_u64 (vq_attempt_seq q);
  wr_u16 (enum_code (vq_verdict q));
  wr_incarnation (vq_observer_incarnation q);
  wr_u64 (vq_observer_epoch q);
  wr_str_max (vq_rationale q) 256].

Definition revalidation_request_decode : ReadM (option RevalidationRequest) :=
  let* format_version := rd_u16 in
  let* fabric := rd_str in
  let* link := rd_str in
  let* generation := rd_u64 in
  let* attempt_seq := rd_u64 in
  let* verdict := rd_u16 in
  let* observer := rd_incarnation in
  let* observer_epoch := rd_u64 in
  let* rationale := rd_str_max 256 in
  let* ok := rd_is_ok in
  if (negb ok || negb (format_version =? kIdentityFormatVersion))%bool then rret None else
  if verdict >=? kRevalidationVerdictCount then rret None else
  ropt (result_value (name_parse fabric)) (fun fabric =>
  ropt (result_value (name_parse link)) (fun link =>
  rret (Some (MkRevalidationRequest (MkLinkKey fabric link) generation attempt_seq
    (enum_cast RevalidationVerdict.Unknown verdict) observer observer_epoch rationale)))).

Definition revalidation_request_wf (q : RevalidationRequest) : Prop :=
  link_key_valid (vq_subject q) /\ is_u64 (vq_subject_generation q) /\
  is_u64 (vq_attempt_seq q) /\ incarnation_wf (vq_observer_incarnation q) /\
  is_u64 (vq_observer_epoch q) /\ text_wf 256 (vq_rationale q).

#[global] Program Instance revalidation_request_codec : Codec RevalidationRequest := {|
  encode := revalidation_request_encode; decode := revalidation_request_decode;
  codec_wf := revalidation_request_wf |}.
Next Obligation. intros [[]]. codec_law_solve. rewrite enum_cast_code. apply reads_ret. Qed.
Next Obligation. unfold revalidation_request_decode. steady_solve. Qed.
Next Obligation. unfold revalidation_request_decode. checked_solve. Qed.

Record ApplicationReport := MkApplicationReport {
  ar_subject : LinkKey;
  ar_subject_generation : LinkGeneration;
  ar_attempt_seq : AttemptSeq;
  ar_attempt_id : Digest;
  ar_applier_incarnation : Incarnation;
  ar_applier_epoch : Epoch;
  ar_accepted : bool;
  ar_detail : string;
}.

Definition application_report_encode (r : ApplicationReport) : WriteM := writes [
  wr_u16 kIdentityFormatVersion;
  wr_str (lk_fabric (ar_subject r));
  wr_str (lk_link (ar_subject r));
  wr_u64 (ar_subject_generation r);
  wr_u64 (ar_attempt_seq r);
  wr_digest (ar_attempt_id r);
  wr_incarnation (ar_applier_incarnation r);
  wr_u64 (ar_applier_epoch r);
  wr_bool8 (ar_accepted r);
  wr_str_max (ar_detail r) 256].

Definition application_report_decode : ReadM (option ApplicationReport) :=
  let* format_version := rd_u16 in
  let* fabric := rd_str in
  let* link := rd_str in
  let* generation := rd_u64 in
  let* attempt_seq := rd_u64 in
  let* attempt_id := rd_digest in
  let* applier := rd_incarnation in
  let* applier_epoch := rd_u64 in
  let* accepted := rd_bool8 in
  let* detail := rd_str_max 256 in
  let* ok := rd_is_ok in
  if (negb ok || negb (format_version =? kIdentityFormatVersion))%bool then rret None else
  ropt (result_value (name_parse fabric)) (fun fabric =>
  ropt (result_value (name_parse link)) (fun link =>
  rret (Some (MkApplicationReport (MkLinkKey fabric link) generation attempt_seq attempt_id
    applier applier_epoch accepted detail)))).

Definition application_report_wf (r : ApplicationReport) : Prop :=
  link_key_valid (ar_subject r) /\ is_u64 (ar_subject_generation r) /\
  is_u64 (ar_attempt_seq r) /\ digest_wf (ar_attempt_id r) /\
  incarnation_wf (ar_applier_incarnation r) /\ is_u64 (ar_applier_epoch r) /\
  text_wf 256 (ar_detail r).

#[global] Program Instance application_report_codec : Codec ApplicationReport := {|
  encode := application_report_encode; decode := application_report_decode;
  codec_wf := application_report_wf |}.
Next Obligation. intros [[]]. codec_law_solve. apply reads_ret. Qed.
Next Obligation. unfold application_report_decode. steady_solve. Qed.
Next Obligation. unfold application_report_decode. checked_solve. Qed.

Record VerificationReport := MkVerificationReport {
  vr_subject : LinkKey;
  vr_subject_generation : LinkGeneration;
  vr_attempt_seq : AttemptSeq;
  vr_attempt_id : Digest;
  vr_verifier_incarnation : Incarnation;
  vr_verifier_epoch : Epoch;
  vr_effect_observed : bool;
  vr_detail : string;
}.

Definition verification_report_encode (r : VerificationReport) : WriteM := writes [
  wr_u16 kIdentityFormatVersion;
  wr_str (lk_fabric (vr_subject r));
  wr_str (lk_link (vr_subject r));
  wr_u64 (vr_subject_generation r);
  wr_u64 (vr_attempt_seq r);
  wr_digest (vr_attempt_id r);
  wr_incarnation (vr_verifier_incarnation r);
  wr_u64 (vr_verifier_epoch r);
  wr_bool8 (vr_effect_observed r);
  wr_str_max (vr_detail r) 256].

Definition verification_report_decode : ReadM (option VerificationReport) :=
  let* format_version := rd_u16 in
  let* fabric := rd_str in
  let* link := rd_str in
  let* generation := rd_u64 in
  let* attempt_seq := rd_u64 in
  let* attempt_id := rd_digest in
  let* verifier := rd_incarnation in
  let* verifier_epoch := rd_u64 in
  let* observed := rd_bool8 in
  let* detail := rd_str_max 256 in
  let* ok := rd_is_ok in
  if (negb ok || negb (format_version =? kIdentityFormatVersion))%bool then rret None else
  ropt (result_value (name_parse fabric)) (fun fabric =>
  ropt (result_value (name_parse link)) (fun link =>
  rret (Some (MkVerificationReport (MkLinkKey fabric link) generation attempt_seq attempt_id
    verifier verifier_epoch observed detail)))).

Definition verification_report_wf (r : VerificationReport) : Prop :=
  link_key_valid (vr_subject r) /\ is_u64 (vr_subject_generation r) /\
  is_u64 (vr_attempt_seq r) /\ digest_wf (vr_attempt_id r) /\
  incarnation_wf (vr_verifier_incarnation r) /\ is_u64 (vr_verifier_epoch r) /\
  text_wf 256 (vr_detail r).

#[global] Program Instance verification_report_codec : Codec VerificationReport := {|
  encode := verification_report_encode; decode := verification_report_decode;
  codec_wf := verification_report_wf |}.
Next Obligation. intros [[]]. codec_law_solve. apply reads_ret. Qed.
Next Obligation. unfold verification_report_decode. steady_solve. Qed.
Next Obligation. unfold verification_report_decode. checked_solve. Qed.

Lemma decision_kind_parse_name v : decision_kind_parse (decision_kind_name v) = Some v.
Proof. table_roundtrip. Qed.
Lemma assertion_parse_name v : assertion_parse (assertion_name v) = Some v.
Proof. table_roundtrip. Qed.
