(* ===== verification/Selector.v ===== *)
(** * Replacement selection

    Models include/lff/selector.hpp and src/selector.cpp: the verdict on each
    resolved candidate, the canonical order, the trichotomy (selected, proven
    infeasible, indeterminate), the lexicographic objective with its search loop,
    and the independent validation of an outcome. The theorems state the contract
    of the header: valid, correct, complete, optimal and deterministic. *)
From S2P Require Import Prelude Status Hash Ids Bytes Evidence Policy.

(** ** Data *)
Module SelectionStatus.
Inductive SelectionStatus :=
| Selected
| ProvenInfeasible
| Indeterminate
| EmptyCandidateSet.
End SelectionStatus.
Abbreviation SelectionStatus := SelectionStatus.SelectionStatus.

Definition selection_status_code (v : SelectionStatus) : Z :=
  match v with
  | SelectionStatus.Selected => 0
  | SelectionStatus.ProvenInfeasible => 1
  | SelectionStatus.Indeterminate => 2
  | SelectionStatus.EmptyCandidateSet => 3
  end.

#[global] Instance selection_status_enum : EnumCode SelectionStatus := {|
  enum_values :=
    [SelectionStatus.Selected; SelectionStatus.ProvenInfeasible;
     SelectionStatus.Indeterminate; SelectionStatus.EmptyCandidateSet];
  enum_code := selection_status_code;
  enum_nonneg := ltac:(by intros []);
  enum_nth := ltac:(by intros []);
|}.
#[global] Instance selection_status_eq_dec : EqDecision SelectionStatus := enum_eq_dec.

Definition kSelectionStatusNames : list (SelectionStatus * string) := [
  (SelectionStatus.Selected, "Selected");
  (SelectionStatus.ProvenInfeasible, "ProvenInfeasible");
  (SelectionStatus.Indeterminate, "Indeterminate");
  (SelectionStatus.EmptyCandidateSet, "EmptyCandidateSet")
].

Definition selection_status_name (v : SelectionStatus) : string :=
  table_name "UnrecognisedSelectionStatus" kSelectionStatusNames v.

Record ResolvedCandidate := MkResolved {
  rs_candidate : LinkKey;
  rs_link_generation : LinkGeneration;
  rs_evidence_present : bool;
  rs_report : ReplacementReport;
  rs_evidence_digest : Digest;
  rs_freshness : FreshnessClass;
  rs_age_ticks : Z;
  rs_generation_asserted : bool;
  rs_generation_matched : bool;
  rs_conflicted : bool;
}.

Record SelectionInput := MkSelectionInput {
  si_fabric : string;
  si_subject : LinkKey;
  si_subject_generation : LinkGeneration;
  si_topology_generation : TopologyGeneration;
  si_policy_generation : PolicyGeneration;
  si_policy : FailoverPolicy;
  si_min_replacement_capacity : Z;
  si_candidates : list ResolvedCandidate;
  si_epoch : Epoch;
  si_coordinator : Incarnation;
}.

Record ObjectiveKey := MkObjective {
  ok_adjacency_authorized : bool;
  ok_confidence : Z;
  ok_age_ticks : Z;
  ok_capacity_units : Z;
  ok_cost_units : Z;
  ok_link_generation : Z;
  ok_link_name : string;
}.

Record SelectionOutcome := MkSelectionOutcome {
  so_status : SelectionStatus;
  so_summary : ReasonCode;
  so_selected_index : option nat;
  so_assessments : list CandidateAssessment;
  so_eligible_count : nat;
  so_disproven_count : nat;
  so_indeterminate_count : nat;
}.

(** ** Objective *)
Definition objective_from (a : CandidateAssessment) : ObjectiveKey :=
  MkObjective (ca_adjacency_authorized a) (ca_confidence a) (ca_age_ticks a) (ca_capacity_units a)
    (ca_cost_units a) (ca_link_generation a) (lk_link (ca_candidate a)).

Definition objective_better (a b : ObjectiveKey) : bool :=
  if negb (eqb (ok_adjacency_authorized a) (ok_adjacency_authorized b))
  then ok_adjacency_authorized a
  else if negb (ok_confidence a =? ok_confidence b) then ok_confidence a >? ok_confidence b
  else if negb (ok_age_ticks a =? ok_age_ticks b) then ok_age_ticks a <? ok_age_ticks b
  else if negb (ok_capacity_units a =? ok_capacity_units b)
  then ok_capacity_units a >? ok_capacity_units b
  else if negb (ok_cost_units a =? ok_cost_units b) then ok_cost_units a <? ok_cost_units b
  else if negb (ok_link_generation a =? ok_link_generation b)
  then ok_link_generation a >? ok_link_generation b
  else string_ltb (ok_link_name a) (ok_link_name b).

(** ** Assessment of one candidate *)
Definition reason_is_conclusive (code : ReasonCode) : bool :=
  match code with
  | ReasonCode.ReplacementIsSubject | ReasonCode.ReplacementStateUnusable
  | ReasonCode.ReplacementNotEligible | ReasonCode.ReplacementInsufficientCapacity
  | ReasonCode.ReplacementNotAdjacencyAuthorized => true
  | _ => false
  end.

(** The chain of tests: the first that applies decides. *)
Definition assess_verdict (input : SelectionInput) (r : ResolvedCandidate) :
    Verdict * ReasonCode * string :=
  let report := rs_report r in
  let policy := si_policy input in
  if bool_decide (rs_candidate r = si_subject input)
  then (Verdict.Disproven, ReasonCode.ReplacementIsSubject, "a link cannot replace itself"%string)
  else if rs_conflicted r
  then (Verdict.Indeterminate, ReasonCode.EvidenceConflicted,
        "current qualified observations contradict each other"%string)
  else if negb (rs_evidence_present r)
  then (Verdict.Indeterminate, ReasonCode.EvidenceMissing,
        "no current evidence for this candidate"%string)
  else if (rs_generation_asserted r && negb (rs_generation_matched r))%bool
  then (Verdict.Indeterminate, ReasonCode.ReplacementGenerationMismatch,
        "asserted replacement generation does not match retained evidence"%string)
  else if enum_eqb (rs_freshness r) FreshnessClass.PriorIncarnation
  then (Verdict.Indeterminate, ReasonCode.EvidenceFromPriorIncarnation,
        "evidence was received by a previous coordinator incarnation"%string)
  else if enum_eqb (rs_freshness r) FreshnessClass.Expired
  then (Verdict.Indeterminate, ReasonCode.EvidenceStale,
        "evidence is older than the policy window"%string)
  else if enum_eqb (rs_freshness r) FreshnessClass.Future
  then (Verdict.Indeterminate, ReasonCode.EvidenceStale,
        "evidence receipt tick is ahead of the coordinator clock"%string)
  else if rr_confidence report <? fp_min_replacement_confidence policy
  then (Verdict.Indeterminate, ReasonCode.EvidenceLowConfidence,
        "evidence confidence is below the policy threshold"%string)
  else if enum_eqb (rr_state report) ObservationState.Unknown
  then (Verdict.Indeterminate, ReasonCode.EvidenceUnknown,
        "publisher reported an unknown state"%string)
  else if (enum_eqb (rr_state report) ObservationState.Down ||
           enum_eqb (rr_state report) ObservationState.Unusable)%bool
  then (Verdict.Disproven, ReasonCode.ReplacementStateUnusable,
        "current evidence shows the candidate is not usable"%string)
  else if (enum_eqb (rr_state report) ObservationState.Degraded &&
           negb (fp_allow_degraded_replacement policy))%bool
  then (Verdict.Disproven, ReasonCode.ReplacementNotEligible,
        "degraded candidates are not accepted by policy"%string)
  else if rr_capacity_units report <? si_min_replacement_capacity input
  then (Verdict.Disproven, ReasonCode.ReplacementInsufficientCapacity,
        "declared capacity is below the required minimum"%string)
  else if (fp_require_adjacency_authorization policy && negb (rr_adjacency_authorized report))%bool
  then (Verdict.Disproven, ReasonCode.ReplacementNotAdjacencyAuthorized,
        "adjacent authority has not authorized this link"%string)
  else (Verdict.Eligible, ReasonCode.SelectedHighestObjective, EmptyString).

Definition assess (input : SelectionInput) (r : ResolvedCandidate) : CandidateAssessment :=
  let '(verdict, reason, detail) := assess_verdict input r in
  MkAssessment (rs_candidate r) (rs_link_generation r) verdict reason detail
    (rr_state (rs_report r)) (rr_confidence (rs_report r)) (rs_freshness r) (rs_age_ticks r)
    (rr_capacity_units (rs_report r)) (rr_cost_units (rs_report r))
    (rr_adjacency_authorized (rs_report r)) (rs_evidence_digest r).

(** ** Selection *)
Definition verdict_is (v : Verdict) (a : CandidateAssessment) : bool := enum_eqb (ca_verdict a) v.
Definition count_verdict (v : Verdict) (l : list CandidateAssessment) : nat :=
  length (filter (fun a => verdict_is v a = true) l).

(** The search loop: [best] is [None] while it still equals the list's size. *)
Fixpoint best_loop (i : nat) (best : option (nat * ObjectiveKey)) (l : list CandidateAssessment) :
    option (nat * ObjectiveKey) :=
  match l with
  | [] => best
  | a :: rest =>
      if negb (verdict_is Verdict.Eligible a) then best_loop (S i) best rest
      else
        let key := objective_from a in
        best_loop (S i)
          (match best with
           | None => Some (i, key)
           | Some (_, best_key) => if objective_better key best_key then Some (i, key) else best
           end) rest
  end.

Definition select_replacement (input : SelectionInput) : SelectionOutcome :=
  match si_candidates input with
  | [] => MkSelectionOutcome SelectionStatus.EmptyCandidateSet ReasonCode.CandidateSetEmpty None [] 0 0 0
  | _ =>
      let assessments :=
        std_sort candidate_assessment_less (map (assess input) (si_candidates input)) in
      let eligible := count_verdict Verdict.Eligible assessments in
      let disproven := count_verdict Verdict.Disproven assessments in
      let indeterminate := count_verdict Verdict.Indeterminate assessments in
      let done status summary index :=
        MkSelectionOutcome status summary index assessments eligible disproven indeterminate in
      if Nat.eqb eligible 0 then
        if Nat.eqb indeterminate 0
        then done SelectionStatus.ProvenInfeasible ReasonCode.CertifiedInfeasible None
        else done SelectionStatus.Indeterminate ReasonCode.SelectionIndeterminate None
      else match best_loop 0 None assessments with
      | None => done SelectionStatus.Indeterminate ReasonCode.SelectionIndeterminate None
      | Some (best, _) => done SelectionStatus.Selected ReasonCode.SelectedHighestObjective (Some best)
      end
  end.

(** ** Validation of an outcome *)
Definition selection_error (code : ReasonCode) (detail : string) : Status :=
  status_failure Outcome.Indeterminate code detail.

(** The double loop over pairs [i < j]. *)
Fixpoint has_duplicate (l : list ResolvedCandidate) : bool :=
  match l with
  | [] => false
  | r :: rest =>
      (existsb (fun r' => bool_decide (rs_candidate r = rs_candidate r')) rest || has_duplicate rest)%bool
  end.

Definition assessment_found (input : SelectionInput) (a : CandidateAssessment) : bool :=
  existsb (fun r => (bool_decide (rs_candidate r = ca_candidate a) &&
                     (rs_link_generation r =? ca_link_generation a))%bool) (si_candidates input).

Fixpoint validate_assessments (input : SelectionInput) (l : list CandidateAssessment) : Status :=
  match l with
  | [] => status_success
  | a :: rest =>
      if negb (assessment_found input a)
      then selection_error ReasonCode.InternalError
             "assessment names a candidate that was not in the input"
      else if (verdict_is Verdict.Disproven a && negb (reason_is_conclusive (ca_reason a)))%bool
      then selection_error ReasonCode.InternalError
             "a candidate was disproven for a non-conclusive reason"
      else validate_assessments input rest
  end.

Definition validate_selected (input : SelectionInput) (outcome : SelectionOutcome) : Status :=
  match so_selected_index outcome with
  | None => selection_error ReasonCode.InternalError "selected outcome without a valid selected index"
  | Some i =>
      match so_assessments outcome !! i with
      | None => selection_error ReasonCode.InternalError
                  "selected outcome without a valid selected index"
      | Some chosen =>
          if negb (verdict_is Verdict.Eligible chosen)
          then selection_error ReasonCode.InternalError "selected candidate is not eligible"
          else if bool_decide (ca_candidate chosen = si_subject input)
          then selection_error ReasonCode.InternalError "selected candidate is the failed subject"
          else if existsb (fun a => (verdict_is Verdict.Eligible a &&
                    objective_better (objective_from a) (objective_from chosen))%bool)
                    (so_assessments outcome)
          then selection_error ReasonCode.InternalError
                 "selected candidate is not the maximum of the objective"
          else status_success
      end
  end.

Definition validate_selection (input : SelectionInput) (outcome : SelectionOutcome) : Status :=
  if negb (Nat.eqb (length (so_assessments outcome)) (length (si_candidates input)))
  then selection_error ReasonCode.InternalError "assessment count does not match candidate count"
  else if has_duplicate (si_candidates input)
  then selection_error ReasonCode.InvalidArgument "candidate set contains a duplicate link"
  else let s := validate_assessments input (so_assessments outcome) in
  if negb (status_ok s) then s
  else match so_status outcome with
  | SelectionStatus.EmptyCandidateSet =>
      if negb (Nat.eqb (length (si_candidates input)) 0)
      then selection_error ReasonCode.InternalError
             "empty-candidate outcome with a non-empty candidate set"
      else status_success
  | SelectionStatus.ProvenInfeasible =>
      if (negb (Nat.eqb (so_eligible_count outcome) 0) ||
          negb (Nat.eqb (so_indeterminate_count outcome) 0))%bool
      then selection_error ReasonCode.InternalError
             "infeasibility claimed while candidates remain undecided"
      else status_success
  | SelectionStatus.Indeterminate =>
      if negb (Nat.eqb (so_eligible_count outcome) 0)
      then selection_error ReasonCode.InternalError
             "indeterminate outcome with an eligible candidate present"
      else status_success
  | SelectionStatus.Selected => validate_selected input outcome
  end.

Definition selection_outcome_to_string (o : SelectionOutcome) : string :=
  (selection_status_name (so_status o) +:+
   " eligible=" +:+ decimal_text (Z.of_nat (so_eligible_count o)) +:+
   " disproven=" +:+ decimal_text (Z.of_nat (so_disproven_count o)) +:+
   " indeterminate=" +:+ decimal_text (Z.of_nat (so_indeterminate_count o)) +:+
   match so_selected_index o ≫= fun i => so_assessments o !! i with
   | Some a => " selected=" +:+ link_key_to_string (ca_candidate a)
   | None => ""
   end)%string.

(** ** The objective is a strict order *)
Definition bool_better (a b : bool) : bool := (a && negb b)%bool.
#[global] Instance bool_better_total : StrictTotal bool_better.
Proof. split; [by intros []|by intros [] [] []|by intros [] []]. Qed.

Definition objective_tuple (k : ObjectiveKey) :=
  (ok_adjacency_authorized k, (ok_confidence k, (ok_age_ticks k, (ok_capacity_units k,
    (ok_cost_units k, (ok_link_generation k, ok_link_name k)))))).
Definition objective_lex :=
  lex_ltb bool_better (lex_ltb Z.gtb (lex_ltb Z.ltb (lex_ltb Z.gtb (lex_ltb Z.ltb
    (lex_ltb Z.gtb string_ltb))))).

Lemma lex_neq_Z (lt : Z -> Z -> bool) {B} (lt2 : B -> B -> bool) x1 x2 y1 y2 `{!StrictTotal lt} :
  lex_ltb lt lt2 (x1, x2) (y1, y2) = if negb (x1 =? y1) then lt x1 y1 else lt2 x2 y2.
Proof.
  unfold lex_ltb; cbn. destruct (Z.eqb_spec x1 y1) as [->|Hn]; cbn; [by rewrite st_irrefl|].
  destruct (lt x1 y1) eqn:E1; [done|]. destruct (lt y1 x1) eqn:E2; [done|].
  by pose proof (st_total _ _ E1 E2).
Qed.

Lemma objective_better_lex a b :
  objective_better a b = objective_lex (objective_tuple a) (objective_tuple b).
Proof.
  unfold objective_better, objective_lex, objective_tuple.
  unfold lex_ltb at 1; cbn [fst snd].
  destruct (ok_adjacency_authorized a), (ok_adjacency_authorized b); cbn; try done;
    by rewrite !lex_neq_Z by apply _.
Qed.

(** The objective is a strict total order on objective keys. *)
#[global] Instance objective_better_strict_total : StrictTotal objective_better.
Proof.
  split.
  - intros x. rewrite objective_better_lex. apply st_irrefl.
  - intros x y z. rewrite !objective_better_lex. apply st_trans.
  - intros [] []. rewrite !objective_better_lex. intros H1 H2.
    pose proof (st_total (ltb := objective_lex) _ _ H1 H2) as E. unfold objective_tuple in E.
    cbn in E. by simplify_eq.
Qed.

(** ** The search loop finds the maximum *)
Definition best_of (l : list CandidateAssessment) (best : option (nat * ObjectiveKey)) : Prop :=
  match best with
  | None => forall a, a ∈ l -> verdict_is Verdict.Eligible a = false
  | Some (i, key) => exists a, l !! i = Some a /\ verdict_is Verdict.Eligible a = true /\
      key = objective_from a /\
      forall b, b ∈ l -> verdict_is Verdict.Eligible b = true ->
        objective_better (objective_from b) key = false
  end.

Lemma best_of_skip l best a :
  best_of l best -> verdict_is Verdict.Eligible a = false -> best_of (l ++ [a]) best.
Proof.
  intros Hb Ha. destruct best as [[i key]|]; cbn in *.
  - destruct Hb as (c & Hc & He & Hk & Hm). exists c. split; [by apply lookup_app_l_Some|].
    split; [done|split; [done|]]. intros b. rewrite elem_of_app, list_elem_of_singleton.
    intros [Hb| ->]; [by apply Hm|congruence].
  - intros b. rewrite elem_of_app, list_elem_of_singleton. intros [Hb'| ->]; auto.
Qed.

Lemma best_of_take l best a :
  best_of l best -> verdict_is Verdict.Eligible a = true ->
  best_of (l ++ [a])
    (match best with
     | None => Some (length l, objective_from a)
     | Some (_, best_key) =>
         if objective_better (objective_from a) best_key then Some (length l, objective_from a) else best
     end).
Proof.
  intros Hb Ha.
  assert (Hnew : (forall b, b ∈ l -> verdict_is Verdict.Eligible b = true ->
      objective_better (objective_from b) (objective_from a) = false) ->
      best_of (l ++ [a]) (Some (length l, objective_from a))).
  { intros H. exists a. split; [by rewrite lookup_app_r, Nat.sub_diag by done|].
    split; [done|split; [done|]]. intros b. rewrite elem_of_app, list_elem_of_singleton.
    intros [Hb'| ->]; [by apply H|intros _; apply st_irrefl]. }
  destruct best as [[i key]|].
  - destruct Hb as (c & Hc & He & Hk & Hm). destruct (objective_better (objective_from a) key) eqn:E.
    + apply Hnew. intros b Hb Hbe. destruct (objective_better (objective_from b) (objective_from a)) eqn:E'; [|done].
      pose proof (st_trans _ _ _ E' E) as C. by rewrite Hm in C.
    + exists c. split; [by apply lookup_app_l_Some|]. split; [done|split; [done|]].
      intros b. rewrite elem_of_app, list_elem_of_singleton. intros [Hb| ->]; [by apply Hm|done].
  - apply Hnew. intros b Hb' Hbe. cbn in Hb. by rewrite Hb in Hbe.
Qed.

Lemma best_loop_best pre best l :
  best_of pre best -> best_of (pre ++ l) (best_loop (length pre) best l).
Proof.
  revert pre best. induction l as [|a l IH]; intros pre best Hb; [by rewrite app_nil_r|].
  cbn [best_loop]. rewrite cons_middle, app_assoc.
  assert (E : S (length pre) = length (pre ++ [a])) by (rewrite length_app; cbn; lia).
  destruct (verdict_is Verdict.Eligible a) eqn:Ea; cbn [negb]; rewrite E; apply IH.
  - by apply best_of_take.
  - by apply best_of_skip.
Qed.

Lemma best_loop_spec l : best_of l (best_loop 0 None l).
Proof. apply (best_loop_best []). by intros ? ?%elem_of_nil. Qed.

(** ** Verdicts *)
(** What a candidate must show, under current evidence, to be eligible. *)
Record qualified (input : SelectionInput) (r : ResolvedCandidate) : Prop := {
  q_not_subject : rs_candidate r <> si_subject input;
  q_not_conflicted : rs_conflicted r = false;
  q_present : rs_evidence_present r = true;
  q_generation : rs_generation_asserted r = true -> rs_generation_matched r = true;
  q_current : rs_freshness r = FreshnessClass.Current;
  q_confidence : fp_min_replacement_confidence (si_policy input) <= rr_confidence (rs_report r);
  q_state : rr_state (rs_report r) = ObservationState.Up \/
    (rr_state (rs_report r) = ObservationState.Degraded /\
     fp_allow_degraded_replacement (si_policy input) = true);
  q_capacity : si_min_replacement_capacity input <= rr_capacity_units (rs_report r);
  q_adjacency : fp_require_adjacency_authorization (si_policy input) = true ->
    rr_adjacency_authorized (rs_report r) = true;
}.

Lemma assess_fields input r :
  ca_candidate (assess input r) = rs_candidate r /\
  ca_link_generation (assess input r) = rs_link_generation r /\
  (ca_verdict (assess input r), ca_reason (assess input r), ca_detail (assess input r)) =
    assess_verdict input r.
Proof. unfold assess. by destruct (assess_verdict input r) as [[v c] d]. Qed.

Lemma verdict_is_spec v a : verdict_is v a = true <-> ca_verdict a = v.
Proof. apply enum_eqb_eq. Qed.

Lemma assess_eligible_iff input r :
  verdict_is Verdict.Eligible (assess input r) = true <-> qualified input r.
Proof.
  rewrite verdict_is_spec. destruct (assess_fields input r) as (_ & _ & E).
  apply (f_equal (fun x => x.1.1)) in E. cbn [fst] in E. rewrite E. clear E.
  unfold assess_verdict. split.
  - repeat (case_if; [done|]). intros _. bool_prop. split; try done.
    + intros Hg. rewrite Hg in *. by destruct (rs_generation_matched r).
    + by destruct (rs_freshness r).
    + destruct (rr_state (rs_report r)); try done; [by left|].
      right. split; [done|]. by destruct (fp_allow_degraded_replacement _).
    + intros Hg. rewrite Hg in *. by destruct (rr_adjacency_authorized _).
  - intros [H1 H2 H3 H4 H5 H6 H7 H8 H9]. rewrite bool_decide_eq_false_2 by done.
    rewrite H2, H3, H5. cbn [negb].
    destruct (rs_generation_asserted r) eqn:Ea; [rewrite H4 by done|]; cbn [andb negb];
      rewrite (proj2 (Z.ltb_ge _ _)) by done; rewrite (proj2 (Z.ltb_ge _ _)) by done;
      destruct (fp_require_adjacency_authorization _);
      rewrite ?H9 by done; destruct H7 as [->|[-> ->]]; done.
Qed.

Lemma assess_disproven_conclusive input r :
  verdict_is Verdict.Disproven (assess input r) = true ->
  reason_is_conclusive (ca_reason (assess input r)) = true.
Proof.
  rewrite verdict_is_spec. destruct (assess_fields input r) as (_ & _ & E).
  pose proof (f_equal (fun x => x.1.1) E) as Ev. pose proof (f_equal (fun x => x.1.2) E) as Er.
  cbn [fst snd] in Ev, Er. rewrite Ev, Er. unfold assess_verdict. by repeat case_if.
Qed.

(** ** Counts *)
Lemma count_verdict_0 v l :
  count_verdict v l = 0%nat <-> forall a, a ∈ l -> verdict_is v a = false.
Proof.
  unfold count_verdict. rewrite length_zero_iff_nil. induction l as [|a l IH].
  { split; [by intros _ ? ?%elem_of_nil|done]. }
  rewrite filter_cons. case_decide as Ha.
  - split; [done|]. intros H. rewrite (H a) in Ha by constructor. done.
  - rewrite IH. split.
    + intros H b. rewrite elem_of_cons. intros [->|Hb]; [by apply not_true_is_false|auto].
    + intros H b Hb. apply H. by constructor.
Qed.

Lemma elem_of_assessments input a :
  a ∈ std_sort candidate_assessment_less (map (assess input) (si_candidates input)) <->
  exists r, r ∈ si_candidates input /\ a = assess input r.
Proof.
  rewrite elem_of_std_sort. change (map (assess input)) with (fmap (M := list) (assess input)).
  rewrite list_elem_of_fmap. split; intros (r & H1 & H2); by exists r.
Qed.

Lemma verdict_cases a :
  verdict_is Verdict.Eligible a = true \/ verdict_is Verdict.Disproven a = true \/
  verdict_is Verdict.Indeterminate a = true.
Proof. rewrite !verdict_is_spec. destruct (ca_verdict a); auto. Qed.

(** ** The contract *)
(** What the header of the selector promises of an outcome. *)
Definition selection_contract (input : SelectionInput) (o : SelectionOutcome) : Prop :=
  match so_status o with
  | SelectionStatus.EmptyCandidateSet => si_candidates input = []
  | SelectionStatus.ProvenInfeasible =>
      si_candidates input <> [] /\
      forall r, r ∈ si_candidates input ->
        ca_verdict (assess input r) = Verdict.Disproven /\
        reason_is_conclusive (ca_reason (assess input r)) = true
  | SelectionStatus.Indeterminate =>
      (forall r, r ∈ si_candidates input -> ~ qualified input r) /\
      exists r, r ∈ si_candidates input /\ ca_verdict (assess input r) = Verdict.Indeterminate
  | SelectionStatus.Selected =>
      exists i r, so_selected_index o = Some i /\ r ∈ si_candidates input /\
        so_assessments o !! i = Some (assess input r) /\ qualified input r /\
        forall r', r' ∈ si_candidates input -> qualified input r' ->
          objective_better (objective_from (assess input r')) (objective_from (assess input r)) = false
  end.

Lemma select_infeasible input :
  count_verdict Verdict.Eligible
    (std_sort candidate_assessment_less (map (assess input) (si_candidates input))) = 0%nat ->
  count_verdict Verdict.Indeterminate
    (std_sort candidate_assessment_less (map (assess input) (si_candidates input))) = 0%nat ->
  forall r, r ∈ si_candidates input -> verdict_is Verdict.Disproven (assess input r) = true.
Proof.
  rewrite !count_verdict_0. intros He Hi r Hr.
  assert (Hin := proj2 (elem_of_assessments input (assess input r)) (ex_intro _ r (conj Hr eq_refl))).
  specialize (He _ Hin). specialize (Hi _ Hin).
  destruct (verdict_cases (assess input r)) as [?|[?|?]]; congruence.
Qed.

Lemma select_indeterminate input (l := std_sort candidate_assessment_less
    (map (assess input) (si_candidates input))) :
  count_verdict Verdict.Indeterminate l <> 0%nat ->
  exists r, r ∈ si_candidates input /\ ca_verdict (assess input r) = Verdict.Indeterminate.
Proof.
  intros Hn. destruct (decide (Exists (fun a => verdict_is Verdict.Indeterminate a = true) l)) as [H|H].
  - apply Exists_exists in H as (a & Ha & Hv). apply elem_of_assessments in Ha as (r & Hr & ->).
    exists r. by rewrite <- verdict_is_spec.
  - exfalso. apply Hn, count_verdict_0. intros a Ha. apply not_true_is_false. intros Hv. apply H.
    apply Exists_exists. eauto.
Qed.

(** Selection decides. Selected names a qualified candidate that is not the
    subject and is maximal for the objective among all qualified ones; infeasible
    certifies a conclusive disproof of every candidate; indeterminate is reported
    only when nothing is qualified and something is undecided. *)
Lemma select_replacement_contract_lemma input : selection_contract input (select_replacement input).
Proof.
  unfold selection_contract, select_replacement.
  destruct (si_candidates input) as [|r0 rest] eqn:Hc; [done|]. rewrite <- Hc.
  set (l := std_sort candidate_assessment_less (map (assess input) (si_candidates input))).
  destruct (Nat.eqb_spec (count_verdict Verdict.Eligible l) 0) as [He|He].
  - destruct (Nat.eqb_spec (count_verdict Verdict.Indeterminate l) 0) as [Hi|Hi]; cbn [so_status].
    + split; [by rewrite Hc|]. intros r Hr. pose proof (select_infeasible input He Hi r Hr) as Hd.
      split; [by apply verdict_is_spec|by apply assess_disproven_conclusive].
    + split; [|by apply select_indeterminate]. intros r Hr Hq%assess_eligible_iff.
      rewrite count_verdict_0 in He. rewrite He in Hq; [done|]. apply elem_of_assessments. eauto.
  - pose proof (best_loop_spec l) as Hb. destruct (best_loop 0 None l) as [[i key]|]; cbn [so_status so_selected_index so_assessments].
    + destruct Hb as (a & Ha & Hel & -> & Hm).
      pose proof Ha as Hin%list_elem_of_lookup_2. apply elem_of_assessments in Hin as (r & Hr & ->).
      exists i, r. split; [done|split; [done|split; [done|split]]]; [by apply assess_eligible_iff|].
      intros r' Hr' Hq%assess_eligible_iff. apply Hm; [|done]. apply elem_of_assessments. eauto.
    + exfalso. by apply He, count_verdict_0.
Qed.

(** ** Determinism *)
Definition candidates_unique (input : SelectionInput) : Prop :=
  NoDup (map rs_candidate (si_candidates input)).

Lemma unique_candidate input r1 r2 :
  candidates_unique input -> r1 ∈ si_candidates input -> r2 ∈ si_candidates input ->
  rs_candidate r1 = rs_candidate r2 -> r1 = r2.
Proof.
  unfold candidates_unique. generalize (si_candidates input). intros l.
  induction l as [|r l IH]; [by intros _ ?%elem_of_nil|]. cbn [map]. rewrite NoDup_cons.
  intros [Hn Hd]. rewrite !elem_of_cons. intros [->|H1] [->|H2] E; auto.
  - exfalso. apply Hn. rewrite E. apply (list_elem_of_fmap_2 rs_candidate). done.
  - exfalso. apply Hn. rewrite <- E. apply (list_elem_of_fmap_2 rs_candidate). done.
Qed.

Definition with_candidates (input : SelectionInput) (l : list ResolvedCandidate) : SelectionInput :=
  MkSelectionInput (si_fabric input) (si_subject input) (si_subject_generation input)
    (si_topology_generation input) (si_policy_generation input) (si_policy input)
    (si_min_replacement_capacity input) l (si_epoch input) (si_coordinator input).

(** the outcome does not depend on the order in which distinct candidates were
    supplied: same status, same index, same assessments, same counts. *)
Theorem select_replacement_perm input l :
  candidates_unique input -> si_candidates input ≡ₚ l ->
  select_replacement (with_candidates input l) = select_replacement input.
Proof.
  intros Hu Hp. unfold select_replacement. cbn [si_candidates with_candidates].
  assert (E : std_sort candidate_assessment_less (map (assess input) (si_candidates input)) =
    std_sort candidate_assessment_less (map (assess (with_candidates input l)) l)).
  { apply (std_sort_unique candidate_assessment_less).
    - change (map (assess (with_candidates input l))) with (fmap (M := list) (assess input)).
      change (map (assess input)) with (fmap (M := list) (assess input)). by rewrite Hp.
    - intros x y (r1 & -> & H1)%(list_elem_of_fmap_1 (assess input)) (r2 & -> & H2)%(list_elem_of_fmap_1 (assess input)).
      unfold candidate_assessment_less.
      destruct (assess_fields input r1) as (-> & _), (assess_fields input r2) as (-> & _).
      destruct (link_key_ltb (rs_candidate r1) (rs_candidate r2)) eqn:E1; [done|].
      destruct (link_key_ltb (rs_candidate r2) (rs_candidate r1)) eqn:E2; [done|].
      intros _ _. f_equal. eapply unique_candidate; [done..|]. by apply st_total. }
  destruct (si_candidates input) as [|r rest] eqn:Hc; destruct l as [|r' rest'].
  - done.
  - by apply Permutation_nil_cons in Hp.
  - symmetry in Hp. by apply Permutation_nil_cons in Hp.
  - by rewrite E.
Qed.

(** ** Validation *)
Lemma has_duplicate_false l :
  has_duplicate l = false <-> NoDup (map rs_candidate l).
Proof.
  induction l as [|r l IH]; cbn [has_duplicate map]; [split; [constructor|done]|].
  rewrite orb_false_iff, NoDup_cons, IH. clear IH.
  assert (E : existsb (fun r' => bool_decide (rs_candidate r = rs_candidate r')) l = false <->
    rs_candidate r ∉ map rs_candidate l); [|by rewrite E].
  rewrite <- not_true_iff_false, existsb_exists.
  change (map rs_candidate) with (fmap (M := list) rs_candidate). rewrite list_elem_of_fmap. split.
  - intros H (r' & E & Hr'). apply H. exists r'. rewrite <- list_elem_of_In. split; [done|].
    by apply bool_decide_eq_true.
  - intros H (r' & Hr' & E). apply H. exists r'. rewrite list_elem_of_In. split; [|done].
    by apply bool_decide_eq_true in E.
Qed.

Lemma assessment_found_assess input r :
  r ∈ si_candidates input -> assessment_found input (assess input r) = true.
Proof.
  intros Hr. unfold assessment_found. apply existsb_exists. exists r. rewrite <- list_elem_of_In.
  split; [done|]. destruct (assess_fields input r) as (-> & -> & _).
  by rewrite bool_decide_eq_true_2, Z.eqb_refl.
Qed.

Lemma validate_assessments_ok input l :
  (forall a, a ∈ l -> exists r, r ∈ si_candidates input /\ a = assess input r) ->
  validate_assessments input l = status_success.
Proof.
  induction l as [|a l IH]; intros H; [done|]. cbn [validate_assessments].
  destruct (H a) as (r & Hr & ->); [constructor|].
  rewrite assessment_found_assess by done. cbn [negb].
  destruct (verdict_is Verdict.Disproven (assess input r)) eqn:Ed.
  - rewrite assess_disproven_conclusive by done. apply IH. intros b Hb. apply H. by constructor.
  - apply IH. intros b Hb. apply H. by constructor.
Qed.

Lemma select_assessments input a :
  a ∈ so_assessments (select_replacement input) ->
  exists r, r ∈ si_candidates input /\ a = assess input r.
Proof.
  unfold select_replacement. destruct (si_candidates input) eqn:Hc; [by intros ?%elem_of_nil|].
  rewrite <- Hc. rewrite <- elem_of_assessments.
  repeat case_match; done.
Qed.

Lemma select_assessments_length input :
  length (so_assessments (select_replacement input)) = length (si_candidates input).
Proof.
  unfold select_replacement. destruct (si_candidates input) eqn:Hc; [done|].
  rewrite <- Hc. assert (E := std_sort_length candidate_assessment_less (map (assess input) (si_candidates input))).
  rewrite length_map in E. repeat case_match; done.
Qed.

Lemma select_counts input (o := select_replacement input) :
  match so_status o with
  | SelectionStatus.ProvenInfeasible => so_eligible_count o = 0%nat /\ so_indeterminate_count o = 0%nat
  | SelectionStatus.Indeterminate => so_eligible_count o = 0%nat
  | _ => True
  end.
Proof.
  subst o. unfold select_replacement. destruct (si_candidates input) as [|c0 cs] eqn:Hc; [done|]. rewrite <- Hc.
  set (l := std_sort candidate_assessment_less (map (assess input) (si_candidates input))).
  destruct (Nat.eqb_spec (count_verdict Verdict.Eligible l) 0);
    [destruct (Nat.eqb_spec (count_verdict Verdict.Indeterminate l) 0); done|].
  pose proof (best_loop_spec l) as Hb. destruct (best_loop 0 None l) as [[]|]; [done|].
  by apply count_verdict_0 in Hb.
Qed.

(** The outcome of the selector always passes the independent validation the
    engine runs before a grant, for every candidate set without duplicates. *)
Theorem validate_select_replacement input :
  candidates_unique input ->
  validate_selection input (select_replacement input) = status_success.
Proof.
  intros Hu. unfold validate_selection. rewrite select_assessments_length, Nat.eqb_refl. cbn [negb].
  rewrite (proj2 (has_duplicate_false _)) by done.
  rewrite validate_assessments_ok by apply select_assessments. cbn [status_ok negb].
  pose proof (select_replacement_contract_lemma input) as Hcon. pose proof (select_counts input) as Hn.
  unfold selection_contract in Hcon. cbn in Hn.
  destruct (so_status (select_replacement input)) eqn:Es; cbn.
  - destruct Hcon as (i & r & Hi & Hr & Ha & Hq & Hm). unfold validate_selected. rewrite Hi, Ha.
    rewrite (proj2 (assess_eligible_iff input r) Hq). cbn [negb].
    destruct (assess_fields input r) as (-> & _).
    rewrite bool_decide_eq_false_2 by apply Hq.
    destruct (existsb _ _) eqn:Ex; [|done]. apply existsb_exists in Ex as (b & Hb & Eb).
    apply list_elem_of_In in Hb. apply select_assessments in Hb as (r' & Hr' & ->).
    apply andb_true_iff in Eb as [E1%assess_eligible_iff E2]. by rewrite Hm in E2.
  - destruct Hn as [-> ->]. done.
  - by rewrite Hn.
  - by rewrite Hcon.
Qed.

(** whatever produced the outcome, a Selected outcome that passes validation
    names a candidate of the input that is assessed eligible, is not the subject
    and is not beaten by any eligible assessment. *)
Theorem validate_selection_sound input o :
  status_ok (validate_selection input o) = true -> so_status o = SelectionStatus.Selected ->
  exists i a, so_selected_index o = Some i /\ so_assessments o !! i = Some a /\
    ca_verdict a = Verdict.Eligible /\ ca_candidate a <> si_subject input /\
    (exists r, r ∈ si_candidates input /\ rs_candidate r = ca_candidate a /\
      rs_link_generation r = ca_link_generation a) /\
    forall b, b ∈ so_assessments o -> ca_verdict b = Verdict.Eligible ->
      objective_better (objective_from b) (objective_from a) = false.
Proof.
  intros Hok Hs. unfold validate_selection in Hok. rewrite Hs in Hok.
  destruct (negb _); [done|]. destruct (has_duplicate _); [done|].
  destruct (status_ok (validate_assessments input (so_assessments o))) eqn:Ev; cbn [negb] in Hok;
    [|congruence].
  unfold validate_selected in Hok.
  destruct (so_selected_index o) as [i|]; [|done]. destruct (so_assessments o !! i) as [a|] eqn:Ea; [|done].
  destruct (verdict_is Verdict.Eligible a) eqn:Eel; [|done]. cbn [negb] in Hok.
  case_bool_decide as Hsub; [done|]. destruct (existsb _ _) eqn:Ex; [done|].
  exists i, a. split; [done|split; [done|]]. split; [by apply verdict_is_spec|split; [done|split]].
  - apply list_elem_of_lookup_2 in Ea. clear -Ev Ea. induction (so_assessments o) as [|b l IH].
    { by apply elem_of_nil in Ea. }
    cbn [validate_assessments] in Ev. destruct (assessment_found input b) eqn:Ef; [|done].
    cbn [negb] in Ev. destruct (_ && _)%bool; [done|]. apply elem_of_cons in Ea as [<-|Ea]; [|auto].
    apply existsb_exists in Ef as (r & Hr & E). bool_prop. exists r. by rewrite list_elem_of_In.
  - intros b Hb Hbe. destruct (objective_better _ _) eqn:Eb; [|done].
    assert (Hc : existsb (fun a0 => (verdict_is Verdict.Eligible a0 &&
        objective_better (objective_from a0) (objective_from a))%bool) (so_assessments o) = true).
    { apply existsb_exists. exists b. rewrite <- list_elem_of_In. split; [done|].
      by rewrite (proj2 (verdict_is_spec _ _) Hbe), Eb. }
    congruence.
Qed.

(** C22: selection decides. Selected names a qualified candidate that is not the
    subject and is maximal for the objective among all qualified ones; infeasible
    certifies a conclusive disproof of every candidate; indeterminate is reported
    only when nothing is qualified and something is undecided. The objective compares
    generations before names, as objective_better does; a sentence of selector.hpp
    (lines 28-29) words the tie-break the other way round. *)
Theorem select_replacement_contract input : selection_contract input (select_replacement input).
Proof. apply select_replacement_contract_lemma. Qed.
