(* ===== verification/Fs.v ===== *)
(** * The file system boundary

    Models src/detail/fsutil.cpp over an abstract medium: a map from paths to
    file contents, a set of directories, and the list of outcomes the operating
    system gives to the coming calls. A call that is given [Some (n, errno)]
    fails with [errno]; when it is a write, [n] bytes reach the file first. An
    exhausted list means that every further call succeeds. The reads, writes,
    flushes, renames, truncations and removals of the source each consume one
    outcome, so every theorem about a function of this file holds for every
    pattern of failures. *)
From S2P Require Import Prelude Status Hash Ids Bytes.

Record Fs := MkFs {
  fs_files : gmap string bytes;
  fs_dirs : gset string;
  fs_faults : list (option (nat * Z));
}.

Definition IoM (A : Type) : Type := Fs -> A * Fs.
Definition ioret {A} (x : A) : IoM A := fun fs => (x, fs).
Definition iobind {A B} (m : IoM A) (k : A -> IoM B) : IoM B := fun fs =>
  let '(x, fs') := m fs in k x fs'.
Notation "'io*' x := m 'in' k" := (iobind m (fun x => k))
  (at level 10, x name, m at level 100, k at level 200) : lff_scope.

Definition set_files (f : gmap string bytes) (fs : Fs) : Fs := MkFs f (fs_dirs fs) (fs_faults fs).

(** ** Operating system calls *)
Definition io_outcome : IoM (option (nat * Z)) := fun fs =>
  match fs_faults fs with
  | [] => (None, fs)
  | o :: rest => (o, MkFs (fs_files fs) (fs_dirs fs) rest)
  end.

Definition io_get : IoM Fs := fun fs => (fs, fs).
Definition io_put_file (path : string) (data : bytes) : IoM unit := fun fs =>
  (tt, set_files (<[path := data]> (fs_files fs)) fs).
Definition io_drop_file (path : string) : IoM unit := fun fs =>
  (tt, set_files (delete path (fs_files fs)) fs).

(** [None] on success, [Some errno] on failure. *)
Definition io_call : IoM (option Z) :=
  io* o := io_outcome in ioret (match o with None => None | Some (_, e) => Some e end).

(** [std::fopen] in mode "rb" or "r+b": the file must exist. *)
Definition fopen_existing (path : string) : IoM (option Z) :=
  io* e := io_call in
  match e with
  | Some e => ioret (Some e)
  | None => io* fs := io_get in ioret (match fs_files fs !! path with Some _ => None | None => Some 2 end)
  end.

(** [std::fopen] in mode "wb": the file is created or truncated. *)
Definition fopen_truncate (path : string) : IoM (option Z) :=
  io* e := io_call in
  match e with
  | Some e => ioret (Some e)
  | None => io* _ := io_put_file path [] in ioret None
  end.

(** [std::fwrite] at the end of the stream: the number of bytes written. *)
Definition fwrite (path : string) (data : bytes) : IoM (nat * Z) :=
  io* o := io_outcome in
  io* fs := io_get in
  let old := default [] (fs_files fs !! path) in
  match o with
  | None => io* _ := io_put_file path (old ++ data) in ioret (length data, 0)
  | Some (n, e) =>
      io* _ := io_put_file path (old ++ take n data) in ioret (Nat.min n (length data), e)
  end.

(** ** fsutil.cpp *)
Definition path_filename (path : string) : string :=
  match rsplit "/"%char path with Some (_, name) => name | None => path end.

Definition io_failure (what path : string) (code : Z) : Status :=
  status_add (status_add (status_failure Outcome.IoError ReasonCode.InternalError what)
    ReasonCode.InvalidArgument (path_filename path))
    ReasonCode.SocketError ("errno=" +:+ decimal_text code)%string.

(** [std::fflush], then [fsync]. *)
Definition fs_sync_stream (path : string) : IoM Status :=
  io* e := io_call in
  match e with
  | Some e => ioret (io_failure "flush failed" path e)
  | None =>
      io* e := io_call in
      ioret (match e with Some e => io_failure "fsync failed" path e | None => status_success end)
  end.

(** Both checks answer no when they fail, so that an error of the first has the
    directory created and one of the second has it refused; the branch for an error of a
    check that answered yes cannot be reached. *)
Definition ensure_directory (path : string) : IoM Status :=
  if string_empty path
  then ioret (status_failure Outcome.Invalid ReasonCode.InvalidArgument
                "state directory must not be empty")
  else
  io* seen := io_call in
  io* fs := io_get in
  if (negb (has_value seen) && (bool_decide (path ∈ fs_dirs fs) || has_value (fs_files fs !! path)))%bool then
    io* e := io_call in
    if (has_value e || negb (bool_decide (path ∈ fs_dirs fs)))%bool
    then ioret (status_failure Outcome.Invalid ReasonCode.InvalidArgument
                  "state path exists and is not a directory")
    else ioret status_success
  else
    io* e := io_call in
    if (has_value e || has_value (fs_files fs !! path))%bool
    then ioret (status_failure Outcome.IoError ReasonCode.InternalError
                  "cannot create state directory")
    else fun fs => (status_success, MkFs (fs_files fs) ({[path]} ∪ fs_dirs fs) (fs_faults fs)).

(** [exists(path, error) && !error] *)
Definition path_exists (path : string) : IoM bool :=
  io* e := io_call in
  io* fs := io_get in
  ioret (negb (has_value e) && has_value (fs_files fs !! path))%bool.

Definition file_size (path : string) : IoM (Result Z) :=
  io* exists_ := path_exists path in
  if negb exists_
  then ioret (fail Outcome.NotFound ReasonCode.UnknownLink "file does not exist")
  else io* e := io_call in
  io* fs := io_get in
  ioret (if has_value e
         then fail Outcome.IoError ReasonCode.InternalError "cannot read file size"
         else Success (Z.of_nat (length (default [] (fs_files fs !! path))))).

Definition read_file (path : string) (max_bytes : Z) : IoM (Result bytes) :=
  io* size := file_size path in
  match size with
  | Failure s => ioret (Failure s)
  | Success size =>
      if size >? max_bytes
      then ioret (Failure (status_add
             (status_failure Outcome.LimitExceeded ReasonCode.LimitExceeded
                "file exceeds the configured maximum")
             ReasonCode.InvalidArgument (decimal_text size)))
      else io* opened := fopen_existing path in
      match opened with
      | Some e => ioret (Failure (io_failure "open failed" path e))
      | None =>
          io* e := io_call in
          io* fs := io_get in
          ioret (match e with
                 | Some e => Failure (io_failure "short read" path e)
                 | None => Success (default [] (fs_files fs !! path))
                 end)
      end
  end.

Definition read_prefix (path : string) (max_bytes : Z) : IoM (Result bytes) :=
  io* opened := fopen_existing path in
  match opened with
  | Some e => ioret (Failure (io_failure "open failed" path e))
  | None =>
      io* e := io_call in
      io* fs := io_get in
      ioret (match e with
             | Some e => Failure (io_failure "read failed" path e)
             | None => Success (take (Z.to_nat max_bytes) (default [] (fs_files fs !! path)))
             end)
  end.

(** [std::filesystem::remove(path, ignored)] *)
Definition remove_ignored (path : string) : IoM unit :=
  io* e := io_call in
  match e with Some _ => ioret tt | None => io_drop_file path end.

(** [std::filesystem::rename]: replaces the target in one step. *)
Definition fs_rename (source target : string) : IoM (option Z) :=
  io* e := io_call in
  match e with
  | Some e => ioret (Some e)
  | None => fun fs =>
      match fs_files fs !! source with
      | None => (Some 2, fs)
      | Some data => (None, set_files (<[target := data]> (delete source (fs_files fs))) fs)
      end
  end.

Definition write_file_atomic (path : string) (data : bytes) : IoM Status :=
  let temporary := (path +:+ ".tmp")%string in
  io* opened := fopen_truncate temporary in
  match opened with
  | Some e => ioret (io_failure "cannot create temporary file" temporary e)
  | None =>
      io* written := (if Nat.eqb (length data) 0 then ioret (0%nat, 0) else fwrite temporary data) in
      if negb (Nat.eqb written.1 (length data)) then
        io* _ := remove_ignored temporary in ioret (io_failure "short write" temporary written.2)
      else io* synced := fs_sync_stream temporary in
      if negb (status_ok synced) then
        io* _ := remove_ignored temporary in ioret synced
      else io* renamed := fs_rename temporary path in
      match renamed with
      | Some e =>
          io* _ := remove_ignored temporary in ioret (io_failure "atomic replace failed" path e)
      | None => ioret status_success
      end
  end.

Definition truncate_file (path : string) (size : Z) : IoM Status :=
  io* opened := fopen_existing path in
  match opened with
  | Some e => ioret (io_failure "cannot open for truncation" path e)
  | None =>
      io* e := io_call in
      match e with
      | Some e => ioret (io_failure "truncate failed" path e)
      | None =>
          io* fs := io_get in
          io* _ := io_put_file path (take (Z.to_nat size) (default [] (fs_files fs !! path))) in
          fs_sync_stream path
      end
  end.

Definition remove_file (path : string) : IoM Status :=
  io* e := io_call in
  match e with
  | Some _ => ioret (status_failure Outcome.IoError ReasonCode.InternalError "remove failed")
  | None => io* _ := io_drop_file path in ioret status_success
  end.

(** ** Lemmas *)
(** A medium on which every coming call succeeds. *)
Definition fs_calm (fs : Fs) : Prop := fs_faults fs = [].

Lemma io_outcome_calm fs : fs_calm fs -> io_outcome fs = (None, fs).
Proof. unfold fs_calm, io_outcome. by intros ->. Qed.
Lemma io_call_calm fs : fs_calm fs -> io_call fs = (None, fs).
Proof. intros H. unfold io_call, iobind. by rewrite io_outcome_calm. Qed.

Lemma io_outcome_files fs o fs' : io_outcome fs = (o, fs') -> fs_files fs' = fs_files fs.
Proof. unfold io_outcome. destruct (fs_faults fs); by intros [= <- <-]. Qed.
Lemma io_call_files fs o fs' : io_call fs = (o, fs') -> fs_files fs' = fs_files fs.
Proof.
  unfold io_call, iobind. destruct (io_outcome fs) as [o1 fs1] eqn:E.
  intros [= <- <-]. by eapply io_outcome_files.
Qed.

Lemma fs_sync_stream_files path fs s fs' :
  fs_sync_stream path fs = (s, fs') -> fs_files fs' = fs_files fs.
Proof.
  unfold fs_sync_stream, iobind. destruct (io_call fs) as [o1 fs1] eqn:E1.
  apply io_call_files in E1. destruct o1; [by intros [= <- <-]|].
  destruct (io_call fs1) as [o2 fs2] eqn:E2. apply io_call_files in E2.
  intros [= <- <-]. congruence.
Qed.

Lemma fopen_truncate_files path fs o fs' : fopen_truncate path fs = (o, fs') ->
  forall p, p <> path -> fs_files fs' !! p = fs_files fs !! p.
Proof.
  unfold fopen_truncate, iobind. destruct (io_call fs) as [e fs1] eqn:E. apply io_call_files in E.
  destruct e; [by intros [= <- <-] p _; rewrite E|].
  cbn. intros [= <- <-] p Hp. cbn. rewrite lookup_insert_ne by done. by rewrite E.
Qed.

Lemma fopen_truncate_empty path fs fs' : fopen_truncate path fs = (None, fs') ->
  fs_files fs' !! path = Some [].
Proof.
  unfold fopen_truncate, iobind. destruct (io_call fs) as [[e|] fs1] eqn:E; [done|].
  cbn. intros [= <-]. cbn. by rewrite lookup_insert_eq.
Qed.

(** A write appends a prefix of the data, all of it when the count says so. *)
Lemma fwrite_spec path data fs n e fs' : fwrite path data fs = (n, e, fs') ->
  fs_files fs' = <[path := default [] (fs_files fs !! path) ++ take n data]> (fs_files fs) /\
  (n <= length data)%nat.
Proof.
  unfold fwrite, iobind, io_get. destruct (io_outcome fs) as [o fs1] eqn:E.
  apply io_outcome_files in E. destruct o as [[k e']|]; cbn; intros [= <- <- <-]; cbn; rewrite E.
  - split; [|lia]. do 2 f_equal. destruct (Nat.min_spec k (length data)) as [[? ->]|[? ->]]; [done|].
    by rewrite !take_ge by lia.
  - split; [|done]. by rewrite firstn_all.
Qed.

Lemma remove_ignored_files path fs fs' : remove_ignored path fs = (tt, fs') ->
  forall p, p <> path -> fs_files fs' !! p = fs_files fs !! p.
Proof.
  unfold remove_ignored, iobind. destruct (io_call fs) as [e fs1] eqn:E. apply io_call_files in E.
  destruct e; cbn; intros [= <-] p Hp; cbn; rewrite ?lookup_delete_ne by done; by rewrite E.
Qed.

Lemma fs_rename_files s t fs o fs' : fs_rename s t fs = (o, fs') ->
  match o with
  | Some _ => fs_files fs' = fs_files fs
  | None => exists data, fs_files fs !! s = Some data /\
      fs_files fs' = <[t := data]> (delete s (fs_files fs))
  end.
Proof.
  unfold fs_rename, iobind. destruct (io_call fs) as [e fs1] eqn:E. apply io_call_files in E.
  destruct e; [by intros [= <- <-]|]. destruct (fs_files fs1 !! s) as [d|] eqn:Ed.
  - intros [= <- <-]. exists d. cbn. by rewrite <- E.
  - by intros [= <- <-].
Qed.

Lemma string_app_neq p s : s <> EmptyString -> (p +:+ s)%string <> p.
Proof.
  intros Hs E. apply (f_equal String.length) in E. rewrite string_length_app in E.
  destruct s; [done|]. cbn in E. lia.
Qed.

Lemma io_failure_not_ok what path code : status_ok (io_failure what path code) = false.
Proof. done. Qed.

Ltac io_case H :=
  match type of H with
  | context [let '(x, y) := ?m in _] => let E := fresh "E" in destruct m as [? ?] eqn:E
  end.

(** The part of [write_file_atomic] after the temporary file was opened. *)
Lemma write_file_atomic_cases path data fs s fs' :
  write_file_atomic path data fs = (s, fs') ->
  (status_ok s = true -> fs_files fs' !! path = Some data) /\
  (status_ok s = false -> fs_files fs' !! path = fs_files fs !! path) /\
  (forall p, p <> path -> p <> (path +:+ ".tmp")%string -> fs_files fs' !! p = fs_files fs !! p).
Proof.
  set (tmp := (path +:+ ".tmp")%string).
  assert (Hne : path <> tmp) by (intros E; by apply (string_app_neq path ".tmp")).
  unfold write_file_atomic. fold tmp. unfold iobind at 1.
  destruct (fopen_truncate tmp fs) as [o fs1] eqn:E1.
  pose proof (fopen_truncate_files _ _ _ _ E1) as F1.
  destruct o as [e|]; [intros [= <- <-]; split; [done|]; split; auto|].
  apply fopen_truncate_empty in E1. unfold iobind at 1.
  destruct ((if Nat.eqb (length data) 0 then ioret (0%nat, 0) else fwrite tmp data) fs1)
    as [[n e] fs2] eqn:E2.
  assert (F2 : fs_files fs2 !! tmp = Some (take n data) /\
    (forall p, p <> tmp -> fs_files fs2 !! p = fs_files fs1 !! p)).
  { destruct (Nat.eqb_spec (length data) 0) as [Hl|Hl].
    - injection E2 as <- <- <-. by destruct data.
    - apply fwrite_spec in E2 as [-> _]. rewrite E1. cbn. rewrite lookup_insert_eq. split; [done|].
      intros p Hp. by rewrite lookup_insert_ne. }
  destruct F2 as [F2 F2']. cbn [fst snd].
  assert (Fo : forall fs3 u, remove_ignored tmp fs3 = (u, fs') ->
    (forall p, p <> tmp -> fs_files fs3 !! p = fs_files fs2 !! p) ->
    forall p, p <> tmp -> fs_files fs' !! p = fs_files fs !! p).
  { intros fs3 [] Hr H3 p Hp. rewrite (remove_ignored_files _ _ _ Hr) by done.
    by rewrite H3, F2', F1. }
  destruct (Nat.eqb_spec n (length data)) as [->|Hn]; cbn [negb].
  2: { unfold iobind. destruct (remove_ignored tmp fs2) as [u fs3] eqn:E3. intros [= <- <-].
       specialize (Fo _ _ E3 ltac:(auto)). split; [done|]; split; auto. }
  unfold iobind at 1. destruct (fs_sync_stream tmp fs2) as [s3 fs3] eqn:E3.
  apply fs_sync_stream_files in E3. destruct (status_ok s3) eqn:Es; cbn [negb].
  2: { unfold iobind. destruct (remove_ignored tmp fs3) as [u fs4] eqn:E4. intros [= <- <-].
       assert (Fo' := Fo _ _ E4 ltac:(by rewrite E3)). rewrite Es. split; [done|]; split; auto. }
  unfold iobind at 1. destruct (fs_rename tmp path fs3) as [[e4|] fs4] eqn:E4;
    apply fs_rename_files in E4.
  - unfold iobind. destruct (remove_ignored tmp fs4) as [u fs5] eqn:E5. intros [= <- <-].
    specialize (Fo _ _ E5 ltac:(by rewrite E4, E3)). split; [done|]; split; auto.
  - destruct E4 as (d & Hd & E4). intros [= <- <-]. rewrite E4. rewrite E3, F2, firstn_all in Hd.
    simplify_eq. split; [by intros _; rewrite lookup_insert_eq|split; [done|]].
    intros p Hp1 Hp2. rewrite lookup_insert_ne, lookup_delete_ne by done. by rewrite E3, F2', F1.
Qed.
