(* ===== verification/Journal.v ===== *)
(** * Durable lineage journal

    Models include/lff/journal.hpp and src/journal.cpp: the two header formats
    with their checksums, the append-only writer, and the replay loop that
    validates every record, hands it to the hook and recovers a torn tail. The
    hook of the source is a callback with captured state; here it is a function
    that threads that state.

    The theorems connect the byte format with its abstract meaning, a base
    sequence and a list of records: what the writer appended replays exactly, any
    cut inside the last record is recovered, and any single corrupted byte is
    refused. *)
From S2P Require Import Prelude Status Hash Ids Bytes Fs.

(** ** Formats *)
Module RecordType.
Inductive RecordType :=
| Boot
| PolicyCommit
| TopologyCommit
| AttemptCreate
| AttemptUpdate
| DecisionCommit
| Fence
| Completion
| Rollback
| IdempotencyIndex
| Checkpoint
| Shutdown.
End RecordType.
Abbreviation RecordType := RecordType.RecordType.

Definition record_type_code (v : RecordType) : Z :=
  match v with
  | RecordType.Boot => 0
  | RecordType.PolicyCommit => 1
  | RecordType.TopologyCommit => 2
  | RecordType.AttemptCreate => 3
  | RecordType.AttemptUpdate => 4
  | RecordType.DecisionCommit => 5
  | RecordType.Fence => 6
  | RecordType.Completion => 7
  | RecordType.Rollback => 8
  | RecordType.IdempotencyIndex => 9
  | RecordType.Checkpoint => 10
  | RecordType.Shutdown => 11
  end.

#[global] Instance record_type_enum : EnumCode RecordType := {|
  enum_values :=
    [RecordType.Boot; RecordType.PolicyCommit; RecordType.TopologyCommit;
     RecordType.AttemptCreate; RecordType.AttemptUpdate; RecordType.DecisionCommit;
     RecordType.Fence; RecordType.Completion; RecordType.Rollback;
     RecordType.IdempotencyIndex; RecordType.Checkpoint; RecordType.Shutdown];
  enum_code := record_type_code;
  enum_nonneg := ltac:(by intros []);
  enum_nth := ltac:(by intros []);
|}.
#[global] Instance record_type_eq_dec : EqDecision RecordType := enum_eq_dec.

Definition kRecordTypeNames : list (RecordType * string) := [
  (RecordType.Boot, "Boot");
  (RecordType.PolicyCommit, "PolicyCommit");
  (RecordType.TopologyCommit, "TopologyCommit");
  (RecordType.AttemptCreate, "AttemptCreate");
  (RecordType.AttemptUpdate, "AttemptUpdate");
  (RecordType.DecisionCommit, "DecisionCommit");
  (RecordType.Fence, "Fence");
  (RecordType.Completion, "Completion");
  (RecordType.Rollback, "Rollback");
  (RecordType.IdempotencyIndex, "IdempotencyIndex");
  (RecordType.Checkpoint, "Checkpoint");
  (RecordType.Shutdown, "Shutdown")
].

Definition record_type_name (v : RecordType) : string :=
  table_name "UnrecognisedRecordType" kRecordTypeNames v.

Definition record_type_parse (text : string) : option RecordType :=
  table_parse kRecordTypeNames text.
Definition kRecordTypeCount : Z := 12.
Definition kJournalHeaderSize : Z := 32.
Definition kRecordHeaderSize : Z := 32.
Definition kMaxRecordPayload : Z := 1048576.
Definition kJournalMagic : Z := 0x314E494C.
Definition kRecordMagic : Z := 0x3143524C.
Definition kMaxJournalBytes : Z := 268435456.
Definition kJournalFormatVersion : Z := 1.

Record RecordView := MkView {
  rv_type : RecordType;
  rv_seq : LineageSeq;
  rv_payload : bytes;
}.
Record JournalHeader := MkJournalHeader {
  jh_format_version : Z;
  jh_flags : Z;
  jh_base_seq : LineageSeq;
}.
Record JournalOpenResult := MkOpenResult {
  jo_header : JournalHeader;
  jo_last_seq : LineageSeq;
  jo_torn_tail_recovered : bool;
  jo_truncated_to_empty : bool;
  jo_records_replayed : Z;
  jo_bytes_discarded : Z;
}.

Definition load_u16 (data : bytes) (offset : nat) : Z := le_value (take 2 (drop offset data)).
Definition load_u32 (data : bytes) (offset : nat) : Z := le_value (take 4 (drop offset data)).
Definition load_u64 (data : bytes) (offset : nat) : Z := le_value (take 8 (drop offset data)).

(** The stores of a header, at ascending offsets, then the checksum of the first
    28 bytes. *)
Definition journal_header_body (base_seq : LineageSeq) : bytes :=
  le_bytes 4 kJournalMagic ++ le_bytes 2 kJournalFormatVersion ++ le_bytes 2 0 ++
  le_bytes 8 base_seq ++ le_bytes 8 0 ++ le_bytes 4 0.
Definition build_journal_header (base_seq : LineageSeq) : bytes :=
  journal_header_body base_seq ++ le_bytes 4 (crc32c (journal_header_body base_seq)).

Definition parse_journal_header (data : bytes) : Result JournalHeader :=
  if Z.of_nat (length data) <? kJournalHeaderSize
  then fail Outcome.Invalid ReasonCode.TruncatedFrame "journal header is truncated"
  else if negb (load_u32 data 0 =? kJournalMagic)
  then fail Outcome.Corrupt ReasonCode.CorruptRecord "journal magic mismatch"
  else if negb (crc32c (take 28 data) =? load_u32 data 28)
  then fail Outcome.Corrupt ReasonCode.ChecksumMismatch "journal header checksum mismatch"
  else let version := load_u16 data 4 in
  if negb (version =? kJournalFormatVersion)
  then Failure (status_add (status_failure Outcome.Unsupported ReasonCode.UnsupportedFormatVersion
         "unsupported journal format version") ReasonCode.InvalidArgument (decimal_text version))
  else if negb (load_u16 data 6 =? 0)
  then fail Outcome.Invalid ReasonCode.ReservedBitsSet "journal header flags must be zero"
  else if (negb (load_u64 data 16 =? 0) || negb (load_u32 data 24 =? 0))%bool
  then fail Outcome.Invalid ReasonCode.ReservedBitsSet "journal header reserved fields must be zero"
  else Success (MkJournalHeader version 0 (load_u64 data 8)).

Record RecordHeaderFields := MkRecordFields {
  rh_version : Z;
  rh_type : RecordType;
  rh_payload_length : Z;
  rh_seq : Z;
  rh_payload_crc : Z;
}.

Definition parse_record_header (data : bytes) : Result RecordHeaderFields :=
  if negb (load_u32 data 0 =? kRecordMagic)
  then fail Outcome.Corrupt ReasonCode.CorruptRecord "record magic mismatch"
  else if negb (crc32c (take 28 data) =? load_u32 data 28)
  then fail Outcome.Corrupt ReasonCode.ChecksumMismatch "record header checksum mismatch"
  else let version := load_u16 data 4 in
  if negb (version =? kJournalFormatVersion)
  then Failure (status_add (status_failure Outcome.Unsupported ReasonCode.UnsupportedFormatVersion
         "unsupported record format version") ReasonCode.InvalidArgument (decimal_text version))
  else let raw_type := load_u16 data 6 in
  if raw_type >=? kRecordTypeCount
  then Failure (status_add (status_failure Outcome.Corrupt ReasonCode.UnsupportedValue
         "unknown record type") ReasonCode.InvalidArgument (decimal_text raw_type))
  else let length := load_u32 data 8 in
  if length >? kMaxRecordPayload
  then Failure (status_add (status_failure Outcome.LimitExceeded ReasonCode.LimitExceeded
         "record payload exceeds the supported bound") ReasonCode.InvalidArgument (decimal_text length))
  else if negb (load_u32 data 24 =? 0)
  then fail Outcome.Invalid ReasonCode.ReservedBitsSet "record header reserved field must be zero"
  else Success (MkRecordFields version (enum_cast RecordType.Boot raw_type) length
         (load_u64 data 12) (load_u32 data 20)).

Definition record_header_body (type : RecordType) (payload_length : Z) (seq : LineageSeq)
    (payload_crc : Z) : bytes :=
  le_bytes 4 kRecordMagic ++ le_bytes 2 kJournalFormatVersion ++ le_bytes 2 (enum_code type) ++
  le_bytes 4 payload_length ++ le_bytes 8 seq ++ le_bytes 4 payload_crc ++ le_bytes 4 0.
Definition build_record_header (type : RecordType) (payload_length : Z) (seq : LineageSeq)
    (payload_crc : Z) : bytes :=
  let body := record_header_body type payload_length seq payload_crc in
  body ++ le_bytes 4 (crc32c body).

(** ** Replay *)
Inductive ReplayEnd :=
| ReplayFailed (status : Status)
| ReplayEnded (last_seq : LineageSeq) (records : Z) (torn : option Z)
| ReplayOutOfFuel.

(** The loop over [offset]: [rest] is the data from [offset] on. Each round
    consumes at least a record header, so one unit of fuel per remaining byte is
    more than enough ([replay_loop_fuel]). *)
Fixpoint replay_loop {St} (hook : RecordView -> St -> Status * St) (fuel : nat) (rest : bytes)
    (offset : Z) (last_seq : LineageSeq) (records : Z) (st : St) : ReplayEnd * St :=
  match fuel with
  | O => (ReplayOutOfFuel, st)
  | S fuel' =>
      if Nat.eqb (length rest) 0 then (ReplayEnded last_seq records None, st)
      else if Z.of_nat (length rest) <? kRecordHeaderSize
      then (ReplayEnded last_seq records (Some offset), st)
      else match parse_record_header rest with
      | Failure s => (ReplayFailed s, st)
      | Success fields =>
          let body := drop 32 rest in
          if Z.of_nat (length body) <? rh_payload_length fields
          then (ReplayEnded last_seq records (Some offset), st)
          else
            let payload := take (Z.to_nat (rh_payload_length fields)) body in
            if negb (crc32c payload =? rh_payload_crc fields)
            then (ReplayFailed (status_add (status_failure Outcome.Corrupt ReasonCode.ChecksumMismatch
                    "record payload checksum mismatch")
                    ReasonCode.CorruptRecord (decimal_text (rh_seq fields))), st)
            else if negb (last_seq <? rh_seq fields)
            then (ReplayFailed (status_add (status_failure Outcome.Corrupt
                    ReasonCode.SequenceRegression "record sequence does not advance the lineage")
                    ReasonCode.CorruptRecord (decimal_text (rh_seq fields))), st)
            else
              let view := MkView (rh_type fields) (rh_seq fields) payload in
              let '(applied, st') := hook view st in
              if negb (status_ok applied) then (ReplayFailed applied, st')
              else replay_loop hook fuel' (drop (Z.to_nat (rh_payload_length fields)) body)
                     (offset + kRecordHeaderSize + rh_payload_length fields) (rh_seq fields)
                     (records + 1) st'
      end
  end.

Definition journal_header_default : JournalHeader := MkJournalHeader kJournalFormatVersion 0 0.

(** What [replay] decides from the bytes of the file: the result with the state
    the hook reached, and the size to truncate to when a torn tail is repaired. *)
Definition replay_bytes {St} (hook : RecordView -> St -> Status * St) (repair_torn_tail : bool)
    (data : bytes) (st : St) : Result JournalOpenResult * option Z * St :=
  if Z.of_nat (length data) <? kJournalHeaderSize then
    if negb repair_torn_tail
    then (fail Outcome.Corrupt ReasonCode.CorruptRecord "journal header is incomplete", None, st)
    else (Success (MkOpenResult journal_header_default 0 true true 0 (Z.of_nat (length data))),
          Some 0, st)
  else match parse_journal_header data with
  | Failure s => (Failure s, None, st)
  | Success header =>
      match replay_loop hook (S (length data)) (drop 32 data) kJournalHeaderSize
              (jh_base_seq header) 0 st with
      | (ReplayFailed s, st') => (Failure s, None, st')
      | (ReplayOutOfFuel, st') =>
          (fail Outcome.Indeterminate ReasonCode.InternalError "replay did not finish", None, st')
      | (ReplayEnded last_seq records None, st') =>
          (Success (MkOpenResult header last_seq false false records 0), None, st')
      | (ReplayEnded last_seq records (Some torn_offset), st') =>
          let discarded := Z.of_nat (length data) - torn_offset in
          if negb repair_torn_tail
          then (Failure (status_add (status_failure Outcome.Corrupt ReasonCode.TornTailRecovered
                  "journal ends in a torn record")
                  ReasonCode.TruncatedFrame (decimal_text discarded)), None, st')
          else (Success (MkOpenResult header last_seq true false records discarded),
                Some torn_offset, st')
      end
  end.

Definition journal_replay {St} (path : string) (repair_torn_tail : bool)
    (hook : RecordView -> St -> Status * St) (st : St) : IoM (Result JournalOpenResult * St) :=
  io* exists_ := path_exists path in
  if negb exists_
  then ioret (fail Outcome.NotFound ReasonCode.UnknownLink "journal file does not exist", st)
  else io* content := read_file path kMaxJournalBytes in
  match content with
  | Failure s => ioret (Failure s, st)
  | Success data =>
      match replay_bytes hook repair_torn_tail data st with
      | (Success r, Some size, st') =>
          io* truncated := truncate_file path size in
          if negb (status_ok truncated) then ioret (Failure truncated, st')
          else ioret (Success r, st')
      | (r, _, st') => ioret (r, st')
      end
  end.

Definition journal_read_header (path : string) : IoM (Result JournalHeader) :=
  io* content := read_prefix path kJournalHeaderSize in
  ioret (match content with
         | Failure s => Failure s
         | Success data =>
             if Z.of_nat (length data) <? kJournalHeaderSize
             then fail Outcome.Corrupt ReasonCode.CorruptRecord
                    "journal file is shorter than its header"
             else parse_journal_header data
         end).

(** ** Writer

    [JournalWriter::Impl]; a writer that is not open is [None]. *)
Record JournalWriter := MkJournalWriter {
  jw_path : string;
  jw_last_seq : LineageSeq;
  jw_failed : bool;
  jw_bytes_written : Z;
}.

Definition journal_sync_stream : IoM Status :=
  io* e := io_call in
  if has_value e
  then ioret (status_failure Outcome.IoError ReasonCode.InternalError "journal flush failed")
  else io* e := io_call in
  if has_value e
  then ioret (status_failure Outcome.IoError ReasonCode.InternalError "journal fsync failed")
  else ioret status_success.

(** The validation of [JournalWriter::open] before a stream is opened. *)
Definition journal_open_existing (path : string) (base_seq : LineageSeq) (exists_ : bool) :
    IoM Status :=
  if negb exists_
  then ioret (status_failure Outcome.NotFound ReasonCode.UnknownLink "journal file does not exist")
  else io* existing := journal_read_header path in
  ioret (match existing with
         | Failure s => s
         | Success header =>
             if negb (jh_base_seq header =? base_seq)
             then status_add (status_failure Outcome.Conflict ReasonCode.SequenceRegression
                    "journal base sequence does not match the snapshot")
                    ReasonCode.InvalidArgument (decimal_text (jh_base_seq header))
             else status_success
         end).

(** The stream part: create the file with its header, or seek to the end. *)
Definition journal_open_stream (path : string) (base_seq last_seq : LineageSeq) (create_new : bool) :
    IoM (Result JournalWriter) :=
  io* opened := (if create_new then fopen_truncate path else fopen_existing path) in
  if has_value opened
  then ioret (fail Outcome.IoError ReasonCode.InternalError "cannot open journal file")
  else if create_new then
    io* written := fwrite path (build_journal_header base_seq) in
    if negb (Nat.eqb written.1 32)
    then ioret (fail Outcome.IoError ReasonCode.InternalError "cannot write journal header")
    else io* synced := journal_sync_stream in
    if negb (status_ok synced) then ioret (Failure synced)
    else ioret (Success (MkJournalWriter path base_seq false kJournalHeaderSize))
  else io* e := io_call in
  if has_value e
  then ioret (fail Outcome.IoError ReasonCode.InternalError "cannot seek the journal to its end")
  else ioret (Success (MkJournalWriter path last_seq false 0)).

Definition journal_open (path : string) (base_seq last_seq : LineageSeq) (create_new : bool) :
    IoM (Result JournalWriter) :=
  if (negb (base_seq =? 0) && (last_seq <? base_seq))%bool
  then ioret (fail Outcome.Invalid ReasonCode.SequenceRegression
                "journal last sequence precedes its base sequence")
  else io* exists_ := path_exists path in
  io* prepared :=
    (if create_new then if exists_ : bool then remove_file path else ioret status_success
     else journal_open_existing path base_seq exists_) in
  if negb (status_ok prepared) then ioret (Failure prepared)
  else journal_open_stream path base_seq last_seq create_new.

Definition set_jw_failed (w : JournalWriter) : JournalWriter :=
  MkJournalWriter (jw_path w) (jw_last_seq w) true (jw_bytes_written w).

Definition journal_append (w : JournalWriter) (type : RecordType) (seq : LineageSeq)
    (payload : bytes) : IoM (Status * JournalWriter) :=
  if jw_failed w
  then ioret (status_failure Outcome.IoError ReasonCode.StickyDecodeFailure
                "journal writer has already failed", w)
  else if Z.of_nat (length payload) >? kMaxRecordPayload
  then ioret (status_failure Outcome.LimitExceeded ReasonCode.LimitExceeded
                "record payload exceeds the supported bound", w)
  else if negb (jw_last_seq w <? seq)
  then ioret (status_failure Outcome.Conflict ReasonCode.SequenceRegression
                "record sequence does not advance the lineage", set_jw_failed w)
  else
    let header := build_record_header type (Z.of_nat (length payload)) seq (crc32c payload) in
    io* written := fwrite (jw_path w) header in
    if negb (Nat.eqb written.1 (length header))
    then ioret (status_failure Outcome.IoError ReasonCode.InternalError
                  "cannot write record header", set_jw_failed w)
    else io* written := (if Nat.eqb (length payload) 0 then ioret (0%nat, 0)
                         else fwrite (jw_path w) payload) in
    if negb (Nat.eqb written.1 (length payload))
    then ioret (status_failure Outcome.IoError ReasonCode.InternalError
                  "cannot write record payload", set_jw_failed w)
    else io* synced := journal_sync_stream in
    if negb (status_ok synced) then ioret (synced, set_jw_failed w)
    else ioret (status_success, MkJournalWriter (jw_path w) seq (jw_failed w)
                  (jw_bytes_written w + Z.of_nat (length header) + Z.of_nat (length payload))).

(** A writer that may have been moved from or closed. *)
Definition not_open_status : Status :=
  status_failure Outcome.Closed ReasonCode.ConnectionClosed "journal writer is not open".
Definition journal_flush (w : option JournalWriter) : IoM Status :=
  match w with None => ioret not_open_status | Some _ => journal_sync_stream end.
Definition journal_is_open (w : option JournalWriter) : bool := has_value w.
Definition journal_failed (w : option JournalWriter) : bool := match w with None => true | Some w => jw_failed w end.
Definition journal_last_seq (w : option JournalWriter) : LineageSeq := match w with None => 0 | Some w => jw_last_seq w end.
Definition journal_writer_path (w : option JournalWriter) : string :=
  match w with None => EmptyString | Some w => jw_path w end.
Definition journal_bytes_written (w : option JournalWriter) : Z := match w with None => 0 | Some w => jw_bytes_written w end.
(** [std::fflush] and [std::fclose], their answers ignored: what was appended was
    flushed before, so nothing is left to write. *)
Definition journal_close (w : option JournalWriter) : IoM (option JournalWriter) :=
  match w with
  | None => ioret None
  | Some _ => io* _ := io_call in io* _ := io_call in ioret None
  end.
(** Move assignment: the target, the source. *)
Definition journal_assign (target source : option JournalWriter) :
    IoM (option JournalWriter * option JournalWriter) :=
  io* _ := journal_close target in ioret (source, None).

Lemma journal_close_files w fs w' fs' : journal_close w fs = (w', fs') -> w' = None /\ fs_files fs' = fs_files fs.
Proof.
  unfold journal_close, iobind. destruct w as [w|]; [|by intros [= <- <-]].
  destruct (io_call fs) as [o1 fs1] eqn:E1. destruct (io_call fs1) as [o2 fs2] eqn:E2. intros [= <- <-].
  apply io_call_files in E1, E2. split; [done|congruence].
Qed.

Arguments replay_loop : simpl never.
Arguments build_record_header : simpl never.
Arguments build_journal_header : simpl never.

(** ** Header round trips *)
Lemma journal_header_body_length base : length (journal_header_body base) = 28%nat.
Proof. done. Qed.
Lemma record_header_body_length t l s c : length (record_header_body t l s c) = 28%nat.
Proof. done. Qed.
Lemma build_journal_header_length base : length (build_journal_header base) = 32%nat.
Proof. done. Qed.
Lemma build_record_header_length t l s c : length (build_record_header t l s c) = 32%nat.
Proof. done. Qed.

(** A field of a header sits at the length of what precedes it. *)
Lemma load_at n pre v post :
  le_value (take n (drop (length pre) (pre ++ le_bytes n v ++ post))) = v mod 256 ^ Z.of_nat n.
Proof.
  rewrite drop_app_length, take_app_le by by rewrite le_bytes_length.
  rewrite take_ge by by rewrite le_bytes_length. apply le_value_bytes.
Qed.

Lemma sealed_header body rest :
  length body = 28%nat ->
  take 28 ((body ++ le_bytes 4 (crc32c body)) ++ rest) = body /\
  load_u32 ((body ++ le_bytes 4 (crc32c body)) ++ rest) 28 = crc32c body.
Proof.
  intros Hl. split.
  - rewrite <- app_assoc, take_app_le by lia. by rewrite take_ge by lia.
  - unfold load_u32. rewrite <- app_assoc, <- Hl, load_at.
    apply Z.mod_small. pose proof (crc32c_u32 body). ints.
Qed.

Lemma parse_journal_build base rest :
  is_u64 base ->
  parse_journal_header (build_journal_header base ++ rest) =
  Success (MkJournalHeader kJournalFormatVersion 0 base).
Proof.
  intros Hb. unfold parse_journal_header. rewrite length_app, build_journal_header_length.
  destruct (Z.ltb_spec (Z.of_nat (32 + length rest)) kJournalHeaderSize) as [H|_];
    [unfold kJournalHeaderSize in H; lia|].
  unfold build_journal_header.
  destruct (sealed_header (journal_header_body base) rest eq_refl) as [-> ->].
  rewrite (Z.eqb_refl (crc32c _)). cbn [negb].
  change (load_u32 ((journal_header_body base ++ le_bytes 4 (crc32c (journal_header_body base))) ++ rest) 0)
    with (le_value (le_bytes 4 kJournalMagic)).
  change (load_u16 ((journal_header_body base ++ le_bytes 4 (crc32c (journal_header_body base))) ++ rest) 4)
    with (le_value (le_bytes 2 kJournalFormatVersion)).
  change (load_u16 ((journal_header_body base ++ le_bytes 4 (crc32c (journal_header_body base))) ++ rest) 6)
    with (le_value (le_bytes 2 0)).
  change (load_u64 ((journal_header_body base ++ le_bytes 4 (crc32c (journal_header_body base))) ++ rest) 16)
    with (le_value (le_bytes 8 0)).
  change (load_u32 ((journal_header_body base ++ le_bytes 4 (crc32c (journal_header_body base))) ++ rest) 24)
    with (le_value (le_bytes 4 0)).
  change (load_u64 ((journal_header_body base ++ le_bytes 4 (crc32c (journal_header_body base))) ++ rest) 8)
    with (le_value (le_bytes 8 base)).
  rewrite (le_value_u64 base) by done. reflexivity.
Qed.

Lemma parse_record_build t l s c rest :
  0 <= l <= kMaxRecordPayload -> is_u64 s -> is_u32 c ->
  parse_record_header (build_record_header t l s c ++ rest) =
  Success (MkRecordFields kJournalFormatVersion t l s c).
Proof.
  intros Hl Hs Hc. unfold parse_record_header, build_record_header.
  set (body := record_header_body t l s c).
  destruct (sealed_header body rest eq_refl) as [-> ->]. rewrite (Z.eqb_refl (crc32c _)). cbn [negb].
  change (load_u32 ((body ++ le_bytes 4 (crc32c body)) ++ rest) 0)
    with (le_value (le_bytes 4 kRecordMagic)).
  change (load_u16 ((body ++ le_bytes 4 (crc32c body)) ++ rest) 4)
    with (le_value (le_bytes 2 kJournalFormatVersion)).
  change (load_u16 ((body ++ le_bytes 4 (crc32c body)) ++ rest) 6)
    with (le_value (le_bytes 2 (enum_code t))).
  change (load_u32 ((body ++ le_bytes 4 (crc32c body)) ++ rest) 8)
    with (le_value (le_bytes 4 l)).
  change (load_u64 ((body ++ le_bytes 4 (crc32c body)) ++ rest) 12)
    with (le_value (le_bytes 8 s)).
  change (load_u32 ((body ++ le_bytes 4 (crc32c body)) ++ rest) 20)
    with (le_value (le_bytes 4 c)).
  change (load_u32 ((body ++ le_bytes 4 (crc32c body)) ++ rest) 24)
    with (le_value (le_bytes 4 0)).
  rewrite (le_value_u64 s), (le_value_u32 c) by done.
  rewrite (le_value_u32 l) by (unfold kMaxRecordPayload in Hl; ints).
  rewrite (le_value_u16 (enum_code t)) by (apply enum_code_u16; vm_compute; discriminate).
  rewrite (geb_false (enum_code t)) by (apply enum_code_lt; vm_compute; discriminate).
  rewrite gtb_false by lia. rewrite enum_cast_code. reflexivity.
Qed.

(** ** The abstract journal: a base sequence and a list of records *)
Definition record_image (r : RecordView) : bytes :=
  build_record_header (rv_type r) (Z.of_nat (length (rv_payload r))) (rv_seq r)
    (crc32c (rv_payload r)) ++ rv_payload r.
Definition journal_image (base : LineageSeq) (recs : list RecordView) : bytes :=
  build_journal_header base ++ concat (map record_image recs).

Definition record_ok (r : RecordView) : Prop :=
  is_u64 (rv_seq r) /\ Z.of_nat (length (rv_payload r)) <= kMaxRecordPayload /\
  Forall is_u8 (rv_payload r).
#[global] Instance record_ok_dec r : Decision (record_ok r).
Proof. unfold record_ok. apply _. Defined.

(** Sequences strictly advance from [last]. *)
Fixpoint seqs_advance (last : LineageSeq) (recs : list RecordView) : Prop :=
  match recs with
  | [] => True
  | r :: rest => last < rv_seq r /\ seqs_advance (rv_seq r) rest
  end.
#[global] Instance seqs_advance_dec last recs : Decision (seqs_advance last recs).
Proof. revert last. induction recs; intros; cbn; apply _. Defined.

Definition last_seq_of (base : LineageSeq) (recs : list RecordView) : LineageSeq :=
  foldl (fun _ r => rv_seq r) base recs.

(** The hook run over the records in order, stopping at the first refusal. *)
Fixpoint run_hook {St} (hook : RecordView -> St -> Status * St) (recs : list RecordView) (st : St) :
    option Status * St :=
  match recs with
  | [] => (None, st)
  | r :: rest =>
      let '(s, st') := hook r st in
      if negb (status_ok s) then (Some s, st') else run_hook hook rest st'
  end.

Section replay.
Context {St : Type} (hook : RecordView -> St -> Status * St).

Lemma record_image_length r :
  length (record_image r) = (32 + length (rv_payload r))%nat.
Proof. unfold record_image. by rewrite length_app. Qed.

(** One round of the loop on a complete record. *)
Lemma replay_loop_record fuel r rest offset last n st :
  record_ok r -> last < rv_seq r ->
  replay_loop hook (S fuel) (record_image r ++ rest) offset last n st =
  let '(s, st') := hook r st in
  if negb (status_ok s) then (ReplayFailed s, st')
  else replay_loop hook fuel rest (offset + Z.of_nat (length (record_image r))) (rv_seq r) (n + 1) st'.
Proof.
  intros (Hs & Hl & _) Hlt. unfold replay_loop at 1; fold (@replay_loop St).
  rewrite length_app, record_image_length.
  destruct (Nat.eqb_spec (32 + length (rv_payload r) + length rest) 0) as [H|_]; [lia|].
  destruct (Z.ltb_spec (Z.of_nat (32 + length (rv_payload r) + length rest)) kRecordHeaderSize) as [H|_].
  { unfold kRecordHeaderSize in H. lia. }
  unfold record_image at 1. rewrite <- app_assoc, parse_record_build by (done || lia || apply crc32c_u32).
  cbn [rh_payload_length rh_payload_crc rh_seq rh_type].
  assert (Hbody : drop 32 (record_image r ++ rest) = rv_payload r ++ rest).
  { unfold record_image. rewrite <- app_assoc.
    rewrite drop_app_ge by by rewrite build_record_header_length.
    by rewrite build_record_header_length. }
  rewrite Hbody, length_app, !Nat2Z.id, take_app_length, drop_app_length.
  destruct (Z.ltb_spec (Z.of_nat (length (rv_payload r) + length rest)) (Z.of_nat (length (rv_payload r))));
    [lia|].
  rewrite (Z.eqb_refl (crc32c _)). cbn [negb]. rewrite (proj2 (Z.ltb_lt _ _) Hlt). cbn [negb].
  destruct r as [ty sq pl]; cbn [rv_type rv_seq rv_payload]. destruct (hook _ st) as [s st'].
  destruct (status_ok s); [|done]. cbn [negb].
  replace (offset + kRecordHeaderSize + Z.of_nat (length pl)) with (offset + Z.of_nat (32 + length pl));
    [done|]. unfold kRecordHeaderSize. lia.
Qed.

Lemma replay_loop_end fuel offset last n st :
  replay_loop hook (S fuel) [] offset last n st = (ReplayEnded last n None, st).
Proof. done. Qed.

(** A proper, non-empty prefix of a record is a torn tail. *)
Lemma replay_loop_torn fuel r k offset last n st :
  record_ok r -> (0 < k < length (record_image r))%nat ->
  replay_loop hook (S fuel) (take k (record_image r)) offset last n st =
  (ReplayEnded last n (Some offset), st).
Proof.
  intros (Hs & Hl & _) Hk. unfold replay_loop; fold (@replay_loop St).
  rewrite length_take. rewrite record_image_length in *.
  replace (Nat.min k (32 + length (rv_payload r))) with k by lia.
  destruct (Nat.eqb_spec k 0); [lia|].
  destruct (Z.ltb_spec (Z.of_nat k) kRecordHeaderSize) as [|Hge]; [done|].
  unfold kRecordHeaderSize in Hge.
  assert (Ht : take k (record_image r) =
    build_record_header (rv_type r) (Z.of_nat (length (rv_payload r))) (rv_seq r) (crc32c (rv_payload r)) ++
    take (k - 32) (rv_payload r)).
  { unfold record_image. rewrite take_app_ge by (rewrite build_record_header_length; lia).
    by rewrite build_record_header_length. }
  rewrite Ht, parse_record_build by (done || lia || apply crc32c_u32).
  cbn [rh_payload_length]. rewrite drop_app_ge by by rewrite build_record_header_length.
  rewrite build_record_header_length, Nat.sub_diag, drop_0, length_take.
  destruct (Z.ltb_spec (Z.of_nat (Nat.min (k - 32) (length (rv_payload r)))) (Z.of_nat (length (rv_payload r)))); [done|lia].
Qed.

(** The loop over the images of a record list. *)
Lemma replay_loop_records recs tail offset last n st fuel :
  Forall record_ok recs -> seqs_advance last recs ->
  replay_loop hook (length recs + fuel) (concat (map record_image recs) ++ tail) offset last n st =
  match run_hook hook recs st with
  | (Some s, st') => (ReplayFailed s, st')
  | (None, st') => replay_loop hook fuel tail
      (offset + Z.of_nat (length (concat (map record_image recs)))) (last_seq_of last recs)
      (n + Z.of_nat (length recs)) st'
  end.
Proof.
  intros Hok. revert offset last n st.
  induction Hok as [|r recs Hr _ IH]; intros offset last n st Hadv.
  { cbn. by rewrite !Z.add_0_r. }
  destruct Hadv as [Hlt Hadv]. cbn [length map concat run_hook]. rewrite <- app_assoc.
  cbn [Nat.add]. rewrite replay_loop_record by done.
  destruct (hook r st) as [s st']. destruct (negb (status_ok s)); [done|].
  rewrite IH by done. destruct (run_hook hook recs st') as [[s'|] st'']; [done|].
  rewrite length_app. unfold last_seq_of. cbn [foldl].
  f_equal; lia.
Qed.
End replay.

Lemma concat_images_length recs :
  (length recs <= length (concat (map record_image recs)))%nat.
Proof.
  induction recs as [|r recs IH]; cbn [map concat length]; [lia|].
  rewrite length_app, record_image_length. lia.
Qed.

Lemma journal_image_length base recs :
  length (journal_image base recs) = (32 + length (concat (map record_image recs)))%nat.
Proof. unfold journal_image. by rewrite length_app, build_journal_header_length. Qed.

Definition journal_ok (base : LineageSeq) (recs : list RecordView) : Prop :=
  is_u64 base /\ Forall record_ok recs /\ seqs_advance base recs.
#[global] Instance journal_ok_dec base recs : Decision (journal_ok base recs).
Proof. unfold journal_ok. apply _. Defined.

(** Replay of an image followed by a tail that the loop can judge on its own. *)
Lemma replay_bytes_image {St} (hook : RecordView -> St -> Status * St) repair base recs tail st :
  journal_ok base recs ->
  replay_bytes hook repair (journal_image base recs ++ tail) st =
  match run_hook hook recs st with
  | (Some s, st') => (Failure s, None, st')
  | (None, st') =>
      let data := journal_image base recs ++ tail in
      match replay_loop hook (S (length data) - length recs) tail
              (Z.of_nat (length (journal_image base recs))) (last_seq_of base recs)
              (Z.of_nat (length recs)) st' with
      | (ReplayFailed s, st') => (Failure s, None, st')
      | (ReplayOutOfFuel, st') =>
          (fail Outcome.Indeterminate ReasonCode.InternalError "replay did not finish", None, st')
      | (ReplayEnded last_seq records None, st') =>
          (Success (MkOpenResult (MkJournalHeader kJournalFormatVersion 0 base) last_seq false false
            records 0), None, st')
      | (ReplayEnded last_seq records (Some torn_offset), st') =>
          let discarded := Z.of_nat (length data) - torn_offset in
          if negb repair
          then (Failure (status_add (status_failure Outcome.Corrupt ReasonCode.TornTailRecovered
                  "journal ends in a torn record")
                  ReasonCode.TruncatedFrame (decimal_text discarded)), None, st')
          else (Success (MkOpenResult (MkJournalHeader kJournalFormatVersion 0 base) last_seq true
                  false records discarded), Some torn_offset, st')
      end
  end.
Proof.
  intros (Hb & Hok & Hadv). unfold replay_bytes.
  set (data := journal_image base recs ++ tail).
  assert (Hlen : length data = (32 + length (concat (map record_image recs)) + length tail)%nat).
  { subst data. rewrite length_app, journal_image_length. lia. }
  pose proof (concat_images_length recs) as Hc.
  destruct (Z.ltb_spec (Z.of_nat (length data)) kJournalHeaderSize) as [H|_].
  { unfold kJournalHeaderSize in H. lia. }
  assert (Hp : parse_journal_header data = Success (MkJournalHeader kJournalFormatVersion 0 base)).
  { subst data. unfold journal_image. rewrite <- app_assoc. by apply parse_journal_build. }
  assert (Hd : drop 32 data = concat (map record_image recs) ++ tail).
  { subst data. unfold journal_image. rewrite <- app_assoc.
    rewrite drop_app_ge by by rewrite build_journal_header_length.
    by rewrite build_journal_header_length. }
  rewrite Hp, Hd. cbn [jh_base_seq].
  replace (S (length data)) with (length recs + (S (length data) - length recs))%nat at 1 by lia.
  rewrite replay_loop_records by done.
  destruct (run_hook hook recs st) as [[s|] st']; [done|].
  replace (kJournalHeaderSize + Z.of_nat (length (concat (map record_image recs))))
    with (Z.of_nat (length (journal_image base recs))); [|rewrite journal_image_length; unfold kJournalHeaderSize; lia].
  by rewrite Z.add_0_l.
Qed.

(** ** Replay theorems *)
Lemma replay_bytes_committed {St} (hook : RecordView -> St -> Status * St) repair base recs st st' :
  journal_ok base recs -> run_hook hook recs st = (None, st') ->
  replay_bytes hook repair (journal_image base recs) st =
  (Success (MkOpenResult (MkJournalHeader kJournalFormatVersion 0 base) (last_seq_of base recs)
     false false (Z.of_nat (length recs)) 0), None, st').
Proof.
  intros Hok Hrun. rewrite <- (app_nil_r (journal_image base recs)).
  rewrite replay_bytes_image, Hrun by done. cbv zeta.
  pose proof (concat_images_length recs). rewrite length_app, journal_image_length. cbn [length].
  replace (S (32 + length (concat (map record_image recs)) + 0) - length recs)%nat
    with (S (32 + length (concat (map record_image recs)) - length recs)) by lia.
  by rewrite replay_loop_end.
Qed.

Lemma replay_bytes_torn {St} (hook : RecordView -> St -> Status * St) base recs r k st st' :
  journal_ok base recs -> record_ok r -> (0 < k < length (record_image r))%nat ->
  run_hook hook recs st = (None, st') ->
  replay_bytes hook true (journal_image base recs ++ take k (record_image r)) st =
  (Success (MkOpenResult (MkJournalHeader kJournalFormatVersion 0 base) (last_seq_of base recs)
     true false (Z.of_nat (length recs)) (Z.of_nat k)),
   Some (Z.of_nat (length (journal_image base recs))), st').
Proof.
  intros Hok Hr Hk Hrun. rewrite replay_bytes_image, Hrun by done. cbv zeta.
  pose proof (concat_images_length recs).
  rewrite length_app, length_take, journal_image_length.
  replace (Nat.min k (length (record_image r))) with k by lia.
  replace (S (32 + length (concat (map record_image recs)) + k) - length recs)%nat
    with (S (32 + length (concat (map record_image recs)) + k - length recs)) by lia.
  rewrite replay_loop_torn by done. cbn [negb]. do 4 f_equal. lia.
Qed.

(** Cutting a list of images anywhere leaves the records that fit, and a piece of the
    next one. *)
Lemma cut_images recs n :
  (n <= length (concat (map record_image recs)))%nat ->
  exists recs1 recs2 k, recs = recs1 ++ recs2 /\
    n = (length (concat (map record_image recs1)) + k)%nat /\
    match recs2 with
    | [] => k = O /\ take n (concat (map record_image recs)) = concat (map record_image recs1)
    | r :: _ => (k < length (record_image r))%nat /\
        take n (concat (map record_image recs)) = concat (map record_image recs1) ++ take k (record_image r)
    end.
Proof.
  revert n. induction recs as [|r recs IH]; intros n Hn; cbn [map concat length] in *.
  { exists [], [], O. split; [done|]. split; [cbn; lia|]. split; [done|apply take_nil]. }
  rewrite length_app in Hn. destruct (decide (n < length (record_image r))%nat) as [Hlt|Hge].
  - exists [], (r :: recs), n. split; [done|]. split; [done|]. split; [done|]. by rewrite take_app_le by lia.
  - destruct (IH (n - length (record_image r))%nat) as (recs1 & recs2 & k & -> & Hk & H); [lia|].
    exists (r :: recs1), recs2, k. split; [done|]. cbn [map concat]. rewrite length_app. split; [lia|].
    rewrite take_app_ge by lia. destruct recs2 as [|r' recs2]; destruct H as [Hlt ->]; split; try done.
    by rewrite app_assoc.
Qed.

Lemma seqs_advance_prefix last recs1 recs :
  recs1 `prefix_of` recs -> seqs_advance last recs -> seqs_advance last recs1.
Proof.
  intros [tl ->]. revert last. induction recs1 as [|r recs1 IH]; intros last; [done|].
  cbn. intros [? ?]. split; [done|]. by apply IH.
Qed.

Lemma run_hook_prefix {St} (hook : RecordView -> St -> Status * St) recs1 recs st st' :
  recs1 `prefix_of` recs -> run_hook hook recs st = (None, st') ->
  exists st1, run_hook hook recs1 st = (None, st1).
Proof.
  intros [tl ->]. revert st. induction recs1 as [|r recs1 IH]; intros st; cbn [app run_hook]; [eauto|].
  destruct (hook r st) as [s st1]. destruct (negb (status_ok s)); [done|]. apply IH.
Qed.

Lemma journal_ok_prefix base recs1 recs :
  recs1 `prefix_of` recs -> journal_ok base recs -> journal_ok base recs1.
Proof.
  intros Hp (Hb & Hr & Ha). split; [done|]. split; [|by eapply seqs_advance_prefix].
  destruct Hp as [tl ->]. by apply Forall_app in Hr as [? _].
Qed.

(** C20: crash recovery. Cut the journal anywhere after its header, as a crash in
    the middle of any sequence of appends does: replay with repair succeeds and has
    applied, in order, the longest sequence of records whose image lies before the cut
    (of the next record, if there is one, some octets are missing). It reports their
    number, the last of their sequences and how many octets are left over; when some
    are, it reports a torn tail and asks for truncation to the image of what it
    applied, and otherwise it asks for nothing. *)
Theorem replay_any_prefix {St} (hook : RecordView -> St -> Status * St) base recs n st st' :
  journal_ok base recs -> run_hook hook recs st = (None, st') ->
  (32 <= n <= length (journal_image base recs))%nat ->
  exists recs1 recs2 st1,
    recs = recs1 ++ recs2 /\ run_hook hook recs1 st = (None, st1) /\
    let whole := length (journal_image base recs1) in
    let torn := negb (Nat.eqb n whole) in
    (whole <= n)%nat /\
    (forall r rest, recs2 = r :: rest -> (n < length (journal_image base (recs1 ++ [r])))%nat) /\
    replay_bytes hook true (take n (journal_image base recs)) st =
    (Success (MkOpenResult (MkJournalHeader kJournalFormatVersion 0 base) (last_seq_of base recs1)
       torn false (Z.of_nat (length recs1)) (Z.of_nat n - Z.of_nat whole)),
     if torn then Some (Z.of_nat whole) else None, st1).
Proof.
  intros Hok Hrun Hn. rewrite journal_image_length in Hn.
  assert (Ht : take n (journal_image base recs) =
    build_journal_header base ++ take (n - 32) (concat (map record_image recs))).
  { unfold journal_image. rewrite take_app_ge by (rewrite build_journal_header_length; lia).
    by rewrite build_journal_header_length. }
  rewrite Ht. destruct (cut_images recs (n - 32)) as (recs1 & recs2 & k & E & Hk & Hcut); [lia|].
  assert (Hp : recs1 `prefix_of` recs) by by exists recs2.
  destruct (run_hook_prefix hook recs1 recs st st' Hp Hrun) as [st1 Hrun1].
  assert (Hok1 := journal_ok_prefix _ _ _ Hp Hok).
  exists recs1, recs2, st1. split; [done|]. split; [done|]. cbv zeta. rewrite journal_image_length.
  split; [lia|]. split.
  { intros r rest ->. destruct Hcut as [Hlt _]. rewrite journal_image_length, map_app, concat_app, length_app.
    cbn [map concat]. rewrite app_nil_r. lia. }
  assert (Hwhole : k = O -> take (n - 32) (concat (map record_image recs)) = concat (map record_image recs1)).
  { intros ->. destruct recs2 as [|r recs2]; destruct Hcut as [_ ->]; [done|]. by rewrite take_0, app_nil_r. }
  destruct (decide (k = O)) as [Hk0|Hk0].
  - rewrite Hwhole by done. destruct (Nat.eqb_spec n (32 + length (concat (map record_image recs1)))) as [En|]; [|lia].
    rewrite En, Z.sub_diag. cbn [negb].
    by apply (replay_bytes_committed hook true base recs1).
  - destruct recs2 as [|r recs2]; [lia|]. destruct Hcut as [Hlt ->].
    destruct (Nat.eqb_spec n (32 + length (concat (map record_image recs1)))); [lia|].
    assert (Hr : record_ok r).
    { destruct Hok as (_ & Hr & _). rewrite E in Hr. apply Forall_app in Hr as [_ Hr]. by apply Forall_cons in Hr as [? _]. }
    rewrite app_assoc. change (build_journal_header base ++ concat (map record_image recs1)) with (journal_image base recs1).
    rewrite (replay_bytes_torn hook base recs1 r k st st1) by (done || lia).
    rewrite journal_image_length. cbn [negb]. do 4 f_equal. lia.
Qed.

(** ** Single-byte corruption *)
Lemma le_value_inj a b :
  Forall is_u8 a -> Forall is_u8 b -> length a = length b -> le_value a = le_value b -> a = b.
Proof.
  intros Ha. revert b. induction Ha as [|x a Hx Ha IH]; intros [|y b] Hb Hl H; try done.
  apply Forall_cons in Hb as [Hy Hb]. cbn [le_value] in H.
  pose proof (le_value_bound a Ha). pose proof (le_value_bound b Hb).
  rewrite !lor_shiftl8 in H by (done || lia). cbn in Hl.
  assert (x = y) by ints. subst. f_equal. apply IH; [done|lia|]. lia.
Qed.

(** A header sealed by its checksum does not survive the change of one byte. *)
Lemma sealed_header_corrupt body i b rest :
  length body = 28%nat -> Forall is_u8 body -> is_u8 b -> (i < 32)%nat ->
  (body ++ le_bytes 4 (crc32c body)) !! i <> Some b ->
  let data := <[i := b]> (body ++ le_bytes 4 (crc32c body)) ++ rest in
  (crc32c (take 28 data) =? load_u32 data 28) = false.
Proof.
  intros Hl Hbody Hb Hi Hne. cbv zeta. apply Z.eqb_neq.
  destruct (decide (i < 28)%nat) as [Hlt|Hge].
  - rewrite insert_app_l by lia.
    rewrite <- app_assoc, take_app_le by (rewrite length_insert; lia).
    rewrite take_ge by (rewrite length_insert; lia).
    unfold load_u32. replace 28%nat with (length (<[i:=b]> body)) by by rewrite length_insert.
    rewrite load_at. rewrite Z.mod_small by (pose proof (crc32c_u32 body); ints).
    destruct (lookup_lt_is_Some_2 body i ltac:(lia)) as [x Hx].
    pose proof (crc32c_one_byte (take i body) b x (drop (S i) body)) as Hcrc.
    rewrite (take_drop_middle body i x Hx) in Hcrc. rewrite insert_take_drop by lia.
    rewrite lookup_app_l, Hx in Hne by lia. apply Hcrc; [done| |congruence].
    rewrite Forall_forall in Hbody. apply Hbody. by eapply list_elem_of_lookup_2.
  - rewrite insert_app_r_alt by lia. rewrite Hl.
    rewrite <- app_assoc, take_app_le by lia. rewrite take_ge by lia.
    unfold load_u32. rewrite <- Hl at 1. rewrite drop_app_length.
    rewrite take_app_le by (rewrite length_insert, le_bytes_length; lia).
    rewrite take_ge by (rewrite length_insert, le_bytes_length; lia). intros E.
    assert (E' : le_bytes 4 (crc32c body) = <[(i - 28)%nat := b]> (le_bytes 4 (crc32c body))).
    { apply le_value_inj.
      - apply le_bytes_u8.
      - apply Forall_insert; [apply le_bytes_u8|done].
      - by rewrite length_insert.
      - rewrite <- E. apply le_value_u32, crc32c_u32. }
    apply Hne. rewrite lookup_app_r by lia. rewrite Hl, E'.
    apply list_lookup_insert_eq. rewrite le_bytes_length. lia.
Qed.

Lemma record_header_body_u8 t l s c : Forall is_u8 (record_header_body t l s c).
Proof. unfold record_header_body. repeat apply Forall_app_2; apply le_bytes_u8. Qed.
Lemma journal_header_body_u8 base : Forall is_u8 (journal_header_body base).
Proof. unfold journal_header_body. repeat apply Forall_app_2; apply le_bytes_u8. Qed.

Definition is_failure {T} (r : Result T) : bool := negb (result_ok r).

Lemma parse_journal_corrupt base i b rest :
  is_u8 b -> (i < 32)%nat -> build_journal_header base !! i <> Some b ->
  is_failure (parse_journal_header (<[i := b]> (build_journal_header base) ++ rest)) = true.
Proof.
  intros Hb Hi Hne. unfold parse_journal_header, build_journal_header in *.
  rewrite (sealed_header_corrupt (journal_header_body base) i b rest) by
    (done || apply journal_header_body_u8).
  cbn [negb]. by repeat case_if.
Qed.

Lemma parse_record_corrupt t l s c i b rest :
  is_u8 b -> (i < 32)%nat -> build_record_header t l s c !! i <> Some b ->
  is_failure (parse_record_header (<[i := b]> (build_record_header t l s c) ++ rest)) = true.
Proof.
  intros Hb Hi Hne. unfold parse_record_header, build_record_header in *.
  rewrite (sealed_header_corrupt (record_header_body t l s c) i b rest) by
    (done || apply record_header_body_u8).
  cbn [negb]. by repeat case_if.
Qed.

Lemma replay_loop_corrupt {St} (hook : RecordView -> St -> Status * St) fuel r i b rest offset last n st :
  record_ok r -> is_u8 b -> (i < length (record_image r))%nat -> record_image r !! i <> Some b ->
  exists s, replay_loop hook (S fuel) (<[i := b]> (record_image r) ++ rest) offset last n st =
    (ReplayFailed s, st).
Proof.
  intros (Hs & Hl & Hu8) Hb Hi Hne. unfold replay_loop; fold (@replay_loop St).
  rewrite length_app, length_insert, record_image_length.
  destruct (Nat.eqb_spec (32 + length (rv_payload r) + length rest) 0) as [H|_]; [lia|].
  destruct (Z.ltb_spec (Z.of_nat (32 + length (rv_payload r) + length rest)) kRecordHeaderSize) as [H|_].
  { unfold kRecordHeaderSize in H. lia. }
  rewrite record_image_length in Hi. unfold record_image in *.
  set (h := build_record_header (rv_type r) (Z.of_nat (length (rv_payload r))) (rv_seq r)
    (crc32c (rv_payload r))) in *.
  assert (Hh : length h = 32%nat) by apply build_record_header_length.
  destruct (decide (i < 32)%nat) as [Hlt|Hge].
  - rewrite insert_app_l by lia. rewrite <- app_assoc.
    rewrite lookup_app_l in Hne by lia. subst h.
    pose proof (parse_record_corrupt (rv_type r) (Z.of_nat (length (rv_payload r))) (rv_seq r)
      (crc32c (rv_payload r)) i b (rv_payload r ++ rest) Hb Hlt Hne) as Hf.
    destruct (parse_record_header _) as [f|s]; [done|]. by exists s.
  - rewrite insert_app_r_alt by lia. rewrite <- app_assoc. subst h.
    rewrite parse_record_build by (done || lia || apply crc32c_u32).
    cbn [rh_payload_length rh_payload_crc rh_seq].
    rewrite drop_app_ge by by rewrite build_record_header_length.
    rewrite lookup_app_r in Hne by (rewrite build_record_header_length; lia).
    rewrite !build_record_header_length in *. rewrite Nat.sub_diag, drop_0, length_app, length_insert.
    destruct (Z.ltb_spec (Z.of_nat (length (rv_payload r) + length rest)) (Z.of_nat (length (rv_payload r))));
      [lia|].
    set (p' := <[(i - 32)%nat := b]> (rv_payload r)) in *.
    assert (Hp' : length p' = length (rv_payload r)) by apply length_insert.
    rewrite Nat2Z.id, <- Hp', take_app_length.
    destruct (lookup_lt_is_Some_2 (rv_payload r) (i - 32)%nat ltac:(lia)) as [x Hx].
    assert (Hcrc : crc32c p' <> crc32c (rv_payload r)).
    { subst p'. pose proof (crc32c_one_byte (take (i - 32) (rv_payload r)) b x
        (drop (S (i - 32)) (rv_payload r))) as Hc.
      rewrite (take_drop_middle _ _ x Hx) in Hc. rewrite insert_take_drop by lia.
      apply Hc; [done| |congruence]. rewrite Forall_forall in Hu8. apply Hu8.
      by eapply list_elem_of_lookup_2. }
    rewrite (proj2 (Z.eqb_neq _ _) Hcrc). cbn [negb]. eauto.
Qed.

Lemma image_position recs i b :
  (i < length (concat (map record_image recs)))%nat ->
  exists recs1 r recs2 j, recs = recs1 ++ r :: recs2 /\ (j < length (record_image r))%nat /\
    record_image r !! j = concat (map record_image recs) !! i /\
    <[i := b]> (concat (map record_image recs)) =
    concat (map record_image recs1) ++ <[j := b]> (record_image r) ++ concat (map record_image recs2).
Proof.
  revert i. induction recs as [|r recs IH]; intros i Hi; [cbn in Hi; lia|].
  cbn [map concat] in *. rewrite length_app in Hi.
  destruct (decide (i < length (record_image r))%nat).
  - exists [], r, recs, i. split; [done|split; [done|]]. rewrite lookup_app_l by done. split; [done|].
    by rewrite insert_app_l.
  - destruct (IH (i - length (record_image r))%nat) as (recs1 & r' & recs2 & j & -> & Hj & Hl & He); [lia|].
    exists (r :: recs1), r', recs2, j. split; [done|split; [done|]].
    rewrite lookup_app_r by lia. split; [done|]. rewrite insert_app_r_alt by lia. rewrite He.
    cbn [map concat]. by rewrite <- app_assoc.
Qed.

Lemma seqs_advance_app last recs1 recs2 :
  seqs_advance last (recs1 ++ recs2) -> seqs_advance last recs1.
Proof. intros H. eapply seqs_advance_prefix; [|done]. by exists recs2. Qed.

Lemma replay_corrupt_lemma {St} (hook : RecordView -> St -> Status * St) repair base recs i b st :
  journal_ok base recs -> is_u8 b -> (i < length (journal_image base recs))%nat ->
  journal_image base recs !! i <> Some b ->
  exists s st', replay_bytes hook repair (<[i := b]> (journal_image base recs)) st = (Failure s, None, st').
Proof.
  intros Hok Hb Hi Hne. pose proof Hok as (Hbase & Hrecs & Hadv). rewrite journal_image_length in Hi.
  destruct (decide (i < 32)%nat) as [Hlt|Hge].
  - unfold journal_image in *. rewrite insert_app_l by (rewrite build_journal_header_length; lia).
    rewrite lookup_app_l in Hne by (rewrite build_journal_header_length; lia).
    unfold replay_bytes. rewrite length_app, length_insert, build_journal_header_length.
    destruct (Z.ltb_spec (Z.of_nat (32 + length (concat (map record_image recs)))) kJournalHeaderSize) as [H|_].
    { unfold kJournalHeaderSize in H. lia. }
    pose proof (parse_journal_corrupt base i b (concat (map record_image recs)) Hb Hlt Hne) as Hf.
    destruct (parse_journal_header _) as [h|s]; [done|]. by exists s, st.
  - unfold journal_image in Hne. rewrite lookup_app_r in Hne by (rewrite build_journal_header_length; lia).
    rewrite build_journal_header_length in Hne.
    destruct (image_position recs (i - 32) b) as (recs1 & r & recs2 & j & -> & Hj & Hl & He); [lia|].
    assert (E : <[i := b]> (journal_image base (recs1 ++ r :: recs2)) =
      journal_image base recs1 ++ <[j := b]> (record_image r) ++ concat (map record_image recs2)).
    { unfold journal_image. rewrite insert_app_r_alt by (rewrite build_journal_header_length; lia).
      rewrite build_journal_header_length, He. by rewrite <- app_assoc. }
    rewrite E. apply Forall_app in Hrecs as [Hr1 Hr2]. apply Forall_cons in Hr2 as [Hr _].
    assert (Hok1 : journal_ok base recs1) by (split; [done|split; [done|by eapply seqs_advance_app]]).
    rewrite replay_bytes_image by done. destruct (run_hook hook recs1 st) as [[s|] st1]; [eauto|].
    cbv zeta. pose proof (concat_images_length recs1).
    rewrite !length_app, journal_image_length, length_insert.
    match goal with |- context [replay_loop hook ?fl _ _ _ _ _] =>
      destruct fl as [|f] eqn:Ef; [lia|] end.
    destruct (replay_loop_corrupt hook f r j b (concat (map record_image recs2))
      (Z.of_nat (32 + length (concat (map record_image recs1)))) (last_seq_of base recs1)
      (Z.of_nat (length recs1)) st1) as [s Hs]; [done..|congruence|].
    rewrite Hs. eauto.
Qed.

(** C26: integrity. Change any single byte of a committed journal, header or record,
    and replay refuses the file, with and without repair, and asks for no
    truncation: corruption is never repaired away. *)
Theorem replay_one_byte_corruption {St} (hook : RecordView -> St -> Status * St) repair base recs i b st :
  journal_ok base recs -> is_u8 b -> (i < length (journal_image base recs))%nat ->
  journal_image base recs !! i <> Some b ->
  exists s st', replay_bytes hook repair (<[i := b]> (journal_image base recs)) st = (Failure s, None, st').
Proof. apply replay_corrupt_lemma. Qed.

(** the replay of a committed journal applies exactly its records, in order,
    and reports its last sequence; the loop's fuel is always enough. *)
Theorem replay_committed {St} (hook : RecordView -> St -> Status * St) repair base recs st st' :
  journal_ok base recs -> run_hook hook recs st = (None, st') ->
  replay_bytes hook repair (journal_image base recs) st =
  (Success (MkOpenResult (MkJournalHeader kJournalFormatVersion 0 base) (last_seq_of base recs)
     false false (Z.of_nat (length recs)) 0), None, st').
Proof. apply replay_bytes_committed. Qed.

(** ** The writer *)
Lemma journal_sync_stream_files fs s fs' :
  journal_sync_stream fs = (s, fs') -> fs_files fs' = fs_files fs.
Proof.
  unfold journal_sync_stream, iobind. destruct (io_call fs) as [[e1|] fs1] eqn:E1;
    apply io_call_files in E1; cbn [has_value]; [by intros [= <- <-]|].
  destruct (io_call fs1) as [[e2|] fs2] eqn:E2; apply io_call_files in E2; cbn [has_value];
    intros [= <- <-]; congruence.
Qed.

Definition file_of (fs : Fs) (path : string) : bytes := default [] (fs_files fs !! path).

Lemma fwrite_file_of path data fs n e fs' : fwrite path data fs = (n, e, fs') ->
  file_of fs' path = file_of fs path ++ take n data /\ (n <= length data)%nat /\
  forall p, p <> path -> fs_files fs' !! p = fs_files fs !! p.
Proof.
  intros H. apply fwrite_spec in H as [E Hn]. unfold file_of. rewrite E, lookup_insert_eq.
  split; [done|split; [done|]]. intros p Hp. by rewrite lookup_insert_ne.
Qed.

Lemma record_image_split t s p :
  record_image (MkView t s p) =
  build_record_header t (Z.of_nat (length p)) s (crc32c p) ++ p.
Proof. done. Qed.

(** What one append does to the file: on success the whole record image, on
    failure a prefix of it, and never anything elsewhere. *)
Lemma journal_append_file w t seq payload fs s w' fs' :
  journal_append w t seq payload fs = (s, w', fs') ->
  (forall p, p <> jw_path w -> fs_files fs' !! p = fs_files fs !! p) /\
  jw_path w' = jw_path w /\
  exists k, file_of fs' (jw_path w) = file_of fs (jw_path w) ++ take k (record_image (MkView t seq payload)) /\
  (status_ok s = true ->
    k = length (record_image (MkView t seq payload)) /\ jw_last_seq w' = seq /\ jw_last_seq w < seq /\
    jw_failed w' = false /\ Z.of_nat (length payload) <= kMaxRecordPayload) /\
  (status_ok s = false -> jw_last_seq w' = jw_last_seq w).
Proof.
  unfold journal_append. destruct (jw_failed w) eqn:Hfail.
  { intros [= <- <- <-]. split; [done|split; [done|]]. exists 0%nat. by rewrite app_nil_r. }
  destruct (Z.gtb_spec (Z.of_nat (length payload)) kMaxRecordPayload) as [Hbig|Hsize].
  { intros [= <- <- <-]. split; [done|split; [done|]]. exists 0%nat. by rewrite app_nil_r. }
  destruct (Z.ltb_spec (jw_last_seq w) seq) as [Hlt|Hge]; cbn [negb].
  2: { intros [= <- <- <-]. split; [done|split; [done|]]. exists 0%nat. by rewrite app_nil_r. }
  set (h := build_record_header t (Z.of_nat (length payload)) seq (crc32c payload)).
  rewrite record_image_split. fold h.
  unfold iobind at 1. destruct (fwrite (jw_path w) h fs) as [[n e] fs1] eqn:E1.
  apply fwrite_file_of in E1 as (F1 & Hn & O1). cbn [fst].
  destruct (Nat.eqb_spec n (length h)) as [->|Hne]; cbn [negb].
  2: { intros [= <- <- <-]. split; [done|split; [done|]]. exists n.
       rewrite F1, take_app_le by lia. done. }
  rewrite take_ge in F1 by lia.
  unfold iobind at 1. destruct ((if Nat.eqb (length payload) 0 then ioret (0%nat, 0)
    else fwrite (jw_path w) payload) fs1) as [[m e2] fs2] eqn:E2.
  assert (F2 : file_of fs2 (jw_path w) = file_of fs1 (jw_path w) ++ take m payload /\ (m <= length payload)%nat /\
    forall p, p <> jw_path w -> fs_files fs2 !! p = fs_files fs1 !! p).
  { destruct (Nat.eqb_spec (length payload) 0).
    - injection E2 as <- <- <-. cbn [take]. rewrite app_nil_r. split; [done|split; [lia|done]].
    - by apply fwrite_file_of in E2. }
  destruct F2 as (F2 & Hm & O2). cbn [fst].
  destruct (Nat.eqb_spec m (length payload)) as [->|Hme]; cbn [negb].
  2: { intros [= <- <- <-]. split; [by intros p Hp; rewrite O2, O1|split; [done|]].
       exists (length h + m)%nat. rewrite F2, F1, <- app_assoc, take_app_ge by lia.
       by replace (length h + m - length h)%nat with m by lia. }
  rewrite take_ge in F2 by lia.
  unfold iobind at 1. destruct (journal_sync_stream fs2) as [s3 fs3] eqn:E3.
  apply journal_sync_stream_files in E3.
  assert (F3 : file_of fs3 (jw_path w) = file_of fs (jw_path w) ++ take (length (h ++ payload)) (h ++ payload)).
  { unfold file_of in *. rewrite E3, F2, F1, take_ge by lia. by rewrite <- app_assoc. }
  assert (O3 : forall p, p <> jw_path w -> fs_files fs3 !! p = fs_files fs !! p).
  { intros p Hp. by rewrite E3, O2, O1. }
  destruct (status_ok s3) eqn:Es; cbn [negb]; intros [= <- <- <-].
  - split; [done|split; [done|]]. eexists. split; [exact F3|]. split; [|done].
    intros _. split; [done|]. by split; [|split; [|split]].
  - rewrite Es. split; [done|split; [done|]]. eexists. split; [exact F3|]. by split.
Qed.
