(* ===== verification/State.v ===== *)
(** * Lineage store: durable state

    Models the first half of include/lff/store.hpp and src/store.cpp: the payload
    encodings, the durable state with its retention rules, the application of one
    journal record, and the snapshot (serialisation, framing and their inverses).
    The store's operations on the medium are in Store.v. *)
From S2P Require Import Prelude Status Hash Ids Bytes Evidence Policy Authority Attempt Decision.
From S2P Require Import Journal.

(** ** Idempotency entries *)
Record IdempotencyEntry := MkIdempotency {
  ie_key : Digest;
  ie_decision_id : Digest;
  ie_kind : DecisionKind;
  ie_assertion : Assertion;
  ie_outcome : Outcome;
  ie_subject : LinkKey;
  ie_subject_generation : LinkGeneration;
  ie_has_replacement : bool;
  ie_replacement : LinkKey;
  ie_replacement_generation : LinkGeneration;
  ie_attempt_seq : AttemptSeq;
  ie_seq : LineageSeq;
  ie_reasons : list Reason;
}.
#[global] Instance idempotency_entry_eq_dec : EqDecision IdempotencyEntry.
Proof. solve_decision. Defined.
Definition set_ie_seq (v : LineageSeq) (r : IdempotencyEntry) : IdempotencyEntry :=
  MkIdempotency (ie_key r) (ie_decision_id r) (ie_kind r) (ie_assertion r) (ie_outcome r)
    (ie_subject r) (ie_subject_generation r) (ie_has_replacement r) (ie_replacement r)
    (ie_replacement_generation r) (ie_attempt_seq r) v (ie_reasons r).

Definition idempotency_replacement_encode (e : IdempotencyEntry) : WriteM := writes [
  wr_str (lk_fabric (ie_replacement e));
  wr_str (lk_link (ie_replacement e));
  wr_u64 (ie_replacement_generation e)].

Definition idempotency_encode (e : IdempotencyEntry) : WriteM := writes [
  wr_u16 kIdentityFormatVersion;
  wr_digest (ie_key e);
  wr_digest (ie_decision_id e);
  wr_u16 (enum_code (ie_kind e));
  wr_u16 (enum_code (ie_assertion e));
  wr_u16 (enum_code (ie_outcome e));
  wr_str (lk_fabric (ie_subject e));
  wr_str (lk_link (ie_subject e));
  wr_u64 (ie_subject_generation e);
  wr_bool8 (ie_has_replacement e);
  wr_when (ie_has_replacement e) (idempotency_replacement_encode e);
  wr_u64 (ie_attempt_seq e);
  wr_u64 (ie_seq e);
  wr_u32 (Z.of_nat (length (ie_reasons e)));
  wr_each encode (ie_reasons e)].

Definition idempotency_decode : ReadM (option IdempotencyEntry) :=
  let* format_version := rd_u16 in
  let* key := rd_digest in
  let* decision_id := rd_digest in
  let* kind := rd_u16 in
  let* assertion := rd_u16 in
  let* outcome := rd_u16 in
  let* fabric := rd_str in
  let* link := rd_str in
  let* generation := rd_u64 in
  let* has_replacement := rd_bool8 in
  let* replacement := replacement_decode has_replacement in
  let* attempt_seq := rd_u64 in
  let* seq := rd_u64 in
  let* reason_count := rd_u32 in
  let* ok := rd_is_ok in
  if (negb ok || negb (format_version =? kIdentityFormatVersion))%bool then rret None else
  if ((kind >=? kDecisionKindCount) || (assertion >=? kAssertionCount) ||
      (outcome >=? kOutcomeCount) || (reason_count >? Z.of_nat kMaxReasons))%bool then rret None else
  ropt (result_value (name_parse fabric)) (fun fabric =>
  ropt (result_value (name_parse link)) (fun link =>
  ropt (if has_replacement : bool then result_value (name_parse replacement.1.1) else Some EmptyString)
    (fun replacement_fabric =>
  ropt (if has_replacement : bool then result_value (name_parse replacement.1.2) else Some EmptyString)
    (fun replacement_link =>
  let* reasons := rd_each (Z.to_nat reason_count) decode in
  ropt reasons (fun reasons =>
  rret (Some (MkIdempotency key decision_id (enum_cast DecisionKind.Indeterminate kind)
    (enum_cast Assertion.None assertion) (enum_cast Outcome.Indeterminate outcome)
    (MkLinkKey fabric link) generation has_replacement
    (MkLinkKey replacement_fabric replacement_link) (if has_replacement : bool then replacement.2 else 0)
    attempt_seq seq reasons))))))).

Definition idempotency_wf (e : IdempotencyEntry) : Prop :=
  digest_wf (ie_key e) /\ digest_wf (ie_decision_id e) /\ link_key_valid (ie_subject e) /\
  is_u64 (ie_subject_generation e) /\ is_u64 (ie_replacement_generation e) /\
  (if ie_has_replacement e then link_key_valid (ie_replacement e)
   else ie_replacement e = link_key_none /\ ie_replacement_generation e = 0) /\
  is_u64 (ie_attempt_seq e) /\ is_u64 (ie_seq e) /\
  count_wf (Z.of_nat kMaxReasons) (ie_reasons e) /\ Forall reason_wf (ie_reasons e).

(** Its replacement fields have the shape of those of a decision. *)
Definition idempotency_as_decision (e : IdempotencyEntry) : FailoverDecision :=
  set_fd_has_replacement (ie_has_replacement e) (set_fd_replacement (ie_replacement e)
    (set_fd_replacement_generation (ie_replacement_generation e) decision_none)).

Lemma idempotency_replacement_wf e : idempotency_wf e -> link_key_wf (ie_replacement e).
Proof.
  intros (_ & _ & _ & _ & _ & H & _). destruct (ie_has_replacement e).
  - destruct H. split; by right.
  - destruct H as [-> _]. split; by left.
Qed.

#[global] Program Instance idempotency_codec : Codec IdempotencyEntry := {|
  encode := idempotency_encode; decode := idempotency_decode; codec_wf := idempotency_wf |}.
Next Obligation.
  intros e Hwf. pose proof (idempotency_replacement_wf e Hwf) as Hrw.
  destruct Hwf as (H1 & H2 & [H3 H4] & H5 & H6 & H7 & H8 & H9 & H10 & H11).
  assert (He := emits_replacement (idempotency_as_decision e) Hrw).
  assert (Hr := reads_replacement (idempotency_as_decision e) Hrw H6).
  assert (He' : emits (wr_when (ie_has_replacement e) (idempotency_replacement_encode e))
    (replacement_bytes (idempotency_as_decision e))).
  { unfold idempotency_replacement_encode. unfold replacement_encode in He.
    cbn [idempotency_as_decision fd_has_replacement fd_replacement fd_replacement_generation
      set_fd_has_replacement set_fd_replacement set_fd_replacement_generation] in He. exact He. }
  clear He.
  cbn [idempotency_as_decision fd_has_replacement fd_replacement fd_replacement_generation
    set_fd_has_replacement set_fd_replacement set_fd_replacement_generation] in Hr.
  eexists; split; [unfold idempotency_encode; emits_fields|].
  unfold idempotency_decode.
  assert (Hr' : reads (replacement_decode (ie_has_replacement e))
    (replacement_bytes (idempotency_as_decision e))
    (lk_fabric (ie_replacement e), lk_link (ie_replacement e), ie_replacement_generation e)).
  { apply Hr. intros Hf. by rewrite Hf in H7. }
  clear Hr. reads_fields. rewrite !enum_cast_code.
  destruct (ie_has_replacement e) eqn:E; cbn [fst snd].
  - destruct H7. reads_fields. destruct e as [? ? ? ? ? [] ? ? []]; cbn in *; subst. apply reads_ret.
  - destruct H7 as [Ek Eg]. cbn [ropt]. reads_fields.
    destruct e as [? ? ? ? ? [] ? ? []]; cbn in *. injection Ek as -> ->. subst. apply reads_ret.
Qed.
Next Obligation. unfold idempotency_decode. steady_solve. Qed.
Next Obligation. unfold idempotency_decode. checked_solve. Qed.

(** ** Boot and checkpoint payloads *)
Record BootPayload := MkBoot {
  bp_epoch : Epoch;
  bp_coordinator : Incarnation;
  bp_boot_count : Z;
  bp_epoch_advances : Z;
  bp_toolchain : string;
  bp_architecture : string;
}.

Definition boot_encode (p : BootPayload) : WriteM := writes [
  wr_u16 kIdentityFormatVersion;
  wr_u64 (bp_epoch p);
  wr_incarnation (bp_coordinator p);
  wr_u64 (bp_boot_count p);
  wr_u64 (bp_epoch_advances p);
  wr_str_max (bp_toolchain p) 64;
  wr_str_max (bp_architecture p) 64].

Definition boot_decode : ReadM (option BootPayload) :=
  let* format_version := rd_u16 in
  let* epoch := rd_u64 in
  let* coordinator := rd_incarnation in
  let* boot_count := rd_u64 in
  let* epoch_advances := rd_u64 in
  let* toolchain := rd_str_max 64 in
  let* architecture := rd_str_max 64 in
  let* ok := rd_is_ok in
  if (negb ok || negb (format_version =? kIdentityFormatVersion))%bool then rret None else
  rret (Some (MkBoot epoch coordinator boot_count epoch_advances toolchain architecture)).

Definition boot_wf (p : BootPayload) : Prop :=
  is_u64 (bp_epoch p) /\ incarnation_wf (bp_coordinator p) /\ is_u64 (bp_boot_count p) /\
  is_u64 (bp_epoch_advances p) /\ text_wf 64 (bp_toolchain p) /\ text_wf 64 (bp_architecture p).

#[global] Program Instance boot_codec : Codec BootPayload := {|
  encode := boot_encode; decode := boot_decode; codec_wf := boot_wf |}.
Next Obligation. intros []. codec_law_solve. apply reads_ret. Qed.
Next Obligation. unfold boot_decode. steady_solve. Qed.
Next Obligation. unfold boot_decode. checked_solve. Qed.

Record CheckpointPayload := MkCheckpoint {
  cp_covers_seq : LineageSeq;
  cp_record_count : Z;
  cp_snapshot_bytes : Z;
}.

Definition checkpoint_encode (p : CheckpointPayload) : WriteM := writes [
  wr_u16 kIdentityFormatVersion;
  wr_u64 (cp_covers_seq p);
  wr_u64 (cp_record_count p);
  wr_u64 (cp_snapshot_bytes p)].

Definition checkpoint_decode : ReadM (option CheckpointPayload) :=
  let* format_version := rd_u16 in
  let* covers_seq := rd_u64 in
  let* record_count := rd_u64 in
  let* snapshot_bytes := rd_u64 in
  let* ok := rd_is_ok in
  if (negb ok || negb (format_version =? kIdentityFormatVersion))%bool then rret None else
  rret (Some (MkCheckpoint covers_seq record_count snapshot_bytes)).

Definition checkpoint_wf (p : CheckpointPayload) : Prop :=
  is_u64 (cp_covers_seq p) /\ is_u64 (cp_record_count p) /\ is_u64 (cp_snapshot_bytes p).

#[global] Program Instance checkpoint_codec : Codec CheckpointPayload := {|
  encode := checkpoint_encode; decode := checkpoint_decode; codec_wf := checkpoint_wf |}.
Next Obligation. intros []. codec_law_solve. apply reads_ret. Qed.
Next Obligation. unfold checkpoint_decode. steady_solve. Qed.
Next Obligation. unfold checkpoint_decode. checked_solve. Qed.

(** ** Payloads

    [encode_*_payload] takes the writer's buffer whatever its flag says;
    [decode_*_payload] refuses trailing bytes. *)
Definition encode_payload {A} `{Codec A} (a : A) : bytes := encoded a.
Definition decode_payload {A} `{Codec A} (data : bytes) : option A :=
  match decode (reader_of data) with
  | (Some a, r) => if negb (reader_at_end r) then None else Some a
  | (None, _) => None
  end.
Definition encode_attempt_payload : AttemptRecord -> bytes := encode_payload.
Definition decode_attempt_payload : bytes -> option AttemptRecord := decode_payload.
Definition encode_policy_payload : FailoverPolicy -> bytes := encode_payload.
Definition decode_policy_payload : bytes -> option FailoverPolicy := decode_payload.
Definition encode_topology_payload : TopologySnapshot -> bytes := encode_payload.
Definition decode_topology_payload : bytes -> option TopologySnapshot := decode_payload.
Definition encode_fence_payload : FenceRecord -> bytes := encode_payload.
Definition decode_fence_payload : bytes -> option FenceRecord := decode_payload.
Definition encode_decision_payload : FailoverDecision -> bytes := encode_payload.
Definition decode_decision_payload : bytes -> option FailoverDecision := decode_payload.
Definition encode_idempotency_payload : IdempotencyEntry -> bytes := encode_payload.
Definition decode_idempotency_payload : bytes -> option IdempotencyEntry := decode_payload.
Definition encode_boot_payload : BootPayload -> bytes := encode_payload.
Definition decode_boot_payload : bytes -> option BootPayload := decode_payload.
Definition encode_checkpoint_payload : CheckpointPayload -> bytes := encode_payload.
Definition decode_checkpoint_payload : bytes -> option CheckpointPayload := decode_payload.

Lemma decode_payload_encode {A} `{Codec A} (a : A) :
  codec_wf a -> decode_payload (encode_payload a) = Some a.
Proof.
  intros Ha. unfold decode_payload, encode_payload.
  pose proof (decode_encoded a [] Ha) as E. rewrite app_nil_r in E. by rewrite E.
Qed.

(** Anything after a complete payload is refused. *)
Lemma decode_payload_trailing {A} `{Codec A} (a : A) rest :
  codec_wf a -> rest <> [] -> decode_payload (A := A) (encode_payload a ++ rest) = None.
Proof.
  intros Ha Hr. unfold decode_payload, encode_payload. rewrite decode_encoded by done.
  by destruct rest.
Qed.

(** A truncated payload is refused. *)
Lemma decode_payload_truncated {A} `{Codec A} (a : A) k :
  codec_wf a -> (k < length (encode_payload a))%nat ->
  decode_payload (A := A) (take k (encode_payload a)) = None.
Proof.
  intros Ha Hk. unfold decode_payload. pose proof (decode_truncated a k Ha Hk) as E.
  unfold encode_payload. by destruct (decode _) as [[] ?].
Qed.

(** ** Durable state *)
Record DurableState := MkState {
  ds_fabric : string;
  ds_policy : FailoverPolicy;
  ds_topology : TopologySnapshot;
  ds_epoch : Epoch;
  ds_coordinator : Incarnation;
  ds_last_seq : LineageSeq;
  ds_boot_count : Z;
  ds_record_count : Z;
  ds_epoch_advances : Z;
  ds_attempts : list AttemptRecord;
  ds_fences : list FenceRecord;
  ds_idempotency : list IdempotencyEntry;
}.
#[global] Instance durable_state_eq_dec : EqDecision DurableState.
Proof. solve_decision. Defined.

Definition set_ds_fabric (v : string) (r : DurableState) : DurableState :=
  MkState v (ds_policy r) (ds_topology r) (ds_epoch r) (ds_coordinator r) (ds_last_seq r)
    (ds_boot_count r) (ds_record_count r) (ds_epoch_advances r) (ds_attempts r) (ds_fences r)
    (ds_idempotency r).
Definition set_ds_policy (v : FailoverPolicy) (r : DurableState) : DurableState :=
  MkState (ds_fabric r) v (ds_topology r) (ds_epoch r) (ds_coordinator r) (ds_last_seq r)
    (ds_boot_count r) (ds_record_count r) (ds_epoch_advances r) (ds_attempts r) (ds_fences r)
    (ds_idempotency r).
Definition set_ds_topology (v : TopologySnapshot) (r : DurableState) : DurableState :=
  MkState (ds_fabric r) (ds_policy r) v (ds_epoch r) (ds_coordinator r) (ds_last_seq r)
    (ds_boot_count r) (ds_record_count r) (ds_epoch_advances r) (ds_attempts r) (ds_fences r)
    (ds_idempotency r).
Definition set_ds_epoch (v : Epoch) (r : DurableState) : DurableState :=
  MkState (ds_fabric r) (ds_policy r) (ds_topology r) v (ds_coordinator r) (ds_last_seq r)
    (ds_boot_count r) (ds_record_count r) (ds_epoch_advances r) (ds_attempts r) (ds_fences r)
    (ds_idempotency r).
Definition set_ds_coordinator (v : Incarnation) (r : DurableState) : DurableState :=
  MkState (ds_fabric r) (ds_policy r) (ds_topology r) (ds_epoch r) v (ds_last_seq r)
    (ds_boot_count r) (ds_record_count r) (ds_epoch_advances r) (ds_attempts r) (ds_fences r)
    (ds_idempotency r).
Definition set_ds_last_seq (v : LineageSeq) (r : DurableState) : DurableState :=
  MkState (ds_fabric r) (ds_policy r) (ds_topology r) (ds_epoch r) (ds_coordinator r) v
    (ds_boot_count r) (ds_record_count r) (ds_epoch_advances r) (ds_attempts r) (ds_fences r)
    (ds_idempotency r).
Definition set_ds_boot_count (v : Z) (r : DurableState) : DurableState :=
  MkState (ds_fabric r) (ds_policy r) (ds_topology r) (ds_epoch r) (ds_coordinator r)
    (ds_last_seq r) v (ds_record_count r) (ds_epoch_advances r) (ds_attempts r) (ds_fences r)
    (ds_idempotency r).
Definition set_ds_record_count (v : Z) (r : DurableState) : DurableState :=
  MkState (ds_fabric r) (ds_policy r) (ds_topology r) (ds_epoch r) (ds_coordinator r)
    (ds_last_seq r) (ds_boot_count r) v (ds_epoch_advances r) (ds_attempts r) (ds_fences r)
    (ds_idempotency r).
Definition set_ds_epoch_advances (v : Z) (r : DurableState) : DurableState :=
  MkState (ds_fabric r) (ds_policy r) (ds_topology r) (ds_epoch r) (ds_coordinator r)
    (ds_last_seq r) (ds_boot_count r) (ds_record_count r) v (ds_attempts r) (ds_fences r)
    (ds_idempotency r).
Definition set_ds_attempts (v : list AttemptRecord) (r : DurableState) : DurableState :=
  MkState (ds_fabric r) (ds_policy r) (ds_topology r) (ds_epoch r) (ds_coordinator r)
    (ds_last_seq r) (ds_boot_count r) (ds_record_count r) (ds_epoch_advances r) v (ds_fences r)
    (ds_idempotency r).
Definition set_ds_fences (v : list FenceRecord) (r : DurableState) : DurableState :=
  MkState (ds_fabric r) (ds_policy r) (ds_topology r) (ds_epoch r) (ds_coordinator r)
    (ds_last_seq r) (ds_boot_count r) (ds_record_count r) (ds_epoch_advances r) (ds_attempts r)
    v (ds_idempotency r).
Definition set_ds_idempotency (v : list IdempotencyEntry) (r : DurableState) : DurableState :=
  MkState (ds_fabric r) (ds_policy r) (ds_topology r) (ds_epoch r) (ds_coordinator r)
    (ds_last_seq r) (ds_boot_count r) (ds_record_count r) (ds_epoch_advances r) (ds_attempts r)
    (ds_fences r) v.
(** ** Options and status *)
Record StoreOptions := MkStoreOptions {
  sp_directory : string;
  sp_fabric : string;
  sp_policy : FailoverPolicy;
  sp_topology : TopologySnapshot;
  sp_max_attempts : nat;
  sp_max_fences : nat;
  sp_max_idempotency : nat;
  sp_snapshot_every_records : Z;
  sp_enable_snapshot : bool;
  sp_repair_torn_tail : bool;
}.
Record StoreStatus := MkStoreStatus {
  st_snapshot_loaded : bool;
  st_journal_loaded : bool;
  st_torn_tail_recovered : bool;
  st_truncated_to_empty : bool;
  st_records_replayed : Z;
  st_bytes_discarded : Z;
  st_attempts_evicted : Z;
  st_fences_evicted : Z;
  st_idempotency_evicted : Z;
  st_snapshots_written : Z;
  st_snapshot_bytes : Z;
}.
#[global] Instance store_status_eq_dec : EqDecision StoreStatus.
Proof. solve_decision. Defined.

Definition set_st_snapshot_loaded (v : bool) (r : StoreStatus) : StoreStatus :=
  MkStoreStatus v (st_journal_loaded r) (st_torn_tail_recovered r) (st_truncated_to_empty r)
    (st_records_replayed r) (st_bytes_discarded r) (st_attempts_evicted r) (st_fences_evicted r)
    (st_idempotency_evicted r) (st_snapshots_written r) (st_snapshot_bytes r).
Definition set_st_journal_loaded (v : bool) (r : StoreStatus) : StoreStatus :=
  MkStoreStatus (st_snapshot_loaded r) v (st_torn_tail_recovered r) (st_truncated_to_empty r)
    (st_records_replayed r) (st_bytes_discarded r) (st_attempts_evicted r) (st_fences_evicted r)
    (st_idempotency_evicted r) (st_snapshots_written r) (st_snapshot_bytes r).
Definition set_st_torn_tail_recovered (v : bool) (r : StoreStatus) : StoreStatus :=
  MkStoreStatus (st_snapshot_loaded r) (st_journal_loaded r) v (st_truncated_to_empty r)
    (st_records_replayed r) (st_bytes_discarded r) (st_attempts_evicted r) (st_fences_evicted r)
    (st_idempotency_evicted r) (st_snapshots_written r) (st_snapshot_bytes r).
Definition set_st_truncated_to_empty (v : bool) (r : StoreStatus) : StoreStatus :=
  MkStoreStatus (st_snapshot_loaded r) (st_journal_loaded r) (st_torn_tail_recovered r) v
    (st_records_replayed r) (st_bytes_discarded r) (st_attempts_evicted r) (st_fences_evicted r)
    (st_idempotency_evicted r) (st_snapshots_written r) (st_snapshot_bytes r).
Definition set_st_records_replayed (v : Z) (r : StoreStatus) : StoreStatus :=
  MkStoreStatus (st_snapshot_loaded r) (st_journal_loaded r) (st_torn_tail_recovered r)
    (st_truncated_to_empty r) v (st_bytes_discarded r) (st_attempts_evicted r)
    (st_fences_evicted r) (st_idempotency_evicted r) (st_snapshots_written r) (st_snapshot_bytes
    r).
Definition set_st_bytes_discarded (v : Z) (r : StoreStatus) : StoreStatus :=
  MkStoreStatus (st_snapshot_loaded r) (st_journal_loaded r) (st_torn_tail_recovered r)
    (st_truncated_to_empty r) (st_records_replayed r) v (st_attempts_evicted r)
    (st_fences_evicted r) (st_idempotency_evicted r) (st_snapshots_written r) (st_snapshot_bytes
    r).
Definition set_st_attempts_evicted (v : Z) (r : StoreStatus) : StoreStatus :=
  MkStoreStatus (st_snapshot_loaded r) (st_journal_loaded r) (st_torn_tail_recovered r)
    (st_truncated_to_empty r) (st_records_replayed r) (st_bytes_discarded r) v
    (st_fences_evicted r) (st_idempotency_evicted r) (st_snapshots_written r) (st_snapshot_bytes
    r).
Definition set_st_fences_evicted (v : Z) (r : StoreStatus) : StoreStatus :=
  MkStoreStatus (st_snapshot_loaded r) (st_journal_loaded r) (st_torn_tail_recovered r)
    (st_truncated_to_empty r) (st_records_replayed r) (st_bytes_discarded r)
    (st_attempts_evicted r) v (st_idempotency_evicted r) (st_snapshots_written r)
    (st_snapshot_bytes r).
Definition set_st_idempotency_evicted (v : Z) (r : StoreStatus) : StoreStatus :=
  MkStoreStatus (st_snapshot_loaded r) (st_journal_loaded r) (st_torn_tail_recovered r)
    (st_truncated_to_empty r) (st_records_replayed r) (st_bytes_discarded r)
    (st_attempts_evicted r) (st_fences_evicted r) v (st_snapshots_written r) (st_snapshot_bytes
    r).
Definition set_st_snapshots_written (v : Z) (r : StoreStatus) : StoreStatus :=
  MkStoreStatus (st_snapshot_loaded r) (st_journal_loaded r) (st_torn_tail_recovered r)
    (st_truncated_to_empty r) (st_records_replayed r) (st_bytes_discarded r)
    (st_attempts_evicted r) (st_fences_evicted r) (st_idempotency_evicted r) v
    (st_snapshot_bytes r).
Definition set_st_snapshot_bytes (v : Z) (r : StoreStatus) : StoreStatus :=
  MkStoreStatus (st_snapshot_loaded r) (st_journal_loaded r) (st_torn_tail_recovered r)
    (st_truncated_to_empty r) (st_records_replayed r) (st_bytes_discarded r)
    (st_attempts_evicted r) (st_fences_evicted r) (st_idempotency_evicted r)
    (st_snapshots_written r) v.
(** ** Retention *)
Definition attempt_less (a b : AttemptRecord) : bool :=
  if link_key_ltb (at_subject a) (at_subject b) then true
  else if link_key_ltb (at_subject b) (at_subject a) then false
  else at_attempt_seq a <? at_attempt_seq b.
Definition fence_less (a b : FenceRecord) : bool := fe_seq a <? fe_seq b.

(** [find_if], then [erase]. *)
Fixpoint erase_first {A} (p : A -> bool) (l : list A) : option (list A) :=
  match l with
  | [] => None
  | x :: rest =>
      if p x then Some rest
      else match erase_first p rest with Some rest' => Some (x :: rest') | None => None end
  end.

(** [while (size > max) { victim = find terminal; if none break; erase; ++evicted; }];
    the list shrinks in every round, so its length is enough fuel. *)
Fixpoint evict_loop (fuel : nat) (max : nat) (attempts : list AttemptRecord) (evicted : Z) :
    list AttemptRecord * Z :=
  match fuel with
  | O => (attempts, evicted)
  | S fuel' =>
      if Nat.leb (length attempts) max then (attempts, evicted)
      else match erase_first (fun r => attempt_phase_is_terminal (at_phase r)) attempts with
           | None => (attempts, evicted)
           | Some rest => evict_loop fuel' max rest (wrap64 (evicted + 1))
           end
  end.

(** The part of [LineageStore::Impl] that replay and the note_* helpers touch. *)
Record Lineage := MkLineage {
  ln_options : StoreOptions;
  ln_state : DurableState;
  ln_status : StoreStatus;
}.
Definition set_ln_state (v : DurableState) (l : Lineage) : Lineage :=
  MkLineage (ln_options l) v (ln_status l).
Definition set_ln_status (v : StoreStatus) (l : Lineage) : Lineage :=
  MkLineage (ln_options l) (ln_state l) v.

Definition evict_attempts (l : Lineage) : Lineage :=
  let attempts := ds_attempts (ln_state l) in
  let max := sp_max_attempts (ln_options l) in
  if Nat.leb (length attempts) max then l
  else
    let sorted := std_sort attempt_less attempts in
    let '(kept, evicted) :=
      evict_loop (length sorted) max sorted (st_attempts_evicted (ln_status l)) in
    set_ln_status (set_st_attempts_evicted evicted (ln_status l))
      (set_ln_state (set_ds_attempts kept (ln_state l)) l).

Definition evict_fences (l : Lineage) : Lineage :=
  let fences := ds_fences (ln_state l) in
  let max := sp_max_fences (ln_options l) in
  if Nat.leb (length fences) max then l
  else
    let excess := (length fences - max)%nat in
    set_ln_status (set_st_fences_evicted
        (wrap64 (st_fences_evicted (ln_status l) + Z.of_nat excess)) (ln_status l))
      (set_ln_state (set_ds_fences (drop excess (std_sort fence_less fences)) (ln_state l)) l).

Definition evict_idempotency (l : Lineage) : Lineage :=
  let entries := ds_idempotency (ln_state l) in
  let max := sp_max_idempotency (ln_options l) in
  if Nat.leb (length entries) max then l
  else
    let excess := (length entries - max)%nat in
    set_ln_status (set_st_idempotency_evicted
        (wrap64 (st_idempotency_evicted (ln_status l) + Z.of_nat excess)) (ln_status l))
      (set_ln_state (set_ds_idempotency (drop excess entries) (ln_state l)) l).

(** The loop replaces the first record with the same subject and sequence. *)
Definition same_attempt (a b : AttemptRecord) : bool :=
  (bool_decide (at_subject a = at_subject b) && (at_attempt_seq a =? at_attempt_seq b))%bool.
Fixpoint upsert (record : AttemptRecord) (attempts : list AttemptRecord) : list AttemptRecord :=
  match attempts with
  | [] => [record]
  | existing :: rest =>
      if same_attempt existing record then record :: rest else existing :: upsert record rest
  end.
Definition upsert_attempt (record : AttemptRecord) (l : Lineage) : Lineage :=
  set_ln_state (set_ds_attempts (upsert record (ds_attempts (ln_state l))) (ln_state l)) l.

Definition push_fence (record : FenceRecord) (l : Lineage) : Lineage :=
  set_ln_state (set_ds_fences (ds_fences (ln_state l) ++ [record]) (ln_state l)) l.
Definition push_idempotency (entry : IdempotencyEntry) (l : Lineage) : Lineage :=
  set_ln_state (set_ds_idempotency (ds_idempotency (ln_state l) ++ [entry]) (ln_state l)) l.

Definition note_attempt (record : AttemptRecord) (l : Lineage) : Lineage :=
  evict_attempts (upsert_attempt record l).
Definition note_fence (record : FenceRecord) (l : Lineage) : Lineage :=
  evict_fences (push_fence record l).
Definition note_idempotency (entry : IdempotencyEntry) (l : Lineage) : Lineage :=
  evict_idempotency (push_idempotency entry l).
Definition note_epoch (epoch : Epoch) (coordinator : Incarnation) (boot_count epoch_advances : Z)
    (l : Lineage) : Lineage :=
  set_ln_state (set_ds_epoch_advances epoch_advances (set_ds_boot_count boot_count
    (set_ds_coordinator coordinator (set_ds_epoch epoch (ln_state l))))) l.

(** ** Application of one journal record *)
Definition corrupt (code : ReasonCode) (detail : string) : Status :=
  status_failure Outcome.Corrupt code detail.
Definition phase_is (p : AttemptPhase) (r : AttemptRecord) : bool := enum_eqb (at_phase r) p.

Definition apply_attempt_record (type : RecordType) (seq : LineageSeq) (record : AttemptRecord)
    (l : Lineage) : Status * Lineage :=
  if (enum_eqb type RecordType.AttemptCreate && negb (phase_is AttemptPhase.Evaluated record) &&
      negb (phase_is AttemptPhase.Refused record) &&
      negb (phase_is AttemptPhase.Indeterminate record))%bool
  then (corrupt ReasonCode.CorruptRecord
          "AttemptCreate record carries a phase that is not an entry phase", l)
  else if (enum_eqb type RecordType.Completion && negb (phase_is AttemptPhase.Committed record))%bool
  then (corrupt ReasonCode.CorruptRecord "Completion record does not carry a committed attempt", l)
  else if (enum_eqb type RecordType.Rollback && negb (phase_is AttemptPhase.RolledBack record))%bool
  then (corrupt ReasonCode.CorruptRecord "Rollback record does not carry a rolled-back attempt", l)
  else if negb (at_create_seq record <=? seq)
  then (corrupt ReasonCode.SequenceRegression "attempt record precedes its creation sequence", l)
  else (status_success, evict_attempts (upsert_attempt record l)).

Definition apply_record (view : RecordView) (l : Lineage) : Status * Lineage :=
  match rv_type view with
  | RecordType.Boot =>
      match decode_boot_payload (rv_payload view) with
      | None => (corrupt ReasonCode.MalformedEncoding "boot record payload is malformed", l)
      | Some p => (status_success, note_epoch (bp_epoch p) (bp_coordinator p) (bp_boot_count p)
                     (bp_epoch_advances p) l)
      end
  | RecordType.PolicyCommit =>
      match decode_policy_payload (rv_payload view) with
      | None => (corrupt ReasonCode.MalformedEncoding "policy record payload is malformed", l)
      | Some p => (status_success, set_ln_state (set_ds_policy p (ln_state l)) l)
      end
  | RecordType.TopologyCommit =>
      match decode_topology_payload (rv_payload view) with
      | None => (corrupt ReasonCode.MalformedEncoding "topology record payload is malformed", l)
      | Some t => (status_success, set_ln_state (set_ds_topology t (ln_state l)) l)
      end
  | RecordType.AttemptCreate | RecordType.AttemptUpdate | RecordType.Completion
  | RecordType.Rollback =>
      match decode_attempt_payload (rv_payload view) with
      | None => (corrupt ReasonCode.MalformedEncoding "attempt record payload is malformed", l)
      | Some record => apply_attempt_record (rv_type view) (rv_seq view) record l
      end
  | RecordType.Fence =>
      match decode_fence_payload (rv_payload view) with
      | None => (corrupt ReasonCode.MalformedEncoding "fence record payload is malformed", l)
      | Some record =>
          if negb (fe_seq record =? rv_seq view)
          then (corrupt ReasonCode.CorruptRecord
                  "fence record sequence does not match its lineage position", l)
          else (status_success, evict_fences (push_fence record l))
      end
  | RecordType.DecisionCommit =>
      match decode_decision_payload (rv_payload view) with
      | None => (corrupt ReasonCode.MalformedEncoding "decision record payload is malformed", l)
      | Some _ => (status_success, l)
      end
  | RecordType.IdempotencyIndex =>
      match decode_idempotency_payload (rv_payload view) with
      | None => (corrupt ReasonCode.MalformedEncoding "idempotency record payload is malformed", l)
      | Some entry => (status_success, evict_idempotency (push_idempotency entry l))
      end
  | RecordType.Checkpoint | RecordType.Shutdown => (status_success, l)
  end.

(** ** Lookups *)
Definition about_generation (subject : LinkKey) (generation : LinkGeneration) (r : AttemptRecord) : bool :=
  (bool_decide (at_subject r = subject) && (at_subject_generation r =? generation))%bool.

(** [if (found == nullptr || found->attempt_seq < record.attempt_seq) found = &record;] *)
Definition latest_of (p : AttemptRecord -> bool) (attempts : list AttemptRecord) : option AttemptRecord :=
  foldl (fun found r =>
    if negb (p r) then found
    else match found with
         | None => Some r
         | Some f => if at_attempt_seq f <? at_attempt_seq r then Some r else found
         end) None attempts.

Definition latest_attempt (st : DurableState) (subject : LinkKey) (generation : LinkGeneration) :
    option AttemptRecord :=
  latest_of (about_generation subject generation) (ds_attempts st).
Definition count_attempts (st : DurableState) (subject : LinkKey) (generation : LinkGeneration) : nat :=
  length (List.filter (about_generation subject generation) (ds_attempts st)).
Definition find_attempt (st : DurableState) (subject : LinkKey) (seq : AttemptSeq) :
    option AttemptRecord :=
  find_first (fun r => (bool_decide (at_subject r = subject) && (at_attempt_seq r =? seq))%bool)
    (ds_attempts st).

(** Authority minted by a previous incarnation never counts as current. *)
Definition authority_current (st : DurableState) (r : AttemptRecord) : bool :=
  ((av_epoch (at_authority r) =? ds_epoch st) &&
   bool_decide (av_coordinator (at_authority r) = ds_coordinator st))%bool.
Definition live_authority (st : DurableState) (subject : LinkKey) (generation : LinkGeneration)
    (r : AttemptRecord) : bool :=
  (about_generation subject generation r && attempt_phase_holds_authority (at_phase r) &&
   authority_current st r)%bool.
Definition active_authority (st : DurableState) (subject : LinkKey) (generation : LinkGeneration) :
    option AttemptRecord :=
  latest_of (live_authority st subject generation) (ds_attempts st).

Definition find_idempotency (st : DurableState) (key : Digest) : option IdempotencyEntry :=
  if digest_is_zero key then None
  else find_first (fun e => bool_decide (ie_key e = key)) (ds_idempotency st).

(** ** Snapshot frame *)
Definition kSnapshotMagic : Z := 0x31504E53.
Definition kSnapshotHeaderSize : Z := 32.
Definition kSnapshotFormatVersion : Z := 1.
Definition kMaxSnapshotBytes : Z := 33554432.
Definition kMaxIdempotencyDecisionBytes : Z := 4096.

Definition snapshot_header_body (payload : bytes) : bytes :=
  le_bytes 4 kSnapshotMagic ++ le_bytes 2 kSnapshotFormatVersion ++ le_bytes 2 0 ++
  le_bytes 4 (Z.of_nat (length payload)) ++ le_bytes 4 (crc32c payload) ++ replicate 12 0.
Definition frame_snapshot (payload : bytes) : bytes :=
  (snapshot_header_body payload ++ le_bytes 4 (crc32c (snapshot_header_body payload))) ++ payload.

Definition unframe_snapshot (framed : bytes) : Result bytes :=
  if Z.of_nat (length framed) <? kSnapshotHeaderSize
  then fail Outcome.Corrupt ReasonCode.CorruptRecord "snapshot is shorter than its header"
  else if negb (load_u32 framed 0 =? kSnapshotMagic)
  then fail Outcome.Corrupt ReasonCode.CorruptRecord "snapshot magic mismatch"
  else if negb (crc32c (take 28 framed) =? load_u32 framed 28)
  then fail Outcome.Corrupt ReasonCode.ChecksumMismatch "snapshot header checksum mismatch"
  else let version := load_u16 framed 4 in
  if negb (version =? kSnapshotFormatVersion)
  then Failure (status_add (status_failure Outcome.Unsupported ReasonCode.UnsupportedFormatVersion
         "unsupported snapshot format version") ReasonCode.InvalidArgument (decimal_text version))
  else if negb (load_u16 framed 6 =? 0)
  then fail Outcome.Invalid ReasonCode.ReservedBitsSet "snapshot flags must be zero"
  else let length_ := load_u32 framed 8 in
  if length_ >? kMaxSnapshotBytes
  then fail Outcome.LimitExceeded ReasonCode.LimitExceeded
         "snapshot payload exceeds the supported bound"
  else if negb (Z.of_nat (length framed) =? kSnapshotHeaderSize + length_)
  then fail Outcome.Corrupt ReasonCode.CorruptRecord
         "snapshot length does not match its declared payload"
  else let payload := drop 32 framed in
  if negb (crc32c payload =? load_u32 framed 12)
  then fail Outcome.Corrupt ReasonCode.ChecksumMismatch "snapshot payload checksum mismatch"
  else Success payload.

(** ** Snapshot payload *)
Definition snapshot_entry_encode (e : IdempotencyEntry) : WriteM := writes [
  wr_u16 1;
  wr_blob (encode_idempotency_payload e) kMaxIdempotencyDecisionBytes].

Definition snapshot_encode (st : DurableState) : WriteM := writes [
  wr_u16 kIdentityFormatVersion;
  wr_str (ds_fabric st);
  encode (ds_policy st);
  encode (ds_topology st);
  wr_u64 (ds_epoch st);
  wr_incarnation (ds_coordinator st);
  wr_u64 (ds_last_seq st);
  wr_u64 (ds_boot_count st);
  wr_u64 (ds_record_count st);
  wr_u64 (ds_epoch_advances st);
  wr_u32 (Z.of_nat (length (ds_attempts st)));
  wr_u32 (Z.of_nat (length (ds_fences st)));
  wr_u32 (Z.of_nat (length (ds_idempotency st)));
  wr_each encode (ds_attempts st);
  wr_each encode (ds_fences st);
  wr_each snapshot_entry_encode (ds_idempotency st)].

Definition serialise (st : DurableState) : Result bytes :=
  if existsb (fun e => Z.of_nat (length (encode_idempotency_payload e)) >? kMaxIdempotencyDecisionBytes)
       (ds_idempotency st)
  then fail Outcome.LimitExceeded ReasonCode.LimitExceeded
         "idempotency entry exceeds the snapshot bound"
  else
    let sink := snapshot_encode st writer_empty in
    if negb (wr_ok sink)
    then fail Outcome.LimitExceeded ReasonCode.LimitExceeded "snapshot exceeds the supported bound"
    else Success (wr_buf sink).

(** A decoder step that returns the given status when the option is empty. *)
Definition rres {A B} (o : option A) (s : Status) (k : A -> ReadM (Result B)) : ReadM (Result B) :=
  match o with Some x => k x | None => rret (Failure s) end.

Definition malformed (detail : string) : Status := corrupt ReasonCode.MalformedEncoding detail.

Definition snapshot_entry_decode : ReadM (Result IdempotencyEntry) :=
  let* entry_version := rd_u16 in
  let* blob := rd_blob kMaxIdempotencyDecisionBytes in
  let* ok := rd_is_ok in
  if (negb ok || negb (entry_version =? 1))%bool
  then rret (Failure (malformed "snapshot idempotency entry is malformed"))
  else rres (decode_idempotency_payload blob) (malformed "snapshot idempotency payload is malformed")
         (fun e => rret (Success e)).

Fixpoint snapshot_entries (n : nat) : ReadM (Result (list IdempotencyEntry)) :=
  match n with
  | O => rret (Success [])
  | S n' =>
      let* x := snapshot_entry_decode in
      match x with
      | Failure s => rret (Failure s)
      | Success x =>
          let* xs := snapshot_entries n' in
          match xs with
          | Failure s => rret (Failure s)
          | Success xs => rret (Success (x :: xs))
          end
      end
  end.

Definition snapshot_body : ReadM (Result DurableState) :=
  let* format_version := rd_u16 in
  let* fabric := rd_str in
  let* policy := decode in
  rres policy (malformed "snapshot policy is malformed") (fun policy =>
  let* topology := decode in
  rres topology (malformed "snapshot topology is malformed") (fun topology =>
  let* epoch := rd_u64 in
  let* coordinator := rd_incarnation in
  let* last_seq := rd_u64 in
  let* boot_count := rd_u64 in
  let* record_count := rd_u64 in
  let* epoch_advances := rd_u64 in
  let* attempt_count := rd_u32 in
  let* fence_count := rd_u32 in
  let* idempotency_count := rd_u32 in
  let* ok := rd_is_ok in
  if negb ok then rret (Failure (malformed "snapshot header fields are malformed"))
  else if negb (format_version =? kIdentityFormatVersion)
  then rret (fail Outcome.Unsupported ReasonCode.UnsupportedFormatVersion
               "unsupported snapshot identity format version")
  else if ((attempt_count >? 1000000) || (fence_count >? 1000000) || (idempotency_count >? 1000000))%bool
  then rret (fail Outcome.LimitExceeded ReasonCode.LimitExceeded
               "snapshot declares an impossible element count")
  else rres (result_value (name_parse fabric)) (malformed "snapshot fabric name is malformed")
    (fun fabric =>
  let* attempts := rd_each (Z.to_nat attempt_count) decode in
  rres attempts (malformed "snapshot attempt record is malformed") (fun attempts =>
  let* fences := rd_each (Z.to_nat fence_count) decode in
  rres fences (malformed "snapshot fence record is malformed") (fun fences =>
  let* entries := snapshot_entries (Z.to_nat idempotency_count) in
  match entries with
  | Failure s => rret (Failure s)
  | Success entries =>
      rret (Success (MkState fabric policy topology epoch coordinator last_seq boot_count
        record_count epoch_advances attempts fences entries))
  end))))).

Definition deserialise (payload : bytes) : Result DurableState :=
  match snapshot_body (reader_of payload) with
  | (Failure s, _) => Failure s
  | (Success st, r) =>
      if negb (reader_at_end r)
      then fail Outcome.Corrupt ReasonCode.TrailingBytes "snapshot contains trailing bytes"
      else Success st
  end.

Arguments frame_snapshot : simpl never.
Arguments unframe_snapshot : simpl never.
Arguments serialise : simpl never.
Arguments deserialise : simpl never.

(** ** Snapshot properties *)
Record state_wf (st : DurableState) : Prop := {
  swf_fabric : is_valid_name (ds_fabric st) = true;
  swf_policy : policy_wf (ds_policy st);
  swf_topology : topology_wf (ds_topology st);
  swf_epoch : is_u64 (ds_epoch st);
  swf_coordinator : incarnation_wf (ds_coordinator st);
  swf_last_seq : is_u64 (ds_last_seq st);
  swf_boot_count : is_u64 (ds_boot_count st);
  swf_record_count : is_u64 (ds_record_count st);
  swf_epoch_advances : is_u64 (ds_epoch_advances st);
  swf_attempts : count_wf 1000000 (ds_attempts st) /\ Forall attempt_wf (ds_attempts st);
  swf_fences : count_wf 1000000 (ds_fences st) /\ Forall fence_wf (ds_fences st);
  swf_idempotency : count_wf 1000000 (ds_idempotency st) /\ Forall idempotency_wf (ds_idempotency st);
}.

Definition snapshot_entry_bytes (e : IdempotencyEntry) : bytes :=
  le_bytes 2 1 ++ (le_bytes 4 (Z.of_nat (length (encode_idempotency_payload e))) ++
    encode_idempotency_payload e) ++ [].

Definition entry_fits (e : IdempotencyEntry) : Prop :=
  Z.of_nat (length (encode_idempotency_payload e)) <= kMaxIdempotencyDecisionBytes.

Lemma emits_snapshot_entry e : entry_fits e -> emits (snapshot_entry_encode e) (snapshot_entry_bytes e).
Proof.
  intros Hf. unfold snapshot_entry_encode, snapshot_entry_bytes.
  eapply emits_cons; [apply emits_u16|]. eapply emits_cons; [by apply emits_blob|apply emits_nil].
Qed.

Lemma reads_snapshot_entry e :
  idempotency_wf e -> entry_fits e -> reads snapshot_entry_decode (snapshot_entry_bytes e) (Success e).
Proof.
  intros Hw Hf. unfold snapshot_entry_decode, snapshot_entry_bytes.
  eapply reads_bind; [apply reads_u16; ints|]. eapply reads_bind.
  { apply reads_blob; [done|]. unfold entry_fits, kMaxIdempotencyDecisionBytes in Hf. ints. }
  eapply reads_bind_nil; [apply reads_is_ok|]. cbn [negb orb Z.eqb].
  assert (E : decode_idempotency_payload (encode_idempotency_payload e) = Some e)
    by by apply decode_payload_encode.
  rewrite E. apply reads_ret.
Qed.

Lemma reads_snapshot_entries l :
  Forall idempotency_wf l -> Forall entry_fits l ->
  reads (snapshot_entries (Z.to_nat (Z.of_nat (length l)))) (concat (map snapshot_entry_bytes l)) (Success l).
Proof.
  rewrite Nat2Z.id. intros Hw Hf. induction l as [|e l IH]; [apply reads_ret|].
  apply Forall_cons in Hw as [Hw1 Hw], Hf as [Hf1 Hf].
  cbn [length snapshot_entries map concat]. eapply reads_bind; [by apply reads_snapshot_entry|].
  cbv beta iota. eapply reads_last; [by apply IH|]. apply reads_ret.
Qed.

Lemma serialise_ok st :
  state_wf st -> Forall entry_fits (ds_idempotency st) ->
  exists bs, emits (snapshot_encode st) bs /\ reads snapshot_body bs (Success st).
Proof.
  intros [H1 H2 H3 H4 H5 H6 H7 H8 H9 [H10 H11] [H12 H13] [H14 H15]] Hf.
  assert (He : emits (wr_each snapshot_entry_encode (ds_idempotency st))
    (concat (map snapshot_entry_bytes (ds_idempotency st)))).
  { apply emits_each. intros e He. apply emits_snapshot_entry. rewrite Forall_forall in Hf. by apply Hf. }
  eexists; split; [unfold snapshot_encode; emits_fields|].
  unfold snapshot_body. reads_fields. cbn [rres]. reads_fields. cbn [rres]. reads_fields.
  rewrite name_parse_valid by done. cbn [result_value rres].
  reads_fields. cbn [rres]. reads_fields. cbn [rres].
  eapply reads_bind; [by apply reads_snapshot_entries|]. destruct st; apply reads_ret.
Qed.

Lemma entries_fit_b l :
  existsb (fun e => Z.of_nat (length (encode_idempotency_payload e)) >? kMaxIdempotencyDecisionBytes) l = false <->
  Forall entry_fits l.
Proof.
  induction l as [|e l IH]; cbn [existsb]; [split; [constructor|done]|].
  rewrite orb_false_iff, Forall_cons, IH. unfold entry_fits.
  destruct (Z.gtb_spec (Z.of_nat (length (encode_idempotency_payload e))) kMaxIdempotencyDecisionBytes);
    intuition lia.
Qed.

Lemma deserialise_serialise_lemma st payload :
  state_wf st -> serialise st = Success payload -> deserialise payload = Success st.
Proof.
  intros Hw. unfold serialise. destruct (existsb _ _) eqn:Ee; [done|]. apply entries_fit_b in Ee.
  destruct (serialise_ok st Hw Ee) as (bs & He & Hr). rewrite (He writer_empty) by done.
  cbn [wr_ok wr_buf negb writer_empty app]. intros [= <-]. unfold deserialise.
  pose proof (Hr []) as E. rewrite app_nil_r in E. unfold reader_of. by rewrite E.
Qed.

(** C37: a snapshot restores exactly the state that was serialised. *)
Theorem deserialise_serialise st payload :
  state_wf st -> serialise st = Success payload -> deserialise payload = Success st.
Proof. apply deserialise_serialise_lemma. Qed.

(** Serialisation fails only when one idempotency entry outgrows its bound. *)
Lemma serialise_total st :
  state_wf st -> Forall entry_fits (ds_idempotency st) -> exists payload, serialise st = Success payload.
Proof.
  intros Hw Hf. unfold serialise. rewrite (proj2 (entries_fit_b _) Hf).
  destruct (serialise_ok st Hw Hf) as (bs & He & _). rewrite (He writer_empty) by done. cbn. eauto.
Qed.

Lemma unframe_frame payload :
  Z.of_nat (length payload) <= kMaxSnapshotBytes ->
  unframe_snapshot (frame_snapshot payload) = Success payload.
Proof.
  intros Hl. unfold unframe_snapshot, frame_snapshot. set (body := snapshot_header_body payload).
  assert (Hh : length ((body ++ le_bytes 4 (crc32c body)) ++ payload) = (32 + length payload)%nat).
  { by rewrite length_app. }
  rewrite Hh. destruct (Z.ltb_spec (Z.of_nat (32 + length payload)) kSnapshotHeaderSize) as [H|_];
    [unfold kSnapshotHeaderSize in H; lia|].
  destruct (sealed_header body payload eq_refl) as [-> ->]. rewrite (Z.eqb_refl (crc32c body)). cbn [negb].
  assert (Hd : drop 32 ((body ++ le_bytes 4 (crc32c body)) ++ payload) = payload).
  { rewrite drop_app_ge; [|by rewrite length_app]. by rewrite length_app. }
  rewrite Hd.
  change (load_u32 ((body ++ le_bytes 4 (crc32c body)) ++ payload) 0)
    with (le_value (le_bytes 4 kSnapshotMagic)).
  change (load_u16 ((body ++ le_bytes 4 (crc32c body)) ++ payload) 4)
    with (le_value (le_bytes 2 kSnapshotFormatVersion)).
  change (load_u16 ((body ++ le_bytes 4 (crc32c body)) ++ payload) 6) with (le_value (le_bytes 2 0)).
  change (load_u32 ((body ++ le_bytes 4 (crc32c body)) ++ payload) 8)
    with (le_value (le_bytes 4 (Z.of_nat (length payload)))).
  change (load_u32 ((body ++ le_bytes 4 (crc32c body)) ++ payload) 12)
    with (le_value (le_bytes 4 (crc32c payload))).
  rewrite (le_value_u32 (crc32c payload)) by apply crc32c_u32.
  rewrite (le_value_u32 (Z.of_nat (length payload))) by (unfold kMaxSnapshotBytes in Hl; ints).
  rewrite gtb_false, (Z.eqb_refl (crc32c payload)) by lia.
  replace (Z.of_nat (32 + length payload)) with (kSnapshotHeaderSize + Z.of_nat (length payload))
    by (unfold kSnapshotHeaderSize; lia).
  rewrite (Z.eqb_refl (kSnapshotHeaderSize + _)). reflexivity.
Qed.

Lemma snapshot_header_body_u8 payload : Forall is_u8 (snapshot_header_body payload).
Proof.
  unfold snapshot_header_body. repeat apply Forall_app_2; try apply le_bytes_u8.
  apply (bool_decide_unpack _). vm_compute. exact I.
Qed.

(** a snapshot frame in which any single byte was changed is refused. *)
Theorem unframe_one_byte_corruption payload i b :
  Forall is_u8 payload -> is_u8 b -> (i < length (frame_snapshot payload))%nat ->
  frame_snapshot payload !! i <> Some b ->
  is_failure (unframe_snapshot (<[i := b]> (frame_snapshot payload))) = true.
Proof.
  intros Hp Hb Hi Hne. unfold frame_snapshot in *. set (body := snapshot_header_body payload) in *.
  assert (Hh : length (body ++ le_bytes 4 (crc32c body)) = 32%nat) by done.
  rewrite length_app, Hh in Hi. unfold unframe_snapshot.
  destruct (decide (i < 32)%nat) as [Hlt|Hge].
  - rewrite insert_app_l by lia. rewrite lookup_app_l in Hne by lia.
    rewrite (sealed_header_corrupt body i b payload) by (done || apply snapshot_header_body_u8).
    cbn [negb]. by repeat case_if.
  - rewrite insert_app_r_alt by lia. rewrite lookup_app_r in Hne by lia. rewrite Hh in *.
    set (p' := <[(i - 32)%nat := b]> payload) in *.
    destruct (lookup_lt_is_Some_2 payload (i - 32)%nat ltac:(lia)) as [x Hx].
    assert (Hcrc : crc32c p' <> crc32c payload).
    { subst p'. pose proof (crc32c_one_byte (take (i - 32) payload) b x (drop (S (i - 32)) payload)) as Hc.
      rewrite (take_drop_middle _ _ x Hx) in Hc. rewrite insert_take_drop by lia.
      apply Hc; [done| |congruence]. rewrite Forall_forall in Hp. apply Hp.
      by eapply list_elem_of_lookup_2. }
    assert (Hd : drop 32 ((body ++ le_bytes 4 (crc32c body)) ++ p') = p').
    { rewrite drop_app_ge; [|by rewrite length_app]. by rewrite length_app. }
    rewrite Hd.
    change (load_u32 ((body ++ le_bytes 4 (crc32c body)) ++ p') 12)
      with (le_value (le_bytes 4 (crc32c payload))).
    rewrite (le_value_u32 (crc32c payload)) by apply crc32c_u32.
    rewrite (proj2 (Z.eqb_neq _ _) Hcrc). cbn [negb]. by repeat case_if.
Qed.

(** the frame around a snapshot gives its payload back, up to the bound the
    reader enforces. *)
Theorem unframe_frame_snapshot payload :
  Z.of_nat (length payload) <= kMaxSnapshotBytes ->
  unframe_snapshot (frame_snapshot payload) = Success payload.
Proof. apply unframe_frame. Qed.

(** ** Retention properties *)
Definition is_terminal (r : AttemptRecord) : bool := attempt_phase_is_terminal (at_phase r).

Lemma erase_first_spec {A} (p : A -> bool) l l' :
  erase_first p l = Some l' ->
  exists l1 x l2, l = l1 ++ x :: l2 /\ l' = l1 ++ l2 /\ p x = true /\ Forall (fun y => p y = false) l1.
Proof.
  revert l'. induction l as [|x l IH]; intros l' H; [done|]. cbn in H. destruct (p x) eqn:E.
  - injection H as <-. exists [], x, l. repeat split; [done|constructor].
  - destruct (erase_first p l) as [r|]; [|done]. injection H as <-.
    destruct (IH r eq_refl) as (l1 & y & l2 & -> & -> & Hy & Hl). exists (x :: l1), y, l2.
    repeat split; [done|by constructor].
Qed.

Lemma erase_first_None {A} (p : A -> bool) l : erase_first p l = None -> Forall (fun y => p y = false) l.
Proof.
  induction l as [|x l IH]; [constructor|]. cbn. destruct (p x) eqn:E; [done|].
  destruct (erase_first p l); [done|]. intros _. constructor; auto.
Qed.

(** The eviction loop keeps a sublist, drops only terminal attempts, and stops
    within the bound unless everything left is in flight. *)
(** What is kept does not depend on the statistics. *)
Lemma evict_loop_kept fuel max l z z' : (evict_loop fuel max l z).1 = (evict_loop fuel max l z').1.
Proof.
  revert l z z'. induction fuel as [|n IH]; intros l z z'; cbn [evict_loop]; [done|].
  destruct (Nat.leb _ _); [done|]. destruct (erase_first _ l); [apply IH|done].
Qed.

Lemma evict_loop_spec fuel max l evicted kept evicted' :
  (length l <= fuel)%nat -> evict_loop fuel max l evicted = (kept, evicted') ->
  kept `sublist_of` l /\
  (forall r, r ∈ l -> is_terminal r = false -> r ∈ kept) /\
  ((length kept <= max)%nat \/ Forall (fun r => is_terminal r = false) kept).
Proof.
  revert l evicted. induction fuel as [|fuel IH]; intros l evicted Hf H.
  { injection H as <- <-. destruct l; [|cbn in Hf; lia]. split; [done|split; [done|]]. left; cbn; lia. }
  cbn [evict_loop] in H. destruct (Nat.leb_spec (length l) max) as [Hle|Hgt].
  { injection H as <- <-. split; [done|split; [done|by left]]. }
  destruct (erase_first _ l) as [rest|] eqn:E.
  - apply erase_first_spec in E as (l1 & x & l2 & -> & -> & Hx & _).
    assert (Hf' : (length (l1 ++ l2) <= fuel)%nat) by (rewrite length_app in *; cbn [length] in Hf; lia).
    destruct (IH _ _ Hf' H) as (Hs & Hk & Hb).
    split; [|split; [|done]].
    + etrans; [exact Hs|]. apply sublist_app; [done|]. by apply sublist_cons.
    + intros r Hr Ht. apply Hk; [|done]. rewrite elem_of_app, elem_of_cons in Hr. rewrite elem_of_app.
      destruct Hr as [?|[->|?]]; [by left| |by right]. unfold is_terminal in Ht. congruence.
  - injection H as <- <-. split; [done|split; [done|]]. right. by apply erase_first_None in E.
Qed.

Lemma evict_attempts_spec l (l' := evict_attempts l) :
  (forall r, r ∈ ds_attempts (ln_state l') -> r ∈ ds_attempts (ln_state l)) /\
  (forall r, r ∈ ds_attempts (ln_state l) -> is_terminal r = false -> r ∈ ds_attempts (ln_state l')) /\
  ((length (ds_attempts (ln_state l')) <= sp_max_attempts (ln_options l))%nat \/
   Forall (fun r => is_terminal r = false) (ds_attempts (ln_state l'))).
Proof.
  subst l'. unfold evict_attempts.
  destruct (Nat.leb_spec (length (ds_attempts (ln_state l))) (sp_max_attempts (ln_options l))) as [Hle|Hgt].
  { split; [done|split; [done|by left]]. }
  set (sorted := std_sort attempt_less (ds_attempts (ln_state l))).
  destruct (evict_loop _ _ sorted _) as [kept evicted] eqn:E. cbn.
  apply evict_loop_spec in E as (Hs & Hk & Hb); [|done]. split; [|split; [|done]].
  - intros r Hr. apply (elem_of_std_sort attempt_less). fold sorted.
    eapply elem_of_submseteq; [exact Hr|]. by apply sublist_submseteq.
  - intros r Hr Ht. apply Hk; [|done]. by apply elem_of_std_sort.
Qed.

Lemma evict_attempts_others l :
  ds_epoch (ln_state (evict_attempts l)) = ds_epoch (ln_state l) /\
  ds_coordinator (ln_state (evict_attempts l)) = ds_coordinator (ln_state l) /\
  ds_last_seq (ln_state (evict_attempts l)) = ds_last_seq (ln_state l) /\
  ln_options (evict_attempts l) = ln_options l.
Proof.
  unfold evict_attempts. destruct (Nat.leb _ _); [done|]. by destruct (evict_loop _ _ _ _).
Qed.

Lemma evict_fences_bound l :
  (length (ds_fences (ln_state (evict_fences l))) <= sp_max_fences (ln_options l))%nat.
Proof.
  unfold evict_fences. destruct (Nat.leb_spec (length (ds_fences (ln_state l))) (sp_max_fences (ln_options l)));
    [done|]. cbn. rewrite length_drop, std_sort_length. lia.
Qed.

Lemma evict_idempotency_bound l :
  (length (ds_idempotency (ln_state (evict_idempotency l))) <= sp_max_idempotency (ln_options l))%nat.
Proof.
  unfold evict_idempotency.
  destruct (Nat.leb_spec (length (ds_idempotency (ln_state l))) (sp_max_idempotency (ln_options l)));
    [done|]. cbn. rewrite length_drop. lia.
Qed.

Lemma elem_of_upsert r record l : r ∈ upsert record l -> r = record \/ r ∈ l.
Proof.
  induction l as [|x l IH]; cbn [upsert].
  - rewrite list_elem_of_singleton. auto.
  - destruct (same_attempt x record); rewrite !elem_of_cons; intuition.
Qed.

Lemma upsert_in record l : record ∈ upsert record l.
Proof.
  induction l as [|x l IH]; cbn [upsert]; [constructor|].
  destruct (same_attempt x record); constructor; done.
Qed.

Lemma same_attempt_iff a b :
  same_attempt a b = true <-> at_subject a = at_subject b /\ at_attempt_seq a = at_attempt_seq b.
Proof. unfold same_attempt. by rewrite andb_true_iff, bool_decide_eq_true, Z.eqb_eq. Qed.

Lemma upsert_other r record l : r ∈ l -> same_attempt r record = false -> r ∈ upsert record l.
Proof.
  induction l as [|x l IH]; [by intros ?%elem_of_nil|]. rewrite elem_of_cons. cbn [upsert].
  intros [->|Hr] Hn.
  - rewrite Hn. constructor.
  - destruct (same_attempt x record) eqn:E; constructor; auto.
Qed.

(** The key under which attempts are stored. *)
Definition attempt_key (r : AttemptRecord) : LinkKey * Z := (at_subject r, at_attempt_seq r).
Definition keys_unique (l : list AttemptRecord) : Prop := NoDup (map attempt_key l).

Lemma same_attempt_key a b : same_attempt a b = true <-> attempt_key a = attempt_key b.
Proof. rewrite same_attempt_iff. unfold attempt_key. split; [intros [-> ->]; done|by intros [= -> ->]]. Qed.

Lemma elem_of_keys k l : k ∈ map attempt_key l <-> exists r, r ∈ l /\ attempt_key r = k.
Proof.
  change (map attempt_key) with (fmap (M := list) attempt_key). rewrite list_elem_of_fmap.
  split; intros (r & H1 & H2); exists r; auto.
Qed.

Lemma upsert_keys_unique record l : keys_unique l -> keys_unique (upsert record l).
Proof.
  unfold keys_unique. induction l as [|x l IH]; cbn [upsert map].
  { intros _. apply NoDup_singleton. }
  rewrite NoDup_cons. intros [Hx Hl]. destruct (same_attempt x record) eqn:E; cbn [map]; rewrite NoDup_cons.
  - apply same_attempt_key in E. rewrite <- E. done.
  - split; [|by apply IH]. rewrite elem_of_keys. intros (r & Hr & Hk).
    apply elem_of_upsert in Hr as [->|Hr].
    + symmetry in Hk. apply same_attempt_key in Hk. congruence.
    + apply Hx, elem_of_keys. eauto.
Qed.

Lemma evict_loop_sublist fuel max l z : (evict_loop fuel max l z).1 `sublist_of` l.
Proof.
  revert l z. induction fuel as [|n IH]; intros l z; cbn [evict_loop]; [done|].
  destruct (Nat.leb _ _); [done|]. destruct (erase_first _ l) as [rest|] eqn:E; [|done].
  apply erase_first_spec in E as (l1 & x & l2 & -> & -> & _). etrans; [apply IH|].
  apply sublist_app; [done|]. by apply sublist_cons.
Qed.

Lemma evict_attempts_unique l : keys_unique (ds_attempts (ln_state l)) -> keys_unique (ds_attempts (ln_state (evict_attempts l))).
Proof.
  intros H. unfold evict_attempts. destruct (Nat.leb _ _); [done|].
  set (x := std_sort attempt_less (ds_attempts (ln_state l))).
  pose proof (evict_loop_sublist (length x) (sp_max_attempts (ln_options l)) x (st_attempts_evicted (ln_status l))) as Hs.
  destruct (evict_loop _ _ x _) as [kept n]. cbn in *. unfold keys_unique in *.
  assert (Hx : NoDup (map attempt_key x)).
  { change (map attempt_key x) with (attempt_key <$> x). subst x. by rewrite std_sort_perm. }
  eapply sublist_NoDup; [exact Hx|]. by apply (fmap_sublist attempt_key).
Qed.

(** No attempt was authorized under an epoch that is still to come. *)
Definition epochs_bounded (st : DurableState) : Prop :=
  0 <= ds_epoch st /\ forall r, r ∈ ds_attempts st -> av_epoch (at_authority r) <= ds_epoch st.

(** Under unique keys, upsert replaces exactly the record of that key. *)
Lemma elem_of_upsert_unique r record l :
  keys_unique l -> r ∈ upsert record l <-> r = record \/ (r ∈ l /\ attempt_key r <> attempt_key record).
Proof.
  intros Hu. split.
  - induction l as [|x l IH]; cbn [upsert].
    { rewrite list_elem_of_singleton. auto. }
    unfold keys_unique in Hu. cbn [map] in Hu. apply NoDup_cons in Hu as [Hx Hl].
    destruct (same_attempt x record) eqn:E; rewrite !elem_of_cons.
    + apply same_attempt_key in E. intros [->|Hr]; [by left|]. right. split; [by right|].
      intros Hk. apply Hx. rewrite E, <- Hk. apply elem_of_keys. eauto.
    + intros [->|Hr]; [right; split; [by left|]; intros Hk%same_attempt_key; congruence|].
      destruct (IH Hl Hr) as [->|[? ?]]; [by left|right; split; [by right|done]].
  - intros [->|[Hr Hk]]; [apply upsert_in|]. apply upsert_other; [done|].
    destruct (same_attempt r record) eqn:E; [|done]. by apply same_attempt_key in E.
Qed.

(** C38: no operation of the store evicts an attempt that is still in flight, and
    the retained set is bounded unless everything in it is in flight. *)
Theorem note_attempt_retention record l (l' := note_attempt record l) :
  (forall r, r ∈ ds_attempts (ln_state l) -> attempt_key r <> attempt_key record ->
     attempt_phase_is_terminal (at_phase r) = false -> r ∈ ds_attempts (ln_state l')) /\
  (attempt_phase_is_terminal (at_phase record) = false -> record ∈ ds_attempts (ln_state l')) /\
  ((length (ds_attempts (ln_state l')) <= sp_max_attempts (ln_options l))%nat \/
   Forall (fun r => attempt_phase_is_terminal (at_phase r) = false) (ds_attempts (ln_state l'))).
Proof.
  subst l'. unfold note_attempt. destruct (evict_attempts_spec (upsert_attempt record l)) as (_ & Hk & Hb).
  split; [|split; [|exact Hb]].
  - intros r Hr Hne Ht. apply Hk; [|done]. apply upsert_other; [done|].
    destruct (same_attempt r record) eqn:E; [|done]. by apply same_attempt_key in E.
  - intros Ht. apply Hk; [|done]. apply upsert_in.
Qed.
