(* ===== verification/Store.v ===== *)
(** * Lineage store: operations on the medium

    Models the second half of include/lff/store.hpp and src/store.cpp: opening a
    lineage (snapshot, replay, writer), the append-then-apply [commit], the
    two-step [checkpoint] and the restart fence. A store whose [impl_] pointer is
    null is [None]; the callbacks handed to [commit] are functions on the lineage.
    The crash point inside [checkpoint] is the boundary between
    [checkpoint_snapshot] and [checkpoint_rotate]. *)
From S2P Require Import Prelude Status Hash Ids Bytes Evidence Policy Authority Attempt Decision.
From S2P Require Import Fs Journal State.

Record StoreImpl := MkStore {
  sm_lineage : Lineage;
  sm_writer : option JournalWriter;
  sm_failed : bool;
  sm_records_since_snapshot : Z;
}.
Definition LineageStore : Type := option StoreImpl.

Definition sm_state (s : StoreImpl) : DurableState := ln_state (sm_lineage s).
Definition sm_options (s : StoreImpl) : StoreOptions := ln_options (sm_lineage s).
Definition set_sm_lineage (l : Lineage) (s : StoreImpl) : StoreImpl :=
  MkStore l (sm_writer s) (sm_failed s) (sm_records_since_snapshot s).
Definition set_sm_writer (w : option JournalWriter) (s : StoreImpl) : StoreImpl :=
  MkStore (sm_lineage s) w (sm_failed s) (sm_records_since_snapshot s).
Definition set_sm_failed (s : StoreImpl) : StoreImpl :=
  MkStore (sm_lineage s) (sm_writer s) true (sm_records_since_snapshot s).
Definition set_sm_records (n : Z) (s : StoreImpl) : StoreImpl :=
  MkStore (sm_lineage s) (sm_writer s) (sm_failed s) n.

Definition snapshot_path (o : StoreOptions) : string := (sp_directory o +:+ "/lineage.snap")%string.
Definition journal_path (o : StoreOptions) : string := (sp_directory o +:+ "/lineage.jrnl")%string.
Definition staging_path (o : StoreOptions) : string := (sp_directory o +:+ "/lineage.jrnl.new")%string.

Definition state_initial (o : StoreOptions) : DurableState :=
  MkState (sp_fabric o) (sp_policy o) (sp_topology o) 0 incarnation_zero 0 0 0 0 [] [] [].
Definition status_initial : StoreStatus := MkStoreStatus false false false false 0 0 0 0 0 0 0.

(** ** Opening *)
(** The checks on a snapshot that was read: frame, payload, fabric, policy, topology. *)
Definition restore_snapshot (o : StoreOptions) (framed : bytes) : Result DurableState :=
  match unframe_snapshot framed with
  | Failure s => Failure s
  | Success payload =>
      match deserialise payload with
      | Failure s => Failure s
      | Success restored =>
          if negb (bool_decide (ds_fabric restored = sp_fabric o))
          then Failure (status_add (status_failure Outcome.Conflict ReasonCode.UnknownFabric
                 "durable lineage belongs to a different fabric")
                 ReasonCode.InvalidArgument (ds_fabric restored))
          else let p := policy_validate (ds_policy restored) in
          if negb (status_ok p) then Failure p
          else let t := topology_validate (ds_topology restored) in
          if negb (status_ok t) then Failure t
          else Success restored
      end
  end.

Definition open_snapshot (o : StoreOptions) (l : Lineage) : IoM (Result Lineage) :=
  io* exists_ := path_exists (snapshot_path o) in
  if negb exists_ then ioret (Success l)
  else io* framed := read_file (snapshot_path o) kMaxSnapshotBytes in
  ioret (match framed with
         | Failure s => Failure s
         | Success framed =>
             match restore_snapshot o framed with
             | Failure s => Failure s
             | Success restored =>
                 Success (MkLineage (ln_options l) restored
                   (set_st_snapshot_bytes (Z.of_nat (length framed))
                     (set_st_snapshot_loaded true (ln_status l))))
             end
         end).

(** The replay hook: records at or below the snapshot watermark are skipped. *)
Definition replay_hook (covered : LineageSeq) (view : RecordView) (l : Lineage) : Status * Lineage :=
  if rv_seq view <=? covered then (status_success, l) else apply_record view l.

Definition note_replay (r : JournalOpenResult) (l : Lineage) : Lineage :=
  set_ln_status (set_st_bytes_discarded (jo_bytes_discarded r)
    (set_st_records_replayed (jo_records_replayed r)
    (set_st_truncated_to_empty (jo_truncated_to_empty r)
    (set_st_torn_tail_recovered (jo_torn_tail_recovered r)
    (set_st_journal_loaded true (ln_status l)))))) l.

(** The journal part of [open]: [covered] is the snapshot's watermark. *)
Definition open_journal (o : StoreOptions) (l : Lineage) : IoM (Result StoreImpl) :=
  let covered := ds_last_seq (ln_state l) in
  io* replayed := journal_replay (journal_path o) (sp_repair_torn_tail o) (replay_hook covered) l in
  let '(result, l') := replayed in
  match (match result with
         | Success r =>
             let journal_last := if jo_last_seq r <? covered then covered else jo_last_seq r in
             let base := jh_base_seq (jo_header r) in
             let journal_base := if base <? covered then covered else base in
             Success (journal_last, journal_base, jo_truncated_to_empty r, note_replay r l')
         | Failure s =>
             if enum_eqb (status_outcome s) Outcome.NotFound then Success (covered, covered, true, l')
             else Failure s
         end) with
  | Failure s => ioret (Failure s)
  | Success (journal_last, journal_base, create_journal, l') =>
      let l'' := set_ln_state (set_ds_last_seq journal_last (ln_state l')) l' in
      io* writer := journal_open (journal_path o) journal_base journal_last create_journal in
      ioret (match writer with
             | Failure s => Failure s
             | Success w => Success (MkStore l'' (Some w) false 0)
             end)
  end.

Definition store_open (o : StoreOptions) : IoM (Result StoreImpl) :=
  if string_empty (sp_directory o)
  then ioret (fail Outcome.Invalid ReasonCode.InvalidArgument "state directory must not be empty")
  else let p := policy_validate (sp_policy o) in
  if negb (status_ok p) then ioret (Failure p)
  else let t := topology_validate (sp_topology o) in
  if negb (status_ok t) then ioret (Failure t)
  else io* directory := ensure_directory (sp_directory o) in
  if negb (status_ok directory) then ioret (Failure directory)
  else io* staging := path_exists (staging_path o) in
  io* removed := (if staging : bool then remove_file (staging_path o) else ioret status_success) in
  if negb (status_ok removed) then ioret (Failure removed)
  else io* loaded := open_snapshot o (MkLineage o (state_initial o) status_initial) in
  match loaded with
  | Failure s => ioret (Failure s)
  | Success l => open_journal o l
  end.

(** ** Commit *)
Definition writer_append (w : option JournalWriter) (type : RecordType) (seq : LineageSeq)
    (payload : bytes) : IoM (Status * option JournalWriter) :=
  match w with
  | None => ioret (status_failure Outcome.Closed ReasonCode.ConnectionClosed
                     "journal writer is not open", None)
  | Some w => io* r := journal_append w type seq payload in ioret (r.1, Some r.2)
  end.

Definition store_closed : Status :=
  status_failure Outcome.Closed ReasonCode.ConnectionClosed "lineage store is not open".
Definition store_already_failed : Status :=
  status_failure Outcome.IoError ReasonCode.StickyDecodeFailure "lineage store has already failed".

(** After the append: [apply(next)], then the counters. *)
Definition commit_applied (next : LineageSeq) (apply : LineageSeq -> Lineage -> Lineage)
    (s : StoreImpl) : StoreImpl :=
  let l := apply next (sm_lineage s) in
  let st := ln_state l in
  set_sm_records (wrap64 (sm_records_since_snapshot s + 1))
    (set_sm_lineage (set_ln_state
      (set_ds_record_count (wrap64 (ds_record_count st + 1)) (set_ds_last_seq next st)) l) s).

Definition store_commit_impl (s : StoreImpl) (type : RecordType) (payload : bytes)
    (apply : LineageSeq -> Lineage -> Lineage) : IoM (Status * StoreImpl) :=
  if sm_failed s then ioret (store_already_failed, s)
  else match strong_next (ds_last_seq (sm_state s)) with
  | None =>
      ioret (status_failure Outcome.Exhausted ReasonCode.CheckedArithmeticOverflow
               "lineage sequence space is exhausted", set_sm_failed s)
  | Some next =>
      io* appended := writer_append (sm_writer s) type next payload in
      let s := set_sm_writer appended.2 s in
      if negb (status_ok appended.1) then ioret (appended.1, set_sm_failed s)
      else ioret (status_success, commit_applied next apply s)
  end.

Definition store_commit (store : LineageStore) (type : RecordType) (payload : bytes)
    (apply : LineageSeq -> Lineage -> Lineage) : IoM (Status * LineageStore) :=
  match store with
  | None => ioret (store_closed, None)
  | Some s => io* r := store_commit_impl s type payload apply in ioret (r.1, Some r.2)
  end.

(** ** Checkpoint *)
(** Up to the crash point: the snapshot replaces the previous one atomically. *)
Definition checkpoint_snapshot (s : StoreImpl) : IoM (Result (Z * StoreImpl)) :=
  match serialise (sm_state s) with
  | Failure e => ioret (Failure e)
  | Success payload =>
      let framed := frame_snapshot payload in
      io* written := write_file_atomic (snapshot_path (sm_options s)) framed in
      if negb (status_ok written) then ioret (Failure written)
      else
        let size := Z.of_nat (length framed) in
        let status := ln_status (sm_lineage s) in
        ioret (Success (size, set_sm_lineage (set_ln_status
          (set_st_snapshots_written (wrap64 (st_snapshots_written status + 1))
            (set_st_snapshot_bytes size (set_st_snapshot_loaded true status))) (sm_lineage s)) s))
  end.

(** After it: a fresh segment is staged and renamed over the journal, reopened,
    and the compaction is recorded in it. *)
Definition checkpoint_rotate (s : StoreImpl) (snapshot_bytes : Z) :
    IoM (Result LineageSeq * StoreImpl) :=
  let covers := ds_last_seq (sm_state s) in
  let payload := MkCheckpoint covers (ds_record_count (sm_state s)) snapshot_bytes in
  let s := set_sm_writer None s in
  io* staging := journal_open (staging_path (sm_options s)) covers covers true in
  match staging with
  | Failure e => ioret (Failure e, set_sm_failed s)
  | Success _ =>
      io* renamed := fs_rename (staging_path (sm_options s)) (journal_path (sm_options s)) in
      if has_value renamed
      then ioret (fail Outcome.IoError ReasonCode.InternalError "journal rotation failed", set_sm_failed s)
      else io* reopened := journal_open (journal_path (sm_options s)) covers covers false in
      match reopened with
      | Failure e => ioret (Failure e, set_sm_failed s)
      | Success w =>
          let s := set_sm_records 0 (set_sm_writer (Some w) s) in
          io* appended := store_commit_impl s RecordType.Checkpoint (encode_checkpoint_payload payload)
                            (fun _ l => l) in
          if negb (status_ok appended.1) then ioret (Failure appended.1, appended.2)
          else ioret (Success covers, appended.2)
      end
  end.

Definition store_checkpoint (store : LineageStore) : IoM (Result LineageSeq * LineageStore) :=
  match store with
  | None => ioret (Failure store_closed, None)
  | Some s =>
      if sm_failed s then ioret (Failure store_already_failed, Some s)
      else io* written := checkpoint_snapshot s in
      match written with
      | Failure e => ioret (Failure e, Some s)
      | Success (size, s) => io* r := checkpoint_rotate s size in ioret (r.1, Some r.2)
      end
  end.

(** ** Restart fence *)
Definition interrupted_update (record : AttemptRecord) : AttemptRecord :=
  let reasons := at_reasons record ++ [reason (interruption_reason (at_phase record))
    "process terminated while the attempt was in flight"] in
  set_at_reasons (if Z.of_nat (length reasons) >? kMaxAttemptReasons then drop 1 reasons else reasons)
    (set_at_phase AttemptPhase.Interrupted record).

Definition restart_fence (new_epoch : Epoch) (new_incarnation : Incarnation) (record : AttemptRecord) :
    FenceRecord :=
  MkFence FenceKind.PreRestartAuthority (at_subject record) (at_subject_generation record)
    (at_attempt_seq record) new_epoch new_incarnation 0
    (if attempt_phase_holds_authority (at_phase record)
     then "held failover authority across a restart" else "was in flight across a restart").

(** The loop over the copied attempt list. *)
Fixpoint fence_loop (new_epoch : Epoch) (new_incarnation : Incarnation)
    (records : list AttemptRecord) (interrupted : nat) (s : StoreImpl) :
    IoM (Result nat * StoreImpl) :=
  match records with
  | [] => ioret (Success interrupted, s)
  | record :: rest =>
      if attempt_phase_is_terminal (at_phase record)
      then fence_loop new_epoch new_incarnation rest interrupted s
      else
        let updated := interrupted_update record in
        io* applied := store_commit_impl s RecordType.AttemptUpdate (encode_attempt_payload updated)
                         (fun seq l => upsert_attempt (set_at_update_seq seq updated) l) in
        if negb (status_ok applied.1) then ioret (Failure applied.1, applied.2)
        else
          let fence := restart_fence new_epoch new_incarnation record in
          io* fenced := store_commit_impl applied.2 RecordType.Fence (encode_fence_payload fence)
                          (fun seq l => evict_fences (push_fence (set_fe_seq seq fence) l)) in
          if negb (status_ok fenced.1) then ioret (Failure fenced.1, fenced.2)
          else fence_loop new_epoch new_incarnation rest (S interrupted) fenced.2
  end.

Definition fence_restart_authority (store : LineageStore) (new_epoch : Epoch)
    (new_incarnation : Incarnation) : IoM (Result nat * LineageStore) :=
  match store with
  | None => ioret (Failure store_closed, None)
  | Some s =>
      io* r := fence_loop new_epoch new_incarnation (ds_attempts (sm_state s)) 0 s in
      ioret (r.1, Some r.2)
  end.

Definition store_close (store : LineageStore) : LineageStore := None.
Definition store_failed (store : LineageStore) : bool :=
  match store with None => true | Some s => sm_failed s end.

(** [LineageStore::state]: a closed store shows the default state. *)
Definition state_empty : DurableState :=
  MkState EmptyString policy_defaults topology_none 0 incarnation_zero 0 0 0 0 [] [] [].
Definition store_state (store : LineageStore) : DurableState :=
  match store with None => state_empty | Some s => sm_state s end.
Definition store_records_since_snapshot (store : LineageStore) : Z :=
  match store with None => 0 | Some s => sm_records_since_snapshot s end.

(** ** Commit: append first, apply only after *)
(** The two ways a commit on an open store can end. *)
Inductive commit_outcome (s : StoreImpl) (type : RecordType) (payload : bytes)
    (apply : LineageSeq -> Lineage -> Lineage) (fs : Fs) (status : Status) (s' : StoreImpl) (fs' : Fs) : Prop :=
| CommitApplied next w w' :
    status = status_success -> sm_failed s = false ->
    strong_next (ds_last_seq (sm_state s)) = Some next -> sm_writer s = Some w ->
    journal_append w type next payload fs = (status_success, w', fs') ->
    s' = commit_applied next apply (set_sm_writer (Some w') s) ->
    commit_outcome s type payload apply fs status s' fs'
| CommitRefused :
    status_ok status = false -> sm_lineage s' = sm_lineage s -> sm_failed s' = true ->
    (fs_files fs' = fs_files fs \/
     exists next w w', sm_failed s = false /\ strong_next (ds_last_seq (sm_state s)) = Some next /\
       sm_writer s = Some w /\ journal_append w type next payload fs = (status, w', fs')) ->
    commit_outcome s type payload apply fs status s' fs'.

Lemma status_ok_success s : status_ok s = true -> status_reasons s = [] -> s = status_success.
Proof. unfold status_ok. destruct s as [o rs]; cbn. rewrite enum_eqb_eq. by intros -> ->. Qed.

(** A successful append reports plain success. *)
Lemma journal_append_success w t seq payload fs s w' fs' :
  journal_append w t seq payload fs = (s, w', fs') -> status_ok s = true -> s = status_success.
Proof.
  unfold journal_append. destruct (jw_failed w); [by intros [= <- <- <-]|].
  destruct (_ >? _); [by intros [= <- <- <-]|]. destruct (negb _); [by intros [= <- <- <-]|].
  unfold iobind. destruct (fwrite _ _ fs) as [[n e] fs1]. cbn [fst]. destruct (negb _); [by intros [= <- <- <-]|].
  destruct ((if Nat.eqb (length payload) 0 then ioret (0%nat, 0) else fwrite (jw_path w) payload) fs1)
    as [[m e2] fs2]. cbn [fst]. destruct (negb _); [by intros [= <- <- <-]|].
  destruct (journal_sync_stream fs2) as [s3 fs3]. destruct (status_ok s3) eqn:E; cbn [negb].
  - by intros [= <- <- <-].
  - intros [= <- <- <-]. congruence.
Qed.

Lemma store_commit_impl_cases s type payload apply fs status s' fs' :
  store_commit_impl s type payload apply fs = (status, s', fs') ->
  commit_outcome s type payload apply fs status s' fs'.
Proof.
  unfold store_commit_impl. destruct (sm_failed s) eqn:Hf.
  { intros [= <- <- <-]. apply CommitRefused; auto. }
  destruct (strong_next (ds_last_seq (sm_state s))) as [next|] eqn:Hn.
  2: { intros [= <- <- <-]. apply CommitRefused; auto. }
  unfold iobind at 1. destruct (sm_writer s) as [w|] eqn:Hw.
  2: { cbn. intros [= <- <- <-]. apply CommitRefused; auto. }
  cbn [writer_append]. unfold iobind at 1.
  destruct (journal_append w type next payload fs) as [[st w'] fs1] eqn:Ha. cbn [ioret fst snd].
  destruct (status_ok st) eqn:Es; cbn [negb]; intros [= <- <- <-].
  - pose proof (journal_append_success _ _ _ _ _ _ _ _ Ha Es) as ->. by eapply CommitApplied.
  - apply CommitRefused; [done..|]. right. by exists next, w, w'.
Qed.

(** a commit that fails, for whatever reason and at whatever point of its
    writes, leaves the durable state exactly as it was and marks the store failed;
    from then on every commit is refused without touching state or medium. *)
Theorem commit_failure_is_final s type payload apply fs status s' fs' :
  store_commit_impl s type payload apply fs = (status, s', fs') -> status_ok status = false ->
  sm_lineage s' = sm_lineage s /\ sm_failed s' = true /\
  forall type2 payload2 apply2 fs2,
    store_commit_impl s' type2 payload2 apply2 fs2 = (store_already_failed, s', fs2).
Proof.
  intros H Hs. apply store_commit_impl_cases in H as [next w w' -> _ _ _ _ _|_ Hl Hf _]; [done|].
  split; [done|split; [done|]]. intros. unfold store_commit_impl. by rewrite Hf.
Qed.

(** ** Refinement: the journal file is the image of the committed records *)
Record journal_of (base : LineageSeq) (recs : list RecordView) (s : StoreImpl) (fs : Fs) : Prop := {
  jr_ok : journal_ok base recs;
  jr_file : file_of fs (journal_path (sm_options s)) = journal_image base recs;
  jr_seq : ds_last_seq (sm_state s) = last_seq_of base recs;
  jr_writer : exists w, sm_writer s = Some w /\ jw_path w = journal_path (sm_options s) /\
    jw_last_seq w = ds_last_seq (sm_state s) /\ jw_failed w = false;
}.

Lemma last_seq_of_snoc base recs r : last_seq_of base (recs ++ [r]) = rv_seq r.
Proof. unfold last_seq_of. by rewrite foldl_app. Qed.

Lemma seqs_advance_snoc base recs r :
  seqs_advance base recs -> last_seq_of base recs < rv_seq r -> seqs_advance base (recs ++ [r]).
Proof.
  revert base. induction recs as [|x recs IH]; intros base; cbn.
  - unfold last_seq_of. cbn. auto.
  - intros [Hx Hr] Hl. split; [done|]. by apply IH.
Qed.

Lemma journal_ok_snoc base recs r :
  journal_ok base recs -> record_ok r -> last_seq_of base recs < rv_seq r -> journal_ok base (recs ++ [r]).
Proof.
  intros (Hb & Hr & Ha) Hok Hl. split; [done|split].
  - apply Forall_app_2; [done|]. by constructor.
  - by apply seqs_advance_snoc.
Qed.

Lemma journal_image_snoc base recs r :
  journal_image base (recs ++ [r]) = journal_image base recs ++ record_image r.
Proof.
  unfold journal_image. rewrite map_app, concat_app. cbn [map concat]. by rewrite app_nil_r, app_assoc.
Qed.

(** The callbacks of the engine change state and status, never the options. *)
Definition keeps_options (apply : LineageSeq -> Lineage -> Lineage) : Prop :=
  forall seq l, ln_options (apply seq l) = ln_options l.

Lemma last_seq_of_u64 base recs : journal_ok base recs -> is_u64 (last_seq_of base recs).
Proof.
  intros (Hb & Hr & _). destruct recs as [|r recs] using rev_ind; [done|].
  rewrite last_seq_of_snoc. apply Forall_app in Hr as [_ Hr]. apply Forall_cons in Hr as [(H & _) _]. done.
Qed.

Lemma commit_refines_append_lemma base recs s type payload apply fs status s' fs' :
  journal_of base recs s fs -> Forall is_u8 payload -> keeps_options apply ->
  store_commit_impl s type payload apply fs = (status, s', fs') ->
  let r := MkView type (last_seq_of base recs + 1) payload in
  (status_ok status = true ->
     journal_of base (recs ++ [r]) s' fs' /\
     exists w', s' = commit_applied (last_seq_of base recs + 1) apply (set_sm_writer w' s)) /\
  (status_ok status = false ->
     sm_lineage s' = sm_lineage s /\
     exists k, file_of fs' (journal_path (sm_options s)) =
       journal_image base recs ++ take k (record_image r)).
Proof.
  intros [Hok Hfile Hseq (w & Hw & Hpath & Hwseq & Hwf)] Hu8 Hopt H r.
  assert (Hlast := last_seq_of_u64 base recs Hok).
  assert (Hnext : forall next, strong_next (ds_last_seq (sm_state s)) = Some next ->
    next = last_seq_of base recs + 1 /\ is_u64 next).
  { intros next Hn. rewrite Hseq in Hn. by apply strong_next_Some. }
  apply store_commit_impl_cases in H as [next w0 w' -> Hf Hn Hw0 Ha ->|Hst Hl Hff Hcase].
  - split; [|done]. intros _. rewrite Hw in Hw0. injection Hw0 as <-.
    destruct (Hnext _ Hn) as [-> Hu]. split; [|by exists (Some w')].
    apply journal_append_file in Ha as (_ & Hp' & k & Hk & Hok' & _).
    destruct Hok' as (-> & Hlast' & Hlt & Hwf' & Hlen); [done|].
    assert (Hr : record_ok r) by (split; [done|split; done]).
    split.
    + apply journal_ok_snoc; [done..|]. cbn. lia.
    + unfold sm_options, commit_applied in *. cbn. rewrite Hopt, <- Hpath, Hk, Hpath, Hfile.
      rewrite take_ge by lia. by rewrite journal_image_snoc.
    + rewrite last_seq_of_snoc. done.
    + exists w'. unfold commit_applied, sm_options. cbn. rewrite Hopt. rewrite Hp', Hlast'. done.
  - split; [congruence|]. intros _. split; [done|].
    destruct Hcase as [Hsame|(next & w0 & w' & Hf & Hn & Hw0 & Ha)].
    + exists 0%nat. rewrite app_nil_r. unfold file_of in *. by rewrite Hsame.
    + rewrite Hw in Hw0. injection Hw0 as <-. destruct (Hnext _ Hn) as [-> Hu].
      apply journal_append_file in Ha as (_ & _ & k & Hk & _). exists k. by rewrite <- Hpath, Hk, Hpath, Hfile.
Qed.

(** C15: crash safety of a commit. Whatever fails during the writes, replaying what
    is on the medium afterwards applies the records committed before, and at most
    the one in flight on top of them; after a successful commit it applies exactly
    the records including the new one. *)
Theorem commit_crash_safe base recs s type payload apply fs status s' fs' hook (st0 st1 : Lineage) :
  journal_of base recs s fs -> Forall is_u8 payload -> keeps_options apply ->
  Z.of_nat (length payload) <= kMaxRecordPayload ->
  ds_last_seq (sm_state s) < 18446744073709551615 ->
  store_commit_impl s type payload apply fs = (status, s', fs') ->
  run_hook hook (recs ++ [MkView type (last_seq_of base recs + 1) payload]) st0 = (None, st1) ->
  exists recs1 result cut l,
    (recs1 = recs \/ recs1 = recs ++ [MkView type (last_seq_of base recs + 1) payload]) /\
    (status_ok status = true -> recs1 = recs ++ [MkView type (last_seq_of base recs + 1) payload]) /\
    run_hook hook recs1 st0 = (None, l) /\
    replay_bytes hook true (file_of fs' (journal_path (sm_options s))) st0 = (Success result, cut, l) /\
    jo_records_replayed result = Z.of_nat (length recs1).
Proof.
  set (r := MkView type (last_seq_of base recs + 1) payload).
  intros Hj Hu8 Hopt Hlen Hmax Hc Hrun.
  pose proof Hj as [Hok _ Hseq _]. pose proof (last_seq_of_u64 base recs Hok) as Hu.
  assert (Hr : record_ok r) by (split; [cbn; ints|split; done]).
  assert (Hok' : journal_ok base (recs ++ [r])) by (apply journal_ok_snoc; [done..|cbn; lia]).
  destruct (run_hook_prefix hook recs (recs ++ [r]) st0 st1) as [l Hl]; [by eexists|done|].
  destruct (commit_refines_append_lemma base recs s type payload apply fs status s' fs' Hj Hu8 Hopt Hc) as [Hs Hf].
  destruct (status_ok status) eqn:Es.
  - destruct Hs as [[_ Hfile _ _] (w' & ->)]; [done|].
    assert (Ho : sm_options (commit_applied (last_seq_of base recs + 1) apply (set_sm_writer w' s)) = sm_options s).
    { unfold sm_options, commit_applied. cbn. by rewrite Hopt. }
    rewrite Ho in Hfile. rewrite Hfile. exists (recs ++ [r]). do 2 eexists. exists st1.
    split; [by right|split; [done|split; [done|]]].
    split; [by apply (replay_bytes_committed hook true base (recs ++ [r]))|done].
  - destruct Hf as (_ & k & Hk); [done|]. fold r in Hk. rewrite Hk. destruct (decide (k = 0)%nat) as [->|Hk0].
    { rewrite take_0, app_nil_r. exists recs. do 2 eexists. exists l.
      split; [by left|split; [done|split; [done|]]].
      split; [by apply (replay_bytes_committed hook true base recs)|done]. }
    destruct (decide (k < length (record_image r))%nat) as [Hlt|Hge].
    + exists recs. do 2 eexists. exists l. split; [by left|split; [done|split; [done|]]].
      assert (Hkr : (0 < k < length (record_image r))%nat) by lia.
      split; [exact (replay_bytes_torn hook base recs r k st0 l Hok Hr Hkr Hl)|done].
    + rewrite take_ge by lia. rewrite <- journal_image_snoc. exists (recs ++ [r]). do 2 eexists. exists st1.
      split; [by right|split; [done|split; [done|]]].
      split; [by apply (replay_bytes_committed hook true base (recs ++ [r]))|done].
Qed.

(** commit implements its abstract specification. From a journal file that is
    the image of the committed records, a successful commit appends exactly one
    record, at the next sequence, and applies the callback once; a failed one
    leaves a file that is the image cut somewhere inside that one record. *)
Theorem commit_refines_append base recs s type payload apply fs status s' fs' :
  journal_of base recs s fs -> Forall is_u8 payload -> keeps_options apply ->
  store_commit_impl s type payload apply fs = (status, s', fs') ->
  let r := MkView type (last_seq_of base recs + 1) payload in
  (status_ok status = true ->
     journal_of base (recs ++ [r]) s' fs' /\
     exists w', s' = commit_applied (last_seq_of base recs + 1) apply (set_sm_writer w' s)) /\
  (status_ok status = false ->
     sm_lineage s' = sm_lineage s /\
     exists k, file_of fs' (journal_path (sm_options s)) =
       journal_image base recs ++ take k (record_image r)).
Proof. apply commit_refines_append_lemma. Qed.

(** ** The restart fence *)
Definition in_flight (r : AttemptRecord) : bool := negb (is_terminal r).

(** The record a restart leaves of [r]: itself when it had ended, else its
    interruption, with the same identity and authority. *)
Definition restarted (r r' : AttemptRecord) : Prop :=
  attempt_key r' = attempt_key r /\ at_subject_generation r' = at_subject_generation r /\
  at_attempt_id r' = at_attempt_id r /\ at_authority r' = at_authority r /\
  (if is_terminal r then r' = r else at_phase r' = AttemptPhase.Interrupted).

Lemma interrupted_restarted seq r : is_terminal r = false ->
  restarted r (set_at_update_seq seq (interrupted_update r)).
Proof. intros H. unfold restarted. rewrite H. done. Qed.

(** A successful commit, seen from the state. *)
Lemma store_commit_impl_state s type payload apply fs status s' fs' :
  store_commit_impl s type payload apply fs = (status, s', fs') -> status_ok status = true ->
  exists seq, let l := apply seq (sm_lineage s) in
    ds_attempts (sm_state s') = ds_attempts (ln_state l) /\
    ds_epoch (sm_state s') = ds_epoch (ln_state l) /\
    ds_coordinator (sm_state s') = ds_coordinator (ln_state l).
Proof.
  intros H Hs. apply store_commit_impl_cases in H as [next w w' -> _ _ _ _ ->|Hn _ _ _]; [|congruence].
  by exists next.
Qed.

Lemma evict_fences_others l :
  ds_attempts (ln_state (evict_fences l)) = ds_attempts (ln_state l) /\
  ds_epoch (ln_state (evict_fences l)) = ds_epoch (ln_state l) /\
  ds_coordinator (ln_state (evict_fences l)) = ds_coordinator (ln_state l).
Proof. unfold evict_fences. by destruct (Nat.leb _ _). Qed.

Lemma unique_same l r1 r2 : keys_unique l -> r1 ∈ l -> r2 ∈ l -> attempt_key r1 = attempt_key r2 -> r1 = r2.
Proof.
  unfold keys_unique. induction l as [|x l IH]; [by intros _ ?%elem_of_nil|]. cbn [map].
  intros [Hx Hl]%NoDup_cons H1 H2 Hk. apply elem_of_cons in H1, H2. destruct H1 as [->|H1], H2 as [->|H2]; auto.
  - exfalso. apply Hx, elem_of_keys. eauto.
  - exfalso. apply Hx, elem_of_keys. exists r1. by split.
Qed.

(** *** Record by record *)
Lemma upsert_pointwise u l : keys_unique l -> attempt_key u ∈ map attempt_key l ->
  Forall2 (fun x y => if decide (attempt_key x = attempt_key u) then y = u else y = x) l (upsert u l).
Proof.
  unfold keys_unique. induction l as [|x l IH]; cbn [map upsert]; intros Hu Hk; [by apply elem_of_nil in Hk|].
  apply NoDup_cons in Hu as [Hx Hu]. destruct (same_attempt x u) eqn:E.
  - apply same_attempt_key in E. constructor; [by rewrite decide_True|]. apply Forall_Forall2_diag, Forall_forall.
    intros y Hy. rewrite decide_False; [done|]. intros Hyu. apply Hx. rewrite E, <- Hyu. apply elem_of_keys. eauto.
  - assert (Hne : attempt_key x <> attempt_key u) by (intros Heq%same_attempt_key; congruence).
    constructor; [by rewrite decide_False|]. apply IH; [done|]. apply elem_of_cons in Hk as [Hk|Hk]; [by destruct Hne|done].
Qed.

(** The records still to be fenced that are in flight are interrupted, the others stay. *)
Definition fenced_in (records : list AttemptRecord) (x y : AttemptRecord) : Prop :=
  if decide (attempt_key x ∈ map attempt_key records /\ is_terminal x = false) then restarted x y else y = x.

Lemma fenced_in_cons r u records x y z : ~ attempt_key r ∈ map attempt_key records -> restarted r u ->
  is_terminal r = false -> (attempt_key x = attempt_key r -> x = r) ->
  (if decide (attempt_key x = attempt_key r) then y = u else y = x) -> fenced_in records y z -> fenced_in (r :: records) x z.
Proof.
  intros Hr Hu Ht Hx Hy Hz. unfold fenced_in in *. cbn [map]. destruct (decide (attempt_key x = attempt_key r)) as [Hk|Hk].
  - subst y. specialize (Hx Hk). subst x. rewrite decide_False in Hz.
    2: { intros [Hin _]. apply Hr. destruct Hu as (<- & _). done. }
    rewrite decide_True by (split; [constructor|done]). by subst z.
  - subst y. destruct (decide (attempt_key x ∈ map attempt_key records /\ is_terminal x = false)) as [[Hin Hn]|Hn].
    + rewrite decide_True by (split; [by constructor|done]). done.
    + rewrite decide_False; [done|]. intros [Hin ?]. apply Hn. apply elem_of_cons in Hin as [?|?]; done.
Qed.

Lemma fenced_in_skip r records x z : is_terminal r = true -> (attempt_key x = attempt_key r -> x = r) ->
  fenced_in records x z -> fenced_in (r :: records) x z.
Proof.
  intros Ht Hx Hz. unfold fenced_in in *. cbn [map].
  destruct (decide (attempt_key x ∈ map attempt_key records /\ is_terminal x = false)) as [[Hin Hn]|Hn].
  - rewrite decide_True by (split; [by constructor|done]). done.
  - rewrite decide_False; [done|]. intros [Hin ?]. apply elem_of_cons in Hin as [Hin|?]; [|by apply Hn].
    specialize (Hx Hin). subst x. congruence.
Qed.

Lemma restarted_refl r : is_terminal r = true -> restarted r r.
Proof. intros H. unfold restarted. by rewrite H. Qed.
Lemma fenced_restarted records l l' : (forall x, x ∈ l -> x ∈ records) -> Forall2 (fenced_in records) l l' ->
  Forall2 restarted l l'.
Proof.
  intros Hl H. induction H as [|x y l l' Hxy _ IH]; [constructor|].
  constructor; [|apply IH; intros z Hz; apply Hl; by constructor]. unfold fenced_in in Hxy.
  destruct (decide _) as [|Hn]; [done|]. subst y. apply restarted_refl. destruct (is_terminal x) eqn:E; [done|].
  destruct Hn. split; [|done]. apply elem_of_keys. exists x. split; [apply Hl; constructor|done].
Qed.

(** Two turns of the loop: over a record that had ended, and over one in flight. *)
Lemma fenced_over_ended r records l l' : keys_unique l -> r ∈ l -> is_terminal r = true ->
  Forall2 (fenced_in records) l l' -> Forall2 (fenced_in (r :: records)) l l'.
Proof.
  intros Hu Hr Ht H. apply Forall2_same_length_lookup in H as [Hl H]. apply Forall2_same_length_lookup. split; [done|].
  intros i x y Hx Hy. apply fenced_in_skip; [done| |by eapply H].
  intros Hk. apply (unique_same _ _ _ Hu); [by eapply list_elem_of_lookup_2|done|done].
Qed.
Lemma fenced_over_flying r u records l l' : keys_unique l -> r ∈ l -> is_terminal r = false -> restarted r u ->
  ~ attempt_key r ∈ map attempt_key records ->
  Forall2 (fenced_in records) (upsert u l) l' -> Forall2 (fenced_in (r :: records)) l l'.
Proof.
  intros Hu Hr Ht Hres Hkr H.
  assert (Hku : attempt_key u ∈ map attempt_key l) by (destruct Hres as (-> & _); apply elem_of_keys; by exists r).
  pose proof (upsert_pointwise u _ Hu Hku) as Hup.
  apply Forall2_same_length_lookup in H as [Hl H]. apply Forall2_same_length_lookup in Hup as [Hl2 Hup].
  apply Forall2_same_length_lookup. split; [congruence|]. intros i x z Hx Hz.
  destruct (lookup_lt_is_Some_2 (upsert u l) i) as [y Hy]; [rewrite <- Hl2; by eapply lookup_lt_Some|].
  eapply (fenced_in_cons r u records x y z); try done; [| |by eapply H].
  - intros Hk. apply (unique_same _ _ _ Hu); [by eapply list_elem_of_lookup_2|done|done].
  - specialize (Hup _ _ _ Hx Hy). destruct Hres as (Hk & _). by rewrite Hk in Hup.
Qed.
Lemma restarted_all l l' : Forall2 restarted l l' ->
  forall r', r' ∈ l' -> is_terminal r' = true /\ exists r, r ∈ l /\ restarted r r'.
Proof.
  induction 1 as [|x y l l' Hxy _ IH]; intros r' Hr; [by apply elem_of_nil in Hr|].
  apply elem_of_cons in Hr as [->|Hr].
  - split; [|exists x; split; [constructor|done]]. destruct Hxy as (_ & _ & _ & _ & H).
    destruct (is_terminal x) eqn:E; [by subst|]. unfold is_terminal. by rewrite H.
  - destruct (IH r' Hr) as (Ht & r & Hin & Hres). split; [done|]. exists r. split; [by constructor|done].
Qed.

Lemma fence_loop_spec epoch incarnation records n s fs k s' fs' :
  fence_loop epoch incarnation records n s fs = (Success k, s', fs') ->
  keys_unique (ds_attempts (sm_state s)) -> keys_unique records ->
  (forall r, r ∈ records -> r ∈ ds_attempts (sm_state s)) ->
  ds_epoch (sm_state s') = ds_epoch (sm_state s) /\
  ds_coordinator (sm_state s') = ds_coordinator (sm_state s) /\
  keys_unique (ds_attempts (sm_state s')) /\
  Forall2 (fenced_in records) (ds_attempts (sm_state s)) (ds_attempts (sm_state s')).
Proof.
  revert n s fs. induction records as [|r records IH]; intros n s fs H Hu Hur Hsub; cbn [fence_loop] in H.
  { injection H as _ <- _. split_and!; try done. apply Forall_Forall2_diag, Forall_forall. intros x _.
    unfold fenced_in. by rewrite decide_False by (intros [[]%elem_of_nil _]). }
  unfold keys_unique in Hur. cbn [map] in Hur. apply NoDup_cons in Hur as [Hkr Hur].
  assert (Hrin : r ∈ ds_attempts (sm_state s)) by (apply Hsub; constructor).
  destruct (attempt_phase_is_terminal (at_phase r)) eqn:Ht.
  { destruct (IH _ _ _ H Hu Hur) as (D1 & D2 & D3 & D4); [intros x Hx; apply Hsub; by constructor|].
    split_and!; try done. by apply fenced_over_ended. }
  cbv zeta in H. unfold iobind at 1 in H.
  destruct (store_commit_impl s _ _ _ fs) as [[st1 s1] fs1] eqn:E1. cbn [fst snd] in H.
  destruct (status_ok st1) eqn:Es1; cbn [negb] in H; [|done].
  apply store_commit_impl_state in E1 as (q1 & A1 & B1 & C1); [|done]. cbn in A1, B1, C1.
  unfold iobind at 1 in H. destruct (store_commit_impl s1 _ _ _ fs1) as [[st2 s2] fs2] eqn:E2. cbn [fst snd] in H.
  destruct (status_ok st2) eqn:Es2; cbn [negb] in H; [|done].
  apply store_commit_impl_state in E2 as (q2 & A2 & B2 & C2); [|done].
  destruct (evict_fences_others (push_fence (set_fe_seq q2 (restart_fence epoch incarnation r)) (sm_lineage s1)))
    as (F1 & F2 & F3). rewrite F1 in A2. rewrite F2 in B2. rewrite F3 in C2. cbn in A2, B2, C2.
  fold (sm_state s1) in A2, B2, C2. rewrite A1 in A2.
  pose proof (interrupted_restarted q1 r Ht) as Hres. set (u := set_at_update_seq q1 (interrupted_update r)) in *.
  fold (sm_state s) in A2. destruct (IH _ _ _ H) as (D1 & D2 & D3 & D4).
  - rewrite A2. by apply upsert_keys_unique.
  - exact Hur.
  - intros x Hx. rewrite A2. apply (elem_of_upsert_unique x u _ Hu). right. split; [apply Hsub; by constructor|].
    intros Hk. apply Hkr. change (attempt_key r) with (attempt_key u). rewrite <- Hk. apply elem_of_keys. eauto.
  - unfold sm_state in *. split_and!; [congruence|congruence|done|]. rewrite A2 in D4. by eapply fenced_over_flying.
Qed.

(** persistence is not liveness. When the restart fence succeeds, every attempt of the
    table is in its place; those that had ended are untouched, every other one is
    interrupted, under its own identity and authority. *)
Theorem restart_leaves_nothing_in_flight s epoch incarnation fs k store' fs' :
  keys_unique (ds_attempts (sm_state s)) ->
  fence_restart_authority (Some s) epoch incarnation fs = (Success k, store', fs') ->
  exists s', store' = Some s' /\ keys_unique (ds_attempts (sm_state s')) /\
    ds_epoch (sm_state s') = ds_epoch (sm_state s) /\ ds_coordinator (sm_state s') = ds_coordinator (sm_state s) /\
    Forall2 restarted (ds_attempts (sm_state s)) (ds_attempts (sm_state s')).
Proof.
  intros Hu. unfold fence_restart_authority, iobind.
  destruct (fence_loop _ _ _ _ s fs) as [[res s'] fs1] eqn:E. intros [= -> <- <-]. exists s'. split; [done|].
  apply fence_loop_spec in E as (H1 & H2 & H3 & H4); try done. split_and!; try done. by eapply fenced_restarted.
Qed.
