(* ===== verification/Image.v ===== *)
(** * The medium as the image of the lineage

    Relates the lineage a store holds in memory to what replaying its medium gives.
    [sound_commit] is what a record must satisfy for replay to agree with the
    callback of its commit; [image_of] says that the snapshot and the journal of a
    directory are an image of the lineage in memory. Commits and checkpoints keep
    it and [store_open] inverts it. Replay loses only the positions at which
    attempts were written ([create_seq], [update_seq]), which their records do not
    carry. *)
From S2P Require Import Prelude Status Hash Ids Bytes Evidence Policy Authority Attempt Decision.
From S2P Require Import Fs Journal State Store.

(** ** Payloads are octets *)
Definition octets (m : WriteM) : Prop :=
  forall w, Forall is_u8 (wr_buf w) -> Forall is_u8 (wr_buf (m w)).

Lemma octets_u8 v : is_u8 v -> octets (wr_u8 v).
Proof.
  intros Hv w Hw. unfold wr_u8. destruct (negb (wr_ok w)); [done|]. cbn. apply Forall_app. split; [done|].
  by constructor.
Qed.
Lemma land_u8 v : is_u8 (Z.land v 255).
Proof. rewrite land_255. pose proof (Z.mod_pos_bound v 256). ints. Qed.
Lemma octets_u16 v : octets (wr_u16 v).
Proof. intros w Hw. unfold wr_u16. apply octets_u8, octets_u8; auto using land_u8. Qed.
Lemma octets_loop n v : octets (wr_loop n v).
Proof.
  intros w. unfold wr_loop. generalize (seq 0 n). intros l. revert w.
  induction l as [|i l IH]; intros w Hw; cbn [foldl]; [done|]. apply IH, octets_u8; auto using land_u8.
Qed.
Lemma octets_u32 v : octets (wr_u32 v).
Proof. apply octets_loop. Qed.
Lemma octets_u64 v : octets (wr_u64 v).
Proof. apply octets_loop. Qed.
Lemma octets_bool8 b : octets (wr_bool8 b).
Proof. apply octets_u8. destruct b; ints. Qed.
Lemma octets_raw data : Forall is_u8 data -> octets (wr_raw data).
Proof.
  intros Hd w Hw. unfold wr_raw. destruct (_ || _)%bool; [done|]. cbn. by apply Forall_app.
Qed.
Lemma octets_str_max s n : octets (wr_str_max s n).
Proof.
  intros w Hw. unfold wr_str_max. destruct (negb (wr_ok w)); [done|]. destruct (_ >? _); [done|].
  apply octets_raw; [apply bytes_of_string_u8|]. by apply octets_u32.
Qed.
Lemma octets_str s : octets (wr_str s).
Proof. apply octets_str_max. Qed.
Lemma octets_digest d : digest_wf d -> octets (wr_digest d).
Proof. intros [_ H]. by apply octets_raw. Qed.
Lemma octets_incarnation i : incarnation_wf i -> octets (wr_incarnation i).
Proof. intros [_ H]. by apply octets_raw. Qed.
Lemma octets_writes ms : Forall octets ms -> octets (writes ms).
Proof.
  intros H w Hw. unfold writes. revert w Hw. induction H as [|m ms Hm H IH]; intros w Hw; cbn [foldl]; [done|].
  by apply IH, Hm.
Qed.
Lemma octets_each {A} (f : A -> WriteM) l : Forall (fun a => octets (f a)) l -> octets (wr_each f l).
Proof. intros H. apply octets_writes. by rewrite Forall_map. Qed.
Lemma octets_opt {A} (f : A -> WriteM) o : (forall a, o = Some a -> octets (f a)) -> octets (wr_opt f o).
Proof. intros H w Hw. destruct o; cbn; [|done]. by apply H. Qed.
Lemma octets_when b m : octets m -> octets (wr_when b m).
Proof. intros H. unfold wr_when. destruct b; [done|]. by intros w Hw. Qed.

Create HintDb octets.
#[local] Hint Resolve octets_u8 octets_u16 octets_u32 octets_u64 octets_bool8 octets_str octets_str_max
  octets_digest octets_incarnation : octets.
Ltac octet_fields := apply octets_writes; repeat (constructor; [auto with octets|]); try constructor.

Lemma octets_reason r : octets (encode (A := Reason) r).
Proof. cbn. unfold reason_encode. octet_fields. Qed.
#[local] Hint Resolve octets_reason : octets.
Lemma octets_reasons rs : octets (wr_each encode (A := Reason) rs).
Proof. apply octets_each, Forall_forall. auto with octets. Qed.
#[local] Hint Resolve octets_reasons : octets.
Lemma octets_authority a : authority_wf a -> octets (encode a).
Proof.
  unfold authority_wf. intros H. decompose [and] H. cbn. unfold authority_encode. octet_fields; auto with octets.
Qed.
#[local] Hint Resolve octets_authority : octets.
Lemma octets_attempt a : attempt_wf a -> octets (encode a).
Proof.
  unfold attempt_wf. intros H. decompose [and] H. cbn. unfold attempt_encode. octet_fields.
  all: try solve [auto with octets]. apply octets_opt. auto with octets.
Qed.
#[local] Hint Resolve octets_attempt octets_when : octets.
Lemma octets_fence f : fence_wf f -> octets (encode f).
Proof. unfold fence_wf. intros H. decompose [and] H. cbn. unfold fence_encode. octet_fields. Qed.
Lemma octets_assessment a : assessment_wf a -> octets (encode a).
Proof. unfold assessment_wf. intros H. decompose [and] H. cbn. unfold assessment_encode. octet_fields. Qed.
Lemma octets_decision d : decision_wf d -> octets (encode d).
Proof.
  unfold decision_wf. intros H. decompose [and] H. cbn. unfold decision_encode. octet_fields.
  - apply octets_when. unfold replacement_encode. octet_fields.
  - unfold reasons_encode. octet_fields.
  - apply octets_each. eapply Forall_impl; [eassumption|]. apply octets_assessment.
Qed.
Lemma octets_idempotency e : idempotency_wf e -> octets (encode e).
Proof.
  unfold idempotency_wf. intros H. decompose [and] H. cbn. unfold idempotency_encode. octet_fields.
  apply octets_when. unfold idempotency_replacement_encode. octet_fields.
Qed.
Lemma octets_policy p : octets (encode (A := FailoverPolicy) p).
Proof. cbn. unfold policy_encode. octet_fields. Qed.
Lemma octets_link d : octets (encode (A := LinkDefinition) d).
Proof. cbn. unfold link_definition_encode. octet_fields. Qed.
Lemma octets_topology t : octets (encode (A := TopologySnapshot) t).
Proof.
  cbn. unfold topology_encode. octet_fields. apply octets_each, Forall_forall. intros. apply octets_link.
Qed.
Lemma octets_boot p : boot_wf p -> octets (encode p).
Proof. unfold boot_wf. intros H. decompose [and] H. cbn. unfold boot_encode. octet_fields. Qed.
Lemma octets_checkpoint p : octets (encode (A := CheckpointPayload) p).
Proof. cbn. unfold checkpoint_encode. octet_fields. Qed.

Lemma octets_payload {A} `{Codec A} (a : A) : octets (encode a) -> Forall is_u8 (encode_payload a).
Proof. intros H'. apply H'. constructor. Qed.

(** ** Lineages up to the positions of attempt records *)
Definition unnumbered (r : AttemptRecord) : AttemptRecord := set_at_create_seq 0 (set_at_update_seq 0 r).
Definition kept (l : Lineage) : StoreOptions * (string * FailoverPolicy * TopologySnapshot) *
    (Epoch * Incarnation * Z * Z) * list AttemptRecord * list FenceRecord * list IdempotencyEntry :=
  let st := ln_state l in
  (ln_options l, (ds_fabric st, ds_policy st, ds_topology st),
   (ds_epoch st, ds_coordinator st, ds_boot_count st, ds_epoch_advances st),
   map unnumbered (ds_attempts st), ds_fences st, ds_idempotency st).
Definition same_lineage (l l' : Lineage) : Prop := kept l = kept l'.
#[global] Instance same_lineage_equiv : Equivalence same_lineage.
Proof. unfold same_lineage. split; red; intros; congruence. Qed.

(** Sorting and eviction look at the subject, the sequence and the phase only. *)
Lemma merge_map {A B} (f : A -> B) (R : relation A) (R' : relation B)
    `{!forall x y, Decision (R x y)} `{!forall x y, Decision (R' x y)} l1 l2 :
  (forall x y, R' (f x) (f y) <-> R x y) ->
  list_merge R' (map f l1) (map f l2) = map f (list_merge R l1 l2).
Proof.
  intros HR. revert l2. induction l1 as [|x l1 IH1]; intros l2; [by destruct l2|].
  induction l2 as [|y l2 IH2]; [done|]. cbn [map]. rewrite !list_merge_cons.
  destruct (decide (R x y)) as [Hr|Hr].
  - rewrite decide_True by by apply HR. cbn [map]. f_equal. apply (IH1 (y :: l2)).
  - rewrite decide_False by by rewrite HR. cbn [map]. f_equal. exact IH2.
Qed.

Lemma std_sort_map {A B} (f : A -> B) (ltb : A -> A -> bool) (ltb' : B -> B -> bool) l :
  (forall x y, ltb' (f x) (f y) = ltb x y) -> std_sort ltb' (map f l) = map f (std_sort ltb l).
Proof.
  intros H. unfold std_sort, merge_sort.
  assert (Hr : forall x y, not_after ltb' (f x) (f y) <-> not_after ltb x y)
    by (intros; unfold not_after; by rewrite H).
  set (m := fmap (M := option) (map f) : option (list A) -> option (list B)).
  assert (Hl : forall st l, merge_list_to_stack (not_after ltb') (map m st) (map f l) =
    map m (merge_list_to_stack (not_after ltb) st l)).
  { induction st as [|[s|] st IH]; intros l0; cbn; [done| |done]. f_equal.
    rewrite (merge_map f (not_after ltb) (not_after ltb')) by done. apply IH. }
  assert (Hs : forall st, merge_stack (not_after ltb') (map m st) = map f (merge_stack (not_after ltb) st)).
  { induction st as [|[s|] st IH]; cbn; [done| |done]. by rewrite IH, (merge_map f (not_after ltb) (not_after ltb')). }
  assert (Ha : forall l st, merge_sort_aux (not_after ltb') (map m st) (map f l) =
    map f (merge_sort_aux (not_after ltb) st l)).
  { induction l0 as [|x l0 IH]; intros st; cbn [map merge_sort_aux]; [apply Hs|].
    rewrite <- IH, <- Hl. done. }
  apply (Ha l []).
Qed.

Lemma erase_first_map {A} (f : A -> A) p (l : list A) : (forall x, p (f x) = p x) ->
  erase_first p (map f l) = fmap (map f) (erase_first p l).
Proof.
  intros H. induction l as [|x l IH]; cbn [map erase_first]; [done|]. rewrite H.
  destruct (p x); [done|]. rewrite IH. by destruct (erase_first p l).
Qed.

Lemma evict_loop_map (f : AttemptRecord -> AttemptRecord) fuel max l z :
  (forall r, at_phase (f r) = at_phase r) ->
  (evict_loop fuel max (map f l) z).1 = map f (evict_loop fuel max l z).1.
Proof.
  intros H. revert l z. induction fuel as [|n IH]; intros l z; cbn [evict_loop]; [done|].
  rewrite length_map. destruct (Nat.leb _ _); [done|]. rewrite erase_first_map by (intros; by rewrite H).
  destruct (erase_first _ l); cbn [fmap option_fmap option_map]; [apply IH|done].
Qed.

Lemma upsert_map (f : AttemptRecord -> AttemptRecord) r l :
  (forall a b, same_attempt (f a) (f b) = same_attempt a b) ->
  upsert (f r) (map f l) = map f (upsert r l).
Proof.
  intros H. induction l as [|x l IH]; cbn [map upsert]; [done|]. rewrite H.
  destruct (same_attempt x r); cbn [map]; [done|]. by rewrite IH.
Qed.

(** The attempts an eviction keeps, as a function of the list and the bound. *)
Definition evicted_list (max : nat) (l : list AttemptRecord) : list AttemptRecord :=
  if Nat.leb (length l) max then l
  else (evict_loop (length l) max (std_sort attempt_less l) 0).1.
Lemma evict_attempts_list l :
  kept (evict_attempts l) = kept (set_ln_state (set_ds_attempts
    (evicted_list (sp_max_attempts (ln_options l)) (ds_attempts (ln_state l))) (ln_state l)) l).
Proof.
  unfold evict_attempts, evicted_list. destruct (Nat.leb _ _) eqn:E; [by destruct l as [? [] ?]|].
  rewrite std_sort_length.
  rewrite (evict_loop_kept _ _ _ 0 (st_attempts_evicted (ln_status l))). by destruct (evict_loop _ _ _ _).
Qed.
Lemma evicted_list_unnumbered max l :
  map unnumbered (evicted_list max l) = evicted_list max (map unnumbered l).
Proof.
  unfold evicted_list. rewrite length_map. destruct (Nat.leb _ _); [done|].
  rewrite (std_sort_map unnumbered attempt_less) by done. by rewrite evict_loop_map.
Qed.

Lemma note_attempt_same r r' l l' : same_lineage l l' -> unnumbered r = unnumbered r' ->
  same_lineage (note_attempt r l) (note_attempt r' l').
Proof.
  unfold same_lineage, note_attempt. intros H Hr. rewrite !evict_attempts_list. unfold upsert_attempt.
  destruct l as [o st s], l' as [o' st' s']. injection H as -> Hf Hp Ht He Hc Hb Ha Hat Hfe Hi.
  unfold kept. cbn [ln_options ln_state ln_status set_ln_state set_ds_attempts ds_attempts ds_fabric ds_policy
    ds_topology ds_epoch ds_coordinator ds_boot_count ds_epoch_advances ds_fences ds_idempotency].
  rewrite !evicted_list_unnumbered, <- !upsert_map by done. by rewrite Hr, Hat, Hf, Hp, Ht, He, Hc, Hb, Ha, Hfe, Hi.
Qed.

Lemma note_fence_same f l l' : same_lineage l l' -> same_lineage (note_fence f l) (note_fence f l').
Proof.
  unfold same_lineage. destruct l as [o st s], l' as [o' st' s']. intros H.
  injection H as -> Hf Hp Ht He Hc Hb Ha Hat Hfe Hi. unfold note_fence, evict_fences.
  cbn [push_fence ln_state ln_options set_ln_state ds_fences set_ds_fences]. rewrite Hfe.
  destruct (Nat.leb _ _); unfold kept; cbn; congruence.
Qed.
Lemma note_idempotency_same e l l' : same_lineage l l' ->
  same_lineage (note_idempotency e l) (note_idempotency e l').
Proof.
  unfold same_lineage. destruct l as [o st s], l' as [o' st' s']. intros H.
  injection H as -> Hf Hp Ht He Hc Hb Ha Hat Hfe Hi. unfold note_idempotency, evict_idempotency.
  cbn [push_idempotency ln_state ln_options set_ln_state ds_idempotency set_ds_idempotency]. rewrite Hi.
  destruct (Nat.leb _ _); unfold kept; cbn; congruence.
Qed.

Lemma same_lineage_parts l l' : same_lineage l l' ->
  ln_options l = ln_options l' /\ ds_fabric (ln_state l) = ds_fabric (ln_state l') /\
  ds_policy (ln_state l) = ds_policy (ln_state l') /\ ds_topology (ln_state l) = ds_topology (ln_state l') /\
  ds_epoch (ln_state l) = ds_epoch (ln_state l') /\ ds_coordinator (ln_state l) = ds_coordinator (ln_state l') /\
  ds_boot_count (ln_state l) = ds_boot_count (ln_state l') /\
  ds_epoch_advances (ln_state l) = ds_epoch_advances (ln_state l') /\
  map unnumbered (ds_attempts (ln_state l)) = map unnumbered (ds_attempts (ln_state l')) /\
  ds_fences (ln_state l) = ds_fences (ln_state l') /\ ds_idempotency (ln_state l) = ds_idempotency (ln_state l').
Proof. unfold same_lineage, kept. intros H. by simplify_eq. Qed.

(** ** Well-typed lineages *)
(** An attempt the encodings represent: created at [n] or before, about a named
    link, with a named replacement or none. *)
Definition attempt_typed (n : LineageSeq) (r : AttemptRecord) : Prop :=
  attempt_wf r /\ at_create_seq r <= n /\ link_key_valid (at_subject r) /\
  ((at_replacement r = link_key_none /\ at_replacement_generation r = 0) \/ link_key_valid (at_replacement r)).

Record state_typed (n : LineageSeq) (st : DurableState) : Prop := {
  ty_fabric : is_valid_name (ds_fabric st) = true;
  ty_policy : policy_wf (ds_policy st) /\ status_ok (policy_validate (ds_policy st)) = true;
  ty_topology : topology_wf (ds_topology st) /\ status_ok (topology_validate (ds_topology st)) = true;
  ty_epoch : is_u64 (ds_epoch st);
  ty_coordinator : incarnation_wf (ds_coordinator st);
  ty_boots : is_u64 (ds_boot_count st);
  ty_advances : is_u64 (ds_epoch_advances st);
  ty_records : is_u64 (ds_record_count st);
  ty_attempts : Forall (attempt_typed n) (ds_attempts st);
  ty_fences : Forall fence_wf (ds_fences st);
  ty_index : Forall (fun e => idempotency_wf e /\ entry_fits e) (ds_idempotency st);
  ty_unique : keys_unique (ds_attempts st);
  ty_bounded : epochs_bounded st;
}.

Lemma attempt_typed_mono n n' r : n <= n' -> attempt_typed n r -> attempt_typed n' r.
Proof. intros Hn (H1 & H2 & H3 & H4). split_and!; [done|lia|done..]. Qed.
Lemma attempts_typed_mono n n' l : n <= n' -> Forall (attempt_typed n) l -> Forall (attempt_typed n') l.
Proof. intros Hn H. eapply Forall_impl; [exact H|]. intros r. by apply attempt_typed_mono. Qed.
Lemma state_typed_mono n n' st : n <= n' -> state_typed n st -> state_typed n' st.
Proof. intros Hn []. split; try done. by eapply attempts_typed_mono. Qed.

Lemma stored_typed n seq r r' : n <= seq -> is_u64 seq -> attempt_typed n r ->
  r' = set_at_update_seq seq r \/ r' = set_at_update_seq seq (set_at_create_seq seq r) -> attempt_typed seq r'.
Proof.
  unfold attempt_typed, attempt_wf. intros Hn Hs ((H1 & H2 & H3 & H4) & Hc & Hr & Hp).
  decompose [and] H4. intros [->| ->]; cbn; split_and!; try done; lia.
Qed.

Lemma note_attempt_elem x r l : x ∈ ds_attempts (ln_state (note_attempt r l)) ->
  x = r \/ x ∈ ds_attempts (ln_state l).
Proof.
  intros H. apply (proj1 (evict_attempts_spec (upsert_attempt r l))) in H. cbn in H. by apply elem_of_upsert.
Qed.
Lemma evict_attempts_frame l : let st := ln_state l in let st' := ln_state (evict_attempts l) in
  ds_fabric st' = ds_fabric st /\ ds_policy st' = ds_policy st /\ ds_topology st' = ds_topology st /\
  ds_epoch st' = ds_epoch st /\ ds_coordinator st' = ds_coordinator st /\ ds_boot_count st' = ds_boot_count st /\
  ds_epoch_advances st' = ds_epoch_advances st /\ ds_record_count st' = ds_record_count st /\
  ds_fences st' = ds_fences st /\ ds_idempotency st' = ds_idempotency st /\
  ln_options (evict_attempts l) = ln_options l.
Proof. unfold evict_attempts. destruct (Nat.leb _ _); [done|]. by destruct (evict_loop _ _ _ _). Qed.

Lemma note_attempt_typed n r l : state_typed n (ln_state l) -> attempt_typed n r ->
  av_epoch (at_authority r) <= ds_epoch (ln_state l) -> state_typed n (ln_state (note_attempt r l)).
Proof.
  intros H Hr Hep. pose proof (note_attempt_elem) as He. unfold note_attempt in *.
  destruct (evict_attempts_frame (upsert_attempt r l)) as (F1 & F2 & F3 & F4 & F5 & F6 & F7 & F8 & F9 & F10 & _).
  cbv zeta in *. destruct H. split; rewrite ?F1, ?F2, ?F3, ?F4, ?F5, ?F6, ?F7, ?F8, ?F9, ?F10; try done.
  - apply Forall_forall. intros x Hx. apply He in Hx as [->|Hx]; [done|]. rewrite Forall_forall in ty_attempts0. auto.
  - by apply evict_attempts_unique, upsert_keys_unique.
  - destruct ty_bounded0 as [B1 B2]. split; [by rewrite F4|]. intros x Hx. rewrite F4.
    apply He in Hx as [->|Hx]; [done|by apply B2].
Qed.

(** ** Sound commits *)
(** What replay makes of a record: a fence is refused whatever it meets, any other
    record does what the callback did. *)
Definition record_replays (v : RecordView) (l l1 : Lineage) : Prop :=
  if enum_eqb (rv_type v) RecordType.Fence
  then forall l', status_outcome (apply_record v l').1 = Outcome.Corrupt
  else forall l', same_lineage l' l -> state_typed (rv_seq v) (ln_state l') ->
    exists l'', apply_record v l' = (status_success, l'') /\ same_lineage l'' l1 /\
      state_typed (rv_seq v) (ln_state l'').

Record sound_commit (type : RecordType) (payload : bytes) (apply : LineageSeq -> Lineage -> Lineage)
    (l : Lineage) : Prop := {
  sd_options : keeps_options apply;
  sd_fabric : forall seq l', ds_fabric (ln_state (apply seq l')) = ds_fabric (ln_state l');
  sd_epoch : forall seq, ds_epoch (ln_state l) <= ds_epoch (ln_state (apply seq l));
  sd_octets : Forall is_u8 payload;
  sd_typed : forall seq, ds_last_seq (ln_state l) < seq -> is_u64 seq ->
    state_typed (ds_last_seq (ln_state l)) (ln_state l) -> state_typed seq (ln_state (apply seq l));
  sd_replays : forall seq, 0 < seq -> ds_last_seq (ln_state l) < seq ->
    record_replays (MkView type seq payload) l (apply seq l);
}.

(** Commits of a running engine leave its epoch. *)
Definition keeps_epoch (apply : LineageSeq -> Lineage -> Lineage) : Prop :=
  forall seq l, ds_epoch (ln_state (apply seq l)) = ds_epoch (ln_state l).
Lemma note_attempt_epoch (number : LineageSeq -> AttemptRecord) : keeps_epoch (fun seq l => note_attempt (number seq) l).
Proof.
  intros seq l. unfold note_attempt. by destruct (evict_attempts_others (upsert_attempt (number seq) l)) as (-> & _).
Qed.
Lemma note_fence_epoch (number : LineageSeq -> FenceRecord) : keeps_epoch (fun seq l => note_fence (number seq) l).
Proof. intros seq l. unfold note_fence, evict_fences. by destruct (Nat.leb _ _). Qed.
Lemma note_idempotency_epoch e : keeps_epoch (fun _ l => note_idempotency e l).
Proof. intros seq l. unfold note_idempotency, evict_idempotency. by destruct (Nat.leb _ _). Qed.

Lemma note_attempt_options r l : ln_options (note_attempt r l) = ln_options l.
Proof. unfold note_attempt. by destruct (evict_attempts_others (upsert_attempt r l)) as (_ & _ & _ & ->). Qed.
Lemma evict_fences_options l : ln_options (evict_fences l) = ln_options l.
Proof. unfold evict_fences. by destruct (Nat.leb _ _). Qed.
Lemma evict_idempotency_options l : ln_options (evict_idempotency l) = ln_options l.
Proof. unfold evict_idempotency. by destruct (Nat.leb _ _). Qed.

Lemma evict_attempts_fabric l : ds_fabric (ln_state (evict_attempts l)) = ds_fabric (ln_state l).
Proof. apply (evict_attempts_frame l). Qed.
Lemma note_fence_fabric f l : ds_fabric (ln_state (note_fence f l)) = ds_fabric (ln_state l).
Proof. unfold note_fence, evict_fences. by destruct (Nat.leb _ _). Qed.
Lemma note_idempotency_fabric e l : ds_fabric (ln_state (note_idempotency e l)) = ds_fabric (ln_state l).
Proof. unfold note_idempotency, evict_idempotency. by destruct (Nat.leb _ _). Qed.

(** The type a written attempt's record has to carry for its phase. *)
Definition attempt_type_ok (type : RecordType) (r : AttemptRecord) : Prop :=
  match type with
  | RecordType.AttemptCreate => at_phase r = AttemptPhase.Evaluated \/ at_phase r = AttemptPhase.Refused \/
      at_phase r = AttemptPhase.Indeterminate
  | RecordType.AttemptUpdate => True
  | RecordType.Completion => at_phase r = AttemptPhase.Committed
  | RecordType.Rollback => at_phase r = AttemptPhase.RolledBack
  | _ => False
  end.

Lemma apply_attempt_payload type seq r l : attempt_wf r -> attempt_type_ok type r -> at_create_seq r <= seq ->
  apply_record (MkView type seq (encode_attempt_payload r)) l = (status_success, note_attempt r l).
Proof.
  intros Hw Ht Hs. assert (E : decode_attempt_payload (encode_attempt_payload r) = Some r)
    by by apply decode_payload_encode.
  unfold apply_record. cbn [rv_type rv_payload rv_seq]. rewrite E.
  destruct type; try done; unfold apply_attempt_record, phase_is; cbn [enum_eqb andb] in *.
  all: rewrite (proj2 (Z.leb_le _ _) Hs).
  - destruct Ht as [E'|[E'|E']]; rewrite E'; reflexivity.
  - reflexivity.
  - cbn in Ht. rewrite !Ht. reflexivity.
  - cbn in Ht. rewrite !Ht. reflexivity.
Qed.

Lemma sound_attempt type r (number : LineageSeq -> AttemptRecord) l :
  attempt_typed (ds_last_seq (ln_state l)) r -> av_epoch (at_authority r) <= ds_epoch (ln_state l) ->
  attempt_type_ok type r ->
  (forall seq, number seq = set_at_update_seq seq r \/
     number seq = set_at_update_seq seq (set_at_create_seq seq r)) ->
  sound_commit type (encode_attempt_payload r) (fun seq l => note_attempt (number seq) l) l.
Proof.
  intros Hr Hep Ht Hn. pose proof Hr as (Hw & Hc & _). split.
  - intros seq l'. apply note_attempt_options.
  - intros seq l'. unfold note_attempt. by rewrite evict_attempts_fabric.
  - intros seq. by rewrite (note_attempt_epoch number).
  - by apply octets_payload, octets_attempt.
  - intros seq Hs Hu Hl. apply note_attempt_typed; [eapply state_typed_mono; [|done]; lia| |by destruct (Hn seq) as [-> | ->]].
    eapply (stored_typed _ _ r); [|done..]. lia.
  - intros seq _ Hs. unfold record_replays. destruct (enum_eqb _ _) eqn:E.
    { cbn [rv_type] in E. apply enum_eqb_eq in E. by subst type. }
    intros l' Hl Hty. exists (note_attempt r l'). split; [apply apply_attempt_payload; [done..|lia]|]. split.
    + apply note_attempt_same; [done|]. by destruct (Hn seq) as [-> | ->].
    + apply same_lineage_parts in Hl as (_ & _ & _ & _ & He & _).
      apply note_attempt_typed; [done| |by rewrite He]. eapply attempt_typed_mono; [|done]. cbn. lia.
Qed.

Lemma note_fence_typed n f l : state_typed n (ln_state l) -> fence_wf f -> state_typed n (ln_state (note_fence f l)).
Proof.
  intros [] Hf. unfold note_fence, evict_fences.
  assert (Hall : Forall fence_wf (ds_fences (ln_state l) ++ [f])) by (apply Forall_app; auto).
  destruct (Nat.leb _ _); split; cbn; try done. apply Forall_drop. apply Forall_forall; intros x Hx%elem_of_std_sort; rewrite Forall_forall in Hall; auto.
Qed.

Lemma sound_fence f l : fence_wf (set_fe_seq 0 f) -> fe_seq f = 0 ->
  sound_commit RecordType.Fence (encode_fence_payload f) (fun seq l => note_fence (set_fe_seq seq f) l) l.
Proof.
  intros Hw Hz. assert (Hf : fence_wf f) by (destruct f; cbn in *; by subst). split.
  - intros seq l'. unfold note_fence. by rewrite evict_fences_options.
  - intros seq l'. apply note_fence_fabric.
  - intros seq. by rewrite (note_fence_epoch (fun seq => set_fe_seq seq f)).
  - by apply octets_payload, octets_fence.
  - intros seq Hs Hu Hl. apply note_fence_typed; [eapply state_typed_mono; [|done]; lia|].
    unfold fence_wf in *. by destruct_and!.
  - intros seq Hp _. unfold record_replays. cbn [rv_type enum_eqb]. intros l'.
    unfold apply_record. cbn [rv_type rv_payload rv_seq].
    assert (E : decode_fence_payload (encode_fence_payload f) = Some f) by by apply decode_payload_encode.
    rewrite E, Hz. destruct (Z.eqb_spec 0 seq); [lia|done].
Qed.


(** Records that replay passes over. *)
Definition silent_type (type : RecordType) : bool :=
  (enum_eqb type RecordType.Checkpoint || enum_eqb type RecordType.Shutdown)%bool.
Lemma sound_frame type payload apply l :
  keeps_options apply -> (forall seq l', ds_fabric (ln_state (apply seq l')) = ds_fabric (ln_state l')) ->
  (forall seq, ds_epoch (ln_state l) <= ds_epoch (ln_state (apply seq l))) ->
  Forall is_u8 payload -> type <> RecordType.Fence ->
  (forall seq n l', same_lineage l' l -> state_typed n (ln_state l') -> state_typed n (ln_state (apply seq l'))) ->
  (forall seq l', apply_record (MkView type seq payload) l' = (status_success, apply seq l')) ->
  (forall seq l l', same_lineage l l' -> same_lineage (apply seq l) (apply seq l')) ->
  sound_commit type payload apply l.
Proof.
  intros Ho Hf Hep Hp Ht Hty Hr Hsame. split; [done|done|done|done| |].
  - intros seq Hs _ Hl. apply Hty; [done|]. eapply state_typed_mono; [|done]. lia.
  - intros seq _ _. unfold record_replays. destruct (enum_eqb _ _) eqn:E; [by apply enum_eqb_eq in E|].
    intros l' Hl Hl'. exists (apply seq l'). split; [apply Hr|]. split; [by apply Hsame|]. by apply Hty.
Qed.

Lemma sound_silent type payload l : Forall is_u8 payload -> silent_type type = true ->
  sound_commit type payload (fun _ l => l) l.
Proof.
  intros Hp Ht. apply sound_frame; [done|done|done|done|by intros ->|done| |done]. intros seq l'. by destruct type.
Qed.

Lemma sound_decision d l : decision_wf d ->
  sound_commit RecordType.DecisionCommit (encode_decision_payload d) (fun _ l => l) l.
Proof.
  intros Hd. apply sound_frame; [done|done|done|by apply octets_payload, octets_decision|done|done| |done]. intros seq l'.
  assert (E : decode_decision_payload (encode_decision_payload d) = Some d) by by apply decode_payload_encode.
  unfold apply_record. cbn [rv_type rv_payload]. by rewrite E.
Qed.

Lemma note_idempotency_typed n e l : state_typed n (ln_state l) -> idempotency_wf e -> entry_fits e ->
  state_typed n (ln_state (note_idempotency e l)).
Proof.
  intros [] He Hf. unfold note_idempotency, evict_idempotency.
  assert (Hall : Forall (fun e => idempotency_wf e /\ entry_fits e) (ds_idempotency (ln_state l) ++ [e]))
    by (apply Forall_app; auto).
  destruct (Nat.leb _ _); split; cbn; try done. by apply Forall_drop.
Qed.
Lemma sound_index e l : idempotency_wf e -> entry_fits e ->
  sound_commit RecordType.IdempotencyIndex (encode_idempotency_payload e) (fun _ l => note_idempotency e l) l.
Proof.
  intros He Hf. apply sound_frame; [| | |by apply octets_payload, octets_idempotency|done| | |].
  - intros seq l'. unfold note_idempotency. by rewrite evict_idempotency_options.
  - intros seq l'. apply note_idempotency_fabric.
  - intros seq. by rewrite (note_idempotency_epoch e seq).
  - intros _ n l' _ Hl. by apply note_idempotency_typed.
  - intros seq l'.
    assert (E : decode_idempotency_payload (encode_idempotency_payload e) = Some e)
      by by apply decode_payload_encode.
    unfold apply_record. cbn [rv_type rv_payload]. by rewrite E.
  - intros _ l1 l2. apply note_idempotency_same.
Qed.

Lemma sound_policy p l : policy_wf p -> status_ok (policy_validate p) = true ->
  sound_commit RecordType.PolicyCommit (encode_policy_payload p)
    (fun _ l => set_ln_state (set_ds_policy p (ln_state l)) l) l.
Proof.
  intros Hp Hv. apply sound_frame; [done|done|done|by apply octets_payload, octets_policy|done|by intros _ n l' _ []; split| |].
  - intros seq l'. assert (E : decode_policy_payload (encode_policy_payload p) = Some p) by by apply decode_payload_encode.
    unfold apply_record. cbn [rv_type rv_payload]. by rewrite E.
  - intros _ l1 l2 Hl. apply same_lineage_parts in Hl. destruct_and!. unfold same_lineage, kept. cbn. congruence.
Qed.
Lemma sound_topology t l : topology_wf t -> status_ok (topology_validate t) = true ->
  sound_commit RecordType.TopologyCommit (encode_topology_payload t)
    (fun _ l => set_ln_state (set_ds_topology t (ln_state l)) l) l.
Proof.
  intros Hp Hv. apply sound_frame; [done|done|done|by apply octets_payload, octets_topology|done|by intros _ n l' _ []; split| |].
  - intros seq l'. assert (E : decode_topology_payload (encode_topology_payload t) = Some t) by by apply decode_payload_encode.
    unfold apply_record. cbn [rv_type rv_payload]. by rewrite E.
  - intros _ l1 l2 Hl. apply same_lineage_parts in Hl. destruct_and!. unfold same_lineage, kept. cbn. congruence.
Qed.
Lemma sound_boot p l : boot_wf p -> ds_epoch (ln_state l) <= bp_epoch p ->
  sound_commit RecordType.Boot (encode_boot_payload p)
    (fun _ l => note_epoch (bp_epoch p) (bp_coordinator p) (bp_boot_count p) (bp_epoch_advances p) l) l.
Proof.
  intros Hp Hep. apply sound_frame; [done|done|done|by apply octets_payload, octets_boot|done| | |].
  - intros _ n l' Hl []. apply same_lineage_parts in Hl as (_ & _ & _ & _ & He & _). unfold boot_wf in Hp. destruct_and!.
    split; try done. destruct ty_bounded0 as [B1 B2]. split; [cbn; ints|]. intros r Hr. cbn. specialize (B2 r Hr). lia.
  - intros seq l'. assert (E : decode_boot_payload (encode_boot_payload p) = Some p) by by apply decode_payload_encode.
    unfold apply_record. cbn [rv_type rv_payload]. by rewrite E.
  - intros _ l1 l2 Hl. apply same_lineage_parts in Hl. destruct_and!. unfold same_lineage, kept, note_epoch. cbn. congruence.
Qed.

(** ** Images *)
Definition is_fence (v : RecordView) : bool := enum_eqb (rv_type v) RecordType.Fence.
Definition covered_by (snap : option DurableState) : LineageSeq :=
  match snap with None => 0 | Some st => ds_last_seq st end.
Definition start_of (o : StoreOptions) (snap : option DurableState) : Lineage :=
  MkLineage o (match snap with None => state_initial o | Some st => st end) status_initial.

(** Replaying the records on [l0] gives the lineage [l], unless one of them is a
    fence: then it stops there. *)
Definition shadow (covered : LineageSeq) (recs : list RecordView) (l0 l : Lineage) : Prop :=
  forall l1, same_lineage l1 l0 -> state_typed covered (ln_state l1) ->
    if existsb is_fence recs
    then exists s l2, run_hook (replay_hook covered) recs l1 = (Some s, l2) /\ status_outcome s = Outcome.Corrupt
    else exists l2, run_hook (replay_hook covered) recs l1 = (None, l2) /\ same_lineage l2 l /\
      state_typed (last_seq_of covered recs) (ln_state l2).

Lemma run_hook_app {St} (hook : RecordView -> St -> Status * St) recs1 recs2 st :
  run_hook hook (recs1 ++ recs2) st =
  match run_hook hook recs1 st with
  | (None, st') => run_hook hook recs2 st'
  | (Some s, st') => (Some s, st')
  end.
Proof.
  revert st. induction recs1 as [|r recs1 IH]; intros st; cbn [app run_hook]; [done|].
  destruct (hook r st) as [s st']. by destruct (negb (status_ok s)).
Qed.

Lemma corrupt_not_ok s : status_outcome s = Outcome.Corrupt -> status_ok s = false.
Proof. unfold status_ok. by intros ->. Qed.

Lemma shadow_nil covered l0 : shadow covered [] l0 l0.
Proof. intros l1 H Ht. by exists l1. Qed.

Lemma shadow_snoc covered recs r l0 l l1 : shadow covered recs l0 l ->
  covered <= last_seq_of covered recs < rv_seq r -> record_replays r l l1 -> shadow covered (recs ++ [r]) l0 l1.
Proof.
  intros Hs Hr Hp l2 Hl Hty. specialize (Hs l2 Hl Hty). rewrite existsb_app. cbn [existsb]. rewrite orb_false_r.
  destruct (existsb is_fence recs); cbn [orb].
  { destruct Hs as (s & l3 & E & Hc). exists s, l3. by rewrite run_hook_app, E. }
  destruct Hs as (l3 & E & Hc & Ht3). unfold record_replays in Hp. fold (is_fence r) in Hp.
  assert (Eh : replay_hook covered r l3 = apply_record r l3).
  { unfold replay_hook. destruct (Z.leb_spec (rv_seq r) covered); [lia|done]. }
  destruct (is_fence r).
  - destruct (apply_record r l3) as [s l4] eqn:Ea. exists s, l4.
    specialize (Hp l3). rewrite Ea in Hp. cbn [fst] in Hp. split; [|done].
    rewrite run_hook_app, E. cbn [run_hook]. by rewrite Eh, (corrupt_not_ok _ Hp).
  - destruct (Hp l3 Hc) as (l4 & Ea & Hc4 & Ht4); [eapply state_typed_mono; [|done]; lia|]. exists l4.
    rewrite last_seq_of_snoc. split; [|done].
    rewrite run_hook_app, E. cbn [run_hook]. by rewrite Eh, Ea.
Qed.

(** The lineage in memory may be exchanged for one that only differs in counters. *)
Lemma shadow_same covered recs l0 l l' : shadow covered recs l0 l -> same_lineage l l' -> shadow covered recs l0 l'.
Proof.
  intros Hs Hl l1 H Ht. specialize (Hs l1 H Ht). destruct (existsb is_fence recs); [done|].
  destruct Hs as (l2 & E & Hc & Ht2). exists l2. split; [done|]. split; [by etrans|done].
Qed.

Definition snapshot_of (snap : option DurableState) (o : StoreOptions) (fs : Fs) : Prop :=
  match snap with
  | None => fs_files fs !! snapshot_path o = None
  | Some st => state_typed (ds_last_seq st) st /\ is_u64 (ds_last_seq st) /\ ds_fabric st = sp_fabric o /\
      exists payload, serialise st = Success payload /\
        fs_files fs !! snapshot_path o = Some (frame_snapshot payload)
  end.

(** What the records [recs] after the snapshot [snap] say of the lineage in memory. *)
Record traced (snap : option DurableState) (recs : list RecordView) (s : StoreImpl) (fs : Fs) : Prop := {
  tc_snapshot : snapshot_of snap (sm_options s) fs;
  tc_ok : journal_ok (covered_by snap) recs;
  tc_seq : ds_last_seq (sm_state s) = last_seq_of (covered_by snap) recs;
  tc_shadow : shadow (covered_by snap) recs (start_of (sm_options s) snap) (sm_lineage s);
  tc_typed : state_typed (ds_last_seq (sm_state s)) (sm_state s);
  tc_fabric : ds_fabric (sm_state s) = sp_fabric (sm_options s);
}.
Definition image_of (snap : option DurableState) (recs : list RecordView) (s : StoreImpl) (fs : Fs) : Prop :=
  traced snap recs s fs /\ journal_of (covered_by snap) recs s fs.

(** A commit was cut short: a piece of its record follows the image. *)
Definition torn_of (snap : option DurableState) (recs : list RecordView) (s : StoreImpl) (fs : Fs) : Prop :=
  traced snap recs s fs /\ exists (r : RecordView) (k : nat) (l1 : Lineage),
    file_of fs (journal_path (sm_options s)) = journal_image (covered_by snap) recs ++ take k (record_image r) /\
    (k = 0%nat \/ record_ok r /\ last_seq_of (covered_by snap) recs < rv_seq r /\
       record_replays r (sm_lineage s) l1 /\ ln_options l1 = sm_options s /\
       ds_fabric (ln_state l1) = ds_fabric (sm_state s) /\ ds_epoch (sm_state s) <= ds_epoch (ln_state l1)).

Lemma string_app_inj d a b : (d +:+ a)%string = (d +:+ b)%string -> a = b.
Proof. induction d as [|c d IH]; cbn; [done|]. intros [= H]. auto. Qed.
Lemma snapshot_journal_ne o : snapshot_path o <> journal_path o.
Proof. unfold snapshot_path, journal_path. by intros H%string_app_inj. Qed.

(** ** A commit keeps the image *)
Lemma journal_append_unsized w type seq payload fs s w' fs' : journal_append w type seq payload fs = (s, w', fs') ->
  fs_files fs' = fs_files fs \/ Z.of_nat (length payload) <= kMaxRecordPayload.
Proof.
  unfold journal_append. destruct (jw_failed w); [intros [= <- <- <-]; by left|].
  destruct (Z.gtb_spec (Z.of_nat (length payload)) kMaxRecordPayload); [intros [= <- <- <-]; by left|by right].
Qed.

Lemma last_seq_of_ge base recs : seqs_advance base recs -> base <= last_seq_of base recs.
Proof.
  revert base. induction recs as [|r recs IH]; intros base; [done|]. cbn. intros [H1 H2].
  specialize (IH _ H2). unfold last_seq_of in *. lia.
Qed.

Lemma commit_image snap recs s type payload apply fs status s' fs' :
  image_of snap recs s fs -> sound_commit type payload apply (sm_lineage s) ->
  store_commit_impl s type payload apply fs = (status, s', fs') ->
  (status_ok status = true -> sm_failed s' = false /\ sm_options s' = sm_options s /\
     image_of snap (recs ++ [MkView type (ds_last_seq (sm_state s) + 1) payload]) s' fs') /\
  (status_ok status = false -> sm_lineage s' = sm_lineage s /\ sm_failed s' = true /\ torn_of snap recs s' fs').
Proof.
  intros [Ht Hj] Hsd H. pose proof Ht as [T1 T2 T3 T4 T5 T6]. pose proof Hsd as [S1 S2 SE S3 S4 S5].
  assert (Hlast := last_seq_of_u64 _ _ T2).
  set (r := MkView type (ds_last_seq (sm_state s) + 1) payload).
  assert (Hother : fs_files fs' !! snapshot_path (sm_options s) = fs_files fs !! snapshot_path (sm_options s)).
  { destruct (store_commit_impl_cases _ _ _ _ _ _ _ _ H) as [next w w' _ _ _ Hw Ha _|_ _ _ [->|(n & w & w' & _ & _ & Hw & Ha)]];
      [|done|]; apply journal_append_file in Ha as (Ho & _); apply Ho;
      destruct Hj as [_ _ _ (w0 & Hw0 & Hp & _)]; rewrite Hw in Hw0; injection Hw0 as ->; rewrite Hp;
      apply snapshot_journal_ne. }
  assert (Hsnap : snapshot_of snap (sm_options s) fs').
  { unfold snapshot_of in *. rewrite Hother. by destruct snap. }
  destruct (commit_refines_append_lemma _ _ _ _ _ _ _ _ _ _ Hj S3 S1 H) as [Hok Hbad]. split; intros Es.
  - destruct (Hok Es) as [Hj' (w' & ->)]. rewrite <- T3 in Hj' |- *. fold r in Hj'.
    assert (Hf : sm_failed s = false) by by apply store_commit_impl_cases in H as [? ? ? _ Hf _ _ _ _|]; [|congruence].
    split; [done|]. split; [by unfold sm_options, commit_applied; cbn; rewrite S1|]. split; [|done].
    pose proof Hj' as [J1 _ J3 _].
    assert (Hu : is_u64 (ds_last_seq (sm_state s) + 1)) by (destruct J1 as (_ & Hr & _);
      apply Forall_app in Hr as [_ Hr]; apply Forall_cons in Hr as [(Hr & _) _]; done).
    unfold sm_options, sm_state, commit_applied in *. cbn in *.
    split; unfold sm_options, sm_state; cbn; rewrite ?S1, ?S2; try done.
    + eapply shadow_same; [apply (shadow_snoc _ _ r _ _ (apply (ds_last_seq (ln_state (sm_lineage s)) + 1) (sm_lineage s)) T4)|done].
      * cbn. destruct T2 as (_ & _ & Ha). apply last_seq_of_ge in Ha. rewrite T3. lia.
      * apply S5; cbn; ints.
    + specialize (S4 (ds_last_seq (ln_state (sm_lineage s)) + 1) ltac:(lia) Hu T5). destruct S4. split; cbn; try done.
      pose proof (Z.mod_pos_bound (ds_record_count (ln_state (apply (ds_last_seq (ln_state (sm_lineage s)) + 1)
        (sm_lineage s))) + 1) two64). ints.
  - destruct (Hbad Es) as (Hl & k & Hk).
    assert (Hf : sm_failed s' = true) by (by apply store_commit_impl_cases in H as [? ? ? -> _ _ _ _ _|_ _ ? _]).
    split; [done|]. split; [done|]. assert (Ho : sm_options s' = sm_options s) by (unfold sm_options; by rewrite Hl).
    split; [split; unfold sm_state; rewrite ?Ho, ?Hl; done|]. rewrite Ho. exists r.
    destruct (store_commit_impl_cases _ _ _ _ _ _ _ _ H) as [? ? ? -> _ _ _ _ _|_ _ _ Hc]; [done|].
    assert (Hsame : fs_files fs' = fs_files fs -> exists (k : nat) (l1 : Lineage),
      file_of fs' (journal_path (sm_options s)) = journal_image (covered_by snap) recs ++ take k (record_image r) /\
      (k = 0%nat \/ record_ok r /\ last_seq_of (covered_by snap) recs < rv_seq r /\
         record_replays r (sm_lineage s') l1 /\ ln_options l1 = sm_options s /\
         ds_fabric (ln_state l1) = ds_fabric (sm_state s') /\ ds_epoch (sm_state s') <= ds_epoch (ln_state l1))).
    { intros E. exists 0%nat, (sm_lineage s). split; [|by left]. unfold file_of. rewrite E. rewrite app_nil_r. apply Hj. }
    destruct Hc as [E|(n & w & w' & _ & Hn & _ & Ha)]; [by apply Hsame|].
    destruct (journal_append_unsized _ _ _ _ _ _ _ _ Ha) as [E|Hsz]; [by apply Hsame|].
    rewrite T3 in Hn. apply strong_next_Some in Hn as [-> Hu]; [|done].
    exists k, (apply (last_seq_of (covered_by snap) recs + 1) (sm_lineage s)).
    assert (Er : r = MkView type (last_seq_of (covered_by snap) recs + 1) payload) by (subst r; by rewrite T3).
    rewrite Er. split; [exact Hk|]. right. split; [by split_and!|]. split; [cbn; lia|]. rewrite Hl.
    split; [|split; [apply S1|unfold sm_state; rewrite Hl; split; [apply S2|apply SE]]].
    unfold sm_state in T3. apply S5; rewrite ?T3; ints.
Qed.

(** ** Opening a journal *)
Lemma remove_file_files path fs s fs' : remove_file path fs = (s, fs') ->
  forall p, p <> path -> fs_files fs' !! p = fs_files fs !! p.
Proof.
  unfold remove_file, iobind. destruct (io_call fs) as [[e|] fs1] eqn:E; apply io_call_files in E;
    cbn; intros [= <- <-] p Hp; cbn; rewrite ?lookup_delete_ne by done; by rewrite E.
Qed.
Lemma fopen_existing_files path fs o fs' : fopen_existing path fs = (o, fs') -> fs_files fs' = fs_files fs.
Proof.
  unfold fopen_existing, iobind. destruct (io_call fs) as [[e|] fs1] eqn:E; apply io_call_files in E;
    cbn; by intros [= <- <-].
Qed.
Lemma path_exists_files path fs b fs' : path_exists path fs = (b, fs') -> fs_files fs' = fs_files fs.
Proof.
  unfold path_exists, iobind. destruct (io_call fs) as [e fs1] eqn:E; apply io_call_files in E. cbn. by intros [= <- <-].
Qed.
Lemma read_prefix_files path n fs r fs' : read_prefix path n fs = (r, fs') -> fs_files fs' = fs_files fs.
Proof.
  unfold read_prefix, iobind. destruct (fopen_existing path fs) as [[e|] fs1] eqn:E; apply fopen_existing_files in E.
  - by intros [= <- <-].
  - destruct (io_call fs1) as [e fs2] eqn:E2. apply io_call_files in E2. cbn. intros [= <- <-]. congruence.
Qed.
Lemma journal_open_existing_files path base b fs s fs' :
  journal_open_existing path base b fs = (s, fs') -> fs_files fs' = fs_files fs.
Proof.
  unfold journal_open_existing. destruct b; cbn [negb]; [|by intros [= <- <-]].
  unfold journal_read_header, iobind. destruct (read_prefix path kJournalHeaderSize fs) as [r fs1] eqn:E.
  apply read_prefix_files in E. cbn. by intros [= <- <-].
Qed.

(** Creating: on success the file is a bare header; nothing else is touched. *)
Lemma journal_create path base last fs r fs' : journal_open path base last true fs = (r, fs') ->
  (forall p, p <> path -> fs_files fs' !! p = fs_files fs !! p) /\
  (forall w, r = Success w -> w = MkJournalWriter path base false kJournalHeaderSize /\
     fs_files fs' !! path = Some (build_journal_header base)).
Proof.
  unfold journal_open. destruct (_ && _)%bool; [by intros [= <- <-]|]. unfold iobind at 1.
  destruct (path_exists path fs) as [b fs1] eqn:E1. apply path_exists_files in E1.
  unfold iobind at 1. destruct ((if b then remove_file path else ioret status_success) fs1) as [s2 fs2] eqn:E2.
  assert (F2 : forall p, p <> path -> fs_files fs2 !! p = fs_files fs !! p).
  { rewrite <- E1. destruct b; [by eapply remove_file_files|by injection E2 as <- <-]. }
  destruct (status_ok s2); cbn [negb]; [|by intros [= <- <-]].
  unfold journal_open_stream. cbv iota. unfold iobind at 1.
  destruct (fopen_truncate path fs2) as [o fs3] eqn:E3. pose proof (fopen_truncate_files _ _ _ _ E3) as F3.
  destruct o as [e|]; cbn [has_value].
  { intros [= <- <-]. split; [|done]. intros p Hp. by rewrite F3, F2. }
  apply fopen_truncate_empty in E3. unfold iobind at 1.
  destruct (fwrite path (build_journal_header base) fs3) as [[n e] fs4] eqn:E4. apply fwrite_spec in E4 as [F4 Hn].
  assert (Ho : forall p, p <> path -> fs_files fs4 !! p = fs_files fs !! p).
  { intros p Hp. by rewrite F4, lookup_insert_ne, F3, F2. }
  cbn [fst]. destruct (Nat.eqb_spec n 32) as [->|Hne]; cbn [negb]; [|by intros [= <- <-]].
  unfold iobind at 1. destruct (journal_sync_stream fs4) as [s5 fs5] eqn:E5. apply journal_sync_stream_files in E5.
  destruct (status_ok s5); cbn [negb]; intros [= <- <-]; rewrite E5; (split; [done|]); [|done].
  intros w [= <-]. split; [done|]. rewrite F4, lookup_insert_eq, E3. cbn [default].
  by rewrite take_ge by (by rewrite build_journal_header_length).
Qed.

(** Reopening: nothing is touched. *)
Lemma journal_reopen path base last fs r fs' : journal_open path base last false fs = (r, fs') ->
  fs_files fs' = fs_files fs /\ (forall w, r = Success w -> w = MkJournalWriter path last false 0).
Proof.
  unfold journal_open. destruct (_ && _)%bool; [by intros [= <- <-]|]. unfold iobind at 1.
  destruct (path_exists path fs) as [b fs1] eqn:E1. apply path_exists_files in E1.
  unfold iobind at 1. destruct (journal_open_existing path base b fs1) as [s2 fs2] eqn:E2.
  apply journal_open_existing_files in E2. rewrite E1 in E2.
  destruct (status_ok s2); cbn [negb]; [|by intros [= <- <-]].
  unfold journal_open_stream. cbv iota. unfold iobind at 1.
  destruct (fopen_existing path fs2) as [o fs3] eqn:E3. apply fopen_existing_files in E3. rewrite E2 in E3.
  destruct o as [e|]; cbn [has_value]; [by intros [= <- <-]|]. unfold iobind.
  destruct (io_call fs3) as [o fs4] eqn:E4. apply io_call_files in E4. rewrite E3 in E4.
  destruct o as [e|]; cbn [has_value]; intros [= <- <-]; (split; [done|]); [done|]. by intros w [= <-].
Qed.

(** ** A checkpoint keeps the image *)
Lemma snapshot_paths o :
  journal_path o <> snapshot_path o /\ journal_path o <> (snapshot_path o +:+ ".tmp")%string /\
  staging_path o <> snapshot_path o /\ staging_path o <> journal_path o /\
  snapshot_path o <> (snapshot_path o +:+ ".tmp")%string.
Proof.
  unfold snapshot_path, journal_path, staging_path. rewrite string_app_assoc.
  by split_and!; intros H%string_app_inj.
Qed.

Lemma traced_start s fs payload (s1 := sm_state s) :
  state_typed (ds_last_seq s1) s1 -> is_u64 (ds_last_seq s1) -> ds_fabric s1 = sp_fabric (sm_options s) ->
  serialise s1 = Success payload -> fs_files fs !! snapshot_path (sm_options s) = Some (frame_snapshot payload) ->
  traced (Some s1) [] s fs.
Proof.
  intros H1 H2 H3 H4 H5. split; cbn; try done; eauto 10.
  intros l1 Hl Hty. exists l1. split; [done|]. split; [|done]. etrans; [exact Hl|]. unfold same_lineage, kept. by destruct s as [[? ?] ? ? ?].
Qed.

(** How a checkpoint of the lineage [o], [st] can end. *)
Inductive checkpointed (o : StoreOptions) (st : DurableState) (s : StoreImpl) (r : Result LineageSeq) (fs' : Fs) :
    Prop :=
| CheckpointDone v :
    result_ok r = true -> sm_failed s = false -> sm_options s = o -> rv_type v = RecordType.Checkpoint ->
    rv_seq v = ds_last_seq st + 1 -> same_lineage (sm_lineage s) (start_of o (Some st)) -> image_of (Some st) [v] s fs' -> checkpointed o st s r fs'
| CheckpointUnrotated :
    result_ok r = false -> sm_failed s = true -> sm_options s = o -> sm_state s = st ->
    snapshot_of (Some st) o fs' -> checkpointed o st s r fs'.

Lemma snapshot_of_files snap o fs fs' :
  fs_files fs' !! snapshot_path o = fs_files fs !! snapshot_path o -> snapshot_of snap o fs -> snapshot_of snap o fs'.
Proof. unfold snapshot_of. by intros ->. Qed.

Lemma traced_frame snap recs s s' fs fs' : sm_lineage s' = sm_lineage s ->
  fs_files fs' !! snapshot_path (sm_options s) = fs_files fs !! snapshot_path (sm_options s) ->
  traced snap recs s fs -> traced snap recs s' fs'.
Proof.
  intros Hl Hs []. split; unfold sm_options, sm_state in *; rewrite ?Hl; try done. by eapply snapshot_of_files.
Qed.

(** A bare journal over the snapshot of the state. *)
Lemma image_fresh st s w fs :
  traced (Some st) [] s fs -> ds_last_seq (sm_state s) = ds_last_seq st ->
  fs_files fs !! journal_path (sm_options s) = Some (build_journal_header (ds_last_seq st)) ->
  sm_writer s = Some w -> w = MkJournalWriter (journal_path (sm_options s)) (ds_last_seq st) false 0 ->
  image_of (Some st) [] s fs.
Proof.
  intros Ht Hseq Hj Hw ->. pose proof Ht as [_ T2 T3 _ _ _]. split; [done|]. split; [done| |done|].
  - unfold file_of. rewrite Hj. unfold journal_image. cbn [map concat default covered_by]. by rewrite app_nil_r.
  - eexists. split; [exact Hw|]. by rewrite Hseq.
Qed.

(** The second half, from a medium that holds the new snapshot. *)
Lemma checkpoint_rotate_image o st s size fs r s' fs' :
  sm_options s = o -> sm_state s = st -> sm_failed s = false -> traced (Some st) [] s fs ->
  checkpoint_rotate s size fs = (r, s', fs') -> checkpointed o st s' r fs'.
Proof.
  intros Ho Hst Hf Ht. pose proof (tc_snapshot _ _ _ _ Ht) as Hs. rewrite Ho in Hs.
  destruct (snapshot_paths o) as (P1 & _ & P3 & P4 & _).
  unfold checkpoint_rotate. cbv zeta. rewrite Hst. change (sm_options (set_sm_writer None s)) with (sm_options s).
  rewrite Ho. unfold iobind at 1.
  destruct (journal_open (staging_path o) _ _ true fs) as [r1 fs1] eqn:E1. apply journal_create in E1 as [O1 W1].
  assert (S1 : fs_files fs1 !! snapshot_path o = fs_files fs !! snapshot_path o) by auto.
  destruct r1 as [w1|e].
  2: { intros [= <- <- <-]. apply CheckpointUnrotated; [done..|]. by eapply snapshot_of_files. }
  destruct (W1 _ eq_refl) as [-> F1]. unfold iobind at 1.
  destruct (fs_rename (staging_path o) (journal_path o) fs1) as [renamed fs2] eqn:E2. apply fs_rename_files in E2.
  destruct renamed as [e|]; cbn [has_value].
  { intros [= <- <- <-]. apply CheckpointUnrotated; [done..|]. eapply snapshot_of_files; [|exact Hs]. by rewrite E2. }
  destruct E2 as (data & Hd & F2). rewrite F1 in Hd. injection Hd as <-.
  assert (S2 : fs_files fs2 !! snapshot_path o = fs_files fs !! snapshot_path o).
  { by rewrite F2, lookup_insert_ne, lookup_delete_ne. }
  unfold iobind at 1. destruct (journal_open (journal_path o) _ _ false fs2) as [r3 fs3] eqn:E3.
  apply journal_reopen in E3 as [F3 W3]. rewrite <- F3 in S2. destruct r3 as [w3|e].
  2: { intros [= <- <- <-]. apply CheckpointUnrotated; [done..|]. by eapply snapshot_of_files. }
  specialize (W3 _ eq_refl). unfold iobind. cbv zeta.
  set (s2 := set_sm_records 0 (set_sm_writer (Some w3) (set_sm_writer None s))).
  match goal with |- context [store_commit_impl s2 ?t ?p ?f fs3] =>
    destruct (store_commit_impl s2 t p f fs3) as [[status s4] fs4] eqn:E4 end.
  assert (Hi : image_of (Some st) [] s2 fs3).
  { assert (Ho2 : sm_options s2 = o) by exact Ho. assert (Hst2 : sm_state s2 = st) by exact Hst.
    apply (image_fresh st s2 w3 fs3); rewrite ?Ho2, ?Hst2; try done.
    - apply (traced_frame _ _ s _ fs); [done|by rewrite Ho|done].
    - by rewrite F3, F2, lookup_insert_eq. }
  assert (Hl4 : status_ok status = true -> same_lineage (sm_lineage s4) (start_of o (Some st))).
  { intros Hst4. destruct (store_commit_impl_cases _ _ _ _ _ _ _ _ E4) as [? ? ? -> _ _ _ _ ->|]; [|congruence].
    subst o st. unfold same_lineage, kept. by destruct s as [[? ?] ? ? ?]. }
  apply (commit_image _ _ _ _ _ _ _ _ _ _ Hi) in E4 as [Hok Hbad].
  2: { apply sound_silent; [apply octets_payload, octets_checkpoint|done]. }
  cbn [fst snd]. destruct (status_ok status) eqn:Es; cbn [negb]; intros [= <- <- <-].
  - destruct (Hok eq_refl) as (Hf4 & Ho4 & Hi4). eapply CheckpointDone; [done|done|by rewrite Ho4| | |by apply Hl4|exact Hi4]; [done|].
    change (ds_last_seq (sm_state s2) + 1 = ds_last_seq st + 1). by rewrite <- Hst.
  - destruct (Hbad eq_refl) as (Hl & Hf4 & [[T1 _ _ _ _ _] _]).
    assert (sm_options s4 = o) as Ho4 by (unfold sm_options; by rewrite Hl). rewrite Ho4 in T1.
    apply CheckpointUnrotated; try done. unfold sm_state. by rewrite Hl.
Qed.

Lemma checkpoint_image snap recs s fs r s' fs' :
  image_of snap recs s fs -> sm_failed s = false ->
  store_checkpoint (Some s) fs = (r, Some s', fs') ->
  checkpointed (sm_options s) (sm_state s) s' r fs' \/
  (result_ok r = false /\ s' = s /\ image_of snap recs s fs').
Proof.
  intros [Ht Hj] Hf. cbn [store_checkpoint]. rewrite Hf. unfold iobind at 1. unfold checkpoint_snapshot.
  pose proof Ht as [T1 T2 T3 T4 T5 T6].
  destruct (serialise (sm_state s)) as [payload|e] eqn:Ep; [|intros [= <- <- <-]; by right].
  unfold iobind at 1. destruct (write_file_atomic (snapshot_path (sm_options s)) _ fs) as [st fs1] eqn:E1.
  apply write_file_atomic_cases in E1 as (W1 & W2 & W3).
  destruct (snapshot_paths (sm_options s)) as (P1 & P2 & _).
  destruct (status_ok st) eqn:Es; cbn [negb ioret].
  2: { intros [= <- <- <-]. right. split; [done|]. split; [done|]. split; [by apply (traced_frame _ _ s _ fs); [|apply W2|]|].
    destruct Hj as [J1 J2 J3 J4]. split; try done. unfold file_of. by rewrite W3. }
  unfold iobind. match goal with |- context [checkpoint_rotate ?x ?n fs1] => set (s1 := x); set (n1 := n) end.
  destruct (checkpoint_rotate s1 n1 fs1) as [[r2 s2] fs2] eqn:E2. cbn [fst snd ioret]. intros [= <- <- <-]. left.
  apply (checkpoint_rotate_image _ _ s1 n1 fs1); [done..| |done].
  apply (traced_start s1 fs1 payload); [exact T5| |exact T6|exact Ep|by apply W1].
  change (is_u64 (ds_last_seq (sm_state s))). rewrite T3.
  by apply last_seq_of_u64.
Qed.

(** ** Opening a store on a quiet medium *)
Lemma path_exists_calm p fs : fs_calm fs -> path_exists p fs = (has_value (fs_files fs !! p), fs).
Proof. intros H. unfold path_exists, iobind. by rewrite io_call_calm. Qed.
Lemma fopen_existing_calm p data fs : fs_calm fs -> fs_files fs !! p = Some data -> fopen_existing p fs = (None, fs).
Proof. intros H Hp. unfold fopen_existing, iobind. rewrite io_call_calm by done. unfold io_get, ioret. by rewrite Hp. Qed.
Lemma read_file_calm p n data fs : fs_calm fs -> fs_files fs !! p = Some data -> Z.of_nat (length data) <= n ->
  read_file p n fs = (Success data, fs).
Proof.
  intros H Hp Hn. unfold read_file, file_size, iobind. rewrite path_exists_calm, Hp by done. cbn [has_value negb].
  rewrite io_call_calm by done. cbn [ioret io_get has_value]. rewrite Hp. cbn [from_option id]. rewrite gtb_false by lia.
  rewrite (fopen_existing_calm p data) by done. rewrite io_call_calm by done. cbn [io_get ioret]. by rewrite Hp.
Qed.
Lemma read_prefix_calm p n data fs : fs_calm fs -> fs_files fs !! p = Some data ->
  read_prefix p n fs = (Success (take (Z.to_nat n) data), fs).
Proof.
  intros H Hp. unfold read_prefix, iobind. rewrite (fopen_existing_calm p data) by done.
  rewrite io_call_calm by done. cbn [io_get ioret]. by rewrite Hp.
Qed.
Lemma journal_reopen_calm path base last rest fs :
  fs_calm fs -> is_u64 base -> base <= last -> fs_files fs !! path = Some (build_journal_header base ++ rest) ->
  journal_open path base last false fs = (Success (MkJournalWriter path last false 0), fs).
Proof.
  intros Hc Hb Hl Hp. unfold journal_open.
  replace (negb (base =? 0) && (last <? base))%bool with false; [|destruct (Z.ltb_spec last base); [exfalso; lia|by rewrite andb_false_r]].
  unfold iobind at 1. rewrite path_exists_calm, Hp by done. cbn [has_value]. unfold iobind at 1.
  unfold journal_open_existing. cbn [negb]. unfold iobind at 1. unfold journal_read_header, iobind at 1.
  rewrite (read_prefix_calm _ _ (build_journal_header base ++ rest)) by done. cbn [ioret].
  change (Z.to_nat kJournalHeaderSize) with 32%nat.
  rewrite take_app_length' by apply (build_journal_header_length base).
  rewrite build_journal_header_length. destruct (Z.ltb_spec (Z.of_nat 32) kJournalHeaderSize) as [Hx|_]; [done|].
  pose proof (parse_journal_build base [] Hb) as E. rewrite app_nil_r in E. rewrite E. cbn [jh_base_seq].
  rewrite Z.eqb_refl. cbn [negb status_ok]. change (status_ok status_success) with true. cbn [negb].
  unfold journal_open_stream. cbv iota. unfold iobind at 1. rewrite (fopen_existing_calm _ (build_journal_header base ++ rest)) by done.
  cbn [has_value]. unfold iobind. by rewrite io_call_calm.
Qed.

(** The medium can be read back: the snapshot and the journal are within the
    bounds their readers impose. *)
Definition snapshot_readable (snap : option DurableState) : Prop :=
  forall st payload, snap = Some st -> serialise st = Success payload ->
    count_wf 1000000 (ds_attempts st) /\ count_wf 1000000 (ds_fences st) /\ count_wf 1000000 (ds_idempotency st) /\
    Z.of_nat (length (frame_snapshot payload)) <= kMaxSnapshotBytes.
Definition journal_readable (o : StoreOptions) (fs : Fs) : Prop :=
  Z.of_nat (length (file_of fs (journal_path o))) <= kMaxJournalBytes.

Lemma state_typed_wf n st : state_typed n st -> is_u64 (ds_last_seq st) ->
  count_wf 1000000 (ds_attempts st) -> count_wf 1000000 (ds_fences st) -> count_wf 1000000 (ds_idempotency st) ->
  state_wf st.
Proof.
  intros [? [] [] ? ? ? ? ? Ha ? Hi] ? ? ? ?. split; try done; (split; [done|]).
  - eapply Forall_impl; [exact Ha|]. by intros r [? _].
  - eapply Forall_impl; [exact Hi|]. by intros e [? _].
Qed.

Lemma open_snapshot_calm o snap l fs : fs_calm fs -> snapshot_of snap o fs -> snapshot_readable snap ->
  ln_options l = o -> ln_state l = state_initial o ->
  exists l', open_snapshot o l fs = (Success l', fs) /\ ln_options l' = o /\
    ln_state l' = ln_state (start_of o snap).
Proof.
  intros Hc Hs Hr Ho Hl. unfold open_snapshot, iobind at 1. rewrite path_exists_calm by done.
  destruct snap as [st|]; cbn [snapshot_of] in Hs; [|rewrite Hs; by exists l].
  destruct Hs as (Hty & Hu & Hf & payload & Ep & Hp). rewrite Hp. cbn [has_value negb].
  destruct (Hr st payload eq_refl Ep) as (C1 & C2 & C3 & C4). unfold iobind.
  rewrite (read_file_calm _ _ _ _ Hc Hp C4). cbn [ioret]. unfold restore_snapshot.
  rewrite unframe_frame by (unfold frame_snapshot in C4; rewrite length_app in C4; lia).
  assert (Hw : state_wf st) by by eapply state_typed_wf.
  assert (Ed : deserialise payload = Success st) by by apply deserialise_serialise_lemma.
  rewrite Ed, Hf, bool_decide_eq_true_2 by done. cbn [negb].
  destruct Hty as [_ [_ Hpv] [_ Htv] _ _ _ _ _ _ _ _]. rewrite Hpv, Htv. cbn [negb]. eexists. split; [done|]. done.
Qed.

Lemma truncate_file_calm p n data fs : fs_calm fs -> fs_files fs !! p = Some data ->
  exists fs', truncate_file p n fs = (status_success, fs') /\ fs_calm fs' /\ fs_dirs fs' = fs_dirs fs /\
    fs_files fs' = <[p := take (Z.to_nat n) data]> (fs_files fs).
Proof.
  intros Hc Hp. unfold truncate_file, iobind. rewrite (fopen_existing_calm p data), io_call_calm by done.
  cbn [io_get io_put_file]. rewrite Hp. cbn [from_option id]. unfold fs_sync_stream, iobind.
  set (fs1 := set_files _ fs). assert (Hc1 : fs_calm fs1) by done.
  rewrite !io_call_calm by done. cbn [ioret]. by exists fs1.
Qed.

(** The journal of a medium whose replay succeeds with the records [recs]. *)
Lemma open_journal_calm o l fs data res cut l2 base recs :
  fs_calm fs -> fs_files fs !! journal_path o = Some data -> Z.of_nat (length data) <= kMaxJournalBytes ->
  ds_last_seq (ln_state l) = base -> journal_ok base recs ->
  replay_bytes (replay_hook base) (sp_repair_torn_tail o) data l = (Success res, cut, l2) ->
  jh_base_seq (jo_header res) = base -> jo_last_seq res = last_seq_of base recs -> jo_truncated_to_empty res = false ->
  match cut with None => data | Some n => take (Z.to_nat n) data end = journal_image base recs ->
  exists fs', open_journal o l fs = (Success (MkStore
      (set_ln_state (set_ds_last_seq (last_seq_of base recs) (ln_state l2)) (note_replay res l2))
      (Some (MkJournalWriter (journal_path o) (last_seq_of base recs) false 0)) false 0), fs') /\
    fs_calm fs' /\ fs_dirs fs' = fs_dirs fs /\
    fs_files fs' = <[journal_path o := journal_image base recs]> (fs_files fs).
Proof.
  intros Hc Hp Hlen Hb Hok Hr H1 H2 H3 Hcut. pose proof Hok as (Hub & _ & Hadv). apply last_seq_of_ge in Hadv.
  assert (Hre : exists fs1, journal_replay (journal_path o) (sp_repair_torn_tail o) (replay_hook base) l fs =
    ((Success res, l2), fs1) /\ fs_calm fs1 /\ fs_dirs fs1 = fs_dirs fs /\
    fs_files fs1 = <[journal_path o := journal_image base recs]> (fs_files fs)).
  { unfold journal_replay, iobind at 1. rewrite path_exists_calm, Hp by done. cbn [has_value negb].
    unfold iobind at 1. rewrite (read_file_calm _ _ data) by done. rewrite Hr. destruct cut as [n|].
    - unfold iobind. destruct (truncate_file_calm _ n data fs Hc Hp) as (fs1 & -> & C1 & D1 & F1).
      cbn. exists fs1. by rewrite F1, Hcut.
    - exists fs. split; [done|]. split; [done|]. split; [done|]. rewrite <- Hcut. by rewrite insert_id. }
  destruct Hre as (fs1 & Hre & C1 & D1 & F1). unfold open_journal. cbv zeta. rewrite Hb.
  unfold iobind at 1. rewrite Hre, H1, H2, H3.
  destruct (Z.ltb_spec (last_seq_of base recs) base) as [Hx|_]; [lia|]. rewrite Z.ltb_irrefl.
  unfold iobind. rewrite (journal_reopen_calm _ _ _ (concat (map record_image recs))).
  - cbn [ioret]. by exists fs1.
  - done.
  - done.
  - lia.
  - by rewrite F1, lookup_insert_eq.
Qed.

(** The state directory is there, or nothing is in the way of creating it. *)
Definition directory_usable (o : StoreOptions) (fs : Fs) : Prop :=
  sp_directory o ∈ fs_dirs fs \/ fs_files fs !! sp_directory o = None.

(** The steps of [store_open] before the snapshot. *)
Lemma store_open_prefix o fs : string_empty (sp_directory o) = false ->
  status_ok (policy_validate (sp_policy o)) = true -> status_ok (topology_validate (sp_topology o)) = true ->
  fs_calm fs -> directory_usable o fs ->
  exists fs1, fs_calm fs1 /\
    (forall p, p <> staging_path o -> fs_files fs1 !! p = fs_files fs !! p) /\
    store_open o fs = (io* loaded := open_snapshot o (MkLineage o (state_initial o) status_initial) in
      match loaded with Failure s => ioret (Failure s) | Success l => open_journal o l end) fs1.
Proof.
  intros Hd Hp Ht Hc Hin. unfold store_open. rewrite Hd. cbv zeta. rewrite Hp, Ht. cbn [negb].
  assert (He : exists fs0, ensure_directory (sp_directory o) fs = (status_success, fs0) /\ fs_calm fs0 /\
    fs_files fs0 = fs_files fs).
  { unfold ensure_directory. rewrite Hd. unfold iobind at 1. rewrite io_call_calm by done. unfold iobind at 1.
    cbn [io_get has_value negb andb].
    destruct (decide (sp_directory o ∈ fs_dirs fs)) as [Hi|Hi].
    - rewrite bool_decide_eq_true_2 by done. cbn [orb negb]. unfold iobind. rewrite io_call_calm by done. by exists fs.
    - destruct Hin as [|Hn]; [done|]. rewrite bool_decide_eq_false_2, Hn by done. cbn [orb has_value].
      unfold iobind. rewrite io_call_calm by done. cbn [has_value orb]. eexists. split; [reflexivity|]. done. }
  destruct He as (fs0 & He & C0 & F0). unfold iobind at 1. rewrite He. change (status_ok status_success) with true.
  cbn [negb]. rewrite <- F0. clear He Hc. unfold iobind at 1. rewrite path_exists_calm by done. unfold iobind at 1.
  destruct (fs_files fs0 !! staging_path o) as [d|] eqn:E; cbn [has_value].
  - unfold remove_file, iobind at 1. rewrite io_call_calm by done. cbn.
    eexists. split; [|split; [|reflexivity]]; [done|]. intros p Hne. cbn. by rewrite lookup_delete_ne.
  - cbn [ioret]. change (status_ok status_success) with true. cbn [negb]. by exists fs0.
Qed.

(** Options an engine may be opened with. *)
Record options_typed (o : StoreOptions) : Prop := {
  ot_directory : string_empty (sp_directory o) = false;
  ot_fabric : is_valid_name (sp_fabric o) = true;
  ot_policy : policy_wf (sp_policy o) /\ status_ok (policy_validate (sp_policy o)) = true;
  ot_topology : topology_wf (sp_topology o) /\ status_ok (topology_validate (sp_topology o)) = true;
}.

#[global] Instance options_typed_dec o : Decision (options_typed o).
Proof.
  refine (cast_if (decide (string_empty (sp_directory o) = false /\ is_valid_name (sp_fabric o) = true /\
    (policy_wf (sp_policy o) /\ status_ok (policy_validate (sp_policy o)) = true) /\
    (topology_wf (sp_topology o) /\ status_ok (topology_validate (sp_topology o)) = true)))).
  - abstract (by destruct_and!; split).
  - abstract (intros [? ? [? ?] [? ?]]; naive_solver).
Defined.
#[global] Instance directory_usable_dec o fs : Decision (directory_usable o fs).
Proof. unfold directory_usable. apply _. Defined.

Lemma start_typed o snap fs : options_typed o -> snapshot_of snap o fs ->
  state_typed (covered_by snap) (ln_state (start_of o snap)).
Proof.
  intros [] Hs. destruct snap as [st|]; [by destruct Hs|].
  split; cbn; try done; try (by constructor); try ints; [apply incarnation_zero_wf|].
  split; [done|]. by intros r ?%elem_of_nil.
Qed.

(** The same lineage again, on a medium that is its image; or a refusal when a
    fence was journaled. *)
Definition reopened (snap : option DurableState) (recs : list RecordView) (l : Lineage) (r : Result StoreImpl)
    (fs' : Fs) : Prop :=
  if existsb is_fence recs then exists e, r = Failure e /\ status_outcome e = Outcome.Corrupt
  else exists s', r = Success s' /\ image_of snap recs s' fs' /\ sm_failed s' = false /\
    same_lineage (sm_lineage s') l /\ fs_calm fs'.

(** The tail a crash leaves does not change what is replayed. *)
Definition harmless_tail (repair : bool) (base : LineageSeq) (recs : list RecordView) (tail : bytes) : Prop :=
  forall (hook : RecordView -> Lineage -> Status * Lineage) l l2, run_hook hook recs l = (None, l2) ->
    exists res cut, replay_bytes hook repair (journal_image base recs ++ tail) l = (Success res, cut, l2) /\
      jh_base_seq (jo_header res) = base /\ jo_last_seq res = last_seq_of base recs /\
      jo_truncated_to_empty res = false /\
      match cut with
      | None => journal_image base recs ++ tail
      | Some n => take (Z.to_nat n) (journal_image base recs ++ tail)
      end = journal_image base recs.

Lemma harmless_none repair base recs : journal_ok base recs -> harmless_tail repair base recs [].
Proof.
  intros Hok hook l l2 Hr. rewrite app_nil_r. do 2 eexists. split; [by apply replay_bytes_committed|done].
Qed.
Lemma harmless_torn base recs r k : journal_ok base recs -> record_ok r -> (0 < k < length (record_image r))%nat ->
  harmless_tail true base recs (take k (record_image r)).
Proof.
  intros Hok Hr Hk hook l l2 Hrun. do 2 eexists. split; [by apply replay_bytes_torn|].
  split; [done|split; [done|split; [done|]]]. rewrite Nat2Z.id. by rewrite take_app_length.
Qed.

Lemma open_medium o snap recs l fs tail :
  options_typed o -> snapshot_of snap o fs -> snapshot_readable snap -> fs_calm fs -> directory_usable o fs ->
  journal_ok (covered_by snap) recs -> shadow (covered_by snap) recs (start_of o snap) l ->
  fs_files fs !! journal_path o = Some (journal_image (covered_by snap) recs ++ tail) -> journal_readable o fs ->
  harmless_tail (sp_repair_torn_tail o) (covered_by snap) recs tail ->
  ln_options l = o -> ds_fabric (ln_state l) = sp_fabric o ->
  exists r fs', store_open o fs = (r, fs') /\ reopened snap recs l r fs'.
Proof.
  intros Ho Hs Hsr Hc Hd Hok Hsh Hj Hjr Htail Hlo Hlf. pose proof (start_typed o snap fs Ho Hs) as Hst.
  destruct Ho as [O1 O2 [O3 O3'] [O4 O4']]. destruct (snapshot_paths o) as (P1 & _ & P3 & P4 & _).
  destruct (store_open_prefix o fs O1 O3' O4' Hc Hd) as (fs1 & C1 & F1 & ->).
  assert (Hs1 : snapshot_of snap o fs1) by (eapply snapshot_of_files; [|done]; by apply F1).
  rewrite <- F1 in Hj by done. unfold journal_readable, file_of in Hjr. rewrite <- F1, Hj in Hjr by done.
  destruct (open_snapshot_calm o snap (MkLineage o (state_initial o) status_initial) fs1) as (l1 & E1 & Ho1 & Hl1); [done..|].
  unfold iobind at 1. rewrite E1.
  assert (Hsame : same_lineage l1 (start_of o snap)) by (unfold same_lineage, kept; by rewrite Ho1, Hl1).
  assert (Hcov : ds_last_seq (ln_state l1) = covered_by snap) by (rewrite Hl1; by destruct snap).
  pose proof Hsh as Hshadow. specialize (Hsh l1 Hsame). rewrite Hl1 in Hsh. specialize (Hsh Hst).
  unfold reopened. destruct (existsb is_fence recs).
  - destruct Hsh as (e & l2 & Er & He). exists (Failure e), fs1. split; [|eauto].
    unfold open_journal. cbv zeta. rewrite Hcov. unfold iobind at 1. unfold journal_replay, iobind at 1.
    rewrite path_exists_calm, Hj by done. cbn [has_value negb]. unfold iobind at 1.
    rewrite (read_file_calm _ _ _ _ C1 Hj Hjr). rewrite replay_bytes_image, Er by done. cbn [ioret]. by rewrite He.
  - destruct Hsh as (l2 & Er & Hl2 & Ht2). destruct (Htail _ _ _ Er) as (res & cut & Eb & B1 & B2 & B3 & B4).
    destruct (open_journal_calm o l1 fs1 _ res cut l2 (covered_by snap) recs C1 Hj Hjr Hcov Hok Eb B1 B2 B3 B4)
      as (fs2 & -> & C2 & D2 & F2).
    do 2 eexists. split; [reflexivity|]. eexists. split; [reflexivity|].
    pose proof (same_lineage_parts _ _ Hl2) as (Po & Pf & _).
    set (s2 := MkStore _ _ false 0). assert (Hopt : sm_options s2 = o) by (unfold s2, sm_options; cbn; congruence).
    assert (Hsl : same_lineage (sm_lineage s2) l) by (etrans; [|exact Hl2]; by unfold s2, same_lineage, kept).
    split; [|done]. assert (Hj2 : fs_files fs2 !! journal_path o = Some (journal_image (covered_by snap) recs))
      by by rewrite F2, lookup_insert_eq.
    split; [split|split]; rewrite ?Hopt; try done.
    + eapply snapshot_of_files; [|exact Hs1]. by rewrite F2, lookup_insert_ne.
    + eapply shadow_same; [exact Hshadow|by symmetry].
    + unfold s2, sm_state. cbn. by destruct Ht2.
    + unfold s2, sm_state. cbn. congruence.
    + unfold file_of. by rewrite Hj2.
    + eexists. split; [done|]. by unfold s2, sm_state.
Qed.

(** Opening again what an image holds. *)
Lemma store_open_image snap recs s fs : options_typed (sm_options s) -> image_of snap recs s fs ->
  snapshot_readable snap -> journal_readable (sm_options s) fs -> fs_calm fs -> directory_usable (sm_options s) fs ->
  exists r fs', store_open (sm_options s) fs = (r, fs') /\ reopened snap recs (sm_lineage s) r fs'.
Proof.
  intros Ho [[T1 T2 T3 T4 T5 T6] Hj] Hsr Hjr Hc Hd.
  apply (open_medium (sm_options s) snap recs (sm_lineage s) fs []); try done; [|by apply harmless_none].
  destruct Hj as [_ Hf _ _]. rewrite app_nil_r. unfold file_of in Hf.
  destruct (fs_files fs !! journal_path (sm_options s)) as [d|]; cbn [from_option id] in Hf; [by subst|].
  exfalso. apply (f_equal length) in Hf. rewrite journal_image_length in Hf. cbn in Hf. lia.
Qed.

(** Opening again after a commit was cut short: the records before it, or those and
    the one in flight. *)
Lemma store_open_torn snap recs s fs : options_typed (sm_options s) -> torn_of snap recs s fs ->
  sp_repair_torn_tail (sm_options s) = true ->
  snapshot_readable snap -> journal_readable (sm_options s) fs -> fs_calm fs -> directory_usable (sm_options s) fs ->
  exists recs' l' r fs', store_open (sm_options s) fs = (r, fs') /\ reopened snap recs' l' r fs' /\
    ln_options l' = sm_options s /\ ((recs' = recs /\ l' = sm_lineage s) \/
     exists v, recs' = recs ++ [v] /\ record_replays v (sm_lineage s) l' /\ ds_epoch (sm_state s) <= ds_epoch (ln_state l')).
Proof.
  intros Ho [[T1 T2 T3 T4 T5 T6] (v & k & l1 & Hf & Hv)] Hrep Hsr Hjr Hc Hd.
  assert (Hj : fs_files fs !! journal_path (sm_options s) =
    Some (journal_image (covered_by snap) recs ++ take k (record_image v))).
  { unfold file_of in Hf. destruct (fs_files fs !! journal_path (sm_options s)) as [d|]; cbn [from_option id] in Hf; [by subst|].
    exfalso. apply (f_equal length) in Hf. rewrite length_app, journal_image_length in Hf. cbn in Hf. lia. }
  destruct Hv as [->|(Hr & Hl & Hp & Po & Pf & Pe)].
  { rewrite take_0 in Hj. destruct (open_medium (sm_options s) snap recs (sm_lineage s) fs []) as (r & fs' & E & H);
      try done; [by apply harmless_none|]. exists recs, (sm_lineage s), r, fs'. auto 6. }
  destruct (decide (k = 0)%nat) as [->|Hk].
  { rewrite take_0 in Hj. destruct (open_medium (sm_options s) snap recs (sm_lineage s) fs []) as (r & fs' & E & H);
      try done; [by apply harmless_none|]. exists recs, (sm_lineage s), r, fs'. auto 6. }
  destruct (decide (k < length (record_image v))%nat) as [Hlt|Hge].
  - destruct (open_medium (sm_options s) snap recs (sm_lineage s) fs (take k (record_image v))) as (r & fs' & E & H);
      try done; [rewrite Hrep; apply harmless_torn; [done..|lia]|]. exists recs, (sm_lineage s), r, fs'. auto 6.
  - rewrite take_ge, <- journal_image_snoc in Hj by lia.
    assert (Hok : journal_ok (covered_by snap) (recs ++ [v])) by by apply journal_ok_snoc.
    assert (Hge0 : covered_by snap <= last_seq_of (covered_by snap) recs) by (apply last_seq_of_ge, T2).
    destruct (open_medium (sm_options s) snap (recs ++ [v]) l1 fs []) as (r & fs' & E & H); try done.
    + by eapply shadow_snoc.
    + by rewrite app_nil_r.
    + by apply harmless_none.
    + by rewrite Pf.
    + exists (recs ++ [v]), l1, r, fs'. split; [done|]. split; [done|]. split; [done|]. right. eauto.
Qed.

(** Opening a directory without a lineage. *)
Lemma store_open_fresh o fs s fs' : options_typed o -> fs_calm fs -> directory_usable o fs ->
  fs_files fs !! snapshot_path o = None -> fs_files fs !! journal_path o = None ->
  store_open o fs = (Success s, fs') -> image_of None [] s fs' /\ sm_failed s = false /\ sm_options s = o /\
    ds_attempts (sm_state s) = [].
Proof.
  intros Ho Hc Hd Hs Hj. pose proof (start_typed o None fs Ho Hs) as Hst. destruct Ho as [O1 O2 [O3 O3'] [O4 O4']].
  destruct (snapshot_paths o) as (P1 & _ & P3 & P4 & _).
  destruct (store_open_prefix o fs O1 O3' O4' Hc Hd) as (fs1 & C1 & F1 & ->).
  unfold iobind at 1. unfold open_snapshot, iobind at 1. rewrite path_exists_calm by done.
  rewrite F1, Hs by done. cbn [has_value negb ioret]. unfold open_journal. cbv zeta.
  unfold iobind at 1. unfold journal_replay, iobind at 1. rewrite path_exists_calm, F1, Hj by done.
  cbn [has_value negb ioret]. unfold fail. cbv beta iota.
  assert (Enf : enum_eqb (status_outcome (status_failure Outcome.NotFound ReasonCode.UnknownLink
    "journal file does not exist")) Outcome.NotFound = true) by (vm_compute; reflexivity). rewrite Enf. unfold iobind.
  match goal with |- context [journal_open ?p ?b ?c true fs1] => destruct (journal_open p b c true fs1) as [r fs2] eqn:E end.
  apply journal_create in E as [F2 W2]. destruct r as [w|e]; [|done]. destruct (W2 _ eq_refl) as [-> Hj2].
  cbn in Hj2 |- *. intros [= <- <-]. split; [|done]. split; split; cbn; try done.
  - unfold snapshot_of, sm_options. cbn. by rewrite F2, F1.
  - apply shadow_nil.
  - unfold file_of, sm_options. cbn. rewrite Hj2. unfold journal_image. cbn. done.
  - by eexists.
Qed.
