(* ===== verification/Progress.v ===== *)
(** * Progress on a quiet medium

    What keeps a commit from succeeding when the medium does not fail: nothing but
    the end of the sequence space. Every payload the engine records is within the
    bound of a journal record ([sized] bounds what an encoder writes), and on a
    medium whose calls all succeed a commit and a checkpoint of a well-typed lineage
    succeed and leave the medium quiet. *)
From S2P Require Import Prelude Status Hash Ids Bytes Evidence Policy Authority Attempt Decision.
From S2P Require Import Fs Journal State Store Image.

(** ** Payload sizes *)
Definition sized (n : Z) (m : WriteM) : Prop :=
  forall w, Z.of_nat (length (wr_buf (m w))) <= Z.of_nat (length (wr_buf w)) + n.

Lemma sized_weaken a b m : sized a m -> a <= b -> sized b m.
Proof. intros H Hab w. specialize (H w). lia. Qed.
Lemma sized_u8 v : sized 1 (wr_u8 v).
Proof. intros w. unfold wr_u8. destruct (negb (wr_ok w)); [lia|]. cbn. rewrite length_app. cbn. lia. Qed.
Lemma sized_u16 v : sized 2 (wr_u16 v).
Proof.
  intros w. unfold wr_u16. pose proof (sized_u8 (Z.land v 255) w).
  pose proof (sized_u8 (Z.land (Z.shiftr v 8) 255) (wr_u8 (Z.land v 255) w)). lia.
Qed.
Lemma sized_loop n v : sized (Z.of_nat n) (wr_loop n v).
Proof.
  intros w. unfold wr_loop. rewrite <- (length_seq n 0) at 2. generalize (seq 0 n). intros l. revert w.
  induction l as [|i l IH]; intros w; cbn [foldl length]; [lia|].
  specialize (IH (wr_u8 (Z.land (Z.shiftr v (8 * Z.of_nat i)) 255) w)).
  pose proof (sized_u8 (Z.land (Z.shiftr v (8 * Z.of_nat i)) 255) w). lia.
Qed.
Lemma sized_u32 v : sized 4 (wr_u32 v).
Proof. apply sized_loop. Qed.
Lemma sized_u64 v : sized 8 (wr_u64 v).
Proof. apply sized_loop. Qed.
Lemma sized_bool8 b : sized 1 (wr_bool8 b).
Proof. apply sized_u8. Qed.
Lemma sized_raw data : sized (Z.of_nat (length data)) (wr_raw data).
Proof. intros w. unfold wr_raw. destruct (_ || _)%bool; [lia|]. cbn. rewrite length_app. lia. Qed.
Lemma sized_str_max s n : 0 <= n -> sized (4 + n) (wr_str_max s n).
Proof.
  intros Hn w. unfold wr_str_max. destruct (negb (wr_ok w)); [lia|].
  destruct (Z.gtb_spec (Z.of_nat (String.length s)) n); [cbn; lia|].
  pose proof (sized_raw (bytes_of_string s) (wr_u32 (Z.of_nat (String.length s)) w)) as H1.
  pose proof (sized_u32 (Z.of_nat (String.length s)) w). rewrite bytes_of_string_length in H1. lia.
Qed.
Lemma sized_name s : name_wf s -> sized 68 (wr_str s).
Proof.
  intros Hs w. unfold wr_str, wr_str_max. destruct (negb (wr_ok w)); [lia|].
  destruct (Z.gtb_spec (Z.of_nat (String.length s)) kMaxEncodedString); [cbn; lia|].
  pose proof (sized_raw (bytes_of_string s) (wr_u32 (Z.of_nat (String.length s)) w)) as H1.
  pose proof (sized_u32 (Z.of_nat (String.length s)) w). rewrite bytes_of_string_length in H1.
  apply name_wf_length in Hs. lia.
Qed.
Lemma sized_key_fabric k : link_key_wf k -> sized 68 (wr_str (lk_fabric k)).
Proof. intros [H _]. by apply sized_name. Qed.
Lemma sized_key_link k : link_key_wf k -> sized 68 (wr_str (lk_link k)).
Proof. intros [_ H]. by apply sized_name. Qed.
Lemma sized_digest d : digest_wf d -> sized 32 (wr_digest d).
Proof. intros [Hl _]. pose proof (sized_raw (digest_bytes d)) as H. by rewrite Hl in H. Qed.
Lemma sized_incarnation i : incarnation_wf i -> sized 16 (wr_incarnation i).
Proof. intros [Hl _]. pose proof (sized_raw (inc_bytes i)) as H. by rewrite Hl in H. Qed.
Lemma sized_nil : sized 0 (writes []).
Proof. intros w. change (writes [] w) with w. lia. Qed.
Lemma sized_cons a b m ms : sized a m -> sized b (writes ms) -> sized (a + b) (writes (m :: ms)).
Proof. intros H1 H2 w. change (writes (m :: ms) w) with (writes ms (m w)). specialize (H1 w). specialize (H2 (m w)). lia. Qed.
Lemma sized_each {A} n (f : A -> WriteM) l : Forall (fun a => sized n (f a)) l ->
  sized (n * Z.of_nat (length l)) (wr_each f l).
Proof.
  induction 1 as [|a l Ha _ IH]; [rewrite Z.mul_0_r; apply sized_nil|].
  unfold wr_each. cbn [map length]. eapply sized_weaken; [by apply sized_cons|lia].
Qed.
Lemma sized_opt {A} n (f : A -> WriteM) o : 0 <= n -> (forall a, o = Some a -> sized n (f a)) -> sized n (wr_opt f o).
Proof. intros Hn H w. destruct o as [a|]; [by apply H|]. change (wr_opt f None w) with w. lia. Qed.
Lemma sized_when n b m : 0 <= n -> sized n m -> sized n (wr_when b m).
Proof. intros Hn H w. unfold wr_when. destruct b; [apply H|lia]. Qed.

Create HintDb sized.
#[local] Hint Resolve sized_u8 sized_u16 sized_u32 sized_u64 sized_bool8 sized_name sized_key_fabric sized_key_link sized_digest sized_incarnation : sized.

(** [size_fields] adds up the fields; a remaining field is left as a goal. *)
Ltac size_field := try first [solve [eauto with sized] | apply sized_str_max; lia].
Ltac size_fields := lazymatch goal with
  | |- sized _ (writes []) => apply sized_nil
  | |- sized _ (writes (_ :: _)) => eapply sized_cons; [size_field|size_fields]
  end.

Lemma sized_reason r : sized 166 (encode (A := Reason) r).
Proof. unfold encode, reason_codec, reason_encode. eapply sized_weaken; [size_fields|unfold kMaxReasonDetail; lia]. Qed.
Lemma sized_reasons n (rs : list Reason) : (length rs <= n)%nat -> sized (166 * Z.of_nat n) (wr_each encode rs).
Proof.
  intros Hn. eapply sized_weaken; [apply (sized_each 166), Forall_forall; intros; apply sized_reason|lia].
Qed.
Lemma sized_authority a : authority_wf a -> sized 700 (encode a).
Proof.
  unfold authority_wf. intros H. decompose [and] H. unfold encode, authority_codec, authority_encode. eapply sized_weaken; [size_fields|lia].
Qed.
#[local] Hint Resolve sized_authority : sized.
Lemma sized_attempt a : attempt_wf a -> sized 4096 (encode a).
Proof.
  unfold attempt_wf, count_wf, kMaxAttemptReasons. intros H. decompose [and] H.
  unfold encode at 1, attempt_codec, attempt_encode.
  eapply sized_weaken; [size_fields|].
  - apply (sized_opt 32); [lia|]. eauto with sized.
  - apply (sized_reasons 16). lia.
  - cbn; lia.
Qed.
Lemma sized_fence f : fence_wf f -> sized 4096 (encode f).
Proof.
  unfold fence_wf. intros H. decompose [and] H. unfold encode, fence_codec, fence_encode.
  eapply sized_weaken; [size_fields|lia].
Qed.
Lemma sized_assessment a : assessment_wf a -> sized 520 (encode a).
Proof.
  unfold assessment_wf. intros H. decompose [and] H. unfold encode, assessment_codec, assessment_encode.
  eapply sized_weaken; [size_fields|lia].
Qed.
Lemma sized_decision d : decision_wf d -> sized 262144 (encode d).
Proof.
  unfold decision_wf, count_wf, kMaxDecisionReasons, kMaxDecisionCandidates. intros H. decompose [and] H.
  unfold encode at 1, decision_codec, decision_encode. eapply sized_weaken; [size_fields|].
  - apply (sized_when 144); [lia|]. unfold replacement_encode. eapply sized_weaken; [size_fields|lia].
  - unfold reasons_encode. eapply sized_cons; [apply sized_u32|].
    eapply sized_weaken; [eapply sized_cons; [apply (sized_reasons 24); lia|apply sized_nil]|reflexivity].
  - apply (sized_each 520). eapply Forall_impl; [eassumption|]. apply sized_assessment.
  - lia.
Qed.
Lemma sized_boot p : boot_wf p -> sized 4096 (encode p).
Proof.
  unfold boot_wf. intros H. decompose [and] H. unfold encode, boot_codec, boot_encode.
  eapply sized_weaken; [size_fields|lia].
Qed.
Lemma sized_checkpoint p : sized 4096 (encode (A := CheckpointPayload) p).
Proof. unfold encode, checkpoint_codec, checkpoint_encode. eapply sized_weaken; [size_fields|lia]. Qed.
Lemma sized_topology t : topology_wf t -> sized 1000000 (encode t).
Proof.
  unfold topology_wf, kMaxTopologyLinks. intros (_ & Hn & Hl).
  unfold encode at 1, topology_codec, topology_encode. eapply sized_weaken; [size_fields|].
  - apply (sized_each 148). eapply Forall_impl; [exact Hl|]. intros d Hd. unfold link_definition_wf in Hd.
    decompose [and] Hd. unfold encode, link_definition_codec, link_definition_encode.
    eapply sized_weaken; [size_fields|lia].
  - lia.
Qed.
Lemma sized_policy p : sized 4096 (encode (A := FailoverPolicy) p).
Proof. unfold encode, policy_codec, policy_encode. eapply sized_weaken; [size_fields|lia]. Qed.

(** A payload of at most that size is recorded. *)
Lemma sized_fits {A} `{Codec A} n (a : A) : sized n (encode a) -> n <= kMaxRecordPayload ->
  Z.of_nat (length (encode_payload a)) <= kMaxRecordPayload.
Proof. intros Hs Hn. specialize (Hs writer_empty). cbn [writer_empty wr_buf length] in Hs. unfold encode_payload, encoded. lia. Qed.

(** What a writer that did not fail has written, at least. *)
Definition at_least (n : Z) (m : WriteM) : Prop :=
  forall w, wr_ok (m w) = true ->
    wr_ok w = true /\ Z.of_nat (length (wr_buf w)) + n <= Z.of_nat (length (wr_buf (m w))).

Lemma at_least_weaken a b m : at_least a m -> b <= a -> at_least b m.
Proof. intros H Hab w Hw. specialize (H w Hw) as [? ?]. split; [done|lia]. Qed.
Lemma at_least_u8 v : at_least 1 (wr_u8 v).
Proof.
  intros w. unfold wr_u8. destruct (wr_ok w) eqn:E; cbn [negb]; [|congruence]. cbn. rewrite length_app. cbn. split; [done|lia].
Qed.
Lemma at_least_comp a b (m k : WriteM) : at_least a m -> at_least b k -> at_least (a + b) (fun w => k (m w)).
Proof. intros H1 H2 w Hw. destruct (H2 _ Hw) as [Hm ?]. destruct (H1 _ Hm) as [? ?]. split; [done|lia]. Qed.
Lemma at_least_u16 v : at_least 2 (wr_u16 v).
Proof. apply (at_least_comp 1 1 (wr_u8 _) (wr_u8 _)); apply at_least_u8. Qed.
Lemma at_least_loop n v : at_least (Z.of_nat n) (wr_loop n v).
Proof.
  unfold wr_loop. rewrite <- (length_seq n 0) at 1. generalize (seq 0 n). intros l.
  induction l as [|i l IH]; [intros w Hw; cbn in *; split; [done|lia]|]. cbn [foldl length]. intros w Hw.
  destruct (IH _ Hw) as [Hm ?]. destruct (at_least_u8 _ _ Hm) as [? ?]. split; [done|lia].
Qed.
Lemma at_least_u32 v : at_least 4 (wr_u32 v).
Proof. apply at_least_loop. Qed.
Lemma at_least_u64 v : at_least 8 (wr_u64 v).
Proof. apply at_least_loop. Qed.
Lemma at_least_bool8 b : at_least 1 (wr_bool8 b).
Proof. apply at_least_u8. Qed.
Lemma at_least_raw data : at_least (Z.of_nat (length data)) (wr_raw data).
Proof.
  intros w. unfold wr_raw. destruct (wr_ok w) eqn:E; cbn [negb orb]; [|congruence].
  destruct (Nat.eqb_spec (length data) 0); [split; [done|lia]|]. cbn. rewrite length_app. split; [done|lia].
Qed.
Lemma at_least_sized_text (len : Z) (data : bytes) (b : bool) :
  at_least 4 (fun w => if negb (wr_ok w) then w else if b then wr_fail w else wr_raw data (wr_u32 len w)).
Proof.
  intros w. destruct (wr_ok w) eqn:E; cbn [negb]; [|congruence]. destruct b; [done|]. intros Hw.
  destruct (at_least_raw _ _ Hw) as [H1 ?]. destruct (at_least_u32 _ _ H1). split; [done|lia].
Qed.
Lemma at_least_str_max s n : at_least 4 (wr_str_max s n).
Proof. apply at_least_sized_text. Qed.
Lemma at_least_str s : at_least 4 (wr_str s).
Proof. apply at_least_str_max. Qed.
Lemma at_least_blob data n : at_least (Z.of_nat (length data)) (wr_blob data n).
Proof.
  intros w. unfold wr_blob. destruct (wr_ok w) eqn:E; cbn [negb]; [|congruence]. destruct (_ >? _); [done|]. intros Hw.
  destruct (at_least_raw _ _ Hw) as [H1 ?]. destruct (at_least_u32 _ _ H1). split; [done|lia].
Qed.
Lemma at_least_digest d : digest_wf d -> at_least 32 (wr_digest d).
Proof. intros [Hl _]. pose proof (at_least_raw (digest_bytes d)) as H. by rewrite Hl in H. Qed.
Lemma at_least_incarnation i : at_least 0 (wr_incarnation i).
Proof. eapply at_least_weaken; [apply at_least_raw|lia]. Qed.
Lemma at_least_nil : at_least 0 (writes []).
Proof. intros w Hw. change (writes [] w) with w in *. split; [done|lia]. Qed.
Lemma at_least_cons a b m ms : at_least a m -> at_least b (writes ms) -> at_least (a + b) (writes (m :: ms)).
Proof. intros H1 H2. exact (at_least_comp a b m (writes ms) H1 H2). Qed.
Lemma at_least_each {A} n (f : A -> WriteM) l : Forall (fun a => at_least n (f a)) l ->
  at_least (n * Z.of_nat (length l)) (wr_each f l).
Proof.
  induction 1 as [|a l Ha _ IH]; [rewrite Z.mul_0_r; apply at_least_nil|].
  unfold wr_each. cbn [map length]. eapply at_least_weaken; [by apply at_least_cons|lia].
Qed.
Lemma at_least_opt {A} (f : A -> WriteM) o : (forall a, at_least 0 (f a)) -> at_least 0 (wr_opt f o).
Proof.
  intros H. destruct o as [a|]; [apply H|]. intros w Hw. change (wr_opt f None w) with w in *. split; [done|lia].
Qed.
Lemma at_least_when b m : at_least 0 m -> at_least 0 (wr_when b m).
Proof. intros H. unfold wr_when. destruct b; [done|]. intros w Hw. split; [done|lia]. Qed.

Create HintDb at_least.
#[local] Hint Resolve at_least_u8 at_least_u16 at_least_u32 at_least_u64 at_least_bool8 at_least_str at_least_str_max
  at_least_digest at_least_incarnation at_least_opt at_least_when : at_least.
Lemma at_least_raw_digest d : at_least 0 (wr_digest d).
Proof. eapply at_least_weaken; [apply at_least_raw|lia]. Qed.
(** [least_fields] adds up the fields; a remaining field is left as a goal. *)
Ltac least_fields := lazymatch goal with
  | |- at_least _ (writes []) => apply at_least_nil
  | |- at_least _ (writes (_ :: _)) => eapply at_least_cons; [try solve [eauto with at_least | apply at_least_opt, at_least_raw_digest | apply at_least_raw_digest]|least_fields]
  end.
Lemma at_least_codec {A} n (f : A -> WriteM) (l : list A) : (forall a, at_least n (f a)) -> 0 <= n -> at_least 0 (wr_each f l).
Proof.
  intros H Hn. eapply at_least_weaken; [apply at_least_each, Forall_forall; intros a _; exact (H a)|].
  apply Z.mul_nonneg_nonneg; lia.
Qed.

Lemma at_least_reason r : at_least 0 (encode (A := Reason) r).
Proof. unfold encode, reason_codec, reason_encode. eapply at_least_weaken; [least_fields|lia]. Qed.
Lemma at_least_reasons (rs : list Reason) : at_least 0 (wr_each encode rs).
Proof. apply (at_least_codec 0); [apply at_least_reason|lia]. Qed.
#[local] Hint Resolve at_least_reason at_least_reasons : at_least.
Lemma at_least_authority a : at_least 0 (encode (A := AuthorityVector) a).
Proof. unfold encode, authority_codec, authority_encode. eapply at_least_weaken; [least_fields|lia]. Qed.
#[local] Hint Resolve at_least_authority : at_least.
Lemma at_least_attempt a : at_least 48 (encode (A := AttemptRecord) a).
Proof.
  unfold encode at 1, attempt_codec, attempt_encode. eapply at_least_weaken; [least_fields|lia].
Qed.
Lemma at_least_fence f : at_least 48 (encode (A := FenceRecord) f).
Proof. unfold encode, fence_codec, fence_encode. eapply at_least_weaken; [least_fields|lia]. Qed.
Lemma at_least_entry e : idempotency_wf e -> at_least 64 (snapshot_entry_encode e).
Proof.
  intros He. pose proof He as (Hk & Hd & _).
  assert (Hl : 64 <= Z.of_nat (length (encode_idempotency_payload e))).
  { assert (Hok : wr_ok (encode e writer_empty) = true) by by rewrite (@emits_encoded _ idempotency_codec e He writer_empty eq_refl).
    assert (Hn : at_least 64 (encode e)).
    { unfold encode at 1, idempotency_codec, idempotency_encode. eapply at_least_weaken; [least_fields|].
      - apply at_least_when. unfold idempotency_replacement_encode. eapply at_least_weaken; [least_fields|lia].
      - lia. }
    destruct (Hn _ Hok) as [_ H]. exact H. }
  unfold snapshot_entry_encode. eapply at_least_weaken; [eapply at_least_cons; [apply at_least_u16|]|].
  - eapply at_least_cons; [apply at_least_blob|apply at_least_nil].
  - lia.
Qed.
Lemma at_least_policy p : at_least 0 (encode (A := FailoverPolicy) p).
Proof. unfold encode, policy_codec, policy_encode. eapply at_least_weaken; [least_fields|lia]. Qed.
Lemma at_least_topology t : at_least 0 (encode (A := TopologySnapshot) t).
Proof.
  unfold encode at 1, topology_codec, topology_encode. eapply at_least_weaken; [least_fields|].
  - apply (at_least_codec 0); [|lia]. intros d. unfold encode, link_definition_codec, link_definition_encode.
    eapply at_least_weaken; [least_fields|lia].
  - lia.
Qed.
#[local] Hint Resolve at_least_policy at_least_topology : at_least.

(** ** Sizes of snapshots *)
Lemma serialise_sink st payload : serialise st = Success payload ->
  wr_ok (snapshot_encode st writer_empty) = true /\ payload = wr_buf (snapshot_encode st writer_empty).
Proof.
  unfold serialise. destruct (existsb _ _); [done|]. cbv zeta.
  destruct (wr_ok (snapshot_encode st writer_empty)); cbn [negb]; [|done]. by intros [= <-].
Qed.

(** A snapshot within the bound of its reader has no more entries than the decoder
    takes. *)
Lemma snapshot_counts n st payload : state_typed n st -> serialise st = Success payload ->
  Z.of_nat (length (frame_snapshot payload)) <= kMaxSnapshotBytes -> 
  count_wf 1000000 (ds_attempts st) /\ count_wf 1000000 (ds_fences st) /\ count_wf 1000000 (ds_idempotency st).
Proof.
  intros [_ _ _ _ _ _ _ _ _ _ Hi] Hs Hb. apply serialise_sink in Hs as [Hok ->].
  unfold frame_snapshot in Hb. rewrite length_app in Hb.
  assert (Hl : at_least (48 * Z.of_nat (length (ds_attempts st)) + 48 * Z.of_nat (length (ds_fences st)) +
    64 * Z.of_nat (length (ds_idempotency st))) (snapshot_encode st)).
  { unfold snapshot_encode. eapply at_least_weaken; [least_fields|].
    - apply (at_least_each 48), Forall_forall. intros. apply at_least_attempt.
    - apply (at_least_each 48), Forall_forall. intros. apply at_least_fence.
    - apply (at_least_each 64). eapply Forall_impl; [exact Hi|]. intros e [He _]. by apply at_least_entry.
    - lia. }
  destruct (Hl _ Hok) as [_ H]. cbn [writer_empty wr_buf length] in H. unfold count_wf, kMaxSnapshotBytes in *. lia.
Qed.

(** A lineage of few entries has a snapshot within that bound. *)
Definition compact (st : DurableState) : Prop :=
  Z.of_nat (length (ds_attempts st) + length (ds_fences st) + length (ds_idempotency st)) <= 7500.
Lemma sized_entry e : entry_fits e -> sized 4102 (snapshot_entry_encode e).
Proof.
  unfold entry_fits, kMaxIdempotencyDecisionBytes. intros He. unfold snapshot_entry_encode.
  eapply sized_weaken; [eapply sized_cons; [apply sized_u16|eapply sized_cons; [|apply sized_nil]]|].
  - intros w. unfold wr_blob. destruct (negb (wr_ok w)); [instantiate (1 := 4100); lia|].
    destruct (_ >? _); [cbn; lia|]. pose proof (sized_raw (encode_idempotency_payload e)
      (wr_u32 (Z.of_nat (length (encode_idempotency_payload e))) w)) as H1.
    pose proof (sized_u32 (Z.of_nat (length (encode_idempotency_payload e))) w). lia.
  - lia.
Qed.
Lemma compact_snapshot n st payload : state_typed n st -> compact st -> serialise st = Success payload ->
  Z.of_nat (length (frame_snapshot payload)) <= kMaxSnapshotBytes.
Proof.
  intros [H1 _ [H3 _] _ H5 _ _ _ H9 H10 H11] Hc Hs. apply serialise_sink in Hs as [_ ->].
  assert (Hl : sized (1100000 + 4102 * Z.of_nat (length (ds_attempts st) + length (ds_fences st) +
    length (ds_idempotency st))) (snapshot_encode st)).
  { assert (Hn : name_wf (ds_fabric st)) by by right. unfold snapshot_encode.
    eapply sized_weaken; [size_fields|].
    - apply sized_policy.
    - by apply sized_topology.
    - apply (sized_each 4096). eapply Forall_impl; [exact H9|]. intros a [Ha _]. by apply sized_attempt.
    - apply (sized_each 4096). eapply Forall_impl; [exact H10|]. apply sized_fence.
    - apply (sized_each 4102). eapply Forall_impl; [exact H11|]. intros e [_ He]. by apply sized_entry.
    - lia. }
  specialize (Hl writer_empty). cbn [writer_empty wr_buf length] in Hl. unfold frame_snapshot. rewrite length_app.
  rewrite length_app, le_bytes_length. change (length (snapshot_header_body ?p)) with 28%nat.
  unfold compact, kMaxSnapshotBytes in *. lia.
Qed.

(** ** Calls that all succeed *)
Lemma fwrite_calm p data fs : fs_calm fs ->
  exists fs', fwrite p data fs = ((length data, 0), fs') /\ fs_calm fs' /\
    fs_files fs' = <[p := default [] (fs_files fs !! p) ++ data]> (fs_files fs).
Proof. intros Hc. unfold fwrite, iobind. rewrite io_outcome_calm by done. eexists. split; [reflexivity|]. done. Qed.
Lemma journal_sync_stream_calm fs : fs_calm fs -> journal_sync_stream fs = (status_success, fs).
Proof. intros Hc. unfold journal_sync_stream, iobind. rewrite io_call_calm by done. cbn. by rewrite io_call_calm. Qed.
Lemma fs_sync_stream_calm p fs : fs_calm fs -> fs_sync_stream p fs = (status_success, fs).
Proof. intros Hc. unfold fs_sync_stream, iobind. rewrite io_call_calm by done. cbn. by rewrite io_call_calm. Qed.
Lemma fopen_truncate_calm p fs : fs_calm fs ->
  exists fs', fopen_truncate p fs = (None, fs') /\ fs_calm fs' /\ fs_files fs' = <[p := []]> (fs_files fs).
Proof. intros Hc. unfold fopen_truncate, iobind. rewrite io_call_calm by done. eexists. split; [reflexivity|]. done. Qed.
Lemma fs_rename_calm a b data fs : fs_calm fs -> fs_files fs !! a = Some data ->
  exists fs', fs_rename a b fs = (None, fs') /\ fs_calm fs' /\ fs_files fs' = <[b := data]> (delete a (fs_files fs)).
Proof.
  intros Hc Ha. unfold fs_rename, iobind. rewrite io_call_calm by done. rewrite Ha. eexists. split; [reflexivity|]. done.
Qed.
Lemma remove_file_calm p fs : fs_calm fs ->
  exists fs', remove_file p fs = (status_success, fs') /\ fs_calm fs' /\ fs_files fs' = delete p (fs_files fs).
Proof. intros Hc. unfold remove_file, iobind. rewrite io_call_calm by done. eexists. split; [reflexivity|]. done. Qed.

(** ** Commits *)
Lemma journal_append_calm w type seq payload fs : fs_calm fs -> jw_failed w = false ->
  Z.of_nat (length payload) <= kMaxRecordPayload -> jw_last_seq w < seq ->
  exists w' fs', journal_append w type seq payload fs = (status_success, w', fs') /\ fs_calm fs'.
Proof.
  intros Hc Hw Hp Hs. unfold journal_append. rewrite Hw, gtb_false by lia.
  rewrite (proj2 (Z.ltb_lt _ _) Hs). cbn [negb]. cbv zeta. set (h := build_record_header _ _ _ _).
  unfold iobind at 1. destruct (fwrite_calm (jw_path w) h fs Hc) as (fs1 & -> & C1 & _). cbn [fst].
  rewrite Nat.eqb_refl. cbn [negb]. unfold iobind at 1.
  destruct (Nat.eqb (length payload) 0) eqn:E0.
  - cbn [ioret fst]. apply Nat.eqb_eq in E0. rewrite E0. cbn [Nat.eqb negb]. unfold iobind.
    rewrite journal_sync_stream_calm by done. do 2 eexists. split; [reflexivity|done].
  - destruct (fwrite_calm (jw_path w) payload fs1 C1) as (fs2 & -> & C2 & _). cbn [fst].
    rewrite Nat.eqb_refl. cbn [negb]. unfold iobind. rewrite journal_sync_stream_calm by done.
    do 2 eexists. split; [reflexivity|done].
Qed.

Definition writer_ready (s : StoreImpl) : Prop :=
  exists w, sm_writer s = Some w /\ jw_failed w = false /\ jw_last_seq w = ds_last_seq (sm_state s).
Lemma image_ready snap recs s fs : image_of snap recs s fs -> writer_ready s.
Proof. intros [_ [_ _ _ (w & Hw & _ & Hl & Hf)]]. by exists w. Qed.

Lemma store_commit_calm s type payload apply fs : writer_ready s -> sm_failed s = false -> fs_calm fs ->
  Z.of_nat (length payload) <= kMaxRecordPayload ->
  0 <= ds_last_seq (sm_state s) -> ds_last_seq (sm_state s) + 1 < two64 ->
  exists s' fs', store_commit_impl s type payload apply fs = (status_success, s', fs') /\ fs_calm fs'.
Proof.
  intros (w & Hw & Hf & Hl) Hs Hc Hp H0 H1. unfold store_commit_impl. rewrite Hs.
  assert (En : strong_next (ds_last_seq (sm_state s)) = Some (ds_last_seq (sm_state s) + 1)).
  { unfold strong_next. rewrite checked_add_u64_spec by ints. case_bool_decide; [done|]. exfalso. ints. }
  rewrite En, Hw. unfold iobind, writer_append, iobind.
  destruct (journal_append_calm w type (ds_last_seq (sm_state s) + 1) payload fs) as (w' & fs' & -> & C); [done..|lia|].
  cbn. do 2 eexists. split; [reflexivity|done].
Qed.

(** ** Checkpoints *)
Lemma write_file_atomic_calm p data fs : fs_calm fs ->
  exists fs', write_file_atomic p data fs = (status_success, fs') /\ fs_calm fs'.
Proof.
  intros Hc. unfold write_file_atomic. cbv zeta. unfold iobind at 1.
  destruct (fopen_truncate_calm (p +:+ ".tmp") fs Hc) as (fs1 & -> & C1 & F1). unfold iobind at 1.
  destruct (Nat.eqb_spec (length data) 0) as [E0|E0].
  - cbn [ioret fst]. rewrite E0. cbn [Nat.eqb negb]. unfold iobind at 1. rewrite fs_sync_stream_calm by done.
    change (status_ok status_success) with true. cbn [negb]. unfold iobind.
    destruct (fs_rename_calm (p +:+ ".tmp") p [] fs1 C1) as (fs2 & -> & C2 & _); [by rewrite F1, lookup_insert_eq|].
    cbn. by eexists.
  - destruct (fwrite_calm (p +:+ ".tmp") data fs1 C1) as (fs2 & -> & C2 & F2). cbn [fst]. rewrite Nat.eqb_refl.
    cbn [negb]. unfold iobind at 1. rewrite fs_sync_stream_calm by done.
    change (status_ok status_success) with true. cbn [negb]. unfold iobind.
    destruct (fs_rename_calm (p +:+ ".tmp") p (default [] (fs_files fs1 !! (p +:+ ".tmp")%string) ++ data) fs2 C2)
      as (fs3 & -> & C3 & _); [by rewrite F2, lookup_insert_eq|]. cbn. by eexists.
Qed.

Lemma journal_create_calm p base last fs : fs_calm fs -> base <= last ->
  exists fs', journal_open p base last true fs = (Success (MkJournalWriter p base false kJournalHeaderSize), fs') /\
    fs_calm fs' /\ fs_files fs' !! p = Some (build_journal_header base).
Proof.
  intros Hc Hb. unfold journal_open.
  replace (negb (base =? 0) && (last <? base))%bool with false; [|destruct (Z.ltb_spec last base); [exfalso; lia|by rewrite andb_false_r]].
  unfold iobind at 1. rewrite path_exists_calm by done. unfold iobind at 1.
  assert (Hrm : exists fs1, (if has_value (fs_files fs !! p) then remove_file p else ioret status_success) fs =
    (status_success, fs1) /\ fs_calm fs1).
  { destruct (has_value (fs_files fs !! p)); [|by eexists]. destruct (remove_file_calm p fs Hc) as (fs1 & E & C & _). by eexists. }
  destruct Hrm as (fs1 & -> & C1). change (status_ok status_success) with true. cbn [negb].
  unfold journal_open_stream, iobind at 1. destruct (fopen_truncate_calm p fs1 C1) as (fs2 & -> & C2 & F2).
  cbn [has_value]. unfold iobind at 1. destruct (fwrite_calm p (build_journal_header base) fs2 C2) as (fs3 & -> & C3 & F3).
  cbn [fst]. rewrite build_journal_header_length. cbn [Nat.eqb negb]. unfold iobind.
  rewrite journal_sync_stream_calm by done. change (status_ok status_success) with true. cbn [negb ioret].
  eexists. split; [reflexivity|]. split; [done|]. by rewrite F3, lookup_insert_eq, F2, lookup_insert_eq.
Qed.

Lemma serialise_typed n st : state_typed n st -> exists payload, serialise st = Success payload.
Proof.
  intros [H1 [H2 _] [H3 _] H4 H5 H6 H7 H8 H9 H10 H11]. unfold serialise.
  assert (Hfit : Forall entry_fits (ds_idempotency st)) by (eapply Forall_impl; [exact H11|]; by intros e []).
  rewrite (proj2 (entries_fit_b _) Hfit). cbv zeta.
  assert (Hatt : Forall attempt_wf (ds_attempts st)) by (eapply Forall_impl; [exact H9|]; by intros e []).
  assert (He : emits (wr_each snapshot_entry_encode (ds_idempotency st))
    (concat (map snapshot_entry_bytes (ds_idempotency st)))).
  { apply emits_each. intros e He. apply emits_snapshot_entry. rewrite Forall_forall in Hfit. by apply Hfit. }
  assert (Hs : exists bs, emits (snapshot_encode st) bs) by (eexists; unfold snapshot_encode; emits_fields).
  destruct Hs as [bs Hs]. rewrite (Hs writer_empty) by done. cbn. by eexists.
Qed.

Lemma checkpoint_calm snap recs s fs : image_of snap recs s fs -> sm_failed s = false -> fs_calm fs ->
  ds_last_seq (sm_state s) + 1 < two64 ->
  exists v s' fs', store_checkpoint (Some s) fs = (Success v, Some s', fs') /\ fs_calm fs'.
Proof.
  intros [Ht _] Hf Hc Hroom. pose proof Ht as [T1 T2 T3 _ T5 _]. pose proof (last_seq_of_u64 _ _ T2) as Hu.
  rewrite <- T3 in Hu. cbn [store_checkpoint]. rewrite Hf. unfold iobind at 1. unfold checkpoint_snapshot.
  destruct (serialise_typed _ _ T5) as [payload ->]. cbv zeta. unfold iobind at 1.
  destruct (write_file_atomic_calm (snapshot_path (sm_options s)) (frame_snapshot payload) fs Hc) as (fs1 & -> & C1).
  change (status_ok status_success) with true. cbn [negb ioret]. unfold iobind.
  unfold checkpoint_rotate. cbv zeta.
  match goal with |- context [sm_options (set_sm_writer None ?x)] => set (s1 := x) end.
  change (sm_options (set_sm_writer None s1)) with (sm_options s). change (ds_last_seq (sm_state s1)) with (ds_last_seq (sm_state s)).
  set (seq := ds_last_seq (sm_state s)) in *. unfold iobind at 1.
  destruct (journal_create_calm (staging_path (sm_options s)) seq seq fs1 C1) as (fs2 & -> & C2 & F2); [lia|].
  unfold iobind at 1. destruct (fs_rename_calm (staging_path (sm_options s)) (journal_path (sm_options s)) _ fs2 C2 F2)
    as (fs3 & -> & C3 & F3). cbn [has_value]. unfold iobind at 1.
  rewrite (journal_reopen_calm _ _ _ []); [|done|done|lia|by rewrite F3, lookup_insert_eq, app_nil_r]. cbv zeta. unfold iobind.
  match goal with |- context [store_commit_impl ?x ?t ?p ?f fs3] =>
    destruct (store_commit_calm x t p f fs3) as (s4 & fs4 & -> & C4) end.
  - by eexists.
  - done.
  - done.
  - apply (sized_fits 4096); [apply sized_checkpoint|done].
  - apply Hu.
  - exact Hroom.
  - cbn [fst snd negb ioret]. change (status_ok status_success) with true. cbn [negb].
    do 3 eexists. split; [reflexivity|done].
Qed.
