(* ===== verification/Intake.v ===== *)
(** * Engine: state, evidence intake and evaluation

    Models the first part of include/lff/engine.hpp and src/engine.cpp: the state
    [Engine::Impl] keeps, the two publication operations with the publisher
    registry and the replay guard, [evaluate_failure] and the resolution of a
    candidate against the retained replacement evidence. A [std::map] is a gmap;
    where the code iterates over one, [map_entries] lists it in key order, which
    is the order of [std::map]. Counters of type size_t and uint64 are kept at
    their width. *)
From S2P Require Import Prelude Status Hash Ids Bytes Evidence Policy Authority Attempt Decision.
From S2P Require Import Selector Fs Journal State Store.

(** ** Options and state *)
Record EngineLimits := MkLimits {
  lm_max_tracked_publishers : Z;
  lm_max_evidence_entries : Z;
  lm_max_attempts : nat;
  lm_max_fences : nat;
  lm_max_idempotency : nat;
  lm_max_retained_decisions : nat;
  lm_max_pending_directives : nat;
  lm_max_candidates_per_request : Z;
}.

Record EngineOptions := MkEngineOptions {
  eo_fabric : string;
  eo_policy : FailoverPolicy;
  eo_topology : TopologySnapshot;
  eo_state_dir : string;
  eo_limits : EngineLimits;
  eo_snapshot_every_records : Z;
  eo_enable_snapshot : bool;
  eo_repair_torn_tail : bool;
}.

Record PublisherState := MkPublisher {
  ps_incarnation : Incarnation;
  ps_epoch : Epoch;
  ps_highest_seq : ObservationSeq;
  ps_first_seen_tick : Z;
  ps_accepted : Z;
  ps_rejected : Z;
}.
#[global] Instance publisher_state_eq_dec : EqDecision PublisherState.
Proof. solve_decision. Defined.

Definition set_ps_incarnation (v : Incarnation) (r : PublisherState) : PublisherState :=
  MkPublisher v (ps_epoch r) (ps_highest_seq r) (ps_first_seen_tick r) (ps_accepted r)
    (ps_rejected r).
Definition set_ps_epoch (v : Epoch) (r : PublisherState) : PublisherState :=
  MkPublisher (ps_incarnation r) v (ps_highest_seq r) (ps_first_seen_tick r) (ps_accepted r)
    (ps_rejected r).
Definition set_ps_highest_seq (v : ObservationSeq) (r : PublisherState) : PublisherState :=
  MkPublisher (ps_incarnation r) (ps_epoch r) v (ps_first_seen_tick r) (ps_accepted r)
    (ps_rejected r).
Definition set_ps_first_seen_tick (v : Z) (r : PublisherState) : PublisherState :=
  MkPublisher (ps_incarnation r) (ps_epoch r) (ps_highest_seq r) v (ps_accepted r) (ps_rejected
    r).
Definition set_ps_accepted (v : Z) (r : PublisherState) : PublisherState :=
  MkPublisher (ps_incarnation r) (ps_epoch r) (ps_highest_seq r) (ps_first_seen_tick r) v
    (ps_rejected r).
Definition set_ps_rejected (v : Z) (r : PublisherState) : PublisherState :=
  MkPublisher (ps_incarnation r) (ps_epoch r) (ps_highest_seq r) (ps_first_seen_tick r)
    (ps_accepted r) v.
(** [std::map<LinkKey, std::map<PublisherName, A>>]. *)
Abbreviation Table A := (gmap LinkKey (gmap string A)) (only parsing).

Record EngineImpl := MkEngine {
  im_options : EngineOptions;
  im_store : LineageStore;
  im_incarnation : Incarnation;
  im_epoch : Epoch;
  im_tick : Z;
  im_decisions : list FailoverDecision;
  im_publishers : gmap PublisherName PublisherState;
  im_failure_evidence : Table RetainedFailureEvidence;
  im_replacement_evidence : Table RetainedReplacementEvidence;
  im_last_observation_seq : Table ObservationSeq;
  im_evidence_entries : Z;
  im_closed : bool;
  im_store_failed : bool;
}.

Definition set_im_options (v : EngineOptions) (r : EngineImpl) : EngineImpl :=
  MkEngine v (im_store r) (im_incarnation r) (im_epoch r) (im_tick r) (im_decisions r)
    (im_publishers r) (im_failure_evidence r) (im_replacement_evidence r)
    (im_last_observation_seq r) (im_evidence_entries r) (im_closed r) (im_store_failed r).
Definition set_im_store (v : LineageStore) (r : EngineImpl) : EngineImpl :=
  MkEngine (im_options r) v (im_incarnation r) (im_epoch r) (im_tick r) (im_decisions r)
    (im_publishers r) (im_failure_evidence r) (im_replacement_evidence r)
    (im_last_observation_seq r) (im_evidence_entries r) (im_closed r) (im_store_failed r).
Definition set_im_incarnation (v : Incarnation) (r : EngineImpl) : EngineImpl :=
  MkEngine (im_options r) (im_store r) v (im_epoch r) (im_tick r) (im_decisions r)
    (im_publishers r) (im_failure_evidence r) (im_replacement_evidence r)
    (im_last_observation_seq r) (im_evidence_entries r) (im_closed r) (im_store_failed r).
Definition set_im_epoch (v : Epoch) (r : EngineImpl) : EngineImpl :=
  MkEngine (im_options r) (im_store r) (im_incarnation r) v (im_tick r) (im_decisions r)
    (im_publishers r) (im_failure_evidence r) (im_replacement_evidence r)
    (im_last_observation_seq r) (im_evidence_entries r) (im_closed r) (im_store_failed r).
Definition set_im_tick (v : Z) (r : EngineImpl) : EngineImpl :=
  MkEngine (im_options r) (im_store r) (im_incarnation r) (im_epoch r) v (im_decisions r)
    (im_publishers r) (im_failure_evidence r) (im_replacement_evidence r)
    (im_last_observation_seq r) (im_evidence_entries r) (im_closed r) (im_store_failed r).
Definition set_im_decisions (v : list FailoverDecision) (r : EngineImpl) : EngineImpl :=
  MkEngine (im_options r) (im_store r) (im_incarnation r) (im_epoch r) (im_tick r) v
    (im_publishers r) (im_failure_evidence r) (im_replacement_evidence r)
    (im_last_observation_seq r) (im_evidence_entries r) (im_closed r) (im_store_failed r).
Definition set_im_publishers (v : gmap PublisherName PublisherState) (r : EngineImpl) : EngineImpl :=
  MkEngine (im_options r) (im_store r) (im_incarnation r) (im_epoch r) (im_tick r) (im_decisions
    r) v (im_failure_evidence r) (im_replacement_evidence r) (im_last_observation_seq r)
    (im_evidence_entries r) (im_closed r) (im_store_failed r).
Definition set_im_failure_evidence (v : Table RetainedFailureEvidence) (r : EngineImpl) : EngineImpl :=
  MkEngine (im_options r) (im_store r) (im_incarnation r) (im_epoch r) (im_tick r) (im_decisions
    r) (im_publishers r) v (im_replacement_evidence r) (im_last_observation_seq r)
    (im_evidence_entries r) (im_closed r) (im_store_failed r).
Definition set_im_replacement_evidence (v : Table RetainedReplacementEvidence) (r : EngineImpl) : EngineImpl :=
  MkEngine (im_options r) (im_store r) (im_incarnation r) (im_epoch r) (im_tick r) (im_decisions
    r) (im_publishers r) (im_failure_evidence r) v (im_last_observation_seq r)
    (im_evidence_entries r) (im_closed r) (im_store_failed r).
Definition set_im_last_observation_seq (v : Table ObservationSeq) (r : EngineImpl) : EngineImpl :=
  MkEngine (im_options r) (im_store r) (im_incarnation r) (im_epoch r) (im_tick r) (im_decisions
    r) (im_publishers r) (im_failure_evidence r) (im_replacement_evidence r) v
    (im_evidence_entries r) (im_closed r) (im_store_failed r).
Definition set_im_evidence_entries (v : Z) (r : EngineImpl) : EngineImpl :=
  MkEngine (im_options r) (im_store r) (im_incarnation r) (im_epoch r) (im_tick r) (im_decisions
    r) (im_publishers r) (im_failure_evidence r) (im_replacement_evidence r)
    (im_last_observation_seq r) v (im_closed r) (im_store_failed r).
Definition set_im_closed (v : bool) (r : EngineImpl) : EngineImpl :=
  MkEngine (im_options r) (im_store r) (im_incarnation r) (im_epoch r) (im_tick r) (im_decisions
    r) (im_publishers r) (im_failure_evidence r) (im_replacement_evidence r)
    (im_last_observation_seq r) (im_evidence_entries r) v (im_store_failed r).
Definition set_im_store_failed (v : bool) (r : EngineImpl) : EngineImpl :=
  MkEngine (im_options r) (im_store r) (im_incarnation r) (im_epoch r) (im_tick r) (im_decisions
    r) (im_publishers r) (im_failure_evidence r) (im_replacement_evidence r)
    (im_last_observation_seq r) (im_evidence_entries r) (im_closed r) v.
Definition engine_state (im : EngineImpl) : DurableState := store_state (im_store im).

(** ** std::map *)
Definition entry_ltb {A} (x y : string * A) : bool := string_ltb x.1 y.1.
Definition map_entries {A} (m : gmap string A) : list (string * A) :=
  std_sort entry_ltb (map_to_list m).

(** ** Freshness *)
(** [classify_receipt]; the second component is its [age_out]. *)
Definition classify_receipt (receipt_coordinator : Incarnation) (receipt_tick : Z)
    (current : Incarnation) (now max_age : Z) : FreshnessClass * Z :=
  if negb (bool_decide (receipt_coordinator = current)) then (FreshnessClass.PriorIncarnation, 0)
  else if receipt_tick >? now then (FreshnessClass.Future, 0)
  else let age := now - receipt_tick in
  (if age >? max_age then FreshnessClass.Expired else FreshnessClass.Current, age).

Definition receipt_class {R} (im : EngineImpl) (policy : FailoverPolicy) (r : Retained R) :
    FreshnessClass * Z :=
  classify_receipt (re_receipt_coordinator r) (re_receipt_tick r) (im_incarnation im) (im_tick im)
    (fp_evidence_max_age_ticks policy).

(** ** Publication *)
Definition publication_open (im : EngineImpl) : option Status :=
  if im_closed im
  then Some (status_failure Outcome.Closed ReasonCode.Shutdown "engine is shutting down")
  else if im_store_failed im
  then Some (status_failure Outcome.IoError ReasonCode.InternalError "durable lineage is unavailable")
  else None.

(** The checks both publications make before the clock advances. *)
Definition publication_refused (im : EngineImpl) (link : LinkKey) (generation topology : Z)
    (stamp : EvidenceStamp) : option Status :=
  match publication_open im with
  | Some s => Some s
  | None =>
      if negb (bool_decide (lk_fabric link = eo_fabric (im_options im)))
      then Some (status_add (status_failure Outcome.NotFound ReasonCode.UnknownFabric
                  "observation names an unknown fabric") ReasonCode.InvalidArgument (lk_fabric link))
      else if (string_empty (lk_link link) || (generation =? 0) || (topology =? 0))%bool
      then Some (status_failure Outcome.Invalid ReasonCode.NullField
                  "observation must bind a link and non-zero generations")
      else if (string_empty (es_publisher stamp) ||
               incarnation_is_zero (es_publisher_incarnation stamp))%bool
      then Some (status_failure Outcome.Invalid ReasonCode.NullField
                  "observation must name a publisher and its incarnation")
      else None
  end.

(** [++impl.tick] on a uint64. *)
Definition advance_tick (im : EngineImpl) : EngineImpl := set_im_tick (wrap64 (im_tick im + 1)) im.

(** What [subject_entry.second.erase(publisher)] returns, summed over the loop, and
    the table the loop leaves. *)
Definition erased {A} (p : string) (t : Table A) : nat :=
  sum_list_with (fun e : LinkKey * gmap string A => if has_value (e.2 !! p) then 1 else 0)%nat
    (map_to_list t).
Definition erase_publisher {A} (p : string) (t : Table A) : Table A := delete p <$> t.

Arguments erased : simpl never.
Arguments erase_publisher : simpl never.

(** The publisher restarted: everything its previous incarnation observed goes. *)
Definition retire_publisher (p : string) (im : EngineImpl) : EngineImpl :=
  let removed := (erased p (im_failure_evidence im) + erased p (im_replacement_evidence im))%nat in
  set_im_last_observation_seq (erase_publisher p (im_last_observation_seq im))
    (set_im_replacement_evidence (erase_publisher p (im_replacement_evidence im))
      (set_im_failure_evidence (erase_publisher p (im_failure_evidence im))
        (set_im_evidence_entries (wrap64 (im_evidence_entries im - Z.of_nat removed)) im))).

(** The publisher registry: a new name is admitted within the bound, a known one
    must present its incarnation or a strictly newer epoch. *)
Definition admit_publisher (stamp : EvidenceStamp) (im : EngineImpl) : option Status * EngineImpl :=
  let p := es_publisher stamp in
  match im_publishers im !! p with
  | None =>
      if Z.of_nat (size (im_publishers im)) >=? lm_max_tracked_publishers (eo_limits (im_options im))
      then (Some (status_failure Outcome.Exhausted ReasonCode.LimitExceeded
                    "publisher registry is full"), im)
      else (None, set_im_publishers
              (<[p := MkPublisher (es_publisher_incarnation stamp) (es_publisher_epoch stamp) 0
                        (im_tick im) 0 0]> (im_publishers im)) im)
  | Some known =>
      if bool_decide (ps_incarnation known = es_publisher_incarnation stamp) then (None, im)
      else if es_publisher_epoch stamp <? ps_epoch known
      then (Some (status_add (status_failure Outcome.Stale ReasonCode.PublisherIncarnationMismatch
                    "observation comes from a retired publisher incarnation")
                    ReasonCode.PreRestartAuthority
                    (incarnation_hex (es_publisher_incarnation stamp))), im)
      else if es_publisher_epoch stamp =? ps_epoch known
      then (Some (status_failure Outcome.Conflict ReasonCode.PublisherIncarnationMismatch
                    "two incarnations claim the same publisher epoch"), im)
      else (None, retire_publisher p (set_im_publishers
              (<[p := set_ps_epoch (es_publisher_epoch stamp)
                        (set_ps_incarnation (es_publisher_incarnation stamp) known)]>
                 (im_publishers im)) im))
  end.

Definition sequence_replayed (link : LinkKey) (stamp : EvidenceStamp) (im : EngineImpl) : option Status :=
  match im_last_observation_seq im !! link with
  | None => None
  | Some last =>
      match last !! es_publisher stamp with
      | None => None
      | Some seq =>
          if seq <? es_observation_seq stamp then None
          else Some (status_add (status_failure Outcome.Stale ReasonCode.SessionSequenceReplayed
                 "observation sequence does not advance")
                 ReasonCode.SequenceRegression (decimal_text (es_observation_seq stamp)))
      end
  end.

(** [impl.table[link]]: the bucket, created empty when it is missing. *)
Definition bucket_of {A} (link : LinkKey) (t : Table A) : gmap string A := default ∅ (t !! link).
Definition publisher_default : PublisherState := MkPublisher incarnation_zero 0 0 0 0 0.

(** The bookkeeping both publications end with. *)
Definition note_observation (link : LinkKey) (stamp : EvidenceStamp) (replacing : bool)
    (im : EngineImpl) : EngineImpl :=
  let p := es_publisher stamp in
  let seqs := im_last_observation_seq im in
  let known := default publisher_default (im_publishers im !! p) in
  set_im_publishers (<[p := set_ps_accepted (wrap64 (ps_accepted known + 1))
      (set_ps_highest_seq (es_observation_seq stamp) known)]> (im_publishers im))
    (set_im_evidence_entries
        (if replacing then im_evidence_entries im else wrap64 (im_evidence_entries im + 1))
      (set_im_last_observation_seq
        (<[link := <[p := es_observation_seq stamp]> (bucket_of link seqs)]> seqs) im)).

Definition evidence_full (im : EngineImpl) : bool :=
  im_evidence_entries im >=? lm_max_evidence_entries (eo_limits (im_options im)).
Definition evidence_table_full : Status :=
  status_failure Outcome.Exhausted ReasonCode.LimitExceeded "evidence table is full".

Definition retain {R} (digest : Digest) (report : R) (im : EngineImpl) : Retained R :=
  MkRetained report digest 0 (im_tick im) (im_epoch im) (im_incarnation im) false.

Arguments retain : simpl never.
Arguments bucket_of : simpl never.

Definition publish_failure_report (report : FailureReport) (im : EngineImpl) : Status * EngineImpl :=
  let link := fr_subject report in
  let stamp := fr_stamp report in
  match publication_refused im link (fr_link_generation report) (fr_topology_generation report) stamp with
  | Some s => (s, im)
  | None =>
      let (refused, im) := admit_publisher stamp (advance_tick im) in
      match refused with
      | Some s => (s, im)
      | None =>
          match sequence_replayed link stamp im with
          | Some s => (s, im)
          | None =>
              let table := im_failure_evidence im in
              let bucket := bucket_of link table in
              let replacing := has_value (bucket !! es_publisher stamp) in
              if (negb replacing && evidence_full im)%bool
              then (evidence_table_full, set_im_failure_evidence (<[link := bucket]> table) im)
              else
                let retained := retain (encoded_digest report) report im in
                (status_success, note_observation link stamp replacing (set_im_failure_evidence
                   (<[link := <[es_publisher stamp := retained]> bucket]> table) im))
          end
      end
  end.

Definition publish_replacement_report (report : ReplacementReport) (im : EngineImpl) :
    Status * EngineImpl :=
  let link := rr_candidate report in
  let stamp := rr_stamp report in
  match publication_refused im link (rr_link_generation report) (rr_topology_generation report) stamp with
  | Some s => (s, im)
  | None =>
      let (refused, im) := admit_publisher stamp (advance_tick im) in
      match refused with
      | Some s => (s, im)
      | None =>
          match sequence_replayed link stamp im with
          | Some s => (s, im)
          | None =>
              let table := im_replacement_evidence im in
              let bucket := bucket_of link table in
              let replacing := has_value (bucket !! es_publisher stamp) in
              if (negb replacing && evidence_full im)%bool
              then (evidence_table_full, set_im_replacement_evidence (<[link := bucket]> table) im)
              else
                let retained := retain (encoded_digest report) report im in
                (status_success, note_observation link stamp replacing (set_im_replacement_evidence
                   (<[link := <[es_publisher stamp := retained]> bucket]> table) im))
          end
      end
  end.

(** ** Failure evidence *)
Record FailureVerdict := MkFailureVerdict {
  fv_established : bool;
  fv_outcome : Outcome;
  fv_reason : ReasonCode;
  fv_detail : string;
  fv_publisher : PublisherName;
  fv_publisher_incarnation : Incarnation;
  fv_publisher_seq : ObservationSeq;
  fv_evidence_digest : Digest;
  fv_extra : list Reason;
}.
Definition verdict_of (outcome : Outcome) (code : ReasonCode) (detail : string) (extra : list Reason) :
    FailureVerdict :=
  MkFailureVerdict false outcome code detail EmptyString incarnation_zero 0 digest_zero extra.

(** The locals of the loop in [evaluate_failure]. *)
Record FailureTally := MkTally {
  ty_qualified : nat;
  ty_failures : nat;
  ty_stale : bool;
  ty_low_confidence : bool;
  ty_unknown : bool;
  ty_generation : bool;
  ty_best : option (RetainedFailureEvidence * Z);
}.
Definition tally_none : FailureTally := MkTally 0 0 false false false false None.
Definition tally_stale (t : FailureTally) : FailureTally :=
  MkTally (ty_qualified t) (ty_failures t) true (ty_low_confidence t) (ty_unknown t)
    (ty_generation t) (ty_best t).
Definition tally_low_confidence (t : FailureTally) : FailureTally :=
  MkTally (ty_qualified t) (ty_failures t) (ty_stale t) true (ty_unknown t) (ty_generation t) (ty_best t).
Definition tally_unknown (t : FailureTally) : FailureTally :=
  MkTally (ty_qualified t) (ty_failures t) (ty_stale t) (ty_low_confidence t) true
    (ty_generation t) (ty_best t).
Definition tally_generation (t : FailureTally) : FailureTally :=
  MkTally (ty_qualified t) (ty_failures t) (ty_stale t) (ty_low_confidence t) (ty_unknown t)
    true (ty_best t).
Definition tally_qualified (t : FailureTally) : FailureTally :=
  MkTally (S (ty_qualified t)) (ty_failures t) (ty_stale t) (ty_low_confidence t) (ty_unknown t)
    (ty_generation t) (ty_best t).
Definition tally_failure (best : option (RetainedFailureEvidence * Z)) (t : FailureTally) : FailureTally :=
  MkTally (ty_qualified t) (S (ty_failures t)) (ty_stale t) (ty_low_confidence t) (ty_unknown t)
    (ty_generation t) best.

(** Is the publisher registered under the incarnation that made the report? *)
Definition publisher_current (im : EngineImpl) (p : string) (stamp : EvidenceStamp) : bool :=
  match im_publishers im !! p with
  | None => false
  | Some known => bool_decide (ps_incarnation known = es_publisher_incarnation stamp)
  end.

(** Higher confidence, then younger, then the smaller publisher name. *)
Definition outranks (confidence age : Z) (p : string) (confidence' age' : Z) (p' : string) : bool :=
  ((confidence >? confidence') ||
   ((confidence =? confidence') && ((age <? age') || ((age =? age') && string_ltb p p'))))%bool.

Definition failure_better (retained : RetainedFailureEvidence) (age : Z) (p : string)
    (best : option (RetainedFailureEvidence * Z)) : bool :=
  match best with
  | None => true
  | Some (b, best_age) =>
      outranks (fr_confidence (re_report retained)) age p
        (fr_confidence (re_report b)) best_age (es_publisher (fr_stamp (re_report b)))
  end.

(** One round of the loop. *)
Definition tally_entry (im : EngineImpl) (policy : FailoverPolicy) (subject_generation topology_generation : Z)
    (t : FailureTally) (entry : string * RetainedFailureEvidence) : FailureTally :=
  let '(p, retained) := entry in
  let report := re_report retained in
  if negb (publisher_current im p (fr_stamp report)) then tally_stale t
  else if (negb (fr_link_generation report =? subject_generation) ||
           negb (fr_topology_generation report =? topology_generation))%bool then tally_generation t
  else let '(freshness, age) := receipt_class im policy retained in
  if negb (enum_eqb freshness FreshnessClass.Current) then tally_stale t
  else if fr_confidence report <? fp_min_failure_confidence policy then tally_low_confidence t
  else if enum_eqb (fr_state report) ObservationState.Unknown then tally_unknown t
  else
    let t := tally_qualified t in
    if observation_state_is_failure (fr_state report) (fp_treat_degraded_as_failed policy)
    then tally_failure (if failure_better retained age p (ty_best t) then Some (retained, age)
                        else ty_best t) t
    else t.

(** The verdict when nothing qualified: the first reason in the order stale, low
    confidence, unknown, generation becomes the reason, all of them are listed. *)
Definition verdict_unqualified (t : FailureTally) : FailureVerdict :=
  let cases := [
    (ty_stale t, ReasonCode.EvidenceStale, "every published failure observation is stale"%string,
     "outside the policy window"%string);
    (ty_low_confidence t, ReasonCode.EvidenceLowConfidence,
     "no observation reaches the policy confidence"%string, "below policy threshold"%string);
    (ty_unknown t, ReasonCode.EvidenceUnknown, "publishers reported an unknown state"%string,
     "publisher state is unknown"%string);
    (ty_generation t, ReasonCode.GenerationMismatch,
     "observations bind a different link or topology generation"%string,
     "generation mismatch"%string)] in
  let seen := List.filter (fun c => c.1.1.1) cases in
  let '(code, detail) := match seen with
    | [] => (ReasonCode.EvidenceMissing, "no usable failure observation is current"%string)
    | (_, code, detail, _) :: _ => (code, detail)
    end in
  verdict_of Outcome.Unknown code detail (map (fun c => reason c.1.1.2 c.2) seen).

Definition agreement_established (policy : FailoverPolicy) (t : FailureTally) : bool :=
  match fp_agreement policy with
  | AgreementRule.Unanimous => Nat.eqb (ty_failures t) (ty_qualified t)
  | _ => Nat.ltb (ty_qualified t) (ty_failures t * 2)
  end.
Definition agreement_conflict (policy : FailoverPolicy) (t : FailureTally) : bool :=
  match fp_agreement policy with
  | AgreementRule.Unanimous => (negb (agreement_established policy t) && Nat.ltb 0 (ty_failures t))%bool
  | _ => (negb (agreement_established policy t) && Nat.eqb (ty_failures t * 2) (ty_qualified t))%bool
  end.

Definition verdict_established (best : RetainedFailureEvidence) : FailureVerdict :=
  let stamp := fr_stamp (re_report best) in
  MkFailureVerdict true Outcome.Ok ReasonCode.SelectedHighestObjective
    "failure is established under the current policy" (es_publisher stamp)
    (es_publisher_incarnation stamp) (es_observation_seq stamp) (re_digest best) [].

Definition tally_bucket (im : EngineImpl) (bucket : gmap string RetainedFailureEvidence)
    (policy : FailoverPolicy) (subject_generation topology_generation : Z) : FailureTally :=
  foldl (tally_entry im policy subject_generation topology_generation) tally_none (map_entries bucket).

Definition conclude (policy : FailoverPolicy) (t : FailureTally) : FailureVerdict :=
  if Nat.eqb (ty_qualified t) 0 then verdict_unqualified t
  else match agreement_established policy t, ty_best t with
  | true, Some (best, _) => verdict_established best
  | _, _ =>
      if agreement_conflict policy t
      then verdict_of Outcome.Indeterminate ReasonCode.EvidenceConflicted
             "fresh qualified observations contradict each other" []
      else verdict_of Outcome.Refused ReasonCode.SubjectNotFailed
             "current qualified observations report the subject as healthy" []
  end.

Definition evaluate_failure (im : EngineImpl) (subject : LinkKey) (subject_generation : LinkGeneration)
    (policy : FailoverPolicy) (topology_generation : TopologyGeneration) : FailureVerdict :=
  match im_failure_evidence im !! subject with
  | None => verdict_of Outcome.Unknown ReasonCode.EvidenceMissing
              "no failure observation has been published for this link" []
  | Some bucket =>
      if Nat.eqb (size bucket) 0
      then verdict_of Outcome.Unknown ReasonCode.EvidenceMissing
             "no failure observation has been published for this link" []
      else conclude policy (tally_bucket im bucket policy subject_generation topology_generation)
  end.

(** ** Candidate resolution *)
Definition stamp_none : EvidenceStamp := MkStamp EmptyString incarnation_zero 0 0 0.
Definition replacement_report_none : ReplacementReport :=
  MkReplacementReport link_key_none 0 0 ObservationState.Unknown 0 0 0 false 0 stamp_none.
Definition resolved_without_evidence (candidate : LinkKey) (generation : Z) (asserted matched : bool) :
    ResolvedCandidate :=
  MkResolved candidate generation false replacement_report_none digest_zero
    FreshnessClass.PriorIncarnation 0 asserted matched false.

(** A publisher's entry the loops look at: current incarnation, bound to the
    definition's generation and to the topology generation. *)
Definition entry_bound (im : EngineImpl) (generation : Z) (p : string)
    (retained : RetainedReplacementEvidence) : bool :=
  (publisher_current im p (rr_stamp (re_report retained)) &&
   (rr_link_generation (re_report retained) =? generation) &&
   (rr_topology_generation (re_report retained) =? ts_generation (ds_topology (engine_state im))))%bool.
Definition entry_qualified (im : EngineImpl) (retained : RetainedReplacementEvidence) : bool :=
  let policy := ds_policy (engine_state im) in
  (enum_eqb (receipt_class im policy retained).1 FreshnessClass.Current &&
   (fp_min_replacement_confidence policy <=? rr_confidence (re_report retained)))%bool.

(** The choice of the best observation: [best], [best_age] and, for the identity
    of the pointer, the key it was found under. *)
Definition pick_entry (im : EngineImpl) (generation : Z)
    (best : option (string * RetainedReplacementEvidence * Z))
    (entry : string * RetainedReplacementEvidence) : option (string * RetainedReplacementEvidence * Z) :=
  let '(p, retained) := entry in
  if negb (entry_bound im generation p retained) then best
  else
    let age := (receipt_class im (ds_policy (engine_state im)) retained).2 in
    match best with
    | None => Some (p, retained, age)
    | Some (_, b, best_age) =>
        if negb (entry_qualified im retained) then best
        else if outranks (rr_confidence (re_report retained)) age p (rr_confidence (re_report b))
                  best_age (es_publisher (rr_stamp (re_report b)))
        then Some (p, retained, age) else best
    end.

(** A current qualified observation of another publisher that contradicts the
    chosen state. *)
Definition contradicts (im : EngineImpl) (generation : Z) (chosen : string) (state : ObservationState)
    (entry : string * RetainedReplacementEvidence) : bool :=
  let '(p, retained) := entry in
  (negb (bool_decide (p = chosen)) && entry_bound im generation p retained &&
   entry_qualified im retained && negb (enum_eqb (rr_state (re_report retained)) state))%bool.

Definition resolve_candidate (im : EngineImpl) (candidate : ReplacementCandidate) : ResolvedCandidate :=
  let state := engine_state im in
  let key := rc_candidate candidate in
  let expected := rc_expected_generation candidate in
  let asserted := negb (expected =? 0) in
  match topology_find (ds_topology state) key with
  | None => resolved_without_evidence key expected asserted false
  | Some definition =>
      let generation := ld_generation definition in
      let matched := (negb asserted || (expected =? generation))%bool in
      let absent := resolved_without_evidence key generation asserted matched in
      match im_replacement_evidence im !! key with
      | None => absent
      | Some bucket =>
          match foldl (pick_entry im generation) None (map_entries bucket) with
          | None => absent
          | Some (chosen, best, _) =>
              let '(freshness, age) := receipt_class im (ds_policy state) best in
              MkResolved key generation true (re_report best) (re_digest best) freshness age
                asserted matched
                (existsb (contradicts im generation chosen (rr_state (re_report best)))
                   (map_entries bucket))
          end
      end
  end.

Definition resolved_less (a b : ResolvedCandidate) : bool :=
  link_key_ltb (rs_candidate a) (rs_candidate b).
Definition resolve_candidates (im : EngineImpl) (candidates : list ReplacementCandidate) :
    list ResolvedCandidate :=
  std_sort resolved_less (map (resolve_candidate im) candidates).

(** ** Sizes of the tables *)
Definition table_size {A} (t : Table A) : nat := sum_list_with (fun e => size e.2) (map_to_list t).

Arguments table_size : simpl never.

Lemma table_size_insert_new {A} (t : Table A) k b :
  t !! k = None -> table_size (<[k := b]> t) = (size b + table_size t)%nat.
Proof. intros H. unfold table_size. by rewrite (map_to_list_insert t k b H). Qed.

Lemma table_size_delete {A} (t : Table A) k :
  table_size t = (size (bucket_of k t) + table_size (delete k t))%nat.
Proof.
  unfold bucket_of. destruct (t !! k) as [b|] eqn:E; cbn [default].
  - rewrite <- (insert_delete_id t k b E) at 1. apply table_size_insert_new, lookup_delete_eq.
  - by rewrite delete_id, map_size_empty.
Qed.

Lemma table_size_insert {A} (t : Table A) k b :
  (table_size (<[k := b]> t) + size (bucket_of k t) = size b + table_size t)%nat.
Proof.
  rewrite (table_size_delete t k), <- insert_delete_eq, table_size_insert_new by apply lookup_delete_eq. lia.
Qed.

Lemma table_size_erase {A} p (t : Table A) :
  (table_size (erase_publisher p t) + erased p t = table_size t)%nat.
Proof.
  unfold erase_publisher, erased. induction t as [|k b t Hk IH] using map_ind; [done|].
  rewrite fmap_insert, table_size_insert_new by (by rewrite lookup_fmap, Hk).
  rewrite table_size_insert_new by done. rewrite (map_to_list_insert t k b Hk). cbn [sum_list_with].
  rewrite map_size_delete. cbn [snd]. destruct (b !! p) as [x|] eqn:Hp; cbn [has_value id]; [|lia].
  assert (size b <> 0)%nat by (by apply map_size_ne_0_lookup_2 with p). lia.
Qed.

(** ** What a publication leaves alone *)
Record publication_frame (im im' : EngineImpl) : Prop := {
  pf_options : im_options im' = im_options im;
  pf_store : im_store im' = im_store im;
  pf_incarnation : im_incarnation im' = im_incarnation im;
  pf_epoch : im_epoch im' = im_epoch im;
  pf_decisions : im_decisions im' = im_decisions im;
  pf_closed : im_closed im' = im_closed im;
  pf_store_failed : im_store_failed im' = im_store_failed im;
}.
#[global] Instance publication_frame_preorder : PreOrder publication_frame.
Proof. split; [by split|]. intros x y z [] []. split; congruence. Qed.

(** ** The evidence invariant *)
(** Every retained observation is filed under the publisher that stamped it, and
    that publisher is registered under the incarnation that made it. *)
Definition attributed {R} (stamp : R -> EvidenceStamp) (link : R -> LinkKey)
    (publishers : gmap string PublisherState) (t : Table (Retained R)) : Prop :=
  forall k b p r, t !! k = Some b -> b !! p = Some r ->
    es_publisher (stamp (re_report r)) = p /\ link (re_report r) = k /\
    exists known, publishers !! p = Some known /\
      ps_incarnation known = es_publisher_incarnation (stamp (re_report r)).

Record evidence_inv (im : EngineImpl) : Prop := {
  ei_limit : is_u64 (lm_max_evidence_entries (eo_limits (im_options im)));
  ei_counted : im_evidence_entries im =
    Z.of_nat (table_size (im_failure_evidence im) + table_size (im_replacement_evidence im));
  ei_bounded : im_evidence_entries im <= lm_max_evidence_entries (eo_limits (im_options im));
  ei_publishers : Z.of_nat (size (im_publishers im)) <=
    Z.max 0 (lm_max_tracked_publishers (eo_limits (im_options im)));
  ei_failure : attributed fr_stamp fr_subject (im_publishers im) (im_failure_evidence im);
  ei_replacement : attributed rr_stamp rr_candidate (im_publishers im) (im_replacement_evidence im);
}.

(** An incarnation change in the registry is harmless once the publisher's
    entries are gone. *)
Lemma attributed_insert {R} stamp link pubs (t : Table (Retained R)) p known :
  attributed stamp link pubs t ->
  (forall k b r, t !! k = Some b -> b !! p = Some r ->
     ps_incarnation known = es_publisher_incarnation (stamp (re_report r))) ->
  attributed stamp link (<[p := known]> pubs) t.
Proof.
  intros Ha Hp k b p' r Hk Hb. destruct (Ha k b p' r Hk Hb) as (H1 & H2 & known' & H3 & H4).
  split; [done|split; [done|]]. destruct (decide (p' = p)) as [->|Hne].
  - exists known. rewrite lookup_insert_eq. split; [done|]. by eapply Hp.
  - exists known'. by rewrite lookup_insert_ne.
Qed.

Lemma erase_publisher_lookup {A} p (t : Table A) k b p' x :
  erase_publisher p t !! k = Some b -> b !! p' = Some x ->
  p' <> p /\ exists b', t !! k = Some b' /\ b' !! p' = Some x.
Proof.
  unfold erase_publisher. rewrite lookup_fmap. destruct (t !! k) as [b'|] eqn:E; [|done].
  intros [= <-]. rewrite lookup_delete_Some. intros [Hne Hx]. split; [done|]. by exists b'.
Qed.

Lemma attributed_erase {R} stamp link pubs (t : Table (Retained R)) p known :
  attributed stamp link pubs t -> attributed stamp link (<[p := known]> pubs) (erase_publisher p t).
Proof.
  intros Ha k b p' r Hk Hb. apply (erase_publisher_lookup _ _ _ _ _ _ Hk) in Hb as (Hne & b' & Hk' & Hb').
  destruct (Ha k b' p' r Hk' Hb') as (H1 & H2 & known' & H3 & H4). split; [done|split; [done|]].
  exists known'. by rewrite lookup_insert_ne.
Qed.

Lemma attributed_file {R} stamp link pubs (t : Table (Retained R)) k p r known :
  attributed stamp link pubs t -> es_publisher (stamp (re_report r)) = p -> link (re_report r) = k ->
  pubs !! p = Some known -> ps_incarnation known = es_publisher_incarnation (stamp (re_report r)) ->
  attributed stamp link pubs (<[k := <[p := r]> (bucket_of k t)]> t).
Proof.
  intros Ha Hp Hl Hk Hi k' b p' r'. destruct (decide (k' = k)) as [->|Hne].
  - rewrite lookup_insert_eq. intros [= <-]. destruct (decide (p' = p)) as [->|Hne'].
    + rewrite lookup_insert_eq. intros [= <-]. split; [done|split; [done|]]. by exists known.
    + rewrite lookup_insert_ne by done. unfold bucket_of. destruct (t !! k) as [b|] eqn:E; [|done].
      by apply Ha.
  - rewrite lookup_insert_ne by done. apply Ha.
Qed.

Lemma advance_tick_inv im : evidence_inv im -> evidence_inv (advance_tick im).
Proof. by intros []; split. Qed.
Lemma advance_tick_frame im : publication_frame im (advance_tick im).
Proof. by split. Qed.

Lemma admit_publisher_frame stamp im : publication_frame im (admit_publisher stamp im).2.
Proof.
  unfold admit_publisher. destruct (im_publishers im !! es_publisher stamp).
  - destruct (bool_decide _); [done|]. destruct (_ <? _); [done|]. destruct (_ =? _); [done|by split].
  - destruct (_ >=? _); [done|by split].
Qed.

(** Whatever the outcome, a publication changes only the clock, the registry and
    the evidence. *)
Lemma publish_failure_frame report im : publication_frame im (publish_failure_report report im).2.
Proof.
  unfold publish_failure_report. cbv zeta. destruct (publication_refused _ _ _ _ _); [done|].
  pose proof (admit_publisher_frame (fr_stamp report) (advance_tick im)) as H.
  destruct (admit_publisher _ _) as [o im1]. cbn [snd] in H.
  assert (Hf : publication_frame im im1) by (etrans; [apply advance_tick_frame|exact H]).
  destruct o; [done|]. destruct (sequence_replayed _ _ _); [done|].
  destruct (_ && _)%bool; cbn [snd]; by destruct Hf; split.
Qed.
Lemma publish_replacement_frame report im : publication_frame im (publish_replacement_report report im).2.
Proof.
  unfold publish_replacement_report. cbv zeta. destruct (publication_refused _ _ _ _ _); [done|].
  pose proof (admit_publisher_frame (rr_stamp report) (advance_tick im)) as H.
  destruct (admit_publisher _ _) as [o im1]. cbn [snd] in H.
  assert (Hf : publication_frame im im1) by (etrans; [apply advance_tick_frame|exact H]).
  destruct o; [done|]. destruct (sequence_replayed _ _ _); [done|].
  destruct (_ && _)%bool; cbn [snd]; by destruct Hf; split.
Qed.

Lemma retire_publisher_inv p known im :
  evidence_inv im -> is_Some (im_publishers im !! p) ->
  evidence_inv (retire_publisher p (set_im_publishers (<[p := known]> (im_publishers im)) im)).
Proof.
  intros [Hl Hc Hb Hp Hf Hr] Hin. unfold retire_publisher.
  pose proof (table_size_erase p (im_failure_evidence im)) as E1.
  pose proof (table_size_erase p (im_replacement_evidence im)) as E2.
  split; cbn; [done| | | | |].
  - rewrite wrap64_small; ints; lia.
  - rewrite wrap64_small; ints; lia.
  - by rewrite map_size_insert_Some.
  - by apply attributed_erase.
  - by apply attributed_erase.
Qed.

(** A refused publisher changes nothing; an admitted one is registered under the
    incarnation it presents. *)
Lemma admit_publisher_spec stamp im o im' :
  admit_publisher stamp im = (o, im') -> evidence_inv im ->
  publication_frame im im' /\ evidence_inv im' /\ im_tick im' = im_tick im /\
  match o with
  | Some s => im' = im /\ status_ok s = false
  | None => exists known, im_publishers im' !! es_publisher stamp = Some known /\
              ps_incarnation known = es_publisher_incarnation stamp
  end.
Proof.
  unfold admit_publisher. intros H Hi. destruct (im_publishers im !! es_publisher stamp) as [known|] eqn:Ek.
  - case_bool_decide as Hinc; [by injection H as <- <-; split_and!; [|done|done|by exists known]|].
    destruct (_ <? _); [by injection H as <- <-|]. destruct (_ =? _); [by injection H as <- <-|].
    injection H as <- <-. split_and!; [by split|by apply retire_publisher_inv|done|].
    cbn. rewrite lookup_insert_eq. by eexists.
  - destruct (_ >=? _) eqn:Ef; [by injection H as <- <-|]. injection H as <- <-.
    split_and!; [by split| |done|].
    + destruct Hi as [Hl Hc Hb Hp Hf Hr]. split; cbn; try done.
      * rewrite map_size_insert_None by done. lia.
      * apply attributed_insert; [done|]. intros k b r Hk Hb'. destruct (Hf _ _ _ _ Hk Hb') as (_ & _ & ? & ? & _).
        congruence.
      * apply attributed_insert; [done|]. intros k b r Hk Hb'. destruct (Hr _ _ _ _ Hk Hb') as (_ & _ & ? & ? & _).
        congruence.
    + cbn. rewrite lookup_insert_eq. by eexists.
Qed.

(** The bookkeeping keeps the registry's incarnations. *)
Lemma note_observation_attributed {R} stamp link (t : Table (Retained R)) k st replacing im known :
  im_publishers im !! es_publisher st = Some known ->
  attributed stamp link (im_publishers im) t ->
  attributed stamp link (im_publishers (note_observation k st replacing im)) t.
Proof.
  intros Hk Ha. unfold note_observation. cbn. rewrite Hk. cbn [default]. apply attributed_insert; [done|].
  intros k' b r Hk' Hb. destruct (Ha _ _ _ _ Hk' Hb) as (_ & _ & known' & Hk2 & <-). cbn. congruence.
Qed.

Lemma bucket_insert_size {A} k p x (t : Table A) :
  (table_size (<[k := <[p := x]> (bucket_of k t)]> t) =
   (if has_value (bucket_of k t !! p) then table_size t else S (table_size t)))%nat.
Proof.
  pose proof (table_size_insert t k (<[p := x]> (bucket_of k t))) as H.
  destruct (bucket_of k t !! p) as [y|] eqn:E; cbn [has_value].
  - rewrite map_size_insert_Some in H by (by eexists). lia.
  - rewrite map_size_insert_None in H by done. lia.
Qed.

Lemma bucket_create {A} k (t : Table A) :
  table_size (<[k := bucket_of k t]> t) = table_size t.
Proof. pose proof (table_size_insert t k (bucket_of k t)). lia. Qed.

Lemma attributed_create {R} stamp link pubs (t : Table (Retained R)) k :
  attributed stamp link pubs t -> attributed stamp link pubs (<[k := bucket_of k t]> t).
Proof.
  intros Ha k' b p r. destruct (decide (k' = k)) as [->|Hne].
  - rewrite lookup_insert_eq. intros [= <-]. unfold bucket_of. destruct (t !! k) as [b|] eqn:E; [|done].
    by apply Ha.
  - rewrite lookup_insert_ne by done. apply Ha.
Qed.

(** ** Publication *)
Lemma publication_refused_not_ok im k g t st s : publication_refused im k g t st = Some s -> status_ok s = false.
Proof.
  unfold publication_refused, publication_open. intros H. repeat case_match; simplify_eq; done.
Qed.
Lemma sequence_replayed_not_ok k st im s : sequence_replayed k st im = Some s -> status_ok s = false.
Proof. unfold sequence_replayed. intros H. repeat case_match; simplify_eq; done. Qed.

(** The tables of [im] already hold the new entry, its counter not yet. *)
Lemma note_observation_inv k st (replacing : bool) im known :
  is_u64 (lm_max_evidence_entries (eo_limits (im_options im))) ->
  im_publishers im !! es_publisher st = Some known ->
  im_evidence_entries im + (if replacing then 0 else 1) =
    Z.of_nat (table_size (im_failure_evidence im) + table_size (im_replacement_evidence im)) ->
  im_evidence_entries im + (if replacing then 0 else 1) <=
    lm_max_evidence_entries (eo_limits (im_options im)) ->
  Z.of_nat (size (im_publishers im)) <= Z.max 0 (lm_max_tracked_publishers (eo_limits (im_options im))) ->
  attributed fr_stamp fr_subject (im_publishers im) (im_failure_evidence im) ->
  attributed rr_stamp rr_candidate (im_publishers im) (im_replacement_evidence im) ->
  evidence_inv (note_observation k st replacing im).
Proof.
  intros Hl Hk Hc Hb Hp Hf Hr.
  assert (E : im_evidence_entries (note_observation k st replacing im) =
    im_evidence_entries im + (if replacing then 0 else 1)).
  { cbn. destruct replacing; [lia|]. apply wrap64_small. ints. }
  split; [done| | | | |].
  - by rewrite E.
  - by rewrite E.
  - cbn. by rewrite Hk, map_size_insert_Some.
  - by apply (note_observation_attributed _ _ _ k st replacing im known Hk).
  - by apply (note_observation_attributed _ _ _ k st replacing im known Hk).
Qed.

Lemma set_failure_frame (t : Table RetainedFailureEvidence) im : publication_frame im (set_im_failure_evidence t im).
Proof. by split. Qed.
Lemma set_replacement_frame (t : Table RetainedReplacementEvidence) im : publication_frame im (set_im_replacement_evidence t im).
Proof. by split. Qed.
Lemma note_observation_frame k st b im : publication_frame im (note_observation k st b im).
Proof. by split. Qed.

(** What an accepted observation leaves behind. *)
Definition accepted_under (k : LinkKey) (st : EvidenceStamp) (im : EngineImpl) : Prop :=
  (exists known, im_publishers im !! es_publisher st = Some known /\
     ps_incarnation known = es_publisher_incarnation st) /\
  (exists seqs, im_last_observation_seq im !! k = Some seqs /\
     seqs !! es_publisher st = Some (es_observation_seq st)).

Lemma note_observation_accepted k st b im known :
  im_publishers im !! es_publisher st = Some known ->
  ps_incarnation known = es_publisher_incarnation st -> accepted_under k st (note_observation k st b im).
Proof.
  intros Hk Hi. split.
  - cbn. rewrite lookup_insert_eq, Hk. by eexists.
  - cbn. rewrite lookup_insert_eq. eexists. by rewrite lookup_insert_eq.
Qed.

Lemma publish_failure_cases report im s im' :
  publish_failure_report report im = (s, im') -> evidence_inv im ->
  publication_frame im im' /\ evidence_inv im' /\
  (status_ok s = true -> accepted_under (fr_subject report) (fr_stamp report) im').
Proof.
  unfold publish_failure_report. cbv zeta. intros H Hi. set (k := fr_subject report) in *.
  set (st := fr_stamp report) in *. destruct (publication_refused im k _ _ st) as [s0|] eqn:Hpub.
  { injection H as <- <-. apply publication_refused_not_ok in Hpub. split_and!; [done|done|congruence]. }
  destruct (admit_publisher st (advance_tick im)) as [o im1] eqn:Ea.
  pose proof (admit_publisher_spec _ _ _ _ Ea (advance_tick_inv _ Hi)) as (Hf & Hi1 & _ & Ho).
  assert (Hf1 : publication_frame im im1) by (etrans; [apply advance_tick_frame|exact Hf]).
  destruct o as [s0|]; [injection H as <- <-; destruct Ho as [_ Hn]; split_and!; [done|done|congruence]|].
  destruct Ho as (known & Hk & Hinc). destruct (sequence_replayed k st im1) as [s0|] eqn:Hseq.
  { injection H as <- <-. apply sequence_replayed_not_ok in Hseq. split_and!; [done|done|congruence]. }
  pose proof Hi1 as [Hl Hc Hb Hp Hfa Hra].
  destruct (negb (has_value (bucket_of k (im_failure_evidence im1) !! es_publisher st)) && evidence_full im1)%bool eqn:Efull.
  - injection H as <- <-. split_and!; [etrans; [exact Hf1|apply set_failure_frame]| |done].
    split; cbn; try done; [by rewrite bucket_create|by apply attributed_create].
  - injection H as <- <-. split_and!.
    + do 2 (etrans; [eassumption || apply set_failure_frame|]). apply note_observation_frame.
    + pose proof (bucket_insert_size (A := RetainedFailureEvidence) k (es_publisher st) (retain (encoded_digest report) report im1)
        (im_failure_evidence im1)) as Hsz. unfold evidence_full in Efull.
      apply (note_observation_inv k st _ _ known);
        cbn [im_evidence_entries im_failure_evidence im_replacement_evidence im_publishers im_options
          set_im_failure_evidence]; try done.
      * rewrite Hsz. destruct (has_value _); lia.
      * destruct (has_value _); cbn [negb andb] in Efull; lia.
      * by apply (attributed_file _ _ _ _ _ _ _ known).
    + intros _. by apply (note_observation_accepted k st _ _ known).
Qed.

Lemma publish_replacement_cases report im s im' :
  publish_replacement_report report im = (s, im') -> evidence_inv im ->
  publication_frame im im' /\ evidence_inv im' /\
  (status_ok s = true -> accepted_under (rr_candidate report) (rr_stamp report) im').
Proof.
  unfold publish_replacement_report. cbv zeta. intros H Hi. set (k := rr_candidate report) in *.
  set (st := rr_stamp report) in *. destruct (publication_refused im k _ _ st) as [s0|] eqn:Hpub.
  { injection H as <- <-. apply publication_refused_not_ok in Hpub. split_and!; [done|done|congruence]. }
  destruct (admit_publisher st (advance_tick im)) as [o im1] eqn:Ea.
  pose proof (admit_publisher_spec _ _ _ _ Ea (advance_tick_inv _ Hi)) as (Hf & Hi1 & _ & Ho).
  assert (Hf1 : publication_frame im im1) by (etrans; [apply advance_tick_frame|exact Hf]).
  destruct o as [s0|]; [injection H as <- <-; destruct Ho as [_ Hn]; split_and!; [done|done|congruence]|].
  destruct Ho as (known & Hk & Hinc). destruct (sequence_replayed k st im1) as [s0|] eqn:Hseq.
  { injection H as <- <-. apply sequence_replayed_not_ok in Hseq. split_and!; [done|done|congruence]. }
  pose proof Hi1 as [Hl Hc Hb Hp Hfa Hra].
  destruct (negb (has_value (bucket_of k (im_replacement_evidence im1) !! es_publisher st)) && evidence_full im1)%bool eqn:Efull.
  - injection H as <- <-. split_and!; [etrans; [exact Hf1|apply set_replacement_frame]| |done].
    split; cbn; try done; [by rewrite bucket_create|by apply attributed_create].
  - injection H as <- <-. split_and!.
    + do 2 (etrans; [eassumption || apply set_replacement_frame|]). apply note_observation_frame.
    + pose proof (bucket_insert_size (A := RetainedReplacementEvidence) k (es_publisher st) (retain (encoded_digest report) report im1)
        (im_replacement_evidence im1)) as Hsz. unfold evidence_full in Efull.
      apply (note_observation_inv k st _ _ known);
        cbn [im_evidence_entries im_failure_evidence im_replacement_evidence im_publishers im_options
          set_im_replacement_evidence]; try done.
      * rewrite Hsz. destruct (has_value _); lia.
      * destruct (has_value _); cbn [negb andb] in Efull; lia.
      * by apply (attributed_file _ _ _ _ _ _ _ known).
    + intros _. by apply (note_observation_accepted k st _ _ known).
Qed.

(** C35: the evidence tables stay accounted for. Whatever a publisher sends, the
    entry counter is the number of retained observations and within the limit,
    the registry is within its limit, and every retained observation is filed
    under the publisher and incarnation that made it; nothing durable and no
    decision is touched. *)
Theorem publication_accounting im :
  evidence_inv im ->
  (forall report, let im' := (publish_failure_report report im).2 in
     evidence_inv im' /\ publication_frame im im') /\
  (forall report, let im' := (publish_replacement_report report im).2 in
     evidence_inv im' /\ publication_frame im im').
Proof.
  intros Hi. split; intros report; cbv zeta.
  - destruct (publish_failure_report report im) as [s im'] eqn:E.
    by destruct (publish_failure_cases _ _ _ _ E Hi) as (? & ? & _).
  - destruct (publish_replacement_report report im) as [s im'] eqn:E.
    by destruct (publish_replacement_cases _ _ _ _ E Hi) as (? & ? & _).
Qed.

(** A sequence the publisher already used for the link. *)
Lemma replayed_not_accepted k st st' im :
  accepted_under k st im -> es_publisher st' = es_publisher st ->
  es_publisher_incarnation st' = es_publisher_incarnation st ->
  es_observation_seq st' <= es_observation_seq st ->
  admit_publisher st' (advance_tick im) = (None, advance_tick im) /\
  exists s, sequence_replayed k st' (advance_tick im) = Some s /\ status_outcome s = Outcome.Stale.
Proof.
  intros ((known & Hk & Hi) & (seqs & Hs & Hq)) Hp Hinc Hle. split.
  - unfold admit_publisher. cbn. rewrite Hp, Hk, bool_decide_eq_true_2 by congruence. done.
  - unfold sequence_replayed. cbn. rewrite Hs, Hp, Hq.
    rewrite (proj2 (Z.ltb_ge _ _)) by lia. by eexists.
Qed.

(** an observation cannot be replayed. Once a report was accepted, another
    report about the same link from the same publisher incarnation whose sequence
    does not advance is not accepted and leaves the evidence as it is. *)
Theorem observation_replay_refused report report' im im' :
  evidence_inv im -> publish_failure_report report im = (status_success, im') ->
  fr_subject report' = fr_subject report ->
  es_publisher (fr_stamp report') = es_publisher (fr_stamp report) ->
  es_publisher_incarnation (fr_stamp report') = es_publisher_incarnation (fr_stamp report) ->
  es_observation_seq (fr_stamp report') <= es_observation_seq (fr_stamp report) ->
  let '(s, im2) := publish_failure_report report' im' in
  status_ok s = false /\ (im2 = im' \/ im2 = advance_tick im').
Proof.
  intros Hi E Hk Hp Hinc Hle. destruct (publish_failure_cases _ _ _ _ E Hi) as (_ & _ & Hacc).
  specialize (Hacc eq_refl). rewrite <- Hk in Hacc.
  destruct (replayed_not_accepted _ _ _ _ Hacc Hp Hinc Hle) as (Ha & s & Hs & Hst).
  unfold publish_failure_report. cbv zeta. destruct (publication_refused im' _ _ _ _) as [s0|] eqn:Hr.
  - apply publication_refused_not_ok in Hr. split; [done|by left].
  - rewrite Ha, Hs. apply sequence_replayed_not_ok in Hs. split; [done|by right].
Qed.

(** ** Failure evidence *)
(** An observation that counts: from the registered incarnation, about these
    generations, fresh, confident enough and not Unknown. *)
Definition observation_counts (im : EngineImpl) (policy : FailoverPolicy) (generation topology : Z)
    (e : string * RetainedFailureEvidence) : bool :=
  let report := re_report e.2 in
  (publisher_current im e.1 (fr_stamp report) && (fr_link_generation report =? generation) &&
   (fr_topology_generation report =? topology) &&
   enum_eqb (receipt_class im policy e.2).1 FreshnessClass.Current &&
   (fp_min_failure_confidence policy <=? fr_confidence report) &&
   negb (enum_eqb (fr_state report) ObservationState.Unknown))%bool.
Definition observation_fails (im : EngineImpl) (policy : FailoverPolicy) (generation topology : Z)
    (e : string * RetainedFailureEvidence) : bool :=
  (observation_counts im policy generation topology e &&
   observation_state_is_failure (fr_state (re_report e.2)) (fp_treat_degraded_as_failed policy))%bool.

Definition count_if {A} (p : A -> bool) (l : list A) : nat := length (List.filter p l).
Lemma count_if_app {A} (p : A -> bool) l1 l2 : count_if p (l1 ++ l2) = (count_if p l1 + count_if p l2)%nat.
Proof. unfold count_if. by rewrite List.filter_app, length_app. Qed.
#[global] Instance count_if_perm {A} (p : A -> bool) : Proper ((≡ₚ) ==> (=)) (count_if p).
Proof.
  intros l1 l2 H. unfold count_if. induction H as [|x l1 l2 _ IH|x y l|]; cbn; [done| | |congruence].
  - by destruct (p x); cbn; rewrite IH.
  - by destruct (p x), (p y).
Qed.

Section tally.
Context (im : EngineImpl) (policy : FailoverPolicy) (generation topology : Z).
Abbreviation counts := (observation_counts im policy generation topology).
Abbreviation fails := (observation_fails im policy generation topology).
Abbreviation step := (tally_entry im policy generation topology).

Lemma tally_entry_spec t e :
  ty_qualified (step t e) = (ty_qualified t + if counts e then 1 else 0)%nat /\
  ty_failures (step t e) = (ty_failures t + if fails e then 1 else 0)%nat /\
  ty_best (step t e) =
    (if (fails e && failure_better e.2 (receipt_class im policy e.2).2 e.1 (ty_best t))%bool
     then Some (e.2, (receipt_class im policy e.2).2) else ty_best t).
Proof.
  destruct e as [p r]. unfold tally_entry, observation_fails, observation_counts. cbn [fst snd].
  destruct (publisher_current _ _ _); cbn [andb negb]; [|cbn; split_and!; [lia|lia|done]].
  destruct (fr_link_generation _ =? _); cbn [andb negb orb]; [|cbn; split_and!; [lia|lia|done]].
  destruct (fr_topology_generation _ =? _); cbn [andb negb orb]; [|cbn; split_and!; [lia|lia|done]].
  destruct (receipt_class im policy r) as [f age]. cbn [fst snd].
  destruct (enum_eqb f _); cbn [andb negb]; [|cbn; split_and!; [lia|lia|done]].
  rewrite Z.ltb_antisym. destruct (_ <=? _); cbn [andb negb]; [|cbn; split_and!; [lia|lia|done]].
  destruct (enum_eqb _ ObservationState.Unknown); cbn [andb negb]; [cbn; split_and!; [lia|lia|done]|].
  destruct (observation_state_is_failure _ _); cbn; split_and!; try lia; done.
Qed.

(** What the loop has established after the entries [l]. *)
Definition tally_of (l : list (string * RetainedFailureEvidence)) (t : FailureTally) : Prop :=
  ty_qualified t = count_if counts l /\ ty_failures t = count_if fails l /\
  match ty_best t with
  | None => count_if fails l = 0%nat
  | Some (b, age) => exists p, (p, b) ∈ l /\ fails (p, b) = true /\ age = (receipt_class im policy b).2 /\
      forall e, e ∈ l -> fails e = true -> fr_confidence (re_report e.2) <= fr_confidence (re_report b)
  end.

Lemma outranks_confidence c a p c' a' p' : outranks c a p c' a' p' = true -> c' <= c.
Proof. unfold outranks. intros [H|H]%orb_true_iff; bool_prop; lia. Qed.
Lemma not_outranks_confidence c a p c' a' p' : outranks c a p c' a' p' = false -> c <= c'.
Proof. unfold outranks. intros [H _]%orb_false_iff. lia. Qed.

Lemma count_if_0 {A} (p : A -> bool) l : count_if p l = 0%nat -> forall x, x ∈ l -> p x = false.
Proof.
  unfold count_if. intros H%length_zero_iff_nil x Hx. destruct (p x) eqn:E; [|done].
  assert (Hin : In x (List.filter p l)) by (apply filter_In; split; [by apply list_elem_of_In|done]).
  by rewrite H in Hin.
Qed.

Lemma tally_foldl l : tally_of l (foldl step tally_none l).
Proof.
  induction l as [|e l IH] using rev_ind; [done|]. rewrite foldl_app. cbn [foldl].
  set (t := foldl step tally_none l) in *. destruct IH as (Hq & Hf & Hb).
  destruct (tally_entry_spec t e) as (Eq & Ef & Eb). unfold tally_of. rewrite Eq, Ef, Eb, Hq, Hf, !count_if_app.
  split; [unfold count_if; cbn; by destruct (counts e)|]. split; [unfold count_if; cbn; by destruct (fails e)|].
  destruct (fails e) eqn:He; cbn [andb].
  - destruct (failure_better e.2 _ e.1 (ty_best t)) eqn:Hbt; destruct (ty_best t) as [[b age]|]; try done.
    + destruct Hb as (p & Hin & Hfp & Hage & Hmax). exists e.1. split; [|split; [by destruct e|split; [done|]]].
      { apply elem_of_app; right. destruct e; constructor. }
      intros e' [He'|He'%list_elem_of_singleton]%elem_of_app Hf'; [|by subst].
      apply outranks_confidence in Hbt. specialize (Hmax _ He' Hf'). lia.
    + exists e.1. split; [|split; [by destruct e|split; [done|]]].
      { apply elem_of_app; right. destruct e; constructor. }
      intros e' [He'|He'%list_elem_of_singleton]%elem_of_app Hf'; [|by subst].
      by rewrite (count_if_0 _ _ Hb _ He') in Hf'.
    + destruct Hb as (p & Hin & Hfp & Hage & Hmax). exists p. split; [by apply elem_of_app; left|].
      split; [done|split; [done|]].
      intros e' [He'|He'%list_elem_of_singleton]%elem_of_app Hf'; [by apply Hmax|subst].
      by apply not_outranks_confidence in Hbt.
  - destruct (ty_best t) as [[b age]|].
    + destruct Hb as (p & Hin & Hfp & Hage & Hmax). exists p. split; [by apply elem_of_app; left|].
      split; [done|split; [done|]].
      intros e' [He'|He'%list_elem_of_singleton]%elem_of_app Hf'; [by apply Hmax|congruence].
    + unfold count_if in *. cbn. rewrite He. cbn. lia.
Qed.
End tally.

(** The rule the policy sets on the counts. *)
Definition agreement_holds (policy : FailoverPolicy) (failing counting : nat) : Prop :=
  match fp_agreement policy with
  | AgreementRule.Unanimous => (0 < counting)%nat /\ failing = counting
  | _ => (counting < failing * 2)%nat
  end.

(** The retained observations of a link. *)
Definition observations (im : EngineImpl) (subject : LinkKey) : list (string * RetainedFailureEvidence) :=
  map_to_list (bucket_of subject (im_failure_evidence im)).

Lemma map_entries_perm {A} (m : gmap string A) : map_entries m ≡ₚ map_to_list m.
Proof. apply std_sort_perm. Qed.

Lemma agreement_established_iff policy t : ty_qualified t <> 0%nat ->
  agreement_established policy t = true <-> agreement_holds policy (ty_failures t) (ty_qualified t).
Proof.
  intros Hq. unfold agreement_established, agreement_holds. destruct (fp_agreement policy).
  - rewrite Nat.eqb_eq. split; [intros H; split; [lia|done]|by intros []].
  - apply Nat.ltb_lt.
Qed.

Lemma agreement_failing policy failing counting : agreement_holds policy failing counting -> failing <> 0%nat.
Proof. unfold agreement_holds. destruct (fp_agreement policy); lia. Qed.

(** The verdict, by the number of observations that count and that fail. *)
Definition verdict_spec (policy : FailoverPolicy) (failing counting : nat) (v : FailureVerdict) : Prop :=
  (fv_established v = true <-> agreement_holds policy failing counting) /\
  (fv_outcome v = Outcome.Ok <-> agreement_holds policy failing counting) /\
  (fv_outcome v = Outcome.Unknown <-> counting = 0%nat) /\
  (fv_outcome v = Outcome.Indeterminate <->
     counting <> 0%nat /\ ~ agreement_holds policy failing counting /\
     match fp_agreement policy with
     | AgreementRule.Unanimous => failing <> 0%nat
     | _ => (failing * 2 = counting)%nat
     end).

Lemma conclude_spec im policy generation topology l t :
  tally_of im policy generation topology l t ->
  verdict_spec policy (count_if (observation_fails im policy generation topology) l)
    (count_if (observation_counts im policy generation topology) l) (conclude policy t) /\
  (fv_established (conclude policy t) = true -> exists p r, (p, r) ∈ l /\
     observation_fails im policy generation topology (p, r) = true /\
     fv_publisher (conclude policy t) = es_publisher (fr_stamp (re_report r)) /\
     fv_publisher_incarnation (conclude policy t) = es_publisher_incarnation (fr_stamp (re_report r)) /\
     fv_publisher_seq (conclude policy t) = es_observation_seq (fr_stamp (re_report r)) /\
     fv_evidence_digest (conclude policy t) = re_digest r /\
     forall e, e ∈ l -> observation_fails im policy generation topology e = true ->
       fr_confidence (re_report e.2) <= fr_confidence (re_report r)).
Proof.
  intros (Hq & Hf & Hb). rewrite <- Hq, <- Hf. unfold conclude.
  destruct (Nat.eqb_spec (ty_qualified t) 0) as [H0|H0].
  { assert (Hno : ~ agreement_holds policy (ty_failures t) (ty_qualified t)).
    { rewrite H0. unfold agreement_holds. pose proof (agreement_failing policy (ty_failures t) 0).
      destruct (fp_agreement policy); [lia|]. intros Hlt. 
      assert (Hle : (count_if (observation_fails im policy generation topology) l <=
        count_if (observation_counts im policy generation topology) l)%nat).
      { clear. unfold count_if, observation_fails. induction l as [|e l IH]; cbn [List.filter]; [done|].
        destruct (observation_counts _ _ _ _ e); cbn [andb]; [|done].
        destruct (observation_state_is_failure _ _); cbn; lia. }
      lia. }
    unfold verdict_unqualified. destruct (List.filter _ _) as [|[[[? ?] ?] ?] ?]; cbn;
      (split; [|done]); split_and!; split; try done; intros [? _]; done. }
  pose proof (agreement_established_iff policy t H0) as Hiff.
  destruct (agreement_established policy t) eqn:Ea.
  - pose proof (proj1 Hiff eq_refl) as Hag. pose proof (agreement_failing _ _ _ Hag) as Hne.
    destruct (ty_best t) as [[b age]|] eqn:Eb; [|lia]. cbn. split.
    + split_and!; split; try done. intros (_ & ? & _). done.
    + intros _. destruct Hb as (p & Hin & Hfp & _ & Hmax). exists p, b. split_and!; try done.
  - assert (Hno : ~ agreement_holds policy (ty_failures t) (ty_qualified t)) by (intros H; by apply Hiff in H).
    split; [|by destruct (agreement_conflict policy t)].
    destruct (agreement_conflict policy t) eqn:Ec; unfold agreement_conflict in Ec; rewrite Ea in Ec;
      cbn [negb andb] in Ec; cbn; split_and!; split; try done.
    + intros _. split; [done|split; [done|]]. revert Ec.
      destruct (fp_agreement policy); rewrite ?Nat.ltb_lt, ?Nat.eqb_eq; lia.
    + intros (_ & _ & H). revert Ec H.
      destruct (fp_agreement policy); rewrite ?Nat.ltb_ge, ?Nat.eqb_neq; lia.
Qed.

(** C34: the failure verdict follows the evidence and nothing else. A failure is
    established exactly when, among the retained observations of the link that are
    from registered incarnations, about the asked generations, fresh, confident and
    not Unknown, those reporting a failure satisfy the agreement rule of the
    policy; without any such observation the answer is Unknown, under contradiction
    Indeterminate. The observation the verdict names is one of the failing ones and
    the most confident. *)
Theorem evaluate_failure_correct im subject generation policy topology :
  let v := evaluate_failure im subject generation policy topology in
  let l := observations im subject in
  verdict_spec policy (count_if (observation_fails im policy generation topology) l)
    (count_if (observation_counts im policy generation topology) l) v /\
  (fv_established v = true -> exists p r, (p, r) ∈ l /\
     observation_fails im policy generation topology (p, r) = true /\
     fv_publisher v = es_publisher (fr_stamp (re_report r)) /\
     fv_publisher_incarnation v = es_publisher_incarnation (fr_stamp (re_report r)) /\
     fv_publisher_seq v = es_observation_seq (fr_stamp (re_report r)) /\
     fv_evidence_digest v = re_digest r /\
     forall e, e ∈ l -> observation_fails im policy generation topology e = true ->
       fr_confidence (re_report e.2) <= fr_confidence (re_report r)).
Proof.
  cbv zeta. unfold evaluate_failure, observations, bucket_of.
  assert (Hempty : verdict_spec policy 0 0 (verdict_of Outcome.Unknown ReasonCode.EvidenceMissing
    "no failure observation has been published for this link" [])).
  { unfold verdict_spec, agreement_holds. cbn. destruct (fp_agreement policy); split_and!; split; try done; try lia;
      by intros (? & _). }
  destruct (im_failure_evidence im !! subject) as [b|]; [|by split].
  cbn [default]. destruct (Nat.eqb_spec (size b) 0) as [H0|H0].
  { apply map_size_empty_inv in H0. subst b. by split. }
  pose proof (conclude_spec _ _ _ _ _ _ (tally_foldl im policy generation topology (map_entries b))) as H.
  fold (tally_bucket im b policy generation topology) in H.
  rewrite !map_entries_perm in H. setoid_rewrite map_entries_perm in H. exact H.
Qed.

(** ** Candidate resolution *)
Lemma elem_of_map_entries {A} (m : gmap string A) p x : (p, x) ∈ map_entries m <-> m !! p = Some x.
Proof. rewrite map_entries_perm. apply elem_of_map_to_list. Qed.

Lemma pick_entry_sound im generation l p r age :
  foldl (pick_entry im generation) None l = Some (p, r, age) ->
  (p, r) ∈ l /\ entry_bound im generation p r = true.
Proof.
  revert p r age. induction l as [|[p0 r0] l IH] using rev_ind; intros p r age; [done|].
  rewrite foldl_app. cbn [foldl]. set (best := foldl _ None l) in *. unfold pick_entry.
  assert (Hold : best = Some (p, r, age) -> (p, r) ∈ l ++ [(p0, r0)] /\ entry_bound im generation p r = true).
  { intros H. destruct (IH _ _ _ H). split; [by apply elem_of_app; left|done]. }
  destruct (entry_bound im generation p0 r0) eqn:Eb; cbn [negb]; [|exact Hold].
  assert (Hnew : Some (p0, r0, (receipt_class im (ds_policy (engine_state im)) r0).2) = Some (p, r, age) ->
    (p, r) ∈ l ++ [(p0, r0)] /\ entry_bound im generation p r = true).
  { intros [= <- <- _]. split; [apply elem_of_app; right; constructor|done]. }
  destruct best as [[[pb b] ageb]|]; [|exact Hnew].
  destruct (negb (entry_qualified im r0)); [exact Hold|]. by destruct (outranks _ _ _ _ _ _).
Qed.

(** The observation a resolution rests on, and when it is contradicted. *)
Record resolution_evidence (im : EngineImpl) (c : ReplacementCandidate) (r : ResolvedCandidate)
    (definition : LinkDefinition) (bucket : gmap string RetainedReplacementEvidence)
    (p : string) (retained : RetainedReplacementEvidence) : Prop := {
  rv_defined : topology_find (ds_topology (engine_state im)) (rc_candidate c) = Some definition;
  rv_generation : rs_link_generation r = ld_generation definition;
  rv_bucket : im_replacement_evidence im !! rc_candidate c = Some bucket;
  rv_entry : bucket !! p = Some retained;
  rv_bound : entry_bound im (ld_generation definition) p retained = true;
  rv_report : rs_report r = re_report retained;
  rv_digest : rs_evidence_digest r = re_digest retained;
  rv_fresh : (rs_freshness r, rs_age_ticks r) = receipt_class im (ds_policy (engine_state im)) retained;
  rv_conflict : rs_conflicted r = true <-> exists p' retained', p' <> p /\ bucket !! p' = Some retained' /\
    entry_bound im (ld_generation definition) p' retained' = true /\
    entry_qualified im retained' = true /\ rr_state (re_report retained') <> rr_state (re_report retained);
}.

Lemma contradicts_iff im generation chosen state bucket :
  existsb (contradicts im generation chosen state) (map_entries bucket) = true <->
  exists p' retained', p' <> chosen /\ bucket !! p' = Some retained' /\
    entry_bound im generation p' retained' = true /\ entry_qualified im retained' = true /\
    rr_state (re_report retained') <> state.
Proof.
  rewrite existsb_exists. split.
  - intros ([p' r'] & Hin%list_elem_of_In & H). exists p', r'. apply elem_of_map_entries in Hin.
    unfold contradicts in H. bool_prop. split_and!; try done. intros E%enum_eqb_eq.
    congruence.
  - intros (p' & r' & Hne & Hb & H1 & H2 & H3). exists (p', r').
    split; [by apply list_elem_of_In, elem_of_map_entries|]. unfold contradicts.
    rewrite bool_decide_eq_false_2, H1, H2 by done. cbn. apply negb_true_iff.
    destruct (enum_eqb _ _) eqn:E; [|done]. by apply enum_eqb_eq in E.
Qed.

(** a resolved candidate rests on evidence. Present evidence is an observation
    retained for that very link, from a registered publisher incarnation, about
    the generation of its current definition and the current topology generation;
    freshness and age are those of its receipt; and the candidate is marked
    conflicted exactly when another such observation that is fresh and confident
    reports a different state. *)
Theorem resolve_candidate_sound im c :
  let r := resolve_candidate im c in
  rs_candidate r = rc_candidate c /\
  (rs_generation_asserted r = true <-> rc_expected_generation c <> 0) /\
  (rs_evidence_present r = true -> exists definition bucket p retained,
     resolution_evidence im c r definition bucket p retained /\
     (rs_generation_matched r = true <-> rc_expected_generation c = 0 \/
        rc_expected_generation c = ld_generation definition)).
Proof.
  cbv zeta. unfold resolve_candidate. cbv zeta.
  assert (Has : negb (rc_expected_generation c =? 0) = true <-> rc_expected_generation c <> 0).
  { rewrite negb_true_iff. apply Z.eqb_neq. }
  destruct (topology_find _ _) as [def|] eqn:Ht; [|by split_and!].
  destruct (im_replacement_evidence im !! rc_candidate c) as [bucket|] eqn:Hb; [|by split_and!].
  destruct (foldl _ None (map_entries bucket)) as [[[p best] age]|] eqn:Ef; [|by split_and!].
  apply pick_entry_sound in Ef as [Hin Hbd]. apply elem_of_map_entries in Hin.
  destruct (receipt_class im _ best) as [fresh age'] eqn:Ec. split_and!; [done|done|].
  intros _. exists def, bucket, p, best. split; [|cbn; rewrite negb_involutive; lia].
  split; cbn; try done. apply contradicts_iff.
Qed.
