(* ===== verification/Engine.v ===== *)
(** * Engine: operations

    Models the rest of src/engine.cpp: the lifetime of the engine, the definition
    changes with the fence over live authority, the failover decision and the
    operations on an attempt (application, verification, rollback, revalidation),
    the applier boundary and the inspection. Every public operation holds the
    engine's mutex for its whole body, so an operation is one step on
    [EngineImpl]; an interleaving of clients is a sequence of such steps.
    [Engine::request_failover] is split into its stages in the order of the code. *)
From S2P Require Import Prelude Status Hash Ids Bytes Evidence Policy Authority Attempt Decision.
From S2P Require Import Selector Fs Journal State Store Intake.

(** ** The engine monad *)
Definition EngM (A : Type) : Type := EngineImpl -> IoM (A * EngineImpl).
Definition eret {A} (x : A) : EngM A := fun im => ioret (x, im).
Definition ebind {A B} (m : EngM A) (k : A -> EngM B) : EngM B := fun im =>
  io* r := m im in k r.1 r.2.
Notation "'eng*' x := m 'in' k" := (ebind m (fun x => k))
  (at level 10, x name, m at level 100, k at level 200) : lff_scope.
Definition eget : EngM EngineImpl := fun im => ioret (im, im).
Definition emodify (f : EngineImpl -> EngineImpl) : EngM unit := fun im => ioret (tt, f im).

(** ** Commits *)
(** [store.commit] followed by [store_failed = true] when it is refused. *)
Definition engine_commit (type : RecordType) (payload : bytes)
    (apply : LineageSeq -> Lineage -> Lineage) : EngM Status := fun im =>
  io* r := store_commit (im_store im) type payload apply in
  let im := set_im_store r.2 im in
  ioret (r.1, if status_ok r.1 then im else set_im_store_failed true im).

Definition commit_create (record : AttemptRecord) : EngM Status :=
  engine_commit RecordType.AttemptCreate (encode_attempt_payload record)
    (fun seq l => note_attempt (set_at_update_seq seq (set_at_create_seq seq record)) l).
Definition commit_update (type : RecordType) (record : AttemptRecord) : EngM Status :=
  engine_commit type (encode_attempt_payload record)
    (fun seq l => note_attempt (set_at_update_seq seq record) l).
Definition commit_fence (fence : FenceRecord) : EngM Status :=
  engine_commit RecordType.Fence (encode_fence_payload fence)
    (fun seq l => note_fence (set_fe_seq seq fence) l).

(** [reasons.emplace_back(...)] and the erasure of the oldest beyond the bound. *)
Definition push_reason (code : ReasonCode) (detail : string) (record : AttemptRecord) : AttemptRecord :=
  let reasons := at_reasons record ++ [reason code detail] in
  set_at_reasons (if Z.of_nat (length reasons) >? kMaxAttemptReasons then drop 1 reasons else reasons)
    record.

(** ** Decisions *)
Definition current_authority (im : EngineImpl) (subject : LinkKey) (generation : LinkGeneration) :
    AuthorityVector :=
  let st := engine_state im in
  MkAuthority (eo_fabric (im_options im)) subject generation link_key_none 0
    (ts_generation (ds_topology st)) (topology_digest (ds_topology st))
    (fp_generation (ds_policy st)) (policy_digest (ds_policy st)) (im_epoch im) (im_incarnation im)
    EmptyString incarnation_zero 0 incarnation_zero 0 digest_zero.

Definition base_decision (im : EngineImpl) (subject : LinkKey) (generation : LinkGeneration) :
    FailoverDecision :=
  set_fd_coordinator (im_incarnation im) (set_fd_epoch (im_epoch im)
    (set_fd_subject_generation generation (set_fd_subject subject
      (set_fd_fabric (eo_fabric (im_options im)) decision_none)))).

(** The log is a bounded queue: while it is too long its front goes. *)
Definition remember_decision (d : FailoverDecision) : EngM unit := emodify (fun im =>
  let log := im_decisions im ++ [d] in
  set_im_decisions (drop (length log - lm_max_retained_decisions (eo_limits (im_options im))) log) im).

Definition add_reason (code : ReasonCode) (detail : string) (d : FailoverDecision) : FailoverDecision :=
  set_fd_reasons (fd_reasons d ++ [reason code detail]) d.

(** The callback stores the sequence it is given, which is the one the commit
    then records as the last. The boolean result is ignored by every caller. *)
Definition commit_decision (d : FailoverDecision) : EngM FailoverDecision :=
  eng* status := engine_commit RecordType.DecisionCommit (encode_decision_payload d) (fun _ l => l) in
  eng* im := eget in
  eret (if status_ok status
        then let d := set_fd_durable true (set_fd_lineage_seq (ds_last_seq (engine_state im)) d) in
             set_fd_decision_id (decision_compute_id d) d
        else add_reason ReasonCode.InternalError "decision could not be recorded"
               (set_fd_durable false d)).

Definition idempotency_of (key : Digest) (d : FailoverDecision) : IdempotencyEntry :=
  MkIdempotency key (fd_decision_id d) (fd_kind d) (fd_assertion d) (fd_outcome d) (fd_subject d)
    (fd_subject_generation d) (fd_has_replacement d) (fd_replacement d)
    (fd_replacement_generation d) (fd_attempt_seq d) (fd_lineage_seq d) (fd_reasons d).

Definition commit_idempotency (d : FailoverDecision) (key : Digest) : EngM unit :=
  if (digest_is_zero key || negb (fd_durable d))%bool then eret tt
  else
    let entry := idempotency_of key d in
    let payload := encode_idempotency_payload entry in
    if Z.of_nat (length payload) >? kMaxIdempotencyDecisionBytes then eret tt
    else eng* _ := engine_commit RecordType.IdempotencyIndex payload
                     (fun _ l => note_idempotency entry l) in eret tt.

(** [store.checkpoint] with [store_failed] set when it fails. *)
Definition run_checkpoint : EngM (Result LineageSeq) := fun im =>
  io* r := store_checkpoint (im_store im) in
  let im := set_im_store r.2 im in
  ioret (r.1, if result_ok r.1 then im else set_im_store_failed true im).

Definition checkpoint_due (im : EngineImpl) : bool :=
  let every := eo_snapshot_every_records (im_options im) in
  (eo_enable_snapshot (im_options im) && negb (every =? 0) &&
   negb (ds_record_count (engine_state im) =? 0) &&
   negb (store_records_since_snapshot (im_store im) <? every))%bool.
Definition maybe_checkpoint : EngM unit :=
  eng* im := eget in
  if checkpoint_due im then eng* _ := run_checkpoint in eret tt else eret tt.

Definition replay_decision (im : EngineImpl) (e : IdempotencyEntry) : FailoverDecision :=
  let b := base_decision im (ie_subject e) (ie_subject_generation e) in
  add_reason ReasonCode.IdempotentReplay "the original decision is returned; no new authority"
    (MkDecision (ie_decision_id e) (ie_kind e) (ie_assertion e) (ie_outcome e) (fd_fabric b)
      (fd_subject b) (fd_subject_generation b) (ie_has_replacement e) (ie_replacement e)
      (ie_replacement_generation e) (ie_attempt_seq e) (fd_attempt_id b) (fd_epoch b)
      (fd_coordinator b) (fd_authority b) (fd_evidence_digest b) (ie_seq e) true true
      (ie_reasons e) (fd_candidates b)).

(** The [settle_undurable] lambdas and [settle(false)]. *)
Definition settle_undurable (d : FailoverDecision) : EngM (Result FailoverDecision) :=
  let d := set_fd_durable false d in
  let d := set_fd_decision_id (decision_compute_id d) d in
  eng* _ := remember_decision d in eret (Success d).

(** The tail of a grant, and [settle(true)]. *)
Definition settle_durable (d : FailoverDecision) (key : Digest) : EngM (Result FailoverDecision) :=
  eng* d := commit_decision d in
  eng* _ := commit_idempotency d key in
  eng* _ := maybe_checkpoint in
  eng* _ := remember_decision d in eret (Success d).

Definition settle (d : FailoverDecision) (key : Digest) (durable_allowed : bool) :
    EngM (Result FailoverDecision) :=
  if durable_allowed then settle_durable d key else settle_undurable d.

(** ** Lifetime *)
Definition store_options_of (o : EngineOptions) : StoreOptions :=
  MkStoreOptions (eo_state_dir o) (eo_fabric o) (eo_policy o) (eo_topology o)
    (lm_max_attempts (eo_limits o)) (lm_max_fences (eo_limits o)) (lm_max_idempotency (eo_limits o))
    (eo_snapshot_every_records o) (eo_enable_snapshot o) (eo_repair_torn_tail o).

Definition engine_initial (o : EngineOptions) (store : LineageStore) (incarnation : Incarnation)
    (epoch : Epoch) : EngineImpl :=
  MkEngine o store incarnation epoch 0 [] ∅ ∅ ∅ ∅ 0 false false.

Definition open_refused (o : EngineOptions) : option Status :=
  let p := policy_validate (eo_policy o) in
  if negb (status_ok p) then Some p
  else let t := topology_validate (eo_topology o) in
  if negb (status_ok t) then Some t
  else if string_empty (eo_fabric o)
  then Some (status_failure Outcome.Invalid ReasonCode.UnknownFabric "engine fabric name must be set")
  else if ts_generation (eo_topology o) =? 0
  then Some (status_failure Outcome.Invalid ReasonCode.InvalidArgument
              "topology generation must be non-zero")
  else None.

(** The boot record of this incarnation, or why the counters do not allow one. *)
Definition boot_payload (st : DurableState) (incarnation : Incarnation)
    (toolchain architecture : string) : Result BootPayload :=
  match checked_add_u64 (ds_epoch st) 1 with
  | None => fail Outcome.Exhausted ReasonCode.CheckedArithmeticOverflow
              "coordinator epoch space is exhausted"
  | Some epoch =>
      match checked_add_u64 (ds_boot_count st) 1, checked_add_u64 (ds_epoch_advances st) 1 with
      | Some boots, Some advances =>
          Success (MkBoot epoch incarnation boots advances toolchain architecture)
      | _, _ => fail Outcome.Exhausted ReasonCode.CheckedArithmeticOverflow
                  "boot counter space is exhausted"
      end
  end.

(** From an open store: boot record, then the restart fence. *)
Definition engine_boot (o : EngineOptions) (s : StoreImpl) (boot : BootPayload) : IoM (Result EngineImpl) :=
  io* booted := store_commit (Some s) RecordType.Boot (encode_boot_payload boot)
    (fun _ l => note_epoch (bp_epoch boot) (bp_coordinator boot) (bp_boot_count boot)
                  (bp_epoch_advances boot) l) in
  if negb (status_ok booted.1) then ioret (Failure booted.1)
  else io* fenced := fence_restart_authority booted.2 (bp_epoch boot) (bp_coordinator boot) in
  ioret (match fenced.1 with
         | Failure s => Failure s
         | Success _ => Success (engine_initial o fenced.2 (bp_coordinator boot) (bp_epoch boot))
         end).

(** [Engine::open]; the incarnation drawn by [Incarnation::generate] and the build
    strings are arguments. *)
Definition engine_open (o : EngineOptions) (incarnation : Incarnation) (toolchain architecture : string) :
    IoM (Result EngineImpl) :=
  match open_refused o with
  | Some s => ioret (Failure s)
  | None =>
      io* opened := store_open (store_options_of o) in
      match opened with
      | Failure s => ioret (Failure s)
      | Success s =>
          match boot_payload (sm_state s) incarnation toolchain architecture with
          | Failure e => ioret (Failure e)
          | Success boot => engine_boot o s boot
          end
      end
  end.

Definition shutdown_payload (im : EngineImpl) : bytes :=
  wr_buf (writes [wr_u16 kIdentityFormatVersion; wr_u64 (im_epoch im); wr_incarnation (im_incarnation im);
    wr_u64 (ds_last_seq (engine_state im))] writer_empty).

(** [Engine::close]; unlike the other operations it leaves [store_failed] alone
    when the shutdown record is refused. *)
Definition engine_close : EngM Status := fun im =>
  if im_closed im then ioret (status_success, im)
  else
    let im := set_im_closed true im in
    io* shutdown := store_commit (im_store im) RecordType.Shutdown (shutdown_payload im) (fun _ l => l) in
    let im := set_im_store shutdown.2 im in
    io* im := (if (status_ok shutdown.1 && eo_enable_snapshot (im_options im))%bool
               then io* r := run_checkpoint im in ioret r.2 else ioret im) in
    ioret (shutdown.1, set_im_store (store_close (im_store im)) im).

Definition engine_checkpoint : EngM Status :=
  eng* im := eget in
  if im_closed im
  then eret (status_failure Outcome.Closed ReasonCode.Shutdown "engine is shutting down")
  else eng* r := run_checkpoint in
  eret (match r with Success _ => status_success | Failure s => s end).

(** ** Definition changes *)
Definition authority_fence (im : EngineImpl) (kind : FenceKind) (detail : string)
    (record : AttemptRecord) : FenceRecord :=
  MkFence kind (at_subject record) (at_subject_generation record) (at_attempt_seq record)
    (im_epoch im) (im_incarnation im) 0 detail.

(** The loop of [fence_active_authorities] over its copy of the attempts. *)
Fixpoint fence_authorities (kind : FenceKind) (detail : string) (records : list AttemptRecord) : EngM Status :=
  match records with
  | [] => eret status_success
  | record :: rest =>
      if negb (attempt_phase_holds_authority (at_phase record)) then fence_authorities kind detail rest
      else
        eng* applied := commit_update RecordType.AttemptUpdate
          (push_reason ReasonCode.Fenced detail (set_at_phase AttemptPhase.Aborted record)) in
        if negb (status_ok applied) then eret applied
        else eng* im := eget in
        eng* fenced := commit_fence (authority_fence im kind detail record) in
        if negb (status_ok fenced) then eret fenced
        else fence_authorities kind detail rest
  end.
Definition fence_active_authorities (kind : FenceKind) (detail : string) : EngM Status :=
  eng* im := eget in fence_authorities kind detail (ds_attempts (engine_state im)).

Definition set_policy (policy : FailoverPolicy) : EngM Status :=
  eng* im := eget in
  if im_closed im
  then eret (status_failure Outcome.Closed ReasonCode.Shutdown "engine is shutting down")
  else let valid := policy_validate policy in
  if negb (status_ok valid) then eret valid
  else let current := ds_policy (engine_state im) in
  if fp_generation policy <? fp_generation current
  then eret (status_add (status_failure Outcome.Stale ReasonCode.PolicyGenerationMismatch
         "policy generation regresses") ReasonCode.SequenceRegression
         (decimal_text (fp_generation policy)))
  else if fp_generation policy =? fp_generation current
  then eret (if bool_decide (policy_digest policy = policy_digest current) then status_success
             else status_failure Outcome.Conflict ReasonCode.PolicyGenerationMismatch
                    "same policy generation with different content")
  else eng* committed := engine_commit RecordType.PolicyCommit (encode_policy_payload policy)
         (fun _ l => set_ln_state (set_ds_policy policy (ln_state l)) l) in
  if negb (status_ok committed) then eret committed
  else fence_active_authorities FenceKind.PolicyChanged "policy generation changed".

Definition set_topology (topology : TopologySnapshot) : EngM Status :=
  eng* im := eget in
  if im_closed im
  then eret (status_failure Outcome.Closed ReasonCode.Shutdown "engine is shutting down")
  else let candidate := topology_canonicalise topology in
  let valid := topology_validate candidate in
  if negb (status_ok valid) then eret valid
  else let current := ds_topology (engine_state im) in
  if ts_generation candidate <? ts_generation current
  then eret (status_add (status_failure Outcome.Stale ReasonCode.TopologyGenerationMismatch
         "topology generation regresses") ReasonCode.SequenceRegression
         (decimal_text (ts_generation candidate)))
  else if ts_generation candidate =? ts_generation current
  then eret (if bool_decide (topology_digest candidate = topology_digest current) then status_success
             else status_failure Outcome.Conflict ReasonCode.TopologyGenerationMismatch
                    "same topology generation with different content")
  else eng* committed := engine_commit RecordType.TopologyCommit (encode_topology_payload candidate)
         (fun _ l => set_ln_state (set_ds_topology candidate (ln_state l)) l) in
  if negb (status_ok committed) then eret committed
  else fence_active_authorities FenceKind.TopologyChanged "topology generation changed".

(** ** Failover *)
(** The guards every decision operation starts with. *)
Definition unavailable (im : EngineImpl) : option Status := publication_open im.

(** The candidate list: known fabric, not the subject, no duplicate. *)
Fixpoint candidates_refused (fabric : string) (subject : LinkKey) (seen : list LinkKey)
    (candidates : list ReplacementCandidate) : option Status :=
  match candidates with
  | [] => None
  | c :: rest =>
      let key := rc_candidate c in
      if negb (bool_decide (lk_fabric key = fabric))
      then Some (status_failure Outcome.NotFound ReasonCode.UnknownFabric
                  "candidate names an unknown fabric")
      else if bool_decide (key = subject)
      then Some (status_failure Outcome.Invalid ReasonCode.ReplacementIsSubject
                  "a link cannot be its own replacement")
      else if bool_decide (key ∈ seen)
      then Some (status_failure Outcome.Invalid ReasonCode.InvalidArgument
                  "candidate set contains a duplicate link")
      else candidates_refused fabric subject (seen ++ [key]) rest
  end.

(** Structural validation of the request. *)
Definition request_refused (im : EngineImpl) (q : FailoverRequest) : option Status :=
  let fabric := eo_fabric (im_options im) in
  let count := Z.of_nat (length (fq_candidates q)) in
  if negb (bool_decide (lk_fabric (fq_subject q) = fabric))
  then Some (status_failure Outcome.NotFound ReasonCode.UnknownFabric "request names an unknown fabric")
  else if string_empty (lk_link (fq_subject q))
  then Some (status_failure Outcome.Invalid ReasonCode.NullField "request must name a subject link")
  else if fq_subject_generation q =? 0
  then Some (status_failure Outcome.Invalid ReasonCode.UnknownGeneration
              "request must bind the subject link generation")
  else if ((count >? lm_max_candidates_per_request (eo_limits (im_options im))) ||
           (count >? fp_max_candidates (ds_policy (engine_state im))))%bool
  then Some (status_failure Outcome.LimitExceeded ReasonCode.LimitExceeded
              "candidate set exceeds the configured bound")
  else candidates_refused fabric (fq_subject q) [] (fq_candidates q).

(** Subject binding: the current definition of the subject at the asked generation. *)
Definition bind_subject (im : EngineImpl) (q : FailoverRequest) : Result LinkDefinition :=
  match topology_find (ds_topology (engine_state im)) (fq_subject q) with
  | None => fail Outcome.NotFound ReasonCode.UnknownLink
              "subject link is not present in the current topology"
  | Some d =>
      if negb (ld_generation d =? fq_subject_generation q)
      then fail Outcome.Stale ReasonCode.SubjectGenerationMismatch
             "subject generation is not the current topology generation"
      else Success d
  end.

(** The decision every later stage starts from. *)
Definition failover_decision (im : EngineImpl) (q : FailoverRequest) : FailoverDecision :=
  set_fd_authority (current_authority im (fq_subject q) (fq_subject_generation q))
    (base_decision im (fq_subject q) (fq_subject_generation q)).

Definition add_mismatches (l : list AuthorityMismatch) (d : FailoverDecision) : FailoverDecision :=
  set_fd_reasons (fd_reasons d ++ map (fun m => reason (am_code m) (am_field m)) l) d.
Definition decided (kind : DecisionKind) (assertion : Assertion) (outcome : Outcome)
    (d : FailoverDecision) : FailoverDecision :=
  set_fd_outcome outcome (set_fd_assertion assertion (set_fd_kind kind d)).

(** The gates before the evidence is looked at: expectation, policy switch,
    single winner, interrupted attempt. [Some (decision, durable)] settles there. *)
Definition failover_gate (im : EngineImpl) (q : FailoverRequest) (d : FailoverDecision) :
    option (FailoverDecision * bool) :=
  let st := engine_state im in
  match compare_authority (fq_expected q) (fd_authority d) with
  | _ :: _ as mismatches =>
      Some (add_mismatches mismatches (add_reason ReasonCode.StaleAuthority
        "the request binds authority that is no longer current"
        (decided DecisionKind.Indeterminate Assertion.Observation Outcome.Stale d)), false)
  | [] =>
      if negb (fp_failover_enabled (ds_policy st))
      then Some (add_reason ReasonCode.PolicyDisabled "failover is disabled by policy"
             (decided DecisionKind.Refuse Assertion.Eligibility Outcome.Refused d), false)
      else match active_authority st (fq_subject q) (fq_subject_generation q) with
      | Some active =>
          Some (add_reason ReasonCode.AlreadyAuthoritative
            "another attempt already holds authority for this generation"
            (set_fd_attempt_id (at_attempt_id active) (set_fd_attempt_seq (at_attempt_seq active)
              (decided DecisionKind.Refuse Assertion.Observation Outcome.Conflict d))), false)
      | None =>
          match latest_attempt st (fq_subject q) (fq_subject_generation q) with
          | None => None
          | Some latest =>
              if negb (phase_is AttemptPhase.Interrupted latest) then None
              else Some ((if at_revalidated latest
                 then add_reason ReasonCode.BackendUnknown
                        "the interrupted attempt was revalidated as unknown"
                 else add_reason ReasonCode.RevalidationRequired
                        "an attempt interrupted by a restart must be revalidated first")
                (set_fd_attempt_seq (at_attempt_seq latest)
                  (decided DecisionKind.Indeterminate Assertion.Observation Outcome.Indeterminate d)),
                true)
          end
      end
  end.

(** The record both undecided endings of a request write. *)
Definition undecided_attempt (im : EngineImpl) (q : FailoverRequest) (d : FailoverDecision)
    (evidence : Digest) : AttemptRecord :=
  set_at_reasons (fd_reasons d) (set_at_coordinator (im_incarnation im)
    (set_at_created_epoch (im_epoch im) (set_at_created_tick (im_tick im)
      (set_at_evidence_digest evidence
        (set_at_phase (if enum_eqb (fd_kind d) DecisionKind.Refuse then AttemptPhase.Refused
                       else AttemptPhase.Indeterminate)
          (set_at_idempotency_key (fq_idempotency_key q) (set_at_attempt_id (fd_attempt_id d)
            (set_at_attempt_seq (fd_attempt_seq d)
              (set_at_subject_generation (fq_subject_generation q)
                (set_at_subject (fq_subject q) attempt_none)))))))))).

Definition attempts_so_far (im : EngineImpl) (q : FailoverRequest) : Z :=
  Z.of_nat (count_attempts (engine_state im) (fq_subject q) (fq_subject_generation q)).
Definition within_budget (im : EngineImpl) (q : FailoverRequest) : bool :=
  attempts_so_far im q <? fp_max_attempts_per_generation (ds_policy (engine_state im)).

Definition record_failed (s : Status) (detail : string) : Result FailoverDecision :=
  fail (status_outcome s) ReasonCode.InternalError detail.

(** Within the budget the attempt is recorded, then the decision is settled. *)
Definition settle_undecided (im : EngineImpl) (q : FailoverRequest) (d : FailoverDecision)
    (evidence : Digest) : EngM (Result FailoverDecision) :=
  if within_budget im q
  then eng* recorded := commit_create (undecided_attempt im q d evidence) in
       if negb (status_ok recorded)
       then eret (record_failed recorded "the attempt record could not be written")
       else settle d (fq_idempotency_key q) true
  else settle (add_reason ReasonCode.AttemptsExhausted
                "the attempt budget for this generation is exhausted" d) (fq_idempotency_key q) false.

(** The failure is not established. The attempt identity is set only within the
    budget. *)
Definition failover_unestablished (im : EngineImpl) (q : FailoverRequest) (d : FailoverDecision)
    (verdict : FailureVerdict) : EngM (Result FailoverDecision) :=
  let kind := if enum_eqb (fv_outcome verdict) Outcome.Refused then DecisionKind.Refuse
              else DecisionKind.Indeterminate in
  let d := decided kind Assertion.Observation (fv_outcome verdict) d in
  let d := set_fd_reasons (fd_reasons d ++ reason (fv_reason verdict) (fv_detail verdict) ::
             fv_extra verdict) d in
  let d := set_fd_attempt_seq (wrap64 (attempts_so_far im q + 1)) d in
  let d := if within_budget im q
           then set_fd_attempt_id (compute_attempt_id (eo_fabric (im_options im)) (fq_subject q)
                  (fq_subject_generation q) (fd_attempt_seq d)) d
           else d in
  settle_undecided im q d (fv_evidence_digest verdict).

Definition selection_input (im : EngineImpl) (q : FailoverRequest) (subject_link : LinkDefinition) :
    SelectionInput :=
  let st := engine_state im in
  let policy := ds_policy st in
  MkSelectionInput (eo_fabric (im_options im)) (fq_subject q) (ld_generation subject_link)
    (ts_generation (ds_topology st)) (fp_generation policy) policy
    (if (fp_require_subject_capacity policy &&
         (ld_capacity_units subject_link >? fp_min_replacement_capacity policy))%bool
     then ld_capacity_units subject_link else fp_min_replacement_capacity policy)
    (resolve_candidates im (fq_candidates q)) (im_epoch im) (im_incarnation im).

(** No alternate was selected. *)
Definition failover_unselected (im : EngineImpl) (q : FailoverRequest) (d : FailoverDecision)
    (status : SelectionStatus) : EngM (Result FailoverDecision) :=
  let d := set_fd_attempt_seq (wrap64 (attempts_so_far im q + 1)) (set_fd_assertion Assertion.Eligibility d) in
  let d := set_fd_attempt_id (compute_attempt_id (eo_fabric (im_options im)) (fq_subject q)
             (fq_subject_generation q) (fd_attempt_seq d)) d in
  let d := match status with
    | SelectionStatus.ProvenInfeasible =>
        add_reason ReasonCode.NoEligibleReplacement "no supplied alternate is eligible"
          (add_reason ReasonCode.CertifiedInfeasible
            "every supplied alternate was conclusively disproven"
            (set_fd_outcome Outcome.Refused (set_fd_kind DecisionKind.Refuse d)))
    | SelectionStatus.EmptyCandidateSet =>
        add_reason ReasonCode.CandidateSetEmpty "no alternate was supplied"
          (set_fd_outcome Outcome.Refused (set_fd_kind DecisionKind.Refuse d))
    | _ =>
        add_reason ReasonCode.SelectionIndeterminate
          "at least one supplied alternate could not be decided"
          (set_fd_outcome Outcome.Indeterminate (set_fd_kind DecisionKind.Indeterminate d))
    end in
  settle_undecided im q d (fd_evidence_digest d).

(** ** The grant *)
Definition grant_authority (im : EngineImpl) (q : FailoverRequest) (subject_link : LinkDefinition)
    (verdict : FailureVerdict) (chosen : CandidateAssessment) (seq : AttemptSeq) : AuthorityVector :=
  set_av_evidence_digest (fv_evidence_digest verdict) (set_av_attempt_seq seq
    (set_av_publisher_seq (fv_publisher_seq verdict)
      (set_av_publisher_incarnation (fv_publisher_incarnation verdict)
        (set_av_evidence_publisher (fv_publisher verdict)
          (set_av_replacement_generation (ca_link_generation chosen)
            (set_av_replacement (ca_candidate chosen)
              (current_authority im (fq_subject q) (ld_generation subject_link)))))))).

Definition grant_decision (im : EngineImpl) (q : FailoverRequest) (subject_link : LinkDefinition)
    (verdict : FailureVerdict) (chosen : CandidateAssessment) (seq : AttemptSeq)
    (d : FailoverDecision) : FailoverDecision :=
  let d := decided DecisionKind.Grant Assertion.Authorization Outcome.Ok d in
  let d := set_fd_replacement_generation (ca_link_generation chosen)
             (set_fd_replacement (ca_candidate chosen) (set_fd_has_replacement true d)) in
  let d := set_fd_attempt_id (compute_attempt_id (eo_fabric (im_options im)) (fq_subject q)
             (ld_generation subject_link) seq) (set_fd_attempt_seq seq d) in
  let d := add_reason ReasonCode.Fenced "prior authority for this generation is excluded"
             (add_reason ReasonCode.SelectedHighestObjective
               "the highest-ranked eligible alternate was selected" d) in
  set_fd_authority (grant_authority im q subject_link verdict chosen seq) d.

Definition grant_attempt (im : EngineImpl) (q : FailoverRequest) (subject_link : LinkDefinition)
    (verdict : FailureVerdict) (d : FailoverDecision) : AttemptRecord :=
  let predecessor :=
    match latest_attempt (engine_state im) (fq_subject q) (ld_generation subject_link) with
    | Some previous => if attempt_phase_holds_authority (at_phase previous)
                       then Some (at_attempt_id previous) else None
    | None => None
    end in
  MkAttempt (fq_subject q) (ld_generation subject_link) (fd_attempt_seq d) (fd_attempt_id d)
    (fq_idempotency_key q) AttemptPhase.Evaluated (fd_replacement d) (fd_replacement_generation d)
    (fd_authority d) (fv_evidence_digest verdict) (im_tick im) (im_epoch im) (im_incarnation im)
    0 0 predecessor incarnation_zero false RevalidationVerdict.Unknown (fd_reasons d).

(** The intent is durable before the grant, the grant before the decision. *)
Definition failover_grant (im : EngineImpl) (q : FailoverRequest) (subject_link : LinkDefinition)
    (verdict : FailureVerdict) (d : FailoverDecision) : EngM (Result FailoverDecision) :=
  let attempt := grant_attempt im q subject_link verdict d in
  eng* staged := commit_create attempt in
  if negb (status_ok staged)
  then eret (record_failed staged "the attempt intent could not be written; no authority was created")
  else eng* authorized := commit_update RecordType.AttemptUpdate
                            (set_at_phase AttemptPhase.Authorized attempt) in
  if negb (status_ok authorized)
  then eret (record_failed authorized "the grant could not be written; no authority was created")
  else settle_durable d (fq_idempotency_key q).

(** The failure is established: resolve, select, validate, then grant or refuse. *)
Definition failover_select (im : EngineImpl) (q : FailoverRequest) (subject_link : LinkDefinition)
    (verdict : FailureVerdict) (d : FailoverDecision) : EngM (Result FailoverDecision) :=
  let selection := selection_input im q subject_link in
  let outcome := select_replacement selection in
  if negb (status_ok (validate_selection selection outcome))
  then eret (fail Outcome.Indeterminate ReasonCode.InternalError
         "internal selection validation failed; no authority was created")
  else
  let d := set_fd_evidence_digest (fv_evidence_digest verdict)
             (set_fd_candidates (so_assessments outcome) d) in
  if negb (enum_eqb (so_status outcome) SelectionStatus.Selected)
  then failover_unselected im q d (so_status outcome)
  else if negb (within_budget im q)
  then settle (add_reason ReasonCode.AttemptsExhausted
         "the attempt budget for this generation is exhausted; no authority was created"
         (decided DecisionKind.Refuse Assertion.Eligibility Outcome.Refused d))
         (fq_idempotency_key q) false
  else match so_selected_index outcome ≫= fun i => so_assessments outcome !! i with
  | None => eret (fail Outcome.Indeterminate ReasonCode.InternalError
              "internal selection bookkeeping failed; no authority was created")
  | Some chosen =>
      if negb (existsb (fun r => (bool_decide (rs_candidate r = ca_candidate chosen) &&
                 (rs_link_generation r =? ca_link_generation chosen))%bool) (si_candidates selection))
      then eret (fail Outcome.Indeterminate ReasonCode.InternalError
             "internal selection bookkeeping failed; no authority was created")
      else match checked_add_u64 (attempts_so_far im q) 1 with
      | None => eret (fail Outcome.Exhausted ReasonCode.CheckedArithmeticOverflow
                  "attempt sequence space is exhausted")
      | Some seq => failover_grant im q subject_link verdict
                      (grant_decision im q subject_link verdict chosen seq d)
      end
  end.

(** [Engine::request_failover]. *)
Definition request_failover (q : FailoverRequest) : EngM (Result FailoverDecision) :=
  eng* im := eget in
  match unavailable im with
  | Some s => eret (Failure s)
  | None =>
      eng* _ := emodify advance_tick in
      eng* im := eget in
      match request_refused im q with
      | Some s => eret (Failure s)
      | None =>
          match find_idempotency (engine_state im) (fq_idempotency_key q) with
          | Some entry => eret (Success (replay_decision im entry))
          | None =>
              match bind_subject im q with
              | Failure s => eret (Failure s)
              | Success subject_link =>
                  let d := failover_decision im q in
                  match failover_gate im q d with
                  | Some (d, durable) => settle d (fq_idempotency_key q) durable
                  | None =>
                      let verdict := evaluate_failure im (fq_subject q) (fq_subject_generation q)
                        (ds_policy (engine_state im)) (ts_generation (ds_topology (engine_state im))) in
                      if negb (fv_established verdict)
                      then failover_unestablished im q d verdict
                      else failover_select im q subject_link verdict d
                  end
              end
          end
      end
  end.

(** ** Operations on an attempt *)
Definition attempt_unknown : Result FailoverDecision :=
  fail Outcome.NotFound ReasonCode.AttemptUnknown "no attempt with that identity exists".
Definition identity_mismatch : Result FailoverDecision :=
  fail Outcome.Conflict ReasonCode.AttemptUnknown
    "the report does not carry the attempt identity it claims".

(** The decision the four operations build from the record they found. *)
Definition attempt_decision (im : EngineImpl) (found : AttemptRecord) (kind : DecisionKind) :
    FailoverDecision :=
  let d := base_decision im (at_subject found) (at_subject_generation found) in
  set_fd_kind kind (set_fd_replacement_generation (at_replacement_generation found)
    (set_fd_replacement (at_replacement found)
      (set_fd_has_replacement (negb (link_key_empty (at_replacement found)))
        (set_fd_authority (at_authority found) (set_fd_attempt_id (at_attempt_id found)
          (set_fd_attempt_seq (at_attempt_seq found) d)))))).

Definition asserted (assertion : Assertion) (outcome : Outcome) (d : FailoverDecision) : FailoverDecision :=
  set_fd_outcome outcome (set_fd_assertion assertion d).

(** *** Application *)
(** Why an application report about [found] changes nothing. *)
Definition application_late (found : AttemptRecord) (d : FailoverDecision) : option FailoverDecision :=
  if attempt_phase_is_terminal (at_phase found)
  then Some (add_reason (if (phase_is AttemptPhase.Committed found || phase_is AttemptPhase.RolledBack found)%bool
                         then ReasonCode.LateAcknowledgement else ReasonCode.AttemptCompleted)
               "the attempt is already terminal" (set_fd_outcome Outcome.Conflict d))
  else if phase_is AttemptPhase.Evaluated found
  then Some (add_reason ReasonCode.AttemptUnknown "the attempt never became authoritative"
               (set_fd_outcome Outcome.Conflict d))
  else if (phase_is AttemptPhase.Acknowledged found || phase_is AttemptPhase.Verified found)%bool
  then Some (add_reason ReasonCode.DuplicateCompletion "an application report was already accepted"
               (set_fd_outcome Outcome.Conflict d))
  else None.

Definition application_update (im : EngineImpl) (report : ApplicationReport) (found : AttemptRecord) :
    AttemptRecord :=
  if negb (ar_accepted report)
  then push_reason ReasonCode.BackendRejected (ar_detail report) (set_at_phase AttemptPhase.Aborted found)
  else push_reason ReasonCode.AcknowledgementNotEffect "an acknowledgement is not a verified effect"
    (set_at_phase (if fp_require_verified_effect (ds_policy (engine_state im))
                   then AttemptPhase.Acknowledged else AttemptPhase.Committed)
      (set_at_applier_incarnation (ar_applier_incarnation report) found)).

Definition application_decision (report : ApplicationReport) (d : FailoverDecision) : FailoverDecision :=
  if negb (ar_accepted report)
  then add_reason ReasonCode.BackendRejected "the applier refused the directive"
         (set_fd_outcome Outcome.Refused d)
  else add_reason ReasonCode.AcknowledgementNotEffect
         "acceptance recorded; the effect is not yet verified" (set_fd_outcome Outcome.Ok d).

Definition update_type (updated : AttemptRecord) : RecordType :=
  if phase_is AttemptPhase.Committed updated then RecordType.Completion else RecordType.AttemptUpdate.

Definition apply_report (report : ApplicationReport) (found : AttemptRecord) : EngM (Result FailoverDecision) :=
  eng* im := eget in
  let d := set_fd_assertion Assertion.Acknowledgement
             (attempt_decision im found DecisionKind.Acknowledge) in
  match application_late found d with
  | Some d => settle_undurable d
  | None =>
      let updated := application_update im report found in
      eng* written := commit_update (update_type updated) updated in
      if negb (status_ok written)
      then eret (record_failed written "the application report could not be recorded")
      else eng* d := commit_decision (application_decision report d) in
      eng* _ := maybe_checkpoint in
      eng* _ := remember_decision d in eret (Success d)
  end.

Definition record_application (report : ApplicationReport) : EngM (Result FailoverDecision) :=
  eng* im := eget in
  match unavailable im with
  | Some s => eret (Failure s)
  | None =>
      eng* _ := emodify advance_tick in
      match find_attempt (engine_state im) (ar_subject report) (ar_attempt_seq report) with
      | None => eret attempt_unknown
      | Some found =>
          if negb (at_subject_generation found =? ar_subject_generation report)
          then eret (fail Outcome.Stale ReasonCode.SubjectGenerationMismatch
                 "the report binds a different subject generation")
          else if negb (bool_decide (at_attempt_id found = ar_attempt_id report))
          then eret identity_mismatch
          else if incarnation_is_zero (ar_applier_incarnation report)
          then eret (fail Outcome.Invalid ReasonCode.WorkerIncarnationMismatch
                 "an application report must name the applier incarnation")
          else apply_report report found
      end
  end.

(** *** Verification *)
Definition verification_late (found : AttemptRecord) (d : FailoverDecision) : option FailoverDecision :=
  if (phase_is AttemptPhase.Committed found || phase_is AttemptPhase.Verified found)%bool
  then Some (add_reason ReasonCode.DuplicateCompletion "the effect was already verified"
               (asserted Assertion.VerifiedEffect Outcome.Conflict d))
  else if negb (phase_is AttemptPhase.Acknowledged found)
  then Some (add_reason ReasonCode.LateAcknowledgement "verification requires an acknowledged attempt"
               (asserted Assertion.Observation Outcome.Conflict d))
  else None.

Definition verification_failed (s : Status) : Result FailoverDecision :=
  record_failed s "the verification report could not be recorded".

(** The effect was not observed: the attempt ends undecided. *)
Definition verify_unobserved (report : VerificationReport) (found : AttemptRecord) (d : FailoverDecision) :
    EngM (Result FailoverDecision) :=
  eng* written := commit_update RecordType.AttemptUpdate
    (push_reason ReasonCode.EffectUnverified (vr_detail report)
      (set_at_phase AttemptPhase.Indeterminate found)) in
  if negb (status_ok written) then eret (verification_failed written)
  else eng* d := commit_decision (add_reason ReasonCode.EffectUnverified
                   "the effect could not be observed"
                   (asserted Assertion.Acknowledgement Outcome.Indeterminate d)) in
  eng* _ := remember_decision d in eret (Success d).

(** It was observed: Verified, then Committed, then the decision. *)
Definition verify_observed (report : VerificationReport) (found : AttemptRecord) (d : FailoverDecision) :
    EngM (Result FailoverDecision) :=
  let verified := push_reason ReasonCode.EffectVerified (vr_detail report)
                    (set_at_phase AttemptPhase.Verified found) in
  eng* written := commit_update RecordType.AttemptUpdate verified in
  if negb (status_ok written) then eret (verification_failed written)
  else eng* completed := commit_update RecordType.Completion
                           (set_at_phase AttemptPhase.Committed verified) in
  if negb (status_ok completed)
  then eret (record_failed completed "the completion record could not be written")
  else eng* d := commit_decision (add_reason ReasonCode.EffectVerified
                   "the replacement effect was independently observed"
                   (asserted Assertion.VerifiedEffect Outcome.Ok d)) in
  eng* _ := maybe_checkpoint in
  eng* _ := remember_decision d in eret (Success d).

Definition record_verification (report : VerificationReport) : EngM (Result FailoverDecision) :=
  eng* im := eget in
  match unavailable im with
  | Some s => eret (Failure s)
  | None =>
      eng* _ := emodify advance_tick in
      match find_attempt (engine_state im) (vr_subject report) (vr_attempt_seq report) with
      | None => eret attempt_unknown
      | Some found =>
          if negb (bool_decide (at_attempt_id found = vr_attempt_id report))
          then eret identity_mismatch
          else
            let d := attempt_decision im found DecisionKind.Verify in
            match verification_late found d with
            | Some d => settle_undurable d
            | None => if negb (vr_effect_observed report) then verify_unobserved report found d
                      else verify_observed report found d
            end
      end
  end.

(** *** Rollback *)
Definition engine_shutting_down (im : EngineImpl) : option Status :=
  if im_closed im
  then Some (status_failure Outcome.Closed ReasonCode.Shutdown "engine is shutting down")
  else None.

Definition rollback_settled (im : EngineImpl) (q : RollbackRequest) (found : AttemptRecord)
    (d : FailoverDecision) : option FailoverDecision :=
  match compare_authority (bq_expected q)
          (current_authority im (bq_subject q) (at_subject_generation found)) with
  | _ :: _ as mismatches =>
      Some (add_mismatches mismatches (add_reason ReasonCode.StaleAuthority
        "the rollback binds authority that is no longer current"
        (asserted Assertion.Observation Outcome.Stale d)))
  | [] =>
      if phase_is AttemptPhase.RolledBack found
      then Some (add_reason ReasonCode.IdempotentReplay "the attempt was already rolled back"
             (set_fd_idempotent_replay true (asserted Assertion.Authorization Outcome.Ok d)))
      else if negb (attempt_phase_holds_authority (at_phase found))
      then Some (add_reason ReasonCode.RollbackNotAuthorized
             "the attempt does not hold authority to revert"
             (asserted Assertion.Observation Outcome.Conflict d))
      else None
  end.

(** The revocation, its fence, then the decision. *)
Definition revoke (q : RollbackRequest) (found : AttemptRecord) (d : FailoverDecision) :
    EngM (Result FailoverDecision) :=
  eng* written := commit_update RecordType.Rollback
    (push_reason ReasonCode.RollbackRequested (bq_rationale q)
      (set_at_phase AttemptPhase.RolledBack found)) in
  if negb (status_ok written)
  then eret (record_failed written "the rollback could not be recorded")
  else eng* im := eget in
  eng* fenced := commit_fence (authority_fence im FenceKind.RollbackRevoked
                   "failover authority revoked by rollback" found) in
  if negb (status_ok fenced)
  then eret (record_failed fenced "the rollback fence could not be written")
  else eng* d := commit_decision (add_reason ReasonCode.RestoreRequiresNewGeneration
      "restoring the original link is a new generation-bound transition, not a resurrection"
      (add_reason ReasonCode.RollbackCompleted "failover authority was revoked"
        (asserted Assertion.Authorization Outcome.Ok d))) in
  eng* _ := commit_idempotency d (bq_idempotency_key q) in
  eng* _ := remember_decision d in eret (Success d).

Definition request_rollback (q : RollbackRequest) : EngM (Result FailoverDecision) :=
  eng* im := eget in
  match engine_shutting_down im with
  | Some s => eret (Failure s)
  | None =>
      eng* _ := emodify advance_tick in
      match find_idempotency (engine_state im) (bq_idempotency_key q) with
      | Some entry => eret (Success (replay_decision im entry))
      | None =>
          match find_attempt (engine_state im) (bq_subject q) (bq_attempt_seq q) with
          | None => eret attempt_unknown
          | Some found =>
              let d := attempt_decision im found DecisionKind.Rollback in
              match rollback_settled im q found d with
              | Some d => settle_undurable d
              | None => revoke q found d
              end
          end
      end
  end.

(** *** Revalidation *)
(** Already revalidated, or not interrupted at all. *)
Definition revalidation_settled (found : AttemptRecord) (d : FailoverDecision) : option FailoverDecision :=
  if at_revalidated found
  then
    let d := match at_revalidation found with
      | RevalidationVerdict.NotApplied => set_fd_outcome Outcome.Ok d
      | RevalidationVerdict.Applied => asserted Assertion.Authorization Outcome.Ok d
      | _ => set_fd_outcome Outcome.Indeterminate d
      end in
    Some (add_reason ReasonCode.IdempotentReplay "the attempt was already revalidated"
            (set_fd_idempotent_replay true d))
  else if negb (phase_is AttemptPhase.Interrupted found)
  then Some (add_reason ReasonCode.AttemptCompleted
         "the attempt is not interrupted and was never revalidated" (set_fd_outcome Outcome.Conflict d))
  else None.

(** The observed effect is bound to the current coordinator, epoch and definitions. *)
Definition rebind_authority (im : EngineImpl) (a : AuthorityVector) : AuthorityVector :=
  let st := engine_state im in
  set_av_coordinator (im_incarnation im) (set_av_epoch (im_epoch im)
    (set_av_topology_digest (topology_digest (ds_topology st))
      (set_av_topology_generation (ts_generation (ds_topology st))
        (set_av_policy_digest (policy_digest (ds_policy st))
          (set_av_policy_generation (fp_generation (ds_policy st)) a))))).

Definition revalidated_record (im : EngineImpl) (verdict : RevalidationVerdict) (found : AttemptRecord) :
    AttemptRecord :=
  let r := set_at_revalidation verdict (set_at_revalidated true found) in
  match verdict with
  | RevalidationVerdict.NotApplied =>
      push_reason ReasonCode.Fenced "revalidation proved that no effect was applied"
        (set_at_phase AttemptPhase.Aborted r)
  | RevalidationVerdict.Applied =>
      set_at_coordinator (im_incarnation im) (set_at_authority (rebind_authority im (at_authority r))
        (push_reason ReasonCode.EffectVerified "revalidation observed the replacement in effect"
          (set_at_phase AttemptPhase.Committed r)))
  | _ =>
      push_reason ReasonCode.BackendUnknown "revalidation could not determine whether an effect exists" r
  end.

Definition revalidated_decision (im : EngineImpl) (verdict : RevalidationVerdict) (found : AttemptRecord)
    (d : FailoverDecision) : FailoverDecision :=
  let st := engine_state im in
  let d := match verdict with
    | RevalidationVerdict.NotApplied =>
        add_reason ReasonCode.Fenced "the interrupted authority is released" (set_fd_outcome Outcome.Ok d)
    | RevalidationVerdict.Applied =>
        let d := add_reason ReasonCode.EffectVerified
          "the replacement is in effect and is now bound to the current epoch"
          (asserted Assertion.Authorization Outcome.Ok d) in
        let d := if av_policy_generation (at_authority found) =? fp_generation (ds_policy st) then d
          else add_reason ReasonCode.PolicyGenerationMismatch
            "the authority is re-bound under the current policy generation" d in
        let d := if av_topology_generation (at_authority found) =? ts_generation (ds_topology st) then d
          else add_reason ReasonCode.TopologyGenerationMismatch
            "the authority is re-bound under the current topology generation" d in
        set_fd_authority (rebind_authority im (at_authority found)) d
    | _ =>
        add_reason ReasonCode.BackendUnknown
          "the interrupted attempt remains indeterminate and blocks new authority"
          (set_fd_outcome Outcome.Indeterminate d)
    end in
  add_reason ReasonCode.DynamicStateNotRestored "no pre-restart dynamic authority was restored"
    (add_reason ReasonCode.DurableLineagePreserved "the pre-restart record is retained as history" d).

Definition resolve_interrupted (q : RevalidationRequest) : EngM (Result FailoverDecision) :=
  eng* im := eget in
  match engine_shutting_down im with
  | Some s => eret (Failure s)
  | None =>
      if incarnation_is_zero (vq_observer_incarnation q)
      then eret (fail Outcome.Invalid ReasonCode.WorkerIncarnationMismatch
             "revalidation must name the observing incarnation")
      else if negb (vq_observer_epoch q =? im_epoch im)
      then eret (fail Outcome.Stale ReasonCode.EpochMismatch
             "revalidation was produced for a different coordinator epoch")
      else eng* _ := emodify advance_tick in
      match find_attempt (engine_state im) (vq_subject q) (vq_attempt_seq q) with
      | None => eret attempt_unknown
      | Some found =>
          let d := set_fd_assertion Assertion.Observation
                     (attempt_decision im found DecisionKind.Revalidate) in
          match revalidation_settled found d with
          | Some d => settle_undurable d
          | None =>
              let updated := revalidated_record im (vq_verdict q) found in
              eng* written := commit_update (update_type updated) updated in
              if negb (status_ok written)
              then eret (record_failed written "the revalidation could not be recorded")
              else eng* d := commit_decision (revalidated_decision im (vq_verdict q) found d) in
              eng* _ := remember_decision d in eret (Success d)
          end
      end
  end.

(** ** Applier boundary *)
Record ApplyDirective := MkDirective {
  di_subject : LinkKey;
  di_subject_generation : LinkGeneration;
  di_replacement : LinkKey;
  di_replacement_generation : LinkGeneration;
  di_attempt_seq : AttemptSeq;
  di_attempt_id : Digest;
  di_authority : AuthorityVector;
  di_issued_tick : Z;
}.

Definition directive_encode (d : ApplyDirective) : WriteM := writes [
  wr_u16 kIdentityFormatVersion;
  wr_str (lk_fabric (di_subject d)); wr_str (lk_link (di_subject d)); wr_u64 (di_subject_generation d);
  wr_str (lk_fabric (di_replacement d)); wr_str (lk_link (di_replacement d));
  wr_u64 (di_replacement_generation d); wr_u64 (di_attempt_seq d); wr_digest (di_attempt_id d);
  encode (di_authority d); wr_u64 (di_issued_tick d)].

Definition directive_decode : ReadM (option ApplyDirective) :=
  let* format_version := rd_u16 in
  let* subject_fabric := rd_str in
  let* subject_link := rd_str in
  let* subject_generation := rd_u64 in
  let* replacement_fabric := rd_str in
  let* replacement_link := rd_str in
  let* replacement_generation := rd_u64 in
  let* attempt_seq := rd_u64 in
  let* attempt_id := rd_digest in
  let* authority := decode in
  let* issued_tick := rd_u64 in
  let* ok := rd_is_ok in
  if (negb ok || (negb (has_value authority) || negb (format_version =? kIdentityFormatVersion)))%bool
  then rret None else
  ropt authority (fun authority =>
  ropt (result_value (name_parse subject_fabric)) (fun subject_fabric =>
  ropt (result_value (name_parse subject_link)) (fun subject_link =>
  ropt (result_value (name_parse replacement_fabric)) (fun replacement_fabric =>
  ropt (result_value (name_parse replacement_link)) (fun replacement_link =>
  rret (Some (MkDirective (MkLinkKey subject_fabric subject_link) subject_generation
    (MkLinkKey replacement_fabric replacement_link) replacement_generation attempt_seq attempt_id
    authority issued_tick))))))).

Definition directive_wf (d : ApplyDirective) : Prop :=
  link_key_valid (di_subject d) /\ is_u64 (di_subject_generation d) /\
  link_key_valid (di_replacement d) /\ is_u64 (di_replacement_generation d) /\
  is_u64 (di_attempt_seq d) /\ digest_wf (di_attempt_id d) /\ codec_wf (di_authority d) /\
  is_u64 (di_issued_tick d).

#[global] Program Instance directive_codec : Codec ApplyDirective := {|
  encode := directive_encode; decode := directive_decode; codec_wf := directive_wf |}.
Next Obligation. intros [[] ? []]. codec_law_solve. apply reads_ret. Qed.
Next Obligation. unfold directive_decode. steady_solve. Qed.
Next Obligation. unfold directive_decode. checked_solve. Qed.
Definition directive_digest (d : ApplyDirective) : Digest := encoded_digest d.

Definition directive_of (im : EngineImpl) (r : AttemptRecord) : ApplyDirective :=
  MkDirective (at_subject r) (at_subject_generation r) (at_replacement r)
    (at_replacement_generation r) (at_attempt_seq r) (at_attempt_id r) (at_authority r) (im_tick im).
Definition directive_open (r : AttemptRecord) : bool :=
  (phase_is AttemptPhase.Authorized r && negb (link_key_empty (at_replacement r)))%bool.

(** Subject, then sequence. *)
Definition directive_less (a b : AttemptRecord) : bool :=
  lex_ltb link_key_ltb Z.ltb (at_subject a, at_attempt_seq a) (at_subject b, at_attempt_seq b).

Definition pending_directives (im : EngineImpl) (max_count : nat) : list ApplyDirective :=
  if im_closed im then []
  else
    let ordered := std_sort directive_less
      (List.filter directive_open (ds_attempts (engine_state im))) in
    map (directive_of im)
      (take (Nat.min max_count (lm_max_pending_directives (eo_limits (im_options im)))) ordered).

Definition take_directive (im : EngineImpl) (subject : LinkKey) (generation : LinkGeneration)
    (seq : AttemptSeq) : option ApplyDirective :=
  if im_closed im then None
  else match find_attempt (engine_state im) subject seq with
  | None => None
  | Some r =>
      if negb (at_subject_generation r =? generation) then None
      else if negb (directive_open r) then None
      else Some (directive_of im r)
  end.

(** ** Inspection *)
Record EngineView := MkEngineView {
  vw_fabric : string;
  vw_epoch : Epoch;
  vw_coordinator : Incarnation;
  vw_policy_generation : PolicyGeneration;
  vw_topology_generation : TopologyGeneration;
  vw_policy_digest : Digest;
  vw_topology_digest : Digest;
  vw_boot_count : Z;
  vw_last_seq : LineageSeq;
  vw_tracked_publishers : nat;
  vw_evidence_entries : Z;
  vw_retained_attempts : nat;
  vw_retained_fences : nat;
  vw_retained_decisions : nat;
  vw_pending_directives : nat;
  vw_active_authorities : nat;
  vw_interrupted_attempts : nat;
  vw_store_failed : bool;
  vw_recent_attempts : list AttemptRecord;
  vw_recent_fences : list FenceRecord;
}.

Definition attempt_newest_first (a b : AttemptRecord) : bool :=
  lex_ltb link_key_ltb Z.gtb (at_subject a, at_attempt_seq a) (at_subject b, at_attempt_seq b).
Definition fence_newest_first (a b : FenceRecord) : bool := fe_seq a >? fe_seq b.
Definition engine_holds (im : EngineImpl) (r : AttemptRecord) : bool :=
  (attempt_phase_holds_authority (at_phase r) && (av_epoch (at_authority r) =? im_epoch im) &&
   bool_decide (av_coordinator (at_authority r) = im_incarnation im))%bool.

Definition inspect (im : EngineImpl) (history_limit : nat) : EngineView :=
  let st := engine_state im in
  let count p := length (List.filter p (ds_attempts st)) in
  MkEngineView (eo_fabric (im_options im)) (im_epoch im) (im_incarnation im)
    (fp_generation (ds_policy st)) (ts_generation (ds_topology st)) (policy_digest (ds_policy st))
    (topology_digest (ds_topology st)) (ds_boot_count st) (ds_last_seq st)
    (size (im_publishers im)) (im_evidence_entries im) (length (ds_attempts st))
    (length (ds_fences st)) (length (im_decisions im)) (count (phase_is AttemptPhase.Authorized))
    (count (engine_holds im)) (count (phase_is AttemptPhase.Interrupted))
    (im_store_failed im || store_failed (im_store im))%bool
    (take history_limit (std_sort attempt_newest_first (ds_attempts st)))
    (take history_limit (std_sort fence_newest_first (ds_fences st))).

Definition line_end : string := String newline EmptyString.
Definition fence_line (r : FenceRecord) : string :=
  ("fence " +:+ fence_kind_name (fe_kind r) +:+ " " +:+ link_key_to_string (fe_subject r) +:+ "@" +:+
   decimal_text (fe_subject_generation r) +:+ " seq=" +:+ decimal_text (fe_seq r) +:+ line_end)%string.
Definition text_line (key value : string) : string := (key +:+ "=" +:+ value +:+ line_end)%string.
Definition engine_view_to_string (v : EngineView) : string :=
  let number n := decimal_text (Z.of_nat n) in
  String.concat EmptyString ([
    text_line "fabric" (vw_fabric v); text_line "epoch" (decimal_text (vw_epoch v));
    text_line "coordinator" (incarnation_hex (vw_coordinator v));
    text_line "boot_count" (decimal_text (vw_boot_count v));
    text_line "policy_generation" (decimal_text (vw_policy_generation v));
    text_line "topology_generation" (decimal_text (vw_topology_generation v));
    text_line "policy_digest" (digest_hex (vw_policy_digest v));
    text_line "topology_digest" (digest_hex (vw_topology_digest v));
    text_line "last_lineage_seq" (decimal_text (vw_last_seq v));
    text_line "tracked_publishers" (number (vw_tracked_publishers v));
    text_line "evidence_entries" (decimal_text (vw_evidence_entries v));
    text_line "retained_attempts" (number (vw_retained_attempts v));
    text_line "retained_fences" (number (vw_retained_fences v));
    text_line "retained_decisions" (number (vw_retained_decisions v));
    text_line "pending_directives" (number (vw_pending_directives v));
    text_line "active_authorities" (number (vw_active_authorities v));
    text_line "interrupted_attempts" (number (vw_interrupted_attempts v));
    text_line "store_failed" (bool_text (vw_store_failed v))] ++
    map (fun r => ("attempt " +:+ attempt_to_string r +:+ line_end)%string) (vw_recent_attempts v) ++
    map fence_line (vw_recent_fences v)).

(** ** The public object *)
(** An [Engine] whose [impl_] is null answers every call as not open. *)
Definition Engine : Type := option EngineImpl.
Definition engine_not_open : Status :=
  status_failure Outcome.Closed ReasonCode.ConnectionClosed "engine is not open".
Definition on_engine {A} (not_open : A) (m : EngM A) (e : Engine) : IoM (A * Engine) :=
  match e with
  | None => ioret (not_open, None)
  | Some im => io* r := m im in ioret (r.1, Some r.2)
  end.

(** The observers. *)
Definition engine_epoch (e : Engine) : Epoch := match e with None => 0 | Some im => im_epoch im end.
Definition engine_incarnation (e : Engine) : Incarnation :=
  match e with None => incarnation_zero | Some im => im_incarnation im end.
Definition engine_fabric (e : Engine) : string :=
  match e with None => EmptyString | Some im => eo_fabric (im_options im) end.
Definition engine_policy (e : Engine) : FailoverPolicy :=
  match e with None => policy_defaults | Some im => ds_policy (engine_state im) end.
Definition engine_topology (e : Engine) : TopologySnapshot :=
  match e with None => topology_none | Some im => ds_topology (engine_state im) end.

(** One public call. [publish_*] do not touch the medium. *)
Inductive Operation :=
  | OpPublishFailure (r : FailureReport)
  | OpPublishReplacement (r : ReplacementReport)
  | OpSetPolicy (p : FailoverPolicy)
  | OpSetTopology (t : TopologySnapshot)
  | OpFailover (q : FailoverRequest)
  | OpApplication (r : ApplicationReport)
  | OpVerification (r : VerificationReport)
  | OpRollback (q : RollbackRequest)
  | OpRevalidation (q : RevalidationRequest)
  | OpCheckpoint
  | OpClose.

Definition epure (f : EngineImpl -> Status * EngineImpl) : EngM Status := fun im => ioret (f im).
Definition status_of_result {A} (r : Result A) : Status :=
  match r with Success _ => status_success | Failure s => s end.
Definition edecide (m : EngM (Result FailoverDecision)) : EngM Status :=
  eng* r := m in eret (status_of_result r).

Definition perform (op : Operation) : EngM Status :=
  match op with
  | OpPublishFailure r => epure (publish_failure_report r)
  | OpPublishReplacement r => epure (publish_replacement_report r)
  | OpSetPolicy p => set_policy p
  | OpSetTopology t => set_topology t
  | OpFailover q => edecide (request_failover q)
  | OpApplication r => edecide (record_application r)
  | OpVerification r => edecide (record_verification r)
  | OpRollback q => edecide (request_rollback q)
  | OpRevalidation q => edecide (resolve_interrupted q)
  | OpCheckpoint => engine_checkpoint
  | OpClose => engine_close
  end.
