(* ===== verification/EngineLogic.v ===== *)
(** * Engine: traces of durable effects

    An operation of the engine changes the durable lineage only through commits.
    [evolves l tr l'] says that the lineage [l'] is [l] after the effects [tr], in
    order, up to the sequence counters and the retention statistics. [etr] is the
    weakest-precondition style judgement the operations are specified with: the
    trace an operation leaves is an existential of the judgement, and the rules
    below compose traces along the engine monad. *)
From S2P Require Import Prelude Status Hash Ids Bytes Evidence Policy Authority Attempt Decision.
From S2P Require Import Selector Fs Journal State Store Intake Engine.

(** ** Effects *)
Inductive Effect :=
  | Create (r : AttemptRecord)
  | Update (r : AttemptRecord)
  | Fence (f : FenceRecord)
  | Index (e : IdempotencyEntry)
  | SetPolicy (p : FailoverPolicy)
  | SetTopology (t : TopologySnapshot).

(** What the callback of the commit does, given the sequence it was assigned. *)
Definition effect_apply (e : Effect) (seq : LineageSeq) (l : Lineage) : Lineage :=
  match e with
  | Create r => note_attempt (set_at_update_seq seq (set_at_create_seq seq r)) l
  | Update r => note_attempt (set_at_update_seq seq r) l
  | Fence f => note_fence (set_fe_seq seq f) l
  | Index e => note_idempotency e l
  | SetPolicy p => set_ln_state (set_ds_policy p (ln_state l)) l
  | SetTopology t => set_ln_state (set_ds_topology t (ln_state l)) l
  end.

(** The components of a lineage that decisions depend on. *)
Definition core (l : Lineage) : StoreOptions * FailoverPolicy * TopologySnapshot * Z * Incarnation *
    list AttemptRecord * list FenceRecord * list IdempotencyEntry :=
  let st := ln_state l in
  (ln_options l, ds_policy st, ds_topology st, ds_epoch st, ds_coordinator st, ds_attempts st,
   ds_fences st, ds_idempotency st).
Definition same_core (l l' : Lineage) : Prop := core l = core l'.
#[global] Instance same_core_equiv : Equivalence same_core.
Proof. unfold same_core. split; red; intros; congruence. Qed.

Inductive evolves : Lineage -> list Effect -> Lineage -> Prop :=
  | evolves_nil l l' : same_core l l' -> evolves l [] l'
  | evolves_cons l e seq l1 tr l' :
      same_core (effect_apply e seq l) l1 -> evolves l1 tr l' -> evolves l (e :: tr) l'.

Lemma evict_attempts_core l l' : same_core l l' -> same_core (evict_attempts l) (evict_attempts l').
Proof.
  destruct l as [o st s], l' as [o' st' s']. unfold same_core, core. cbn [ln_options ln_state].
  intros [= -> Hp Ht He Hc Ha Hf Hi]. unfold evict_attempts. cbn [ln_state ln_options ln_status]. rewrite Ha.
  destruct (Nat.leb _ _); [cbn; congruence|].
  pose proof (evict_loop_kept (length (std_sort attempt_less (ds_attempts st'))) (sp_max_attempts o')
    (std_sort attempt_less (ds_attempts st')) (st_attempts_evicted s) (st_attempts_evicted s')) as E.
  destruct (evict_loop _ _ _ (st_attempts_evicted s)) as [k1 v1].
  destruct (evict_loop _ _ _ (st_attempts_evicted s')) as [k2 v2]. cbn in E. subst k2. cbn. congruence.
Qed.

Lemma core_options l l' : same_core l l' -> ln_options l = ln_options l'.
Proof. by intros [= ?]. Qed.
Lemma core_attempts l l' : same_core l l' -> ds_attempts (ln_state l) = ds_attempts (ln_state l').
Proof. by intros [= ?]. Qed.

(** Effects respect the equivalence. *)
#[global] Instance effect_apply_proper e seq : Proper (same_core ==> same_core) (effect_apply e seq).
Proof.
  intros [o st s] [o' st' s'] H. pose proof H as [= -> Hp Ht He Hc Ha Hf Hi].
  destruct e; cbn [effect_apply]; unfold note_attempt, note_fence, note_idempotency.
  1,2: apply evict_attempts_core; unfold same_core, core; cbn; congruence.
  1: unfold evict_fences; cbn [push_fence ln_state ln_options set_ln_state ds_fences set_ds_fences]; rewrite Hf.
  2: unfold evict_idempotency;
    cbn [push_idempotency ln_state ln_options set_ln_state ds_idempotency set_ds_idempotency]; rewrite Hi.
  all: try destruct (Nat.leb _ _); unfold same_core, core; cbn; congruence.
Qed.

Lemma evolves_core_l l1 l2 tr l' : same_core l1 l2 -> evolves l2 tr l' -> evolves l1 tr l'.
Proof.
  intros H H'. destruct H' as [l l' H'|l e seq l3 tr l' H1 H2].
  - apply evolves_nil. by etrans.
  - eapply evolves_cons; [|exact H2]. etrans; [|exact H1]. by apply effect_apply_proper.
Qed.

Lemma evolves_app l tr1 l1 tr2 l2 : evolves l tr1 l1 -> evolves l1 tr2 l2 -> evolves l (tr1 ++ tr2) l2.
Proof.
  induction 1 as [l l' Hc|l e seq l1 tr l' Hc H IH]; intros H2; cbn [app].
  - by eapply evolves_core_l.
  - eapply evolves_cons; [exact Hc|auto].
Qed.

Lemma evolves_nil_inv l l' : evolves l [] l' -> same_core l l'.
Proof. by inversion 1. Qed.
Lemma evolves_cons_inv l e tr l' : evolves l (e :: tr) l' ->
  exists seq l1, same_core (effect_apply e seq l) l1 /\ evolves l1 tr l'.
Proof. inversion 1; subst. eauto. Qed.

(** An invariant of the core that the effects of a trace preserve holds after it. *)
Lemma evolves_inv (I : Lineage -> Prop) l tr l' :
  (forall l l', same_core l l' -> I l -> I l') ->
  (forall e seq l, e ∈ tr -> I l -> I (effect_apply e seq l)) ->
  evolves l tr l' -> I l -> I l'.
Proof.
  intros Hp He H. induction H as [l l' Hc|l e seq l1 tr l' Hc H IH]; intros HI; [by eapply Hp|].
  apply IH; [intros; apply He; [by constructor|done]|]. eapply Hp; [exact Hc|]. apply He; [constructor|done].
Qed.

(** ** Runs of the engine *)
(** What no decision operation changes: the options, the boot identity and the
    evidence; a failed store stays failed. *)
Record steady_engine (im im' : EngineImpl) : Prop := {
  se_options : im_options im' = im_options im;
  se_epoch : im_epoch im' = im_epoch im;
  se_incarnation : im_incarnation im' = im_incarnation im;
  se_closed : im_closed im' = im_closed im;
  se_publishers : im_publishers im' = im_publishers im;
  se_failure : im_failure_evidence im' = im_failure_evidence im;
  se_replacement : im_replacement_evidence im' = im_replacement_evidence im;
  se_entries : im_evidence_entries im' = im_evidence_entries im;
  se_seqs : im_last_observation_seq im' = im_last_observation_seq im;
  se_failed : im_store_failed im = true -> im_store_failed im' = true;
}.
#[global] Instance steady_engine_preorder : PreOrder steady_engine.
Proof.
  split.
  - intros im. by split.
  - intros x y z [] []. split; try congruence. auto.
Qed.

Definition store_runs (s : LineageStore) (tr : list Effect) (s' : LineageStore) : Prop :=
  match s, s' with
  | None, None => tr = []
  | Some s, Some s' => evolves (sm_lineage s) tr (sm_lineage s') /\ (sm_failed s = true -> tr = [] /\ sm_failed s' = true)
  | _, _ => False
  end.
Definition runs (im : EngineImpl) (tr : list Effect) (im' : EngineImpl) : Prop :=
  steady_engine im im' /\ store_runs (im_store im) tr (im_store im').

Lemma store_runs_app s tr s1 tr' s2 :
  store_runs s tr s1 -> store_runs s1 tr' s2 -> store_runs s (tr ++ tr') s2.
Proof.
  destruct s as [s|], s1 as [s1|], s2 as [s2|]; cbn; try done.
  - intros [H1 F1] [H2 F2]. split; [by eapply evolves_app|]. intros F. destruct (F1 F) as [-> F'].
    by destruct (F2 F') as [-> ?].
  - by intros -> ->.
Qed.

Lemma runs_app im tr im1 tr' im2 : runs im tr im1 -> runs im1 tr' im2 -> runs im (tr ++ tr') im2.
Proof. intros [H1 S1] [H2 S2]. split; [by etrans|by eapply store_runs_app]. Qed.

Lemma store_runs_refl s : store_runs s [] s.
Proof. destruct s; cbn; [|done]. split; [by apply evolves_nil|]. done. Qed.

(** ** The judgement *)
Definition etr {A} (m : EngM A) (Q : A -> list Effect -> EngineImpl -> Prop) (im : EngineImpl) : Prop :=
  forall fs, exists tr, runs im tr (m im fs).1.2 /\ Q (m im fs).1.1 tr (m im fs).1.2.

Lemma etr_mono {A} (m : EngM A) (P Q : A -> list Effect -> EngineImpl -> Prop) im :
  etr m P im -> (forall a tr im', runs im tr im' -> P a tr im' -> Q a tr im') -> etr m Q im.
Proof. intros H HQ fs. destruct (H fs) as (tr & Hr & HP). exists tr. auto. Qed.

Lemma etr_ret {A} (x : A) Q im : Q x [] im -> etr (eret x) Q im.
Proof. intros H fs. exists []. split; [|exact H]. split; [done|apply store_runs_refl]. Qed.

Lemma etr_get (Q : EngineImpl -> list Effect -> EngineImpl -> Prop) im : Q im [] im -> etr eget Q im.
Proof. intros H fs. exists []. split; [|exact H]. split; [done|apply store_runs_refl]. Qed.

Lemma etr_modify f Q im :
  steady_engine im (f im) -> im_store (f im) = im_store im -> Q tt [] (f im) -> etr (emodify f) Q im.
Proof.
  intros Hs He HQ fs. exists []. split; [|exact HQ]. split; [exact Hs|]. cbn. rewrite He. apply store_runs_refl.
Qed.

Lemma etr_bind {A B} (m : EngM A) (k : A -> EngM B) Q im :
  etr m (fun a tr im1 => etr (k a) (fun b tr' im2 => Q b (tr ++ tr') im2) im1) im ->
  etr (ebind m k) Q im.
Proof.
  intros H fs. destruct (H fs) as (tr & Hr & Hk). unfold ebind, iobind.
  destruct (m im fs) as [[a im1] fs1]. cbn [fst snd] in *.
  destruct (Hk fs1) as (tr' & Hr' & HQ). exists (tr ++ tr'). split; [by eapply runs_app|done].
Qed.

(** ** Rules for the commits *)
Lemma store_commit_runs store type payload apply fs tr :
  (forall seq l, match tr with [] => same_core l (apply seq l)
     | [e] => same_core (effect_apply e seq l) (apply seq l) | _ => False end) ->
  match store_commit store type payload apply fs with
  | (status, store', _) =>
      (status = status_success /\ store_runs store tr store' /\ store_failed store = false) \/
      (status_ok status = false /\ store_runs store [] store' /\ store_failed store' = true)
  end.
Proof.
  intros Ha. destruct store as [s|]; cbn [store_commit]; [|by right].
  unfold iobind, ioret. destruct (store_commit_impl s type payload apply fs) as [[status s'] fs'] eqn:E.
  cbn [fst snd]. apply store_commit_impl_cases in E as [next w w' -> Hf Hn Hw _ ->|Hs Hl Hf _].
  - left. split; [done|]. split; [|done]. cbn [store_runs]. split.
    + specialize (Ha next (sm_lineage s)). destruct tr as [|e [|? ?]]; [| |done].
      * apply evolves_nil. exact Ha.
      * apply (evolves_cons _ e next (apply next (sm_lineage s)) []); [exact Ha|]. by apply evolves_nil.
    + intros Hf'. congruence.
  - right. split; [done|]. split; [|done]. cbn [store_runs]. rewrite Hl. split; [by apply evolves_nil|]. done.
Qed.

(** A refused commit leaves a run without effects and marks the engine failed. *)
Definition refused (status : Status) (tr : list Effect) (im' : EngineImpl) : Prop :=
  status_ok status = false /\ tr = [] /\ im_store_failed im' = true.

Lemma etr_engine_commit type payload apply tr im (Q : Status -> list Effect -> EngineImpl -> Prop) :
  (forall seq l, match tr with [] => same_core l (apply seq l)
     | [e] => same_core (effect_apply e seq l) (apply seq l) | _ => False end) ->
  (forall im', runs im tr im' -> Q status_success tr im') ->
  (forall status im', runs im [] im' -> refused status [] im' -> Q status [] im') ->
  etr (engine_commit type payload apply) Q im.
Proof.
  intros Ha Hok Hbad fs. unfold engine_commit, iobind.
  pose proof (store_commit_runs (im_store im) type payload apply fs tr Ha) as H.
  destruct (store_commit (im_store im) type payload apply fs) as [[status store'] fs'].
  destruct H as [(-> & Hr & _)|(Hs & Hr & _)]; cbn [fst snd ioret].
  - exists tr. cbn [status_ok]. assert (runs im tr (set_im_store store' im)) by (by split; [split|]).
    split; [done|by apply Hok].
  - exists []. rewrite Hs. set (im' := set_im_store_failed true (set_im_store store' im)).
    assert (runs im [] im') by (by split; [split|]). split; [done|]. by apply Hbad.
Qed.

Lemma etr_create r im (Q : Status -> list Effect -> EngineImpl -> Prop) :
  (forall im', runs im [Create r] im' -> Q status_success [Create r] im') ->
  (forall status im', runs im [] im' -> refused status [] im' -> Q status [] im') ->
  etr (commit_create r) Q im.
Proof. by apply (etr_engine_commit _ _ _ [Create r]). Qed.

Lemma etr_update type r im (Q : Status -> list Effect -> EngineImpl -> Prop) :
  (forall im', runs im [Update r] im' -> Q status_success [Update r] im') ->
  (forall status im', runs im [] im' -> refused status [] im' -> Q status [] im') ->
  etr (commit_update type r) Q im.
Proof. by apply (etr_engine_commit _ _ _ [Update r]). Qed.

Lemma etr_fence f im (Q : Status -> list Effect -> EngineImpl -> Prop) :
  (forall im', runs im [Fence f] im' -> Q status_success [Fence f] im') ->
  (forall status im', runs im [] im' -> refused status [] im' -> Q status [] im') ->
  etr (commit_fence f) Q im.
Proof. by apply (etr_engine_commit _ _ _ [Fence f]). Qed.

(** ** Checkpoints leave the core alone *)
Lemma commit_impl_silent s type payload fs :
  same_core (sm_lineage s) (sm_lineage (store_commit_impl s type payload (fun _ l => l) fs).1.2).
Proof.
  destruct (store_commit_impl s type payload (fun _ l => l) fs) as [[status s'] fs'] eqn:E. cbn [fst snd].
  by apply store_commit_impl_cases in E as [next w w' -> Hf Hn Hw _ ->|Hs -> Hf _].
Qed.

Lemma checkpoint_rotate_core s size fs :
  same_core (sm_lineage s) (sm_lineage (checkpoint_rotate s size fs).1.2).
Proof.
  unfold checkpoint_rotate, iobind. cbv zeta. destruct (journal_open _ _ _ _ fs) as [[w|e] fs1]; [|done].
  destruct (fs_rename _ _ fs1) as [renamed fs2]. destruct (has_value renamed); [done|].
  destruct (journal_open _ _ _ _ fs2) as [[w'|e] fs3]; [|done].
  match goal with |- context [store_commit_impl ?x ?t ?p ?f fs3] =>
    pose proof (commit_impl_silent x t p fs3) as Hc; destruct (store_commit_impl x t p f fs3) as [[st s'] fs4] end.
  cbn [fst snd] in *. by destruct (negb (status_ok st)).
Qed.

Lemma store_checkpoint_runs store fs : store_runs store [] (store_checkpoint store fs).1.2.
Proof.
  destruct store as [s|]; [|done]. cbn [store_checkpoint]. destruct (sm_failed s) eqn:Hf.
  { cbn. split; [by apply evolves_nil|done]. }
  unfold iobind at 1. unfold checkpoint_snapshot. destruct (serialise (sm_state s)) as [payload|e].
  2: { cbn. split; [by apply evolves_nil|]. congruence. }
  unfold iobind at 1. destruct (write_file_atomic _ _ fs) as [st fs1]. destruct (negb (status_ok st)).
  { cbn. split; [by apply evolves_nil|]. congruence. }
  cbn [ioret]. unfold iobind at 1.
  match goal with |- context [checkpoint_rotate ?x ?n fs1] => pose proof (checkpoint_rotate_core x n fs1) as Hc;
    destruct (checkpoint_rotate x n fs1) as [[r s'] fs2] end.
  cbn [fst snd ioret store_runs] in *. split; [by apply evolves_nil|congruence].
Qed.

Lemma etr_checkpoint im (Q : Result LineageSeq -> list Effect -> EngineImpl -> Prop) :
  (forall r im', runs im [] im' -> (result_ok r = false -> im_store_failed im' = true) -> Q r [] im') ->
  etr run_checkpoint Q im.
Proof.
  intros H fs. unfold run_checkpoint, iobind. pose proof (store_checkpoint_runs (im_store im) fs) as Hr.
  destruct (store_checkpoint (im_store im) fs) as [[r store'] fs']. cbn [fst snd ioret] in *.
  exists []. destruct (result_ok r) eqn:E.
  - assert (runs im [] (set_im_store store' im)) by (by split; [split|]). split; [done|]. apply H; [done|congruence].
  - set (im' := set_im_store_failed true (set_im_store store' im)).
    assert (runs im [] im') by (by split; [split|]). split; [done|]. by apply H.
Qed.

Lemma etr_maybe_checkpoint im (Q : unit -> list Effect -> EngineImpl -> Prop) :
  (forall im', runs im [] im' -> Q tt [] im') -> etr maybe_checkpoint Q im.
Proof.
  intros H. unfold maybe_checkpoint. apply etr_bind, etr_get. cbn [app].
  assert (Hid : runs im [] im) by (split; [done|apply store_runs_refl]).
  destruct (checkpoint_due im); [|by apply etr_ret, H].
  apply etr_bind, etr_checkpoint. intros r im' Hr _. by apply etr_ret, H.
Qed.

(** ** Settling a decision *)
(** What settling never changes of a decision: everything but its identity, the
    durability mark, the lineage position and the reasons. *)
Definition content (d : FailoverDecision) : DecisionKind * Assertion * Outcome *
    (string * LinkKey * Z) * (bool * LinkKey * Z) * (Z * Digest * Z * Incarnation) *
    (AuthorityVector * Digest * bool * list CandidateAssessment) :=
  (fd_kind d, fd_assertion d, fd_outcome d, (fd_fabric d, fd_subject d, fd_subject_generation d),
   (fd_has_replacement d, fd_replacement d, fd_replacement_generation d),
   (fd_attempt_seq d, fd_attempt_id d, fd_epoch d, fd_coordinator d),
   (fd_authority d, fd_evidence_digest d, fd_idempotent_replay d, fd_candidates d)).

(** A trace that writes no attempt. *)
Definition quiet (tr : list Effect) : Prop := Forall (fun e => exists i, e = Index i) tr.

Lemma quiet_nil : quiet [].
Proof. constructor. Qed.
#[export] Hint Resolve quiet_nil : core.

Lemma etr_commit_decision d im (Q : FailoverDecision -> list Effect -> EngineImpl -> Prop) :
  (forall d' im', runs im [] im' -> content d' = content d -> 
     (fd_durable d' = false -> im_store_failed im' = true) -> Q d' [] im') ->
  etr (commit_decision d) Q im.
Proof.
  intros H. unfold commit_decision. apply etr_bind, (etr_engine_commit _ _ _ []); [done| |].
  - intros im' Hr. apply etr_bind, etr_get. apply etr_ret, H; done.
  - intros status im' Hr (Hs & _ & Hf). apply etr_bind, etr_get. rewrite Hs. apply etr_ret, H; done.
Qed.

Lemma etr_remember d im (Q : unit -> list Effect -> EngineImpl -> Prop) :
  (forall im', runs im [] im' -> Q tt [] im') -> etr (remember_decision d) Q im.
Proof.
  intros H. apply etr_modify; [by split|done|]. apply H. split; [by split|]. apply store_runs_refl.
Qed.

Lemma etr_commit_idempotency d key im (Q : unit -> list Effect -> EngineImpl -> Prop) :
  (forall tr im', runs im tr im' -> quiet tr -> Q tt tr im') -> etr (commit_idempotency d key) Q im.
Proof.
  intros H. unfold commit_idempotency. cbv zeta.
  assert (Hid : runs im [] im) by (split; [done|apply store_runs_refl]).
  destruct (_ || _)%bool; [by apply etr_ret, H|]. destruct (_ >? _); [by apply etr_ret, H|].
  apply etr_bind, (etr_engine_commit _ _ _ [Index (idempotency_of key d)]); [done| |].
  - intros im' Hr. apply etr_ret, H; [done|]. repeat constructor. by eexists.
  - intros s im' Hr _. by apply etr_ret, H.
Qed.

Lemma etr_settle_undurable d im :
  etr (settle_undurable d) (fun r tr _ => tr = [] /\ exists d', r = Success d' /\ content d' = content d /\
    fd_durable d' = false) im.
Proof.
  unfold settle_undurable. apply etr_bind, etr_remember. intros im' Hr. apply etr_ret.
  split; [done|]. by eexists.
Qed.

Lemma etr_settle_durable d key im :
  etr (settle_durable d key) (fun r tr _ => quiet tr /\ exists d', r = Success d' /\ content d' = content d) im.
Proof.
  unfold settle_durable. apply etr_bind, etr_commit_decision. intros d' im1 _ Hd _.
  apply etr_bind, etr_commit_idempotency. intros tr im2 _ Hq.
  apply etr_bind, etr_maybe_checkpoint. intros im3 _. apply etr_bind, etr_remember. intros im4 _.
  apply etr_ret. rewrite !app_nil_r. split; [done|]. by eexists.
Qed.

Lemma etr_settle d key b im :
  etr (settle d key b) (fun r tr _ => quiet tr /\ exists d', r = Success d' /\ content d' = content d) im.
Proof.
  unfold settle. destruct b; [apply etr_settle_durable|].
  eapply etr_mono; [apply etr_settle_undurable|]. cbn. intros r tr im' _ (-> & d' & -> & Hc & _).
  split; [constructor|]. by eexists.
Qed.

(** ** The failover request *)
(** A decision that confers authority now: not the replay of an earlier one. *)
Definition fresh_grant (d : FailoverDecision) : Prop :=
  fd_kind d = DecisionKind.Grant /\ fd_idempotent_replay d = false.

(** Everything that holds when a grant is attempted, in the order of the code. *)
Record grant_conditions (im : EngineImpl) (q : FailoverRequest) (link : LinkDefinition)
    (verdict : FailureVerdict) (chosen : CandidateAssessment) (seq : AttemptSeq) : Prop := {
  gc_request : request_refused im q = None;
  gc_new : find_idempotency (engine_state im) (fq_idempotency_key q) = None;
  gc_link : topology_find (ds_topology (engine_state im)) (fq_subject q) = Some link;
  gc_generation : ld_generation link = fq_subject_generation q;
  gc_expected : compare_authority (fq_expected q)
    (current_authority im (fq_subject q) (fq_subject_generation q)) = [];
  gc_enabled : fp_failover_enabled (ds_policy (engine_state im)) = true;
  gc_vacant : active_authority (engine_state im) (fq_subject q) (fq_subject_generation q) = None;
  gc_settled : forall latest,
    latest_attempt (engine_state im) (fq_subject q) (fq_subject_generation q) = Some latest ->
    at_phase latest <> AttemptPhase.Interrupted;
  gc_verdict : verdict = evaluate_failure im (fq_subject q) (fq_subject_generation q)
    (ds_policy (engine_state im)) (ts_generation (ds_topology (engine_state im)));
  gc_established : fv_established verdict = true;
  gc_selected : so_status (select_replacement (selection_input im q link)) = SelectionStatus.Selected;
  gc_chosen : exists i, so_selected_index (select_replacement (selection_input im q link)) = Some i /\
    so_assessments (select_replacement (selection_input im q link)) !! i = Some chosen;
  gc_budget : attempts_so_far im q < fp_max_attempts_per_generation (ds_policy (engine_state im));
  gc_seq : checked_add_u64 (attempts_so_far im q) 1 = Some seq;
}.

(** The decision of a grant before it is settled. *)
Definition granted (im : EngineImpl) (q : FailoverRequest) (link : LinkDefinition)
    (verdict : FailureVerdict) (chosen : CandidateAssessment) (seq : AttemptSeq) : FailoverDecision :=
  grant_decision im q link verdict chosen seq
    (set_fd_evidence_digest (fv_evidence_digest verdict)
      (set_fd_candidates (so_assessments (select_replacement (selection_input im q link)))
        (failover_decision im q))).

(** The sequence and the identity of a recorded attempt. *)
Definition numbered (im : EngineImpl) (q : FailoverRequest) (d : FailoverDecision) : Prop :=
  within_budget im q = true /\ fd_attempt_seq d = wrap64 (attempts_so_far im q + 1) /\
  fd_attempt_id d = compute_attempt_id (eo_fabric (im_options im)) (fq_subject q)
    (fq_subject_generation q) (fd_attempt_seq d).

Lemma numbered_id im q d : within_budget im q = true ->
  fd_attempt_seq d = wrap64 (attempts_so_far im q + 1) ->
  numbered im q (set_fd_attempt_id (compute_attempt_id (eo_fabric (im_options im)) (fq_subject q)
    (fq_subject_generation q) (fd_attempt_seq d)) d).
Proof. intros Hb Hs. unfold numbered. cbn [fd_attempt_id fd_attempt_seq set_fd_attempt_id]. auto. Qed.
Lemma numbered_ext im q d d' : numbered im q d -> fd_attempt_seq d' = fd_attempt_seq d ->
  fd_attempt_id d' = fd_attempt_id d -> numbered im q d'.
Proof. unfold numbered. by intros (? & ? & ?) -> ->. Qed.

(** The outcomes of a request, with the trace each leaves. [im] is the engine
    after the clock has advanced. *)
Inductive failover_result (im : EngineImpl) (q : FailoverRequest) (r : Result FailoverDecision)
    (tr : list Effect) : Prop :=
  | FoRefused : (forall d, r = Success d -> ~ fresh_grant d) -> quiet tr -> failover_result im q r tr
  | FoUndecided d ev rest :
      (forall d, r = Success d -> ~ fresh_grant d) -> fd_kind d <> DecisionKind.Grant ->
      numbered im q d ->
      tr = Create (undecided_attempt im q d ev) :: rest -> quiet rest -> failover_result im q r tr
  | FoStaged link verdict chosen seq :
      grant_conditions im q link verdict chosen seq -> result_ok r = false ->
      tr = [Create (grant_attempt im q link verdict (granted im q link verdict chosen seq))] ->
      failover_result im q r tr
  | FoGranted link verdict chosen seq d rest :
      grant_conditions im q link verdict chosen seq -> r = Success d ->
      content d = content (granted im q link verdict chosen seq) ->
      tr = Create (grant_attempt im q link verdict (granted im q link verdict chosen seq)) ::
           Update (set_at_phase AttemptPhase.Authorized
             (grant_attempt im q link verdict (granted im q link verdict chosen seq))) :: rest ->
      quiet rest -> failover_result im q r tr.

Lemma content_kind d d' : content d = content d' -> fd_kind d = fd_kind d' /\
  fd_idempotent_replay d = fd_idempotent_replay d'.
Proof. by intros [=]. Qed.

Lemma settle_refused d key b im q im0 : fd_kind d <> DecisionKind.Grant ->
  etr (settle d key b) (fun r tr _ => failover_result im0 q r tr) im.
Proof.
  intros Hk. eapply etr_mono; [apply etr_settle|]. cbn. intros r tr im' _ (Hq & d' & -> & Hc).
  apply FoRefused; [|done]. intros d2 [= <-] [Hg _]. apply content_kind in Hc as [? _]. congruence.
Qed.

Lemma settle_undecided_result im q d ev : fd_kind d <> DecisionKind.Grant ->
  (within_budget im q = true -> numbered im q d) ->
  etr (settle_undecided im q d ev) (fun r tr _ => failover_result im q r tr) im.
Proof.
  intros Hk Hn. unfold settle_undecided. destruct (within_budget im q) eqn:Hb; [|by apply settle_refused].
  apply etr_bind, etr_create.
  - intros im1 _. cbn [status_ok]. eapply etr_mono; [apply etr_settle|]. cbn.
    intros r tr im' _ (Hq & d' & -> & Hc). eapply FoUndecided; [|exact Hk|by apply Hn|reflexivity|exact Hq].
    intros d2 [= <-] [Hg _]. apply content_kind in Hc as [? _]. congruence.
  - intros s im1 _ (Hs & _). rewrite Hs. apply etr_ret, FoRefused; [done|constructor].
Qed.

Lemma unestablished_result im q d verdict :
  etr (failover_unestablished im q d verdict) (fun r tr _ => failover_result im q r tr) im.
Proof.
  unfold failover_unestablished. cbv zeta. apply settle_undecided_result.
  - destruct (within_budget im q); cbn; by destruct (enum_eqb _ _).
  - intros Hb. rewrite Hb. by apply numbered_id.
Qed.

Lemma unselected_result im q d status : status <> SelectionStatus.Selected ->
  etr (failover_unselected im q d status) (fun r tr _ => failover_result im q r tr) im.
Proof.
  intros Hs. unfold failover_unselected. cbv zeta. apply settle_undecided_result; [by destruct status|].
  intros Hb. assert (Hn := numbered_id im q (set_fd_attempt_seq (wrap64 (attempts_so_far im q + 1))
    (set_fd_assertion Assertion.Eligibility d)) Hb eq_refl).
  by destruct status; [|apply (numbered_ext _ _ _ _ Hn)..].
Qed.

Lemma grant_result im q link verdict chosen seq :
  grant_conditions im q link verdict chosen seq ->
  etr (failover_grant im q link verdict (granted im q link verdict chosen seq))
    (fun r tr _ => failover_result im q r tr) im.
Proof.
  intros Hg. unfold failover_grant. cbv zeta. apply etr_bind, etr_create.
  2: { intros s im1 _ (Hs & _). rewrite Hs. apply etr_ret, FoRefused; [done|constructor]. }
  intros im1 _. cbn [status_ok negb]. apply etr_bind, etr_update.
  - intros im2 _. eapply etr_mono; [apply etr_settle_durable|]. cbn.
    intros r tr im' _ (Hq & d' & -> & Hc). by eapply FoGranted.
  - intros s im2 _ (Hs & _). rewrite Hs. apply etr_ret. by eapply FoStaged.
Qed.

(** The stages before the evidence: [None] when the request goes on. *)
Lemma failover_gate_kind im q d d' durable :
  failover_gate im q d = Some (d', durable) -> fd_kind d' <> DecisionKind.Grant.
Proof.
  unfold failover_gate. cbv zeta. destruct (compare_authority _ _); [|by intros [= <- <-]].
  destruct (negb _); [by intros [= <- <-]|]. destruct (active_authority _ _ _); [by intros [= <- <-]|].
  destruct (latest_attempt _ _ _) as [l|]; [|done]. destruct (negb _); [done|]. intros [= <- <-].
  by destruct (at_revalidated l).
Qed.

Lemma failover_gate_None im q d :
  fd_authority d = current_authority im (fq_subject q) (fq_subject_generation q) ->
  failover_gate im q d = None ->
  compare_authority (fq_expected q) (current_authority im (fq_subject q) (fq_subject_generation q)) = [] /\
  fp_failover_enabled (ds_policy (engine_state im)) = true /\
  active_authority (engine_state im) (fq_subject q) (fq_subject_generation q) = None /\
  forall latest, latest_attempt (engine_state im) (fq_subject q) (fq_subject_generation q) = Some latest ->
    at_phase latest <> AttemptPhase.Interrupted.
Proof.
  intros Ha. unfold failover_gate. cbv zeta. rewrite Ha. destruct (compare_authority _ _); [|done].
  destruct (fp_failover_enabled _); [|done]. cbn [negb]. destruct (active_authority _ _ _); [done|].
  destruct (latest_attempt _ _ _) as [l|]; [|done]. unfold phase_is.
  destruct (enum_eqb (at_phase l) AttemptPhase.Interrupted) eqn:E; [done|]. intros _.
  split; [done|split; [done|split; [done|]]]. intros ? [= <-] Hp. rewrite Hp in E. done.
Qed.

(** The gates a request passes before the selection. *)
Record selection_conditions (im : EngineImpl) (q : FailoverRequest) (link : LinkDefinition)
    (verdict : FailureVerdict) : Prop := {
  sc_request : request_refused im q = None;
  sc_new : find_idempotency (engine_state im) (fq_idempotency_key q) = None;
  sc_link : topology_find (ds_topology (engine_state im)) (fq_subject q) = Some link;
  sc_generation : ld_generation link = fq_subject_generation q;
  sc_gate : failover_gate im q (failover_decision im q) = None;
  sc_verdict : verdict = evaluate_failure im (fq_subject q) (fq_subject_generation q)
    (ds_policy (engine_state im)) (ts_generation (ds_topology (engine_state im)));
  sc_established : fv_established verdict = true;
}.

Lemma select_result im q link verdict :
  selection_conditions im q link verdict ->
  etr (failover_select im q link verdict (failover_decision im q))
    (fun r tr _ => failover_result im q r tr) im.
Proof.
  intros [Hreq Hnew Hlink Hgen Hgate Hv Hest].
  apply failover_gate_None in Hgate as (Hexp & Hen & Hvac & Hset); [|done].
  unfold failover_select. cbv zeta.
  destruct (status_ok (validate_selection _ _)); cbn [negb]; [|by apply etr_ret, FoRefused].
  destruct (enum_eqb (so_status _) SelectionStatus.Selected) eqn:Hsel; cbn [negb].
  2: { apply unselected_result. intros E. rewrite E in Hsel. done. }
  apply enum_eqb_eq in Hsel. destruct (within_budget im q) eqn:Hb; cbn [negb]; [|by apply settle_refused].
  destruct (so_selected_index _) as [i|] eqn:Hi; cbn [mbind option_bind]; [|by apply etr_ret, FoRefused].
  destruct (so_assessments _ !! i) as [chosen|] eqn:Hc; [|by apply etr_ret, FoRefused].
  destruct (existsb _ _); cbn [negb]; [|by apply etr_ret, FoRefused].
  destruct (checked_add_u64 _ 1) as [seq|] eqn:Hs; [|by apply etr_ret, FoRefused].
  apply (grant_result im q link verdict chosen seq).
  split; try done; [by exists i|]. unfold within_budget in Hb. lia.
Qed.

(** Every request ends in one of the outcomes. *)
Lemma request_failover_result q im :
  etr (request_failover q)
    (fun r tr im' => (unavailable im <> None /\ result_ok r = false /\ tr = [] /\ im' = im) \/
                     (unavailable im = None /\ failover_result (advance_tick im) q r tr)) im.
Proof.
  unfold request_failover. apply etr_bind, etr_get.
  destruct (unavailable im) as [s|] eqn:Hu; [by apply etr_ret; left|].
  apply etr_bind, etr_modify; [by split|done|]. apply etr_bind, etr_get. set (im1 := advance_tick im).
  cbn [app]. eapply (etr_mono _ (fun r tr _ => failover_result im1 q r tr)); [|by right].
  destruct (request_refused im1 q) eqn:Hr; [by apply etr_ret, FoRefused|].
  destruct (find_idempotency _ _) eqn:Hi.
  { apply etr_ret, FoRefused; [|done]. by intros d [= <-] [_ ?]. }
  destruct (bind_subject im1 q) as [link|s] eqn:Hb; [|by apply etr_ret, FoRefused].
  unfold bind_subject in Hb. destruct (topology_find _ _) as [d|] eqn:Ht; [|done].
  destruct (ld_generation d =? fq_subject_generation q) eqn:Hg; cbn [negb] in Hb; [|done].
  injection Hb as ->. apply Z.eqb_eq in Hg.
  destruct (failover_gate im1 q (failover_decision im1 q)) as [[d' durable]|] eqn:Hgate.
  { apply settle_refused. by eapply failover_gate_kind. }
  destruct (fv_established _) eqn:He; cbn [negb].
  - by apply select_result.
  - apply unestablished_result.
Qed.

(** ** Operations on an attempt *)
Lemma etr_decided d im (k : FailoverDecision -> EngM (Result FailoverDecision)) Q :
  (forall d' im', runs im [] im' -> content d' = content d -> etr (k d') Q im') ->
  etr (ebind (commit_decision d) k) Q im.
Proof. intros H. apply etr_bind, etr_commit_decision. intros d' im' Hr Hc _. cbn [app]. by apply H. Qed.

Lemma etr_finish (d : FailoverDecision) im Q : Q (Success d) [] ->
  etr (ebind (remember_decision d) (fun _ => eret (Success d))) (fun r tr _ => Q r tr) im.
Proof. intros H. apply etr_bind, etr_remember. intros im' _. by apply etr_ret. Qed.

Lemma etr_tick {A} (k : EngM A) (Q : A -> list Effect -> Prop) im :
  etr k (fun r tr _ => Q r tr) (advance_tick im) ->
  etr (ebind (emodify advance_tick) (fun _ => k)) (fun r tr _ => Q r tr) im.
Proof. intros H. apply etr_bind, etr_modify; [by split|done|exact H]. Qed.

(** An application report writes at most one update, of an authorized attempt. *)
Inductive application_result (im : EngineImpl) (report : ApplicationReport)
    (r : Result FailoverDecision) (tr : list Effect) : Prop :=
  | ApNothing : tr = [] -> application_result im report r tr
  | ApWritten found d :
      find_attempt (engine_state im) (ar_subject report) (ar_attempt_seq report) = Some found ->
      at_subject_generation found = ar_subject_generation report ->
      at_attempt_id found = ar_attempt_id report -> at_phase found = AttemptPhase.Authorized ->
      r = Success d -> tr = [Update (application_update im report found)] ->
      application_result im report r tr.

Lemma application_late_None found d :
  application_late found d = None -> at_phase found = AttemptPhase.Authorized.
Proof. unfold application_late, phase_is. destruct (at_phase found); cbn; done. Qed.

Lemma record_application_result report im :
  etr (record_application report) (fun r tr _ => application_result im report r tr) im.
Proof.
  unfold record_application. apply etr_bind, etr_get. destruct (unavailable im); [by apply etr_ret, ApNothing|].
  apply etr_tick. destruct (find_attempt _ _ _) as [found|] eqn:Hf; [|by apply etr_ret, ApNothing].
  destruct (at_subject_generation found =? ar_subject_generation report) eqn:Hg; cbn [negb];
    [|by apply etr_ret, ApNothing].
  destruct (bool_decide (at_attempt_id found = ar_attempt_id report)) eqn:Hid; cbn [negb];
    [|by apply etr_ret, ApNothing].
  destruct (incarnation_is_zero _); [by apply etr_ret, ApNothing|].
  unfold apply_report. apply etr_bind, etr_get. cbn [app].
  destruct (application_late found _) as [d|] eqn:Hl.
  { eapply etr_mono; [apply etr_settle_undurable|]. intros r tr im' _ [-> _]. by apply ApNothing. }
  apply application_late_None in Hl. bool_prop. apply etr_bind, etr_update.
  2: { intros s im1 _ (Hs & _). rewrite Hs. by apply etr_ret, ApNothing. }
  intros im1 _. cbn [status_ok negb]. apply etr_decided. intros d' im2 _ _.
  apply etr_bind, etr_maybe_checkpoint. intros im3 _. apply etr_finish. by eapply ApWritten.
Qed.

(** A verification writes only about an acknowledged attempt: one undecided
    ending, or Verified and then Committed. *)
Definition verified_record (report : VerificationReport) (found : AttemptRecord) : AttemptRecord :=
  push_reason ReasonCode.EffectVerified (vr_detail report) (set_at_phase AttemptPhase.Verified found).

Inductive verification_result (im : EngineImpl) (report : VerificationReport) (tr : list Effect) : Prop :=
  | VeNothing : tr = [] -> verification_result im report tr
  | VeWritten found :
      find_attempt (engine_state im) (vr_subject report) (vr_attempt_seq report) = Some found ->
      at_attempt_id found = vr_attempt_id report -> at_phase found = AttemptPhase.Acknowledged ->
      (if vr_effect_observed report
       then tr `prefix_of` [Update (verified_record report found);
              Update (set_at_phase AttemptPhase.Committed (verified_record report found))]
       else tr = [Update (push_reason ReasonCode.EffectUnverified (vr_detail report)
                   (set_at_phase AttemptPhase.Indeterminate found))]) ->
      verification_result im report tr.

Lemma verification_late_None found d :
  verification_late found d = None -> at_phase found = AttemptPhase.Acknowledged.
Proof. unfold verification_late, phase_is. destruct (at_phase found); cbn; done. Qed.

Lemma record_verification_result report im :
  etr (record_verification report) (fun _ tr _ => verification_result im report tr) im.
Proof.
  unfold record_verification. apply etr_bind, etr_get. destruct (unavailable im); [by apply etr_ret, VeNothing|].
  apply etr_tick. destruct (find_attempt _ _ _) as [found|] eqn:Hf; [|by apply etr_ret, VeNothing].
  destruct (bool_decide (at_attempt_id found = vr_attempt_id report)) eqn:Hid; cbn [negb];
    [|by apply etr_ret, VeNothing].
  destruct (verification_late found _) as [d|] eqn:Hl.
  { eapply etr_mono; [apply etr_settle_undurable|]. intros r tr im' _ [-> _]. by apply VeNothing. }
  apply verification_late_None in Hl. bool_prop.
  assert (Hw := VeWritten im report). destruct (vr_effect_observed report) eqn:Ho; cbn [negb].
  - unfold verify_observed. cbv zeta. fold (verified_record report found). apply etr_bind, etr_update.
    2: { intros s im1 _ (Hs & _). rewrite Hs. by apply etr_ret, VeNothing. }
    intros im1 _. cbn [status_ok negb]. apply etr_bind, etr_update.
    2: { intros s im2 _ (Hs & _). rewrite Hs. apply etr_ret, (Hw _ found); [done..|]. by eexists. }
    intros im2 _. cbn [status_ok negb]. apply etr_decided. intros d' im3 _ _.
    apply etr_bind, etr_maybe_checkpoint. intros im4 _. apply (etr_finish d' _ (fun _ tr => verification_result im report _)).
    by apply (Hw _ found).
  - unfold verify_unobserved. apply etr_bind, etr_update.
    2: { intros s im1 _ (Hs & _). rewrite Hs. by apply etr_ret, VeNothing. }
    intros im1 _. cbn [status_ok negb]. apply etr_decided. intros d' im2 _ _.
    apply (etr_finish d' _ (fun _ tr => verification_result im report _)). by apply (Hw _ found).
Qed.

(** A rollback revokes one attempt that holds authority, then fences it. *)
Definition revoked_record (q : RollbackRequest) (found : AttemptRecord) : AttemptRecord :=
  push_reason ReasonCode.RollbackRequested (bq_rationale q) (set_at_phase AttemptPhase.RolledBack found).

Inductive rollback_result (im : EngineImpl) (q : RollbackRequest) (r : Result FailoverDecision)
    (tr : list Effect) : Prop :=
  | RbNothing : tr = [] -> rollback_result im q r tr
  | RbWritten found f rest :
      find_attempt (engine_state im) (bq_subject q) (bq_attempt_seq q) = Some found ->
      attempt_phase_holds_authority (at_phase found) = true ->
      (result_ok r = false /\ tr = [Update (revoked_record q found)] \/
       tr = Update (revoked_record q found) :: Fence f :: rest /\ quiet rest) ->
      rollback_result im q r tr.

Lemma rollback_settled_None im q found d :
  rollback_settled im q found d = None -> attempt_phase_holds_authority (at_phase found) = true.
Proof.
  unfold rollback_settled. destruct (compare_authority _ _); [|done]. destruct (phase_is _ _); [done|].
  by destruct (attempt_phase_holds_authority _).
Qed.

Lemma request_rollback_result q im :
  etr (request_rollback q) (fun r tr _ => rollback_result im q r tr) im.
Proof.
  unfold request_rollback. apply etr_bind, etr_get.
  destruct (engine_shutting_down im); [by apply etr_ret, RbNothing|]. apply etr_tick.
  destruct (find_idempotency _ _); [by apply etr_ret, RbNothing|].
  destruct (find_attempt _ _ _) as [found|] eqn:Hf; [|by apply etr_ret, RbNothing].
  destruct (rollback_settled im q found _) as [d|] eqn:Hs.
  { eapply etr_mono; [apply etr_settle_undurable|]. intros r tr im' _ [-> _]. by apply RbNothing. }
  apply rollback_settled_None in Hs. unfold revoke. fold (revoked_record q found).
  apply etr_bind, etr_update.
  2: { intros s im1 _ (Hn & _). rewrite Hn. by apply etr_ret, RbNothing. }
  intros im1 _. cbn [status_ok negb]. apply etr_bind, etr_get. set (f := authority_fence _ _ _ _).
  apply etr_bind, etr_fence.
  2: { intros s im2 _ (Hn & _). rewrite Hn. apply etr_ret, (RbWritten _ _ _ _ found f []); auto. }
  intros im2 _. cbn [status_ok negb]. apply etr_decided. intros d' im3 _ _.
  apply etr_bind, etr_commit_idempotency. intros tr im4 _ Hq.
  apply (etr_finish d' _ (fun r tr' => rollback_result im q r _)).
  apply (RbWritten _ _ _ _ found f tr); [done..|]. right. cbn. by rewrite !app_nil_r.
Qed.

(** A revalidation writes at most once, about an interrupted attempt. *)
Inductive revalidation_result (im : EngineImpl) (q : RevalidationRequest) (tr : list Effect) : Prop :=
  | RvNothing : tr = [] -> revalidation_result im q tr
  | RvWritten found :
      find_attempt (engine_state im) (vq_subject q) (vq_attempt_seq q) = Some found ->
      at_phase found = AttemptPhase.Interrupted -> at_revalidated found = false ->
      vq_observer_epoch q = im_epoch im ->
      tr = [Update (revalidated_record im (vq_verdict q) found)] -> revalidation_result im q tr.

Lemma revalidation_settled_None found d :
  revalidation_settled found d = None ->
  at_phase found = AttemptPhase.Interrupted /\ at_revalidated found = false.
Proof.
  unfold revalidation_settled, phase_is. destruct (at_revalidated found); [done|].
  by destruct (at_phase found).
Qed.

Lemma resolve_interrupted_result q im :
  etr (resolve_interrupted q) (fun _ tr _ => revalidation_result im q tr) im.
Proof.
  unfold resolve_interrupted. apply etr_bind, etr_get.
  destruct (engine_shutting_down im); [by apply etr_ret, RvNothing|].
  destruct (incarnation_is_zero _); [by apply etr_ret, RvNothing|].
  destruct (vq_observer_epoch q =? im_epoch im) eqn:He; cbn [negb]; [|by apply etr_ret, RvNothing].
  apply etr_tick. destruct (find_attempt _ _ _) as [found|] eqn:Hf; [|by apply etr_ret, RvNothing].
  destruct (revalidation_settled found _) as [d|] eqn:Hs.
  { eapply etr_mono; [apply etr_settle_undurable|]. intros r tr im' _ [-> _]. by apply RvNothing. }
  apply revalidation_settled_None in Hs as [Hp Hr]. bool_prop. apply etr_bind, etr_update.
  2: { intros s im1 _ (Hn & _). rewrite Hn. by apply etr_ret, RvNothing. }
  intros im1 _. cbn [status_ok negb]. apply etr_decided. intros d' im3 _ _.
  apply (etr_finish d' _ (fun r tr' => revalidation_result im q _)). by eapply RvWritten.
Qed.

(** ** Definition changes *)
Definition aborted_record (detail : string) (r : AttemptRecord) : AttemptRecord :=
  push_reason ReasonCode.Fenced detail (set_at_phase AttemptPhase.Aborted r).
(** The effects of the fence over a list of records. *)
Definition fence_plan (im : EngineImpl) (kind : FenceKind) (detail : string)
    (records : list AttemptRecord) : list Effect :=
  flat_map (fun r => if attempt_phase_holds_authority (at_phase r)
    then [Update (aborted_record detail r); Fence (authority_fence im kind detail r)] else []) records.

Lemma authority_fence_steady im im' kind detail r :
  steady_engine im im' -> authority_fence im' kind detail r = authority_fence im kind detail r.
Proof. intros []. unfold authority_fence. congruence. Qed.

Lemma fence_authorities_result kind detail records im im0 : steady_engine im0 im ->
  etr (fence_authorities kind detail records)
    (fun s tr _ => tr `prefix_of` fence_plan im0 kind detail records /\
      (status_ok s = true -> s = status_success /\ tr = fence_plan im0 kind detail records)) im.
Proof.
  revert im. induction records as [|r rest IH]; intros im Hs.
  { apply etr_ret. by split. }
  cbn [fence_authorities]. unfold fence_plan. cbn [flat_map].
  destruct (attempt_phase_holds_authority (at_phase r)); cbn [negb]; [|by apply IH].
  fold (aborted_record detail r). fold (fence_plan im0 kind detail rest). apply etr_bind, etr_update.
  2: { intros s im1 _ (Hn & _). rewrite Hn. apply etr_ret. rewrite Hn. split; [|done].
       apply prefix_nil. }
  intros im1 [Hr1 _]. cbn [status_ok negb]. apply etr_bind, etr_get. apply etr_bind.
  rewrite (authority_fence_steady im0 im1) by (by etrans). apply etr_fence.
  2: { intros s im2 _ (Hn & _). rewrite Hn. apply etr_ret. rewrite Hn. split; [|done].
       cbn. apply prefix_cons, prefix_nil. }
  intros im2 [Hr2 _]. cbn [status_ok negb]. eapply etr_mono.
  { apply IH. etrans; [|exact Hr2]. by etrans. }
  cbn. intros s tr im' _ [Hp Hok]. split; [by do 2 apply prefix_cons|].
  intros E. by destruct (Hok E) as [-> ->].
Qed.

Inductive policy_result (im : EngineImpl) (p : FailoverPolicy) (s : Status) (tr : list Effect) : Prop :=
  | PoNothing : tr = [] -> (status_ok s = true -> fp_generation p = fp_generation (ds_policy (engine_state im)) /\
      policy_digest p = policy_digest (ds_policy (engine_state im))) -> policy_result im p s tr
  | PoChanged rest :
      status_ok (policy_validate p) = true -> fp_generation (ds_policy (engine_state im)) < fp_generation p ->
      tr = SetPolicy p :: rest ->
      rest `prefix_of` fence_plan im FenceKind.PolicyChanged "policy generation changed"
        (ds_attempts (engine_state im)) ->
      (status_ok s = true -> rest = fence_plan im FenceKind.PolicyChanged "policy generation changed"
        (ds_attempts (engine_state im))) -> policy_result im p s tr.

Lemma runs_definition_attempts im e im' :
  match e with SetPolicy _ | SetTopology _ => True | _ => False end -> runs im [e] im' ->
  ds_attempts (engine_state im') = ds_attempts (engine_state im).
Proof.
  unfold runs, engine_state. intros He [_ H].
  destruct (im_store im) as [s|], (im_store im') as [s'|]; cbn [store_runs] in H; try done.
  destruct H as [H _]. apply evolves_cons_inv in H as (seq & l1 & Hc & Hc2%evolves_nil_inv).
  apply core_attempts in Hc, Hc2.
  unfold store_state, sm_state. rewrite <- Hc2, <- Hc. by destruct e.
Qed.

Lemma set_policy_result p im :
  etr (set_policy p) (fun s tr _ => policy_result im p s tr) im.
Proof.
  unfold set_policy. apply etr_bind, etr_get. cbv zeta.
  destruct (im_closed im); [apply etr_ret, PoNothing; [done|intros E; discriminate E]|].
  destruct (status_ok (policy_validate p)) eqn:Hv; cbn [negb].
  2: { apply etr_ret, PoNothing; [done|congruence]. }
  destruct (Z.ltb_spec (fp_generation p) (fp_generation (ds_policy (engine_state im)))) as [Hlt|Hge].
  { apply etr_ret, PoNothing; [done|intros E; discriminate E]. }
  destruct (Z.eqb_spec (fp_generation p) (fp_generation (ds_policy (engine_state im)))) as [He|Hne].
  { apply etr_ret, PoNothing; [done|]. case_bool_decide as Hd; intros E; [exact (conj He Hd)|discriminate E]. }
  apply etr_bind, (etr_engine_commit _ _ _ [SetPolicy p]); [done| |].
  2: { intros s im1 _ (Hn & _). rewrite Hn. apply etr_ret, PoNothing; [done|congruence]. }
  intros im1 Hr1. cbn [status_ok negb]. unfold fence_active_authorities. apply etr_bind, etr_get.
  rewrite (runs_definition_attempts im (SetPolicy p) im1) by done.
  eapply etr_mono; [apply (fence_authorities_result _ _ _ _ im), Hr1|]. cbn [app].
  intros s tr im' _ [Hp Hok]. eapply PoChanged; [done|lia|done|done|].
  intros E. by destruct (Hok E).
Qed.

Inductive topology_result (im : EngineImpl) (t : TopologySnapshot) (s : Status) (tr : list Effect) : Prop :=
  | ToNothing : tr = [] -> (status_ok s = true ->
      ts_generation (topology_canonicalise t) = ts_generation (ds_topology (engine_state im)) /\
      topology_digest (topology_canonicalise t) = topology_digest (ds_topology (engine_state im))) ->
      topology_result im t s tr
  | ToChanged rest :
      status_ok (topology_validate (topology_canonicalise t)) = true ->
      ts_generation (ds_topology (engine_state im)) < ts_generation (topology_canonicalise t) ->
      tr = SetTopology (topology_canonicalise t) :: rest ->
      rest `prefix_of` fence_plan im FenceKind.TopologyChanged "topology generation changed"
        (ds_attempts (engine_state im)) ->
      (status_ok s = true -> rest = fence_plan im FenceKind.TopologyChanged "topology generation changed"
        (ds_attempts (engine_state im))) -> topology_result im t s tr.

Lemma set_topology_result t im :
  etr (set_topology t) (fun s tr _ => topology_result im t s tr) im.
Proof.
  unfold set_topology. apply etr_bind, etr_get. cbv zeta. set (c := topology_canonicalise t).
  destruct (im_closed im); [apply etr_ret, ToNothing; [done|intros E; discriminate E]|].
  destruct (status_ok (topology_validate c)) eqn:Hv; cbn [negb].
  2: { apply etr_ret, ToNothing; [done|congruence]. }
  destruct (Z.ltb_spec (ts_generation c) (ts_generation (ds_topology (engine_state im)))) as [Hlt|Hge].
  { apply etr_ret, ToNothing; [done|intros E; discriminate E]. }
  destruct (Z.eqb_spec (ts_generation c) (ts_generation (ds_topology (engine_state im)))) as [He|Hne].
  { apply etr_ret, ToNothing; [done|]. case_bool_decide as Hd; intros E; [exact (conj He Hd)|discriminate E]. }
  apply etr_bind, (etr_engine_commit _ _ _ [SetTopology c]); [done| |].
  2: { intros s im1 _ (Hn & _). rewrite Hn. apply etr_ret, ToNothing; [done|congruence]. }
  intros im1 Hr1. cbn [status_ok negb]. unfold fence_active_authorities. apply etr_bind, etr_get.
  rewrite (runs_definition_attempts im (SetTopology c) im1) by done.
  eapply etr_mono; [apply (fence_authorities_result _ _ _ _ im), Hr1|]. cbn [app].
  intros s tr im' _ [Hp Hok]. eapply ToChanged; [done|fold c; lia|done|done|].
  intros E. by destruct (Hok E).
Qed.
