(* ===== verification/EngineSafety.v ===== *)
(** * Engine: safety

    The guarantees of the engine's operations, proved over the traces of
    EngineLogic.v: when authority is granted and that it is exclusive, the phases
    an attempt can go through, what a definition change and a restart revoke, and
    that a failed store never grants. *)
From S2P Require Import Prelude Status Hash Ids Bytes Evidence Policy Authority Attempt Decision.
From S2P Require Import Selector Fs Journal State Store Intake Engine EngineLogic.

#[local] Opaque compute_attempt_id decision_compute_id topology_digest policy_digest.

(** ** Effects on the attempts *)
(** [e], committed at [seq], writes [r]. *)
Definition writes_attempt (e : Effect) (seq : LineageSeq) (r : AttemptRecord) : Prop :=
  match e with
  | Create r0 => r = set_at_update_seq seq (set_at_create_seq seq r0)
  | Update r0 => r = set_at_update_seq seq r0
  | _ => False
  end.

Abbreviation attempts_of l := (ds_attempts (ln_state l)).

Lemma effect_elem e seq l r :
  r ∈ attempts_of (effect_apply e seq l) -> r ∈ attempts_of l \/ writes_attempt e seq r.
Proof.
  destruct e as [r0|r0|f|i|p|t]; cbn [effect_apply writes_attempt]; [| | | |by left|by left].
  1,2: intros H; apply (proj1 (evict_attempts_spec _)), elem_of_upsert in H as [->|H]; auto.
  - unfold note_fence, evict_fences. by destruct (Nat.leb _ _); left.
  - unfold note_idempotency, evict_idempotency. by destruct (Nat.leb _ _); left.
Qed.

Lemma evolves_elem l tr l' r : evolves l tr l' -> r ∈ attempts_of l' ->
  r ∈ attempts_of l \/ exists e seq, e ∈ tr /\ writes_attempt e seq r.
Proof.
  induction 1 as [l l' Hc|l e seq l1 tr l' Hc H IH]; intros Hr.
  - left. by rewrite (core_attempts _ _ Hc).
  - destruct (IH Hr) as [H1|(e' & seq' & He & Hw)].
    + rewrite <- (core_attempts _ _ Hc) in H1. apply effect_elem in H1 as [H1|H1]; [by left|].
      right. exists e, seq. split; [constructor|done].
    + right. exists e', seq'. split; [by constructor|done].
Qed.

(** Effects leave the boot identity, and definitions to their own effects. *)
Definition boot_of (l : Lineage) : Z * Incarnation := (ds_epoch (ln_state l), ds_coordinator (ln_state l)).

Lemma effect_boot e seq l : boot_of (effect_apply e seq l) = boot_of l.
Proof.
  destruct e; cbn [effect_apply]; unfold note_attempt, note_fence, note_idempotency, boot_of; try done.
  1,2: destruct (evict_attempts_others (upsert_attempt (set_at_update_seq seq r) l)) as (E1 & E2 & _);
       destruct (evict_attempts_others (upsert_attempt (set_at_update_seq seq (set_at_create_seq seq r)) l))
         as (E3 & E4 & _); by rewrite ?E1, ?E2, ?E3, ?E4.
  - unfold evict_fences. by destruct (Nat.leb _ _).
  - unfold evict_idempotency. by destruct (Nat.leb _ _).
Qed.

Lemma evolves_boot l tr l' : evolves l tr l' -> boot_of l' = boot_of l.
Proof.
  intros H. apply (evolves_inv (fun x => boot_of x = boot_of l) l tr l'); [| |done|done].
  - unfold same_core, core, boot_of. intros x y [=]. congruence.
  - intros e seq x _ <-. apply effect_boot.
Qed.

(** ** From runs to lineages *)
Definition engine_lineage (im : EngineImpl) : Lineage :=
  match im_store im with
  | Some s => sm_lineage s
  | None => MkLineage (store_options_of (im_options im)) state_empty status_initial
  end.
Lemma engine_lineage_state im : ln_state (engine_lineage im) = engine_state im.
Proof. unfold engine_lineage, engine_state. by destruct (im_store im). Qed.

Lemma runs_evolves im tr im' : runs im tr im' -> evolves (engine_lineage im) tr (engine_lineage im').
Proof.
  unfold runs, engine_lineage. intros [[Ho _ _ _ _ _ _ _ _ _] H].
  destruct (im_store im), (im_store im'); cbn [store_runs] in H; try done; [apply H|].
  subst tr. rewrite Ho. by apply evolves_nil.
Qed.

Lemma runs_elem im tr im' r : runs im tr im' -> r ∈ ds_attempts (engine_state im') ->
  r ∈ ds_attempts (engine_state im) \/ exists e seq, e ∈ tr /\ writes_attempt e seq r.
Proof. rewrite <- !engine_lineage_state. intros H%runs_evolves. by apply evolves_elem. Qed.

(** The engine's epoch and incarnation are those of the lineage it booted. *)
Definition engine_bound (im : EngineImpl) : Prop :=
  ds_epoch (engine_state im) = im_epoch im /\ ds_coordinator (engine_state im) = im_incarnation im.

Lemma runs_boot im tr im' : runs im tr im' ->
  ds_epoch (engine_state im') = ds_epoch (engine_state im) /\
  ds_coordinator (engine_state im') = ds_coordinator (engine_state im).
Proof.
  intros H%runs_evolves%evolves_boot. revert H. unfold boot_of. rewrite !engine_lineage_state.
  by intros [= -> ->].
Qed.

Lemma runs_live im tr im' subject generation r : runs im tr im' ->
  live_authority (engine_state im') subject generation r = live_authority (engine_state im) subject generation r.
Proof. intros H%runs_boot. unfold live_authority, authority_current. by destruct H as [-> ->]. Qed.

(** ** Lookups *)
Lemma latest_of_spec p l :
  match latest_of p l with
  | None => forall r, r ∈ l -> p r = false
  | Some r => r ∈ l /\ p r = true /\ forall r', r' ∈ l -> p r' = true -> at_attempt_seq r' <= at_attempt_seq r
  end.
Proof.
  unfold latest_of. induction l as [|x l IH] using rev_ind; [by intros ? ?%elem_of_nil|].
  rewrite foldl_app. cbn [foldl]. set (f := foldl _ None l) in *. destruct (p x) eqn:Hx; cbn [negb].
  - destruct f as [f|].
    + destruct IH as (Hf & Hp & Hm). destruct (Z.ltb_spec (at_attempt_seq f) (at_attempt_seq x)).
      * split; [|split; [done|]]. { apply elem_of_app; right; constructor. }
        intros r'. rewrite elem_of_app, list_elem_of_singleton. intros [Hr| ->] Hp'; [|lia].
        specialize (Hm _ Hr Hp'). lia.
      * split; [|split; [done|]]. { by apply elem_of_app; left. }
        intros r'. rewrite elem_of_app, list_elem_of_singleton. intros [Hr| ->] Hp'; auto.
    + split; [|split; [done|]]. { apply elem_of_app; right; constructor. }
      intros r'. rewrite elem_of_app, list_elem_of_singleton. intros [Hr| ->] Hp'; [|done].
      by rewrite IH in Hp'.
  - destruct f as [f|].
    + destruct IH as (Hf & Hp & Hm). split; [by apply elem_of_app; left|split; [done|]].
      intros r'. rewrite elem_of_app, list_elem_of_singleton. intros [Hr| ->] Hp'; [auto|congruence].
    + intros r. rewrite elem_of_app, list_elem_of_singleton. intros [Hr| ->]; auto.
Qed.

Lemma active_authority_None st subject generation :
  active_authority st subject generation = None ->
  forall r, r ∈ ds_attempts st -> live_authority st subject generation r = false.
Proof. intros H. pose proof (latest_of_spec (live_authority st subject generation) (ds_attempts st)) as Hs.
  unfold active_authority in H. by rewrite H in Hs. Qed.

Lemma find_attempt_Some st subject seq r : find_attempt st subject seq = Some r ->
  r ∈ ds_attempts st /\ at_subject r = subject /\ at_attempt_seq r = seq.
Proof. intros [H1 H2]%find_first_Some. bool_prop. done. Qed.

(** ** Grants *)
(** From an executed operation to its judgement. *)
Lemma etr_run {A} (m : EngM A) Q im fs a im' fs' :
  etr m Q im -> m im fs = (a, im', fs') -> exists tr, runs im tr im' /\ Q a tr im'.
Proof. intros H E. specialize (H fs). rewrite E in H. exact H. Qed.

Lemma granted_content im q link verdict chosen seq d :
  content d = content (granted im q link verdict chosen seq) ->
  fd_kind d = DecisionKind.Grant /\ fd_replacement d = ca_candidate chosen /\
  fd_replacement_generation d = ca_link_generation chosen /\ fd_attempt_seq d = seq /\
  fd_attempt_id d = compute_attempt_id (eo_fabric (im_options im)) (fq_subject q) (ld_generation link) seq /\
  fd_authority d = grant_authority im q link verdict chosen seq.
Proof. unfold content. intros [=]. repeat split; assumption. Qed.

(** A fresh grant comes out of the last branch of the request only. *)
Lemma fresh_grant_inv q im fs d im' fs' :
  request_failover q im fs = (Success d, im', fs') -> fresh_grant d ->
  let im1 := advance_tick im in
  exists link verdict chosen seq rest,
    unavailable im = None /\ grant_conditions im1 q link verdict chosen seq /\
    content d = content (granted im1 q link verdict chosen seq) /\ quiet rest /\
    runs im (Create (grant_attempt im1 q link verdict (granted im1 q link verdict chosen seq)) ::
             Update (set_at_phase AttemptPhase.Authorized
               (grant_attempt im1 q link verdict (granted im1 q link verdict chosen seq))) :: rest) im'.
Proof.
  intros E Hg im1. destruct (etr_run _ _ _ _ _ _ _ (request_failover_result q im) E)
    as (tr & Hr & [(_ & [=] & _)|[Hu H]]).
  destruct H as [Hn _|d0 ev rest Hn _ _ _ _|? ? ? ? _ [=] _|link verdict chosen seq d0 rest Hc Hd Hcon Htr Hq].
  - by destruct (Hn d eq_refl).
  - by destruct (Hn d eq_refl).
  - injection Hd as <-. subst tr. by exists link, verdict, chosen, seq, rest.
Qed.

(** C1: a grant is justified. When a request is answered by a fresh grant, the
    engine was available and failover enabled; the subject is defined at the
    generation asked for; every expectation of the caller holds; no attempt held
    authority for that generation and none awaits revalidation; the failure was
    established by the evidence; the attempt budget was not exhausted; and the
    replacement is a candidate of the request, qualified against current
    evidence, that no other qualified candidate beats. *)
Theorem grant_sound q im fs d im' fs' :
  request_failover q im fs = (Success d, im', fs') -> fresh_grant d ->
  let im1 := advance_tick im in
  let st := engine_state im in
  unavailable im = None /\
  exists link verdict chosen seq r,
    grant_conditions im1 q link verdict chosen seq /\
    fd_attempt_seq d = attempts_so_far im q + 1 /\
    fd_authority d = grant_authority im1 q link verdict chosen seq /\
    fd_replacement d = rs_candidate r /\ fd_replacement_generation d = rs_link_generation r /\
    fd_replacement d <> fq_subject q /\
    r ∈ map (resolve_candidate im1) (fq_candidates q) /\
    qualified (selection_input im1 q link) r /\
    forall r', r' ∈ map (resolve_candidate im1) (fq_candidates q) ->
      qualified (selection_input im1 q link) r' ->
      objective_better (objective_from (assess (selection_input im1 q link) r'))
        (objective_from (assess (selection_input im1 q link) r)) = false.
Proof.
  intros E Hg im1 st.
  destruct (fresh_grant_inv _ _ _ _ _ _ E Hg) as (link & verdict & chosen & seq & rest & Hu & Hc & Hcon & _ & _).
  fold im1 in Hc, Hcon. split; [exact Hu|]. apply granted_content in Hcon as (_ & Hrep & Hgen & Hseq & _ & Hau).
  pose proof (select_replacement_contract_lemma (selection_input im1 q link)) as Hsel.
  unfold selection_contract in Hsel. rewrite (gc_selected _ _ _ _ _ _ Hc) in Hsel.
  destruct Hsel as (i & r & Hi & Hr & Ha & Hq & Hbest).
  destruct (gc_chosen _ _ _ _ _ _ Hc) as (j & Hj & Hch). rewrite Hi in Hj. injection Hj as <-.
  rewrite Ha in Hch. injection Hch as <-. destruct (assess_fields (selection_input im1 q link) r) as (Hcand & Hlg & _).
  cbn [selection_input si_candidates] in Hr, Hbest. unfold resolve_candidates in Hr, Hbest.
  rewrite elem_of_std_sort in Hr. setoid_rewrite elem_of_std_sort in Hbest.
  exists link, verdict, (assess (selection_input im1 q link) r), seq, r.
  assert (Hseq' : seq = attempts_so_far im q + 1).
  { pose proof (gc_seq _ _ _ _ _ _ Hc) as Hs. unfold checked_add_u64 in Hs. destruct (_ >? _); [done|].
    by injection Hs as <-. }
  split_and!; try assumption; try congruence. rewrite Hrep, Hcand. apply Hq.
Qed.

(** ** Single winner *)
Lemma quiet_writes tr e seq r : quiet tr -> e ∈ tr -> ~ writes_attempt e seq r.
Proof. unfold quiet. rewrite Forall_forall. intros Hq He. destruct (Hq _ He) as [i ->]. intros []. Qed.

Lemma quiet_evolves l tr l' : quiet tr -> evolves l tr l' -> attempts_of l' = attempts_of l.
Proof.
  intros Hq H. induction H as [l l' Hc|l e seq l1 tr l' Hc H IH]; [by rewrite (core_attempts _ _ Hc)|].
  apply Forall_cons in Hq as [[i ->] Hq]. rewrite (IH Hq), <- (core_attempts _ _ Hc). cbn.
  unfold note_idempotency, evict_idempotency. by destruct (Nat.leb _ _).
Qed.

Lemma effect_stores e seq l r : writes_attempt e seq r -> is_terminal r = false ->
  r ∈ attempts_of (effect_apply e seq l).
Proof.
  destruct e; cbn [writes_attempt effect_apply]; try done; intros -> Ht;
    (apply (proj1 (proj2 (evict_attempts_spec _))); [apply upsert_in|exact Ht]).
Qed.

(** The record a grant leaves in the table. *)
Definition granted_record (im : EngineImpl) (q : FailoverRequest) (link : LinkDefinition)
    (verdict : FailureVerdict) (chosen : CandidateAssessment) (seq : AttemptSeq) (at_seq : LineageSeq) :
    AttemptRecord :=
  set_at_update_seq at_seq (set_at_phase AttemptPhase.Authorized
    (grant_attempt im q link verdict (granted im q link verdict chosen seq))).

Lemma runs_split im tr1 tr2 im' : runs im (tr1 ++ tr2) im' ->
  exists l, evolves (engine_lineage im) tr1 l /\ evolves l tr2 (engine_lineage im').
Proof.
  intros H%runs_evolves. revert H. generalize (engine_lineage im) (engine_lineage im'). intros l l'.
  revert l. induction tr1 as [|e tr1 IH]; intros l H; cbn [app] in H.
  - exists l. split; [by apply evolves_nil|done].
  - apply evolves_cons_inv in H as (seq & l1 & Hc & H1). destruct (IH _ H1) as (l2 & H2 & H3).
    exists l2. split; [by eapply evolves_cons|done].
Qed.

(** After the two writes of a grant and a quiet tail, the granted record is in
    the table, and every other record was there before. *)
Lemma grant_table im a rest im' :
  is_terminal (set_at_phase AttemptPhase.Authorized a) = false -> quiet rest ->
  runs im (Create a :: Update (set_at_phase AttemptPhase.Authorized a) :: rest) im' ->
  exists s1 s2,
    let staged := set_at_update_seq s1 (set_at_create_seq s1 a) in
    let held := set_at_update_seq s2 (set_at_phase AttemptPhase.Authorized a) in
    held ∈ ds_attempts (engine_state im') /\
    forall r, r ∈ ds_attempts (engine_state im') ->
      r = held \/ r = staged \/ r ∈ ds_attempts (engine_state im).
Proof.
  intros Ht Hq H. apply (runs_split im [Create a; Update _] rest) in H as (l & H & Hrest).
  apply evolves_cons_inv in H as (s1 & l1 & Hc1 & H1). apply evolves_cons_inv in H1 as (s2 & l2 & Hc2 & H2).
  apply evolves_nil_inv in H2 as Hc3. exists s1, s2. cbv zeta.
  pose proof (quiet_evolves _ _ _ Hq Hrest) as Hl.
  rewrite <- !engine_lineage_state, Hl, <- (core_attempts _ _ Hc3), <- (core_attempts _ _ Hc2).
  split; [by apply effect_stores|]. intros r Hr. apply effect_elem in Hr as [Hr|Hr]; [|by left].
  rewrite <- (core_attempts _ _ Hc1) in Hr. apply effect_elem in Hr as [Hr|Hr]; auto.
Qed.

(** C23: a grant is exclusive. Before a fresh grant no attempt held current
    authority for that subject generation; after it exactly one does, and it is
    the attempt the decision names. *)
Theorem grant_exclusive q im fs d im' fs' :
  engine_bound im -> request_failover q im fs = (Success d, im', fs') -> fresh_grant d ->
  let live st := live_authority st (fq_subject q) (fq_subject_generation q) in
  (forall r, r ∈ ds_attempts (engine_state im) -> live (engine_state im) r = false) /\
  exists a, a ∈ ds_attempts (engine_state im') /\ live (engine_state im') a = true /\
    at_attempt_seq a = fd_attempt_seq d /\ at_attempt_id a = fd_attempt_id d /\
    at_authority a = fd_authority d /\ at_phase a = AttemptPhase.Authorized /\
    forall r, r ∈ ds_attempts (engine_state im') -> live (engine_state im') r = true -> r = a.
Proof.
  intros [Hbe Hbi] E Hg. cbv zeta.
  destruct (fresh_grant_inv _ _ _ _ _ _ E Hg) as (link & verdict & chosen & seq & rest & _ & Hc & Hcon & Hq & Hr).
  set (im1 := advance_tick im) in *.
  pose proof (active_authority_None _ _ _ (gc_vacant _ _ _ _ _ _ Hc)) as Hnone.
  change (engine_state im1) with (engine_state im) in Hnone. split; [exact Hnone|].
  destruct (grant_table im _ rest im' eq_refl Hq Hr) as (s1 & s2 & Hin & Hall). cbv zeta in Hin, Hall.
  apply granted_content in Hcon as (_ & _ & _ & Hseq & Hid & Hau).
  set (held := set_at_update_seq s2 _) in *. exists held. split; [exact Hin|].
  assert (Hlive : live_authority (engine_state im') (fq_subject q) (fq_subject_generation q) held = true).
  { rewrite (runs_live _ _ _ _ _ _ Hr). unfold live_authority, about_generation, authority_current.
    cbn. rewrite Hbe, Hbi, (gc_generation _ _ _ _ _ _ Hc). rewrite !bool_decide_eq_true_2 by done.
    by rewrite !Z.eqb_refl. }
  split_and!; try done; try congruence. intros r Hrin Hrl. rewrite (runs_live _ _ _ _ _ _ Hr) in Hrl.
  destruct (Hall r Hrin) as [->|[->|Hold]]; [done| |].
  - unfold live_authority in Hrl. cbn in Hrl. by rewrite andb_false_r in Hrl.
  - by rewrite Hnone in Hrl.
Qed.

(** ** One operation *)
(** The traces an operation can leave, by operation. *)
Definition op_effects (op : Operation) (im : EngineImpl) (s : Status) (tr : list Effect) : Prop :=
  match op with
  | OpPublishFailure _ | OpPublishReplacement _ | OpCheckpoint | OpClose => tr = []
  | OpSetPolicy p => policy_result im p s tr
  | OpSetTopology t => topology_result im t s tr
  | OpFailover q => tr = [] \/ exists r, failover_result (advance_tick im) q r tr
  | OpApplication r => exists d, application_result im r d tr
  | OpVerification r => verification_result im r tr
  | OpRollback q => exists d, rollback_result im q d tr
  | OpRevalidation q => revalidation_result im q tr
  end.

(** What stays fixed while the engine is open. *)
Definition same_boot (im im' : EngineImpl) : Prop :=
  im_epoch im' = im_epoch im /\ im_incarnation im' = im_incarnation im /\ im_options im' = im_options im.

Lemma store_runs_failed st tr st' : store_runs st tr st' -> store_failed st = true -> tr = [].
Proof. destruct st, st'; cbn; try done. intros [_ H] Hf. by destruct (H Hf). Qed.

Lemma etr_perform {A} (m : EngM A) (Q : A -> list Effect -> Prop) (f : A -> Status) im fs a im' fs'
    (P : Status -> list Effect -> Prop) :
  etr m (fun a tr _ => Q a tr) im -> m im fs = (a, im', fs') -> (forall tr, Q a tr -> P (f a) tr) ->
  same_boot im im' /\ exists tr, evolves (engine_lineage im) tr (engine_lineage im') /\ P (f a) tr /\
    (store_failed (im_store im) = true -> tr = []).
Proof.
  intros H E HP. destruct (etr_run _ _ _ _ _ _ _ H E) as (tr & Hr & HQ). pose proof Hr as [[] Hs].
  split; [done|]. exists tr. split; [by apply runs_evolves|]. split; [auto|]. by eapply store_runs_failed.
Qed.

Lemma frame_perform im im' (Q : list Effect -> Prop) : publication_frame im im' -> Q [] ->
  same_boot im im' /\ exists tr, evolves (engine_lineage im) tr (engine_lineage im') /\ Q tr /\
    (store_failed (im_store im) = true -> tr = []).
Proof.
  intros [Ho Hs Hi He _ _ _] HQ. split; [done|]. exists []. split; [|done].
  unfold engine_lineage. rewrite Hs, Ho. by apply evolves_nil.
Qed.

Lemma edecide_run m im fs s im' fs' : edecide m im fs = (s, im', fs') ->
  exists r, m im fs = (r, im', fs') /\ s = status_of_result r.
Proof.
  unfold edecide, ebind, iobind. destruct (m im fs) as [[r im1] fs1]. intros [= <- <- <-]. by exists r.
Qed.

(** Every operation but [close] leaves one of its traces, and none on a failed
    store. *)
Lemma perform_effects op im fs s im' fs' : op <> OpClose -> perform op im fs = (s, im', fs') ->
  same_boot im im' /\
  exists tr, evolves (engine_lineage im) tr (engine_lineage im') /\ op_effects op im s tr /\
    (store_failed (im_store im) = true -> tr = []).
Proof.
  intros Hop E. destruct op as [r|r|p|t|q|r|r|q|q| |]; cbn [perform op_effects] in *; [..|done].
  - injection E as E1 <-. pose proof (publish_failure_frame r im) as H. rewrite E1 in H. by apply frame_perform.
  - injection E as E1 <-. pose proof (publish_replacement_frame r im) as H. rewrite E1 in H. by apply frame_perform.
  - apply (etr_perform _ _ id _ _ _ _ _ (policy_result im p) (set_policy_result p im) E); done.
  - apply (etr_perform _ _ id _ _ _ _ _ (topology_result im t) (set_topology_result t im) E); done.
  - apply edecide_run in E as (d & E & ->).
    destruct (etr_run _ _ _ _ _ _ _ (request_failover_result q im) E) as (tr & Hr & HQ). pose proof Hr as [[] Hs].
    split; [done|]. exists tr. split; [by apply runs_evolves|]. split; [|by eapply store_runs_failed].
    destruct HQ as [(_ & _ & -> & _)|[_ HQ]]; [by left|right; eauto].
  - apply edecide_run in E as (d & E & ->).
    apply (etr_perform _ _ status_of_result _ _ _ _ _ (fun _ tr => exists d, application_result im r d tr)
      (record_application_result r im) E); eauto.
  - apply edecide_run in E as (d & E & ->).
    apply (etr_perform _ _ status_of_result _ _ _ _ _ (fun _ tr => verification_result im r tr)
      (record_verification_result r im) E); eauto.
  - apply edecide_run in E as (d & E & ->).
    apply (etr_perform _ _ status_of_result _ _ _ _ _ (fun _ tr => exists d, rollback_result im q d tr)
      (request_rollback_result q im) E); eauto.
  - apply edecide_run in E as (d & E & ->).
    apply (etr_perform _ _ status_of_result _ _ _ _ _ (fun _ tr => revalidation_result im q tr)
      (resolve_interrupted_result q im) E); eauto.
  - assert (H : etr engine_checkpoint (fun _ tr _ => tr = []) im).
    { unfold engine_checkpoint. apply etr_bind, etr_get. destruct (im_closed im); [by apply etr_ret|].
      apply etr_bind, etr_checkpoint. intros r im1 _ _. by apply etr_ret. }
    apply (etr_perform _ _ id _ _ _ _ _ (fun _ tr => tr = []) H E); done.
Qed.

(** ** What an operation writes *)
(** The forms a written record can take, each with the facts known of the record
    it was made from. *)
Inductive written (im : EngineImpl) : Operation -> Effect -> Prop :=
  | WrFenced op detail r : r ∈ ds_attempts (engine_state im) ->
      attempt_phase_holds_authority (at_phase r) = true -> written im op (Update (aborted_record detail r))
  | WrApplied report r : r ∈ ds_attempts (engine_state im) -> at_phase r = AttemptPhase.Authorized ->
      at_attempt_id r = ar_attempt_id report ->
      written im (OpApplication report) (Update (application_update im report r))
  | WrVerified report r : r ∈ ds_attempts (engine_state im) -> at_phase r = AttemptPhase.Acknowledged ->
      written im (OpVerification report) (Update (verified_record report r))
  | WrCommitted report r : r ∈ ds_attempts (engine_state im) -> at_phase r = AttemptPhase.Acknowledged ->
      at_attempt_id r = vr_attempt_id report -> vr_effect_observed report = true ->
      written im (OpVerification report)
        (Update (set_at_phase AttemptPhase.Committed (verified_record report r)))
  | WrUnverified report r : r ∈ ds_attempts (engine_state im) -> at_phase r = AttemptPhase.Acknowledged ->
      written im (OpVerification report) (Update (push_reason ReasonCode.EffectUnverified (vr_detail report)
        (set_at_phase AttemptPhase.Indeterminate r)))
  | WrRevoked q r : r ∈ ds_attempts (engine_state im) ->
      attempt_phase_holds_authority (at_phase r) = true ->
      written im (OpRollback q) (Update (revoked_record q r))
  | WrRevalidated q r : find_attempt (engine_state im) (vq_subject q) (vq_attempt_seq q) = Some r ->
      at_phase r = AttemptPhase.Interrupted -> vq_observer_epoch q = im_epoch im ->
      written im (OpRevalidation q) (Update (revalidated_record im (vq_verdict q) r))
  | WrUndecided q d ev : numbered (advance_tick im) q d ->
      written im (OpFailover q) (Create (undecided_attempt (advance_tick im) q d ev))
  | WrStaged q link verdict chosen seq : grant_conditions (advance_tick im) q link verdict chosen seq ->
      written im (OpFailover q) (Create (grant_attempt (advance_tick im) q link verdict
        (granted (advance_tick im) q link verdict chosen seq)))
  | WrGranted q link verdict chosen seq : grant_conditions (advance_tick im) q link verdict chosen seq ->
      written im (OpFailover q) (Update (set_at_phase AttemptPhase.Authorized
        (grant_attempt (advance_tick im) q link verdict
          (granted (advance_tick im) q link verdict chosen seq))))
  | WrOther op e : match e with Create _ | Update _ => False | _ => True end -> written im op e.

Lemma quiet_written im op tr : quiet tr -> Forall (written im op) tr.
Proof. intros H. eapply Forall_impl; [exact H|]. intros e [i ->]. by apply WrOther. Qed.

Lemma prefix_written im op tr plan : tr `prefix_of` plan -> Forall (written im op) plan -> Forall (written im op) tr.
Proof. intros [rest ->] H. by apply Forall_app in H as [H _]. Qed.

Lemma fence_plan_written im op kind detail :
  Forall (written im op) (fence_plan im kind detail (ds_attempts (engine_state im))).
Proof.
  unfold fence_plan. apply Forall_forall. intros e He%list_elem_of_In.
  apply in_flat_map in He as (r & Hr%list_elem_of_In & He).
  destruct (attempt_phase_holds_authority (at_phase r)) eqn:Hh; [|done].
  destruct He as [<-|[<-|[]]]; [by apply WrFenced|by apply WrOther].
Qed.

Lemma failover_written im q r tr :
  failover_result (advance_tick im) q r tr -> Forall (written im (OpFailover q)) tr.
Proof.
  intros [_ Hq|d ev rest _ Hk Hn -> Hq|link verdict chosen seq Hg _ ->|link verdict chosen seq d rest Hg _ _ -> Hq].
  - by apply quiet_written.
  - constructor; [by apply WrUndecided|by apply quiet_written].
  - apply Forall_singleton. by apply WrStaged.
  - constructor; [by apply WrStaged|]. constructor; [by apply WrGranted|by apply quiet_written].
Qed.

(** Every effect of every operation has one of the forms. *)
Lemma op_effects_written op im s tr : op_effects op im s tr -> Forall (written im op) tr.
Proof.
  destruct op as [r|r|p|t|q|r|r|q|q| |]; cbn [op_effects]; try by intros ->.
  - intros [->|rest _ _ -> Hp _]; [constructor|]. constructor; [by apply WrOther|].
    eapply prefix_written; [exact Hp|apply fence_plan_written].
  - intros [->|rest _ _ -> Hp _]; [constructor|]. constructor; [by apply WrOther|].
    eapply prefix_written; [exact Hp|apply fence_plan_written].
  - intros [->|[r H]]; [constructor|]. by eapply failover_written.
  - intros [d [->|found d' Hf _ Hid Hp _ ->]]; [constructor|].
    apply find_attempt_Some in Hf as (Hin & _). by apply Forall_singleton, WrApplied.
  - intros [->|found Hf Hid Hp Htr]; [constructor|]. apply find_attempt_Some in Hf as (Hin & _).
    destruct (vr_effect_observed r) eqn:Ho.
    + eapply prefix_written; [exact Htr|]. constructor; [by apply WrVerified|].
      by apply Forall_singleton, WrCommitted.
    + subst tr. by apply Forall_singleton, WrUnverified.
  - intros [d [->|found f rest Hf Hh Htr]]; [constructor|]. apply find_attempt_Some in Hf as (Hin & _).
    destruct Htr as [[_ ->]|[-> Hq]]; [by apply Forall_singleton, WrRevoked|].
    constructor; [by apply WrRevoked|]. constructor; [by apply WrOther|by apply quiet_written].
  - intros [->|found Hf Hp _ He ->]; [constructor|]. by apply Forall_singleton, WrRevalidated.
Qed.

(** Where the records of the table come from after an operation. *)
Lemma perform_elem op im fs s im' fs' r' : op <> OpClose -> perform op im fs = (s, im', fs') ->
  r' ∈ ds_attempts (engine_state im') ->
  r' ∈ ds_attempts (engine_state im) \/ exists e seq, written im op e /\ writes_attempt e seq r'.
Proof.
  intros Hop E Hr. destruct (perform_effects _ _ _ _ _ _ Hop E) as (_ & tr & Hev & Hop' & _).
  apply op_effects_written in Hop'. rewrite Forall_forall in Hop'.
  rewrite <- engine_lineage_state in Hr. destruct (evolves_elem _ _ _ _ Hev Hr) as [H|(e & seq & He & Hw)].
  - left. by rewrite <- engine_lineage_state.
  - right. exists e, seq. split; [by apply Hop'|done].
Qed.

(** ** The life of an attempt *)
(** The transitions the operations make. Restart, not here, takes every phase in
    flight to Interrupted. *)
Inductive phase_step : AttemptPhase -> AttemptPhase -> Prop :=
  | PsAcknowledge : phase_step AttemptPhase.Authorized AttemptPhase.Acknowledged
  | PsCommitUnverified : phase_step AttemptPhase.Authorized AttemptPhase.Committed
  | PsReject : phase_step AttemptPhase.Authorized AttemptPhase.Aborted
  | PsVerify : phase_step AttemptPhase.Acknowledged AttemptPhase.Verified
  | PsUnverified : phase_step AttemptPhase.Acknowledged AttemptPhase.Indeterminate
  | PsComplete : phase_step AttemptPhase.Verified AttemptPhase.Committed
  | PsRollBack p : attempt_phase_holds_authority p = true -> phase_step p AttemptPhase.RolledBack
  | PsFence p : attempt_phase_holds_authority p = true -> phase_step p AttemptPhase.Aborted
  | PsRelease : phase_step AttemptPhase.Interrupted AttemptPhase.Aborted
  | PsObserved : phase_step AttemptPhase.Interrupted AttemptPhase.Committed.

(** The part of a record no update changes. *)
Definition attempt_identity (r : AttemptRecord) : LinkKey * Z * Z * (Digest * Digest) * (LinkKey * Z) * Digest * (Z * Z * Z) :=
  (at_subject r, at_subject_generation r, at_attempt_seq r, (at_attempt_id r, at_idempotency_key r),
   (at_replacement r, at_replacement_generation r), at_evidence_digest r,
   (at_created_tick r, at_created_epoch r, at_create_seq r)).
Definition descends (r r' : AttemptRecord) : Prop :=
  attempt_identity r' = attempt_identity r /\ rtc phase_step (at_phase r) (at_phase r').

Lemma push_reason_fields code detail r :
  attempt_identity (push_reason code detail r) = attempt_identity r /\
  at_phase (push_reason code detail r) = at_phase r /\
  at_authority (push_reason code detail r) = at_authority r.
Proof. done. Qed.

(** A record that enters the table. *)
Definition enters (im : EngineImpl) (op : Operation) (r : AttemptRecord) : Prop :=
  exists q, op = OpFailover q /\ at_subject r = fq_subject q /\
    at_subject_generation r = fq_subject_generation q /\ at_created_epoch r = im_epoch im /\
    at_attempt_id r = compute_attempt_id (eo_fabric (im_options im)) (fq_subject q)
      (fq_subject_generation q) (at_attempt_seq r) /\
    at_phase r ∈ [AttemptPhase.Refused; AttemptPhase.Indeterminate; AttemptPhase.Evaluated;
                  AttemptPhase.Authorized].

(** The fields of a staged record, for any decision it is built from. *)
Lemma staged_enters im q link verdict d : ld_generation link = fq_subject_generation q ->
  fd_attempt_id d = compute_attempt_id (eo_fabric (im_options im)) (fq_subject q)
    (fq_subject_generation q) (fd_attempt_seq d) ->
  let a := grant_attempt (advance_tick im) q link verdict d in
  (forall seq, enters im (OpFailover q) (set_at_update_seq seq (set_at_create_seq seq a))) /\
  forall seq, enters im (OpFailover q) (set_at_update_seq seq (set_at_phase AttemptPhase.Authorized a)).
Proof.
  intros Hgen Hid a. split; intros s; exists q;
    refine (conj eq_refl (conj eq_refl (conj Hgen (conj eq_refl (conj Hid _))))); cbn; set_solver.
Qed.

Lemma granted_enters im q link verdict chosen seq :
  grant_conditions (advance_tick im) q link verdict chosen seq ->
  let a := grant_attempt (advance_tick im) q link verdict (granted (advance_tick im) q link verdict chosen seq) in
  (forall seq, enters im (OpFailover q) (set_at_update_seq seq (set_at_create_seq seq a))) /\
  forall seq, enters im (OpFailover q) (set_at_update_seq seq (set_at_phase AttemptPhase.Authorized a)).
Proof.
  intros Hg. pose proof (gc_generation _ _ _ _ _ _ Hg) as Hgen. apply staged_enters; [exact Hgen|].
  destruct (granted_content (advance_tick im) q link verdict chosen seq _ eq_refl) as (_ & _ & _ & Hs & Hid & _).
  rewrite Hs, Hid, Hgen. reflexivity.
Qed.

(** Every written record descends from one of the table or enters it. *)
Lemma written_descends im op e seq r' : written im op e -> writes_attempt e seq r' ->
  (exists r, r ∈ ds_attempts (engine_state im) /\ descends r r') \/ enters im op r'.
Proof.
  assert (Hup : forall r r', r ∈ ds_attempts (engine_state im) -> attempt_identity r' = attempt_identity r ->
    rtc phase_step (at_phase r) (at_phase r') ->
    (exists r0, r0 ∈ ds_attempts (engine_state im) /\ descends r0 (set_at_update_seq seq r')) \/
    enters im op (set_at_update_seq seq r')).
  { intros r r1 H1 H2 H3. left. by exists r. }
  destruct 1 as [op detail r Hin Hh|report r Hin Hp _|report r Hin Hp|report r Hin Hp _ _|report r Hin Hp
    |q r Hin Hh|q r Hf Hp _|q d ev (_ & _ & Hid)|q link v c n Hg|q link v c n Hg|op e He];
    cbn [writes_attempt]; try intros ->.
  - apply (Hup r); [done..|]. by apply rtc_once, PsFence.
  - apply (Hup r); [done|by unfold application_update; destruct (ar_accepted report)|].
    unfold application_update. rewrite Hp. destruct (ar_accepted report); cbn; apply rtc_once;
      [destruct (fp_require_verified_effect _)|]; constructor.
  - apply (Hup r); [done..|]. cbn. rewrite Hp. by apply rtc_once, PsVerify.
  - apply (Hup r); [done..|]. cbn. rewrite Hp. eapply rtc_l; [apply PsVerify|]. apply rtc_once, PsComplete.
  - apply (Hup r); [done..|]. cbn. rewrite Hp. apply rtc_once, PsUnverified.
  - apply (Hup r); [done..|]. by apply rtc_once, PsRollBack.
  - apply find_attempt_Some in Hf as (Hin & _).
    apply (Hup r); [done|by unfold revalidated_record; destruct (vq_verdict q)|].
    unfold revalidated_record. destruct (vq_verdict q); cbn; rewrite Hp; try apply rtc_refl;
      apply rtc_once; first [exact PsRelease|exact PsObserved].
  - right. exists q. refine (conj eq_refl (conj eq_refl (conj eq_refl (conj eq_refl (conj Hid _))))).
    cbn. destruct (enum_eqb _ _); set_solver.
  - right. apply (granted_enters _ _ _ _ _ _ Hg).
  - right. apply (granted_enters _ _ _ _ _ _ Hg).
  - by destruct e.
Qed.

Lemma close_or_not op : op = OpClose \/ op <> OpClose.
Proof. destruct op; first [by left|by right]. Qed.

Lemma engine_close_state im fs s im' fs' : im_closed im = false ->
  engine_close im fs = (s, im', fs') -> engine_state im' = state_empty.
Proof.
  intros Hc. unfold engine_close. rewrite Hc. unfold iobind at 1.
  destruct (store_commit _ _ _ _ fs) as [[st store] fs1]. unfold iobind.
  destruct (_ && _)%bool.
  - destruct (run_checkpoint _ fs1) as [[r im2] fs2]. by intros [= _ <- _].
  - by intros [= _ <- _].
Qed.

(** The same for any operation; closing leaves an empty table. *)
Lemma perform_elem' op im fs s im' fs' r' : perform op im fs = (s, im', fs') ->
  r' ∈ ds_attempts (engine_state im') ->
  r' ∈ ds_attempts (engine_state im) \/ exists e seq, written im op e /\ writes_attempt e seq r'.
Proof.
  intros E Hr. destruct (close_or_not op) as [->|Hop]; [|by eapply perform_elem].
  cbn [perform] in E. destruct (im_closed im) eqn:Hc.
  - unfold engine_close in E. rewrite Hc in E. injection E as <- <- <-. by left.
  - rewrite (engine_close_state _ _ _ _ _ Hc E) in Hr. by apply elem_of_nil in Hr.
Qed.

(** C12: an attempt only moves along its life cycle. After any operation, whatever
    the medium does, every attempt in the table either descends from one that was
    there, with the same identity and a phase reached by the transitions above,
    or entered with this failover request in an entry phase. In particular no
    operation brings back authority that was refused, aborted or rolled back. *)
Theorem attempt_lifecycle op im fs s im' fs' r' :
  perform op im fs = (s, im', fs') -> r' ∈ ds_attempts (engine_state im') ->
  (exists r, r ∈ ds_attempts (engine_state im) /\ descends r r') \/ enters im op r'.
Proof.
  intros E Hr. destruct (perform_elem' _ _ _ _ _ _ _ E Hr) as [H|(e & seq & Hw & Hr')].
  - left. exists r'. split; [done|]. by split.
  - by eapply written_descends.
Qed.

(** ** Verified effect *)
(** How a record may come to be committed. *)
Definition commit_cause (im : EngineImpl) (op : Operation) (r r' : AttemptRecord) : Prop :=
  (exists report, op = OpVerification report /\ vr_effect_observed report = true /\
     at_phase r = AttemptPhase.Acknowledged /\ at_attempt_id r = vr_attempt_id report) \/
  (exists report, op = OpApplication report /\ ar_accepted report = true /\
     at_phase r = AttemptPhase.Authorized /\ at_attempt_id r = ar_attempt_id report /\
     fp_require_verified_effect (ds_policy (engine_state im)) = false) \/
  (exists q, op = OpRevalidation q /\ vq_verdict q = RevalidationVerdict.Applied /\
     vq_observer_epoch q = im_epoch im /\ at_phase r = AttemptPhase.Interrupted).

Lemma written_commit_cause im op e seq r' : written im op e -> writes_attempt e seq r' ->
  at_phase r' = AttemptPhase.Committed ->
  exists r, r ∈ ds_attempts (engine_state im) /\ attempt_identity r' = attempt_identity r /\ commit_cause im op r r'.
Proof.
  destruct 1 as [op detail r Hin Hh|report r Hin Hp Hid|report r Hin Hp|report r Hin Hp Hid Ho|report r Hin Hp
    |q r Hin Hh|q r Hf Hp He|q d ev _|q link v c n Hg|q link v c n Hg|op e He];
    cbn [writes_attempt]; try intros ->; try done.
  - unfold application_update. destruct (ar_accepted report) eqn:Ha; cbn; [|done].
    destruct (fp_require_verified_effect _) eqn:Hv; [done|]. intros _. exists r.
    split; [done|split; [done|]]. right; left. by exists report.
  - intros _. exists r. split; [done|split; [done|]]. left. by exists report.
  - apply find_attempt_Some in Hf as (Hin & _). unfold revalidated_record.
    destruct (vq_verdict q) eqn:Hv; cbn; intros Hc; try congruence.
    exists r. split; [done|split; [done|]]. right; right. by exists q.
  - cbn. by destruct (enum_eqb _ _).
  - by destruct e.
Qed.

(** C25: no commitment without an effect. An attempt becomes Committed only by a
    verification that observed the effect of an acknowledged attempt, by a
    revalidation that found the effect of an interrupted one, or, when the policy
    does not require verification, by the accepting report of its applier. *)
Theorem committed_needs_effect op im fs s im' fs' r' :
  perform op im fs = (s, im', fs') -> r' ∈ ds_attempts (engine_state im') ->
  at_phase r' = AttemptPhase.Committed ->
  r' ∈ ds_attempts (engine_state im) \/
  exists r, r ∈ ds_attempts (engine_state im) /\ attempt_identity r' = attempt_identity r /\
    commit_cause im op r r'.
Proof.
  intros E Hr Hc. destruct (perform_elem' _ _ _ _ _ _ _ E Hr) as [H|(e & seq & Hw & Hr')]; [by left|].
  right. by eapply written_commit_cause.
Qed.

(** ** Unique keys *)
Lemma effect_unique e seq l : keys_unique (attempts_of l) -> keys_unique (attempts_of (effect_apply e seq l)).
Proof.
  intros H. destruct e; cbn [effect_apply]; try done.
  - by apply evict_attempts_unique, upsert_keys_unique.
  - by apply evict_attempts_unique, upsert_keys_unique.
  - unfold note_fence, evict_fences. by destruct (Nat.leb _ _).
  - unfold note_idempotency, evict_idempotency. by destruct (Nat.leb _ _).
Qed.

Lemma evolves_unique l tr l' : evolves l tr l' -> keys_unique (attempts_of l) -> keys_unique (attempts_of l').
Proof.
  intros H. apply (evolves_inv (fun x => keys_unique (attempts_of x)) l tr l'); [|by intros; apply effect_unique|done].
  intros x y Hc. by rewrite (core_attempts _ _ Hc).
Qed.

(** ** Definition changes revoke *)
(** Under unique keys an update leaves exactly the others. *)
Lemma effect_update_elem r seq l x : keys_unique (attempts_of l) ->
  x ∈ attempts_of (effect_apply (Update r) seq l) ->
  x = set_at_update_seq seq r \/ (x ∈ attempts_of l /\ attempt_key x <> attempt_key r).
Proof.
  intros Hu H. cbn [effect_apply] in H. apply (proj1 (evict_attempts_spec _)) in H.
  by apply (elem_of_upsert_unique x _ _ Hu) in H.
Qed.

Lemma evolves_fence l f tr l' : evolves l (Fence f :: tr) l' ->
  exists l1, attempts_of l1 = attempts_of l /\ evolves l1 tr l'.
Proof.
  intros H. apply evolves_cons_inv in H as (seq & l1 & Hc & H1). exists l1. split; [|done].
  rewrite <- (core_attempts _ _ Hc). cbn. unfold note_fence, evict_fences. by destruct (Nat.leb _ _).
Qed.

Lemma fence_plan_revokes im kind detail records l l' :
  keys_unique (attempts_of l) ->
  (forall x, x ∈ attempts_of l -> attempt_phase_holds_authority (at_phase x) = true -> x ∈ records) ->
  evolves l (fence_plan im kind detail records) l' ->
  forall x, x ∈ attempts_of l' -> attempt_phase_holds_authority (at_phase x) = false.
Proof.
  revert l. induction records as [|r records IH]; intros l Hu Hall H x Hx.
  - apply evolves_nil_inv in H. rewrite <- (core_attempts _ _ H) in Hx.
    apply not_true_is_false. intros Hh. specialize (Hall _ Hx Hh). by apply elem_of_nil in Hall.
  - unfold fence_plan in H. cbn [flat_map] in H. fold (fence_plan im kind detail records) in H.
    destruct (attempt_phase_holds_authority (at_phase r)) eqn:Hr; cbn [app] in H.
    + apply evolves_cons_inv in H as (seq & l1 & Hc & H1).
      apply evolves_fence in H1 as (l2 & Hl2 & H2). pose proof (core_attempts _ _ Hc) as Hl1.
      rewrite <- Hl1 in Hl2. refine (IH l2 _ _ H2 x Hx).
      * rewrite Hl2. by apply effect_unique.
      * rewrite Hl2. intros y Hy Hh. apply effect_update_elem in Hy as [->|[Hy Hk]]; [done| |done].
        specialize (Hall _ Hy Hh). apply elem_of_cons in Hall as [->|?]; [|done]. by destruct Hk.
    + refine (IH l Hu _ H x Hx). intros y Hy Hh. specialize (Hall _ Hy Hh).
      apply elem_of_cons in Hall as [->|?]; [congruence|done].
Qed.

Lemma evolves_SetPolicy l p tr l' : evolves l (SetPolicy p :: tr) l' ->
  exists l1, attempts_of l1 = attempts_of l /\ ds_policy (ln_state l1) = p /\ evolves l1 tr l'.
Proof.
  intros H. apply evolves_cons_inv in H as (seq & l1 & Hc & H1). exists l1.
  unfold same_core, core in Hc. cbn in Hc. by injection Hc as _ <- _ _ _ <- _ _.
Qed.
Lemma evolves_SetTopology l t tr l' : evolves l (SetTopology t :: tr) l' ->
  exists l1, attempts_of l1 = attempts_of l /\ ds_topology (ln_state l1) = t /\ evolves l1 tr l'.
Proof.
  intros H. apply evolves_cons_inv in H as (seq & l1 & Hc & H1). exists l1.
  unfold same_core, core in Hc. cbn in Hc. by injection Hc as _ _ <- _ _ <- _ _.
Qed.

(** Attempt effects and fences leave the definitions. *)
Lemma evolves_definitions l tr l' : evolves l tr l' ->
  Forall (fun e => match e with SetPolicy _ | SetTopology _ => False | _ => True end) tr ->
  ds_policy (ln_state l') = ds_policy (ln_state l) /\ ds_topology (ln_state l') = ds_topology (ln_state l).
Proof.
  intros H Hf. rewrite Forall_forall in Hf.
  apply (evolves_inv (fun x => ds_policy (ln_state x) = ds_policy (ln_state l) /\
    ds_topology (ln_state x) = ds_topology (ln_state l)) l tr l'); [| |done|done].
  - unfold same_core, core. intros x y [=]. intros [? ?]. split; congruence.
  - intros e seq x He [<- <-]. specialize (Hf _ He). destruct e; try done; cbn [effect_apply];
      unfold note_attempt, evict_attempts, note_fence, evict_fences, note_idempotency, evict_idempotency;
      (destruct (Nat.leb _ _); [done|]); try done; by destruct (evict_loop _ _ _ _).
Qed.

Lemma fence_plan_plain im kind detail records :
  Forall (fun e => match e with SetPolicy _ | SetTopology _ => False | _ => True end)
    (fence_plan im kind detail records).
Proof.
  unfold fence_plan. apply Forall_forall. intros e He%list_elem_of_In.
  apply in_flat_map in He as (r & _ & He). destruct (attempt_phase_holds_authority _); [|done].
  by destruct He as [<-|[<-|[]]].
Qed.

(** A policy change revokes: when [set_policy] succeeds with a generation other than the
    current one, the policy is the new one and no attempt in the table holds authority
    any more. *)
Lemma policy_change_revokes p im fs s im' fs' :
  keys_unique (ds_attempts (engine_state im)) ->
  set_policy p im fs = (s, im', fs') -> status_ok s = true ->
  fp_generation p <> fp_generation (ds_policy (engine_state im)) ->
  ds_policy (engine_state im') = p /\
  forall r, r ∈ ds_attempts (engine_state im') -> attempt_phase_holds_authority (at_phase r) = false.
Proof.
  intros Hu E Hs Hne. destruct (etr_run _ _ _ _ _ _ _ (set_policy_result p im) E) as (tr & Hr & HQ).
  destruct HQ as [_ Hp|rest _ Hlt -> _ Hrest]; [destruct Hne; exact (proj1 (Hp Hs))|].
  rewrite (Hrest Hs) in Hr.
  apply runs_evolves, evolves_SetPolicy in Hr as (l1 & Ha & Hp & Hr). rewrite engine_lineage_state in Ha.
  rewrite <- engine_lineage_state. split.
  - rewrite <- Hp. apply (evolves_definitions _ _ _ Hr), fence_plan_plain.
  - apply (fence_plan_revokes _ _ _ _ l1 _ ltac:(by rewrite Ha)) with (2 := Hr). by rewrite Ha.
Qed.

(** a topology change revokes in the same way, and stores the canonical form. *)
Theorem set_topology_revokes t im fs s im' fs' :
  keys_unique (ds_attempts (engine_state im)) ->
  set_topology t im fs = (s, im', fs') -> status_ok s = true ->
  ts_generation (topology_canonicalise t) <> ts_generation (ds_topology (engine_state im)) ->
  ds_topology (engine_state im') = topology_canonicalise t /\
  forall r, r ∈ ds_attempts (engine_state im') -> attempt_phase_holds_authority (at_phase r) = false.
Proof.
  intros Hu E Hs Hne. destruct (etr_run _ _ _ _ _ _ _ (set_topology_result t im) E) as (tr & Hr & HQ).
  destruct HQ as [_ Hp|rest _ Hlt -> _ Hrest]; [destruct Hne; exact (proj1 (Hp Hs))|].
  rewrite (Hrest Hs) in Hr.
  apply runs_evolves, evolves_SetTopology in Hr as (l1 & Ha & Hp & Hr). rewrite engine_lineage_state in Ha.
  rewrite <- engine_lineage_state. split.
  - rewrite <- Hp. apply (evolves_definitions _ _ _ Hr), fence_plan_plain.
  - apply (fence_plan_revokes _ _ _ _ l1 _ ltac:(by rewrite Ha)) with (2 := Hr). by rewrite Ha.
Qed.

(** C29: a failed store is final for the engine. While the store has failed or is
    closed, no operation changes the lineage and no request is answered by a
    fresh grant. *)
Theorem failed_store_grants_nothing op im fs s im' fs' :
  store_failed (im_store im) = true -> op <> OpClose -> perform op im fs = (s, im', fs') ->
  same_core (engine_lineage im) (engine_lineage im') /\
  forall q d im2 fs2, op = OpFailover q -> request_failover q im fs = (Success d, im2, fs2) -> ~ fresh_grant d.
Proof.
  intros Hf Hop E. split.
  - destruct (perform_effects _ _ _ _ _ _ Hop E) as (_ & tr & Hev & _ & Htr). rewrite (Htr Hf) in Hev.
    by apply evolves_nil_inv.
  - intros q d im2 fs2 _ E2 Hg.
    destruct (fresh_grant_inv _ _ _ _ _ _ E2 Hg) as (link & verdict & chosen & seq & rest & _ & _ & _ & _ & [_ Hr]).
    by apply store_runs_failed in Hr.
Qed.

(** ** Single winner *)
Definition single_winner (st : DurableState) : Prop :=
  forall subject generation r1 r2, r1 ∈ ds_attempts st -> r2 ∈ ds_attempts st ->
    live_authority st subject generation r1 = true -> live_authority st subject generation r2 = true -> r1 = r2.

(** The one operation that gives authority back to an old attempt. *)
Definition rebinds (op : Operation) (im : EngineImpl) (found : AttemptRecord) : Prop :=
  exists q, op = OpRevalidation q /\ vq_verdict q = RevalidationVerdict.Applied /\
    find_attempt (engine_state im) (vq_subject q) (vq_attempt_seq q) = Some found /\
    at_phase found = AttemptPhase.Interrupted.

(** An update that keeps the authority vector, of a record that held it. *)
Definition keeps_holder (im : EngineImpl) (e : Effect) : Prop :=
  match e with
  | Create r => attempt_phase_holds_authority (at_phase r) = false
  | Update r => attempt_phase_holds_authority (at_phase r) = true ->
      exists r0, r0 ∈ ds_attempts (engine_state im) /\ attempt_phase_holds_authority (at_phase r0) = true /\
        at_authority r = at_authority r0 /\ attempt_key r = attempt_key r0 /\
        at_subject_generation r = at_subject_generation r0
  | _ => True
  end.

Lemma quiet_keeps im tr : quiet tr -> Forall (keeps_holder im) tr.
Proof. intros H. eapply Forall_impl; [exact H|]. by intros e [i ->]. Qed.

Lemma written_keeps im op e : written im op e ->
  (forall found, ~ rebinds op im found) -> (forall q, op <> OpFailover q) -> keeps_holder im e.
Proof.
  assert (Hup : forall r r', r ∈ ds_attempts (engine_state im) -> attempt_phase_holds_authority (at_phase r) = true ->
    at_authority r' = at_authority r -> attempt_key r' = attempt_key r ->
    at_subject_generation r' = at_subject_generation r -> keeps_holder im (Update r')).
  { intros r r' H1 H2 H3 H4 H5 _. by exists r. }
  destruct 1 as [op detail r Hin Hh|report r Hin Hp Hid|report r Hin Hp|report r Hin Hp Hid Ho|report r Hin Hp
    |q r Hin Hh|q r Hf Hp He|q d ev _|q link v c n Hg|q link v c n Hg|op e He];
    intros Hrb Hfo; try done; try (by destruct (Hfo q)); try (apply (Hup r); [done|by rewrite ?Hp|done..]).
  - apply (Hup r); [done|by rewrite Hp|..]; unfold application_update; by destruct (ar_accepted report).
  - intros Hh. unfold revalidated_record in Hh. destruct (vq_verdict q) eqn:Hv; cbn in Hh; try done.
    + exfalso. apply (Hrb r). by exists q.
    + by rewrite Hp in Hh.
  - by destruct e.
Qed.

(** Under such a trace every live record comes from a live one with its key. *)
Lemma live_origin im im' tr subject generation r :
  evolves (engine_lineage im) tr (engine_lineage im') -> Forall (keeps_holder im) tr ->
  r ∈ ds_attempts (engine_state im') -> live_authority (engine_state im') subject generation r = true ->
  exists r0, r0 ∈ ds_attempts (engine_state im) /\
    live_authority (engine_state im) subject generation r0 = true /\ attempt_key r0 = attempt_key r /\
    at_authority r0 = at_authority r.
Proof.
  intros Hev Hk Hr Hl. pose proof (evolves_boot _ _ _ Hev) as Hb. unfold boot_of in Hb.
  rewrite !engine_lineage_state in Hb. injection Hb as He Hc. unfold live_authority, authority_current in *.
  rewrite He, Hc in Hl. rewrite <- engine_lineage_state in Hr.
  apply (evolves_elem _ _ _ _ Hev) in Hr as [Hr|(e & seq & Hin & Hw)].
  { rewrite engine_lineage_state in Hr. by exists r. }
  rewrite Forall_forall in Hk. specialize (Hk _ Hin).
  destruct e as [r1|r1| | | |]; cbn in Hw, Hk; try done; subst r; unfold about_generation in *; cbn in Hl; bool_prop.
  - congruence.
  - destruct Hk as (r0 & K1 & K2 & K3 & K4 & K5); [done|]. exists r0. split; [done|].
    unfold attempt_key in *. injection K4 as K4 K6. cbn. rewrite K4, K6. split; [|done].
    rewrite K2, <- K3, <- K5, <- K4. rewrite !bool_decide_eq_true_2 by done.
    by rewrite !(proj2 (Z.eqb_eq _ _)) by done.
Qed.

(** A request that ends without a grant leaves the live records alone. *)
Lemma failover_live_origin im q r tr im' :
  failover_result (advance_tick im) q r tr -> evolves (engine_lineage im) tr (engine_lineage im') ->
  Forall (keeps_holder im) tr \/
  (forall r', r' ∈ ds_attempts (engine_state im) ->
     live_authority (engine_state im) (fq_subject q) (fq_subject_generation q) r' = false) /\
  exists held, at_subject held = fq_subject q /\ at_subject_generation held = fq_subject_generation q /\
    forall r', r' ∈ ds_attempts (engine_state im') ->
      attempt_phase_holds_authority (at_phase r') = true -> r' = held \/ r' ∈ ds_attempts (engine_state im).
Proof.
  intros H Hev.
  destruct H as [_ Hq|d ev rest _ Hk Hn -> Hq|link verdict chosen seq Hg _ ->|link verdict chosen seq d rest Hg _ _ -> Hq].
  - left. by apply quiet_keeps.
  - left. constructor; [cbn; by destruct (enum_eqb _ _)|by apply quiet_keeps].
  - left. by apply Forall_singleton.
  - right. split.
    { exact (active_authority_None _ _ _ (gc_vacant _ _ _ _ _ _ Hg)). }
    pose proof (gc_generation _ _ _ _ _ _ Hg) as Hgen.
    set (a := grant_attempt _ _ _ _ _) in *.
    apply evolves_cons_inv in Hev as (s1 & l1 & Hc1 & H1). apply evolves_cons_inv in H1 as (s2 & l2 & Hc2 & H2).
    exists (set_at_update_seq s2 (set_at_phase AttemptPhase.Authorized a)).
    split; [done|split; [exact Hgen|]]. intros r'. rewrite <- engine_lineage_state.
    rewrite (quiet_evolves _ _ _ Hq H2), <- (core_attempts _ _ Hc2). intros Hr Hh.
    apply effect_elem in Hr as [Hr|Hr]; [|by left]. rewrite <- (core_attempts _ _ Hc1) in Hr.
    apply effect_elem in Hr as [Hr|Hr]; [right; by rewrite <- engine_lineage_state|]. cbn in Hr. by subst r'.
Qed.

Lemma live_origin_unique im im' tr :
  evolves (engine_lineage im) tr (engine_lineage im') -> Forall (keeps_holder im) tr ->
  keys_unique (ds_attempts (engine_state im')) ->
  single_winner (engine_state im) -> single_winner (engine_state im').
Proof.
  intros Hev Hk Hu Hw s g r1 r2 H1 H2 L1 L2.
  destruct (live_origin _ _ _ _ _ _ Hev Hk H1 L1) as (o1 & I1 & O1 & K1 & _).
  destruct (live_origin _ _ _ _ _ _ Hev Hk H2 L2) as (o2 & I2 & O2 & K2 & _).
  apply (unique_same _ _ _ Hu H1 H2). rewrite <- K1, <- K2. f_equal. by eapply Hw.
Qed.

Lemma live_same_boot im im' s g r tr : evolves (engine_lineage im) tr (engine_lineage im') ->
  live_authority (engine_state im') s g r = live_authority (engine_state im) s g r.
Proof.
  intros H%evolves_boot. unfold boot_of in H. rewrite !engine_lineage_state in H.
  injection H as He Hc. unfold live_authority, authority_current. by rewrite He, Hc.
Qed.

Lemma live_holds st s g r : live_authority st s g r = true ->
  at_subject r = s /\ at_subject_generation r = g /\ attempt_phase_holds_authority (at_phase r) = true.
Proof. unfold live_authority, about_generation. intros H. bool_prop. done. Qed.

Lemma failover_or_not op : (exists q, op = OpFailover q) \/ forall q, op <> OpFailover q.
Proof. destruct op; first [by left; eexists|by right]. Qed.

Lemma revalidation_or_not op im : (exists found, rebinds op im found) \/ forall found, ~ rebinds op im found.
Proof.
  destruct op as [r|r|p|t|q|r|r|q|q| |]; try (right; by intros found (? & ? & _)).
  destruct (vq_verdict q) eqn:Hv; try (right; intros found (? & [= <-] & ? & _); congruence).
  destruct (find_attempt (engine_state im) (vq_subject q) (vq_attempt_seq q)) as [found|] eqn:Hf.
  2: { right. intros found (? & [= <-] & _ & ? & _). congruence. }
  destruct (decide (at_phase found = AttemptPhase.Interrupted)) as [Hp|Hp].
  - left. exists found. by exists q.
  - right. intros found' (? & [= <-] & _ & ? & ?). congruence.
Qed.

(** A rebinding writes one record; the rest of its generation is not live. *)
Lemma rebind_single_winner op im s im' tr found :
  rebinds op im found -> op_effects op im s tr -> evolves (engine_lineage im) tr (engine_lineage im') ->
  active_authority (engine_state im) (at_subject found) (at_subject_generation found) = None ->
  single_winner (engine_state im) -> single_winner (engine_state im').
Proof.
  intros (q & -> & Hv & Hf & Hp) Hop Hev Hno Hw s0 g r1 r2 H1 H2 L1 L2.
  pose proof (active_authority_None _ _ _ Hno) as Hnone.
  rewrite (live_same_boot _ _ _ _ _ _ Hev) in L1. rewrite (live_same_boot _ _ _ _ _ _ Hev) in L2.
  destruct Hop as [->|found' Hf' _ _ _ ->].
  { apply evolves_nil_inv, core_attempts in Hev. rewrite !engine_lineage_state in Hev. rewrite <- Hev in H1, H2.
    by eapply Hw. }
  rewrite Hf in Hf'. injection Hf' as <-. apply evolves_cons_inv in Hev as (seq & l1 & Hc & H%evolves_nil_inv).
  rewrite <- engine_lineage_state, <- (core_attempts _ _ H), <- (core_attempts _ _ Hc) in H1, H2.
  apply effect_elem in H1, H2. cbn [writes_attempt] in H1, H2. rewrite engine_lineage_state in H1, H2.
  pose proof (live_holds _ _ _ _ L1) as (S1 & G1 & _). pose proof (live_holds _ _ _ _ L2) as (S2 & G2 & _).
  assert (Hid : forall x, x = set_at_update_seq seq (revalidated_record im (vq_verdict q) found) ->
    at_subject x = at_subject found /\ at_subject_generation x = at_subject_generation found).
  { intros x ->. rewrite Hv. done. }
  destruct H1 as [H1|H1], H2 as [H2|H2]; [by eapply Hw| | |by subst].
  - destruct (Hid _ H2) as [E1 E2]. rewrite <- S2, <- G2, E1, E2, Hnone in L1 by done. done.
  - destruct (Hid _ H1) as [E1 E2]. rewrite <- S1, <- G1, E1, E2, Hnone in L2 by done. done.
Qed.

(** No record carries an epoch later than the lineage's. *)
Lemma written_epoch im op e seq r' : written im op e -> writes_attempt e seq r' ->
  av_epoch (at_authority r') = 0 \/ av_epoch (at_authority r') = im_epoch im \/
  exists r, r ∈ ds_attempts (engine_state im) /\ at_authority r' = at_authority r.
Proof.
  destruct 1 as [op detail r Hin Hh|report r Hin Hp Hid|report r Hin Hp|report r Hin Hp Hid Ho|report r Hin Hp
    |q r Hin Hh|q r Hf Hp He|q d ev _|q link v c n Hg|q link v c n Hg|op e He];
    cbn [writes_attempt]; try intros ->; try (right; right; exists r; done); try (by left); try (right; by left).
  - right; right. exists r. unfold application_update. by destruct (ar_accepted report).
  - apply find_attempt_Some in Hf as (Hin & _). unfold revalidated_record. destruct (vq_verdict q).
    + right; right. by exists r.
    + right; by left.
    + right; right. by exists r.
  - by destruct e.
Qed.

(** The invariant of an open engine. *)
Record engine_inv (im : EngineImpl) : Prop := {
  en_bound : engine_bound im;
  en_unique : keys_unique (ds_attempts (engine_state im));
  en_winner : single_winner (engine_state im);
  en_epochs : epochs_bounded (engine_state im);
}.

(** At most one attempt holds current authority for a subject generation, and every
    operation keeps it so, whatever the medium does; for the revalidation that
    re-binds an interrupted attempt, provided no other attempt has been granted the
    generation since. *)
Lemma single_winner_preserved op im fs s im' fs' :
  engine_inv im -> op <> OpClose ->
  (forall found, rebinds op im found ->
     active_authority (engine_state im) (at_subject found) (at_subject_generation found) = None) ->
  perform op im fs = (s, im', fs') -> engine_inv im'.
Proof.
  intros [Hb Hu Hw [H0 Hep]] Hop Hrb E.
  assert (Hboot : ds_epoch (engine_state im') = ds_epoch (engine_state im) /\ engine_bound im').
  { destruct (perform_effects _ _ _ _ _ _ Hop E) as ((He & Hi & _) & tr & Hev & _).
    pose proof (evolves_boot _ _ _ Hev) as H. unfold boot_of in H. rewrite !engine_lineage_state in H.
    injection H as H1 H2. split; [done|]. destruct Hb. split; congruence. }
  destruct Hboot as [Hsame Hb'].
  destruct (perform_effects _ _ _ _ _ _ Hop E) as ((He & Hi & _) & tr & Hev & Hop' & _).
  assert (Hu' : keys_unique (ds_attempts (engine_state im'))).
  { rewrite <- engine_lineage_state. apply (evolves_unique _ _ _ Hev). by rewrite engine_lineage_state. }
  split; [exact Hb'|exact Hu'| |].
  2: { split; rewrite Hsame; [done|]. intros r Hr. destruct (perform_elem _ _ _ _ _ _ _ Hop E Hr) as [H|(e & n & H1 & H2)].
       { by apply Hep. }
       destruct (written_epoch _ _ _ _ _ H1 H2) as [->|[->|(r0 & Hr0 & ->)]]; [done| |by apply Hep].
       destruct Hb as [-> _]. done. }
  destruct (revalidation_or_not op im) as [(found & Hf)|Hn].
  - exact (rebind_single_winner op im s im' tr found Hf Hop' Hev (Hrb _ Hf) Hw).
  - destruct (failover_or_not op) as [(q & ->)|Hq].
    + destruct Hop' as [->|[r Hr]].
      { by apply (live_origin_unique im im' []). }
      destruct (failover_live_origin _ _ _ _ _ Hr Hev) as [Hk|(Hnone & held & Hhs & Hhg & Hall)].
      { by apply (live_origin_unique im im' tr). }
      intros s0 g r1 r2 H1 H2 L1 L2. pose proof (live_holds _ _ _ _ L1) as (S1 & G1 & P1).
      pose proof (live_holds _ _ _ _ L2) as (S2 & G2 & P2).
      rewrite (live_same_boot _ _ _ _ _ _ Hev) in L1. rewrite (live_same_boot _ _ _ _ _ _ Hev) in L2.
      destruct (Hall r1 H1 P1) as [->|B1], (Hall r2 H2 P2) as [->|B2]; [done| | |by eapply Hw].
      * rewrite <- S1, <- G1, Hhs, Hhg, Hnone in L2 by done. done.
      * rewrite <- S2, <- G2, Hhs, Hhg, Hnone in L1 by done. done.
    + apply (live_origin_unique im im' tr); [done| |done|done]. apply op_effects_written in Hop'.
      eapply Forall_impl; [exact Hop'|]. intros e He'. by eapply written_keeps.
Qed.

(** ** Restart *)
Lemma boot_payload_epoch st incarnation toolchain architecture boot :
  boot_payload st incarnation toolchain architecture = Success boot ->
  bp_epoch boot = ds_epoch st + 1 /\ bp_coordinator boot = incarnation.
Proof.
  unfold boot_payload. unfold checked_add_u64 at 1. destruct (_ >? _); [done|].
  destruct (checked_add_u64 (ds_boot_count st) 1); [|done].
  destruct (checked_add_u64 (ds_epoch_advances st) 1); [|done]. by intros [= <-].
Qed.

Lemma engine_boot_spec o s boot fs im fs' :
  engine_boot o s boot fs = (Success im, fs') -> keys_unique (ds_attempts (sm_state s)) ->
  im_epoch im = bp_epoch boot /\ im_incarnation im = bp_coordinator boot /\ engine_bound im /\
  keys_unique (ds_attempts (engine_state im)) /\
  Forall2 restarted (ds_attempts (sm_state s)) (ds_attempts (engine_state im)).
Proof.
  unfold engine_boot. cbn [store_commit]. unfold iobind at 1 2. intros H Hu.
  destruct (store_commit_impl s _ _ _ fs) as [[st s1] fs1] eqn:E. cbn [fst snd ioret] in H.
  destruct (status_ok st) eqn:Es; cbn [negb] in H; [|done].
  apply store_commit_impl_state in E as (q & A & B & C); [|done]. cbn in A, B, C.
  unfold iobind in H. destruct (fence_restart_authority _ _ _ fs1) as [[res store2] fs2] eqn:E2. cbn [fst snd] in H.
  destruct res as [k|e]; [|done]. injection H as <- <-.
  apply restart_leaves_nothing_in_flight in E2 as (s2 & -> & D1 & D2 & D3 & D4); [|by rewrite A].
  unfold engine_bound, engine_state. cbn. split_and!; [done|done|congruence|congruence|done|]. rewrite A in D4. exact D4.
Qed.

Lemma engine_open_revokes o incarnation toolchain architecture fs im fs' :
  engine_open o incarnation toolchain architecture fs = (Success im, fs') ->
  exists s fs1, store_open (store_options_of o) fs = (Success s, fs1) /\
    (keys_unique (ds_attempts (sm_state s)) -> epochs_bounded (sm_state s) ->
     engine_inv im /\ im_epoch im = ds_epoch (sm_state s) + 1 /\ im_incarnation im = incarnation /\
     Forall2 restarted (ds_attempts (sm_state s)) (ds_attempts (engine_state im)) /\
     forall subject generation, active_authority (engine_state im) subject generation = None).
Proof.
  unfold engine_open. destruct (open_refused o); [done|]. unfold iobind at 1.
  destruct (store_open (store_options_of o) fs) as [[s|e] fs1]; [|done].
  destruct (boot_payload _ _ _ _) as [boot|e] eqn:Hb; [|done]. intros E. exists s, fs1. split; [done|].
  intros Hu [H0 Hep]. apply boot_payload_epoch in Hb as [He Hi].
  destruct (engine_boot_spec _ _ _ _ _ _ E Hu) as (E1 & E2 & Hbd & Hu' & Hall).
  assert (Hau : forall r', r' ∈ ds_attempts (engine_state im) ->
    av_epoch (at_authority r') <= ds_epoch (sm_state s)).
  { intros r' Hr'. destruct (restarted_all _ _ Hall _ Hr') as (_ & r & Hr & (_ & _ & _ & -> & _)). by apply Hep. }
  assert (Hepoch : ds_epoch (engine_state im) = ds_epoch (sm_state s) + 1) by (destruct Hbd; congruence).
  assert (Hlive : forall g n r', r' ∈ ds_attempts (engine_state im) ->
    live_authority (engine_state im) g n r' = false).
  { intros g n r' Hr'. apply not_true_is_false. unfold live_authority, authority_current. intros H. bool_prop.
    specialize (Hau _ Hr'). lia. }
  split_and!; [|congruence|congruence|done|].
  - split; [done|done| |].
    + intros g n r1 r2 H1 _ L1 _. by rewrite Hlive in L1.
    + split; [lia|]. intros r' Hr'. specialize (Hau _ Hr'). lia.
  - intros g n. unfold active_authority. pose proof (latest_of_spec (live_authority (engine_state im) g n)
      (ds_attempts (engine_state im))) as H. destruct (latest_of _ _) as [r|]; [|done].
    destruct H as (Hin & Hl & _). by rewrite Hlive in Hl.
Qed.

(** Opening brings no evidence along. *)
Lemma engine_open_empty o incarnation toolchain architecture fs im fs' :
  engine_open o incarnation toolchain architecture fs = (Success im, fs') ->
  im_failure_evidence im = ∅ /\ im_replacement_evidence im = ∅.
Proof.
  unfold engine_open. destruct (open_refused o); [done|]. unfold iobind at 1.
  destruct (store_open (store_options_of o) fs) as [[s|e] fs1]; [|done].
  destruct (boot_payload _ _ _ _) as [boot|e]; [|done]. unfold engine_boot, iobind.
  destruct (store_commit _ _ _ _ fs1) as [[st store1] fs2]. cbn [fst snd].
  destruct (negb (status_ok st)); [done|]. destruct (fence_restart_authority _ _ _ fs2) as [[r store2] fs3].
  cbn [fst snd]. destruct r as [k|e]; [|done]. by intros [= <- _].
Qed.

(** ** Idempotency *)
(** C28: a retried request is answered from the record and changes nothing: when the
    key of an admissible request is indexed, the answer is the indexed decision,
    marked as a replay, and the engine only advances its clock. The answer carries the
    durable mark and the lineage sequence of the original decision (replay_decision);
    docs/CONCURRENCY_AUDIT.md 2.13 says that replays have neither. *)
Theorem idempotent_replay q im fs entry :
  unavailable im = None -> request_refused (advance_tick im) q = None ->
  find_idempotency (engine_state im) (fq_idempotency_key q) = Some entry ->
  exists d, request_failover q im fs = (Success d, advance_tick im, fs) /\
    fd_idempotent_replay d = true /\ fd_durable d = true /\ fd_decision_id d = ie_decision_id entry /\
    fd_kind d = ie_kind entry /\ fd_outcome d = ie_outcome entry /\
    fd_replacement d = ie_replacement entry /\ fd_attempt_seq d = ie_attempt_seq entry /\
    fd_lineage_seq d = ie_seq entry.
Proof.
  intros Hu Hr Hf. unfold request_failover, ebind, iobind. cbn [eget ioret fst snd]. rewrite Hu.
  cbn [emodify ioret fst snd]. rewrite Hr.
  change (engine_state (advance_tick im)) with (engine_state im). rewrite Hf. by eexists.
Qed.

(** ** Directives *)
(** a directive is handed out only for an attempt that is authorized and whose
    replacement is named, carries that attempt's authority, and their number is
    within both bounds. *)
Theorem pending_directives_sound im max d :
  (length (pending_directives im max) <= max)%nat /\
  (length (pending_directives im max) <= lm_max_pending_directives (eo_limits (im_options im)))%nat /\
  (d ∈ pending_directives im max -> im_closed im = false /\
     exists r, r ∈ ds_attempts (engine_state im) /\ at_phase r = AttemptPhase.Authorized /\
       link_key_empty (at_replacement r) = false /\ d = directive_of im r /\
       di_authority d = at_authority r).
Proof.
  unfold pending_directives. destruct (im_closed im).
  { split_and!; [cbn; lia|cbn; lia|]. by intros ?%elem_of_nil. }
  rewrite length_map, length_take. split_and!; [lia|lia|]. intros H. split; [done|].
  apply list_elem_of_In, in_map_iff in H as (r & <- & H%list_elem_of_In). exists r.
  assert (Hin : r ∈ std_sort directive_less (List.filter directive_open (ds_attempts (engine_state im)))).
  { eapply elem_of_submseteq; [exact H|]. apply sublist_submseteq, sublist_take. }
  apply elem_of_std_sort, list_elem_of_In, filter_In in Hin as [Hin%list_elem_of_In Ho].
  unfold directive_open, phase_is in Ho. bool_prop. split_and!; try done. by apply enum_eqb_eq.
Qed.
