(* ===== verification/Durable.v ===== *)
(** * Durability: every operation keeps the medium an image of the lineage

    Every operation of the engine on well-formed inputs keeps the engine well typed
    and its medium an image of its lineage, or what is left of one when a commit or
    a checkpoint failed half way. [keeps] is the judgement the operations are walked
    with: [keeps m Q im] says that running [m] from a durable engine [im] ends in a
    durable engine and in [Q]. *)
From S2P Require Import Prelude Status Hash Ids Bytes Evidence Policy Authority Attempt Decision.
From S2P Require Import Selector Fs Journal State Store Intake Engine EngineLogic EngineSafety Image.

(** ** Well-typed engines *)
Definition table_typed {R} (wf : R -> Prop) (t : Table (Retained R)) : Prop :=
  forall k b p r, t !! k = Some b -> b !! p = Some r ->
    link_key_valid k /\ wf (re_report r) /\ digest_wf (re_digest r) /\ is_u64 (re_receipt_tick r).

Record engine_typed (im : EngineImpl) : Prop := {
  et_options : options_typed (store_options_of (im_options im));
  et_incarnation : incarnation_wf (im_incarnation im);
  et_epoch : is_u64 (im_epoch im);
  et_tick : is_u64 (im_tick im);
  et_failure : table_typed failure_report_wf (im_failure_evidence im);
  et_replacement : table_typed replacement_report_wf (im_replacement_evidence im);
  et_bound : im_closed im = false -> ds_epoch (engine_state im) = im_epoch im;
}.

(** What is left of a store that failed: a journal cut inside one record, or the
    snapshot of a checkpoint whose rotation failed. *)
Definition broken (s : StoreImpl) (fs : Fs) : Prop :=
  (exists snap recs, torn_of snap recs s fs) \/ snapshot_of (Some (sm_state s)) (sm_options s) fs.

Definition store_durable (o : StoreOptions) (s : StoreImpl) (fs : Fs) : Prop :=
  sm_options s = o /\ if sm_failed s then broken s fs else exists snap recs, image_of snap recs s fs.

Definition durable (im : EngineImpl) (fs : Fs) : Prop :=
  engine_typed im /\
  match im_store im with
  | None => im_closed im = true
  | Some s => store_durable (store_options_of (im_options im)) s fs
  end.

Lemma store_durable_typed o s fs : store_durable o s fs ->
  state_typed (ds_last_seq (sm_state s)) (sm_state s) /\ is_u64 (ds_last_seq (sm_state s)).
Proof.
  assert (Ht : forall snap recs, traced snap recs s fs ->
    state_typed (ds_last_seq (sm_state s)) (sm_state s) /\ is_u64 (ds_last_seq (sm_state s))).
  { intros snap recs [_ Hok Hs _ Hty _]. split; [done|]. rewrite Hs. by apply last_seq_of_u64. }
  intros [_ H]. destruct (sm_failed s).
  - destruct H as [(snap & recs & H & _)|(Hty & Hu & _)]; [by eapply Ht|done].
  - destruct H as (snap & recs & H & _). by eapply Ht.
Qed.

(** What an operation may rely on. *)
Record workable (im : EngineImpl) : Prop := {
  wk_engine : engine_typed im;
  wk_state : im_closed im = false -> state_typed (ds_last_seq (engine_state im)) (engine_state im) /\
    is_u64 (ds_last_seq (engine_state im)) /\ exists s, im_store im = Some s;
}.
Lemma durable_workable im fs : durable im fs -> workable im.
Proof.
  intros [He Hs]. split; [done|]. intros Hc. unfold engine_state. destruct (im_store im) as [s|]; [|congruence].
  cbn [store_state]. destruct (store_durable_typed _ _ _ Hs). eauto.
Qed.

(** What every step of an operation leaves alone. *)
Record same_engine (im im' : EngineImpl) : Prop := {
  sg_options : im_options im' = im_options im;
  sg_incarnation : im_incarnation im' = im_incarnation im;
  sg_epoch : im_epoch im' = im_epoch im;
  sg_closed : im_closed im' = im_closed im;
  sg_seq : ds_last_seq (engine_state im) <= ds_last_seq (engine_state im');
  sg_bound : ds_epoch (engine_state im') = ds_epoch (engine_state im);
}.
#[global] Instance same_engine_preorder : PreOrder same_engine.
Proof. split; [by split|]. intros x y z [] []. split; first [congruence|lia]. Qed.

(** ** The judgement *)
Definition keeps {A} (m : EngM A) (Q : A -> EngineImpl -> Prop) (im : EngineImpl) : Prop :=
  forall fs, durable im fs ->
    durable (m im fs).1.2 (m im fs).2 /\ same_engine im (m im fs).1.2 /\ Q (m im fs).1.1 (m im fs).1.2.

Lemma keeps_ret {A} (x : A) Q im : Q x im -> keeps (eret x) Q im.
Proof. intros H fs Hd. by split; [|split]. Qed.
Lemma keeps_get Q im : Q im im -> keeps eget Q im.
Proof. intros H fs Hd. by split; [|split]. Qed.
Lemma keeps_typed {A} (m : EngM A) Q im : (workable im -> keeps m Q im) -> keeps m Q im.
Proof. intros H fs Hd. apply H; [by eapply durable_workable|done]. Qed.
Lemma keeps_mono {A} (m : EngM A) (P Q : A -> EngineImpl -> Prop) im :
  keeps m P im -> (forall a im', same_engine im im' -> workable im' -> P a im' -> Q a im') -> keeps m Q im.
Proof.
  intros H HQ fs Hd. destruct (H fs Hd) as (H1 & H2 & H3). split; [done|]. split; [done|].
  apply HQ; [done|by eapply durable_workable|done].
Qed.
Lemma keeps_bind {A B} (m : EngM A) (k : A -> EngM B) Q im :
  keeps m (fun a im1 => same_engine im im1 -> workable im1 -> keeps (k a) Q im1) im -> keeps (ebind m k) Q im.
Proof.
  intros H fs Hd. destruct (H fs Hd) as (H1 & H2 & H3). unfold ebind, iobind.
  destruct (m im fs) as [[a im1] fs1]. cbn [fst snd] in *.
  destruct (H3 H2 (durable_workable _ _ H1) fs1 H1) as (K1 & K2 & K3). split; [done|]. split; [by etrans|done].
Qed.
Lemma keeps_modify f Q im : same_engine im (f im) -> im_store (f im) = im_store im ->
  (engine_typed im -> engine_typed (f im)) -> Q tt (f im) -> keeps (emodify f) Q im.
Proof.
  intros Hs He Ht HQ fs [H1 H2]. cbn. split; [|done]. split; [auto|]. rewrite He.
  destruct Hs as [-> _ _ -> _]. done.
Qed.

(** Commits of a running engine leave its epoch. *)
Lemma commit_keeps_epoch s type payload apply fs status s' fs' : keeps_epoch apply ->
  store_commit_impl s type payload apply fs = (status, s', fs') -> ds_epoch (sm_state s') = ds_epoch (sm_state s).
Proof.
  intros Ha H. apply store_commit_impl_cases in H as [next w w' _ _ _ _ _ ->|_ Hl _ _];
    [|unfold sm_state; by rewrite Hl].
  unfold sm_state, commit_applied. cbn. apply Ha.
Qed.

Lemma keeps_commit type payload apply (Q : Status -> EngineImpl -> Prop) im :
  im_closed im = false -> keeps_epoch apply ->
  (forall s, im_store im = Some s -> sound_commit type payload apply (sm_lineage s)) ->
  (forall status im', same_engine im im' -> workable im' -> Q status im') ->
  keeps (engine_commit type payload apply) Q im.
Proof.
  intros Hcl Hke Hsd HQ fs [H1 H2]. unfold engine_commit, iobind. destruct (im_store im) as [s|] eqn:Es; [|congruence].
  cbn [store_commit]. unfold iobind.
  destruct (store_commit_impl s type payload apply fs) as [[status s'] fs'] eqn:E. cbn [fst snd ioret].
  set (im' := if status_ok status then _ else _).
  pose proof (commit_keeps_epoch _ _ _ _ _ _ _ _ Hke E) as Hep.
  assert (Hst : im_store im' = Some s') by (unfold im'; by destruct (status_ok status)).
  assert (Hopt : im_options im' = im_options im) by (unfold im'; by destruct (status_ok status)).
  assert (Hd : engine_typed im' /\ store_durable (store_options_of (im_options im)) s' fs' /\
    ds_last_seq (sm_state s) <= ds_last_seq (sm_state s')).
  { split.
    - assert (Hb : ds_epoch (engine_state im') = im_epoch im).
      { rewrite <- (et_bound _ H1 Hcl). unfold engine_state. by rewrite Hst, Es. }
      unfold im' in *. destruct H1. by destruct (status_ok status); split.
    - destruct H2 as [Ho H2]. destruct (sm_failed s) eqn:Ef.
      + unfold store_commit_impl in E. rewrite Ef in E. injection E as <- <- <-. split; [|done]. split; [done|]. by rewrite Ef.
      + destruct H2 as (snap & recs & Hi).
        pose proof (commit_image _ _ _ _ _ _ _ _ _ _ Hi (Hsd s eq_refl) E) as [Hok Hbad].
        destruct (status_ok status).
        * destruct (Hok eq_refl) as (Hf & Ho' & Hi'). split; [split; [congruence|]; rewrite Hf; eauto|].
          destruct Hi' as [[_ _ -> _ _ _] _]. rewrite last_seq_of_snoc. cbn. lia.
        * destruct (Hbad eq_refl) as (Hl & Hf & Ht). unfold sm_state. rewrite Hl. split; [|done].
          split; [unfold sm_options; by rewrite Hl|]. rewrite Hf. left. eauto. }
  destruct Hd as (Hty & Hsd' & Hseq).
  assert (Hse : same_engine im im').
  { split; try (unfold im'; by destruct (status_ok status)); unfold engine_state; by rewrite Es, Hst. }
  assert (Hd : durable im' fs') by (split; [done|]; by rewrite Hst, Hopt).
  split; [done|]. split; [done|]. apply HQ; [done|]. by eapply durable_workable.
Qed.

Lemma store_checkpoint_durable o s fs r s' fs' : store_durable o s fs ->
  store_checkpoint (Some s) fs = (r, Some s', fs') ->
  store_durable o s' fs' /\ ds_last_seq (sm_state s) <= ds_last_seq (sm_state s') /\
  ds_epoch (sm_state s') = ds_epoch (sm_state s).
Proof.
  intros [Ho Hs] E. destruct (sm_failed s) eqn:Ef.
  { cbn [store_checkpoint] in E. rewrite Ef in E. injection E as <- <- <-. split; [|done]. split; [done|]. by rewrite Ef. }
  destruct Hs as (snap & recs & Hi). subst o.
  destruct (checkpoint_image _ _ _ _ _ _ _ Hi Ef E) as [[v Hr Hf Hop Hv _ Hl Hi'|Hr Hf Hop Hst Hsn]|(Hr & -> & Hi')].
  - apply same_lineage_parts in Hl as (_ & _ & _ & _ & Hl & _).
    split; [split; [done|]; rewrite Hf; eauto|]. split; [|exact Hl]. destruct Hi' as [[_ (_ & _ & Hadv) -> _ _ _] _]. cbn in *. lia.
  - split; [split; [done|]; rewrite Hf; right; by rewrite Hop, Hst|]. by rewrite Hst.
  - split; [|done]. split; [done|]. rewrite Ef. eauto.
Qed.

Lemma keeps_checkpoint Q im : im_closed im = false ->
  (forall r im', same_engine im im' -> workable im' -> Q r im') -> keeps run_checkpoint Q im.
Proof.
  intros Hcl HQ fs [H1 H2]. unfold run_checkpoint, iobind. destruct (im_store im) as [s|] eqn:Es; [|congruence].
  destruct (store_checkpoint (Some s) fs) as [[r store'] fs'] eqn:E. cbn [fst snd ioret].
  assert (Hsome : exists s', store' = Some s').
  { cbn [store_checkpoint] in E. destruct (sm_failed s); [injection E as <- <- <-; eauto|].
    unfold iobind in E. destruct (checkpoint_snapshot s fs) as [[[n s1]|e] fs1]; [|injection E as <- <- <-; eauto].
    destruct (checkpoint_rotate s1 n fs1) as [[r1 s2] fs2]. injection E as <- <- <-. eauto. }
  destruct Hsome as [s' ->]. set (im' := if result_ok r then _ else _).
  assert (Hst : im_store im' = Some s') by (unfold im'; by destruct (result_ok r)).
  assert (Hopt : im_options im' = im_options im) by (unfold im'; by destruct (result_ok r)).
  destruct (store_checkpoint_durable _ _ _ _ _ _ H2 E) as (Hsd & Hseq & Hep).
  assert (Hse : same_engine im im').
  { split; try (unfold im'; by destruct (result_ok r)); unfold engine_state; by rewrite Es, Hst. }
  assert (Hd : durable im' fs').
  { assert (Hb : ds_epoch (engine_state im') = im_epoch im).
    { rewrite <- (et_bound _ H1 Hcl). by destruct Hse. }
    split; [unfold im' in *; destruct H1; by destruct (result_ok r); split|]. by rewrite Hst, Hopt. }
  split; [done|]. split; [done|]. apply HQ; [done|]. by eapply durable_workable.
Qed.

Lemma keeps_maybe_checkpoint Q im : im_closed im = false ->
  (forall im', same_engine im im' -> workable im' -> Q tt im') -> keeps maybe_checkpoint Q im.
Proof.
  intros Hcl HQ. apply keeps_bind, keeps_get. intros _ Hw. destruct (checkpoint_due im); [|by apply keeps_ret, HQ].
  apply keeps_bind, keeps_checkpoint; [done|]. intros r im' Hs Hw' _ _. by apply keeps_ret, HQ.
Qed.

Lemma workable_store im s : workable im -> im_closed im = false -> im_store im = Some s ->
  state_typed (ds_last_seq (sm_state s)) (sm_state s) /\ engine_state im = sm_state s.
Proof.
  intros [_ Hw] Hc Hs. destruct (Hw Hc) as (Ht & _). unfold engine_state in *. rewrite Hs in *. done.
Qed.

(** Attempts that may be written in the present state. *)
Definition writable (im : EngineImpl) (r : AttemptRecord) : Prop :=
  attempt_typed (ds_last_seq (engine_state im)) r /\ av_epoch (at_authority r) <= ds_epoch (engine_state im).

(** The commits of the engine keep the lineage sound. *)
Lemma writable_sound im s type r stamp : writable im r -> attempt_type_ok type r -> im_store im = Some s ->
  (forall seq, stamp seq = set_at_update_seq seq r \/ stamp seq = set_at_update_seq seq (set_at_create_seq seq r)) ->
  sound_commit type (encode_attempt_payload r) (fun seq l => note_attempt (stamp seq) l) (sm_lineage s).
Proof.
  intros [Hr He] Ht Hs Hst. unfold engine_state in Hr, He. rewrite Hs in Hr, He. by apply (sound_attempt _ r stamp).
Qed.
Lemma fence_sound f l : fence_wf f -> fe_seq f = 0 ->
  sound_commit RecordType.Fence (encode_fence_payload f) (fun seq l => note_fence (set_fe_seq seq f) l) l.
Proof. intros Hf Hz. apply sound_fence; [|done]. destruct f; cbn in *. by subst. Qed.

Lemma keeps_create r (Q : Status -> EngineImpl -> Prop) im : im_closed im = false ->
  writable im r -> attempt_type_ok RecordType.AttemptCreate r ->
  (forall status im', same_engine im im' -> workable im' -> Q status im') -> keeps (commit_create r) Q im.
Proof.
  intros Hc Hr Ht. apply keeps_commit; [done|apply note_attempt_epoch|]. intros s Hs.
  eapply (writable_sound im s _ r (fun seq => set_at_update_seq seq (set_at_create_seq seq r))); [done..|by right].
Qed.
Lemma keeps_update type r (Q : Status -> EngineImpl -> Prop) im : im_closed im = false ->
  writable im r -> attempt_type_ok type r ->
  (forall status im', same_engine im im' -> workable im' -> Q status im') -> keeps (commit_update type r) Q im.
Proof.
  intros Hc Hr Ht. apply keeps_commit; [done|apply note_attempt_epoch|]. intros s Hs.
  eapply (writable_sound im s _ r (fun seq => set_at_update_seq seq r)); [done..|by left].
Qed.
Lemma keeps_fence f (Q : Status -> EngineImpl -> Prop) im : im_closed im = false -> fence_wf f -> fe_seq f = 0 ->
  (forall status im', same_engine im im' -> workable im' -> Q status im') -> keeps (commit_fence f) Q im.
Proof. intros Hc Hf Hz. apply keeps_commit; [done|apply note_fence_epoch|]. intros s Hs. by apply fence_sound. Qed.

(** ** Decisions *)
Definition decision_typed (d : FailoverDecision) : Prop :=
  decision_wf d /\ link_key_valid (fd_subject d) /\
  (fd_has_replacement d = true -> link_key_valid (fd_replacement d)).

Lemma keeps_commit_decision d (Q : FailoverDecision -> EngineImpl -> Prop) im : im_closed im = false ->
  decision_wf d ->
  (forall d' im', same_engine im im' -> workable im' ->
    (fd_durable d' = true -> exists n, is_u64 n /\ d' = set_fd_decision_id (decision_compute_id
       (set_fd_durable true (set_fd_lineage_seq n d))) (set_fd_durable true (set_fd_lineage_seq n d))) -> Q d' im') ->
  keeps (commit_decision d) Q im.
Proof.
  intros Hc Hd HQ. apply keeps_bind, keeps_commit; [done|done| |].
  - intros s Hs. by apply sound_decision.
  - intros status im' Hs Hw _ _. apply keeps_bind, keeps_get. intros _ _. apply keeps_ret. apply HQ; [done|done|].
    destruct (status_ok status); [|done]. intros _. exists (ds_last_seq (engine_state im')). split; [|done].
    destruct Hs as [_ _ _ Hcl _]. rewrite Hc in Hcl. apply (wk_state _ Hw Hcl).
Qed.

Lemma idempotency_of_wf key d n : digest_wf key -> decision_typed d -> is_u64 n ->
  idempotency_wf (idempotency_of key (set_fd_decision_id (decision_compute_id
    (set_fd_durable true (set_fd_lineage_seq n d))) (set_fd_durable true (set_fd_lineage_seq n d)))).
Proof.
  intros Hk (Hd & Hs & Hr) Hn. unfold decision_wf in Hd. decompose [and] Hd. unfold idempotency_wf. cbn.
  split_and!; try done; [apply sha256_wf|]. destruct (fd_has_replacement d); auto.
Qed.

Lemma keeps_commit_idempotency d key (Q : unit -> EngineImpl -> Prop) im : im_closed im = false ->
  (fd_durable d = true -> idempotency_wf (idempotency_of key d)) ->
  (forall im', same_engine im im' -> workable im' -> Q tt im') -> keeps (commit_idempotency d key) Q im.
Proof.
  intros Hc Hd HQ. unfold commit_idempotency. destruct (fd_durable d); cbn [negb]; [|rewrite orb_true_r;
    apply keeps_typed; intros Hw; by apply keeps_ret, HQ].
  rewrite orb_false_r. destruct (digest_is_zero key); [apply keeps_typed; intros Hw; by apply keeps_ret, HQ|].
  cbv zeta. destruct (Z.gtb_spec (Z.of_nat (length (encode_idempotency_payload (idempotency_of key d))))
    kMaxIdempotencyDecisionBytes) as [Hgt|Hle]; [apply keeps_typed; intros Hw; by apply keeps_ret, HQ|].
  apply keeps_bind, keeps_commit; [done|apply note_idempotency_epoch| |].
  - intros s Hs. apply sound_index; [auto|exact Hle].
  - intros status im' Hs Hw _ _. by apply keeps_ret, HQ.
Qed.

Lemma keeps_remember d (Q : unit -> EngineImpl -> Prop) im :
  (forall im', same_engine im im' -> workable im' -> Q tt im') -> keeps (remember_decision d) Q im.
Proof.
  intros HQ. apply keeps_typed. intros Hw.
  match goal with |- keeps (remember_decision ?d) _ _ => unfold remember_decision end.
  apply keeps_modify; [done|done|by intros []; split|]. apply HQ; [done|].
  destruct Hw as [[] Hw]. split; [by split|exact Hw].
Qed.

(** [keeps_rest] runs the tail that records nothing more. *)
Ltac keeps_rest := apply keeps_bind, keeps_remember; intros ? ? ? ? ?; apply keeps_ret.

Definition any {A} (a : A) (im : EngineImpl) : Prop := True.

Lemma keeps_settle_undurable d im : keeps (settle_undurable d) any im.
Proof. unfold settle_undurable. cbv zeta. by keeps_rest. Qed.
Lemma keeps_settle_durable d key im : im_closed im = false -> decision_typed d -> digest_wf key ->
  keeps (settle_durable d key) any im.
Proof.
  intros Hc Hd Hk. pose proof Hd as [Hdw _]. unfold settle_durable.
  apply keeps_bind, keeps_commit_decision; [done|done|]. intros d' im1 S1 W1 Hn _ _.
  assert (C1 : im_closed im1 = false) by (by destruct S1 as [_ _ _ -> _]).
  apply keeps_bind, keeps_commit_idempotency; [done| |].
  { intros Hdur. destruct (Hn Hdur) as (n & Hu & ->). by apply idempotency_of_wf. }
  intros im2 S2 W2 _ _. assert (C2 : im_closed im2 = false) by (by destruct S2 as [_ _ _ -> _]).
  apply keeps_bind, keeps_maybe_checkpoint; [done|]. intros im3 _ _ _ _. by keeps_rest.
Qed.
Lemma keeps_settle d key b im : im_closed im = false -> (b = true -> decision_typed d /\ digest_wf key) ->
  keeps (settle d key b) any im.
Proof.
  intros Hc H. destruct b; [|apply keeps_settle_undurable]. destruct H; [done|]. by apply keeps_settle_durable.
Qed.

(** ** Well-typed decisions *)
Lemma reason_typed c t : reason_wf (reason c t).
Proof. unfold reason_wf, text_wf. pose proof (reason_detail_bounded c t) as H. unfold kMaxReasonDetail in H. lia. Qed.
Lemma valid_name_wf n : is_valid_name n = true -> name_wf n.
Proof. by right. Qed.
Lemma valid_key_wf k : link_key_valid k -> link_key_wf k.
Proof. intros [? ?]. split; by right. Qed.
Lemma valid_key_nonempty k : link_key_valid k -> link_key_empty k = false.
Proof. intros [H1 H2]. unfold link_key_empty. destruct (lk_fabric k), (lk_link k); done. Qed.
Lemma none_key_wf : link_key_wf link_key_none.
Proof. split; by left. Qed.
Lemma empty_name_wf : name_wf EmptyString.
Proof. by left. Qed.
Lemma zero_u64 : is_u64 0.
Proof. ints. Qed.
Lemma topology_digest_wf t : digest_wf (topology_digest t).
Proof. apply sha256_wf. Qed.
Lemma policy_digest_wf p : digest_wf (policy_digest p).
Proof. apply sha256_wf. Qed.
Lemma attempt_id_wf f k g q : digest_wf (compute_attempt_id f k g q).
Proof. apply sha256_wf. Qed.
Create HintDb typed.
#[local] Hint Resolve topology_digest_wf policy_digest_wf attempt_id_wf reason_typed valid_name_wf valid_key_wf none_key_wf empty_name_wf zero_u64 digest_zero_wf
  incarnation_zero_wf sha256_wf : typed.

Lemma workable_policy im : workable im -> im_closed im = false ->
  policy_wf (ds_policy (engine_state im)) /\ topology_wf (ds_topology (engine_state im)) /\
  Forall (writable im) (ds_attempts (engine_state im)).
Proof.
  intros Hw Hc. destruct (wk_state _ Hw Hc) as ([] & _). destruct_and!. split_and!; [done..|].
  destruct ty_bounded as [_ Hb]. rewrite Forall_forall in *. intros r Hr. by split; auto.
Qed.

Lemma current_authority_typed im subject generation : workable im -> im_closed im = false ->
  link_key_valid subject -> is_u64 generation -> authority_wf (current_authority im subject generation).
Proof.
  intros Hw Hc Hs Hg. destruct (workable_policy im Hw Hc) as (Hp & Ht & _).
  destruct Hw as [[[_ Hf _ _] Hi He _ _ _] _]. unfold policy_wf, topology_wf in *. destruct_and!.
  unfold authority_wf. cbn. split_and!; auto with typed.
Qed.

(** [typed_fields] proves a conjunction of field bounds of a record just built. *)
Ltac typed_fields := cbn; split_and!; auto with typed.

(** A decision without candidates, about a named subject. *)
Record plain_decision (n : nat) (d : FailoverDecision) : Prop := {
  pd_typed : decision_typed d;
  pd_reasons : (length (fd_reasons d) <= n)%nat;
}.

Lemma plain_add n c t d : plain_decision n d -> (n < 24)%nat -> plain_decision (S n) (add_reason c t d).
Proof.
  intros [(Hd & Hs & Hr) Hn] Hl. split; [|cbn; rewrite length_app; cbn; lia].
  unfold decision_typed, decision_wf in *. destruct_and!. cbn. split_and!; try done.
  - unfold count_wf, kMaxDecisionReasons. rewrite length_app. cbn. lia.
  - apply Forall_app. split; [done|]. by repeat constructor; apply reason_typed.
Qed.
Lemma plain_last c t d : plain_decision 0 d -> decision_typed (add_reason c t d).
Proof. intros H. apply (pd_typed 1), plain_add; [done|lia]. Qed.
Lemma plain_asserted n a o d : plain_decision n d -> plain_decision n (asserted a o d).
Proof. by intros [? ?]. Qed.
Lemma plain_outcome n o d : plain_decision n d -> plain_decision n (set_fd_outcome o d).
Proof. by intros [? ?]. Qed.
Lemma plain_assertion n a d : plain_decision n d -> plain_decision n (set_fd_assertion a d).
Proof. by intros [? ?]. Qed.
Lemma plain_decided n k a o d : plain_decision n d -> plain_decision n (decided k a o d).
Proof. by intros [? ?]. Qed.
Lemma plain_authority n v d : authority_wf v -> plain_decision n d -> plain_decision n (set_fd_authority v d).
Proof. intros Hv [H ?]. split; [|done]. unfold decision_typed, decision_wf in *. destruct_and!. by typed_fields. Qed.
Lemma plain_attempt_seq n v d : is_u64 v -> plain_decision n d -> plain_decision n (set_fd_attempt_seq v d).
Proof. intros Hv [H ?]. split; [|done]. unfold decision_typed, decision_wf in *. destruct_and!. by typed_fields. Qed.
Lemma plain_attempt_id n v d : digest_wf v -> plain_decision n d -> plain_decision n (set_fd_attempt_id v d).
Proof. intros Hv [H ?]. split; [|done]. unfold decision_typed, decision_wf in *. destruct_and!. by typed_fields. Qed.
Lemma plain_evidence n v d : digest_wf v -> plain_decision n d -> plain_decision n (set_fd_evidence_digest v d).
Proof. intros Hv [H ?]. split; [|done]. unfold decision_typed, decision_wf in *. destruct_and!. by typed_fields. Qed.
Lemma plain_candidates n v d : count_wf kMaxDecisionCandidates v -> Forall assessment_wf v ->
  plain_decision n d -> plain_decision n (set_fd_candidates v d).
Proof. intros Hc Hv [H ?]. split; [|done]. unfold decision_typed, decision_wf in *. destruct_and!. by typed_fields. Qed.
Lemma plain_weaken n m d : (n <= m)%nat -> plain_decision n d -> plain_decision m d.
Proof. intros H [? ?]. split; [done|lia]. Qed.

Lemma base_plain im subject generation : workable im -> link_key_valid subject -> is_u64 generation ->
  plain_decision 0 (base_decision im subject generation).
Proof.
  intros [[[_ Hf _ _] Hi He _ _ _] _] Hs Hg. split; [|done]. unfold decision_typed, decision_wf, authority_wf. cbn.
  split_and!; auto with typed. all: try done.
Qed.

Lemma attempt_decision_plain im found kind : workable im -> writable im found ->
  plain_decision 0 (attempt_decision im found kind).
Proof.
  intros Hw ((Ha & _ & Hs & Hr) & _). unfold attempt_wf in Ha. destruct_and!.
  pose proof (base_plain im (at_subject found) (at_subject_generation found) Hw Hs ltac:(done)) as [Hb _].
  split; [|done]. unfold decision_typed, decision_wf in *. destruct_and!. cbn in *. split_and!; try done.
  all: destruct Hr as [[E1 E2]|Hv]; [by rewrite ?E1|by rewrite ?valid_key_nonempty].
Qed.


(** ** Well-typed attempts *)
Lemma attempt_typed_push n c t r : attempt_typed n r -> attempt_typed n (push_reason c t r).
Proof.
  intros (Ha & Hc & Hs & Hr). unfold attempt_typed, attempt_wf in *. destruct_and!. unfold push_reason.
  assert (Hall : Forall reason_wf (at_reasons r ++ [reason c t])).
  { apply Forall_app. split; [done|]. by repeat constructor; apply reason_typed. }
  unfold count_wf, kMaxAttemptReasons in *.
  destruct (Z.gtb_spec (Z.of_nat (length (at_reasons r ++ [reason c t]))) 16) as [Hg|Hg]; cbn; split_and!; try done.
  - rewrite length_drop. rewrite length_app in *. cbn in *. lia.
  - change (Forall reason_wf (drop 1 (at_reasons r ++ [reason c t]))). by apply Forall_drop.
Qed.
Lemma attempt_typed_phase n p r : attempt_typed n r -> attempt_typed n (set_at_phase p r).
Proof. intros (Ha & Hc & Hs & Hr). by split_and!. Qed.
Lemma writable_push im c t r : writable im r -> writable im (push_reason c t r).
Proof. intros [H He]. split; [by apply attempt_typed_push|done]. Qed.
Lemma writable_phase im p r : writable im r -> writable im (set_at_phase p r).
Proof. intros [H He]. split; [by apply attempt_typed_phase|done]. Qed.
Lemma writable_later im im' r : same_engine im im' -> writable im r -> writable im' r.
Proof. intros [_ _ _ _ H E] [Hr He]. split; [by eapply attempt_typed_mono|by rewrite E]. Qed.
Lemma writable_found im st subject seq r : workable im -> im_closed im = false -> st = engine_state im ->
  find_attempt st subject seq = Some r -> writable im r.
Proof.
  intros Hw Hc -> [Hr _]%find_first_Some. destruct (workable_policy im Hw Hc) as (_ & _ & H).
  rewrite Forall_forall in H. auto.
Qed.

(** ** The operations on an attempt *)
Lemma keeps_tick (Q : unit -> EngineImpl -> Prop) im :
  (same_engine im (advance_tick im) -> workable (advance_tick im) -> Q tt (advance_tick im)) ->
  keeps (emodify advance_tick) Q im.
Proof.
  intros HQ. apply keeps_typed. intros Hw. assert (Ht : engine_typed (advance_tick im)).
  { destruct Hw as [[] _]. split; try done. cbn. pose proof (Z.mod_pos_bound (im_tick im + 1) two64). ints. }
  apply keeps_modify; [done|done|by intros|]. apply HQ; [done|]. split; [done|]. apply Hw.
Qed.

Lemma unavailable_open im : unavailable im = None -> im_closed im = false.
Proof. unfold unavailable, publication_open. by destruct (im_closed im). Qed.
Lemma shutting_down_open im : engine_shutting_down im = None -> im_closed im = false.
Proof. unfold engine_shutting_down. by destruct (im_closed im). Qed.
Lemma same_closed im im' : same_engine im im' -> im_closed im = false -> im_closed im' = false.
Proof. intros [_ _ _ -> _]. done. Qed.
#[local] Hint Resolve writable_phase writable_push : typed.
(** Later in an operation the engine is still open and attempts still writable. *)
Ltac still_open := repeat (eapply same_closed; [eassumption|]); assumption.
Ltac still_writable := repeat (eapply writable_later; [eassumption|]); auto with typed.

Lemma update_type_ok r : attempt_type_ok (update_type r) r.
Proof. unfold update_type, phase_is. destruct (enum_eqb _ _) eqn:E; [|done]. by apply enum_eqb_eq in E. Qed.

Lemma keeps_decided d (k : FailoverDecision -> EngM (Result FailoverDecision)) im :
  im_closed im = false -> decision_typed d ->
  (forall d' im', same_engine im im' -> workable im' ->
     (forall key, digest_wf key -> fd_durable d' = true -> idempotency_wf (idempotency_of key d')) ->
     keeps (k d') any im') ->
  keeps (ebind (commit_decision d) k) any im.
Proof.
  intros Hc Hd Hk. pose proof Hd as [Hdw _]. apply keeps_bind, keeps_commit_decision; [done..|].
  intros d' im' S W Hn _ _. apply Hk; [done|done|]. intros key Hkey Hdur. destruct (Hn Hdur) as (n & Hu & ->).
  by apply idempotency_of_wf.
Qed.
Lemma keeps_finish d im : keeps (eng* _ := remember_decision d in eret (Success d)) any im.
Proof. by keeps_rest. Qed.
Lemma keeps_checkpoint_finish d im : im_closed im = false ->
  keeps (eng* _ := maybe_checkpoint in eng* _ := remember_decision d in eret (Success d)) any im.
Proof. intros Hc. apply keeps_bind, keeps_maybe_checkpoint; [done|]. intros im' _ _ _ _. apply keeps_finish. Qed.

Lemma application_update_writable im report found : application_report_wf report -> writable im found ->
  writable im (application_update im report found).
Proof.
  intros Hr Hf. unfold application_update. destruct (negb (ar_accepted report)); [by auto with typed|].
  apply writable_push, writable_phase. unfold application_report_wf in Hr. destruct Hf as (Ha & H). unfold writable.
  unfold attempt_typed, attempt_wf in *. destruct_and!. by cbn; split_and!.
Qed.
Lemma application_decision_plain report d n : plain_decision n d -> (n < 24)%nat ->
  plain_decision (S n) (application_decision report d).
Proof. intros H Hn. unfold application_decision. destruct (negb _); by apply plain_add, Hn; apply plain_outcome. Qed.

Lemma keeps_application report im : application_report_wf report -> keeps (record_application report) any im.
Proof.
  intros Hr. apply keeps_bind, keeps_get. intros _ Hw. destruct (unavailable im) eqn:Ha; [by apply keeps_ret|].
  apply unavailable_open in Ha. apply keeps_bind, keeps_tick. intros S1 W1 _ _.
  destruct (find_attempt _ _ _) as [found|] eqn:Ef; [|by apply keeps_ret].
  assert (Hfound : writable (advance_tick im) found) by (by eapply writable_found; [exact W1| |reflexivity|exact Ef]).
  set (im1 := advance_tick im) in *. assert (C1 : im_closed im1 = false) by done. clearbody im1. clear Ef.
  destruct (negb (_ =? _)); [by apply keeps_ret|]. destruct (negb (bool_decide _)); [by apply keeps_ret|].
  destruct (incarnation_is_zero _); [by apply keeps_ret|]. apply keeps_bind, keeps_get. intros _ _. cbv zeta.
  destruct (application_late found _); [apply keeps_settle_undurable|].
  apply keeps_bind, keeps_update; [done|by apply application_update_writable|apply update_type_ok|].
  intros status im2 S2 W2 _ _. destruct (negb (status_ok status)); [by apply keeps_ret|].
  apply keeps_decided; [still_open| |].
  - apply (pd_typed 1), application_decision_plain; [|lia].
    by apply plain_assertion, attempt_decision_plain.
  - intros d' im3 S3 W3 _. apply keeps_checkpoint_finish. still_open.
Qed.

Lemma keeps_verification report im : verification_report_wf report -> keeps (record_verification report) any im.
Proof.
  intros Hr. apply keeps_bind, keeps_get. intros _ Hw. destruct (unavailable im) eqn:Ha; [by apply keeps_ret|].
  apply unavailable_open in Ha. apply keeps_bind, keeps_tick. intros S1 W1 _ _.
  destruct (find_attempt _ _ _) as [found|] eqn:Ef; [|by apply keeps_ret].
  assert (Hfound0 : writable im found) by (by eapply writable_found; [exact Hw| |reflexivity|exact Ef]).
  assert (Hfound : writable (advance_tick im) found) by (by eapply writable_later).
  pose proof (attempt_decision_plain im found DecisionKind.Verify Hw Hfound0) as Hd.
  set (im1 := advance_tick im) in *. assert (C1 : im_closed im1 = false) by done. clearbody im1. clear Ef.
  destruct (negb (bool_decide _)); [by apply keeps_ret|]. cbv zeta.
  destruct (verification_late found _); [apply keeps_settle_undurable|].
  destruct (negb (vr_effect_observed report)).
  - unfold verify_unobserved. apply keeps_bind, keeps_update; [done|by auto with typed|done|].
    intros status im2 S2 W2 _ _. destruct (negb (status_ok status)); [by apply keeps_ret|].
    apply keeps_decided; [still_open|exact (plain_last _ _ _ (plain_asserted _ _ _ _ Hd))|].
    intros d' im3 S3 W3 _. apply keeps_finish.
  - unfold verify_observed. cbv zeta. apply keeps_bind, keeps_update; [done|by auto with typed|done|].
    intros status im2 S2 W2 _ _. destruct (negb (status_ok status)); [by apply keeps_ret|].
    apply keeps_bind, keeps_update; [still_open|by still_writable|done|].
    intros status' im3 S3 W3 _ _. destruct (negb (status_ok status')); [by apply keeps_ret|].
    apply keeps_decided; [still_open|exact (plain_last _ _ _ (plain_asserted _ _ _ _ Hd))|].
    intros d' im4 S4 W4 _. apply keeps_checkpoint_finish. still_open.
Qed.

Lemma writable_wf im r : writable im r -> attempt_wf r.
Proof. by intros [[? _] _]. Qed.

Lemma authority_fence_typed im kind detail r : workable im -> writable im r -> text_wf 512 detail ->
  fence_wf (authority_fence im kind detail r).
Proof.
  intros [[_ Hi He _ _ _] _] [(Ha & _) _] Ht. unfold attempt_wf in Ha. destruct_and!. unfold fence_wf. by typed_fields.
Qed.

Lemma keeps_revoke q found d im : im_closed im = false -> workable im -> rollback_request_wf q -> writable im found ->
  plain_decision 0 d -> keeps (revoke q found d) any im.
Proof.
  intros Hc Hw Hq Hf Hd. unfold rollback_request_wf in Hq. destruct_and!. unfold revoke.
  apply keeps_bind, keeps_update; [done|by auto with typed|done|].
  intros status im1 S1 W1 _ _. destruct (negb (status_ok status)); [by apply keeps_ret|].
  apply keeps_bind, keeps_get. intros _ _. apply keeps_bind, keeps_fence; [still_open| |done|].
  { apply authority_fence_typed; [done|by still_writable|]. vm_compute. discriminate. }
  intros status' im2 S2 W2 _ _. destruct (negb (status_ok status')); [by apply keeps_ret|].
  apply keeps_decided; [still_open| |].
  { apply (pd_typed 2), plain_add, Nat.ltb_lt; [|done]. apply plain_add, Nat.ltb_lt; [|done]. by apply plain_asserted. }
  intros d' im3 S3 W3 Hidx. apply keeps_bind, keeps_commit_idempotency; [still_open|by apply Hidx|].
  intros im4 S4 W4 _ _. apply keeps_finish.
Qed.

Lemma keeps_rollback q im : rollback_request_wf q -> keeps (request_rollback q) any im.
Proof.
  intros Hq. apply keeps_bind, keeps_get. intros _ Hw. destruct (engine_shutting_down im) eqn:Ha; [by apply keeps_ret|].
  apply shutting_down_open in Ha. apply keeps_bind, keeps_tick. intros S1 W1 _ _.
  destruct (find_idempotency _ _); [by apply keeps_ret|].
  destruct (find_attempt _ _ _) as [found|] eqn:Ef; [|by apply keeps_ret].
  assert (Hfound : writable im found) by (by eapply writable_found; [exact Hw| |reflexivity|exact Ef]).
  cbv zeta. destruct (rollback_settled _ _ _ _); [apply keeps_settle_undurable|].
  apply keeps_revoke; [done|done|done|by still_writable|by apply attempt_decision_plain].
Qed.

Lemma rebind_authority_typed im a : workable im -> im_closed im = false -> authority_wf a ->
  authority_wf (rebind_authority im a).
Proof.
  intros Hw Hc Ha. destruct (workable_policy im Hw Hc) as (Hp & Ht & _). destruct Hw as [[_ Hi He _ _ _] _].
  unfold policy_wf, topology_wf, authority_wf in *. destruct_and!. by typed_fields.
Qed.

Lemma revalidated_record_writable im v found : workable im -> im_closed im = false -> writable im found ->
  writable im (revalidated_record im v found).
Proof.
  intros Hw Hc Hf. unfold revalidated_record. cbv zeta.
  assert (Hr : writable im (set_at_revalidation v (set_at_revalidated true found))).
  { destruct Hf as (Ha & H). unfold writable, attempt_typed, attempt_wf in *. destruct_and!. by cbn; split_and!. }
  destruct v; auto with typed.
  match goal with |- writable im (set_at_coordinator _ (set_at_authority _ ?r)) =>
    assert (Hr' : writable im r) by auto with typed; generalize dependent r end.
  intros r Hr'. pose proof (rebind_authority_typed im (at_authority found) Hw Hc) as Hb.
  destruct Hf as [(Haf & _) _]. unfold attempt_wf in Haf. destruct_and!. destruct Hw as [[_ Hi _ _ _ _ Hbd] _].
  unfold writable, attempt_typed, attempt_wf in *. destruct_and!. cbn. split_and!; auto. by rewrite Hbd.
Qed.

Lemma plain_if n (b : bool) d d' : plain_decision n d -> plain_decision n d' -> plain_decision n (if b then d else d').
Proof. by destruct b. Qed.

Lemma revalidated_decision_plain im v found d : workable im -> im_closed im = false -> writable im found ->
  plain_decision 0 d -> plain_decision 5 (revalidated_decision im v found d).
Proof.
  intros Hw Hc Hf Hd. unfold revalidated_decision. cbv zeta.
  apply plain_add; [apply plain_add|lia]; [|lia].
  assert (Hadd : forall o c t, plain_decision 3 (add_reason c t (set_fd_outcome o d))).
  { intros. apply (plain_weaken 1); [lia|]. apply plain_add; [by apply plain_outcome|lia]. }
  destruct v; try apply Hadd.
  apply plain_authority; [apply rebind_authority_typed; try done; destruct Hf as [(Ha & _) _];
    unfold attempt_wf in Ha; by destruct_and!|].
  assert (H1 : forall c t, plain_decision 1 (add_reason c t (asserted Assertion.Authorization Outcome.Ok d))).
  { intros. apply plain_add; [by apply plain_asserted|lia]. }
  apply plain_if.
  - apply (plain_weaken 2); [lia|]. apply plain_if; [apply (plain_weaken 1); [lia|]; apply H1|].
    apply plain_add; [apply H1|lia].
  - apply plain_add; [|lia]. apply plain_if; [apply (plain_weaken 1); [lia|]; apply H1|].
    apply plain_add; [apply H1|lia].
Qed.

Lemma keeps_revalidation q im : revalidation_request_wf q -> keeps (resolve_interrupted q) any im.
Proof.
  intros Hq. apply keeps_bind, keeps_get. intros _ Hw. destruct (engine_shutting_down im) eqn:Ha; [by apply keeps_ret|].
  apply shutting_down_open in Ha. destruct (incarnation_is_zero _); [by apply keeps_ret|].
  destruct (negb (_ =? _)); [by apply keeps_ret|]. apply keeps_bind, keeps_tick. intros S1 W1 _ _.
  destruct (find_attempt _ _ _) as [found|] eqn:Ef; [|by apply keeps_ret].
  assert (Hfound : writable im found) by (by eapply writable_found; [exact Hw| |reflexivity|exact Ef]).
  cbv zeta. destruct (revalidation_settled _ _); [apply keeps_settle_undurable|].
  apply keeps_bind, keeps_update; [still_open| |apply update_type_ok|].
  { eapply writable_later; [exact S1|]. by apply revalidated_record_writable. }
  intros status im2 S2 W2 _ _. destruct (negb (status_ok status)); [by apply keeps_ret|].
  apply keeps_decided; [still_open| |].
  - apply (pd_typed 5), revalidated_decision_plain; [done..|]. by apply plain_assertion, attempt_decision_plain.
  - intros d' im3 S3 W3 _. apply keeps_finish.
Qed.

(** ** Definition changes *)
Lemma keeps_fence_authorities kind detail records im : text_wf 512 detail -> im_closed im = false -> workable im ->
  Forall (writable im) records -> keeps (fence_authorities kind detail records) any im.
Proof.
  intros Ht. revert im. induction records as [|r records IH]; intros im Hc Hw Hr; cbn [fence_authorities];
    [by apply keeps_ret|].
  apply Forall_cons in Hr as [Hr1 Hr]. destruct (negb _).
  { by apply IH. }
  apply keeps_bind, keeps_update; [done|by auto with typed|done|].
  intros status im1 S1 W1 _ _. destruct (negb (status_ok status)); [by apply keeps_ret|].
  apply keeps_bind, keeps_get. intros _ _. apply keeps_bind, keeps_fence; [still_open| |done|].
  { apply authority_fence_typed; [done|by still_writable|done]. }
  intros status' im2 S2 W2 _ _. destruct (negb (status_ok status')); [by apply keeps_ret|].
  apply IH; [still_open|done|]. eapply Forall_impl; [exact Hr|]. intros x Hx. by still_writable.
Qed.
Lemma keeps_fence_active kind detail im : text_wf 512 detail -> im_closed im = false ->
  keeps (fence_active_authorities kind detail) any im.
Proof.
  intros Ht Hc. apply keeps_bind, keeps_get. intros _ Hw. apply keeps_fence_authorities; [done..|].
  by destruct (workable_policy im Hw Hc) as (_ & _ & H).
Qed.

Lemma keeps_set_policy p im : policy_wf p -> keeps (set_policy p) any im.
Proof.
  intros Hp. apply keeps_bind, keeps_get. intros _ Hw. destruct (im_closed im) eqn:Hc; [by apply keeps_ret|].
  cbv zeta. destruct (status_ok (policy_validate p)) eqn:Hv; cbn [negb]; [|by apply keeps_ret].
  destruct (_ <? _); [by apply keeps_ret|]. destruct (_ =? _); [by apply keeps_ret|].
  apply keeps_bind, keeps_commit; [done|done|intros s _; by apply sound_policy|].
  intros status im1 S1 W1 _ _. destruct (negb (status_ok status)); [by apply keeps_ret|].
  apply keeps_fence_active; [|still_open]. vm_compute. discriminate.
Qed.

Lemma topology_canonicalise_wf t : topology_wf t -> topology_wf (topology_canonicalise t).
Proof.
  intros (Hg & Hn & Hl). split; [done|]. cbn. rewrite std_sort_length. split; [done|].
  apply Forall_forall. intros d Hd%elem_of_std_sort. rewrite Forall_forall in Hl. auto.
Qed.
Lemma keeps_set_topology t im : topology_wf t -> keeps (set_topology t) any im.
Proof.
  intros Ht%topology_canonicalise_wf. apply keeps_bind, keeps_get. intros _ Hw.
  destruct (im_closed im) eqn:Hc; [by apply keeps_ret|].
  cbv zeta. destruct (status_ok (topology_validate (topology_canonicalise t))) eqn:Hv; cbn [negb]; [|by apply keeps_ret].
  destruct (_ <? _); [by apply keeps_ret|]. destruct (_ =? _); [by apply keeps_ret|].
  apply keeps_bind, keeps_commit; [done|done|intros s _; by apply sound_topology|].
  intros status im1 S1 W1 _ _. destruct (negb (status_ok status)); [by apply keeps_ret|].
  apply keeps_fence_active; [|still_open]. vm_compute. discriminate.
Qed.

(** ** Publications *)
Lemma table_typed_erase {R} (wf : R -> Prop) p (t : Table (Retained R)) : table_typed wf t -> table_typed wf (erase_publisher p t).
Proof.
  intros H k b p' r Hk Hb. destruct (erase_publisher_lookup _ _ _ _ _ _ Hk Hb) as (_ & b' & Hk' & Hb'). by eapply H.
Qed.
Lemma table_typed_bucket {R} (wf : R -> Prop) k (t : Table (Retained R)) :
  table_typed wf t -> table_typed wf (<[k := bucket_of k t]> t).
Proof.
  intros H k' b p r Hk Hb. destruct (decide (k' = k)) as [->|Hne].
  - rewrite lookup_insert_eq in Hk. injection Hk as <-. unfold bucket_of in Hb.
    destruct (t !! k) as [b|] eqn:E; cbn in Hb; [by eapply H|by rewrite lookup_empty in Hb].
  - rewrite lookup_insert_ne in Hk by done. by eapply H.
Qed.
Lemma table_typed_insert {R} (wf : R -> Prop) k p r (t : Table (Retained R)) : table_typed wf t ->
  link_key_valid k -> wf (re_report r) -> digest_wf (re_digest r) -> is_u64 (re_receipt_tick r) ->
  table_typed wf (<[k := <[p := r]> (bucket_of k t)]> t).
Proof.
  intros H Hk Hr Hd Ht k' b p' r' Hk' Hb. destruct (decide (k' = k)) as [->|Hne].
  - rewrite lookup_insert_eq in Hk'. injection Hk' as <-. destruct (decide (p' = p)) as [->|Hp].
    + rewrite lookup_insert_eq in Hb. by injection Hb as <-.
    + rewrite lookup_insert_ne in Hb by done. eapply (table_typed_bucket wf k t H k); [apply lookup_insert_eq|exact Hb].
  - rewrite lookup_insert_ne in Hk' by done. by eapply H.
Qed.

Lemma admit_publisher_typed stamp im : engine_typed im -> engine_typed (admit_publisher stamp im).2.
Proof.
  intros []. unfold admit_publisher. repeat case_match; try (by split).
  split; cbn; try done; by apply table_typed_erase.
Qed.

Lemma keeps_epure f im : publication_frame im (f im).2 -> (engine_typed im -> engine_typed (f im).2) ->
  keeps (epure f) any im.
Proof.
  intros [F1 F2 F3 F4 _ F6 _] Ht fs [H1 H2]. cbn. split; [|split; [|done]].
  - split; [auto|]. rewrite F2, F1, F6. done.
  - split; try done; unfold engine_state; by rewrite F2.
Qed.

Lemma publication_refused_key im link g t stamp : publication_refused im link g t stamp = None ->
  name_wf (lk_fabric link) -> name_wf (lk_link link) -> is_valid_name (eo_fabric (im_options im)) = true ->
  link_key_valid link.
Proof.
  unfold publication_refused. destruct (publication_open im); [done|]. case_bool_decide as Hf; cbn [negb]; [|done].
  destruct (string_empty (lk_link link)) eqn:He; cbn [orb]; [done|]. intros _ _ Hl Ho. split; [by rewrite Hf|].
  destruct Hl as [E|]; [|done]. unfold string_empty in He. by rewrite E in He.
Qed.

Lemma note_observation_typed link stamp b im : engine_typed im -> engine_typed (note_observation link stamp b im).
Proof. intros []. by split. Qed.
Lemma advance_tick_typed im : engine_typed im -> engine_typed (advance_tick im).
Proof. intros []. split; try done. cbn. pose proof (Z.mod_pos_bound (im_tick im + 1) two64). ints. Qed.

Lemma publish_failure_typed r im : failure_report_wf r -> engine_typed im -> engine_typed (publish_failure_report r im).2.
Proof.
  intros Hr Ht. unfold publish_failure_report. cbv zeta. destruct (publication_refused _ _ _ _ _) eqn:Er; [done|].
  pose proof (et_options _ Ht) as [_ Hfab _ _]. pose proof Hr as (N1 & N2 & _).
  pose proof (publication_refused_key _ _ _ _ _ Er N1 N2 Hfab) as Hk.
  pose proof (admit_publisher_typed (fr_stamp r) _ (advance_tick_typed _ Ht)) as Ha.
  destruct (admit_publisher (fr_stamp r) (advance_tick im)) as [[s|] im1]; cbn [snd] in *; [done|].
  destruct (sequence_replayed _ _ _); [done|]. destruct Ha. destruct (_ && _)%bool; cbn [snd].
  - split; try done. by apply table_typed_bucket.
  - apply note_observation_typed. split; try done. cbn. apply table_typed_insert; try done. apply sha256_wf.
Qed.
Lemma publish_replacement_typed r im : replacement_report_wf r -> engine_typed im ->
  engine_typed (publish_replacement_report r im).2.
Proof.
  intros Hr Ht. unfold publish_replacement_report. cbv zeta. destruct (publication_refused _ _ _ _ _) eqn:Er; [done|].
  pose proof (et_options _ Ht) as [_ Hfab _ _]. pose proof Hr as (N1 & N2 & _).
  pose proof (publication_refused_key _ _ _ _ _ Er N1 N2 Hfab) as Hk.
  pose proof (admit_publisher_typed (rr_stamp r) _ (advance_tick_typed _ Ht)) as Ha.
  destruct (admit_publisher (rr_stamp r) (advance_tick im)) as [[s|] im1]; cbn [snd] in *; [done|].
  destruct (sequence_replayed _ _ _); [done|]. destruct Ha. destruct (_ && _)%bool; cbn [snd].
  - split; try done. by apply table_typed_bucket.
  - apply note_observation_typed. split; try done. cbn. apply table_typed_insert; try done. apply sha256_wf.
Qed.

(** ** Evidence in decisions *)
Lemma map_entries_lookup {A} (m : gmap string A) p x : (p, x) ∈ map_entries m -> m !! p = Some x.
Proof. unfold map_entries. rewrite elem_of_std_sort. apply elem_of_map_to_list. Qed.

Definition verdict_typed (v : FailureVerdict) : Prop :=
  name_wf (fv_publisher v) /\ incarnation_wf (fv_publisher_incarnation v) /\ is_u64 (fv_publisher_seq v) /\
  digest_wf (fv_evidence_digest v) /\ Forall reason_wf (fv_extra v) /\ (length (fv_extra v) <= 4)%nat.

Lemma verdict_of_typed o c d extra : Forall reason_wf extra -> (length extra <= 4)%nat ->
  verdict_typed (verdict_of o c d extra).
Proof. intros H1 H2. unfold verdict_typed. typed_fields; done. Qed.

Lemma verdict_bare o c d : verdict_typed (verdict_of o c d []).
Proof. apply verdict_of_typed; [constructor|cbn; lia]. Qed.

Lemma tally_best im policy g t l b age : ty_best (foldl (tally_entry im policy g t) tally_none l) = Some (b, age) ->
  exists p, (p, b) ∈ l.
Proof.
  revert age. induction l as [|[p x] l IH] using rev_ind; intros age; [done|]. rewrite foldl_app. cbn [foldl].
  set (t1 := foldl _ _ l) in *. unfold tally_entry at 1. cbv zeta.
  assert (Hold : ty_best t1 = Some (b, age) -> exists q, (q, b) ∈ l ++ [(p, x)]).
  { intros H. destruct (IH _ H) as [q Hq]. exists q. apply elem_of_app. by left. }
  repeat (case_if; [exact Hold|]). destruct (receipt_class im policy x) as [f a].
  repeat (case_if; cbn [ty_best tally_failure tally_qualified]; try exact Hold).
  intros [= -> ->]. exists p. apply elem_of_app. right. constructor.
Qed.

Lemma evaluate_failure_typed im subject g policy t : table_typed failure_report_wf (im_failure_evidence im) ->
  verdict_typed (evaluate_failure im subject g policy t).
Proof.
  intros Ht. unfold evaluate_failure. destruct (im_failure_evidence im !! subject) as [bucket|] eqn:Eb;
    [|apply verdict_bare]. destruct (Nat.eqb (size bucket) 0); [apply verdict_bare|].
  unfold conclude. destruct (Nat.eqb _ 0).
  { unfold verdict_unqualified. cbv zeta. set (seen := List.filter _ _).
    assert (Hn : (length seen <= 4)%nat) by (etrans; [apply List.filter_length_le|done]).
    assert (Hr : Forall reason_wf (map (fun c => reason c.1.1.2 c.2) seen))
      by (apply Forall_map, Forall_forall; intros; apply reason_typed).
    destruct (match seen with [] => _ | _ => _ end) as [code detail].
    apply verdict_of_typed; [exact Hr|by rewrite length_map]. }
  destruct (agreement_established _ _); [|case_if; apply verdict_bare].
  destruct (ty_best _) as [[b age]|] eqn:E; [|case_if; apply verdict_bare].
  apply tally_best in E as [p Hp]. apply map_entries_lookup in Hp.
  destruct (Ht _ _ _ _ Eb Hp) as (_ & Hw & Hd & _). unfold failure_report_wf, stamp_wf in Hw. destruct_and!.
  unfold verdict_typed. typed_fields; done || lia.
Qed.

Record resolved_typed (r : ResolvedCandidate) : Prop := {
  rt_key : link_key_wf (rs_candidate r);
  rt_generation : is_u64 (rs_link_generation r);
  rt_age : is_u64 (rs_age_ticks r);
  rt_digest : digest_wf (rs_evidence_digest r);
  rt_report : is_confidence (rr_confidence (rs_report r)) /\ is_u32 (rr_capacity_units (rs_report r)) /\
    is_u32 (rr_cost_units (rs_report r));
  rt_present : rs_evidence_present r = true -> link_key_valid (rs_candidate r);
}.

Lemma absent_typed k g a m : link_key_wf k -> is_u64 g -> resolved_typed (resolved_without_evidence k g a m).
Proof. intros Hk Hg. split; cbn; auto with typed; [|done]. repeat split; done. Qed.

Lemma pick_entry_elem im g l best : foldl (pick_entry im g) None l = Some best -> (best.1.1, best.1.2) ∈ l.
Proof.
  revert best. induction l as [|[p x] l IH] using rev_ind; intros best; [done|]. rewrite foldl_app. cbn [foldl].
  set (b1 := foldl _ _ l) in *. unfold pick_entry at 1. rewrite elem_of_app, list_elem_of_singleton. cbv zeta.
  case_if; [by left; apply IH|]. destruct b1 as [[[q b] a]|].
  - case_if; [by left; apply IH|]. case_if; [|by left; apply IH]. intros [= <-]. by right.
  - intros [= <-]. by right.
Qed.

Lemma classify_receipt_age c t cur now age : is_u64 t -> is_u64 now -> is_u64 (classify_receipt c t cur now age).2.
Proof.
  intros Ht Hn. unfold classify_receipt. case_if; [cbn; ints|]. destruct (Z.gtb_spec t now); cbn; ints.
Qed.

Lemma resolve_candidate_typed im c : workable im -> im_closed im = false -> candidate_wf c ->
  resolved_typed (resolve_candidate im c).
Proof.
  intros Hw Hc (H1 & H2 & H3). destruct (workable_policy im Hw Hc) as (_ & (_ & _ & Ht) & _).
  assert (Hk : link_key_wf (rc_candidate c)) by done.
  unfold resolve_candidate. cbv zeta. destruct (topology_find _ _) as [def|] eqn:Ed; [|by apply absent_typed].
  apply find_first_Some in Ed as [Hin _]. rewrite Forall_forall in Ht. destruct (Ht _ Hin) as (_ & _ & Hg & _).
  destruct (im_replacement_evidence im !! rc_candidate c) as [b|] eqn:Eb; [|by apply absent_typed].
  destruct (foldl _ _ _) as [[[p best] age]|] eqn:Ef; [|by apply absent_typed].
  apply pick_entry_elem, map_entries_lookup in Ef. cbn [fst snd] in Ef.
  destruct Hw as [[_ _ _ Htick _ Hr] _]. destruct (Hr _ _ _ _ Eb Ef) as (Hv & Hrep & Hd & Hre).
  pose proof (classify_receipt_age (re_receipt_coordinator best) _ (im_incarnation im) _
    (fp_evidence_max_age_ticks (ds_policy (engine_state im))) Hre Htick) as Ha. unfold receipt_class.
  destruct (classify_receipt _ _ _ _ _) as [f a]. unfold replacement_report_wf in Hrep. destruct_and!.
  by split; cbn.
Qed.

Lemma assess_typed input r : resolved_typed r -> assessment_wf (assess input r).
Proof.
  intros []. destruct_and!. unfold assess.
  assert (Hd : text_wf 256 (assess_verdict input r).2) by (unfold assess_verdict; repeat case_if; vm_compute; discriminate).
  destruct (assess_verdict input r) as [[v c] d]. unfold assessment_wf. by typed_fields.
Qed.

(** ** Requests *)
Lemma authority_none_wf : authority_wf authority_none.
Proof. unfold authority_wf. typed_fields. Qed.
#[local] Hint Resolve authority_none_wf : typed.

Lemma undecided_writable im q d ev : workable im -> im_closed im = false -> failover_request_wf q ->
  plain_decision 16 d -> digest_wf ev -> writable im (undecided_attempt im q d ev).
Proof.
  intros Hw Hc Hq [(Hd & _) Hn] He. destruct (wk_state _ Hw Hc) as (Hst & Hu & _). destruct (ty_bounded _ _ Hst) as [H0 _].
  destruct Hw as [[_ Hi Hep Ht _ _] _]. unfold failover_request_wf, decision_wf in *. destruct_and!.
  unfold writable, attempt_typed, attempt_wf. cbn. split_and!; auto with typed; try done; try ints.
  unfold count_wf, kMaxAttemptReasons. lia.
Qed.

Lemma keeps_settle_undecided im q d ev : workable im -> im_closed im = false -> failover_request_wf q ->
  plain_decision 16 d -> digest_wf ev -> keeps (settle_undecided im q d ev) any im.
Proof.
  intros Hw Hc Hq Hd He. pose proof Hq as (_ & _ & _ & _ & _ & Hkey). unfold settle_undecided.
  destruct (within_budget im q); [|by apply keeps_settle].
  apply keeps_bind, keeps_create; [done|by apply undecided_writable| |].
  { cbn. destruct (enum_eqb _ _); auto. }
  intros status im1 S1 W1 _ _. destruct (negb (status_ok status)); [by apply keeps_ret|].
  apply keeps_settle; [still_open|]. intros _. split; [by eapply pd_typed|done].
Qed.

Lemma keeps_unestablished im q d verdict : workable im -> im_closed im = false -> failover_request_wf q ->
  plain_decision 0 d -> verdict_typed verdict -> keeps (failover_unestablished im q d verdict) any im.
Proof.
  intros Hw Hc Hq Hd (_ & _ & _ & Hev & Hex & Hn). unfold failover_unestablished. cbv zeta.
  apply keeps_settle_undecided; [done..| |done].
  assert (Hrs : forall k a o, plain_decision 5 (set_fd_reasons (fd_reasons (decided k a o d) ++
    reason (fv_reason verdict) (fv_detail verdict) :: fv_extra verdict) (decided k a o d))).
  { intros k a o. destruct Hd as [(Hd & Hs & Hr) Hl]. split; [|cbn; rewrite length_app; cbn; lia].
    split; [|done]. unfold decision_wf in *. destruct_and!. cbn. split_and!; try done.
    - unfold count_wf, kMaxDecisionReasons. rewrite length_app. cbn. lia.
    - apply Forall_app. split; [done|]. constructor; [apply reason_typed|done]. }
  assert (Hseq : is_u64 (wrap64 (attempts_so_far im q + 1))).
  { pose proof (Z.mod_pos_bound (attempts_so_far im q + 1) two64). ints. }
  apply (plain_weaken 5); [lia|].
  apply plain_if; [apply plain_attempt_id; [apply attempt_id_wf|]|]; apply plain_attempt_seq; auto.
Qed.

Lemma keeps_unselected im q d status : workable im -> im_closed im = false -> failover_request_wf q ->
  plain_decision 0 d -> keeps (failover_unselected im q d status) any im.
Proof.
  intros Hw Hc Hq Hd. unfold failover_unselected. cbv zeta.
  assert (Hseq : is_u64 (wrap64 (attempts_so_far im q + 1))).
  { pose proof (Z.mod_pos_bound (attempts_so_far im q + 1) two64). ints. }
  set (d1 := set_fd_attempt_id _ _).
  assert (Hd1 : plain_decision 0 d1).
  { apply plain_attempt_id; [apply attempt_id_wf|]. apply plain_attempt_seq; [done|]. by apply plain_assertion. }
  clearbody d1.
  assert (Hk : forall k o, plain_decision 0 (set_fd_outcome o (set_fd_kind k d1))) by (intros; by destruct Hd1).
  assert (Hone : forall c t k o, plain_decision 2 (add_reason c t (set_fd_outcome o (set_fd_kind k d1)))).
  { intros. apply (plain_weaken 1); [lia|]. apply plain_add; [apply Hk|lia]. }
  match goal with |- keeps (settle_undecided im q ?d2 _) _ _ => assert (Hd2 : plain_decision 2 d2) end.
  { destruct status; try apply Hone. apply plain_add; [|lia]. apply plain_add; [apply Hk|lia]. }
  apply keeps_settle_undecided; [done..| |].
  - eapply plain_weaken; [|exact Hd2]. lia.
  - destruct Hd2 as [(Hd2 & _) _]. unfold decision_wf in Hd2. by destruct_and!.
Qed.

Lemma gate_typed im q d d' : workable im -> im_closed im = false -> plain_decision 0 d ->
  failover_gate im q d = Some (d', true) -> decision_typed d'.
Proof.
  intros Hw Hc Hd. unfold failover_gate. cbv zeta. destruct (compare_authority _ _); [|done].
  destruct (negb _); [done|]. destruct (active_authority _ _ _); [done|].
  destruct (latest_attempt _ _ _) as [latest|] eqn:El; [|done]. destruct (negb _); [done|].
  assert (Hin : latest ∈ ds_attempts (engine_state im)).
  { unfold latest_attempt in El. pose proof (latest_of_spec (about_generation (fq_subject q) (fq_subject_generation q))
      (ds_attempts (engine_state im))) as H. rewrite El in H. by destruct H. }
  destruct (workable_policy im Hw Hc) as (_ & _ & Hall). rewrite Forall_forall in Hall. destruct (Hall _ Hin) as ((Ha & _) & _).
  unfold attempt_wf in Ha. destruct_and!. intros [= <-].
  assert (Hp : plain_decision 0 (set_fd_attempt_seq (at_attempt_seq latest)
    (decided DecisionKind.Indeterminate Assertion.Observation Outcome.Indeterminate d))).
  { apply plain_attempt_seq; [done|]. by apply plain_decided. }
  destruct (at_revalidated latest); by apply plain_last.
Qed.


(** *** The grant *)
Lemma bind_subject_typed im q link : workable im -> im_closed im = false -> bind_subject im q = Success link ->
  is_u64 (ld_generation link).
Proof.
  intros Hw Hc. destruct (workable_policy im Hw Hc) as (_ & (_ & _ & Ht) & _). unfold bind_subject.
  destruct (topology_find _ _) as [d|] eqn:E; [|done]. case_if; [done|]. intros [= <-].
  apply find_first_Some in E as [Hin _]. rewrite Forall_forall in Ht. by destruct (Ht _ Hin) as (_ & _ & ? & _).
Qed.

Lemma grant_authority_typed im q link verdict chosen seq : workable im -> im_closed im = false ->
  link_key_valid (fq_subject q) -> is_u64 (ld_generation link) -> verdict_typed verdict -> assessment_wf chosen ->
  is_u64 seq -> authority_wf (grant_authority im q link verdict chosen seq).
Proof.
  intros Hw Hc Hs Hl (V1 & V2 & V3 & V4 & _) Ha Hseq.
  pose proof (current_authority_typed im (fq_subject q) (ld_generation link) Hw Hc Hs Hl) as H.
  unfold assessment_wf, authority_wf in *. destruct_and!. unfold grant_authority. by typed_fields.
Qed.

Lemma grant_decision_typed im q link verdict chosen seq d : workable im -> im_closed im = false ->
  link_key_valid (fq_subject q) -> is_u64 (ld_generation link) -> verdict_typed verdict -> assessment_wf chosen ->
  link_key_valid (ca_candidate chosen) -> is_u64 seq -> plain_decision 0 d ->
  plain_decision 2 (grant_decision im q link verdict chosen seq d).
Proof.
  intros Hw Hc Hs Hl Hv Ha Hk Hseq Hd. unfold grant_decision. cbv zeta.
  apply plain_authority; [by apply grant_authority_typed|]. apply plain_add; [|lia]. apply plain_add; [|lia].
  apply plain_attempt_id; [apply attempt_id_wf|]. apply plain_attempt_seq; [done|].
  unfold assessment_wf in Ha. destruct_and!. destruct Hd as [(Hd & Hsub & _) Hn]. split; [|done].
  unfold decision_typed, decision_wf in *. destruct_and!. typed_fields; done.
Qed.

Lemma grant_attempt_writable im q link verdict d : workable im -> im_closed im = false -> failover_request_wf q ->
  is_u64 (ld_generation link) -> verdict_typed verdict -> plain_decision 2 d -> fd_has_replacement d = true ->
  av_epoch (fd_authority d) = im_epoch im ->
  writable im (grant_attempt im q link verdict d).
Proof.
  intros Hw Hc Hq Hl (V1 & V2 & V3 & V4 & _) [(Hd & _ & Hr) Hn] Hhas Hau. specialize (Hr Hhas).
  destruct (wk_state _ Hw Hc) as (_ & Hu & _). destruct (workable_policy im Hw Hc) as (_ & _ & Hall).
  destruct Hw as [[_ Hi Hep Ht _ _ Hbd] _]. rewrite <- (Hbd Hc) in Hau.
  unfold failover_request_wf, decision_wf in *. destruct_and!. unfold grant_attempt. cbv zeta. unfold writable, attempt_typed, attempt_wf. cbn.
  split_and!; auto with typed; try done; try ints.
  - pose proof (latest_of_spec (about_generation (fq_subject q) (ld_generation link)) (ds_attempts (engine_state im))) as E.
    fold (latest_attempt (engine_state im) (fq_subject q) (ld_generation link)) in E.
    destruct (latest_attempt _ _ _) as [r|]; [|done]. destruct E as [Hin _]. rewrite Forall_forall in Hall.
    destruct (Hall _ Hin) as ((Hr' & _) & _). unfold attempt_wf in Hr'. destruct_and!. case_if; [|done]. by intros ? [= <-].
  - unfold count_wf, kMaxAttemptReasons. lia.
Qed.

Lemma keeps_grant im q link verdict d : workable im -> im_closed im = false -> failover_request_wf q ->
  is_u64 (ld_generation link) -> verdict_typed verdict -> plain_decision 2 d -> fd_has_replacement d = true ->
  av_epoch (fd_authority d) = im_epoch im ->
  keeps (failover_grant im q link verdict d) any im.
Proof.
  intros Hw Hc Hq Hl Hv Hd Hr Hau. pose proof (grant_attempt_writable im q link verdict d Hw Hc Hq Hl Hv Hd Hr Hau) as Ha.
  unfold failover_grant. cbv zeta. apply keeps_bind, keeps_create; [done|done|by left|].
  intros status im1 S1 W1 _ _. destruct (negb (status_ok status)); [by apply keeps_ret|].
  apply keeps_bind, keeps_update; [still_open|by still_writable|done|].
  intros status' im2 S2 W2 _ _. destruct (negb (status_ok status')); [by apply keeps_ret|].
  unfold failover_request_wf in Hq. destruct_and!.
  apply keeps_settle_durable; [still_open|by eapply pd_typed|done].
Qed.

Lemma selection_typed im q link : workable im -> im_closed im = false -> failover_request_wf q ->
  forall r, r ∈ si_candidates (selection_input im q link) -> resolved_typed r.
Proof.
  intros Hw Hc Hq r. cbn. unfold resolve_candidates. rewrite elem_of_std_sort.
  change (map (resolve_candidate im)) with (fmap (M := list) (resolve_candidate im)). rewrite list_elem_of_fmap.
  intros (c & -> & Hin). unfold failover_request_wf in Hq. destruct_and!.
  match goal with H : Forall candidate_wf _ |- _ => rewrite Forall_forall in H; specialize (H c Hin) end.
  by apply resolve_candidate_typed.
Qed.

Lemma keeps_select im q link verdict d : workable im -> im_closed im = false -> failover_request_wf q ->
  is_u64 (ld_generation link) -> verdict_typed verdict -> plain_decision 0 d ->
  keeps (failover_select im q link verdict d) any im.
Proof.
  intros Hw Hc Hq Hl Hv Hd. pose proof (selection_typed im q link Hw Hc Hq) as Hres. unfold failover_select. cbv zeta.
  set (sel := selection_input im q link) in *. destruct (negb (status_ok _)); [by apply keeps_ret|].
  set (d1 := set_fd_evidence_digest _ _).
  assert (Hass : forall a, a ∈ so_assessments (select_replacement sel) -> assessment_wf a).
  { intros a Ha. apply select_assessments in Ha as (r & Hr & ->). by apply assess_typed, Hres. }
  assert (Hd1 : plain_decision 0 d1).
  { pose proof Hv as (_ & _ & _ & V4 & _). apply plain_evidence; [done|]. apply plain_candidates; [|by apply Forall_forall|done].
    unfold count_wf, kMaxDecisionCandidates. rewrite select_assessments_length. cbn. unfold resolve_candidates.
    rewrite std_sort_length, length_map. unfold failover_request_wf in Hq. destruct_and!.
    unfold count_wf, kMaxPolicyCandidates in *. lia. }
  clearbody d1. destruct (enum_eqb _ SelectionStatus.Selected) eqn:Hsel; cbn [negb]; [|by apply keeps_unselected].
  destruct (negb (within_budget im q)); [by apply keeps_settle|].
  destruct (so_selected_index (select_replacement sel)) as [i|] eqn:Hi; cbn [mbind option_bind]; [|by apply keeps_ret].
  destruct (so_assessments (select_replacement sel) !! i) as [chosen|] eqn:Hch; [|by apply keeps_ret].
  destruct (negb (existsb _ _)); [by apply keeps_ret|].
  destruct (checked_add_u64 _ 1) as [seq|] eqn:Hseq; [|by apply keeps_ret].
  assert (Hseq' : is_u64 seq).
  { unfold checked_add_u64, attempts_so_far in Hseq. destruct (Z.gtb_spec (Z.of_nat (count_attempts (engine_state im)
      (fq_subject q) (fq_subject_generation q))) (18446744073709551615 - 1)); [done|]. injection Hseq as <-. ints. }
  pose proof (select_replacement_contract_lemma sel) as Hcon. unfold selection_contract in Hcon.
  apply enum_eqb_eq in Hsel. rewrite Hsel in Hcon. destruct Hcon as (j & r & Hj & Hr & Hat & Hqual & _).
  rewrite Hi in Hj. injection Hj as <-. rewrite Hch in Hat. injection Hat as ->.
  assert (Hk : link_key_valid (ca_candidate (assess sel r))).
  { destruct (assess_fields sel r) as (-> & _). by apply (rt_present _ (Hres r Hr)), (q_present _ _ Hqual). }
  apply keeps_grant; try done. apply grant_decision_typed; try done; [by destruct Hq|]. by apply assess_typed, Hres.
Qed.

Lemma keeps_failover q im : failover_request_wf q -> keeps (request_failover q) any im.
Proof.
  intros Hq. apply keeps_bind, keeps_get. intros _ Hw. destruct (unavailable im) eqn:Ha; [by apply keeps_ret|].
  apply unavailable_open in Ha. apply keeps_bind, keeps_tick. intros S1 W1 _ _.
  set (im1 := advance_tick im) in *. assert (C1 : im_closed im1 = false) by done. clearbody im1.
  apply keeps_bind, keeps_get. intros _ _. destruct (request_refused im1 q); [by apply keeps_ret|].
  destruct (find_idempotency _ _); [by apply keeps_ret|].
  destruct (bind_subject im1 q) as [link|] eqn:Hb; [|by apply keeps_ret]. cbv zeta.
  pose proof (bind_subject_typed _ _ _ W1 C1 Hb) as Hl. pose proof Hq as (Hs & Hg & _ & _ & _ & Hkey).
  assert (Hd : plain_decision 0 (failover_decision im1 q)).
  { apply plain_authority; [by apply current_authority_typed|by apply base_plain]. }
  destruct (failover_gate im1 q _) as [[d b]|] eqn:Hgate.
  { apply keeps_settle; [done|]. intros ->. split; [by eapply gate_typed|done]. }
  pose proof (evaluate_failure_typed im1 (fq_subject q) (fq_subject_generation q) (ds_policy (engine_state im1))
    (ts_generation (ds_topology (engine_state im1))) (et_failure _ (wk_engine _ W1))) as Hv.
  destruct (negb (fv_established _)); [by apply keeps_unestablished|by apply keeps_select].
Qed.

(** ** Every operation *)
(** What the callers of the engine hand in: numbers in the width of their type, names
    that are empty or valid, texts and lists within the bounds of the encodings. *)
Definition operation_typed (op : Operation) : Prop :=
  match op with
  | OpPublishFailure r => failure_report_wf r
  | OpPublishReplacement r => replacement_report_wf r
  | OpSetPolicy p => policy_wf p
  | OpSetTopology t => topology_wf t
  | OpFailover q => failover_request_wf q
  | OpApplication r => application_report_wf r
  | OpVerification r => verification_report_wf r
  | OpRollback q => rollback_request_wf q
  | OpRevalidation q => revalidation_request_wf q
  | OpCheckpoint => True
  | OpClose => True
  end.

Lemma keeps_edecide m im : keeps m any im -> keeps (edecide m) any im.
Proof.
  intros H. apply keeps_bind. eapply keeps_mono; [exact H|]. intros. by apply keeps_ret.
Qed.

Lemma keeps_engine_checkpoint im : keeps engine_checkpoint any im.
Proof.
  apply keeps_bind, keeps_get. intros _ _. destruct (im_closed im) eqn:Hc; [by apply keeps_ret|].
  apply keeps_bind, keeps_checkpoint; [done|]. intros. by apply keeps_ret.
Qed.

Lemma perform_keeps op im : op <> OpClose -> operation_typed op -> keeps (perform op) any im.
Proof.
  destruct op; intros Hne Ht; cbn [perform operation_typed] in *; try apply keeps_edecide.
  - apply keeps_epure; [apply publish_failure_frame|by apply publish_failure_typed].
  - apply keeps_epure; [apply publish_replacement_frame|by apply publish_replacement_typed].
  - by apply keeps_set_policy.
  - by apply keeps_set_topology.
  - by apply keeps_failover.
  - by apply keeps_application.
  - by apply keeps_verification.
  - by apply keeps_rollback.
  - by apply keeps_revalidation.
  - apply keeps_engine_checkpoint.
  - done.
Qed.
