(* ===== verification/Restart.v ===== *)
(** * Restarts of a coordinator

    A coordinator over its whole life ([lives]): opened on an empty directory or on
    one that holds a lineage, through operations, medium failures and restarts.
    Along every such life the engine stays well typed and its medium the image of
    its lineage, so a restart gives the lineage back unless a fence was journaled
    since the last checkpoint, and a clean shutdown always does; and on a quiet
    medium an authorized attempt can be driven to its completion. *)
From S2P Require Import Prelude Status Hash Ids Bytes Evidence Policy Authority Attempt Decision.
From S2P Require Import Selector Fs Journal State Store Intake Engine EngineLogic EngineSafety.
From S2P Require Import Image Progress Durable.

(** ** Media at rest *)
(** The files of a directory when the calls on them succeed again. *)
Definition settled (fs : Fs) : Fs := MkFs (fs_files fs) (fs_dirs fs) [].
Lemma settled_calm fs : fs_calm (settled fs).
Proof. done. Qed.
Lemma settled_file fs p : file_of (settled fs) p = file_of fs p.
Proof. done. Qed.

(** Both files are within the bounds of their readers. *)
Definition medium_readable (o : StoreOptions) (fs : Fs) : Prop :=
  Z.of_nat (length (file_of fs (snapshot_path o))) <= kMaxSnapshotBytes /\ journal_readable o fs.

Lemma medium_snapshot snap o fs : snapshot_of snap o fs -> medium_readable o fs -> snapshot_readable snap.
Proof.
  intros Hs [Hr _] st payload -> Hp. destruct Hs as (Hty & _ & _ & payload' & Hp' & Hf).
  rewrite Hp in Hp'. injection Hp' as <-. unfold file_of in Hr. rewrite Hf in Hr. cbn [from_option id] in Hr.
  destruct (snapshot_counts _ _ _ Hty Hp Hr) as (? & ? & ?). done.
Qed.

Lemma snapshot_of_settled snap o fs : snapshot_of snap o fs -> snapshot_of snap o (settled fs).
Proof. by apply snapshot_of_files. Qed.
Lemma traced_settled snap recs s fs : traced snap recs s fs -> traced snap recs s (settled fs).
Proof. by apply traced_frame. Qed.
Lemma image_of_settled snap recs s fs : image_of snap recs s fs -> image_of snap recs s (settled fs).
Proof. intros [Ht []]. by split; [apply traced_settled|]. Qed.
Lemma torn_of_settled snap recs s fs : torn_of snap recs s fs -> torn_of snap recs s (settled fs).
Proof. intros [Ht H]. by split; [apply traced_settled|]. Qed.

(** The medium holds a lineage an open store had: as it was, or with the last
    commit cut short, where the journal is repaired. *)
Definition at_rest (o : StoreOptions) (fs : Fs) : Prop :=
  exists snap recs s, sm_options s = o /\
    (image_of snap recs s fs \/ (torn_of snap recs s fs /\ sp_repair_torn_tail o = true)).

Lemma healthy_at_rest im s fs : durable im fs -> im_store im = Some s -> sm_failed s = false ->
  at_rest (store_options_of (im_options im)) fs.
Proof.
  intros [_ Hs] Hi Hf. rewrite Hi in Hs. destruct Hs as [<- Hs]. rewrite Hf in Hs.
  destruct Hs as (snap & recs & Himg). exists snap, recs, s. auto.
Qed.

(** ** Opening an engine *)
(** Other programs write other files. *)
Definition same_lineage_files (so : StoreOptions) (fs fs' : Fs) : Prop :=
  fs_files fs' !! snapshot_path so = fs_files fs !! snapshot_path so /\
  fs_files fs' !! journal_path so = fs_files fs !! journal_path so.

Lemma durable_files im fs fs' : same_lineage_files (store_options_of (im_options im)) fs fs' ->
  durable im fs -> durable im fs'.
Proof.
  intros [F1 F2] [He Hs]. split; [done|]. destruct (im_store im) as [s|]; [|done]. destruct Hs as [Ho Hs]. split; [done|].
  rewrite <- Ho in F1, F2.
  assert (Hsn : forall snap, snapshot_of snap (sm_options s) fs -> snapshot_of snap (sm_options s) fs').
  { intros snap. by apply snapshot_of_files. }
  assert (Htr : forall snap recs, traced snap recs s fs -> traced snap recs s fs').
  { intros snap recs. by apply traced_frame. }
  assert (Hj : file_of fs' (journal_path (sm_options s)) = file_of fs (journal_path (sm_options s))).
  { unfold file_of. by rewrite F2. }
  destruct (sm_failed s).
  - destruct Hs as [(snap & recs & Ht & H)|Hs]; [left|right; by apply Hsn]. exists snap, recs. split; [by apply Htr|].
    by rewrite Hj.
  - destruct Hs as (snap & recs & Ht & [J1 J2 J3 J4]). exists snap, recs. split; [by apply Htr|]. split; try done.
    by rewrite Hj.
Qed.

Lemma upsert_keys_present r l : attempt_key r ∈ map attempt_key l ->
  map attempt_key (upsert r l) = map attempt_key l.
Proof.
  induction l as [|x l IH]; cbn [map upsert]; intros Hk; [by apply elem_of_nil in Hk|].
  destruct (same_attempt x r) eqn:E; [by apply same_attempt_key in E; cbn; rewrite E|]. cbn. f_equal. apply IH.
  apply elem_of_cons in Hk as [Hk|Hk]; [|done]. symmetry in Hk. apply same_attempt_key in Hk. congruence.
Qed.

(** Within the limit, and for an attempt that is there, recording evicts nothing. *)
Lemma upsert_is_note r l : attempt_key r ∈ map attempt_key (ds_attempts (ln_state l)) ->
  (length (ds_attempts (ln_state l)) <= sp_max_attempts (ln_options l))%nat ->
  upsert_attempt r l = note_attempt r l.
Proof.
  intros Hk Hl. unfold note_attempt, evict_attempts. cbn [upsert_attempt set_ln_state ln_state ln_options ds_attempts set_ds_attempts].
  assert (E : length (upsert r (ds_attempts (ln_state l))) = length (ds_attempts (ln_state l))).
  { rewrite <- (length_map attempt_key), upsert_keys_present by done. apply length_map. }
  rewrite E. destruct (Nat.leb_spec (length (ds_attempts (ln_state l))) (sp_max_attempts (ln_options l))); [done|lia].
Qed.

Lemma sound_upsert r l : attempt_typed (ds_last_seq (ln_state l)) r ->
  av_epoch (at_authority r) <= ds_epoch (ln_state l) ->
  attempt_key r ∈ map attempt_key (ds_attempts (ln_state l)) ->
  (length (ds_attempts (ln_state l)) <= sp_max_attempts (ln_options l))%nat ->
  sound_commit RecordType.AttemptUpdate (encode_attempt_payload r)
    (fun seq l => upsert_attempt (set_at_update_seq seq r) l) l.
Proof.
  intros Hr He Hk Hl.
  assert (Hok : attempt_type_ok RecordType.AttemptUpdate r) by done.
  destruct (sound_attempt RecordType.AttemptUpdate r (fun seq => set_at_update_seq seq r) l Hr He Hok) as [_ _ SE S3 S4 S5];
    [by left|]. split; [done|done|done|exact S3| |].
  - intros seq H1 H2 H3. rewrite upsert_is_note by done. by apply S4.
  - intros seq H1 H2. rewrite upsert_is_note by done. by apply S5.
Qed.

(** A store that works, whose medium is its image. *)
Definition healthy (o : StoreOptions) (s : StoreImpl) (fs : Fs) : Prop :=
  sm_options s = o /\ sm_failed s = false /\ exists snap recs, image_of snap recs s fs.

Lemma healthy_typed o s fs : healthy o s fs -> state_typed (ds_last_seq (sm_state s)) (sm_state s) /\
  is_u64 (ds_last_seq (sm_state s)).
Proof. intros (Ho & Hf & Hi). apply (store_durable_typed o s fs). split; [done|]. by rewrite Hf. Qed.

Lemma commit_healthy o s type payload apply fs status s' fs' : healthy o s fs ->
  sound_commit type payload apply (sm_lineage s) ->
  store_commit_impl s type payload apply fs = (status, s', fs') -> status_ok status = true ->
  healthy o s' fs' /\ ds_last_seq (sm_state s') = ds_last_seq (sm_state s) + 1.
Proof.
  intros (Ho & Hf & snap & recs & Hi) Hsd E Hok. destruct (commit_image _ _ _ _ _ _ _ _ _ _ Hi Hsd E) as [H _].
  destruct (H Hok) as (H1 & H2 & H3). split; [split; [congruence|eauto]|].
  destruct H3 as [[_ _ -> _ _ _] _]. by rewrite last_seq_of_snoc.
Qed.

Lemma interrupted_typed n r : attempt_typed n r -> attempt_typed n (interrupted_update r).
Proof.
  intros H. apply (attempt_typed_push n (interruption_reason (at_phase r))
    "process terminated while the attempt was in flight"), (attempt_typed_phase n AttemptPhase.Interrupted) in H.
  exact H.
Qed.
Lemma restart_fence_typed epoch incarnation n r : is_u64 epoch -> incarnation_wf incarnation -> attempt_typed n r ->
  fence_wf (restart_fence epoch incarnation r).
Proof.
  intros He Hi (Ha & _). unfold attempt_wf in Ha. destruct_and!. unfold fence_wf, restart_fence. cbn. split_and!; try done.
  by destruct (attempt_phase_holds_authority (at_phase r)).
Qed.

Lemma fence_loop_healthy o epoch incarnation records n s fs k s' fs' :
  fence_loop epoch incarnation records n s fs = (Success k, s', fs') -> healthy o s fs ->
  is_u64 epoch -> incarnation_wf incarnation -> Forall (attempt_typed (ds_last_seq (sm_state s))) records ->
  Forall (fun r => av_epoch (at_authority r) <= ds_epoch (sm_state s)) records ->
  (forall r, r ∈ records -> attempt_key r ∈ map attempt_key (ds_attempts (sm_state s))) ->
  (length (ds_attempts (sm_state s)) <= sp_max_attempts o)%nat ->
  healthy o s' fs' /\ ds_epoch (sm_state s') = ds_epoch (sm_state s).
Proof.
  intros H Hh He Hi. revert n s fs H Hh. induction records as [|r records IH]; intros n s fs H Hh Ht Hb Hk Hl; cbn [fence_loop] in H.
  { by injection H as _ <- <-. }
  apply Forall_cons in Ht as [Hr Ht]. apply Forall_cons in Hb as [Hbr Hb].
  destruct (attempt_phase_is_terminal (at_phase r)).
  { apply (IH _ _ _ H Hh); [done|done| |done]. intros x Hx. apply Hk. by constructor. }
  cbv zeta in H. unfold iobind at 1 in H.
  destruct (store_commit_impl s _ _ _ fs) as [[st1 s1] fs1] eqn:E1. cbn [fst snd] in H.
  destruct (status_ok st1) eqn:Es1; cbn [negb] in H; [|done].
  assert (Hkr : attempt_key r ∈ map attempt_key (ds_attempts (sm_state s))) by (apply Hk; constructor).
  pose proof E1 as A1. apply store_commit_impl_state in A1 as (q1 & A1 & B1 & _); [|done]. cbn in A1, B1.
  assert (Hkeys1 : map attempt_key (ds_attempts (sm_state s1)) = map attempt_key (ds_attempts (sm_state s))).
  { rewrite A1. by apply upsert_keys_present. }
  apply (commit_healthy o) in E1 as [Hh1 Q1]; [|done| |done].
  2: { apply sound_upsert; [by apply interrupted_typed|exact Hbr|exact Hkr|]. destruct Hh as (Ho & _). unfold sm_options in Ho. by rewrite Ho. }
  unfold iobind at 1 in H. destruct (store_commit_impl s1 _ _ _ fs1) as [[st2 s2] fs2] eqn:E2. cbn [fst snd] in H.
  destruct (status_ok st2) eqn:Es2; cbn [negb] in H; [|done].
  pose proof E2 as A2. apply store_commit_impl_state in A2 as (q2 & A2 & B2 & _); [|done].
  apply (commit_healthy o) in E2 as [Hh2 Q2]; [|done| |done].
  2: { apply (sound_fence (restart_fence epoch incarnation r)); [|done].
    by eapply restart_fence_typed. }
  destruct (evict_fences_others (push_fence (set_fe_seq q2 (restart_fence epoch incarnation r)) (sm_lineage s1)))
    as (F1 & F2 & _). rewrite F1 in A2. rewrite F2 in B2. cbn in A2, B2. fold (sm_state s1) in A2, B2.
  assert (Hep : ds_epoch (sm_state s2) = ds_epoch (sm_state s)) by (unfold sm_state in *; congruence).
  rewrite <- Hep. apply (IH _ _ _ H Hh2).
  - eapply attempts_typed_mono; [|exact Ht]. lia.
  - by rewrite Hep.
  - intros x Hx. rewrite A2, Hkeys1. apply Hk. by constructor.
  - rewrite A2. rewrite <- (length_map attempt_key), Hkeys1, length_map. exact Hl.
Qed.

Lemma boot_payload_wf st incarnation toolchain architecture boot :
  boot_payload st incarnation toolchain architecture = Success boot ->
  is_u64 (ds_epoch st) -> is_u64 (ds_boot_count st) -> is_u64 (ds_epoch_advances st) -> incarnation_wf incarnation ->
  text_wf 64 toolchain -> text_wf 64 architecture -> boot_wf boot /\ bp_coordinator boot = incarnation.
Proof.
  intros H He Hb Ha Hi Ht Hc. unfold boot_payload in H. rewrite !checked_add_u64_spec in H by ints.
  repeat case_bool_decide; try done. injection H as <-. split; [|done]. unfold boot_wf. cbn. split_and!; try done.
Qed.

(** From a healthy store whose table is within its limit, an engine comes up durable. *)
Lemma engine_boot_durable o s boot fs im fs' : engine_boot o s boot fs = (Success im, fs') ->
  options_typed (store_options_of o) -> healthy (store_options_of o) s fs -> boot_wf boot ->
  ds_epoch (sm_state s) <= bp_epoch boot ->
  (length (ds_attempts (sm_state s)) <= lm_max_attempts (eo_limits o))%nat ->
  durable im fs' /\ im_options im = o /\ im_closed im = false.
Proof.
  intros H Ho Hh Hb Hep Hl. unfold engine_boot in H. cbn [store_commit] in H. unfold iobind at 1 2 in H.
  destruct (store_commit_impl s _ _ _ fs) as [[st s1] fs1] eqn:E. cbn [fst snd ioret] in H.
  destruct (status_ok st) eqn:Es; cbn [negb] in H; [|done].
  pose proof E as A. apply store_commit_impl_state in A as (q & A & B & _); [|done]. cbn in A, B.
  apply (commit_healthy (store_options_of o)) in E as [Hh1 Q1]; [|done|by apply sound_boot|done].
  unfold fence_restart_authority, iobind in H.
  destruct (fence_loop _ _ _ _ s1 fs1) as [[res s2] fs2] eqn:E2. cbn [fst snd ioret] in H.
  destruct res as [k|e]; [|done]. injection H as <- <-.
  pose proof (healthy_typed _ _ _ Hh1) as [[] _]. unfold boot_wf in Hb. destruct_and!.
  apply (fence_loop_healthy (store_options_of o)) in E2; try done.
  - destruct E2 as [(? & Hf & ?) Hep2]. split; [|done].
    split; [|cbn [engine_initial im_store im_options]; split; [done|]; by rewrite Hf].
    split; try done. intros _. change (ds_epoch (sm_state s2) = bp_epoch boot). congruence.
  - apply Forall_forall. by destruct ty_bounded.
  - intros r Hr. apply elem_of_keys. eauto.
  - rewrite A. exact Hl.
Qed.

(** ** Opening again *)
(** [store_open] on a medium at rest comes up healthy, or refuses it. *)
Lemma store_open_at_rest o fs s fs' : options_typed o -> at_rest o fs -> medium_readable o fs ->
  directory_usable o fs -> store_open o (settled fs) = (Success s, fs') -> healthy o s fs'.
Proof.
  intros Ho (snap & recs & s0 & Eo & Hr) Hm Hd E. subst o. set (o := sm_options s0) in *.
  assert (Hsn : snapshot_of snap o fs) by by destruct Hr as [[[] _]|[[[] _] _]].
  pose proof (medium_snapshot _ _ _ Hsn Hm) as Hread. destruct Hm as [_ Hj].
  assert (Hfin : forall recs l r fs1, store_open o (settled fs) = (r, fs1) -> ln_options l = o -> reopened snap recs l r fs1 ->
    healthy o s fs').
  { intros recs1 l r fs1 E1 Hl Hre. rewrite E in E1. injection E1 as <- <-. unfold reopened in Hre.
    destruct (existsb is_fence recs1); [by destruct Hre as (? & ? & _)|].
    destruct Hre as (s1 & [= <-] & Hi & Hf & Hs & _). apply same_lineage_parts in Hs as (Hs & _).
    split; [unfold sm_options; congruence|]. eauto. }
  destruct Hr as [Hi|[Ht Hrep]].
  - apply image_of_settled in Hi.
    destruct (store_open_image snap recs s0 (settled fs) Ho Hi Hread Hj (settled_calm fs) Hd) as (r & fs1 & E1 & Hre).
    by eapply Hfin.
  - apply torn_of_settled in Ht.
    destruct (store_open_torn snap recs s0 (settled fs) Ho Ht Hrep Hread Hj (settled_calm fs) Hd)
      as (recs' & l' & r & fs1 & E1 & Hre & Hl' & _). by eapply (Hfin recs' l').
Qed.

(** What [engine_open] makes of a directory whose store opens healthy. *)
Lemma engine_open_durable o incarnation toolchain architecture fs im fs' :
  engine_open o incarnation toolchain architecture fs = (Success im, fs') ->
  options_typed (store_options_of o) -> incarnation_wf incarnation -> text_wf 64 toolchain -> text_wf 64 architecture ->
  (forall s fs1, store_open (store_options_of o) fs = (Success s, fs1) -> healthy (store_options_of o) s fs1 /\
     (length (ds_attempts (sm_state s)) <= lm_max_attempts (eo_limits o))%nat) ->
  durable im fs' /\ im_options im = o /\ im_closed im = false.
Proof.
  intros E Ho Hi Ht Ha Hs. unfold engine_open in E. destruct (open_refused o); [done|]. unfold iobind at 1 in E.
  destruct (store_open (store_options_of o) fs) as [[s|e] fs1]; [|done]. destruct (Hs _ _ eq_refl) as [Hh Hl].
  destruct (boot_payload _ _ _ _) as [boot|e] eqn:Hb; [|done].
  pose proof (healthy_typed _ _ _ Hh) as [[] _]. pose proof (boot_payload_epoch _ _ _ _ _ Hb) as [Hep _].
  apply boot_payload_wf in Hb as [Hb _]; [|done..]. eapply engine_boot_durable; try done. lia.
Qed.

(** ** Lives *)
(** A coordinator over the options [o], from its first start on. Faults of the
    medium may begin and end at any time; a restart may follow any moment at which
    the medium holds a lineage. *)
Definition build_typed (incarnation : Incarnation) (toolchain architecture : string) : Prop :=
  incarnation_wf incarnation /\ text_wf 64 toolchain /\ text_wf 64 architecture.

(** The media an engine may be opened on: a usable directory without a lineage, or
    one a lineage was left in at rest, the faults of the medium being over. *)
Inductive openable (so : StoreOptions) : Fs -> Prop :=
| FreshDirectory fs : fs_calm fs -> directory_usable so fs ->
    fs_files fs !! snapshot_path so = None -> fs_files fs !! journal_path so = None -> openable so fs
| DirectoryAtRest fs : at_rest so fs -> medium_readable so fs -> directory_usable so fs -> openable so (settled fs).

Lemma openable_healthy so fs s fs' : options_typed so -> openable so fs -> store_open so fs = (Success s, fs') ->
  healthy so s fs'.
Proof.
  intros Ho [fs0 Hc Hd Hs Hj|fs0 Hr Hm Hd] E; [|by eapply store_open_at_rest].
  pose proof (store_open_fresh _ _ _ _ Ho Hc Hd Hs Hj E) as (Hi & Hf & Hop & _). by split; [|split; [|eauto]].
Qed.

(** The table that is opened fits the limit of the options. *)
Definition table_fits (o : EngineOptions) (fs : Fs) : Prop :=
  forall s fs', store_open (store_options_of o) fs = (Success s, fs') ->
    (length (ds_attempts (sm_state s)) <= lm_max_attempts (eo_limits o))%nat.

Lemma fresh_fits o fs : options_typed (store_options_of o) -> fs_calm fs -> directory_usable (store_options_of o) fs ->
  fs_files fs !! snapshot_path (store_options_of o) = None -> fs_files fs !! journal_path (store_options_of o) = None ->
  table_fits o fs.
Proof.
  intros Ho Hc Hd Hs Hj s fs' E. pose proof (store_open_fresh _ _ _ _ Ho Hc Hd Hs Hj E) as (_ & _ & _ & ->). cbn. lia.
Qed.

(** The lives whose operations satisfy [may] where they are performed. *)
Inductive lives_under (may : Operation -> EngineImpl -> Prop) (o : EngineOptions) : EngineImpl -> Fs -> Prop :=
| LivesOpened incarnation toolchain architecture fs im fs' :
    openable (store_options_of o) fs -> table_fits o fs -> build_typed incarnation toolchain architecture ->
    engine_open o incarnation toolchain architecture fs = (Success im, fs') -> lives_under may o im fs'
| LivesMedium im fs fs' :
    lives_under may o im fs -> same_lineage_files (store_options_of o) fs fs' -> lives_under may o im fs'
| LivesPerformed op s im fs im' fs' :
    lives_under may o im fs -> op <> OpClose -> operation_typed op -> may op im ->
    perform op im fs = (s, im', fs') -> lives_under may o im' fs'.
Definition any_operation (op : Operation) (im : EngineImpl) : Prop := True.
Definition lives : EngineOptions -> EngineImpl -> Fs -> Prop := lives_under any_operation.

Lemma lives_under_weaken (may may' : Operation -> EngineImpl -> Prop) o im fs :
  (forall op im, may op im -> may' op im) -> lives_under may o im fs -> lives_under may' o im fs.
Proof. intros H. induction 1; [by eapply LivesOpened|by eapply LivesMedium|eapply LivesPerformed; eauto]. Qed.

Lemma lives_durable_lemma may o im fs : options_typed (store_options_of o) -> lives_under may o im fs ->
  durable im fs /\ im_options im = o /\ im_closed im = false.
Proof.
  intros Ho. induction 1 as [i tc ar fs im fs' Hop Hfit (Hi & Ht & Ha) E
    |im fs fs1 _ (IH & IHo & IHc) Hfs|op s im fs im' fs' _ (IH & IHo & IHc) Hop Hty _ E].
  - eapply engine_open_durable; [exact E|done..|]. intros s fs1 E1. split; [by eapply openable_healthy|by eapply Hfit].
  - split; [apply (durable_files im fs); [by rewrite IHo|done]|done].
  - pose proof (perform_keeps op im Hop Hty fs IH) as (H1 & H2 & _). rewrite E in H1, H2. cbn [fst snd] in *.
    destruct H2 as [-> _ _ -> _]. done.
Qed.

(** An engine that opens on such a medium satisfies its invariant, with no authority
    left over from before. *)
Lemma engine_open_restarts o incarnation toolchain architecture fs im fs' :
  options_typed (store_options_of o) -> openable (store_options_of o) fs ->
  engine_open o incarnation toolchain architecture fs = (Success im, fs') ->
  exists s fs1, store_open (store_options_of o) fs = (Success s, fs1) /\
    engine_inv im /\ im_epoch im = ds_epoch (sm_state s) + 1 /\ im_incarnation im = incarnation /\
    Forall2 restarted (ds_attempts (sm_state s)) (ds_attempts (engine_state im)) /\
    forall subject generation, active_authority (engine_state im) subject generation = None.
Proof.
  intros Ho Hop E. destruct (engine_open_revokes _ _ _ _ _ _ _ E) as (s & fs1 & Es & H).
  destruct (healthy_typed _ _ _ (openable_healthy _ _ _ _ Ho Hop Es)) as [[] _].
  exists s, fs1. split; [done|]. by apply H.
Qed.
Lemma engine_open_inv o incarnation toolchain architecture fs im fs' :
  options_typed (store_options_of o) -> openable (store_options_of o) fs ->
  engine_open o incarnation toolchain architecture fs = (Success im, fs') ->
  engine_inv im /\ (exists s fs1, store_open (store_options_of o) fs = (Success s, fs1) /\
    im_epoch im = ds_epoch (sm_state s) + 1) /\
  forall subject generation, active_authority (engine_state im) subject generation = None.
Proof.
  intros Ho Hop E. destruct (engine_open_restarts _ _ _ _ _ _ _ Ho Hop E) as (s & fs1 & Es & Hi & He & _ & _ & Hn).
  split; [done|]. split; [by exists s, fs1|done].
Qed.

(** C4: no authority survives a restart. Open an engine over a directory a coordinator
    can have left: an empty one, or one that holds the image of a well-typed lineage,
    as it was at any moment, or with its last record cut short where the journal is
    repaired. When it comes up, its epoch is the successor of the one found there;
    every attempt found there is in its place in the table, those that had ended as
    they were, each one that was in flight interrupted under its own identity and
    authority vector; so none is in flight, and none holds current authority for any
    subject generation, also not those that had committed; no evidence is retained,
    and the invariant of the engine is established. *)
Theorem restart_revokes_authority o incarnation toolchain architecture fs im fs' :
  options_typed (store_options_of o) -> openable (store_options_of o) fs ->
  engine_open o incarnation toolchain architecture fs = (Success im, fs') ->
  exists s fs1, store_open (store_options_of o) fs = (Success s, fs1) /\
    im_epoch im = ds_epoch (sm_state s) + 1 /\ im_incarnation im = incarnation /\
    Forall2 restarted (ds_attempts (sm_state s)) (ds_attempts (engine_state im)) /\
    (forall r, r ∈ ds_attempts (engine_state im) -> attempt_phase_is_terminal (at_phase r) = true) /\
    (forall subject generation, active_authority (engine_state im) subject generation = None) /\
    im_failure_evidence im = ∅ /\ im_replacement_evidence im = ∅ /\ engine_inv im.
Proof.
  intros Ho Hop E. destruct (engine_open_restarts _ _ _ _ _ _ _ Ho Hop E) as (s & fs1 & Es & Hi & He & Hinc & Hall & Hn).
  destruct (engine_open_empty _ _ _ _ _ _ _ E) as [F1 F2].
  exists s, fs1. split_and!; try done. intros r Hr. by destruct (restarted_all _ _ Hall r Hr).
Qed.

(** ** Clean shutdowns *)
Lemma commit_nothing s type payload fs s' fs' :
  store_commit_impl s type payload (fun _ l => l) fs = (status_success, s', fs') ->
  same_lineage (sm_lineage s') (sm_lineage s) /\ ds_attempts (sm_state s') = ds_attempts (sm_state s) /\
  ds_fences (sm_state s') = ds_fences (sm_state s) /\ ds_idempotency (sm_state s') = ds_idempotency (sm_state s).
Proof.
  intros H. destruct (store_commit_impl_cases _ _ _ _ _ _ _ _ H) as [next w w' _ _ _ _ _ ->|]; [|done].
  unfold same_lineage, kept. by destruct s as [[? ?] ? ? ?].
Qed.

Lemma octets_shutdown im : engine_typed im -> Forall is_u8 (shutdown_payload im) /\
  Z.of_nat (length (shutdown_payload im)) <= kMaxRecordPayload.
Proof.
  intros [_ Hi _ _ _ _]. unfold shutdown_payload. split.
  - apply octets_writes; [|constructor]. repeat constructor; auto using octets_u16, octets_u64, octets_incarnation.
  - assert (H : sized 4096 (writes [wr_u16 kIdentityFormatVersion; wr_u64 (im_epoch im); wr_incarnation (im_incarnation im);
      wr_u64 (ds_last_seq (engine_state im))])).
    { eapply sized_weaken; [|apply Z.le_refl]. eapply sized_weaken.
      - repeat (eapply sized_cons; [first [apply sized_u16|apply sized_u64|by apply sized_incarnation]|]). apply sized_nil.
      - lia. }
    specialize (H writer_empty). cbn [writer_empty wr_buf length] in H. unfold kMaxRecordPayload. lia.
Qed.

(** A store that rests on the snapshot of a checkpoint opens again. *)
Lemma store_open_checkpointed o st v s fs : options_typed o -> sm_options s = o -> image_of (Some st) [v] s fs ->
  rv_type v = RecordType.Checkpoint -> compact st -> fs_calm fs -> directory_usable o fs ->
  exists s' fs', store_open o fs = (Success s', fs') /\ sm_failed s' = false /\ same_lineage (sm_lineage s') (sm_lineage s).
Proof.
  intros Ho <- Hi Hv Hcm Hc Hd. pose proof Hi as [[(Hty & _ & _ & payload & Hp & _) T2 _ _ _ _] [_ Hj _ _]].
  assert (Hsr : snapshot_readable (Some st)).
  { intros st' payload' [= <-] Hp'. pose proof (compact_snapshot _ _ _ Hty Hcm Hp') as Hb.
    destruct (snapshot_counts _ _ _ Hty Hp' Hb) as (? & ? & ?). done. }
  assert (Hjr : journal_readable (sm_options s) fs).
  { unfold journal_readable. rewrite Hj. unfold journal_image. cbn [map concat]. rewrite app_nil_r, length_app.
    rewrite build_journal_header_length. destruct T2 as (_ & Hr & _). apply Forall_cons in Hr as [(_ & Hr & _) _].
    destruct v as [t q p]. rewrite record_image_split, length_app, build_record_header_length. cbn in Hr.
    unfold kMaxRecordPayload, kMaxJournalBytes in *. lia. }
  destruct (store_open_image (Some st) [v] s fs Ho Hi Hsr Hjr Hc Hd) as (r & fs' & E & Hre).
  unfold reopened in Hre. cbn [existsb is_fence] in Hre. unfold is_fence in Hre. rewrite Hv in Hre. cbn [enum_eqb] in Hre.
  destruct Hre as (s' & -> & _ & Hf & Hl & _). eauto.
Qed.

(** The steps of a close that all succeed. *)
Lemma engine_close_run im s fs s1 fs1 n s2 fs2 : im_closed im = false -> im_store im = Some s ->
  store_commit_impl s RecordType.Shutdown (shutdown_payload (set_im_closed true im)) (fun _ l => l) fs =
    (status_success, s1, fs1) ->
  eo_enable_snapshot (im_options im) = true -> store_checkpoint (Some s1) fs1 = (Success n, Some s2, fs2) ->
  exists im', engine_close im fs = (status_success, im', fs2) /\ im_closed im' = true.
Proof.
  intros Hcl Hst E1 Hen E2. unfold engine_close. rewrite Hcl. cbv zeta. unfold iobind at 1.
  change (im_store (set_im_closed true im)) with (im_store im). rewrite Hst. unfold store_commit, iobind at 1.
  rewrite E1. cbn [ioret fst snd]. change (status_ok status_success) with true.
  change (im_options (set_im_store (Some s1) (set_im_closed true im))) with (im_options im). rewrite Hen. cbn [andb].
  unfold iobind, run_checkpoint, iobind. change (im_store (set_im_store (Some s1) ?i)) with (Some s1). rewrite E2.
  cbn [fst snd ioret result_ok]. eexists. split; [reflexivity|]. done.
Qed.

Lemma close_image im s fs : durable im fs -> fs_calm fs -> im_closed im = false -> im_store im = Some s ->
  sm_failed s = false -> eo_enable_snapshot (im_options im) = true -> ds_last_seq (sm_state s) + 2 < two64 ->
  compact (sm_state s) ->
  exists im' fs' st v s', engine_close im fs = (status_success, im', fs') /\ im_closed im' = true /\
    sm_options s' = store_options_of (im_options im) /\ rv_type v = RecordType.Checkpoint /\ compact st /\
    image_of (Some st) [v] s' fs' /\ same_lineage (sm_lineage s') (sm_lineage s).
Proof.
  intros [He Hs] Hc Hcl Hst Hf Hen Hroom Hcm. rewrite Hst in Hs. destruct Hs as [Ho Hs]. rewrite Hf in Hs.
  destruct Hs as (snap & recs & Hi).
  assert (He' : engine_typed (set_im_closed true im)) by by destruct He.
  destruct (octets_shutdown _ He') as [Hoct Hsize].
  pose proof (store_durable_typed (sm_options s) s fs) as [_ Hu]; [split; [done|]; rewrite Hf; eauto|].
  pose proof (engine_close_run im s fs) as Hrun. revert Hrun Hoct Hsize.
  generalize (shutdown_payload (set_im_closed true im)). intros payload Hrun Hoct Hsize.
  destruct (store_commit_calm s RecordType.Shutdown payload (fun _ l => l) fs) as (s1 & fs1 & E1 & C1);
    [by eapply image_ready|done|done|exact Hsize|apply Hu|lia|].
  specialize (Hrun s1 fs1). pose proof (commit_nothing _ _ _ _ _ _ E1) as (L1 & A1 & A2 & A3).
  pose proof (commit_image _ _ _ _ _ _ _ _ _ _ Hi (sound_silent RecordType.Shutdown _ _ Hoct eq_refl) E1) as [Hok _].
  destruct (Hok eq_refl) as (Hf1 & Ho1 & Hi1).
  assert (Q1 : ds_last_seq (sm_state s1) = ds_last_seq (sm_state s) + 1).
  { destruct Hi1 as [[_ _ -> _ _ _] _]. by rewrite last_seq_of_snoc. }
  destruct (checkpoint_calm _ _ _ _ Hi1 Hf1 C1) as (n & s2 & fs2 & E2 & C2); [lia|].
  destruct (Hrun n s2 fs2 Hcl Hst E1 Hen E2) as (im' & -> & Hcl').
  pose proof (checkpoint_image _ _ _ _ _ _ _ Hi1 Hf1 E2) as [[v _ _ Ho2 Hv _ L2 Hi2|Hbad _ _ _ _]|(Hbad & _ & _)]; [|done..].
  exists im', fs2, (sm_state s1), v, s2. split; [done|]. split; [done|]. split; [by rewrite Ho2, Ho1|]. split; [exact Hv|].
  split; [|split; [exact Hi2|]].
  - unfold compact in *. by rewrite A1, A2, A3.
  - etrans; [exact L2|]. etrans; [|exact L1]. unfold same_lineage, kept. by destruct s1 as [[? ?] ? ? ?].
Qed.

(** ** What a life keeps *)
(** Along every life of a coordinator on well-typed options and inputs, through
    operations, medium failures and restarts, everything the engine and its lineage
    hold stays well typed: numbers within their width, names valid, texts and lists
    within the bounds of the encodings, policy and topology validated. *)
Theorem lives_typed o im fs :
  options_typed (store_options_of o) -> lives o im fs ->
  engine_typed im /\ state_typed (ds_last_seq (engine_state im)) (engine_state im) /\
  is_u64 (ds_last_seq (engine_state im)).
Proof.
  intros Ho Hl. destruct (lives_durable_lemma _ o im fs Ho Hl) as (Hd & _ & Hc).
  destruct (durable_workable _ _ Hd) as [He Hw]. by destruct (Hw Hc) as (? & ? & _).
Qed.

(** What [store_open] answers at the directory of a store that works. *)
Lemma lives_reopens o im s fs (so := store_options_of o) :
  options_typed so -> lives o im fs -> im_store im = Some s -> sm_failed s = false ->
  medium_readable so fs -> directory_usable so fs ->
  exists base recs, journal_ok base recs /\ file_of fs (journal_path so) = journal_image base recs /\
    match store_open so (settled fs) with
    | (Success s', _) => (forall v, v ∈ recs -> rv_type v <> RecordType.Fence) /\ sm_failed s' = false /\
        same_lineage (sm_lineage s') (sm_lineage s)
    | (Failure e, _) => (exists v, v ∈ recs /\ rv_type v = RecordType.Fence) /\ status_outcome e = Outcome.Corrupt
    end.
Proof.
  intros Ho Hl Hs Hf Hm Hd. destruct (lives_durable_lemma _ o im fs Ho Hl) as ((_ & Hdur) & Hopt & _).
  rewrite Hs, Hopt in Hdur. destruct Hdur as [Hso Hi]. rewrite Hf in Hi. destruct Hi as (snap & recs & Hi).
  fold so in Hso. clearbody so. subst so.
  pose proof Hi as [[Hsn Hok _ _ _ _] [_ Hj _ _]]. exists (covered_by snap), recs. split; [done|]. split; [done|].
  destruct (store_open_image snap recs s (settled fs) Ho (image_of_settled _ _ _ _ Hi) (medium_snapshot _ _ _ Hsn Hm)
    (proj2 Hm) (settled_calm fs) Hd) as (r & fs' & -> & Hre). unfold reopened in Hre.
  destruct (existsb is_fence recs) eqn:Ef.
  - destruct Hre as (e & -> & He). split; [|done]. apply existsb_exists in Ef as (v & Hv & Ht). exists v.
    split; [by apply list_elem_of_In|]. by apply enum_eqb_eq.
  - destruct Hre as (s' & -> & _ & Hf' & Hl' & _). split; [|done]. intros v Hv Ht.
    assert (Ex : existsb is_fence recs = true); [|congruence]. apply existsb_exists. exists v.
    split; [by apply list_elem_of_In|]. unfold is_fence. by rewrite Ht.
Qed.

(** C7: a restart gives the lineage back. Whatever a coordinator has lived through,
    while its store works the journal is the image of a sequence of records, and
    opening the directory again, its files within the bounds of their readers, gives the
    very lineage, up to the positions of attempt records, unless one of these records is a fence: then the directory is
    refused as corrupt. *)
Theorem restart_restores o im s fs (so := store_options_of o) :
  options_typed so -> lives o im fs -> im_store im = Some s -> sm_failed s = false ->
  medium_readable so fs -> directory_usable so fs ->
  exists base recs, journal_ok base recs /\ file_of fs (journal_path so) = journal_image base recs /\
    match store_open so (settled fs) with
    | (Success s', _) => (forall v, v ∈ recs -> rv_type v <> RecordType.Fence) /\ sm_failed s' = false /\
        same_lineage (sm_lineage s') (sm_lineage s)
    | (Failure e, _) => (exists v, v ∈ recs /\ rv_type v = RecordType.Fence) /\ status_outcome e = Outcome.Corrupt
    end.
Proof. apply lives_reopens. Qed.

(** C14: a clean shutdown loses nothing. On a quiet medium, with snapshots enabled
    and a lineage of moderate size, closing the engine succeeds, and the directory
    opens again with the same lineage, fences or not. *)
Theorem clean_shutdown_restores o im s fs (so := store_options_of o) :
  options_typed so -> lives o im fs -> fs_calm fs -> im_store im = Some s -> sm_failed s = false ->
  eo_enable_snapshot o = true -> ds_last_seq (sm_state s) + 2 < two64 -> compact (sm_state s) ->
  exists im' fs', engine_close im fs = (status_success, im', fs') /\ im_closed im' = true /\
    (directory_usable so fs' -> exists s' fs'', store_open so (settled fs') = (Success s', fs'') /\
       sm_failed s' = false /\ same_lineage (sm_lineage s') (sm_lineage s)).
Proof.
  intros Ho Hl Hc Hs Hf Hen Hroom Hcm. destruct (lives_durable_lemma _ o im fs Ho Hl) as (Hd & Hopt & Hcl).
  rewrite <- Hopt in Hen. destruct (close_image im s fs Hd Hc Hcl Hs Hf Hen Hroom Hcm)
    as (im' & fs' & st & v & s2 & E & Hcl' & Ho2 & Hv & Hcm' & Hi & Hl2).
  exists im', fs'. split; [done|]. split; [done|]. intros Hdir. rewrite Hopt in Ho2. fold so in Ho2.
  destruct (store_open_checkpointed so st v s2 (settled fs')) as (s' & fs'' & E' & Hf' & Hl'); try done.
  - by apply image_of_settled.
  - exists s', fs''. split; [done|]. split; [done|]. by etrans.
Qed.
