(* ===== verification/Reopen.v ===== *)
(** * A killed coordinator comes back

    What opening a directory makes of the lineage it holds, record by record: on a
    medium that works again the boot record is committed, each attempt in flight is
    interrupted and fenced in its place in the table, and everything else is as it
    was. *)
From S2P Require Import Prelude Status Hash Ids Bytes Evidence Policy Authority Attempt Decision.
From S2P Require Import Selector Fs Journal State Store Intake Engine EngineLogic EngineSafety.
From S2P Require Import Image Progress Durable Restart.

(** ** Commits of a healthy store on a quiet medium *)
(** The state up to the two counters a commit moves. *)
Definition uncounted (st : DurableState) : DurableState := set_ds_record_count 0 (set_ds_last_seq 0 st).

Lemma commit_healthy_calm o s type payload apply fs : healthy o s fs -> fs_calm fs ->
  sound_commit type payload apply (sm_lineage s) -> Z.of_nat (length payload) <= kMaxRecordPayload ->
  ds_last_seq (sm_state s) + 1 < two64 ->
  exists s' fs', store_commit_impl s type payload apply fs = (status_success, s', fs') /\ fs_calm fs' /\
    healthy o s' fs' /\ ds_last_seq (sm_state s') = ds_last_seq (sm_state s) + 1 /\
    exists q, uncounted (sm_state s') = uncounted (ln_state (apply q (sm_lineage s))).
Proof.
  intros Hh Hc Hsd Hlen Hroom. pose proof Hh as (Ho & Hf & snap & recs & Hi). pose proof (healthy_typed _ _ _ Hh) as [_ Hu].
  destruct (store_commit_calm s type payload apply fs (image_ready _ _ _ _ Hi) Hf Hc Hlen) as (s' & fs' & E & Hc');
    [ints|ints|]. exists s', fs'. split; [done|]. split; [done|].
  destruct (commit_healthy _ _ _ _ _ _ _ _ _ Hh Hsd E) as [Hh' Hq]; [done|]. split; [done|]. split; [done|].
  apply store_commit_impl_cases in E as [next w w' _ _ _ _ _ ->|]; [|done]. exists next. done.
Qed.

(** ** The restart fence, record by record *)
(** What neither an interruption nor a fence touches. *)
Definition settled_parts (st : DurableState) : FailoverPolicy * TopologySnapshot * Epoch * Incarnation * list IdempotencyEntry :=
  (ds_policy st, ds_topology st, ds_epoch st, ds_coordinator st, ds_idempotency st).

Lemma payload_attempt_fits r : attempt_wf r -> Z.of_nat (length (encode_attempt_payload r)) <= kMaxRecordPayload.
Proof. intros H. apply (sized_fits 4096); [by apply sized_attempt|done]. Qed.
Lemma payload_fence_fits f : fence_wf f -> Z.of_nat (length (encode_fence_payload f)) <= kMaxRecordPayload.
Proof. intros H. apply (sized_fits 4096); [by apply sized_fence|done]. Qed.
Lemma payload_boot_fits p : boot_wf p -> Z.of_nat (length (encode_boot_payload p)) <= kMaxRecordPayload.
Proof. intros H. apply (sized_fits 4096); [by apply sized_boot|done]. Qed.

Lemma uncounted_parts st st' : uncounted st = uncounted st' ->
  ds_attempts st = ds_attempts st' /\ settled_parts st = settled_parts st'.
Proof. destruct st, st'. intros H. injection H. intros. by subst. Qed.

(** One turn of the loop: the interruption and the fence of one record. *)
Lemma fence_turn o epoch incarnation r n records s fs : healthy o s fs -> fs_calm fs ->
  is_u64 epoch -> incarnation_wf incarnation -> attempt_typed (ds_last_seq (sm_state s)) r ->
  r ∈ ds_attempts (sm_state s) -> (length (ds_attempts (sm_state s)) <= sp_max_attempts o)%nat ->
  is_terminal r = false -> ds_last_seq (sm_state s) + 2 < two64 ->
  exists u s' fs', fence_loop epoch incarnation (r :: records) n s fs = fence_loop epoch incarnation records (S n) s' fs' /\
    fs_calm fs' /\ healthy o s' fs' /\ ds_last_seq (sm_state s') = ds_last_seq (sm_state s) + 2 /\
    restarted r u /\ ds_attempts (sm_state s') = upsert u (ds_attempts (sm_state s)) /\
    settled_parts (sm_state s') = settled_parts (sm_state s).
Proof.
  intros Hh Hc He Hi Ht Hin Hlen Hfl Hroom. pose proof (healthy_typed _ _ _ Hh) as [Hty Hu64].
  destruct (ty_bounded _ _ Hty) as [_ Hbd].   pose proof (interrupted_typed _ _ Ht) as Hti.
  destruct (commit_healthy_calm o s RecordType.AttemptUpdate (encode_attempt_payload (interrupted_update r))
    (fun seq l => upsert_attempt (set_at_update_seq seq (interrupted_update r)) l) fs Hh Hc)
    as (s1 & fs1 & E1 & C1 & Hh1 & L1 & q1 & U1); [|apply payload_attempt_fits, Hti|lia|].
  { apply sound_upsert; [exact Hti|exact (Hbd r Hin)|apply elem_of_keys; exists r; done|]. destruct Hh as (Ho & _). unfold sm_options in Ho. by rewrite Ho. }
  pose proof (restart_fence_typed epoch incarnation _ _ He Hi Ht) as Hfw.
  destruct (commit_healthy_calm o s1 RecordType.Fence (encode_fence_payload (restart_fence epoch incarnation r))
    (fun seq l => evict_fences (push_fence (set_fe_seq seq (restart_fence epoch incarnation r)) l)) fs1 Hh1 C1)
    as (s2 & fs2 & E2 & C2 & Hh2 & L2 & q2 & U2); [by apply sound_fence|by apply payload_fence_fits|lia|].
  apply uncounted_parts in U1 as [A1 P1]. apply uncounted_parts in U2 as [A2 P2].
  exists (set_at_update_seq q1 (interrupted_update r)), s2, fs2. split; [|split; [done|split; [done|split; [lia|]]]].
  - cbn [fence_loop]. unfold is_terminal in Hfl. rewrite Hfl. cbv zeta. unfold iobind at 1. rewrite E1. cbn [fst snd].
    change (negb (status_ok status_success)) with false. cbv iota. unfold iobind at 1. rewrite E2. done.
  - split; [by apply interrupted_restarted|].
    destruct (evict_fences_others (push_fence (set_fe_seq q2 (restart_fence epoch incarnation r)) (sm_lineage s1))) as (F1 & _).
    split; [by rewrite A2, F1; cbn; fold (sm_state s1); rewrite A1|].
    rewrite P2. transitivity (settled_parts (sm_state s1)); [|by rewrite P1].
    unfold evict_fences. by destruct (Nat.leb _ _).
Qed.

Lemma upsert_length u l : attempt_key u ∈ map attempt_key l -> length (upsert u l) = length l.
Proof. intros H. by rewrite <- (length_map attempt_key), upsert_keys_present, length_map. Qed.

Lemma fence_loop_runs o epoch incarnation records : is_u64 epoch -> incarnation_wf incarnation -> forall n s fs,
  healthy o s fs -> fs_calm fs -> keys_unique (ds_attempts (sm_state s)) -> keys_unique records ->
  Forall (attempt_typed (ds_last_seq (sm_state s))) records -> (forall r, r ∈ records -> r ∈ ds_attempts (sm_state s)) ->
  (length (ds_attempts (sm_state s)) <= sp_max_attempts o)%nat ->
  ds_last_seq (sm_state s) + 2 * Z.of_nat (length records) < two64 ->
  exists k s' fs', fence_loop epoch incarnation records n s fs = (Success k, s', fs') /\
    Forall2 (fenced_in records) (ds_attempts (sm_state s)) (ds_attempts (sm_state s')) /\
    settled_parts (sm_state s') = settled_parts (sm_state s).
Proof.
  intros He Hi. induction records as [|r records IH]; intros n s fs Hh Hc Hu Hur Ht Hsub Hlen Hroom.
  { do 3 eexists. split; [reflexivity|]. split; [|done]. apply Forall_Forall2_diag, Forall_forall. intros x _.
    unfold fenced_in. by rewrite decide_False by (intros [[]%elem_of_nil _]). }
  unfold keys_unique in Hur. cbn [map] in Hur. apply NoDup_cons in Hur as [Hkr Hur]. apply Forall_cons in Ht as [Hr Ht].
  assert (Hrin : r ∈ ds_attempts (sm_state s)) by (apply Hsub; constructor).
  assert (Hsub' : forall x, x ∈ records -> x ∈ ds_attempts (sm_state s)) by (intros x ?; apply Hsub; by constructor).
  cbn [length] in Hroom. destruct (is_terminal r) eqn:Hfl.
  - destruct (IH n s fs) as (k & s' & fs' & E & H & P); [done..|lia|]. exists k, s', fs'. split; [|split; [|done]].
    + cbn [fence_loop]. unfold is_terminal in Hfl. by rewrite Hfl.
    + by apply fenced_over_ended.
  - destruct (fence_turn o epoch incarnation r n records s fs) as (u & s1 & fs1 & E & C1 & Hh1 & L1 & Hru & A1 & P1);
      [done..|lia|]. rewrite E.
    assert (Hku : attempt_key u ∈ map attempt_key (ds_attempts (sm_state s))).
    { destruct Hru as (-> & _). apply elem_of_keys. by exists r. }
    destruct (IH (S n) s1 fs1) as (k & s' & fs' & E' & H & P); try done.
    + rewrite A1. by apply upsert_keys_unique.
    + eapply attempts_typed_mono; [|exact Ht]. lia.
    + intros x Hxr. rewrite A1. apply elem_of_upsert_unique; [done|]. right. split; [by apply Hsub'|].
      destruct Hru as (-> & _). intros Hk. apply Hkr. rewrite <- Hk. apply elem_of_keys. by exists x.
    + by rewrite A1, upsert_length.
    + lia.
    + exists k, s', fs'. split; [done|]. split; [|congruence]. rewrite A1 in H. by eapply fenced_over_flying.
Qed.

(** ** Opening *)
Lemma boot_payload_room st incarnation toolchain architecture :
  is_u64 (ds_epoch st) -> is_u64 (ds_boot_count st) -> is_u64 (ds_epoch_advances st) ->
  ds_epoch st + 1 < two64 -> ds_boot_count st + 1 < two64 -> ds_epoch_advances st + 1 < two64 ->
  exists boot, boot_payload st incarnation toolchain architecture = Success boot /\
    bp_epoch boot = ds_epoch st + 1 /\ bp_coordinator boot = incarnation.
Proof.
  intros. destruct (boot_payload st incarnation toolchain architecture) as [boot|e] eqn:E.
  - exists boot. split; [done|]. by eapply boot_payload_epoch.
  - exfalso. revert E. unfold boot_payload. rewrite !checked_add_u64_spec by ints.
    rewrite !bool_decide_eq_true_2 by ints. done.
Qed.

Lemma engine_boot_runs o s boot fs (so := store_options_of o) : healthy so s fs -> fs_calm fs -> boot_wf boot ->
  ds_epoch (sm_state s) <= bp_epoch boot -> (length (ds_attempts (sm_state s)) <= lm_max_attempts (eo_limits o))%nat ->
  ds_last_seq (sm_state s) + 1 + 2 * Z.of_nat (length (ds_attempts (sm_state s))) < two64 ->
  exists im fs', engine_boot o s boot fs = (Success im, fs') /\ im_epoch im = bp_epoch boot /\
    Forall2 restarted (ds_attempts (sm_state s)) (ds_attempts (engine_state im)) /\
    settled_parts (engine_state im) = (ds_policy (sm_state s), ds_topology (sm_state s), bp_epoch boot,
      bp_coordinator boot, ds_idempotency (sm_state s)).
Proof.
  intros Hh Hc Hb Hep Hlen Hroom.
  destruct (commit_healthy_calm so s RecordType.Boot (encode_boot_payload boot)
    (fun _ l => note_epoch (bp_epoch boot) (bp_coordinator boot) (bp_boot_count boot) (bp_epoch_advances boot) l) fs Hh Hc)
    as (s1 & fs1 & E1 & C1 & Hh1 & L1 & q & U1); [by apply sound_boot|by apply payload_boot_fits|lia|].
  apply uncounted_parts in U1 as [A1 P1]. pose proof (healthy_typed _ _ _ Hh1) as [[] _].
  change (ds_attempts (sm_state s1) = ds_attempts (sm_state s)) in A1.
  unfold boot_wf in Hb. destruct_and!.
  destruct (fence_loop_runs so (bp_epoch boot) (bp_coordinator boot) (ds_attempts (sm_state s1)) ltac:(done) ltac:(done)
    0%nat s1 fs1) as (k & s2 & fs2 & E2 & Hres & Hps); try done; try (rewrite A1; first [done|lia]).
  exists (engine_initial o (Some s2) (bp_coordinator boot) (bp_epoch boot)), fs2.
  split; [|split; [done|split]].
  - unfold engine_boot. cbn [store_commit]. unfold iobind at 1 2. rewrite E1. cbn [fst snd ioret].
    change (negb (status_ok status_success)) with false. cbv iota. unfold fence_restart_authority, iobind.
    by rewrite E2.
  - rewrite <- A1. by eapply fenced_restarted.
  - change (engine_state _) with (sm_state s2). by rewrite Hps, P1.
Qed.

(** A life was only ever begun with options that are accepted. *)
Lemma lives_accepted o im fs : lives o im fs -> open_refused o = None.
Proof.
  induction 1 as [i tc ar fs im fs' _ _ _ E|im fs fs1 _ IH _|op s im fs im' fs' _ IH _ _ _ _];
    [|done|done]; unfold engine_open in E; by destruct (open_refused o).
Qed.

(** What becomes of an attempt: one that had ended is as it was, one in flight is
    interrupted, in its place and with its identity and its authority vector. *)
Definition comes_back (r r' : AttemptRecord) : Prop :=
  attempt_key r' = attempt_key r /\ at_subject_generation r' = at_subject_generation r /\
  at_attempt_id r' = at_attempt_id r /\ at_authority r' = at_authority r /\
  (if is_terminal r then unnumbered r' = unnumbered r else at_phase r' = AttemptPhase.Interrupted).

Lemma restarted_comes_back l0 l l' : map unnumbered l0 = map unnumbered l -> Forall2 restarted l0 l' ->
  Forall2 comes_back l l'.
Proof.
  intros E H. revert l E. induction H as [|x y l0 l' Hxy _ IH]; intros [|z l] E; try done.
  cbn [map] in E. assert (Hu : unnumbered x = unnumbered z) by congruence.
  constructor; [|apply IH; congruence]. clear IH E.
  assert (Hf : forall {A} (f : AttemptRecord -> A), (forall r, f (unnumbered r) = f r) -> f x = f z).
  { intros A f Hf. rewrite <- (Hf x), <- (Hf z). by rewrite Hu. }
  destruct Hxy as (H1 & H2 & H3 & H4 & H5). unfold comes_back. rewrite H1, H2, H3, H4.
  rewrite (Hf _ is_terminal) in H5 by done. split_and!; [by apply Hf..|]. destruct (is_terminal z); [by subst y|done].
Qed.

(** ** A killed coordinator *)
Lemma settled_parts_same l l' : same_lineage l l' -> settled_parts (ln_state l) = settled_parts (ln_state l').
Proof. intros H. apply same_lineage_parts in H. destruct_and!. unfold settled_parts. congruence. Qed.

(** There is room for the records of a restart and for its numbers. *)
Definition restart_room (st : DurableState) : Prop :=
  ds_epoch st + 1 < two64 /\ ds_boot_count st + 1 < two64 /\ ds_epoch_advances st + 1 < two64 /\
  ds_last_seq st + 1 + 2 * Z.of_nat (length (ds_attempts st)) < two64.

(** What [store_open] of a killed store's directory answers, as the boot uses it. *)
Lemma store_open_killed o s fs s1 fs1 : options_typed o -> healthy o s fs -> medium_readable o fs ->
  directory_usable o fs -> store_open o (settled fs) = (Success s1, fs1) ->
  healthy o s1 fs1 /\ fs_calm fs1 /\ same_lineage (sm_lineage s1) (sm_lineage s) /\
  ds_last_seq (sm_state s1) = ds_last_seq (sm_state s).
Proof.
  intros Ho (Hso & Hf & snap & recs & Hi) Hm Hd E. subst o. pose proof Hi as [[Hsn _ Hsq _ _ _] _].
  destruct (store_open_image snap recs s (settled fs) Ho (image_of_settled _ _ _ _ Hi) (medium_snapshot _ _ _ Hsn Hm)
    (proj2 Hm) (settled_calm fs) Hd) as (r & fs' & E' & Hre). rewrite E in E'. injection E' as <- <-.
  unfold reopened in Hre. destruct (existsb is_fence recs); [by destruct Hre as (? & ? & _)|].
  destruct Hre as (s2 & [= <-] & Hi2 & Hf2 & Hl & Hc). split; [|split; [done|split; [done|]]].
  - split; [|split; [done|eauto]]. apply same_lineage_parts in Hl as (Hl & _). done.
  - destruct Hi2 as [[_ _ -> _ _ _] _]. done.
Qed.

Lemma engine_open_killed o im s fs incarnation toolchain architecture (so := store_options_of o) :
  options_typed so -> lives o im fs -> im_store im = Some s -> sm_failed s = false ->
  medium_readable so fs -> directory_usable so fs -> build_typed incarnation toolchain architecture ->
  (length (ds_attempts (engine_state im)) <= lm_max_attempts (eo_limits o))%nat -> restart_room (engine_state im) ->
  match store_open so (settled fs) with
  | (Success _, _) => exists im' fs', engine_open o incarnation toolchain architecture (settled fs) = (Success im', fs') /\
      lives o im' fs' /\ im_epoch im' = ds_epoch (engine_state im) + 1 /\
      Forall2 comes_back (ds_attempts (engine_state im)) (ds_attempts (engine_state im')) /\
      settled_parts (engine_state im') = (ds_policy (engine_state im), ds_topology (engine_state im),
        ds_epoch (engine_state im) + 1, incarnation, ds_idempotency (engine_state im))
  | (Failure e, fs') => engine_open o incarnation toolchain architecture (settled fs) = (Failure e, fs')
  end.
Proof.
  intros Ho Hl Hs Hf Hm Hd (Hi & Htc & Har) Hlen (R1 & R2 & R3 & R4). pose proof (lives_accepted _ _ _ Hl) as Hacc.
  destruct (lives_durable_lemma _ o im fs Ho Hl) as (Hdur & Hopt & _).
  assert (Hrest : at_rest so fs) by (unfold so; rewrite <- Hopt; by eapply healthy_at_rest).
  assert (Hh : healthy so s fs).
  { destruct Hdur as [_ Hdur]. rewrite Hs, Hopt in Hdur. destruct Hdur as [Hso Hdur]. rewrite Hf in Hdur. done. }
  assert (Est : engine_state im = sm_state s) by (unfold engine_state; by rewrite Hs). rewrite !Est in *.
  unfold engine_open. rewrite Hacc. unfold iobind.
  destruct (store_open so (settled fs)) as [[s1|e] fs1] eqn:E; fold so; rewrite E; [|done].
  destruct (store_open_killed so s fs s1 fs1) as (Hh1 & Hc1 & Hsl & Hsq); [done..|].
  pose proof (same_lineage_parts _ _ Hsl) as (_ & _ & P3 & P4 & P5 & P6 & P7 & P8 & P9 & _ & P11).
  fold (sm_state s1) (sm_state s) in P3, P4, P5, P6, P7, P8, P9, P11.
  assert (Hlen1 : length (ds_attempts (sm_state s1)) = length (ds_attempts (sm_state s))).
  { rewrite <- (length_map unnumbered), P9. apply length_map. }
  pose proof (healthy_typed _ _ _ Hh1) as [Hty1 Hu1]. pose proof Hty1 as [_ _ _ T4 _ T6 T7 _ _ _ _ _ _].
  destruct (boot_payload_room (sm_state s1) incarnation toolchain architecture) as (boot & Eb & Hep & Hbi); [done..|lia|lia|lia|].
  rewrite Eb. pose proof (boot_payload_wf _ _ _ _ _ Eb T4 T6 T7 Hi Htc Har) as [Hbw _].
  destruct (engine_boot_runs o s1 boot fs1 Hh1 Hc1 Hbw) as (im' & fs' & E2 & He & Hres & Hps).
  - rewrite Hep. lia.
  - by rewrite Hlen1.
  - rewrite Hsq, Hlen1. lia.
  - exists im', fs'. split; [done|]. split.
    + eapply (LivesOpened _ o incarnation toolchain architecture (settled fs)); [by constructor| |done|].
      * intros s2 fs2 E3. fold so in E3. rewrite E in E3. injection E3 as <- <-. by rewrite Hlen1.
      * unfold engine_open. rewrite Hacc. unfold iobind. fold so. rewrite E. by rewrite Eb.
    + split; [congruence|]. split; [by eapply restarted_comes_back|]. rewrite Hps. congruence.
Qed.

(** C8: a killed coordinator comes back. Kill it at any moment of its life at which
    its store works, with room left in its counters, and open its directory once the
    medium works: unless a fence was journaled since the last checkpoint, which has
    the directory refused as corrupt, an engine comes up in the successor epoch and
    goes on with the life of the old one. Every attempt is in its place with its
    identity and its authority vector, the ended ones as they were and those in flight
    interrupted; policy and topology are the same; and a retried request finds the
    very answer it was given before. *)
Theorem killed_coordinator_returns o im s fs incarnation toolchain architecture (so := store_options_of o) :
  options_typed so -> lives o im fs -> im_store im = Some s -> sm_failed s = false ->
  medium_readable so fs -> directory_usable so fs -> build_typed incarnation toolchain architecture ->
  (length (ds_attempts (engine_state im)) <= lm_max_attempts (eo_limits o))%nat -> restart_room (engine_state im) ->
  exists base recs, file_of fs (journal_path so) = journal_image base recs /\
  match engine_open o incarnation toolchain architecture (settled fs) with
  | (Success im', fs') => (forall v, v ∈ recs -> rv_type v <> RecordType.Fence) /\ lives o im' fs' /\
      im_epoch im' = ds_epoch (engine_state im) + 1 /\
      Forall2 comes_back (ds_attempts (engine_state im)) (ds_attempts (engine_state im')) /\
      ds_policy (engine_state im') = ds_policy (engine_state im) /\
      ds_topology (engine_state im') = ds_topology (engine_state im) /\
      forall key, find_idempotency (engine_state im') key = find_idempotency (engine_state im) key
  | (Failure e, _) => (exists v, v ∈ recs /\ rv_type v = RecordType.Fence) /\ status_outcome e = Outcome.Corrupt
  end.
Proof.
  intros Ho Hl Hs Hf Hm Hd Hb Hlen Hroom.
  destruct (lives_reopens o im s fs Ho Hl Hs Hf Hm Hd) as (base & recs & _ & Hj & Hv). exists base, recs. split; [done|].
  pose proof (engine_open_killed o im s fs incarnation toolchain architecture Ho Hl Hs Hf Hm Hd Hb Hlen Hroom) as H.
  fold so in H, Hv. destruct (store_open so (settled fs)) as [[s1|e] fs1]; [|by rewrite H].
  destruct H as (im' & fs' & -> & Hl' & He & Hat & Hps). destruct Hv as (Hn & _).
  injection Hps as E1 E2 _ _ E5. split_and!; try done. intros key. unfold find_idempotency. by rewrite E5.
Qed.
