(* ===== verification/History.v ===== *)
(** * Histories of a coordinator

    A life read as a sequence of moments: turns, in which the engine performs an
    operation, or the medium starts or stops to fail, or others write to it, and restarts, which open the directory
    the process left behind. Along every history the epoch only grows, and it grows
    at each restart: the authority vectors of one boot are outranked by those of the
    next. Without contested revalidations one attempt at most holds authority for a
    subject generation, from the first start on. *)
From S2P Require Import Prelude Status Hash Ids Bytes Evidence Policy Authority Attempt Decision.
From S2P Require Import Selector Fs Journal State Store Intake Engine EngineLogic EngineSafety.
From S2P Require Import Image Progress Durable Restart.

(** ** One winner *)
(** A revalidation re-binds an interrupted attempt only where nobody else was granted
    the subject generation meanwhile. *)
Definition uncontested (op : Operation) (im : EngineImpl) : Prop :=
  forall found, rebinds op im found ->
    active_authority (engine_state im) (at_subject found) (at_subject_generation found) = None.

Lemma lives_inv o im fs : options_typed (store_options_of o) -> lives_under uncontested o im fs -> engine_inv im.
Proof.
  intros Ho. induction 1 as [i tc ar fs im fs' Hop _ _ E|im fs fs1 _ IH _|op s im fs im' fs' _ IH Hop _ Hmay E]; [|done|].
  - by apply engine_open_inv in E as (Hi & _).
  - by eapply single_winner_preserved.
Qed.

(** C2: one winner, for life. From the first start of a coordinator on, through every
    operation, every failure of the medium and every restart, at most one attempt
    holds current authority for a subject generation, the attempts are told apart by
    their keys and no authority is from a later epoch; provided a revalidation that
    re-binds an interrupted attempt finds the generation free. *)
Theorem single_winner_for_life o im fs :
  options_typed (store_options_of o) -> lives_under uncontested o im fs ->
  engine_inv im /\
  forall subject generation a b, let st := engine_state im in
    a ∈ ds_attempts st -> b ∈ ds_attempts st ->
    live_authority st subject generation a = true -> live_authority st subject generation b = true -> a = b.
Proof.
  intros Ho Hl. pose proof (lives_inv _ _ _ Ho Hl) as Hi. split; [done|].
  intros subject generation a b st Ha Hb La Lb. exact (en_winner _ Hi subject generation a b Ha Hb La Lb).
Qed.

(** ** Moments *)
(** The process was killed: its directory holds its lineage, or that and a piece of the
    record it was writing, where the journal is repaired. *)
Definition left_at_rest (so : StoreOptions) (im : EngineImpl) (fs : Fs) : Prop :=
  exists s snap recs, im_store im = Some s /\
    (image_of snap recs s fs \/ (torn_of snap recs s fs /\ sp_repair_torn_tail so = true)).

Definition moment : Type := EngineImpl * Fs.
Definition epoch_of (w : moment) : Epoch := ds_epoch (engine_state w.1).

Section history.
Context (may : Operation -> EngineImpl -> Prop) (o : EngineOptions).

Inductive turn : moment -> moment -> Prop :=
| TurnPerformed op s im fs im' fs' : op <> OpClose -> operation_typed op -> may op im ->
    perform op im fs = (s, im', fs') -> turn (im, fs) (im', fs')
| TurnMedium im fs fs' : same_lineage_files (store_options_of o) fs fs' -> turn (im, fs) (im, fs').
Inductive restart : moment -> moment -> Prop :=
| Restarted incarnation toolchain architecture im fs im' fs' :
    left_at_rest (store_options_of o) im fs -> medium_readable (store_options_of o) fs -> directory_usable (store_options_of o) fs -> table_fits o (settled fs) ->
    build_typed incarnation toolchain architecture ->
    engine_open o incarnation toolchain architecture (settled fs) = (Success im', fs') -> restart (im, fs) (im', fs').
Definition goes_on (w w' : moment) : Prop := turn w w' \/ restart w w'.

Context (Hso : options_typed (store_options_of o)).

Lemma left_is_at_rest im fs : lives_under may o im fs -> left_at_rest (store_options_of o) im fs -> at_rest (store_options_of o) fs.
Proof.
  intros Hl (s & snap & recs & Hs & H). destruct (lives_durable_lemma _ o _ _ Hso Hl) as ((_ & Hd) & Hopt & _).
  rewrite Hs, Hopt in Hd. destruct Hd as [Hd _]. by exists snap, recs, s.
Qed.

(** What is found in the directory is not behind what the process had. *)
Lemma left_epoch im fs s' fs' : lives_under may o im fs -> left_at_rest (store_options_of o) im fs -> medium_readable (store_options_of o) fs ->
  directory_usable (store_options_of o) fs -> store_open (store_options_of o) (settled fs) = (Success s', fs') ->
  ds_epoch (engine_state im) <= ds_epoch (sm_state s').
Proof.
  intros Hl (s & snap & recs & Hs & H) Hm Hd E. destruct (lives_durable_lemma _ o _ _ Hso Hl) as ((_ & Hdur) & Hopt & _).
  rewrite Hs, Hopt in Hdur. destruct Hdur as [Eo _]. 
  assert (Hsn : snapshot_of snap (store_options_of o) fs) by (rewrite <- Eo; by destruct H as [[[] _]|[[[] _] _]]).
  assert (Est : engine_state im = sm_state s) by (unfold engine_state; by rewrite Hs). rewrite Est.
  pose proof (medium_snapshot _ _ _ Hsn Hm) as Hread. destruct Hm as [_ Hj]. rewrite <- Eo in *.
  assert (Hfin : forall recs l r fs1, store_open (sm_options s) (settled fs) = (r, fs1) -> reopened snap recs l r fs1 ->
    ds_epoch (ln_state l) = ds_epoch (sm_state s')).
  { intros recs1 l r fs1 E1 Hre. rewrite E in E1. injection E1 as <- <-. unfold reopened in Hre.
    destruct (existsb is_fence recs1); [by destruct Hre as (? & ? & _)|].
    destruct Hre as (s1 & [= <-] & _ & _ & Hsl & _). apply same_lineage_parts in Hsl as (_ & _ & _ & _ & He & _).
    symmetry. exact He. }
  destruct H as [Hi|[Ht Hrep]].
  - apply image_of_settled in Hi.
    destruct (store_open_image snap recs s (settled fs) Hso Hi Hread Hj (settled_calm fs) Hd) as (r & fs1 & E1 & Hre).
    rewrite <- (Hfin _ _ _ _ E1 Hre). done.
  - apply torn_of_settled in Ht.
    destruct (store_open_torn snap recs s (settled fs) Hso Ht Hrep Hread Hj (settled_calm fs) Hd)
      as (recs' & l' & r & fs1 & E1 & Hre & _ & H). rewrite <- (Hfin _ _ _ _ E1 Hre).
    destruct H as [[_ ->]|(v & _ & _ & H)]; [done|exact H].
Qed.

Lemma turn_goes w w' : lives_under may o w.1 w.2 -> turn w w' -> lives_under may o w'.1 w'.2 /\ epoch_of w' = epoch_of w.
Proof.
  intros Hl H. revert Hl. destruct H as [op s im fs im' fs' Hop Hty Hmay E|im fs fs' Hfs]; intros Hl; cbn in *;
    [|split; [by eapply LivesMedium|reflexivity]].
  split; [eapply LivesPerformed; [exact Hl|exact Hop|exact Hty|exact Hmay|exact E]|].
  destruct (lives_durable_lemma _ o _ _ Hso Hl) as (Hd & _ & _).
  pose proof (perform_keeps op im Hop Hty fs Hd) as (_ & H & _). rewrite E in H. by destruct H.
Qed.
Lemma restart_goes w w' : lives_under may o w.1 w.2 -> restart w w' -> lives_under may o w'.1 w'.2 /\ epoch_of w < epoch_of w'.
Proof.
  intros Hl H. revert Hl. destruct H as [i tc ar im fs im' fs' Hr Hm Hd Hfit Hb E]; intros Hl; cbn in *.
  assert (Hop : openable (store_options_of o) (settled fs)) by (constructor; [by eapply left_is_at_rest|done..]).
  assert (Hl' : lives_under may o im' fs') by by eapply LivesOpened. split; [done|].
  destruct (engine_open_inv _ _ _ _ _ _ _ Hso Hop E) as (Hi & (s & fs1 & Es & He) & _).
  pose proof (left_epoch _ _ _ _ Hl Hr Hm Hd Es). destruct (en_bound _ Hi) as [Hbe _]. unfold epoch_of. cbn. lia.
Qed.
Lemma goes_on_lives w w' : goes_on w w' -> lives_under may o w.1 w.2 ->
  lives_under may o w'.1 w'.2 /\ epoch_of w <= epoch_of w'.
Proof.
  intros [Hs|Hs] Hl; [destruct (turn_goes _ _ Hl Hs) as [? ?]|destruct (restart_goes _ _ Hl Hs) as [? ?]]; split; [done|lia|done|lia].
Qed.
Lemma history_goes w w' : rtc goes_on w w' -> lives_under may o w.1 w.2 -> lives_under may o w'.1 w'.2 /\ epoch_of w <= epoch_of w'.
Proof.
  induction 1 as [w|w1 w2 w3 Hs _ IH]; intros Hl; [done|].
  destruct (goes_on_lives _ _ Hs Hl) as [Hl' He]. destruct (IH Hl') as [? ?]. split; [done|lia].
Qed.
End history.

(** C5: a boot outranks every boot before it. Take any moment of a coordinator's life,
    let it go on as it may, kill it with its last record perhaps half written, start
    it again and let it go on: no authority vector the table had is current any more,
    and every vector that is current then carries a greater epoch, so that one
    comparison of epochs at the applier rejects whatever was granted before. *)
Theorem fencing_tokens_grow o w w1 w2 w3 :
  options_typed (store_options_of o) -> lives o w.1 w.2 ->
  rtc (goes_on any_operation o) w w1 -> restart o w1 w2 -> rtc (goes_on any_operation o) w2 w3 ->
  epoch_of w < epoch_of w3 /\
  forall r, r ∈ ds_attempts (engine_state w.1) ->
    authority_current (engine_state w3.1) r = false /\
    forall subject generation r', r' ∈ ds_attempts (engine_state w3.1) ->
      live_authority (engine_state w3.1) subject generation r' = true ->
      av_epoch (at_authority r) < av_epoch (at_authority r').
Proof.
  intros Ho Hl H1 H2 H3. destruct (history_goes _ o Ho _ _ H1 Hl) as [L1 E1].
  destruct (restart_goes _ o Ho _ _ L1 H2) as [L2 E2]. destruct (history_goes _ o Ho _ _ H3 L2) as [L3 E3].
  assert (Hlt : epoch_of w < epoch_of w3) by lia. split; [done|]. intros r Hr.
  destruct (lives_typed o _ _ Ho Hl) as (_ & Ht & _). destruct (ty_bounded _ _ Ht) as [_ Hb]. specialize (Hb r Hr).
  unfold epoch_of in Hlt. split.
  - apply not_true_is_false. unfold authority_current. intros H. bool_prop. lia.
  - intros subject generation r' _ H. unfold live_authority, authority_current in H. bool_prop. lia.
Qed.
