(* ===== verification/Leases.v ===== *)
(** * A service of leases

    What the coordinator is, to those who ask it for authority: a table that says for
    every subject generation who holds it, under an epoch. A lease is taken only where
    nobody holds one, and given up at any time; a new epoch takes all of them away. The
    engine, with its journal, its evidence and its restarts, implements that table. *)
From S2P Require Import Prelude Status Hash Ids Bytes Evidence Policy Authority Attempt Decision.
From S2P Require Import Selector Fs Journal State Store Intake Engine EngineLogic EngineSafety.
From S2P Require Import Image Progress Durable Restart History.

(** ** The service *)
(** A holder is told by the attempt's key and the authority vector it was granted. *)
Definition Holder : Type := LinkKey * Z * AuthorityVector.
Record Leases := MkLeases {
  le_epoch : Epoch;
  le_holder : LinkKey -> LinkGeneration -> option Holder;
}.

Inductive LeaseMove :=
| Idle
| Released
| Acquired (subject : LinkKey) (generation : LinkGeneration)
| Reclaimed (subject : LinkKey) (generation : LinkGeneration)
| Succeeded.

Definition kept_or_released (l l' : Leases) (subject : LinkKey) (generation : LinkGeneration) : Prop :=
  le_holder l' subject generation = le_holder l subject generation \/ le_holder l' subject generation = None.
Definition others_kept (l l' : Leases) (subject : LinkKey) (generation : LinkGeneration) : Prop :=
  forall s g, (s, g) <> (subject, generation) -> kept_or_released l l' s g.

(** A lease is acquired where nobody held it, and reclaimed where somebody did. *)
Inductive lease_step (l l' : Leases) : LeaseMove -> Prop :=
| LsIdle : le_epoch l' = le_epoch l ->
    (forall s g, le_holder l' s g = le_holder l s g) -> lease_step l l' Idle
| LsReleased : le_epoch l' = le_epoch l ->
    (forall s g, kept_or_released l l' s g) -> lease_step l l' Released
| LsAcquired s g h : le_epoch l' = le_epoch l ->
    le_holder l s g = None -> le_holder l' s g = Some h -> av_epoch h.2 = le_epoch l ->
    others_kept l l' s g -> lease_step l l' (Acquired s g)
| LsReclaimed s g h h' : le_epoch l' = le_epoch l ->
    le_holder l s g = Some h -> le_holder l' s g = Some h' -> av_epoch h'.2 = le_epoch l ->
    others_kept l l' s g -> lease_step l l' (Reclaimed s g)
| LsSucceeded : le_epoch l < le_epoch l' ->
    (forall s g, le_holder l' s g = None) -> lease_step l l' Succeeded.

(** ** The engine as such a service *)
Definition holder_of (r : AttemptRecord) : Holder := (attempt_key r, at_authority r).
Definition leases (im : EngineImpl) : Leases :=
  MkLeases (ds_epoch (engine_state im))
    (fun subject generation => holder_of <$> active_authority (engine_state im) subject generation).

(** The moves an operation may make. Only a failover request and a revalidation that
    re-binds an interrupted attempt acquire, at the generation they are about; only the
    latter can come upon a lease that is held. *)
Definition rebinds_at (op : Operation) (im : EngineImpl) (s : LinkKey) (g : LinkGeneration) : Prop :=
  exists found, rebinds op im found /\ s = at_subject found /\ g = at_subject_generation found.
Definition allowed (op : Operation) (im : EngineImpl) (move : LeaseMove) : Prop :=
  match op, move with
  | _, Idle => True
  | (OpPublishFailure _ | OpPublishReplacement _ | OpCheckpoint), _ => False
  | _, Released => True
  | OpFailover q, Acquired s g => s = fq_subject q /\ g = fq_subject_generation q
  | OpRevalidation _, (Acquired s g | Reclaimed s g) => rebinds_at op im s g
  | _, _ => False
  end.

(** Whether an operation may have given out the lease of a subject generation: a
    failover request for it while it was free, or a re-binding. *)
Definition gives (op : Operation) (im : EngineImpl) (s : LinkKey) (g : LinkGeneration) : Prop :=
  (active_authority (engine_state im) s g = None /\
   exists q, op = OpFailover q /\ s = fq_subject q /\ g = fq_subject_generation q) \/
  rebinds_at op im s g.
(** A re-binding of a generation that somebody else holds. *)
Definition contests (op : Operation) (im : EngineImpl) (s : LinkKey) (g : LinkGeneration) : Prop :=
  rebinds_at op im s g /\ active_authority (engine_state im) s g <> None.

Lemma rebinds_at_same op im s g s' g' : rebinds_at op im s g -> rebinds_at op im s' g' -> (s', g') = (s, g).
Proof. intros (f & (q & -> & _ & F & _) & -> & ->) (f' & (q' & [= <-] & _ & F' & _) & -> & ->). congruence. Qed.
Lemma gives_same op im s g s' g' : gives op im s g -> gives op im s' g' -> (s', g') = (s, g).
Proof.
  intros [(_ & q & -> & -> & ->)|H] [(_ & q' & E & -> & ->)|H'].
  - congruence.
  - destruct H' as (f & (q' & E & _) & _). discriminate E.
  - destruct H as (f & (q & -> & _) & _). discriminate E.
  - by eapply rebinds_at_same.
Qed.
Lemma gives_or_contests op im s g : gives op im s g ->
  active_authority (engine_state im) s g = None \/ contests op im s g.
Proof. intros [[H _]|H]; [by left|]. destruct (active_authority (engine_state im) s g) eqn:E; [right; split; [done|congruence]|by left]. Qed.

(** ** What one operation makes of the holders *)
(** The live attempts after an operation: those that were live before, with the same
    key and vector, and at most one that was given the lease. *)
Lemma live_after op im fs st im' fs' : op <> OpClose -> perform op im fs = (st, im', fs') ->
  exists given : option AttemptRecord, forall s g r',
    r' ∈ ds_attempts (engine_state im') -> live_authority (engine_state im') s g r' = true ->
    (exists r, r ∈ ds_attempts (engine_state im) /\ live_authority (engine_state im) s g r = true /\
       holder_of r = holder_of r') \/ (given = Some r' /\ gives op im s g).
Proof.
  intros Hop E. destruct (perform_effects _ _ _ _ _ _ Hop E) as (_ & tr & Hev & Hop' & _).
  assert (Hkeep : Forall (keeps_holder im) tr -> exists given : option AttemptRecord, forall s g r',
    r' ∈ ds_attempts (engine_state im') -> live_authority (engine_state im') s g r' = true ->
    (exists r, r ∈ ds_attempts (engine_state im) /\ live_authority (engine_state im) s g r = true /\
       holder_of r = holder_of r') \/ (given = Some r' /\ gives op im s g)).
  { intros Hk. exists None. intros s g r' Hr Hl. left.
    destruct (live_origin _ _ _ _ _ _ Hev Hk Hr Hl) as (r & H1 & H2 & H3 & H4). exists r.
    unfold holder_of. by rewrite H3, H4. }
  destruct (revalidation_or_not op im) as [(found & Hf)|Hn].
  - pose proof Hf as (q & -> & Hv & Hq & Hp).
    destruct Hop' as [->|found' Hf' _ _ _ ->]; [apply Hkeep; constructor|]. clear Hkeep.
    rewrite Hq in Hf'. injection Hf' as <-. apply evolves_cons_inv in Hev as Hev'.
    destruct Hev' as (seq & l1 & Hc & H%evolves_nil_inv).
    exists (Some (set_at_update_seq seq (revalidated_record im (vq_verdict q) found))). intros s g r' Hr Hl.
    pose proof (live_holds _ _ _ _ Hl) as (Es & Eg & _).
    rewrite <- engine_lineage_state, <- (core_attempts _ _ H), <- (core_attempts _ _ Hc) in Hr.
    apply effect_elem in Hr. cbn [writes_attempt] in Hr. rewrite engine_lineage_state in Hr.
    destruct Hr as [Hr|Hr].
    + left. exists r'. split; [done|]. by rewrite <- (live_same_boot _ _ _ _ _ _ Hev).
    + right. split; [by rewrite Hr|]. right. exists found. split; [done|]. rewrite <- Es, <- Eg, Hr, Hv. done.
  - destruct (failover_or_not op) as [(q & ->)|Hq].
    + destruct Hop' as [->|[r Hres]]; [apply Hkeep; constructor|].
      destruct (failover_live_origin _ _ _ _ _ Hres Hev) as [Hk|(Hnone & held & Hhs & Hhg & Hall)];
        [by apply Hkeep|]. clear Hkeep. exists (Some held). intros s g r' Hr Hl.
      pose proof (live_holds _ _ _ _ Hl) as (Es & Eg & Hh).
      destruct (Hall r' Hr Hh) as [->|Hin].
      * right. split; [done|]. left. rewrite <- Es, <- Eg, Hhs, Hhg. split; [|by exists q].
        unfold active_authority. pose proof (latest_of_spec
          (live_authority (engine_state im) (fq_subject q) (fq_subject_generation q)) (ds_attempts (engine_state im))) as H.
        destruct (latest_of _ _) as [x|]; [|done]. destruct H as (Hx & Hlx & _). by rewrite Hnone in Hlx.
      * left. exists r'. split; [done|]. by rewrite <- (live_same_boot _ _ _ _ _ _ Hev).
    + apply Hkeep. apply op_effects_written in Hop'. eapply Forall_impl; [exact Hop'|].
      intros e He. by eapply written_keeps.
Qed.

(** One winner, for one subject generation. *)
Definition winner_at (st : DurableState) (s : LinkKey) (g : LinkGeneration) : Prop :=
  forall a b, a ∈ ds_attempts st -> b ∈ ds_attempts st ->
    live_authority st s g a = true -> live_authority st s g b = true -> a = b.

Lemma winner_kept op im fs st im' fs' s g : op <> OpClose -> perform op im fs = (st, im', fs') ->
  keys_unique (ds_attempts (engine_state im')) -> ~ contests op im s g ->
  winner_at (engine_state im) s g -> winner_at (engine_state im') s g.
Proof.
  intros Hop E Hu Hno Hw a b Ha Hb La Lb. destruct (live_after _ _ _ _ _ _ Hop E) as [given H].
  assert (Hnew : forall r, r ∈ ds_attempts (engine_state im) -> live_authority (engine_state im) s g r = true ->
    gives op im s g -> False).
  { intros r Hr Hl Hg. destruct (gives_or_contests _ _ _ _ Hg) as [Hn|]; [|done].
    by rewrite (active_authority_None _ _ _ Hn r Hr) in Hl. }
  destruct (H s g a Ha La) as [(a0 & A1 & A2 & A3)|[A1 A2]], (H s g b Hb Lb) as [(b0 & B1 & B2 & B3)|[B1 B2]].
  - apply (unique_same _ _ _ Hu Ha Hb). apply (f_equal fst (x := holder_of a) (y := holder_of b)).
    rewrite <- A3, <- B3. by rewrite (Hw a0 b0).
  - by destruct (Hnew a0).
  - by destruct (Hnew b0).
  - congruence.
Qed.

Lemma active_authority_Some st s g r : active_authority st s g = Some r ->
  r ∈ ds_attempts st /\ live_authority st s g r = true.
Proof.
  unfold active_authority. intros H. pose proof (latest_of_spec (live_authority st s g) (ds_attempts st)) as Hs.
  rewrite H in Hs. by destruct Hs as (? & ? & _).
Qed.
Lemma active_authority_unique st s g r : winner_at st s g -> r ∈ ds_attempts st -> live_authority st s g r = true ->
  active_authority st s g = Some r.
Proof.
  intros Hw Hr Hl. destruct (active_authority st s g) as [r0|] eqn:E.
  - apply active_authority_Some in E as [H0 L0]. f_equal. by apply Hw.
  - by rewrite (active_authority_None _ _ _ E r Hr) in Hl.
Qed.

(** What an operation makes of one entry of the table. *)
Lemma holder_step op im fs st im' fs' s g :
  winner_at (engine_state im) s g -> op <> OpClose -> perform op im fs = (st, im', fs') ->
  kept_or_released (leases im) (leases im') s g \/
  gives op im s g /\ exists h, le_holder (leases im') s g = Some h /\ av_epoch h.2 = le_epoch (leases im).
Proof.
  intros Hw Hop E. unfold kept_or_released, leases. cbn [le_holder le_epoch].
  destruct (active_authority (engine_state im') s g) as [r'|] eqn:Ha; [|by left; right].
  apply active_authority_Some in Ha as [Hr Hl]. destruct (live_after _ _ _ _ _ _ Hop E) as [given H].
  destruct (H s g r' Hr Hl) as [(r & Hr0 & Hl0 & Hh)|[_ Hg]].
  - left. left. rewrite (active_authority_unique _ _ _ _ Hw Hr0 Hl0). cbn. by rewrite Hh.
  - right. split; [done|]. exists (holder_of r'). split; [done|].
    destruct (perform_effects _ _ _ _ _ _ Hop E) as (_ & tr & Hev & _).
    rewrite (live_same_boot _ _ _ _ _ _ Hev) in Hl. unfold live_authority, authority_current in Hl. bool_prop. done.
Qed.

Lemma perform_epoch op im fs st im' fs' : op <> OpClose -> perform op im fs = (st, im', fs') ->
  ds_epoch (engine_state im') = ds_epoch (engine_state im).
Proof.
  intros Hop E. destruct (perform_effects _ _ _ _ _ _ Hop E) as (_ & tr & Hev & _).
  pose proof (evolves_boot _ _ _ Hev) as H. unfold boot_of in H. rewrite !engine_lineage_state in H. by injection H.
Qed.

(** An operation that writes no record leaves every entry alone. *)
Lemma idle_step op im fs st im' fs' : op <> OpClose -> perform op im fs = (st, im', fs') ->
  op_effects op im st [] -> (forall tr, op_effects op im st tr -> tr = []) -> lease_step (leases im) (leases im') Idle.
Proof.
  intros Hop E _ Hnil. destruct (perform_effects _ _ _ _ _ _ Hop E) as (_ & tr & Hev & Hop' & _).
  apply Hnil in Hop' as ->. pose proof (evolves_boot _ _ _ Hev) as Hb. apply evolves_nil_inv, core_attempts in Hev.
  unfold boot_of in Hb. rewrite !engine_lineage_state in Hev, Hb. injection Hb as He Hc.
  constructor; [done|]. intros s g. unfold leases. cbn [le_holder]. f_equal. unfold active_authority, live_authority, authority_current.
  by rewrite Hev, He, Hc.
Qed.

(** A step at a generation the operation is about. *)
Lemma step_at op im fs st im' fs' s0 g0 :
  engine_inv im -> op <> OpClose -> perform op im fs = (st, im', fs') ->
  (forall s g, gives op im s g -> (s, g) = (s0, g0)) ->
  (gives op im s0 g0 -> forall h, le_holder (leases im) s0 g0 = Some h -> allowed op im (Reclaimed s0 g0)) ->
  (gives op im s0 g0 -> allowed op im (Acquired s0 g0)) -> allowed op im Released ->
  exists move, allowed op im move /\ lease_step (leases im) (leases im') move.
Proof.
  intros Hi Hop E Hat Hcl Hac Hrel. pose proof (perform_epoch _ _ _ _ _ _ Hop E) as He.
  assert (Hstep : forall s g, kept_or_released (leases im) (leases im') s g \/ gives op im s g /\
    exists h, le_holder (leases im') s g = Some h /\ av_epoch h.2 = le_epoch (leases im)).
  { intros s g. eapply holder_step; [|exact Hop|exact E]. intros a b. apply (en_winner _ Hi). }
  assert (Hothers : others_kept (leases im) (leases im') s0 g0).
  { intros s g Hne. destruct (Hstep s g) as [H|[H _]]; [done|]. by apply Hat in H. }
  destruct (Hstep s0 g0) as [Hk|(Hg & h & Hh & Hep)].
  - exists Released. split; [done|]. constructor; [done|]. intros s g.
    destruct (decide ((s, g) = (s0, g0))) as [[= -> ->]|Hne]; [done|by apply Hothers].
  - destruct (le_holder (leases im) s0 g0) as [h0|] eqn:E0.
    + exists (Reclaimed s0 g0). split; [by eapply Hcl|]. by apply (LsReclaimed _ _ s0 g0 h0 h).
    + exists (Acquired s0 g0). split; [by apply Hac|]. by apply (LsAcquired _ _ s0 g0 h).
Qed.

(** A failover request finds nobody where it acquires. *)
Lemma failover_gives_free q im s g : gives (OpFailover q) im s g ->
  s = fq_subject q /\ g = fq_subject_generation q /\ le_holder (leases im) s g = None.
Proof.
  intros [(Hn & q' & [= <-] & -> & ->)|(f & (q' & E & _) & _)]; [|discriminate E].
  split; [done|]. split; [done|]. unfold leases. cbn [le_holder]. by rewrite Hn.
Qed.
Lemma revalidation_gives q im s g : gives (OpRevalidation q) im s g -> rebinds_at (OpRevalidation q) im s g.
Proof. by intros [(_ & q' & E & _)|H]. Qed.

Lemma engine_steps op im fs st im' fs' :
  engine_inv im -> op <> OpClose -> perform op im fs = (st, im', fs') ->
  exists move, allowed op im move /\ lease_step (leases im) (leases im') move.
Proof.
  intros Hi Hop E.
  assert (Hfree : (forall s g, ~ gives op im s g) -> allowed op im Released ->
    exists move, allowed op im move /\ lease_step (leases im) (leases im') move).
  { intros Hno Hrel. pose proof (perform_epoch _ _ _ _ _ _ Hop E) as He. exists Released. split; [done|].
    constructor; [done|]. intros s g. destruct (holder_step op im fs st im' fs' s g) as [H|[H _]]; try done.
    - intros a b. apply (en_winner _ Hi).
    - by destruct (Hno s g). }
  assert (Hidle : (forall tr, op_effects op im st tr -> tr = []) -> op_effects op im st [] ->
    exists move, allowed op im move /\ lease_step (leases im) (leases im') move).
  { intros Hnil H0. exists Idle. split; [by destruct op|]. by eapply idle_step. }
  destruct op as [r|r|p|t|q|r|r|q|q| |] eqn:Eop; try (by apply Hidle); try done.
  all: try (apply Hfree; [|done]; intros s g [(_ & q0 & Hq & _)|(f & (q0 & Hq & _) & _)]; discriminate Hq).
  - eapply (step_at _ _ _ _ _ _ (fq_subject q) (fq_subject_generation q)); [done..| | | |done].
    + intros s g H. by apply failover_gives_free in H as (-> & -> & _).
    + intros H h Hh. apply failover_gives_free in H as (_ & _ & H). congruence.
    + done.
  - destruct (revalidation_or_not (OpRevalidation q) im) as [(found & Hf)|Hn].
    + assert (Hat : rebinds_at (OpRevalidation q) im (at_subject found) (at_subject_generation found)) by by exists found.
      eapply (step_at _ _ _ _ _ _ (at_subject found) (at_subject_generation found)); [done..| |done|done|done].
      intros s g H. eapply rebinds_at_same; [exact Hat|by apply revalidation_gives].
    + apply Hfree; [|done]. intros s g H. apply revalidation_gives in H as (f & Hf & _). by apply (Hn f).
Qed.

(** C3: the engine is a service of leases. Every operation of an engine that satisfies
    its invariant is one step of the table of holders: it leaves the table as it is, or
    gives leases up, or takes the lease of one subject generation that nobody held, or
    reclaims one that somebody held; what it takes is taken under the current epoch,
    and the other leases are left or freed. Publications and checkpoints leave the
    table alone. A failover request takes the lease of its generation only where
    nobody holds it. The one operation that can reclaim a lease is the revalidation
    that re-binds an interrupted attempt: the code does not look whether another
    attempt was granted the generation meanwhile, and then has two of them live. *)
Theorem engine_implements_leases op im fs st im' fs' :
  engine_inv im -> op <> OpClose -> perform op im fs = (st, im', fs') ->
  exists move, allowed op im move /\ lease_step (leases im) (leases im') move.
Proof. apply engine_steps. Qed.

(** ** Handing authority over *)
Definition holder_at (w : moment) (s : LinkKey) (g : LinkGeneration) : option Holder := le_holder (leases w.1) s g.

(** A revalidation that re-binds an attempt of a generation that is held. *)
Inductive reclaimed (s : LinkKey) (g : LinkGeneration) : moment -> moment -> Prop :=
| ReclaimedBy op st im fs im' fs' : contests op im s g -> perform op im fs = (st, im', fs') ->
    reclaimed s g (im, fs) (im', fs').

Lemma contests_or_not op im s g : contests op im s g \/ ~ contests op im s g.
Proof.
  destruct (active_authority (engine_state im) s g) as [r|] eqn:E; [|by right; intros [_ H]].
  destruct (revalidation_or_not op im) as [(found & Hf)|Hn].
  - destruct (decide ((s, g) = (at_subject found, at_subject_generation found))) as [[= -> ->]|Hne].
    + left. split; [by exists found|congruence].
    + right. intros [H _]. apply Hne. eapply rebinds_at_same; [|exact H]. by exists found.
  - right. intros [(f & Hf & _) _]. by apply (Hn f).
Qed.

(** Between two moments without such a reclaim a holder stays, or is released. *)
Lemma goes_on_holder o s g h w w' : options_typed (store_options_of o) -> lives o w.1 w.2 ->
  winner_at (engine_state w.1) s g -> holder_at w s g = Some h -> goes_on any_operation o w w' ->
  reclaimed s g w w' \/ (holder_at w' s g = Some h /\ winner_at (engine_state w'.1) s g) \/
  holder_at w' s g = None.
Proof.
  intros Ho Hl Hw Hh Hs. pose proof (goes_on_lives _ o Ho _ _ Hs Hl) as [Hl' _].
  destruct (lives_typed o _ _ Ho Hl') as (_ & Ht & _). pose proof (ty_unique _ _ Ht) as Hu.
  destruct Hs as [Hs|Hs].
  - destruct Hs as [op st im fs im' fs' Hop Hty _ E|im fs fs' Hfs]; cbn [fst snd] in *; [|by right; left].
    destruct (contests_or_not op im s g) as [Hc|Hc]; [left; by econstructor|]. right.
    destruct (holder_step _ _ _ _ _ _ _ _ Hw Hop E) as [[H|H]|[Hg _]]; [left|by right|].
    + split; [by rewrite <- Hh|by eapply winner_kept].
    + destruct (gives_or_contests _ _ _ _ Hg) as [Hn|]; [|done]. unfold holder_at, leases in Hh.
      cbn [le_holder fst] in Hh. by rewrite Hn in Hh.
  - right. right. destruct (restart_goes _ o Ho _ _ Hl Hs) as [_ _].
    destruct Hs as [i tc ar im fs im' fs' Hr Hm Hd Hfit Hb E]. cbn [fst snd] in *.
    assert (Hop : openable (store_options_of o) (settled fs))
      by (constructor; [by eapply (left_is_at_rest any_operation o)|done..]).
    destruct (engine_open_inv _ _ _ _ _ _ _ Ho Hop E) as (_ & _ & Hnone).
    unfold holder_at, leases. cbn [le_holder fst]. by rewrite Hnone.
Qed.

(** C6: authority changes hands only by way of nobody, or by a revalidation. Take a
    moment of a coordinator's life at which one attempt at most holds the authority for
    a subject generation, and let it go on in any way, through operations, failures of
    the medium and restarts. If one holder had the authority at the first moment and
    another has it at a later one, then at some moment between them nobody had it; or
    one of the operations between them was the re-binding, by a revalidation, of an
    interrupted attempt of this very generation while it was held, which the code does
    not prevent. *)
Theorem handover_needs_release o w w' subject generation h h' :
  options_typed (store_options_of o) -> lives o w.1 w.2 ->
  (forall a b, a ∈ ds_attempts (engine_state w.1) -> b ∈ ds_attempts (engine_state w.1) ->
     live_authority (engine_state w.1) subject generation a = true ->
     live_authority (engine_state w.1) subject generation b = true -> a = b) ->
  rtc (goes_on any_operation o) w w' ->
  holder_at w subject generation = Some h -> holder_at w' subject generation = Some h' -> h' <> h ->
  (exists w0, rtc (goes_on any_operation o) w w0 /\ rtc (goes_on any_operation o) w0 w' /\
     holder_at w0 subject generation = None) \/
  (exists w0 w1, rtc (goes_on any_operation o) w w0 /\ rtc (goes_on any_operation o) w1 w' /\
     reclaimed subject generation w0 w1).
Proof.
  intros Ho Hl Hw Hr. revert Hl Hw. induction Hr as [w|w w1 w2 Hs Hr IH]; intros Hl Hw H1 H2 Hne; [congruence|].
  destruct (goes_on_lives _ _ Ho _ _ Hs Hl) as [Hl1 _].
  destruct (goes_on_holder _ _ _ _ _ _ Ho Hl Hw H1 Hs) as [Hc|[[Hh1 Hw1]|Hn]].
  - right. exists w, w1. split; [apply rtc_refl|done].
  - destruct (IH Hl1 Hw1 Hh1 H2 Hne) as [(w0 & A & B & C)|(w0 & w3 & A & B & C)].
    + left. exists w0. split; [by eapply rtc_l|done].
    + right. exists w0, w3. split; [by eapply rtc_l|done].
  - left. exists w1. split; [by apply rtc_once|done].
Qed.
