(* ===== verification/Revocation.v ===== *)
(** * What a change of policy leaves on the medium

    [set_policy] of src/engine.cpp on a medium that holds the engine's lineage: the
    records it appends to the journal, one by one, with the state it leaves in memory
    and what the next start of a coordinator finds. *)
From S2P Require Import Prelude Status Hash Ids Bytes Evidence Policy Authority Attempt Decision.
From S2P Require Import Selector Fs Journal State Store Intake Engine EngineLogic EngineSafety.
From S2P Require Import Image Progress Durable Restart.

(** ** Appending to a journal *)
(** What a record says, without its place. *)
Definition said (v : RecordView) : RecordType * bytes := (rv_type v, rv_payload v).

(** The store works and its journal holds [recs], after the snapshot [snap]. *)
Definition on_medium (snap : option DurableState) (recs : list RecordView) (im : EngineImpl) (fs : Fs) : Prop :=
  exists s, im_store im = Some s /\ sm_failed s = false /\ image_of snap recs s fs.

Lemma commit_appends snap recs type payload apply im fs st im' fs' :
  on_medium snap recs im fs ->
  (forall s, im_store im = Some s -> sound_commit type payload apply (sm_lineage s)) ->
  engine_commit type payload apply im fs = (st, im', fs') -> status_ok st = true ->
  exists v, said v = (type, payload) /\ on_medium snap (recs ++ [v]) im' fs'.
Proof.
  intros (s & Hs & Hf & Hi) Hsd. unfold engine_commit, iobind. rewrite Hs. cbn [store_commit]. unfold iobind.
  destruct (store_commit_impl s type payload apply fs) as [[status s'] fs1] eqn:E. cbn [fst snd ioret].
  intros [= -> <- <-] Hok. rewrite Hok. destruct (commit_image _ _ _ _ _ _ _ _ _ _ Hi (Hsd s Hs) E) as [H _].
  destruct (H Hok) as (Hf' & _ & Hi'). eexists. split; [|exists s'; split; [done|split; [exact Hf'|exact Hi']]]. done.
Qed.

(** The two records that revoke an attempt which holds authority. *)
Definition revocation (im : EngineImpl) (kind : FenceKind) (detail : string) (r : AttemptRecord) : list (RecordType * bytes) :=
  if attempt_phase_holds_authority (at_phase r)
  then [(RecordType.AttemptUpdate, encode_attempt_payload (aborted_record detail r));
        (RecordType.Fence, encode_fence_payload (authority_fence im kind detail r))]
  else [].

Lemma aborted_writable im detail r : writable im r -> writable im (aborted_record detail r).
Proof. intros Hr. by apply writable_push, writable_phase. Qed.

(** One revocation that succeeds: both records are appended. *)
Lemma revoke_appends snap recs kind detail r im fs st1 im1 fs1 st2 im2 fs2 : text_wf 512 detail ->
  durable im fs -> im_closed im = false -> writable im r -> on_medium snap recs im fs ->
  commit_update RecordType.AttemptUpdate (aborted_record detail r) im fs = (st1, im1, fs1) -> status_ok st1 = true ->
  commit_fence (authority_fence im1 kind detail r) im1 fs1 = (st2, im2, fs2) -> status_ok st2 = true ->
  durable im2 fs2 /\ same_engine im im2 /\ exists v1 v2,
    map said [v1; v2] = [(RecordType.AttemptUpdate, encode_attempt_payload (aborted_record detail r));
      (RecordType.Fence, encode_fence_payload (authority_fence im kind detail r))] /\
    on_medium snap (recs ++ [v1; v2]) im2 fs2.
Proof.
  intros Ht Hd Hc Hr Hm E1 O1 E2 O2. pose proof (aborted_writable _ detail _ Hr) as Ha.
  assert (Hty : attempt_type_ok RecordType.AttemptUpdate (aborted_record detail r)) by done.
  pose proof (keeps_update RecordType.AttemptUpdate (aborted_record detail r) any im Hc Ha Hty ltac:(done) fs Hd) as H1.
  rewrite E1 in H1. cbn [fst snd] in H1. destruct H1 as (Hd1 & Hs1 & _).
  assert (Hc1 : im_closed im1 = false) by (destruct Hs1; congruence).
  assert (Hwf : fence_wf (authority_fence im1 kind detail r)).
  { apply authority_fence_typed; [by eapply durable_workable|by eapply writable_later|done]. }
  pose proof (keeps_fence (authority_fence im1 kind detail r) any im1 Hc1 Hwf eq_refl ltac:(done) fs1 Hd1) as H2.
  rewrite E2 in H2. cbn [fst snd] in H2. destruct H2 as (Hd2 & Hs2 & _).
  split; [done|]. split; [by etrans|].
  destruct (commit_appends _ _ _ _ _ _ _ _ _ _ Hm (fun s Hs => writable_sound im s RecordType.AttemptUpdate _
    (fun seq => set_at_update_seq seq (aborted_record detail r)) Ha Hty Hs (fun _ => or_introl eq_refl)) E1 O1)
    as (v1 & V1 & M1).
  destruct (commit_appends _ _ _ _ _ _ _ _ _ _ M1 (fun s _ => fence_sound _ (sm_lineage s) Hwf eq_refl) E2 O2)
    as (v2 & V2 & M2). rewrite <- app_assoc in M2. exists v1, v2. split; [|exact M2]. cbn [map]. rewrite V1, V2.
  unfold authority_fence. destruct Hs1 as [_ -> -> _ _ _]. done.
Qed.

Lemma revocations_same im im' kind detail records : same_engine im im' ->
  flat_map (revocation im' kind detail) records = flat_map (revocation im kind detail) records.
Proof.
  intros [_ Hi He _ _ _]. apply flat_map_ext. intros r. unfold revocation, authority_fence. by rewrite Hi, He.
Qed.

Lemma fence_authorities_appends kind detail records : text_wf 512 detail -> forall snap recs im fs s im' fs',
  durable im fs -> im_closed im = false -> Forall (writable im) records -> on_medium snap recs im fs ->
  fence_authorities kind detail records im fs = (s, im', fs') -> status_ok s = true ->
  exists more, map said more = flat_map (revocation im kind detail) records /\ on_medium snap (recs ++ more) im' fs'.
Proof.
  intros Ht. induction records as [|r records IH]; intros snap recs im fs s im' fs' Hd Hc Hw Hm E Hok;
    cbn [fence_authorities] in E.
  { injection E as <- <- <-. exists []. by rewrite app_nil_r. }
  apply Forall_cons in Hw as [Hr Hw]. cbn [flat_map]. unfold revocation at 1.
  destruct (attempt_phase_holds_authority (at_phase r)) eqn:Hh; cbn [negb] in E; [|by eapply IH].
  fold (aborted_record detail r) in E. unfold ebind at 1, iobind at 1 in E.
  destruct (commit_update _ _ im fs) as [[st1 im1] fs1] eqn:E1. cbn [fst snd] in E.
  destruct (status_ok st1) eqn:O1; cbn [negb] in E; [|injection E as <- _ _; congruence].
  unfold ebind at 1, iobind at 1 in E. cbn [eget ioret fst snd] in E. unfold ebind at 1, iobind at 1 in E.
  destruct (commit_fence _ im1 fs1) as [[st2 im2] fs2] eqn:E2. cbn [fst snd] in E.
  destruct (status_ok st2) eqn:O2; cbn [negb] in E; [|injection E as <- _ _; congruence].
  destruct (revoke_appends _ _ _ _ _ _ _ _ _ _ _ _ _ Ht Hd Hc Hr Hm E1 O1 E2 O2) as (Hd2 & Hs2 & v1 & v2 & V & M2).
  destruct (IH snap (recs ++ [v1; v2]) im2 fs2 s im' fs') as (more & Hmore & M); try done.
  - destruct Hs2; congruence.
  - eapply Forall_impl; [exact Hw|]. intros x Hx. by eapply writable_later.
  - exists ([v1; v2] ++ more). rewrite map_app, V, Hmore, (revocations_same im im2) by done. by rewrite app_assoc.
Qed.

Lemma set_policy_appends p im fs s im' fs' snap recs : policy_wf p -> durable im fs -> on_medium snap recs im fs ->
  set_policy p im fs = (s, im', fs') -> status_ok s = true -> fp_generation p <> fp_generation (ds_policy (engine_state im)) ->
  exists more, map said more = (RecordType.PolicyCommit, encode_policy_payload p) ::
      flat_map (revocation im FenceKind.PolicyChanged "policy generation changed") (ds_attempts (engine_state im)) /\
    on_medium snap (recs ++ more) im' fs'.
Proof.
  intros Hp Hd Hm E Hok Hne. unfold set_policy, ebind, iobind in E. cbn [eget ioret fst snd] in E.
  destruct (im_closed im) eqn:Hc; [injection E as <- _ _; done|].
  destruct (status_ok (policy_validate p)) eqn:Hv; cbn [negb] in E; [|injection E as <- _ _; congruence].
  destruct (_ <? _); [injection E as <- _ _; done|].
  rewrite (proj2 (Z.eqb_neq _ _) Hne) in E.
  destruct (engine_commit RecordType.PolicyCommit _ _ im fs) as [[st1 im1] fs1] eqn:E1. cbn [fst snd] in E.
  destruct (status_ok st1) eqn:O1; cbn [negb] in E; [|injection E as <- _ _; congruence].
  assert (Hsd : forall s, im_store im = Some s -> sound_commit RecordType.PolicyCommit (encode_policy_payload p)
    (fun _ l => set_ln_state (set_ds_policy p (ln_state l)) l) (sm_lineage s)) by (intros s0 _; by apply sound_policy).
  destruct (commit_appends _ _ _ _ _ _ _ _ _ _ Hm Hsd E1 O1) as (v & V & M1).
  pose proof (keeps_commit RecordType.PolicyCommit (encode_policy_payload p)
    (fun _ l => set_ln_state (set_ds_policy p (ln_state l)) l) any im Hc (fun _ _ => eq_refl) Hsd (fun _ _ _ _ => I) fs Hd) as H1. rewrite E1 in H1.
  cbn [fst snd] in H1. destruct H1 as (Hd1 & Hs1 & _).
  assert (Hc1 : im_closed im1 = false) by (destruct Hs1; congruence).
  assert (Ha : ds_attempts (engine_state im1) = ds_attempts (engine_state im)).
  { revert E1. unfold engine_commit, iobind, engine_state. destruct Hm as (s0 & Hs0 & _). rewrite Hs0. cbn [store_commit].
    unfold iobind. destruct (store_commit_impl s0 _ _ _ fs) as [[st s1] fs2] eqn:Ec. cbn [fst snd ioret].
    intros [= -> <- _]. rewrite O1. apply store_commit_impl_state in Ec as (q & A & _); [|done]. exact A. }
  destruct (workable_policy im1 (durable_workable _ _ Hd1) Hc1) as (_ & _ & Hwr).
  assert (Htext : text_wf 512 "policy generation changed") by (vm_compute; discriminate).
  change (fence_authorities FenceKind.PolicyChanged "policy generation changed" (ds_attempts (engine_state im1)) im1 fs1 =
    (s, im', fs')) in E.
  destruct (fence_authorities_appends _ _ _ Htext snap (recs ++ [v]) im1 fs1 s im' fs' Hd1 Hc1 Hwr M1 E Hok)
    as (more & Hmore & M).
  exists (v :: more). cbn [map]. rewrite V, Hmore, Ha, (revocations_same im im1 _ _ _ Hs1).
  split; [reflexivity|]. rewrite <- app_assoc in M. exact M.
Qed.

(** C33: a policy change revokes, and is on the medium when it is answered. Take a
    coordinator at any moment of its life at which its store works, and let [set_policy]
    answer Ok for a policy of another generation. In memory the policy is the new one
    and no attempt in the table holds authority any more. The journal on the medium has
    grown by exactly these records: the policy, and for each attempt that held
    authority its abort and its fence, in the order of the table. The life goes on, and
    whenever the directory opens again the store has the new policy and no attempt
    that holds authority. *)
Theorem set_policy_revokes o p im st fs s im' fs' (so := store_options_of o) :
  options_typed so -> lives o im fs -> im_store im = Some st -> sm_failed st = false -> policy_wf p ->
  set_policy p im fs = (s, im', fs') -> status_ok s = true ->
  fp_generation p <> fp_generation (ds_policy (engine_state im)) ->
  ds_policy (engine_state im') = p /\
  (forall r, r ∈ ds_attempts (engine_state im') -> attempt_phase_holds_authority (at_phase r) = false) /\
  (exists base recs more,
     file_of fs (journal_path so) = journal_image base recs /\
     file_of fs' (journal_path so) = journal_image base (recs ++ more) /\ journal_ok base (recs ++ more) /\
     map said more = (RecordType.PolicyCommit, encode_policy_payload p) ::
       flat_map (revocation im FenceKind.PolicyChanged "policy generation changed") (ds_attempts (engine_state im))) /\
  lives o im' fs' /\
  (medium_readable so fs' -> directory_usable so fs' ->
   forall s2 fs2, store_open so (settled fs') = (Success s2, fs2) ->
     ds_policy (sm_state s2) = p /\
     forall r, r ∈ ds_attempts (sm_state s2) -> attempt_phase_holds_authority (at_phase r) = false).
Proof.
  intros Ho Hl Hst Hf Hp E Hok Hne. destruct (lives_durable_lemma _ o im fs Ho Hl) as (Hd & Hopt & _).
  destruct (lives_typed o _ _ Ho Hl) as (_ & Hty & _).
  destruct (policy_change_revokes p im fs s im' fs' (ty_unique _ _ Hty) E Hok Hne) as [Hpol Hhold].
  assert (Hm : exists snap recs, on_medium snap recs im fs).
  { destruct Hd as [_ Hd]. rewrite Hst in Hd. destruct Hd as [_ Hd]. rewrite Hf in Hd. destruct Hd as (snap & recs & Hi).
    exists snap, recs, st. done. }
  destruct Hm as (snap & recs & Hm).
  destruct (set_policy_appends p im fs s im' fs' snap recs Hp Hd Hm E Hok Hne) as (more & Hmore & Hm').
  assert (Hl' : lives o im' fs').
  { eapply (LivesPerformed _ _ (OpSetPolicy p)); [exact Hl|done|exact Hp|done|exact E]. }
  destruct (lives_durable_lemma _ o im' fs' Ho Hl') as ((_ & Hd') & Hopt' & _).
  destruct Hm as (s0 & Hs0 & _ & [_ [_ J0 _ _]]), Hm' as (s1 & Hs1 & Hf1 & [_ [K1 J1 _ _]]).
  assert (O0 : sm_options s0 = so) by (destruct Hd as [_ Hd]; rewrite Hs0, Hopt in Hd; by destruct Hd).
  assert (O1 : sm_options s1 = so) by (rewrite Hs1, Hopt' in Hd'; by destruct Hd').
  rewrite O0 in J0. rewrite O1 in J1.
  split; [done|]. split; [done|]. split; [by exists (covered_by snap), recs, more|]. split; [done|].
  intros Hr Hu s2 fs2 E2. destruct (lives_reopens o im' s1 fs' Ho Hl' Hs1 Hf1 Hr Hu) as (b2 & r2 & _ & _ & H).
  fold so in H. rewrite E2 in H. destruct H as (_ & _ & Hsl). apply same_lineage_parts in Hsl.
  assert (Est : engine_state im' = sm_state s1) by (unfold engine_state; by rewrite Hs1). rewrite Est in *.
  destruct Hsl as (_ & _ & P3 & _ & _ & _ & _ & _ & P9 & _ & _). fold (sm_state s2) (sm_state s1) in P3, P9.
  split; [congruence|]. intros r Hin. apply (list_elem_of_fmap_2 unnumbered) in Hin.
  change (unnumbered <$> ds_attempts (sm_state s2)) with (map unnumbered (ds_attempts (sm_state s2))) in Hin.
  rewrite P9 in Hin. apply list_elem_of_fmap in Hin as (r1 & Hu1 & Hin1).
  change (at_phase r) with (at_phase (unnumbered r)). rewrite Hu1. exact (Hhold r1 Hin1).
Qed.
