(* ===== verification/Liveness.v ===== *)
(** * Liveness: an authorized attempt completes

    On a quiet medium with a working store every commit of an operation succeeds.
    [thrives n m Q im] walks an operation that records at most [n] records: it keeps
    the engine working, and ends in [Q]. With it, an authorized attempt whose
    applier accepts and whose effect is observed reaches [Committed]. *)
From S2P Require Import Prelude Status Hash Ids Bytes Evidence Policy Authority Attempt Decision.
From S2P Require Import Selector Fs Journal State Store Intake Engine EngineLogic EngineSafety.
From S2P Require Import Image Progress Durable Restart.

(** ** Working engines *)
Definition thriving (im : EngineImpl) (fs : Fs) : Prop :=
  durable im fs /\ fs_calm fs /\ unavailable im = None /\ store_failed (im_store im) = false.

Definition last_seq (im : EngineImpl) : LineageSeq := ds_last_seq (engine_state im).
Definition attempts (im : EngineImpl) : list AttemptRecord := ds_attempts (engine_state im).
Definition max_attempts (im : EngineImpl) : nat := lm_max_attempts (eo_limits (im_options im)).

Lemma thriving_store im fs : thriving im fs -> exists s, im_store im = Some s /\ sm_failed s = false /\
  im_closed im = false /\ im_store_failed im = false /\ sm_options s = store_options_of (im_options im) /\
  (exists snap recs, image_of snap recs s fs) /\ is_u64 (ds_last_seq (sm_state s)).
Proof.
  intros ([He Hd] & Hc & Hu & Hs). destruct (im_store im) as [s|]; [|done]. cbn [store_failed] in Hs. exists s.
  pose proof (store_durable_typed _ _ _ Hd) as [_ H64]. destruct Hd as [Ho Hd]. rewrite Hs in Hd.
  pose proof (unavailable_open _ Hu) as Hcl. unfold unavailable, publication_open in Hu. rewrite Hcl in Hu.
  destruct (im_store_failed im); [done|]. split_and!; done.
Qed.

(** ** The judgement *)
Definition thrives {A} (n : Z) (m : EngM A) (Q : A -> EngineImpl -> Prop) (im : EngineImpl) : Prop :=
  forall fs, thriving im fs -> last_seq im + n < two64 ->
    thriving (m im fs).1.2 (m im fs).2 /\ same_engine im (m im fs).1.2 /\
    last_seq (m im fs).1.2 <= last_seq im + n /\ Q (m im fs).1.1 (m im fs).1.2.

Lemma thrives_weaken {A} n n' (m : EngM A) Q im : thrives n m Q im -> n <= n' -> thrives n' m Q im.
Proof. intros H Hn fs Ht Hr. destruct (H fs Ht) as (H1 & H2 & H3 & H4); [lia|]. split_and!; try done. lia. Qed.
Lemma thrives_ret {A} (x : A) Q im : Q x im -> thrives 0 (eret x) Q im.
Proof. intros HQ fs Ht _. split_and!; try done. cbn. lia. Qed.
Lemma thrives_get Q im : Q im im -> thrives 0 eget Q im.
Proof. intros HQ fs Ht _. split_and!; try done. cbn. lia. Qed.
Lemma thrives_bind {A B} a b (m : EngM A) (k : A -> EngM B) Q im : 0 <= b ->
  thrives a m (fun x im1 => same_engine im im1 -> workable im1 -> thrives b (k x) Q im1) im -> thrives (a + b) (ebind m k) Q im.
Proof.
  intros Hb H fs Ht Hr. destruct (H fs Ht) as (T1 & S1 & L1 & HQ); [lia|]. unfold ebind, iobind.
  destruct (m im fs) as [[x im1] fs1]. cbn [fst snd] in *. pose proof T1 as ([? ?] & _).
  destruct (HQ S1 (durable_workable _ _ (proj1 T1)) fs1 T1) as (T2 & S2 & L2 & HQ2); [lia|].
  split_and!; try done; [by etrans|lia].
Qed.
Lemma thrives_modify f Q im : same_engine im (f im) -> im_store (f im) = im_store im ->
  unavailable (f im) = unavailable im -> (engine_typed im -> engine_typed (f im)) -> Q tt (f im) ->
  thrives 0 (emodify f) Q im.
Proof.
  intros Hs He Hu Ht HQ fs (Hd & Hc & Hun & Hf) Hr.
  destruct (keeps_modify f (fun _ _ => True) im Hs He Ht I fs Hd) as (Hd' & _ & _).
  change (emodify f im fs) with ((tt, f im), fs) in *. cbn [fst snd] in *.
  split; [|split; [done|split; [|done]]].
  - split; [done|]. split; [done|]. by rewrite Hu, He.
  - unfold last_seq, engine_state. rewrite He. lia.
Qed.

(** A commit of a sound record within the bound of the journal. *)
Lemma thrives_commit type payload apply (Q : Status -> EngineImpl -> Prop) im : keeps_epoch apply ->
  (forall s, im_store im = Some s -> sound_commit type payload apply (sm_lineage s)) ->
  Z.of_nat (length payload) <= kMaxRecordPayload ->
  (forall im' s seq, same_engine im im' -> workable im' -> im_store im = Some s ->
     attempts im' = ds_attempts (ln_state (apply seq (sm_lineage s))) -> Q status_success im') ->
  thrives 1 (engine_commit type payload apply) Q im.
Proof.
  intros Hke Hsd Hsz HQ fs Ht Hr. destruct (thriving_store im fs Ht) as (s & Hs & Hf & Hcl & Hsf & Ho & (snap & recs & Hi) & Hu).
  unfold last_seq, engine_state in Hr. rewrite Hs in Hr. cbn [store_state] in Hr.
  destruct (store_commit_calm s type payload apply fs) as (s' & fs' & E & C);
    [by eapply image_ready|done|by destruct Ht as (_ & ? & _)|done|apply Hu|lia|].
  destruct Ht as (Hd & _ & Hun & _).
  destruct (keeps_commit type payload apply (fun _ _ => True) im Hcl Hke Hsd (fun _ _ _ _ => I) fs Hd) as (Hd' & Hse & _).
  pose proof E as A. apply store_commit_impl_state in A as (seq & A & _); [|done].
  pose proof (commit_image _ _ _ _ _ _ _ _ _ _ Hi (Hsd s Hs) E) as [Hok _]. destruct (Hok eq_refl) as (Hf' & _ & Hi').
  assert (Em : engine_commit type payload apply im fs = ((status_success, set_im_store (Some s') im), fs')).
  { unfold engine_commit, store_commit, iobind. rewrite Hs, E. reflexivity. }
  rewrite Em in *. cbn [fst snd] in *. split_and!; try done.
  - unfold last_seq, engine_state. rewrite Hs. cbn [store_state im_store set_im_store].
    destruct Hi' as [[_ _ -> _ _ _] _]. rewrite last_seq_of_snoc. cbn. lia.
  - by apply (HQ _ s seq); [|eapply durable_workable| |].
Qed.

(** An update of an attempt that is in the table, which is within its limit. *)
Definition tabled (im : EngineImpl) (r : AttemptRecord) : Prop :=
  attempt_key r ∈ map attempt_key (attempts im) /\ (length (attempts im) <= max_attempts im)%nat.

Lemma tabled_replaced im im' r r' seq : attempts im' = upsert (set_at_update_seq seq r') (attempts im) ->
  same_engine im im' -> attempt_key r' = attempt_key r -> tabled im r -> tabled im' r.
Proof.
  intros Ha [Ho _ _ _ _ _] Hk [Hin Hl]. unfold tabled, max_attempts. rewrite Ha, Ho.
  assert (Hm : map attempt_key (upsert (set_at_update_seq seq r') (attempts im)) = map attempt_key (attempts im)).
  { apply upsert_keys_present. change (attempt_key (set_at_update_seq seq r')) with (attempt_key r'). by rewrite Hk. }
  rewrite <- (length_map attempt_key (upsert _ _)), Hm, length_map. done.
Qed.
Lemma tabled_as im r r' : attempt_key r' = attempt_key r -> tabled im r -> tabled im r'.
Proof. unfold tabled. by intros ->. Qed.
Lemma tabled_kept im im' r : attempts im' = attempts im -> same_engine im im' -> tabled im r -> tabled im' r.
Proof. unfold tabled, max_attempts. by intros -> [-> _ _ _ _ _]. Qed.

Lemma thrives_update type r (Q : Status -> EngineImpl -> Prop) im : writable im r -> attempt_type_ok type r -> tabled im r ->
  (forall im' seq, same_engine im im' -> workable im' -> attempts im' = upsert (set_at_update_seq seq r) (attempts im) ->
     Q status_success im') ->
  thrives 1 (commit_update type r) Q im.
Proof.
  intros [Hr He] Hok [Hk Hl] HQ fs Ht Hroom. pose proof (thriving_store im fs Ht) as (s0 & Hs0 & _ & _ & _ & Ho & _).
  revert fs Ht Hroom. apply thrives_commit; [apply note_attempt_epoch|..].
  - intros s Hs. unfold engine_state in Hr, He. rewrite Hs in Hr, He.
    apply (sound_attempt _ r (fun seq => set_at_update_seq seq r)); [done..|by left].
  - apply (sized_fits 4096); [|done]. apply sized_attempt. by destruct Hr.
  - intros im' s seq Hse Hw Hs Ha. rewrite Hs0 in Hs. injection Hs as <-. apply (HQ im' seq); [done|done|].
    unfold attempts, engine_state in Hk, Hl |- *. rewrite Hs0 in Hk, Hl |- *. cbn [store_state] in *.
    rewrite <- (upsert_is_note (set_at_update_seq seq r) (sm_lineage s0)) in Ha; [exact Ha|exact Hk|].
    unfold sm_options in Ho. by rewrite Ho.
Qed.

Lemma thrives_commit_decision d (Q : FailoverDecision -> EngineImpl -> Prop) im : decision_wf d ->
  (forall d' im', same_engine im im' -> workable im' -> attempts im' = attempts im -> fd_outcome d' = fd_outcome d ->
     fd_durable d' = true -> Q d' im') ->
  thrives 1 (commit_decision d) Q im.
Proof.
  intros Hd HQ. apply (thrives_bind 1 0); [lia|]. apply thrives_commit; [done|..].
  - intros s _. by apply sound_decision.
  - apply (sized_fits 262144); [by apply sized_decision|done].
  - intros im' s seq Hse Hw Hs Ha _ _. apply (thrives_bind 0 0); [lia|]. apply thrives_get. intros _ _.
    apply thrives_ret. change (status_ok status_success) with true. cbv zeta. apply HQ; try done.
    unfold attempts at 2, engine_state. by rewrite Hs.
Qed.

Lemma thrives_checkpoint (Q : Result LineageSeq -> EngineImpl -> Prop) im :
  (forall v im', same_engine im im' -> workable im' -> attempts im' = attempts im -> Q (Success v) im') ->
  thrives 1 run_checkpoint Q im.
Proof.
  intros HQ fs Ht Hr. destruct (thriving_store im fs Ht) as (s & Hs & Hf & Hcl & Hsf & Ho & (snap & recs & Hi) & Hu).
  destruct Ht as (Hd & Hc & Hun & _).
  unfold last_seq, engine_state in Hr. rewrite Hs in Hr. cbn [store_state] in Hr.
  destruct (checkpoint_calm _ _ _ _ Hi Hf Hc Hr) as (v & s' & fs' & E & C).
  destruct (keeps_checkpoint (fun _ _ => True) im Hcl (fun _ _ _ _ => I) fs Hd) as (Hd' & Hse & _).
  destruct (etr_checkpoint im (fun _ tr _ => tr = []) (fun _ _ _ _ => eq_refl) fs) as (tr & [_ Hru] & ->).
  assert (Em : run_checkpoint im fs = ((Success v, set_im_store (Some s') im), fs')).
  { unfold run_checkpoint, iobind. rewrite Hs, E. reflexivity. }
  rewrite Em in *. cbn [fst snd] in *. cbn [im_store set_im_store] in Hru. rewrite Hs in Hru. destruct Hru as [Hev _].
  apply evolves_nil_inv, core_attempts in Hev.
  pose proof (checkpoint_image _ _ _ _ _ _ _ Hi Hf E) as [[v' _ Hf' _ _ Hq _ [[_ _ T3 _ _ _] _]|Hbad _ _ _ _]|(Hbad & _ & _)]; [|done..].
  split_and!; try done.
  - unfold last_seq, engine_state. rewrite Hs. cbn [store_state im_store set_im_store] in *. rewrite T3. cbn. lia.
  - apply HQ; [done|by eapply durable_workable|]. unfold attempts, engine_state. by rewrite Hs.
Qed.

Lemma thrives_maybe_checkpoint (Q : unit -> EngineImpl -> Prop) im :
  (forall im', same_engine im im' -> workable im' -> attempts im' = attempts im -> Q tt im') ->
  thrives 1 maybe_checkpoint Q im.
Proof.
  intros HQ fs Ht. pose proof (durable_workable _ _ (proj1 Ht)) as Hw. revert fs Ht.
  apply (thrives_bind 0 1); [lia|]. apply thrives_get. intros _ _. destruct (checkpoint_due im).
  - apply (thrives_bind 1 0); [lia|]. apply thrives_checkpoint. intros v im' Hs Hw' Ha _ _. by apply thrives_ret, HQ.
  - eapply thrives_weaken; [by apply thrives_ret, HQ|lia].
Qed.

Lemma thrives_finish d (Q : Result FailoverDecision -> EngineImpl -> Prop) im :
  (forall im', same_engine im im' -> attempts im' = attempts im -> Q (Success d) im') ->
  thrives 0 (eng* _ := remember_decision d in eret (Success d)) Q im.
Proof.
  intros HQ. apply (thrives_bind 0 0); [lia|]. apply thrives_modify; [done|done|done|by intros []; split|].
  intros Hs _. by apply thrives_ret, HQ.
Qed.

(** ** An attempt on its way *)
Definition found_at (im : EngineImpl) (r : AttemptRecord) : Prop :=
  find_attempt (engine_state im) (at_subject r) (at_attempt_seq r) = Some r.
(** The attempt is in the phase [p], its identity kept. *)
Definition reached (im : EngineImpl) (found : AttemptRecord) (p : AttemptPhase) : Prop :=
  exists r, find_attempt (engine_state im) (at_subject found) (at_attempt_seq found) = Some r /\ at_phase r = p /\
    at_attempt_id r = at_attempt_id found /\ tabled im r.

Lemma find_upsert r l : find_first (fun x => (bool_decide (at_subject x = at_subject r) && (at_attempt_seq x =? at_attempt_seq r))%bool)
  (upsert r l) = Some r.
Proof.
  assert (Hself : (bool_decide (at_subject r = at_subject r) && (at_attempt_seq r =? at_attempt_seq r))%bool = true).
  { by rewrite bool_decide_eq_true_2, Z.eqb_refl. }
  induction l as [|x l IH]; cbn [upsert]; [cbn; by rewrite Hself|].
  destruct (same_attempt x r) eqn:E; cbn [find_first]; [by rewrite Hself|].
  unfold same_attempt in E. by rewrite E.
Qed.

Lemma reached_update im im' found r seq : attempts im' = upsert (set_at_update_seq seq r) (attempts im) ->
  same_engine im im' -> tabled im found -> attempt_key r = attempt_key found -> at_attempt_id r = at_attempt_id found ->
  reached im' found (at_phase r).
Proof.
  intros Ha Hs Ht Hk Hid. exists (set_at_update_seq seq r). unfold find_attempt. fold (attempts im'). rewrite Ha.
  unfold attempt_key in Hk. injection Hk as Hk1 Hk2. rewrite <- Hk1, <- Hk2. split.
  - exact (find_upsert (set_at_update_seq seq r) _).
  - split; [done|]. split; [done|]. eapply (tabled_replaced im im' _ r seq); [done|done|done|].
    unfold tabled, attempt_key in *. cbn. by rewrite Hk1, Hk2.
Qed.
Lemma reached_kept im im' found p : attempts im' = attempts im -> same_engine im im' -> reached im found p -> reached im' found p.
Proof.
  intros Ha Hs (r & H1 & H2 & H3 & H4). exists r. unfold find_attempt in *. fold (attempts im') (attempts im) in *.
  rewrite Ha. split; [done|]. split; [done|]. split; [done|]. by eapply tabled_kept.
Qed.

Lemma thrives_open {A} n (m : EngM A) Q im :
  (unavailable im = None -> workable im -> thrives n m Q im) -> thrives n m Q im.
Proof. intros H fs Ht. apply H; [by destruct Ht as (_ & _ & ? & _)|by eapply durable_workable, Ht|done]. Qed.
Lemma thrives_tick {A} n (k : EngM A) Q im : 0 <= n ->
  (workable (advance_tick im) -> thrives n k Q (advance_tick im)) ->
  thrives n (eng* _ := emodify advance_tick in k) Q im.
Proof.
  intros Hn H. apply (thrives_bind 0 n); [done|]. apply thrives_modify; [done|done|done| |intros _ Hw; by apply H].
  intros []. split; try done. cbn. pose proof (Z.mod_pos_bound (im_tick im + 1) two64). ints.
Qed.

(** The tail that settles a decision after a completed update. *)
Lemma thrives_conclude d (Q : Result FailoverDecision -> EngineImpl -> Prop) im : decision_wf d ->
  (forall d' im', same_engine im im' -> attempts im' = attempts im -> fd_outcome d' = fd_outcome d ->
     fd_durable d' = true -> Q (Success d') im') ->
  thrives 2 (eng* d := commit_decision d in eng* _ := maybe_checkpoint in
             eng* _ := remember_decision d in eret (Success d)) Q im.
Proof.
  intros Hd HQ. apply (thrives_bind 1 1); [lia|]. apply thrives_commit_decision; [done|].
  intros d' im1 S1 W1 A1 O1 D1 _ _. apply (thrives_bind 1 0); [lia|]. apply thrives_maybe_checkpoint.
  intros im2 S2 W2 A2 _ _. apply thrives_finish. intros im3 S3 A3.
  apply HQ; [by do 2 (etrans; [eassumption|])|congruence|done|done].
Qed.

Definition reports (report : ApplicationReport) (found : AttemptRecord) : Prop :=
  application_report_wf report /\ ar_accepted report = true /\
  incarnation_is_zero (ar_applier_incarnation report) = false /\
  ar_subject report = at_subject found /\ ar_subject_generation report = at_subject_generation found /\
  ar_attempt_seq report = at_attempt_seq found /\ ar_attempt_id report = at_attempt_id found.
Definition accepted_phase (im : EngineImpl) : AttemptPhase :=
  if fp_require_verified_effect (ds_policy (engine_state im)) then AttemptPhase.Acknowledged else AttemptPhase.Committed.

Lemma thrives_application report found im : reports report found -> found_at im found ->
  at_phase found = AttemptPhase.Authorized -> tabled im found ->
  thrives 3 (record_application report) (fun r im' => exists d, r = Success d /\ fd_outcome d = Outcome.Ok /\
    fd_durable d = true /\ reached im' found (accepted_phase im)) im.
Proof.
  intros (Hwf & Hac & Hz & Hs & Hg & Hq & Hid) Hf Hp Ht. apply thrives_open. intros Hun Hw0.
  apply (thrives_bind 0 3); [lia|]. apply thrives_get. intros _ _. rewrite Hun. apply thrives_tick; [lia|]. intros Hw.
  assert (Hkey : attempt_key (application_update im report found) = attempt_key found) by (unfold application_update; by rewrite Hac).
  assert (Hcl : im_closed (advance_tick im) = false) by by apply unavailable_open in Hun.
  assert (Hwr : writable (advance_tick im) found) by (by eapply writable_found; [exact Hw|exact Hcl|reflexivity|exact Hf]).
  rewrite Hs, Hq. unfold found_at in Hf. rewrite Hf, Hg, Z.eqb_refl, Hid, bool_decide_eq_true_2 by done. cbn [negb]. rewrite Hz.
  change (accepted_phase im) with (accepted_phase (advance_tick im)).
  change (application_update im) with (application_update (advance_tick im)) in Hkey. change (tabled im found) with (tabled (advance_tick im) found) in Ht.
  set (im1 := advance_tick im) in *. clearbody im1. clear Hf Hun.
  apply (thrives_bind 0 3); [lia|]. apply thrives_get. intros _ _. cbv zeta.
  unfold application_late, phase_is. rewrite Hp. cbn [attempt_phase_is_terminal enum_eqb orb].
  apply (thrives_bind 1 2); [lia|].
  apply thrives_update; [by apply application_update_writable|apply update_type_ok|by apply (tabled_as im1 found)|].
  intros im2 seq S2 W2 A2 _ _. change (status_ok status_success) with true. cbn [negb].
  apply thrives_conclude.
  - eapply pd_typed, (application_decision_plain report _ 0); [|lia]. by apply plain_assertion, attempt_decision_plain.
  - intros d' im3 S3 A3 O3 D3. exists d'. split; [done|]. unfold application_decision in O3. rewrite Hac in O3.
    cbn [negb] in O3. split; [exact O3|]. split; [done|]. eapply (reached_kept im2); [done|done|].
    assert (Eph : at_phase (application_update im1 report found) = accepted_phase im1).
    { unfold application_update, accepted_phase. by rewrite Hac. }
    rewrite <- Eph. eapply (reached_update im1 im2 found _ seq); [exact A2|done|done|exact Hkey|].
    unfold application_update. by rewrite Hac.
Qed.

Definition verifies (report : VerificationReport) (found : AttemptRecord) : Prop :=
  verification_report_wf report /\ vr_effect_observed report = true /\ vr_subject report = at_subject found /\
  vr_attempt_seq report = at_attempt_seq found /\ vr_attempt_id report = at_attempt_id found.

Lemma thrives_verification report found im : verifies report found -> reached im found AttemptPhase.Acknowledged ->
  thrives 4 (record_verification report) (fun r im' => exists d, r = Success d /\ fd_outcome d = Outcome.Ok /\
    fd_durable d = true /\ reached im' found AttemptPhase.Committed) im.
Proof.
  intros (Hwf & Hob & Hs & Hq & Hid) (r0 & Hf & Hp & Hid0 & Ht). apply thrives_open. intros Hun Hw0.
  pose proof (find_attempt_Some _ _ _ _ Hf) as (_ & Hk1 & Hk2).
  apply (thrives_bind 0 4); [lia|]. apply thrives_get. intros _ _. rewrite Hun. apply thrives_tick; [lia|]. intros Hw.
  assert (Hcl : im_closed (advance_tick im) = false) by by apply unavailable_open in Hun.
  assert (Hwr : writable (advance_tick im) r0) by (by eapply writable_found; [exact Hw|exact Hcl|reflexivity|exact Hf]).
  assert (Hpl := attempt_decision_plain im r0 DecisionKind.Verify Hw0 ltac:(by eapply writable_found; [exact Hw0|apply unavailable_open, Hun|reflexivity|exact Hf])).
  rewrite Hs, Hq, Hf, Hid, Hid0, bool_decide_eq_true_2 by done. cbn [negb]. cbv zeta.
  change (tabled im r0) with (tabled (advance_tick im) r0) in Ht.
  set (im1 := advance_tick im) in *. clearbody im1.
  unfold verification_late, phase_is. rewrite Hp. cbn [enum_eqb orb negb]. rewrite Hob. cbn [negb].
  unfold verify_observed. cbv zeta. apply (thrives_bind 1 3); [lia|].
  apply thrives_update; [by apply writable_push, writable_phase|done|done|].
  intros im2 seq S2 W2 A2 _ _. change (status_ok status_success) with true. cbn [negb].
  apply (thrives_bind 1 2); [lia|].
  apply thrives_update; [by eapply writable_later, writable_phase, writable_push, writable_phase|done| |].
  { eapply (tabled_replaced im1 im2 _ _ seq); [exact A2|done|done|exact Ht]. }
  intros im3 seq3 S3 W3 A3 _ _. change (status_ok status_success) with true. cbn [negb].
  apply thrives_conclude; [exact (proj1 (plain_last _ _ _ (plain_asserted _ _ _ _ Hpl)))|].
  intros d' im4 S4 A4 O4 D4. exists d'. split; [done|]. split; [exact O4|]. split; [done|].
  eapply (reached_kept im3); [done|done|]. 
  assert (Hr : reached im3 r0 AttemptPhase.Committed).
  { refine (reached_update im2 im3 r0 (set_at_phase AttemptPhase.Committed _) seq3 A3 S3 _ _ _); [|done|done].
    eapply (tabled_replaced im1 im2 _ _ seq); [exact A2|done|done|exact Ht]. }
  destruct Hr as (r & H1 & H2 & H3 & H4). exists r. rewrite <- Hk1, <- Hk2, <- Hid0. done.
Qed.

(** C9: an authorized attempt can always be completed. On a quiet medium, with a
    working store that has room in its sequence space, the acceptance of its applier
    is recorded and answered Ok; where the policy asks for a verified effect the
    attempt is then Acknowledged and a verification that observed the effect is
    recorded and answered Ok too; at the end the attempt is Committed. The Ok of an
    acceptance that is not verified yet is what record_application answers; README.md
    (invariant 7) and the comment on require_verified_effect in policy.hpp announce
    Outcome::Indeterminate there. *)
Theorem authorized_attempt_commits im fs found report verification :
  thriving im fs -> ds_last_seq (engine_state im) + 7 < two64 ->
  find_attempt (engine_state im) (at_subject found) (at_attempt_seq found) = Some found ->
  at_phase found = AttemptPhase.Authorized ->
  (length (ds_attempts (engine_state im)) <= lm_max_attempts (eo_limits (im_options im)))%nat ->
  reports report found -> verifies verification found ->
  exists d1 im1 fs1, record_application report im fs = (Success d1, im1, fs1) /\
    fd_outcome d1 = Outcome.Ok /\ fd_durable d1 = true /\
    (if fp_require_verified_effect (ds_policy (engine_state im))
     then reached im1 found AttemptPhase.Acknowledged /\
       exists d2 im2 fs2, record_verification verification im1 fs1 = (Success d2, im2, fs2) /\
         fd_outcome d2 = Outcome.Ok /\ fd_durable d2 = true /\ reached im2 found AttemptPhase.Committed
     else reached im1 found AttemptPhase.Committed).
Proof.
  intros Ht Hroom Hf Hp Hlen Hrep Hver.
  assert (Htab : tabled im found).
  { split; [|done]. apply elem_of_keys. exists found. split; [|done]. by apply find_attempt_Some in Hf as (? & _). }
  destruct (thrives_application report found im Hrep Hf Hp Htab fs Ht) as (T1 & _ & L1 & d1 & E1 & O1 & D1 & R1);
    [unfold last_seq; lia|].
  destruct (record_application report im fs) as [[r1 im1] fs1]. cbn [fst snd] in *. subst r1.
  exists d1, im1, fs1. split; [done|]. split; [done|]. split; [done|]. unfold accepted_phase in R1.
  destruct (fp_require_verified_effect _); [|done]. split; [done|].
  destruct (thrives_verification verification found im1 Hver R1 fs1 T1) as (_ & _ & _ & d2 & E2 & O2 & D2 & R2);
    [unfold last_seq in *; lia|].
  destruct (record_verification verification im1 fs1) as [[r2 im2] fs2]. cbn [fst snd] in *. subst r2.
  by exists d2, im2, fs2.
Qed.
