(* ===== verification/Wire.v ===== *)
(** * Framed transport codec

    Models include/lff/wire.hpp and src/wire.cpp: the 20-byte frame header with
    its checksum, the streaming decoder with sticky failure, and the bodies the
    client and the server exchange. The frame handler of the source is a callback
    that captures the session; here it is a function that threads that state.

    The theorems relate the decoder to the list of frames a peer encoded: any
    chunking of the stream that fits the buffer bound delivers exactly those
    frames in order, whatever is delivered was encoded by [encode_frame], and a
    corrupted byte outside the length field is never delivered. *)
From S2P Require Import Prelude Status Hash Ids Bytes Evidence Policy Authority Attempt Decision.
From S2P Require Import Selector Fs Journal State Store Intake Engine.

Definition kFrameHeaderSize : Z := 20.
Definition kMaxFramePayload : Z := 1048576.
Definition kDefaultFramePayload : Z := 262144.
Definition kWireProtocolVersion : Z := 1.
Definition kMessageTypeCount : Z := 16.

(** ** Message types *)
Module MessageType.
Inductive MessageType :=
| Hello
| HelloAck
| Response
| PublishFailure
| PublishReplacement
| SetPolicy
| SetTopology
| RequestFailover
| RequestRollback
| ReportApplication
| ReportVerification
| ResolveInterrupted
| Inspect
| ClaimDirective
| Shutdown
| Ping.
End MessageType.
Abbreviation MessageType := MessageType.MessageType.
#[global] Instance message_type_eq_dec : EqDecision MessageType.
Proof. solve_decision. Defined.

(** The enumerators' values. *)
Definition message_type_code (value : MessageType) : Z :=
  match value with
  | MessageType.Hello => 1
  | MessageType.HelloAck => 2
  | MessageType.Response => 3
  | MessageType.PublishFailure => 10
  | MessageType.PublishReplacement => 11
  | MessageType.SetPolicy => 12
  | MessageType.SetTopology => 13
  | MessageType.RequestFailover => 20
  | MessageType.RequestRollback => 21
  | MessageType.ReportApplication => 22
  | MessageType.ReportVerification => 23
  | MessageType.ResolveInterrupted => 24
  | MessageType.Inspect => 25
  | MessageType.ClaimDirective => 30
  | MessageType.Shutdown => 40
  | MessageType.Ping => 41
  end.

Definition kMessageNames : list (MessageType * string) := [
  (MessageType.Hello, "Hello");
  (MessageType.HelloAck, "HelloAck");
  (MessageType.Response, "Response");
  (MessageType.PublishFailure, "PublishFailure");
  (MessageType.PublishReplacement, "PublishReplacement");
  (MessageType.SetPolicy, "SetPolicy");
  (MessageType.SetTopology, "SetTopology");
  (MessageType.RequestFailover, "RequestFailover");
  (MessageType.RequestRollback, "RequestRollback");
  (MessageType.ReportApplication, "ReportApplication");
  (MessageType.ReportVerification, "ReportVerification");
  (MessageType.ResolveInterrupted, "ResolveInterrupted");
  (MessageType.Inspect, "Inspect");
  (MessageType.ClaimDirective, "ClaimDirective");
  (MessageType.Shutdown, "Shutdown");
  (MessageType.Ping, "Ping")
].

Definition message_type_name (value : MessageType) : string :=
  match List.find (fun e => bool_decide (e.1 = value)) kMessageNames with
  | Some e => e.2
  | None => "UnrecognisedMessageType"
  end.
Definition message_type_parse (text : string) : option MessageType :=
  option_map fst (List.find (fun e => bool_decide (e.2 = text)) kMessageNames).
Definition message_type_is_known (raw : Z) : bool :=
  existsb (fun e => message_type_code e.1 =? raw) kMessageNames.

(** [static_cast<MessageType>(raw)], which the decoder applies to a known value. *)
Definition message_type_cast (raw : Z) : MessageType :=
  default MessageType.Ping
    (option_map fst (List.find (fun e => message_type_code e.1 =? raw) kMessageNames)).

(** ** Frames *)
Record FrameHeader := MkFrameHeader {
  fh_version : Z;
  fh_type : MessageType;
  fh_flags : Z;
  fh_length : Z;
  fh_crc : Z;
}.

(** The bytes ['L' 'F' 'F' '1']. *)
Definition kMagic : bytes := [76; 70; 70; 49].

(** The stores of [encode_frame] at ascending offsets, up to the checksum field. *)
Definition frame_prefix (type : MessageType) (flags : Z) (payload : bytes) : bytes :=
  kMagic ++ le_bytes 2 kWireProtocolVersion ++ le_bytes 2 (message_type_code type) ++
  le_bytes 2 flags ++ le_bytes 2 0 ++ le_bytes 4 (Z.of_nat (length payload)).

Definition encode_frame (type : MessageType) (flags : Z) (payload : bytes) (max_payload : Z) :
    Result bytes :=
  let max_payload := if max_payload >? kMaxFramePayload then kMaxFramePayload else max_payload in
  if Z.of_nat (length payload) >? max_payload
  then Failure (status_add (status_failure Outcome.LimitExceeded ReasonCode.FrameTooLarge
         "frame payload exceeds the negotiated maximum")
         ReasonCode.InvalidArgument (decimal_text (Z.of_nat (length payload))))
  else if negb (flags =? 0)
  then fail Outcome.Invalid ReasonCode.ReservedBitsSet "frame flags must be zero"
  else Success (frame_prefix type flags payload ++
         le_bytes 4 (crc32c_concat 0 (frame_prefix type flags payload) payload) ++ payload).

(** ** FrameDecoder *)
Record FrameDecoder := MkDecoder {
  fd_max_payload : Z;
  fd_buffer : bytes;
  fd_failed : bool;
  fd_failure : Status;
}.
Definition decoder_new (max_payload : Z) : FrameDecoder := MkDecoder max_payload [] false status_success.
Definition decoder_buffered (d : FrameDecoder) : Z := Z.of_nat (length (fd_buffer d)).
Definition decoder_reset (d : FrameDecoder) : FrameDecoder :=
  MkDecoder (fd_max_payload d) [] false status_success.
Definition decoder_fail (d : FrameDecoder) (s : Status) : FrameDecoder :=
  MkDecoder (fd_max_payload d) (fd_buffer d) true s.

(** One iteration of the loop of [push] on the bytes from [offset] on. *)
Inductive FrameStep :=
  | NeedMore
  | Refused (s : Status)
  | Frame (header : FrameHeader) (payload : bytes).

Definition refused_value (o : Outcome) (code : ReasonCode) (detail : string) (v : Z) : FrameStep :=
  Refused (status_add (status_failure o code detail) ReasonCode.InvalidArgument (decimal_text v)).

Definition frame_step (max_payload : Z) (data : bytes) : FrameStep :=
  if Z.of_nat (length data) <? kFrameHeaderSize then NeedMore
  else if negb (bool_decide (take 4 data = kMagic))
  then Refused (status_failure Outcome.Invalid ReasonCode.MalformedEncoding "frame magic mismatch")
  else let version := load_u16 data 4 in
  if negb (version =? kWireProtocolVersion)
  then refused_value Outcome.Unsupported ReasonCode.ProtocolVersionMismatch
         "unsupported protocol version" version
  else let raw_type := load_u16 data 6 in
  if negb (message_type_is_known raw_type)
  then refused_value Outcome.Unsupported ReasonCode.UnknownMessageType "unknown message type" raw_type
  else if (negb (load_u16 data 8 =? 0) || negb (load_u16 data 10 =? 0))%bool
  then Refused (status_failure Outcome.Invalid ReasonCode.ReservedBitsSet
                  "frame flags and reserved fields must be zero")
  else let size := load_u32 data 12 in
  if size >? max_payload
  then refused_value Outcome.LimitExceeded ReasonCode.FrameTooLarge
         "declared frame payload exceeds the negotiated maximum" size
  else if Z.of_nat (length data) <? kFrameHeaderSize + size then NeedMore
  else let expected_crc := load_u32 data 16 in
  let payload := take (Z.to_nat size) (drop 20 data) in
  if negb (expected_crc =? crc32c_concat 0 (take 16 data) payload)
  then Refused (status_failure Outcome.Corrupt ReasonCode.ChecksumMismatch "frame checksum mismatch")
  else Frame (MkFrameHeader version (message_type_cast raw_type) 0 size expected_crc) payload.

(** The loop. A frame takes at least its header, so [length data] iterations are
    enough; [push_loop_fuel] proves it. *)
Fixpoint push_loop {St} (on_frame : FrameHeader -> bytes -> St -> St) (fuel : nat)
    (max_payload : Z) (data : bytes) (st : St) : option Status * bytes * St :=
  match fuel with
  | O => (None, data, st)
  | S fuel =>
      match frame_step max_payload data with
      | NeedMore => (None, data, st)
      | Refused s => (Some s, data, st)
      | Frame header payload =>
          push_loop on_frame fuel max_payload (drop (20 + length payload) data)
            (on_frame header payload st)
      end
  end.

(** [FrameDecoder::push]. On a refusal the buffer keeps the delivered frames; it
    is never looked at again. *)
Definition decoder_push {St} (on_frame : FrameHeader -> bytes -> St -> St) (d : FrameDecoder)
    (chunk : bytes) (st : St) : Status * FrameDecoder * St :=
  if fd_failed d then (fd_failure d, d, st)
  else if Z.of_nat (length (fd_buffer d)) + Z.of_nat (length chunk) >? fd_max_payload d + kFrameHeaderSize
  then let s := status_failure Outcome.LimitExceeded ReasonCode.FrameTooLarge
                  "framing buffer exceeds the negotiated maximum" in
       (s, decoder_fail d s, st)
  else let buffer := fd_buffer d ++ chunk in
  match push_loop on_frame (S (length buffer)) (fd_max_payload d) buffer st with
  | (Some s, _, st) =>
      (s, decoder_fail (MkDecoder (fd_max_payload d) buffer false (fd_failure d)) s, st)
  | (None, rest, st) => (status_success, MkDecoder (fd_max_payload d) rest false (fd_failure d), st)
  end.

(** ** Messages *)
Record SessionEnvelope := MkEnvelope {
  se_session_id : Z;
  se_epoch : Epoch;
  se_incarnation : Incarnation;
  se_seq : Z;
}.
Definition envelope_encode (e : SessionEnvelope) : WriteM := writes [
  wr_u64 (se_session_id e); wr_u64 (se_epoch e); wr_incarnation (se_incarnation e); wr_u64 (se_seq e)].
Definition envelope_decode : ReadM (option SessionEnvelope) :=
  let* session_id := rd_u64 in
  let* epoch := rd_u64 in
  let* incarnation := rd_incarnation in
  let* seq := rd_u64 in
  let* ok := rd_is_ok in
  if negb ok then rret None else rret (Some (MkEnvelope session_id epoch incarnation seq)).
Definition envelope_wf (e : SessionEnvelope) : Prop :=
  is_u64 (se_session_id e) /\ is_u64 (se_epoch e) /\ incarnation_wf (se_incarnation e) /\
  is_u64 (se_seq e).
#[global] Program Instance envelope_codec : Codec SessionEnvelope := {|
  encode := envelope_encode; decode := envelope_decode; codec_wf := envelope_wf |}.
Next Obligation. intros []. codec_law_solve. apply reads_ret. Qed.
Next Obligation. unfold envelope_decode. steady_solve. Qed.
Next Obligation. unfold envelope_decode. checked_solve. Qed.

Record HelloRequest := MkHello {
  hq_protocol_version : Z;
  hq_client_incarnation : Incarnation;
  hq_client_epoch : Epoch;
  hq_role : string;
}.
Definition hello_request_encode (h : HelloRequest) : WriteM := writes [
  wr_u16 kWireProtocolVersion; wr_u16 (hq_protocol_version h);
  wr_incarnation (hq_client_incarnation h); wr_u64 (hq_client_epoch h); wr_str_max (hq_role h) 64].
Definition hello_request_decode : ReadM (option HelloRequest) :=
  let* envelope_version := rd_u16 in
  let* protocol_version := rd_u16 in
  let* client_incarnation := rd_incarnation in
  let* client_epoch := rd_u64 in
  let* role := rd_str_max 64 in
  let* ok := rd_is_ok in
  if (negb ok || negb (envelope_version =? kWireProtocolVersion))%bool then rret None
  else if negb (protocol_version =? kWireProtocolVersion) then rret None
  else rret (Some (MkHello protocol_version client_incarnation client_epoch role)).
Definition hello_request_wf (h : HelloRequest) : Prop :=
  hq_protocol_version h = kWireProtocolVersion /\ incarnation_wf (hq_client_incarnation h) /\
  is_u64 (hq_client_epoch h) /\ Z.of_nat (String.length (hq_role h)) <= 64.

Lemma wire_version_u16 : is_u16 kWireProtocolVersion.
Proof. unfold kWireProtocolVersion. ints. Qed.
#[export] Hint Resolve wire_version_u16 : codec.

#[global] Program Instance hello_request_codec : Codec HelloRequest := {|
  encode := hello_request_encode; decode := hello_request_decode; codec_wf := hello_request_wf |}.
Next Obligation.
  intros [v ? ? ?] (Hv & ? & ? & ?). cbn in *. subst v.
  eexists; split.
  - unfold hello_request_encode; cbn. emits_fields.
  - unfold hello_request_decode. reads_fields. apply reads_ret.
Qed.
Next Obligation. unfold hello_request_decode. steady_solve. Qed.
Next Obligation. unfold hello_request_decode. checked_solve. Qed.

Record HelloResponse := MkHelloResponse {
  hr_protocol_version : Z;
  hr_epoch : Epoch;
  hr_coordinator : Incarnation;
  hr_session_id : Z;
  hr_max_payload : Z;
  hr_server_tick : Z;
}.
Definition hello_response_encode (h : HelloResponse) : WriteM := writes [
  wr_u16 kWireProtocolVersion; wr_u16 (hr_protocol_version h); wr_u64 (hr_epoch h);
  wr_incarnation (hr_coordinator h); wr_u64 (hr_session_id h); wr_u32 (hr_max_payload h);
  wr_u64 (hr_server_tick h)].
Definition hello_response_decode : ReadM (option HelloResponse) :=
  let* envelope_version := rd_u16 in
  let* protocol_version := rd_u16 in
  let* epoch := rd_u64 in
  let* coordinator := rd_incarnation in
  let* session_id := rd_u64 in
  let* max_payload := rd_u32 in
  let* server_tick := rd_u64 in
  let* ok := rd_is_ok in
  if (negb ok || negb (envelope_version =? kWireProtocolVersion))%bool then rret None
  else if negb (protocol_version =? kWireProtocolVersion) then rret None
  else if ((max_payload =? 0) || (max_payload >? kMaxFramePayload))%bool then rret None
  else rret (Some (MkHelloResponse protocol_version epoch coordinator session_id max_payload server_tick)).
Definition hello_response_wf (h : HelloResponse) : Prop :=
  hr_protocol_version h = kWireProtocolVersion /\ is_u64 (hr_epoch h) /\
  incarnation_wf (hr_coordinator h) /\ is_u64 (hr_session_id h) /\
  0 < hr_max_payload h <= kMaxFramePayload /\ is_u64 (hr_server_tick h).

Lemma frame_payload_u32 n : 0 < n <= kMaxFramePayload -> is_u32 n.
Proof. unfold kMaxFramePayload. ints. Qed.
Lemma frame_payload_nonzero n : 0 < n <= kMaxFramePayload -> (n =? 0) = false.
Proof. intros H. apply Z.eqb_neq. lia. Qed.

#[global] Program Instance hello_response_codec : Codec HelloResponse := {|
  encode := hello_response_encode; decode := hello_response_decode; codec_wf := hello_response_wf |}.
Next Obligation.
  intros [v ? ? ? m ?] (Hv & ? & ? & ? & Hm & ?). cbn in *. subst v.
  pose proof (frame_payload_u32 m Hm). pose proof (frame_payload_nonzero m Hm).
  assert (m <= kMaxFramePayload) by lia. eexists; split.
  - unfold hello_response_encode; cbn. emits_fields.
  - unfold hello_response_decode. reads_fields. apply reads_ret.
Qed.
Next Obligation. unfold hello_response_decode. steady_solve. Qed.
Next Obligation. unfold hello_response_decode. checked_solve. Qed.

Record ResponseEnvelope := MkResponse {
  re_op : Z;
  re_outcome : Outcome;
  re_reasons : list Reason;
}.
Definition response_encode (e : ResponseEnvelope) : WriteM := writes [
  wr_u16 kWireProtocolVersion; wr_u16 (re_op e); wr_u16 (enum_code (re_outcome e));
  wr_u32 (Z.of_nat (length (re_reasons e))); wr_each encode (re_reasons e)].
Definition response_decode : ReadM (option ResponseEnvelope) :=
  let* envelope_version := rd_u16 in
  let* op := rd_u16 in
  let* outcome := rd_u16 in
  let* count := rd_u32 in
  let* ok := rd_is_ok in
  if (negb ok || negb (envelope_version =? kWireProtocolVersion))%bool then rret None
  else if ((outcome >=? kOutcomeCount) || (count >? Z.of_nat kMaxReasons))%bool then rret None
  else let* reasons := rd_each (Z.to_nat count) decode in
  ropt reasons (fun reasons =>
  let* ok := rd_is_ok in
  if negb ok then rret None
  else rret (Some (MkResponse op (enum_cast Outcome.Ok outcome) reasons))).
Definition response_wf (e : ResponseEnvelope) : Prop :=
  is_u16 (re_op e) /\ count_wf (Z.of_nat kMaxReasons) (re_reasons e) /\
  Forall reason_wf (re_reasons e).
#[global] Program Instance response_codec : Codec ResponseEnvelope := {|
  encode := response_encode; decode := response_decode; codec_wf := response_wf |}.
Next Obligation.
  intros []. codec_law_solve. rewrite enum_cast_code. apply reads_ret.
Qed.
Next Obligation. unfold response_decode. steady_solve. Qed.
Next Obligation. unfold response_decode. checked_solve. Qed.
(** The only decoder of the file that leaves what follows to its caller: the body
    of the response. *)
Definition decode_response (data : bytes) : option ResponseEnvelope := (decode (reader_of data)).1.

Record ClaimRequest := MkClaimRequest { cq_max_count : nat }.
Definition claim_request_encode (q : ClaimRequest) : WriteM := writes [
  wr_u16 kWireProtocolVersion; wr_u32 (Z.of_nat (cq_max_count q))].
Definition claim_request_decode : ReadM (option ClaimRequest) :=
  let* envelope_version := rd_u16 in
  let* count := rd_u32 in
  let* ok := rd_is_ok in
  if (negb ok || negb (envelope_version =? kWireProtocolVersion))%bool then rret None
  else if ((count =? 0) || (count >? 64))%bool then rret None
  else rret (Some (MkClaimRequest (Z.to_nat count))).
Definition claim_request_wf (q : ClaimRequest) : Prop := (1 <= cq_max_count q <= 64)%nat.
#[global] Program Instance claim_request_codec : Codec ClaimRequest := {|
  encode := claim_request_encode; decode := claim_request_decode; codec_wf := claim_request_wf |}.
Next Obligation.
  intros [c] Hc. unfold claim_request_wf in Hc. cbn in Hc.
  assert (Z.of_nat c <= 64 /\ is_u32 (Z.of_nat c)) as [? ?] by ints.
  assert ((Z.of_nat c =? 0) = false) by (apply Z.eqb_neq; lia). eexists; split.
  - unfold claim_request_encode; cbn. emits_fields.
  - unfold claim_request_decode. reads_fields. rewrite Nat2Z.id. apply reads_ret.
Qed.
Next Obligation. unfold claim_request_decode. steady_solve. Qed.
Next Obligation. unfold claim_request_decode. checked_solve. Qed.

Record ClaimResponse := MkClaimResponse { cr_directives : list ApplyDirective }.
Definition claim_response_encode (r : ClaimResponse) : WriteM := writes [
  wr_u16 kWireProtocolVersion; wr_u32 (Z.of_nat (length (cr_directives r)));
  wr_each encode (cr_directives r)].
Definition claim_response_decode : ReadM (option ClaimResponse) :=
  let* envelope_version := rd_u16 in
  let* count := rd_u32 in
  let* ok := rd_is_ok in
  if (negb ok || negb (envelope_version =? kWireProtocolVersion))%bool then rret None
  else if count >? 64 then rret None
  else let* directives := rd_each (Z.to_nat count) decode in
  ropt directives (fun directives =>
  let* ok := rd_is_ok in
  if negb ok then rret None else rret (Some (MkClaimResponse directives))).
Definition claim_response_wf (r : ClaimResponse) : Prop :=
  count_wf 64 (cr_directives r) /\ Forall codec_wf (cr_directives r).
#[global] Program Instance claim_response_codec : Codec ClaimResponse := {|
  encode := claim_response_encode; decode := claim_response_decode; codec_wf := claim_response_wf |}.
Next Obligation. intros []. codec_law_solve. apply reads_ret. Qed.
Next Obligation. unfold claim_response_decode. steady_solve. Qed.
Next Obligation. unfold claim_response_decode. checked_solve. Qed.

Record InspectRequest := MkInspectRequest { iq_history_limit : nat }.
Definition inspect_request_encode (q : InspectRequest) : WriteM := writes [
  wr_u16 kWireProtocolVersion; wr_u32 (Z.of_nat (iq_history_limit q))].
Definition inspect_request_decode : ReadM (option InspectRequest) :=
  let* envelope_version := rd_u16 in
  let* limit := rd_u32 in
  let* ok := rd_is_ok in
  if (negb ok || negb (envelope_version =? kWireProtocolVersion))%bool then rret None
  else if limit >? 256 then rret None
  else rret (Some (MkInspectRequest (Z.to_nat limit))).
Definition inspect_request_wf (q : InspectRequest) : Prop := (iq_history_limit q <= 256)%nat.
#[global] Program Instance inspect_request_codec : Codec InspectRequest := {|
  encode := inspect_request_encode; decode := inspect_request_decode; codec_wf := inspect_request_wf |}.
Next Obligation.
  intros [c] Hc. unfold inspect_request_wf in Hc. cbn in Hc.
  assert (Z.of_nat c <= 256 /\ is_u32 (Z.of_nat c)) as [? ?] by ints. eexists; split.
  - unfold inspect_request_encode; cbn. emits_fields.
  - unfold inspect_request_decode. reads_fields. rewrite Nat2Z.id. apply reads_ret.
Qed.
Next Obligation. unfold inspect_request_decode. steady_solve. Qed.
Next Obligation. unfold inspect_request_decode. checked_solve. Qed.

(** ** The engine view *)
Definition wr_count (n : nat) : WriteM := wr_u64 (Z.of_nat n).
Definition engine_view_encode (v : EngineView) : WriteM := writes [
  wr_u16 kWireProtocolVersion; wr_str (vw_fabric v); wr_u64 (vw_epoch v);
  wr_incarnation (vw_coordinator v); wr_u64 (vw_policy_generation v);
  wr_u64 (vw_topology_generation v); wr_digest (vw_policy_digest v); wr_digest (vw_topology_digest v);
  wr_u64 (vw_boot_count v); wr_u64 (vw_last_seq v); wr_count (vw_tracked_publishers v);
  wr_u64 (vw_evidence_entries v); wr_count (vw_retained_attempts v); wr_count (vw_retained_fences v);
  wr_count (vw_retained_decisions v); wr_count (vw_pending_directives v);
  wr_count (vw_active_authorities v); wr_count (vw_interrupted_attempts v);
  wr_bool8 (vw_store_failed v);
  wr_u32 (Z.of_nat (length (vw_recent_attempts v))); wr_each encode (vw_recent_attempts v);
  wr_u32 (Z.of_nat (length (vw_recent_fences v))); wr_each encode (vw_recent_fences v)].

Definition kMaxViewCount : Z := 1000000.
Definition engine_view_decode : ReadM (option EngineView) :=
  let* envelope_version := rd_u16 in
  let* fabric := rd_str in
  let* epoch := rd_u64 in
  let* coordinator := rd_incarnation in
  let* policy_generation := rd_u64 in
  let* topology_generation := rd_u64 in
  let* policy_digest := rd_digest in
  let* topology_digest := rd_digest in
  let* boot_count := rd_u64 in
  let* last_seq := rd_u64 in
  let* tracked := rd_u64 in
  let* evidence := rd_u64 in
  let* attempts := rd_u64 in
  let* fences := rd_u64 in
  let* decisions := rd_u64 in
  let* pending := rd_u64 in
  let* active := rd_u64 in
  let* interrupted := rd_u64 in
  let* store_failed := rd_bool8 in
  let* ok := rd_is_ok in
  if (negb ok || negb (envelope_version =? kWireProtocolVersion))%bool then rret None else
  ropt (result_value (name_parse fabric)) (fun fabric =>
  if ((tracked >? kMaxViewCount) || (evidence >? kMaxViewCount) || (attempts >? kMaxViewCount) ||
      (fences >? kMaxViewCount) || (decisions >? kMaxViewCount) || (pending >? kMaxViewCount) ||
      (active >? kMaxViewCount) || (interrupted >? kMaxViewCount))%bool then rret None else
  let* attempt_count := rd_u32 in
  let* ok := rd_is_ok in
  if (negb ok || (attempt_count >? 256))%bool then rret None else
  let* recent_attempts := rd_each (Z.to_nat attempt_count) decode in
  ropt recent_attempts (fun recent_attempts =>
  let* fence_count := rd_u32 in
  let* ok := rd_is_ok in
  if (negb ok || (fence_count >? 256))%bool then rret None else
  let* recent_fences := rd_each (Z.to_nat fence_count) decode in
  ropt recent_fences (fun recent_fences =>
  let* ok := rd_is_ok in
  if negb ok then rret None else
  rret (Some (MkEngineView fabric epoch coordinator policy_generation topology_generation policy_digest
    topology_digest boot_count last_seq (Z.to_nat tracked) evidence (Z.to_nat attempts)
    (Z.to_nat fences) (Z.to_nat decisions) (Z.to_nat pending) (Z.to_nat active)
    (Z.to_nat interrupted) store_failed recent_attempts recent_fences))))).

Definition view_count (n : nat) : Prop := Z.of_nat n <= kMaxViewCount.
Record engine_view_wf (v : EngineView) : Prop := {
  vwf_fabric : is_valid_name (vw_fabric v) = true;
  vwf_epoch : is_u64 (vw_epoch v);
  vwf_coordinator : incarnation_wf (vw_coordinator v);
  vwf_policy_generation : is_u64 (vw_policy_generation v);
  vwf_topology_generation : is_u64 (vw_topology_generation v);
  vwf_policy_digest : digest_wf (vw_policy_digest v);
  vwf_topology_digest : digest_wf (vw_topology_digest v);
  vwf_boot_count : is_u64 (vw_boot_count v);
  vwf_last_seq : is_u64 (vw_last_seq v);
  vwf_tracked : view_count (vw_tracked_publishers v);
  vwf_evidence : 0 <= vw_evidence_entries v <= kMaxViewCount;
  vwf_attempts : view_count (vw_retained_attempts v);
  vwf_fences : view_count (vw_retained_fences v);
  vwf_decisions : view_count (vw_retained_decisions v);
  vwf_pending : view_count (vw_pending_directives v);
  vwf_active : view_count (vw_active_authorities v);
  vwf_interrupted : view_count (vw_interrupted_attempts v);
  vwf_recent_attempts : count_wf 256 (vw_recent_attempts v) /\ Forall codec_wf (vw_recent_attempts v);
  vwf_recent_fences : count_wf 256 (vw_recent_fences v) /\ Forall codec_wf (vw_recent_fences v);
}.

Lemma view_count_u64 n : view_count n -> is_u64 (Z.of_nat n).
Proof. unfold view_count, kMaxViewCount. ints. Qed.
Lemma view_count_le n : view_count n -> Z.of_nat n <= kMaxViewCount.
Proof. done. Qed.
Lemma view_amount_u64 n : 0 <= n <= kMaxViewCount -> is_u64 n.
Proof. unfold kMaxViewCount. ints. Qed.
Lemma view_amount_le n : 0 <= n <= kMaxViewCount -> n <= kMaxViewCount.
Proof. lia. Qed.
Lemma emits_count n : emits (wr_count n) (le_bytes 8 (Z.of_nat n)).
Proof. apply emits_u64. Qed.
#[export] Hint Resolve view_count_u64 view_count_le view_amount_u64 view_amount_le emits_count : codec.

#[global] Program Instance engine_view_codec : Codec EngineView := {|
  encode := engine_view_encode; decode := engine_view_decode; codec_wf := engine_view_wf |}.
Next Obligation.
  intros v [? ? ? ? ? ? ? ? ? ? ? ? ? ? ? ? ? [? ?] [? ?]]. destruct v. cbn in *. eexists; split.
  - unfold engine_view_encode; cbn. emits_fields.
  - unfold engine_view_decode. reads_fields. rewrite !Nat2Z.id. apply reads_ret.
Qed.
Next Obligation. unfold engine_view_decode. steady_solve. Qed.
Next Obligation. unfold engine_view_decode. checked_solve. Qed.

Definition encode_engine_view (v : EngineView) : bytes := encode_payload v.
Definition decode_engine_view (data : bytes) : option EngineView := decode_payload data.

Arguments frame_prefix : simpl never.
Arguments push_loop : simpl never.
Arguments frame_step : simpl never.

(** ** The abstract stream: a list of typed payloads *)
Definition WireFrame : Type := MessageType * bytes.
Definition frame_crc (f : WireFrame) : Z := crc32c (frame_prefix f.1 0 f.2 ++ f.2).
Definition frame_image (f : WireFrame) : bytes :=
  frame_prefix f.1 0 f.2 ++ le_bytes 4 (frame_crc f) ++ f.2.
Definition frame_header (f : WireFrame) : FrameHeader :=
  MkFrameHeader kWireProtocolVersion f.1 0 (Z.of_nat (length f.2)) (frame_crc f).
Definition frame_ok (bound : Z) (f : WireFrame) : Prop :=
  Z.of_nat (length f.2) <= bound /\ Z.of_nat (length f.2) <= kMaxFramePayload.
Definition stream_image (fs : list WireFrame) : bytes := concat (map frame_image fs).
(** What the handler does on a list of frames. *)
Definition deliver {St} (on_frame : FrameHeader -> bytes -> St -> St) (fs : list WireFrame) (st : St) : St :=
  foldl (fun st f => on_frame (frame_header f) f.2 st) st fs.

Lemma message_type_known t : message_type_is_known (message_type_code t) = true.
Proof. by destruct t. Qed.
Lemma message_type_cast_code t : message_type_cast (message_type_code t) = t.
Proof. by destruct t. Qed.
Lemma message_type_code_cast raw :
  message_type_is_known raw = true -> message_type_code (message_type_cast raw) = raw.
Proof.
  unfold message_type_is_known. intros H. apply existsb_exists in H as ((t & n) & Hin & H).
  cbn in H. apply Z.eqb_eq in H as <-. by rewrite message_type_cast_code.
Qed.
Lemma message_type_code_u16 t : is_u16 (message_type_code t).
Proof. destruct t; cbn; ints. Qed.

Lemma frame_prefix_length t p : length (frame_prefix t 0 p) = 16%nat.
Proof. done. Qed.
Lemma frame_image_length f : length (frame_image f) = (20 + length f.2)%nat.
Proof. unfold frame_image. by rewrite !length_app, frame_prefix_length, le_bytes_length. Qed.

(** The fields the decoder loads from a header. *)
Lemma frame_fields t p c rest :
  Z.of_nat (length p) <= kMaxFramePayload -> is_u32 c ->
  let data := frame_prefix t 0 p ++ le_bytes 4 c ++ rest in
  take 4 data = kMagic /\ load_u16 data 4 = kWireProtocolVersion /\
  load_u16 data 6 = message_type_code t /\ load_u16 data 8 = 0 /\ load_u16 data 10 = 0 /\
  load_u32 data 12 = Z.of_nat (length p) /\ load_u32 data 16 = c /\
  take 16 data = frame_prefix t 0 p /\ drop 20 data = rest.
Proof.
  intros Hp Hc data.
  assert (is_u32 (Z.of_nat (length p))) by (unfold kMaxFramePayload in Hp; ints).
  split; [done|]. split; [done|].
  split; [change (load_u16 data 6) with (le_value (le_bytes 2 (message_type_code t)));
    apply le_value_u16, message_type_code_u16|].
  split; [done|]. split; [done|].
  split; [change (load_u32 data 12) with (le_value (le_bytes 4 (Z.of_nat (length p))));
    by apply le_value_u32|].
  split; [change (load_u32 data 16) with (le_value (le_bytes 4 c)); by apply le_value_u32|].
  done.
Qed.

(** One iteration, on any bytes that start with the header of a frame. *)
Lemma frame_step_header max t p c rest :
  Z.of_nat (length p) <= max -> Z.of_nat (length p) <= kMaxFramePayload -> is_u32 c ->
  frame_step max (frame_prefix t 0 p ++ le_bytes 4 c ++ rest) =
  if Z.of_nat (length rest) <? Z.of_nat (length p) then NeedMore
  else let payload := take (length p) rest in
  if negb (c =? crc32c (frame_prefix t 0 p ++ payload))
  then Refused (status_failure Outcome.Corrupt ReasonCode.ChecksumMismatch "frame checksum mismatch")
  else Frame (MkFrameHeader kWireProtocolVersion t 0 (Z.of_nat (length p)) c) payload.
Proof.
  intros Hm Hp Hc. destruct (frame_fields t p c rest Hp Hc) as (F1 & F2 & F3 & F4 & F5 & F6 & F7 & F8 & F9).
  unfold frame_step. set (data := frame_prefix t 0 p ++ le_bytes 4 c ++ rest) in *.
  assert (Hl : length data = (20 + length rest)%nat) by
    (unfold data; by rewrite !length_app, frame_prefix_length, le_bytes_length).
  rewrite F1, F2, F3, F4, F5, F6, F7, F8, F9, Hl, message_type_known, message_type_cast_code, Nat2Z.id.
  rewrite (proj2 (Z.ltb_ge _ kFrameHeaderSize)) by (unfold kFrameHeaderSize; lia).
  rewrite bool_decide_eq_true_2 by done. cbn [negb orb]. rewrite !Z.eqb_refl. cbn [negb orb].
  rewrite gtb_false by done. rewrite crc32c_concat_app. fold (crc32c (frame_prefix t 0 p ++ take (length p) rest)).
  replace (Z.of_nat (20 + length rest) <? kFrameHeaderSize + Z.of_nat (length p))
    with (Z.of_nat (length rest) <? Z.of_nat (length p)); [done|].
  apply Bool.eq_iff_eq_true. rewrite !Z.ltb_lt. unfold kFrameHeaderSize. lia.
Qed.

Lemma frame_crc_u32 f : is_u32 (frame_crc f).
Proof. apply crc32c_u32. Qed.

Lemma frame_step_image max bound f rest : frame_ok bound f -> bound <= max ->
  frame_step max (frame_image f ++ rest) = Frame (frame_header f) f.2.
Proof.
  intros [Hb Hk] Hm. unfold frame_image. rewrite <- !app_assoc.
  rewrite frame_step_header by (lia || apply frame_crc_u32).
  rewrite (proj2 (Z.ltb_ge _ _)) by (rewrite length_app; lia). cbv zeta.
  rewrite take_app_length. unfold frame_crc at 1. rewrite Z.eqb_refl. done.
Qed.

Lemma frame_step_short max data : (length data < 20)%nat -> frame_step max data = NeedMore.
Proof.
  intros H. unfold frame_step.
  by rewrite (proj2 (Z.ltb_lt _ kFrameHeaderSize)) by (unfold kFrameHeaderSize; lia).
Qed.

(** A frame cut before its end asks for more bytes. *)
Lemma frame_step_partial max bound f k : frame_ok bound f -> bound <= max ->
  (k < length (frame_image f))%nat -> frame_step max (take k (frame_image f)) = NeedMore.
Proof.
  intros [Hb Hk] Hm Hlt. rewrite frame_image_length in Hlt.
  destruct (decide (k < 20)%nat) as [Hs|Hs].
  { apply frame_step_short. rewrite length_take, frame_image_length. lia. }
  unfold frame_image. rewrite app_assoc, take_app_ge by (rewrite length_app, frame_prefix_length, le_bytes_length; lia).
  rewrite length_app, frame_prefix_length, le_bytes_length, <- app_assoc.
  rewrite frame_step_header by (lia || apply frame_crc_u32).
  rewrite (proj2 (Z.ltb_lt _ _)); [done|]. rewrite length_take. lia.
Qed.

(** ** The loop on a stream *)
Section stream.
Context {St : Type} (on_frame : FrameHeader -> bytes -> St -> St).

Lemma push_loop_images max bound fs t fuel st :
  Forall (frame_ok bound) fs -> bound <= max -> frame_step max t = NeedMore ->
  (length (stream_image fs ++ t) < fuel)%nat ->
  push_loop on_frame fuel max (stream_image fs ++ t) st = (None, t, deliver on_frame fs st).
Proof.
  intros Hfs Hm Ht. revert fuel st. induction Hfs as [|f fs Hf Hfs IH]; intros fuel st Hfuel;
    (destruct fuel as [|fuel]; [lia|]); unfold push_loop; fold (push_loop on_frame).
  { unfold stream_image. cbn [map concat]. by rewrite app_nil_l, Ht. }
  change (stream_image (f :: fs)) with (frame_image f ++ stream_image fs) in *.
  rewrite <- app_assoc in *.
  rewrite (frame_step_image max bound) by done.
  rewrite length_app, frame_image_length in Hfuel.
  rewrite <- (frame_image_length f), drop_app_length. rewrite IH by lia. done.
Qed.

(** Every prefix of a stream is some complete frames and the start of the next. *)
Definition partial (bound : Z) (t : bytes) : Prop :=
  exists f k, frame_ok bound f /\ (k < length (frame_image f))%nat /\ t = take k (frame_image f).
Lemma partial_more max bound t : partial bound t -> bound <= max -> frame_step max t = NeedMore.
Proof. intros (f & k & ? & ? & ->) ?. by apply (frame_step_partial max bound). Qed.
Lemma partial_length bound t : partial bound t -> Z.of_nat (length t) < kFrameHeaderSize + bound.
Proof.
  intros (f & k & [? ?] & Hk & ->). rewrite frame_image_length in Hk.
  rewrite length_take, frame_image_length. unfold kFrameHeaderSize. lia.
Qed.

Lemma stream_prefix bound fs t c rest :
  Forall (frame_ok bound) fs -> partial bound t ->
  stream_image fs ++ t = c ++ rest ->
  exists fs1 t1 fs2, fs = fs1 ++ fs2 /\ c = stream_image fs1 ++ t1 /\
    partial bound t1 /\ stream_image fs2 ++ t = t1 ++ rest.
Proof.
  intros Hfs Ht. revert c. induction Hfs as [|f fs Hf Hfs IH]; intros c E.
  - cbn in E. exists [], c, []. split; [done|]. split; [done|]. split; [|done].
    destruct Ht as (f & k & ? & ? & ->). exists f, (length c). split; [done|].
    pose proof (f_equal length E) as Hl. rewrite length_app, length_take in Hl. split; [lia|].
    transitivity (take (length c) (take k (frame_image f))); [by rewrite E, take_app_length|].
    rewrite take_take. f_equal. lia.
  - change (stream_image (f :: fs)) with (frame_image f ++ stream_image fs) in *.
    rewrite <- app_assoc in E.
    destruct (decide (length c < length (frame_image f))%nat) as [Hlt|Hge].
    + exists [], c, (f :: fs). split; [done|]. split; [done|]. split; [|by rewrite <- E, app_assoc].
      exists f, (length c). split; [done|]. split; [done|].
      apply (f_equal (take (length c))) in E. rewrite take_app_length in E.
      rewrite take_app_le in E by lia. done.
    + assert (exists c', c = frame_image f ++ c') as [c' ->].
      { exists (drop (length (frame_image f)) c).
        apply (f_equal (take (length (frame_image f)))) in E.
        rewrite take_app_length, take_app_le in E by lia.
        rewrite E at 1. by rewrite take_drop. }
      rewrite <- app_assoc in E. apply app_inv_head in E.
      destruct (IH c' E) as (fs1 & t1 & fs2 & -> & -> & Hp & E').
      exists (f :: fs1), t1, fs2. split; [done|]. split; [|done].
      change (stream_image (f :: fs1)) with (frame_image f ++ stream_image fs1). by rewrite <- app_assoc.
Qed.

(** The receive loop of a peer: push chunk after chunk, stop at the first refusal. *)
Fixpoint push_all (d : FrameDecoder) (chunks : list bytes) (st : St) : Status * FrameDecoder * St :=
  match chunks with
  | [] => (status_success, d, st)
  | c :: rest =>
      match decoder_push on_frame d c st with
      | (s, d', st') => if status_ok s then push_all d' rest st' else (s, d', st')
      end
  end.

Definition decoder_clean (max : Z) (t : bytes) : FrameDecoder := MkDecoder max t false status_success.

Lemma decoder_push_stream max bound fs t c st :
  Forall (frame_ok bound) fs -> bound <= max -> partial bound t ->
  forall t0, t0 ++ c = stream_image fs ++ t ->
  Z.of_nat (length t0) + Z.of_nat (length c) <= max + kFrameHeaderSize ->
  decoder_push on_frame (decoder_clean max t0) c st =
    (status_success, decoder_clean max t, deliver on_frame fs st).
Proof.
  intros Hfs Hm Ht t0 E Hl. unfold decoder_push, decoder_clean. cbn [fd_failed fd_buffer fd_max_payload].
  rewrite gtb_false by done. rewrite E.
  rewrite (push_loop_images max bound) by (done || lia || by eapply partial_more). done.
Qed.

Lemma push_all_stream max bound chunks fs t t0 st :
  Forall (frame_ok bound) fs -> bound <= max -> partial bound t -> partial bound t0 ->
  t0 ++ concat chunks = stream_image fs ++ t ->
  Forall (fun c => Z.of_nat (length c) <= max - bound + 1) chunks ->
  push_all (decoder_clean max t0) chunks st =
    (status_success, decoder_clean max t, deliver on_frame fs st).
Proof.
  intros Hfs Hm Ht. revert fs Hfs t0 st. induction chunks as [|c chunks IH]; intros fs Hfs t0 st Ht0 E Hc.
  - cbn in E. rewrite app_nil_r in E. destruct fs as [|f fs].
    { cbn in E. by subst t0. }
    exfalso. apply Forall_cons in Hfs as [Hf _]. pose proof (partial_more max bound t0 Ht0 Hm) as Hn.
    rewrite E in Hn. change (stream_image (f :: fs)) with (frame_image f ++ stream_image fs) in Hn.
    rewrite <- app_assoc, (frame_step_image max bound) in Hn by done. done.
  - apply Forall_cons in Hc as [Hl Hc]. cbn [concat] in E. rewrite app_assoc in E.
    destruct (stream_prefix bound fs t (t0 ++ c) (concat chunks)) as (fs1 & t1 & fs2 & -> & E1 & Ht1 & E2);
      [done..|].
    apply Forall_app in Hfs as [Hfs1 Hfs2]. pose proof (partial_length bound t0 Ht0) as Hl0.
    cbn [push_all]. rewrite (decoder_push_stream max bound fs1 t1) by (done || lia).
    change (status_ok status_success) with true. cbv iota.
    rewrite (IH fs2) by done. unfold deliver. by rewrite foldl_app.
Qed.
End stream.

Arguments push_all : simpl never.

(** ** Whatever is delivered was encoded *)
Lemma le_bytes_value bs : Forall is_u8 bs -> le_bytes (length bs) (le_value bs) = bs.
Proof.
  intros H. apply le_value_inj; [apply le_bytes_u8|done|by rewrite le_bytes_length|].
  rewrite le_value_bytes. apply Z.mod_small. by apply le_value_bound.
Qed.

(** A field loaded from the bytes is the bytes at its place. *)
Lemma load_bytes n k data : Forall is_u8 data -> (k + n <= length data)%nat ->
  drop k data = le_bytes n (le_value (take n (drop k data))) ++ drop (n + k) data.
Proof.
  intros Hu Hl. pose proof (le_bytes_value (take n (drop k data))) as H.
  rewrite length_take, length_drop in H. replace (n `min` (length data - k))%nat with n in H by lia.
  rewrite H by by apply Forall_take, Forall_drop.
  rewrite <- (take_drop n (drop k data)) at 1. by rewrite drop_drop, Nat.add_comm.
Qed.

Lemma frame_step_inv max data h p :
  Forall is_u8 data -> max <= kMaxFramePayload -> frame_step max data = Frame h p ->
  h = frame_header (fh_type h, p) /\ frame_ok max (fh_type h, p) /\
  data = frame_image (fh_type h, p) ++ drop (20 + length p) data.
Proof.
  intros Hu Hmax H. unfold frame_step in H.
  destruct (Z.ltb_spec (Z.of_nat (length data)) kFrameHeaderSize) as [|Hlen]; [done|].
  destruct (bool_decide_reflect (take 4 data = kMagic)) as [Hmagic|]; cbn [negb] in H; [|done].
  destruct (Z.eqb_spec (load_u16 data 4) kWireProtocolVersion) as [Hver|]; cbn [negb] in H; [|done].
  destruct (message_type_is_known (load_u16 data 6)) eqn:Htype; cbn [negb] in H; [|done].
  destruct (Z.eqb_spec (load_u16 data 8) 0) as [Hflags|]; cbn [negb orb] in H; [|done].
  destruct (Z.eqb_spec (load_u16 data 10) 0) as [Hres|]; cbn [negb orb] in H; [|done].
  destruct (load_u32 data 12 >? max) eqn:Hsz; [done|]. rewrite Z.gtb_ltb, Z.ltb_ge in Hsz.
  destruct (Z.ltb_spec (Z.of_nat (length data)) (kFrameHeaderSize + load_u32 data 12)) as [|Hfull]; [done|].
  set (size := load_u32 data 12) in *. set (q := take (Z.to_nat size) (drop 20 data)) in *.
  destruct (Z.eqb_spec (load_u32 data 16) (crc32c_concat 0 (take 16 data) q)) as [Hcrc|];
    cbn [negb] in H; [|done].
  injection H as <- <-. unfold kFrameHeaderSize in *.
  pose proof (message_type_code_cast _ Htype) as Hcode.
  assert (Hsize : 0 <= size) by (apply le_value_bound, Forall_take, Forall_drop, Hu).
  assert (Hq : Z.of_nat (length q) = size) by (unfold q; rewrite length_take, length_drop; lia).
  set (t := message_type_cast (load_u16 data 6)) in *.
  assert (Hsplit : data = frame_prefix t 0 q ++ le_bytes 4 (load_u32 data 16) ++ drop 20 data).
  { rewrite <- (take_drop 4 data) at 1. rewrite Hmagic. unfold frame_prefix. rewrite <- !app_assoc.
    f_equal. rewrite Hcode, Hq, <- Hver.
    rewrite (load_bytes 2 4 data) at 1 by (done || lia). unfold load_u16 at 1. f_equal.
    rewrite (load_bytes 2 6 data) at 1 by (done || lia). unfold load_u16 at 1. f_equal.
    rewrite (load_bytes 2 8 data) at 1 by (done || lia).
    fold (load_u16 data 8). rewrite Hflags. f_equal.
    rewrite (load_bytes 2 10 data) at 1 by (done || lia).
    fold (load_u16 data 10). rewrite Hres. f_equal.
    rewrite (load_bytes 4 12 data) at 1 by (done || lia). fold (load_u32 data 12). fold size. f_equal.
    rewrite (load_bytes 4 16 data) at 1 by (done || lia). done. }
  assert (Htake : take 16 data = frame_prefix t 0 q).
  { rewrite Hsplit at 1. by rewrite <- (frame_prefix_length t q), take_app_length. }
  rewrite crc32c_concat_app, Htake in Hcrc. fold (crc32c (frame_prefix t 0 q ++ q)) in Hcrc.
  cbn [fh_type]. split; [|split].
  - unfold frame_header. cbn [fst snd]. rewrite Hq. by rewrite Hver, Hcrc.
  - split; cbn [snd]; lia.
  - rewrite Hsplit at 1. unfold frame_image, frame_crc. cbn [fst snd].
    rewrite <- Hcrc, <- !app_assoc. do 2 f_equal.
    rewrite <- (take_drop (length q) (drop 20 data)) at 1. rewrite drop_drop. f_equal.
    unfold q. rewrite length_take, length_drop. f_equal. lia.
Qed.

Section authentic.
Context {St : Type} (on_frame : FrameHeader -> bytes -> St -> St).

Lemma push_loop_authentic max fuel data st r rest st' :
  Forall is_u8 data -> max <= kMaxFramePayload ->
  push_loop on_frame fuel max data st = (r, rest, st') ->
  exists fs, Forall (frame_ok max) fs /\ st' = deliver on_frame fs st /\ data = stream_image fs ++ rest.
Proof.
  intros Hu Hm. revert data st Hu. induction fuel as [|fuel IH]; intros data st Hu H;
    unfold push_loop in H; fold (push_loop on_frame) in H.
  { injection H as <- <- <-. by exists []. }
  destruct (frame_step max data) as [|s|h p] eqn:E.
  - injection H as <- <- <-. by exists [].
  - injection H as <- <- <-. by exists [].
  - apply frame_step_inv in E as (Hh & Hok & Hd); [|done..].
    apply IH in H as (fs & Hfs & -> & Hrest); [|by apply Forall_drop].
    exists ((fh_type h, p) :: fs). split; [by constructor|]. split.
    + cbn [deliver foldl]. by rewrite <- Hh.
    + rewrite Hd. change (stream_image ((fh_type h, p) :: fs)) with (frame_image (fh_type h, p) ++ stream_image fs).
      by rewrite <- app_assoc, <- Hrest.
Qed.

Lemma frame_step_refused max data s : frame_step max data = Refused s -> status_ok s = false.
Proof.
  unfold frame_step, refused_value. intros H. repeat case_if; first [discriminate H | by injection H as <-].
Qed.

Lemma push_loop_refused max fuel data st s rest st' :
  push_loop on_frame fuel max data st = (Some s, rest, st') -> status_ok s = false.
Proof.
  revert data st. induction fuel as [|fuel IH]; intros data st H;
    unfold push_loop in H; fold (push_loop on_frame) in H; [done|].
  destruct (frame_step max data) as [|s0|h p] eqn:E; [done| |by eapply IH].
  injection H as <- <- <-. by eapply frame_step_refused.
Qed.

(** Failure is recorded, with the status that was returned. *)
Definition decoder_wf (d : FrameDecoder) : Prop :=
  Forall is_u8 (fd_buffer d) /\ (0 <= fd_max_payload d /\ fd_max_payload d <= kMaxFramePayload) /\
  (fd_failed d = true -> status_ok (fd_failure d) = false) /\
  Z.of_nat (length (fd_buffer d)) <= fd_max_payload d + kFrameHeaderSize.

Lemma decoder_push_authentic d chunk st s d' st' :
  decoder_wf d -> Forall is_u8 chunk -> decoder_push on_frame d chunk st = (s, d', st') ->
  decoder_wf d' /\ fd_failed d' = negb (status_ok s) /\ fd_max_payload d' = fd_max_payload d /\
  (fd_failed d' = true -> s = fd_failure d') /\
  exists fs rest, Forall (frame_ok (fd_max_payload d)) fs /\ st' = deliver on_frame fs st /\
    fd_buffer d ++ chunk = stream_image fs ++ rest /\ (status_ok s = true -> rest = fd_buffer d').
Proof.
  intros Hwf Hc H. pose proof Hwf as (Hb & Hm & Hf & Hl). unfold decoder_push in H.
  destruct (fd_failed d) eqn:Ef.
  { injection H as <- <- <-. split; [done|]. rewrite Hf by done. do 3 (split; [done|]).
    exists [], (fd_buffer d ++ chunk). do 3 (split; [done|]). done. }
  case_match eqn:Hsz.
  { injection H as <- <- <-. split; [done|]. do 3 (split; [done|]).
    exists [], (fd_buffer d ++ chunk). do 3 (split; [done|]). done. }
  rewrite Z.gtb_ltb, Z.ltb_ge in Hsz.
  assert (Hu : Forall is_u8 (fd_buffer d ++ chunk)) by by apply Forall_app_2.
  destruct (push_loop _ _ _ _ _) as [[[s0|] rest] st0] eqn:E.
  - pose proof (push_loop_refused _ _ _ _ _ _ _ E) as Hs.
    apply push_loop_authentic in E as (fs & Hfs & -> & Hd); [|done|lia].
    injection H as <- <- <-. rewrite Hs. split.
    { split; [done|]. split; [done|]. split; [done|]. cbn. rewrite length_app. lia. }
    do 3 (split; [done|]). exists fs, rest. by repeat split.
  - apply push_loop_authentic in E as (fs & Hfs & -> & Hd); [|done|lia].
    injection H as <- <- <-. rewrite Hd in Hu. apply Forall_app in Hu as [_ Hu].
    apply (f_equal length) in Hd as Hlen. rewrite !length_app in Hlen. split.
    { split; [done|]. split; [done|]. split; [done|]. cbn. lia. }
    do 3 (split; [done|]). exists fs, rest. by repeat split.
Qed.

Lemma push_all_authentic chunks d st s d' st' :
  decoder_wf d -> Forall (Forall is_u8) chunks -> push_all on_frame d chunks st = (s, d', st') ->
  decoder_wf d' /\ exists fs rest, Forall (frame_ok (fd_max_payload d)) fs /\ st' = deliver on_frame fs st /\
    fd_buffer d ++ concat chunks = stream_image fs ++ rest /\ (status_ok s = true -> rest = fd_buffer d').
Proof.
  revert d st. induction chunks as [|c chunks IH]; intros d st Hd Hc H; unfold push_all in H;
    fold (push_all on_frame) in H.
  { injection H as <- <- <-. split; [done|]. exists [], (fd_buffer d). cbn. rewrite app_nil_r.
    repeat split; constructor. }
  apply Forall_cons in Hc as [Hc Hcs].
  destruct (decoder_push on_frame d c st) as [[s1 d1] st1] eqn:E.
  destruct (decoder_push_authentic d c st s1 d1 st1) as (Hd1 & Hf1 & Hm1 & _ & fs1 & r1 & Hfs1 & -> & E1 & Hr1);
    [done..|].
  destruct (status_ok s1) eqn:Hs.
  - destruct (IH d1 (deliver on_frame fs1 st)) as (Hd' & fs2 & r2 & Hfs2 & -> & E2 & Hr2); [done..|].
    split; [done|]. exists (fs1 ++ fs2), r2. rewrite Hm1 in Hfs2.
    split; [by apply Forall_app_2|]. split; [by unfold deliver; rewrite foldl_app|].
    split; [|done]. cbn [concat]. rewrite app_assoc, E1, (Hr1 eq_refl), <- app_assoc, E2.
    unfold stream_image. by rewrite map_app, concat_app, <- app_assoc.
  - injection H as <- <- <-. split; [done|]. exists fs1, (r1 ++ concat chunks).
    split; [done|]. split; [done|]. split; [|congruence].
    cbn [concat]. by rewrite app_assoc, E1, <- app_assoc.
Qed.
End authentic.

(** ** Corruption *)
Lemma frame_step_needs max data :
  Forall is_u8 data -> frame_step max data = NeedMore ->
  Z.of_nat (length data) < kFrameHeaderSize + load_u32 data 12.
Proof.
  intros Hu H. assert (0 <= load_u32 data 12) by (apply le_value_bound, Forall_take, Forall_drop, Hu).
  unfold frame_step, refused_value in H.
  destruct (Z.ltb_spec (Z.of_nat (length data)) kFrameHeaderSize) as [|_]; [lia|].
  repeat (case_if; [done|]).
  destruct (Z.ltb_spec (Z.of_nat (length data)) (kFrameHeaderSize + load_u32 data 12)); [done|].
  case_if; done.
Qed.

Lemma load_insert_outside n k i (b : Z) (data : bytes) :
  ~ (k <= i < k + n)%nat -> take n (drop k (<[i := b]> data)) = take n (drop k data).
Proof.
  intros H. destruct (decide (i < k)%nat).
  - by rewrite drop_insert_lt by lia.
  - rewrite drop_insert_ge by lia. by rewrite take_insert_ge by lia.
Qed.

Lemma frame_image_u8 f : Forall is_u8 f.2 -> Forall is_u8 (frame_image f).
Proof.
  intros H. unfold frame_image, frame_prefix. repeat apply Forall_app_2; try apply le_bytes_u8; [|done].
  unfold kMagic. repeat (constructor; [ints|]). constructor.
Qed.

Lemma crc32c_insert (data : bytes) j x b :
  data !! j = Some x -> is_u8 x -> is_u8 b -> x <> b -> crc32c (<[j := b]> data) <> crc32c data.
Proof.
  intros Hx Hux Hb Hne. pose proof (lookup_lt_Some _ _ _ Hx).
  rewrite insert_take_drop by lia. rewrite <- (take_drop_middle data j x Hx) at 3.
  apply crc32c_one_byte; [done..|congruence].
Qed.

(** What the checksum of a frame covers, as a part of its image. *)
Definition frame_body (image : bytes) : bytes := take 16 image ++ drop 20 image.
Lemma frame_body_crc f : frame_crc f = crc32c (frame_body (frame_image f)).
Proof. done. Qed.
Lemma frame_image_crc f : take 4 (drop 16 (frame_image f)) = le_bytes 4 (frame_crc f).
Proof. done. Qed.
Lemma image_split (image : bytes) : image = take 16 image ++ take 4 (drop 16 image) ++ drop 20 image.
Proof. rewrite <- (take_drop 16 image) at 1. f_equal. rewrite <- (take_drop 4 (drop 16 image)) at 1. by rewrite drop_drop. Qed.
Lemma frame_image_eq f g : frame_body (frame_image f) = frame_body (frame_image g) ->
  frame_image f = frame_image g.
Proof.
  intros E. pose proof (frame_body_crc f) as Hf. rewrite E, <- frame_body_crc in Hf.
  apply app_inj_1 in E as [E1 E2]; [|done].
  rewrite (image_split (frame_image f)), (image_split (frame_image g)), !frame_image_crc.
  by rewrite Hf, E1, E2.
Qed.

Lemma frame_body_insert (image : bytes) i b : (20 <= length image)%nat ->
  ~ (16 <= i < 20)%nat -> (i < length image)%nat ->
  exists j, frame_body (<[i := b]> image) = <[j := b]> (frame_body image) /\
    frame_body image !! j = image !! i.
Proof.
  intros Hl Hi Hlt. unfold frame_body. destruct (decide (i < 16)%nat).
  - exists i. rewrite take_insert_lt, drop_insert_lt by lia.
    assert (i < length (take 16 image))%nat by (rewrite length_take; lia).
    rewrite insert_app_l, lookup_app_l by done. split; [done|]. by rewrite lookup_take_lt by lia.
  - exists (i - 4)%nat. rewrite take_insert_ge, drop_insert_ge by lia.
    assert (length (take 16 image) = 16%nat) as Ht by (rewrite length_take; lia).
    rewrite insert_app_r_alt, lookup_app_r by lia. rewrite Ht, lookup_drop.
    split; [do 2 f_equal; lia|f_equal; lia].
Qed.

(** Two frames of one length whose images differ in exactly one byte do not exist. *)
Lemma frame_images_apart f g i b :
  Forall is_u8 f.2 -> is_u8 b -> (i < length (frame_image f))%nat ->
  frame_image g = <[i := b]> (frame_image f) -> frame_image f !! i = Some b.
Proof.
  intros Hu Hb Hi E. destruct (lookup_lt_is_Some_2 (frame_image f) i Hi) as [x Hx].
  assert (Hux : is_u8 x).
  { pose proof (frame_image_u8 f Hu) as Hf. rewrite Forall_forall in Hf.
    apply Hf. by eapply list_elem_of_lookup_2. }
  destruct (decide (16 <= i < 20)%nat) as [Hc|Hc].
  - assert (Eq : frame_image g = frame_image f).
    { apply frame_image_eq. unfold frame_body. rewrite E.
      by rewrite take_insert_ge, drop_insert_lt by lia. }
    rewrite Eq in E. rewrite E. by apply list_lookup_insert_eq.
  - rewrite Hx. f_equal. destruct (decide (x = b)) as [|Hne]; [done|]. exfalso.
    rewrite frame_image_length in Hi.
    destruct (frame_body_insert (frame_image f) i b) as (j & Hj & Hlook);
      [rewrite frame_image_length; lia|done|rewrite frame_image_length; lia|].
    rewrite Hx in Hlook. apply (crc32c_insert _ j x b Hlook Hux Hb Hne).
    rewrite <- Hj, <- E, <- !frame_body_crc.
    apply (le_bytes_inj 4); [pose proof (frame_crc_u32 g); ints|pose proof (frame_crc_u32 f); ints|].
    rewrite <- !frame_image_crc, E. apply load_insert_outside. lia.
Qed.

Lemma frame_step_corrupt max bound f i b rest :
  frame_ok bound f -> bound <= max -> max <= kMaxFramePayload -> Forall is_u8 f.2 ->
  Forall is_u8 rest -> is_u8 b -> (i < length (frame_image f))%nat -> ~ (12 <= i < 16)%nat ->
  frame_image f !! i <> Some b ->
  exists s, frame_step max (<[i := b]> (frame_image f) ++ rest) = Refused s.
Proof.
  intros [Hf Hk] Hm Hmax Hu Hrest Hb Hi Hout Hne.
  set (data := <[i := b]> (frame_image f) ++ rest).
  assert (Hud : Forall is_u8 data) by
    (apply Forall_app_2; [apply Forall_insert; [by apply frame_image_u8|done]|done]).
  pose proof (frame_image_length f) as Hlen.
  assert (Hsize : load_u32 data 12 = Z.of_nat (length f.2)).
  { unfold load_u32, data. rewrite drop_app_le by (rewrite length_insert; lia).
    rewrite take_app_le by (rewrite length_drop, length_insert; lia).
    rewrite load_insert_outside by lia.
    change (take 4 (drop 12 (frame_image f))) with (le_bytes 4 (Z.of_nat (length f.2))).
    apply le_value_u32. unfold kMaxFramePayload in *. ints. }
  destruct (frame_step max data) as [|s|h p] eqn:E; [exfalso| |exfalso].
  - apply frame_step_needs in E; [|done]. rewrite Hsize in E. unfold data, kFrameHeaderSize in E.
    rewrite length_app, length_insert in E. lia.
  - by exists s.
  - apply frame_step_inv in E as (_ & [_ Hp] & Hd); [|done..]. cbn [snd] in Hp.
    assert (Hpl : length p = length f.2).
    { rewrite Hd in Hsize. unfold load_u32 in Hsize.
      rewrite drop_app_le, take_app_le in Hsize by (rewrite ?length_drop, frame_image_length; lia).
      change (take 4 (drop 12 (frame_image (fh_type h, p)))) with (le_bytes 4 (Z.of_nat (length p))) in Hsize.
      rewrite le_value_u32 in Hsize by (unfold kMaxFramePayload in *; ints). lia. }
    unfold data in Hd at 1. apply app_inj_1 in Hd as [Hd _].
    + apply Hne. by apply (frame_images_apart f (fh_type h, p) i b).
    + rewrite length_insert, !frame_image_length. cbn [snd]. lia.
Qed.

(** The loop delivers the frames before a refusal. *)
Lemma push_loop_stops {St} (on_frame : FrameHeader -> bytes -> St -> St) max bound fs t s fuel st :
  Forall (frame_ok bound) fs -> bound <= max -> frame_step max t = Refused s ->
  (length (stream_image fs ++ t) < fuel)%nat ->
  push_loop on_frame fuel max (stream_image fs ++ t) st = (Some s, t, deliver on_frame fs st).
Proof.
  intros Hfs Hm Ht. revert fuel st. induction Hfs as [|f fs Hf Hfs IH]; intros fuel st Hfuel;
    (destruct fuel as [|fuel]; [lia|]); unfold push_loop; fold (push_loop on_frame).
  { change (stream_image [] ++ t) with t. by rewrite Ht. }
  change (stream_image (f :: fs)) with (frame_image f ++ stream_image fs) in *.
  rewrite <- app_assoc in *. rewrite (frame_step_image max bound) by done.
  rewrite length_app, frame_image_length in Hfuel.
  rewrite <- (frame_image_length f), drop_app_length. rewrite IH by lia. done.
Qed.

Lemma push_all_bounded {St} (on_frame : FrameHeader -> bytes -> St -> St) chunks d st s d' st' :
  decoder_wf d -> Forall (Forall is_u8) chunks -> push_all on_frame d chunks st = (s, d', st') ->
  decoder_wf d' /\ fd_max_payload d' = fd_max_payload d /\
  (status_ok s = false -> fd_failed d' = true /\ s = fd_failure d').
Proof.
  revert d st. induction chunks as [|c chunks IH]; intros d st Hd Hc H; unfold push_all in H;
    fold (push_all on_frame) in H.
  { by injection H as <- <- <-. }
  apply Forall_cons in Hc as [Hc Hcs].
  destruct (decoder_push on_frame d c st) as [[s1 d1] st1] eqn:E.
  destruct (decoder_push_authentic on_frame d c st s1 d1 st1) as (Hd1 & Hf1 & Hm1 & Hs1 & _); [done..|].
  destruct (status_ok s1) eqn:Hs.
  - rewrite <- Hm1. by apply (IH d1 st1).
  - injection H as <- <- <-. split; [done|]. split; [done|]. intros _. split; [done|]. by apply Hs1.
Qed.

(** ** Properties of the transport *)
Lemma encode_frame_success t flags p limit image :
  encode_frame t flags p limit = Success image ->
  flags = 0 /\ frame_ok limit (t, p) /\ image = frame_image (t, p).
Proof.
  unfold encode_frame. cbv zeta.
  set (m := if limit >? kMaxFramePayload then kMaxFramePayload else limit).
  assert (Hm : m <= limit /\ m <= kMaxFramePayload).
  { unfold m. rewrite Z.gtb_ltb. destruct (Z.ltb_spec kMaxFramePayload limit); lia. }
  destruct (Z.of_nat (length p) >? m) eqn:Hsz; [done|]. rewrite Z.gtb_ltb, Z.ltb_ge in Hsz.
  destruct (Z.eqb_spec flags 0) as [->|]; [|done]. cbn [negb]. intros [= <-].
  split; [done|]. split; [split; cbn [snd]; lia|].
  unfold frame_image, frame_crc. cbn [fst snd]. by rewrite crc32c_concat_app.
Qed.

Definition encoded_as (limit : Z) (f : WireFrame) (image : bytes) : Prop :=
  encode_frame f.1 0 f.2 limit = Success image.

Lemma encoded_stream limit fs images :
  Forall2 (encoded_as limit) fs images ->
  Forall (frame_ok limit) fs /\ concat images = stream_image fs.
Proof.
  induction 1 as [|f image fs images Hf _ [IH1 IH2]]; [by split; [constructor|]|].
  apply encode_frame_success in Hf as (_ & Hok & ->). destruct f as [t p].
  split; [by constructor|]. cbn [concat]. by rewrite IH2.
Qed.

Lemma decoder_new_wf max : 0 <= max <= kMaxFramePayload -> decoder_wf (decoder_new max).
Proof.
  intros H. split; [constructor|]. split; [cbn; lia|]. split; [done|].
  cbn. unfold kFrameHeaderSize. lia.
Qed.

(** C31: delivery. The frames a peer encoded with at most [limit] bytes of payload,
    cut into chunks in any way such that no chunk is longer than the slack the
    decoder's bound leaves, come out of the decoder complete, in order and once
    each, whatever the handler does with them; the decoder then holds exactly the
    started frame [t]. *)
Theorem frame_stream_delivered {St} (on_frame : FrameHeader -> bytes -> St -> St)
    limit max fs images t chunks st :
  Forall2 (encoded_as limit) fs images -> partial limit t -> limit <= max ->
  concat chunks = concat images ++ t ->
  Forall (fun c => Z.of_nat (length c) <= max - limit + 1) chunks ->
  push_all on_frame (decoder_new max) chunks st =
    (status_success, MkDecoder max t false status_success, deliver on_frame fs st).
Proof.
  intros Hfs Ht Hm E Hc. apply encoded_stream in Hfs as [Hfs Ei]. rewrite Ei in E.
  apply (push_all_stream on_frame max limit chunks fs t []); try done.
  destruct Ht as (f & k & Hf & Hk & _). exists f, O. split; [done|]. split; [lia|done].
Qed.

Lemma frame_stream_delivered_witness :
  push_all (fun h p l => l ++ [(fh_type h, p)]) (decoder_new 64)
    [[76; 70]; [70; 49; 1; 0; 41; 0; 0; 0; 0; 0; 2; 0]; [0; 0; 29; 162; 7; 149; 7; 9; 76]] [] =
  (status_success, MkDecoder 64 [76] false status_success, [(MessageType.Ping, [7; 9])]).
Proof.
  apply (frame_stream_delivered (fun h p l => l ++ [(fh_type h, p)]) 2 64 [(MessageType.Ping, [7; 9])]
    [frame_image (MessageType.Ping, [7; 9])] [76]).
  - constructor; [|constructor]. vm_compute. reflexivity.
  - exists (MessageType.Ping, [7; 9]), 1%nat. split; [split; vm_compute; discriminate|].
    split; [vm_compute; lia|vm_compute; reflexivity].
  - lia.
  - vm_compute. reflexivity.
  - repeat (constructor; [vm_compute; discriminate|]). constructor.
Defined.

(** authenticity. Feed the decoder any bytes in any chunks: the frames it
    delivers, re-encoded, are the beginning of the bytes it was given, each within
    the negotiated size, so there is one encoding per frame and nothing is
    invented; while no push fails, what is left over is what the decoder holds. *)
Theorem delivered_frames_authentic {St} (on_frame : FrameHeader -> bytes -> St -> St)
    max chunks st s d st' :
  0 <= max <= kMaxFramePayload -> Forall (Forall is_u8) chunks ->
  push_all on_frame (decoder_new max) chunks st = (s, d, st') ->
  exists fs rest, st' = deliver on_frame fs st /\ concat chunks = stream_image fs ++ rest /\
    Forall (fun f => encoded_as max f (frame_image f)) fs /\ (status_ok s = true -> rest = fd_buffer d).
Proof.
  intros Hm Hc H. destruct (push_all_authentic on_frame chunks (decoder_new max) st s d st')
    as (_ & fs & rest & Hfs & -> & E & Hr); [by apply decoder_new_wf|done..|].
  exists fs, rest. split; [done|]. split; [done|]. split; [|done].
  eapply Forall_impl; [exact Hfs|]. intros [t p] [H1 H2]. cbn in H1, H2.
  unfold encoded_as, encode_frame. cbn [fst snd]. cbv zeta.
  rewrite (Z.gtb_ltb max), (proj2 (Z.ltb_ge _ _)) by lia. rewrite gtb_false by lia. cbn [Z.eqb negb].
  unfold frame_image, frame_crc. cbn [fst snd]. by rewrite crc32c_concat_app.
Qed.

Lemma delivered_frames_authentic_witness :
  exists fs rest, [MessageType.Ping] = deliver (fun h _ l => l ++ [fh_type h]) fs [] /\
    concat [[76; 70; 70; 49; 1; 0; 41; 0; 0; 0; 0; 0; 2; 0; 0; 0; 29; 162; 7; 149; 7]; [9; 1]] =
      stream_image fs ++ rest /\
    Forall (fun f => encoded_as 64 f (frame_image f)) fs /\ (true = true -> rest = [1]).
Proof.
  apply (delivered_frames_authentic (fun h _ l => l ++ [fh_type h]) 64
    [[76; 70; 70; 49; 1; 0; 41; 0; 0; 0; 0; 0; 2; 0; 0; 0; 29; 162; 7; 149; 7]; [9; 1]] []
    status_success (MkDecoder 64 [1] false status_success) [MessageType.Ping]).
  - vm_compute. split; discriminate.
  - repeat constructor; vm_compute; discriminate.
  - vm_compute. reflexivity.
Defined.

(** C32: integrity. In a pushed stream, change one byte of a frame outside its
    length field (header, checksum or payload): the frames before it are delivered,
    it is not, and the decoder fails for good. A changed length is refused only by
    the checksum over the bytes it then claims, which is not a single-byte change. *)
Theorem corrupted_frame_refused {St} (on_frame : FrameHeader -> bytes -> St -> St)
    max fs f i b rest st :
  0 <= max <= kMaxFramePayload -> Forall (frame_ok max) fs -> frame_ok max f ->
  Forall is_u8 f.2 -> Forall is_u8 rest -> is_u8 b ->
  (i < length (frame_image f))%nat -> ~ (12 <= i < 16)%nat -> frame_image f !! i <> Some b ->
  let chunk := stream_image fs ++ <[i := b]> (frame_image f) ++ rest in
  Z.of_nat (length chunk) <= max + kFrameHeaderSize ->
  exists s, status_ok s = false /\
    decoder_push on_frame (decoder_new max) chunk st =
      (s, MkDecoder max chunk true s, deliver on_frame fs st).
Proof.
  intros Hm Hfs Hf Hu Hrest Hb Hi Hout Hne chunk Hl. subst chunk.
  destruct (frame_step_corrupt max max f i b rest) as [s Hs]; [done|lia|lia|done..|].
  exists s. split; [by eapply frame_step_refused|].
  unfold decoder_push, decoder_new. cbn [fd_failed fd_buffer fd_max_payload length fd_failure].
  rewrite gtb_false by (cbn; lia). rewrite app_nil_l.
  rewrite (push_loop_stops on_frame max max fs _ s) by (done || lia). done.
Qed.

Lemma corrupted_frame_refused_witness :
  exists s, status_ok s = false /\
    decoder_push (fun h _ l => l ++ [fh_type h]) (decoder_new 64)
      (stream_image [(MessageType.Inspect, [5])] ++ <[21%nat := 8]> (frame_image (MessageType.Ping, [7; 9])) ++ [])
      [] =
    (s, MkDecoder 64 (stream_image [(MessageType.Inspect, [5])] ++
           <[21%nat := 8]> (frame_image (MessageType.Ping, [7; 9])) ++ []) true s, [MessageType.Inspect]).
Proof.
  apply (corrupted_frame_refused (fun h _ l => l ++ [fh_type h]) 64 [(MessageType.Inspect, [5])]
    (MessageType.Ping, [7; 9]) 21 8 [] []).
  - vm_compute. split; discriminate.
  - repeat constructor; vm_compute; discriminate.
  - repeat constructor; vm_compute; discriminate.
  - repeat constructor; vm_compute; discriminate.
  - constructor.
  - vm_compute; split; [discriminate|reflexivity].
  - vm_compute. lia.
  - lia.
  - vm_compute. discriminate.
  - vm_compute. discriminate.
Defined.

(** bound and stickiness. Whatever bytes arrive, the decoder never holds more
    than one frame of the negotiated size (header and payload), and once a push has
    failed every later push returns the same status, delivers nothing and keeps
    the decoder as it is. *)
Theorem decoder_bounded_and_sticky {St} (on_frame : FrameHeader -> bytes -> St -> St)
    max chunks st s d st' :
  0 <= max <= kMaxFramePayload -> Forall (Forall is_u8) chunks ->
  push_all on_frame (decoder_new max) chunks st = (s, d, st') ->
  decoder_buffered d <= max + kFrameHeaderSize /\
  (status_ok s = false -> forall chunk st2, decoder_push on_frame d chunk st2 = (s, d, st2)).
Proof.
  intros Hm Hc H. destruct (push_all_bounded on_frame chunks (decoder_new max) st s d st')
    as (Hwf & Hmax & Hs); [by apply decoder_new_wf|done..|].
  destruct Hwf as (_ & _ & _ & Hl). rewrite Hmax in Hl. split; [done|].
  intros Ef chunk st2. destruct (Hs Ef) as [Hf ->]. unfold decoder_push. by rewrite Hf.
Qed.

Lemma decoder_bounded_and_sticky_witness :
  let s := status_failure Outcome.Invalid ReasonCode.MalformedEncoding "frame magic mismatch" in
  let d := MkDecoder 8 (repeat 0 20) true s in
  decoder_buffered d <= 8 + kFrameHeaderSize /\
  (status_ok s = false -> forall chunk st2,
     decoder_push (fun _ _ (n : nat) => S n) d chunk st2 = (s, d, st2)).
Proof.
  cbv zeta. apply (decoder_bounded_and_sticky (fun _ _ (n : nat) => S n) 8 [repeat 0 20; [1]] 0%nat _ _ 0%nat).
  - vm_compute. split; discriminate.
  - repeat constructor; vm_compute; discriminate.
  - vm_compute. reflexivity.
Defined.

(** round trip. Every body of the protocol decodes back from its encoding,
    refuses trailing bytes and refuses its truncations; the response envelope
    leaves exactly the body that follows it. *)
Theorem wire_bodies_roundtrip (hq : HelloRequest) (hr : HelloResponse) (cq : ClaimRequest)
    (cr : ClaimResponse) (iq : InspectRequest) (v : EngineView) (re : ResponseEnvelope) body :
  hello_request_wf hq -> hello_response_wf hr -> claim_request_wf cq -> claim_response_wf cr ->
  inspect_request_wf iq -> engine_view_wf v -> response_wf re ->
  decode_payload (encode_payload hq) = Some hq /\ decode_payload (encode_payload hr) = Some hr /\
  decode_payload (encode_payload cq) = Some cq /\ decode_payload (encode_payload cr) = Some cr /\
  decode_payload (encode_payload iq) = Some iq /\ decode_engine_view (encode_engine_view v) = Some v /\
  decode_response (encode_payload re ++ body) = Some re /\
  (body <> [] -> decode_payload (A := HelloRequest) (encode_payload hq ++ body) = None) /\
  (forall k, (k < length (encode_engine_view v))%nat ->
     decode_engine_view (take k (encode_engine_view v)) = None).
Proof.
  intros. unfold decode_engine_view, encode_engine_view, decode_response, encode_payload at 7.
  rewrite !decode_payload_encode, decode_encoded by done.
  do 7 (split; [done|]). split; intros; [by apply decode_payload_trailing|by apply decode_payload_truncated].
Qed.

(** a peer that pipelines is cut off. Two well-formed frames that the decoder
    accepts one after the other are refused as too large when they arrive in one
    read, although each is far below the negotiated maximum: the bound counts the
    bytes of complete frames that the loop would have delivered. *)
Theorem pipelined_frames_refused :
  let a := frame_image (MessageType.Ping, repeat 0 24) in
  let receive := push_all (fun h _ l => l ++ [fh_type h]) (decoder_new 32) in
  (receive [a; a] []).1.1 = status_success /\
  (receive [a; a] []).2 = [MessageType.Ping; MessageType.Ping] /\
  (receive [a ++ a] []).1.1 =
    status_failure Outcome.LimitExceeded ReasonCode.FrameTooLarge
      "framing buffer exceeds the negotiated maximum" /\
  (receive [a ++ a] []).2 = [].
Proof. vm_compute. repeat split; reflexivity. Qed.
