(* ===== verification/Server.v ===== *)
(** * Session service

    Models src/server.cpp: the admission of sessions, the authority record of a
    session, the handling of one frame, and the read loop. The session objects
    are shared between the registry and the session threads, so they live in a
    store of their own ([sv_conns]) and the registry holds their keys.

    A step of the service is one frame, one admission, one end of a session, or a
    stop. A handler runs between two frames of its session only; each engine call
    takes the engine's mutex, and what the handler reads of the engine otherwise,
    its epoch and its incarnation, is fixed at boot, so the handlers of different
    sessions interleave as whole steps.

    Sockets are outside: [send_all] is a parameter, and so is what a read
    returns. *)
From S2P Require Import Prelude Status Hash Ids Bytes Evidence Policy Authority Attempt Decision.
From S2P Require Import Selector Fs Journal State Store Intake Engine EngineLogic EngineSafety Wire.

(** ** State *)
Record ServerOptions := MkServerOptions {
  vo_endpoint : Endpoint;
  vo_has_engine : bool;
  vo_max_sessions : Z;
  vo_max_frame_payload : Z;
  vo_backlog : Z;
  vo_stop_on_shutdown_message : bool;
}.

(** [ss_socket] is false once the handle has been exchanged away, [ss_down] is set
    by [shutdown_socket]; [ss_sent] are the frames [send_all] accepted. *)
Record SessionState := MkSession {
  ss_id : Z;
  ss_socket : bool;
  ss_closed : bool;
  ss_client : Incarnation;
  ss_epoch : Epoch;
  ss_last_seq : Z;
  ss_handshaken : bool;
  ss_down : bool;
  ss_sent : list bytes;
}.
Definition set_ss_down (v : SessionState) : SessionState :=
  MkSession (ss_id v) (ss_socket v) (ss_closed v) (ss_client v) (ss_epoch v) (ss_last_seq v)
    (ss_handshaken v) (ss_down v || ss_socket v) (ss_sent v).
Definition set_ss_last_seq (n : Z) (v : SessionState) : SessionState :=
  MkSession (ss_id v) (ss_socket v) (ss_closed v) (ss_client v) (ss_epoch v) n
    (ss_handshaken v) (ss_down v) (ss_sent v).
Definition push_ss_sent (frame : bytes) (v : SessionState) : SessionState :=
  MkSession (ss_id v) (ss_socket v) (ss_closed v) (ss_client v) (ss_epoch v) (ss_last_seq v)
    (ss_handshaken v) (ss_down v) (ss_sent v ++ [frame]).

Record ServerImpl := MkServer {
  sv_options : ServerOptions;
  sv_engine : EngineImpl;
  sv_stop_requested : bool;
  sv_running : bool;
  sv_requests_handled : Z;
  sv_sessions_accepted : Z;
  sv_sessions_rejected : Z;
  sv_next_session_id : Z;
  sv_conns : gmap Z SessionState;
  sv_sessions : list Z;
  sv_torn_down : bool;
}.
Definition set_sv_engine (im : EngineImpl) (s : ServerImpl) : ServerImpl :=
  MkServer (sv_options s) im (sv_stop_requested s) (sv_running s) (sv_requests_handled s)
    (sv_sessions_accepted s) (sv_sessions_rejected s) (sv_next_session_id s) (sv_conns s)
    (sv_sessions s) (sv_torn_down s).
Definition set_sv_conns (c : gmap Z SessionState) (s : ServerImpl) : ServerImpl :=
  MkServer (sv_options s) (sv_engine s) (sv_stop_requested s) (sv_running s) (sv_requests_handled s)
    (sv_sessions_accepted s) (sv_sessions_rejected s) (sv_next_session_id s) c
    (sv_sessions s) (sv_torn_down s).
Definition set_sv_handled (n : Z) (s : ServerImpl) : ServerImpl :=
  MkServer (sv_options s) (sv_engine s) (sv_stop_requested s) (sv_running s) n
    (sv_sessions_accepted s) (sv_sessions_rejected s) (sv_next_session_id s) (sv_conns s)
    (sv_sessions s) (sv_torn_down s).
Definition set_sv_stop (s : ServerImpl) : ServerImpl :=
  MkServer (sv_options s) (sv_engine s) true (sv_running s) (sv_requests_handled s)
    (sv_sessions_accepted s) (sv_sessions_rejected s) (sv_next_session_id s) (sv_conns s)
    (sv_sessions s) (sv_torn_down s).
Definition set_sv_sessions (l : list Z) (s : ServerImpl) : ServerImpl :=
  MkServer (sv_options s) (sv_engine s) (sv_stop_requested s) (sv_running s) (sv_requests_handled s)
    (sv_sessions_accepted s) (sv_sessions_rejected s) (sv_next_session_id s) (sv_conns s)
    l (sv_torn_down s).

(** A change of one session object. *)
Definition on_session (key : Z) (f : SessionState -> SessionState) (s : ServerImpl) : ServerImpl :=
  set_sv_conns (alter f key (sv_conns s)) s.

(** ** Starting *)
Definition start_refused (o : ServerOptions) : option Status :=
  if negb (vo_has_engine o)
  then Some (status_failure Outcome.Invalid ReasonCode.InvalidArgument "a server requires an engine")
  else if vo_max_sessions o =? 0
  then Some (status_failure Outcome.Invalid ReasonCode.InvalidArgument
              "max_sessions must be greater than zero")
  else if ((vo_max_frame_payload o =? 0) || (vo_max_frame_payload o >? kMaxFramePayload))%bool
  then Some (status_failure Outcome.Invalid ReasonCode.InvalidArgument
              "max_frame_payload is outside the supported range")
  else None.

(** [Server::start], given what the operating system answers when the listener is
    created. *)
Definition server_start (listen : Endpoint -> Z -> option Status) (o : ServerOptions) (im : EngineImpl) :
    Result ServerImpl :=
  match start_refused o with
  | Some s => Failure s
  | None =>
      match listen (vo_endpoint o) (vo_backlog o) with
      | Some s => Failure s
      | None => Success (MkServer o im false true 0 0 0 1 ∅ [] false)
      end
  end.

(** ** Admission *)
Definition session_live (s : ServerImpl) (key : Z) : bool :=
  match sv_conns s !! key with Some v => negb (ss_id v =? 0) | None => false end.
Definition live_sessions (s : ServerImpl) : Z :=
  Z.of_nat (length (List.filter (session_live s) (sv_sessions s))).
Definition session_count : ServerImpl -> Z := live_sessions.

Definition session_new (id : Z) : SessionState :=
  MkSession id true false incarnation_zero 0 0 false false [].

(** [reap_finished_sessions]. *)
Definition reap_finished_sessions (s : ServerImpl) : ServerImpl :=
  set_sv_sessions (List.filter (session_live s) (sv_sessions s)) s.

(** What the accept loop does with an accepted socket. *)
Definition admit_session (s : ServerImpl) : ServerImpl :=
  if live_sessions s >=? vo_max_sessions (sv_options s)
  then MkServer (sv_options s) (sv_engine s) (sv_stop_requested s) (sv_running s)
         (sv_requests_handled s) (sv_sessions_accepted s) (wrap64 (sv_sessions_rejected s + 1))
         (sv_next_session_id s) (sv_conns s) (sv_sessions s) (sv_torn_down s)
  else let id := sv_next_session_id s in
  reap_finished_sessions
    (MkServer (sv_options s) (sv_engine s) (sv_stop_requested s) (sv_running s)
       (sv_requests_handled s) (wrap64 (sv_sessions_accepted s + 1)) (sv_sessions_rejected s)
       (wrap64 (id + 1)) (<[id := session_new id]> (sv_conns s)) (sv_sessions s ++ [id])
       (sv_torn_down s)).

(** ** Stopping *)
(** [request_stop]: every registered session is shut down, none is closed. *)
Definition request_stop (s : ServerImpl) : ServerImpl :=
  set_sv_stop (set_sv_conns (foldr (alter set_ss_down) (sv_conns s) (sv_sessions s)) s).

Definition teardown (s : ServerImpl) : ServerImpl :=
  if sv_torn_down s then s
  else let s := request_stop s in
  MkServer (sv_options s) (sv_engine s) (sv_stop_requested s) false (sv_requests_handled s)
    (sv_sessions_accepted s) (sv_sessions_rejected s) (sv_next_session_id s) (sv_conns s) [] true.

(** [close_session_socket], then the end of [serve]. *)
Definition close_session_socket (v : SessionState) : SessionState :=
  if ss_closed v then v
  else MkSession (ss_id v) false true (ss_client v) (ss_epoch v) (ss_last_seq v) (ss_handshaken v)
         (ss_down v || ss_socket v) (ss_sent v).
Definition session_end (v : SessionState) : SessionState :=
  let v := close_session_socket v in
  MkSession 0 (ss_socket v) (ss_closed v) (ss_client v) (ss_epoch v) (ss_last_seq v)
    (ss_handshaken v) (ss_down v) (ss_sent v).

(** ** Requests *)
(** [validate_envelope]: [None] is the success with [sequence_ok]. *)
Definition validate_envelope (session : SessionState) (e : SessionEnvelope) (current_epoch : Epoch) :
    option Status :=
  if negb (se_session_id e =? ss_id session)
  then Some (status_failure Outcome.Conflict ReasonCode.SessionMismatch
              "the request does not belong to this session")
  else if negb (bool_decide (se_incarnation e = ss_client session))
  then Some (status_failure Outcome.Conflict ReasonCode.IncarnationMismatch
              "the request does not carry this session's incarnation")
  else if negb (se_epoch e =? current_epoch)
  then Some (status_add (status_failure Outcome.Stale ReasonCode.EpochMismatch
              "the request binds a coordinator epoch that is not current")
              ReasonCode.StaleAuthority (decimal_text (se_epoch e)))
  else if negb (ss_last_seq session <? se_seq e)
  then Some (status_add (status_failure Outcome.Stale ReasonCode.SessionSequenceReplayed
              "the request sequence does not advance")
              ReasonCode.SequenceRegression (decimal_text (se_seq e)))
  else None.

Definition Reply : Type := Status * bytes * bool.
Definition malformed_request (detail : string) : Reply :=
  (status_failure Outcome.Invalid ReasonCode.MalformedEncoding detail, [], false).
Definition status_reply (s : Status) : Reply := (s, [], false).
(** The outcome of the decision is the status, its encoding the body. *)
Definition decision_reply (r : Result FailoverDecision) : Reply :=
  match r with
  | Failure s => (s, [], false)
  | Success d => (status_of (fd_outcome d), encoded d, false)
  end.

(** One case of the switch: decode the whole body, or answer malformed. *)
Definition with_body {A} `{Codec A} (detail : string) (body : bytes) (k : A -> EngM Reply) : EngM Reply :=
  match decode_payload body with
  | None => eret (malformed_request detail)
  | Some a => k a
  end.
Definition reply_status (m : EngM Status) : EngM Reply := eng* s := m in eret (status_reply s).
Definition reply_decision (m : EngM (Result FailoverDecision)) : EngM Reply :=
  eng* r := m in eret (decision_reply r).

Definition dispatch (stop_on_shutdown : bool) (type : MessageType) (body : bytes) : EngM Reply :=
  match type with
  | MessageType.PublishFailure => with_body "malformed failure report" body
      (fun r => reply_status (epure (publish_failure_report r)))
  | MessageType.PublishReplacement => with_body "malformed replacement report" body
      (fun r => reply_status (epure (publish_replacement_report r)))
  | MessageType.SetPolicy => with_body "malformed policy" body (fun p => reply_status (set_policy p))
  | MessageType.SetTopology => with_body "malformed topology" body (fun t => reply_status (set_topology t))
  | MessageType.RequestFailover => with_body "malformed failover request" body
      (fun q => reply_decision (request_failover q))
  | MessageType.RequestRollback => with_body "malformed rollback request" body
      (fun q => reply_decision (request_rollback q))
  | MessageType.ReportApplication => with_body "malformed application report" body
      (fun r => reply_decision (record_application r))
  | MessageType.ReportVerification => with_body "malformed verification report" body
      (fun r => reply_decision (record_verification r))
  | MessageType.ResolveInterrupted => with_body "malformed revalidation request" body
      (fun q => reply_decision (resolve_interrupted q))
  | MessageType.Inspect => with_body "malformed inspect request" body (fun q =>
      eng* im := eget in
      eret (status_success, encode_engine_view (inspect im (iq_history_limit q)), false))
  | MessageType.ClaimDirective => with_body "malformed claim request" body (fun q =>
      eng* im := eget in
      eret (status_success, encode_payload (MkClaimResponse (pending_directives im (cq_max_count q))), false))
  | MessageType.Ping =>
      eng* im := eget in
      eret (status_success, wr_buf (writes [wr_u16 kWireProtocolVersion; wr_u64 (im_epoch im);
              wr_incarnation (im_incarnation im)] writer_empty), false)
  | MessageType.Shutdown => eret (status_success, [], stop_on_shutdown)
  | MessageType.Hello | MessageType.HelloAck | MessageType.Response =>
      eret (status_reply (status_failure Outcome.Unsupported ReasonCode.UnknownMessageType
              "message type is not accepted from a client"))
  end.

(** ** Handling one frame *)
Definition kEnvelopeSize : Z := 40.
Definition World : Type := ServerImpl * Fs.

Section service.
(** [detail::send_all]: what writing this frame on this session's socket answers. *)
Context (send_all : SessionState -> bytes -> Status).

Definition max_frame (s : ServerImpl) : Z := vo_max_frame_payload (sv_options s).

(** Encode, then send: [send_control], and [send_response] after its envelope. *)
Definition send_control (key : Z) (type : MessageType) (payload : bytes) (s : ServerImpl) :
    Status * ServerImpl :=
  match encode_frame type 0 payload (max_frame s), sv_conns s !! key with
  | Failure e, _ => (e, s)
  | Success frame, Some v =>
      let sent := send_all v frame in
      (sent, if status_ok sent then on_session key (push_ss_sent frame) s else s)
  | Success frame, None => (status_success, s)
  end.

Definition response_payload (op : MessageType) (status : Status) (body : bytes) : bytes :=
  encode_payload (MkResponse (message_type_code op) (status_outcome status) (status_reasons status)) ++ body.
Definition send_response (key : Z) (op : MessageType) (status : Status) (body : bytes) (s : ServerImpl) :
    Status * ServerImpl :=
  send_control key MessageType.Response (response_payload op status body) s.

Definition shutdown_socket (key : Z) (s : ServerImpl) : ServerImpl := on_session key set_ss_down s.

(** A refusal that also ends the session: respond, then shut the socket down. *)
Definition refuse_session (key : Z) (op : MessageType) (status : Status) (s : ServerImpl) : ServerImpl :=
  shutdown_socket key (send_response key op status [] s).2.

Definition handshake (request : HelloRequest) (epoch : Epoch) (v : SessionState) : SessionState :=
  MkSession (ss_id v) (ss_socket v) (ss_closed v) (hq_client_incarnation request) epoch 0 true
    (ss_down v) (ss_sent v).
Definition hello_response (v : SessionState) (s : ServerImpl) : HelloResponse :=
  MkHelloResponse kWireProtocolVersion (im_epoch (sv_engine s)) (im_incarnation (sv_engine s)) (ss_id v)
    (max_frame s mod two32) 0.

Definition handle_hello (key : Z) (session : SessionState) (payload : bytes) (s : ServerImpl) : ServerImpl :=
  match decode_payload payload with
  | None => refuse_session key MessageType.Hello
      (status_failure Outcome.Invalid ReasonCode.MalformedEncoding "malformed hello") s
  | Some request =>
      if negb (hq_protocol_version request =? kWireProtocolVersion)
      then refuse_session key MessageType.Hello
             (status_failure Outcome.Unsupported ReasonCode.ProtocolVersionMismatch
                "unsupported protocol version") s
      else if ss_handshaken session
      then refuse_session key MessageType.Hello
             (status_failure Outcome.Conflict ReasonCode.SessionMismatch
                "the session has already completed its handshake") s
      else
        let s := on_session key (handshake request (im_epoch (sv_engine s))) s in
        let '(sent, s) := send_control key MessageType.HelloAck
                            (encode_payload (hello_response session s)) s in
        if status_ok sent then s else shutdown_socket key s
  end.

(** After the authority check: the engine call, the sequence, the response. *)
Definition execute (key : Z) (type : MessageType) (seq : Z) (body : bytes) (w : World) : World :=
  let '(s, fs) := w in
  let s := set_sv_handled (wrap64 (sv_requests_handled s + 1)) s in
  let '(status, response_body, stop_after, im, fs) :=
    dispatch (vo_stop_on_shutdown_message (sv_options s)) type body (sv_engine s) fs in
  let s := on_session key (set_ss_last_seq seq) (set_sv_engine im s) in
  let '(sent, s) := send_response key type status response_body s in
  if negb (status_ok sent) then (shutdown_socket key s, fs)
  else if stop_after : bool then (shutdown_socket key (request_stop s), fs)
  else (s, fs).

Definition handle_request (key : Z) (session : SessionState) (type : MessageType) (payload : bytes)
    (w : World) : World :=
  let '(s, fs) := w in
  if negb (ss_handshaken session)
  then (refuse_session key type (status_failure Outcome.Unauthenticated ReasonCode.SessionMismatch
          "the session has not completed its handshake") s, fs)
  else if Z.of_nat (length payload) <? kEnvelopeSize
  then (refuse_session key type (status_failure Outcome.Invalid ReasonCode.TruncatedFrame
          "request is shorter than the session envelope") s, fs)
  else match (decode (reader_of payload)).1 with
  | None => (refuse_session key type (status_failure Outcome.Invalid ReasonCode.MalformedEncoding
               "malformed session envelope") s, fs)
  | Some envelope =>
      match validate_envelope session envelope (im_epoch (sv_engine s)) with
      | Some authority => ((send_response key type authority [] s).2, fs)
      | None => execute key type (se_seq envelope) (drop 40 payload) (s, fs)
      end
  end.

(** [Server::Impl::handle_frame] for the session object [key]. *)
Definition handle_frame (key : Z) (header : FrameHeader) (payload : bytes) (w : World) : World :=
  match sv_conns w.1 !! key with
  | None => w
  | Some session =>
      match fh_type header with
      | MessageType.Hello => (handle_hello key session payload w.1, w.2)
      | type => handle_request key session type payload w
      end
  end.

(** ** The read loop *)
(** What [wait_readable] and [recv_some] answer. *)
Inductive Reading :=
  | PollFailed
  | NotReadable
  | ReceiveFailed
  | Received (data : bytes).

(** [Server::Impl::serve], on the readings the socket will give; [None] when they
    ran out before the loop ended. [close_session] is set by the frame handler. *)
Fixpoint serve_loop (key : Z) (readings : list Reading) (decoder : FrameDecoder) (close_session : bool)
    (w : World) : option World :=
  if (close_session || sv_stop_requested w.1)%bool then Some w
  else match readings with
  | [] => None
  | PollFailed :: _ => Some w
  | NotReadable :: rest => serve_loop key rest decoder close_session w
  | ReceiveFailed :: _ | Received [] :: _ => Some w
  | Received data :: rest =>
      let on_frame h p (st : World * bool) :=
        let w := handle_frame key h p st.1 in
        (w, (st.2 || sv_stop_requested w.1)%bool) in
      let '(pushed, decoder, (w, close_session)) := decoder_push on_frame decoder data (w, close_session) in
      if negb (status_ok pushed) then Some w
      else serve_loop key rest decoder close_session w
  end.

Definition serve (key : Z) (readings : list Reading) (w : World) : option World :=
  option_map (fun w => (on_session key session_end w.1, w.2))
    (serve_loop key readings (decoder_new (max_frame w.1)) false w).
End service.

(** [Server::shutdown]; [run_active] while [run] waits and will tear down itself. *)
Definition server_shutdown (run_active : bool) (s : ServerImpl) : ServerImpl :=
  let s := request_stop s in if run_active then s else teardown s.

(** ** What sending and shutting down leave alone *)
(** The part of a session that decides whether a request is honoured. *)
Definition session_authority (v : SessionState) : Z * Incarnation * Epoch * Z * bool :=
  (ss_id v, ss_client v, ss_epoch v, ss_last_seq v, ss_handshaken v).
Definition registration (s : ServerImpl) : Z * list Z * Z * bool :=
  (sv_next_session_id s, sv_sessions s, sv_requests_handled s, sv_torn_down s).

Record inert (s s' : ServerImpl) : Prop := {
  in_options : sv_options s' = sv_options s;
  in_engine : sv_engine s' = sv_engine s;
  in_registration : registration s' = registration s;
  in_sessions key : session_authority <$> sv_conns s' !! key = session_authority <$> sv_conns s !! key;
}.
#[global] Instance inert_preorder : PreOrder inert.
Proof.
  split; [by split|]. intros a b c [] []. split; try congruence.
Qed.

Lemma on_session_inert key f s :
  (forall v, session_authority (f v) = session_authority v) -> inert s (on_session key f s).
Proof.
  intros H. split; [done..|]. intros k. cbn. destruct (decide (k = key)) as [->|].
  - rewrite lookup_alter_eq. destruct (sv_conns s !! key); cbn; [by rewrite H|done].
  - by rewrite lookup_alter_ne.
Qed.

Section service_laws.
Context (send_all : SessionState -> bytes -> Status).

Lemma send_control_inert key type payload s : inert s (send_control send_all key type payload s).2.
Proof.
  unfold send_control. destruct (encode_frame _ _ _ _); [|done].
  destruct (sv_conns s !! key); [|done]. cbn. case_if; [|done]. by apply on_session_inert.
Qed.
Lemma send_response_inert key op st body s : inert s (send_response send_all key op st body s).2.
Proof. apply send_control_inert. Qed.
Lemma shutdown_socket_inert key s : inert s (shutdown_socket key s).
Proof. by apply on_session_inert. Qed.
Lemma refuse_session_inert key op st s : inert s (refuse_session send_all key op st s).
Proof. etransitivity; [apply send_response_inert|apply shutdown_socket_inert]. Qed.
Lemma foldr_down_authority l (c : gmap Z SessionState) key :
  session_authority <$> foldr (alter set_ss_down) c l !! key = session_authority <$> c !! key.
Proof.
  induction l as [|k l IH]; [done|]. cbn. destruct (decide (key = k)) as [->|].
  - rewrite lookup_alter_eq, <- IH. by destruct (foldr _ _ _ !! k).
  - by rewrite lookup_alter_ne.
Qed.
Lemma request_stop_inert s : inert s (request_stop s).
Proof. split; [done..|]. intros. cbn. apply foldr_down_authority. Qed.
End service_laws.

(** ** Operations behind the messages *)
Definition request_op (type : MessageType) (body : bytes) : option Operation :=
  match type with
  | MessageType.PublishFailure => OpPublishFailure <$> decode_payload body
  | MessageType.PublishReplacement => OpPublishReplacement <$> decode_payload body
  | MessageType.SetPolicy => OpSetPolicy <$> decode_payload body
  | MessageType.SetTopology => OpSetTopology <$> decode_payload body
  | MessageType.RequestFailover => OpFailover <$> decode_payload body
  | MessageType.RequestRollback => OpRollback <$> decode_payload body
  | MessageType.ReportApplication => OpApplication <$> decode_payload body
  | MessageType.ReportVerification => OpVerification <$> decode_payload body
  | MessageType.ResolveInterrupted => OpRevalidation <$> decode_payload body
  | _ => None
  end.

Lemma request_op_not_close type body op : request_op type body = Some op -> op <> OpClose.
Proof. destruct type; cbn; try done; destruct (decode_payload body); cbn; congruence. Qed.

Lemma reply_status_run m im fs r im' fs' :
  reply_status m im fs = (r, im', fs') -> exists s, m im fs = (s, im', fs').
Proof.
  unfold reply_status, ebind, iobind. destruct (m im fs) as [[s im1] fs1].
  intros [= _ <- <-]. by eexists.
Qed.
Lemma reply_decision_run m im fs r im' fs' :
  reply_decision m im fs = (r, im', fs') -> exists s, edecide m im fs = (s, im', fs').
Proof.
  unfold reply_decision, edecide, ebind, iobind. destruct (m im fs) as [[s im1] fs1].
  intros [= _ <- <-]. by eexists.
Qed.

(** Every message is one operation of the engine, or only looks at it. *)
Lemma dispatch_perform stop type body im fs r im' fs' :
  dispatch stop type body im fs = (r, im', fs') ->
  match request_op type body with
  | Some op => exists s, perform op im fs = (s, im', fs')
  | None => im' = im /\ fs' = fs
  end.
Proof.
  intros H. unfold dispatch, with_body, request_op in *.
  destruct type;
    try (destruct (decode_payload body); cbn [fmap option_fmap option_map];
      [first [by apply reply_status_run in H | by apply reply_decision_run in H | by injection H as _ <- <-]
      |by injection H as _ <- <-]);
    by injection H as _ <- <-.
Qed.

(** ** What one frame does *)
(** The check a request passed before it reached the engine. *)
Record authorised (s : ServerImpl) (key : Z) (payload : bytes) (e : SessionEnvelope) : Prop := {
  au_decoded : (decode (reader_of payload)).1 = Some e;
  au_session : exists v, sv_conns s !! key = Some v /\ ss_handshaken v = true /\
    se_session_id e = ss_id v /\ se_incarnation e = ss_client v /\ ss_last_seq v < se_seq e;
  au_epoch : se_epoch e = im_epoch (sv_engine s);
}.

(** One frame either leaves everything but sent responses alone, or completes a
    handshake, or executes one authorised request. *)
Inductive frame_effect (key : Z) (type : MessageType) (payload : bytes) : World -> World -> Prop :=
  | fe_inert s s' fs : inert s s' -> frame_effect key type payload (s, fs) (s', fs)
  | fe_handshake s s' fs v request :
      type = MessageType.Hello -> sv_conns s !! key = Some v -> ss_handshaken v = false ->
      inert (on_session key (handshake request (im_epoch (sv_engine s))) s) s' ->
      frame_effect key type payload (s, fs) (s', fs)
  | fe_execute s s' fs fs' e r im :
      type <> MessageType.Hello -> authorised s key payload e ->
      dispatch (vo_stop_on_shutdown_message (sv_options s)) type (drop 40 payload) (sv_engine s) fs =
        (r, im, fs') ->
      inert (on_session key (set_ss_last_seq (se_seq e))
        (set_sv_engine im (set_sv_handled (wrap64 (sv_requests_handled s + 1)) s))) s' ->
      frame_effect key type payload (s, fs) (s', fs').

Lemma validate_envelope_None v e epoch :
  validate_envelope v e epoch = None ->
  se_session_id e = ss_id v /\ se_incarnation e = ss_client v /\ se_epoch e = epoch /\ ss_last_seq v < se_seq e.
Proof.
  unfold validate_envelope.
  destruct (Z.eqb_spec (se_session_id e) (ss_id v)); [|done].
  destruct (bool_decide_reflect (se_incarnation e = ss_client v)); [|done].
  destruct (Z.eqb_spec (se_epoch e) epoch); [|done].
  destruct (Z.ltb_spec (ss_last_seq v) (se_seq e)); done.
Qed.

Section frames.
Context (send_all : SessionState -> bytes -> Status).

Lemma handle_hello_effect key v payload s fs :
  sv_conns s !! key = Some v ->
  frame_effect key MessageType.Hello payload (s, fs) (handle_hello send_all key v payload s, fs).
Proof.
  intros Hv. unfold handle_hello.
  destruct (decode_payload payload) as [request|]; [|by apply fe_inert, refuse_session_inert].
  destruct (negb _); [by apply fe_inert, refuse_session_inert|].
  destruct (ss_handshaken v) eqn:Hh; [by apply fe_inert, refuse_session_inert|].
  apply (fe_handshake _ _ _ s _ fs v request); [done..|].
  destruct (send_control _ _ _ _ _) as [sent s1] eqn:E.
  match type of E with send_control _ _ ?t ?p ?s0 = _ =>
    pose proof (send_control_inert send_all key t p s0) as H end.
  rewrite E in H. cbn [snd] in H.
  case_if; [done|]. etransitivity; [exact H|apply shutdown_socket_inert].
Qed.

Lemma execute_inert key type seq body s fs r im fs' :
  dispatch (vo_stop_on_shutdown_message (sv_options s)) type body (sv_engine s) fs = (r, im, fs') ->
  exists s', execute send_all key type seq body (s, fs) = (s', fs') /\
    inert (on_session key (set_ss_last_seq seq)
      (set_sv_engine im (set_sv_handled (wrap64 (sv_requests_handled s + 1)) s))) s'.
Proof.
  intros E. unfold execute.
  change (sv_options (set_sv_handled _ s)) with (sv_options s).
  change (sv_engine (set_sv_handled _ s)) with (sv_engine s). rewrite E.
  destruct r as [[st body'] stop].
  match goal with |- context [send_response _ key type st body' ?s0] =>
    pose proof (send_response_inert send_all key type st body' s0) as H; set (s1 := s0) in * end.
  destruct (send_response _ _ _ _ _ _) as [sent s2]. cbn [snd] in H.
  repeat case_if; eexists; (split; [reflexivity|]); [|  |done].
  - etransitivity; [exact H|apply shutdown_socket_inert].
  - etransitivity; [exact H|]. etransitivity; [apply request_stop_inert|apply shutdown_socket_inert].
Qed.

Lemma handle_request_effect key v type payload s fs :
  sv_conns s !! key = Some v -> type <> MessageType.Hello ->
  frame_effect key type payload (s, fs) (handle_request send_all key v type payload (s, fs)).
Proof.
  intros Hv Ht. unfold handle_request.
  destruct (ss_handshaken v) eqn:Hh; [|by apply fe_inert, refuse_session_inert]. cbn [negb].
  case_if; [by apply fe_inert, refuse_session_inert|].
  destruct (decode (reader_of payload)).1 as [e|] eqn:Hd; [|by apply fe_inert, refuse_session_inert].
  destruct (validate_envelope v e _) eqn:Hval; [by apply fe_inert, send_response_inert|].
  apply validate_envelope_None in Hval as (? & ? & ? & ?).
  destruct (dispatch (vo_stop_on_shutdown_message (sv_options s)) type (drop 40 payload) (sv_engine s) fs)
    as [[r im] fs'] eqn:E.
  destruct (execute_inert key type (se_seq e) _ _ _ _ _ _ E) as (s' & -> & Hin).
  apply (fe_execute _ _ _ s s' fs fs' e r im); [done| |done..].
  split; [done| |done]. by exists v.
Qed.

Lemma handle_frame_effect key h payload w :
  frame_effect key (fh_type h) payload w (handle_frame send_all key h payload w).
Proof.
  destruct w as [s fs]. unfold handle_frame. cbn [fst snd].
  destruct (sv_conns s !! key) as [v|] eqn:Hv; [|by apply fe_inert].
  destruct (fh_type h) eqn:Ht;
    first [by apply handle_hello_effect | by apply handle_request_effect].
Qed.

(** ** Runs of frames over any sessions *)
Definition InFrame : Type := Z * FrameHeader * bytes.
Definition handle_frames (l : list InFrame) (w : World) : World :=
  foldl (fun w f => handle_frame send_all f.1.1 f.1.2 f.2 w) w l.

Definition session_at (w : World) (key : Z) : option (Z * Incarnation * Epoch * Z * bool) :=
  session_authority <$> sv_conns w.1 !! key.
Definition untouched (w w' : World) : Prop :=
  sv_engine w'.1 = sv_engine w.1 /\ w'.2 = w.2 /\ sv_requests_handled w'.1 = sv_requests_handled w.1.

(** A handshaken session stays bound and its sequence never goes back. *)
Definition bound_at (w : World) (key seq : Z) : Prop :=
  exists v, sv_conns w.1 !! key = Some v /\ ss_handshaken v = true /\ seq <= ss_last_seq v.

Lemma inert_session s s' key v : inert s s' -> sv_conns s !! key = Some v ->
  exists v', sv_conns s' !! key = Some v' /\ session_authority v' = session_authority v.
Proof.
  intros Hin Hv. pose proof (in_sessions _ _ Hin key) as H. rewrite Hv in H.
  destruct (sv_conns s' !! key) as [v'|]; [|done]. exists v'. split; [done|]. cbn [fmap option_fmap option_map] in H. congruence.
Qed.

Lemma inert_bound s s' fs fs' key seq : inert s s' -> bound_at (s, fs) key seq -> bound_at (s', fs') key seq.
Proof.
  intros Hin (v & Hv & Hh & Hs). destruct (inert_session _ _ _ _ Hin Hv) as (v' & Hv' & E).
  exists v'. injection E as _ _ _ E1 E2. split; [done|]. split; congruence.
Qed.

Lemma frame_effect_bound key type payload w w' k seq :
  frame_effect key type payload w w' -> bound_at w k seq -> bound_at w' k seq.
Proof.
  intros [s s' fs Hin|s s' fs v request _ Hv Hf Hin|s s' fs fs' e r im _ [_ (v & Hv & Hh & _ & _ & Hlt) _] _ Hin] Hb.
  - by eapply inert_bound.
  - eapply (inert_bound _ _ fs); [exact Hin|]. destruct Hb as (v' & Hv' & Hh & Hs). exists v'. split; [|done].
    cbn in *. rewrite lookup_alter_ne; [done|]. intros ->. congruence.
  - eapply (inert_bound _ _ fs); [exact Hin|]. destruct Hb as (v' & Hv' & Hh' & Hs). cbn in *.
    destruct (decide (k = key)) as [->|Hne].
    + exists (set_ss_last_seq (se_seq e) v'). cbn. rewrite lookup_alter_eq, Hv'.
      split; [done|]. split; [done|]. rewrite Hv in Hv'. injection Hv' as <-. cbn. lia.
    + exists v'. cbn. by rewrite lookup_alter_ne.
Qed.

Lemma handle_frames_bound l w k seq : bound_at w k seq -> bound_at (handle_frames l w) k seq.
Proof.
  revert w. induction l as [|f l IH]; intros w H; [done|]. cbn. apply IH.
  eapply frame_effect_bound; [apply handle_frame_effect|done].
Qed.

Lemma inert_untouched s s' fs : inert s s' -> untouched (s, fs) (s', fs).
Proof.
  intros Hin. split; [apply (in_engine _ _ Hin)|]. split; [done|].
  pose proof (in_registration _ _ Hin) as E. by injection E.
Qed.

Lemma frame_effect_stale key type payload w w' e seq :
  frame_effect key type payload w w' -> bound_at w key seq ->
  (decode (reader_of payload)).1 = Some e -> se_seq e <= seq -> untouched w w'.
Proof.
  intros [s s' fs Hin|s s' fs v request _ Hv Hf Hin|s s' fs fs' e' r im _ [Hd (v & Hv & Hh & _ & _ & Hlt) _] _ Hin]
    (v0 & Hv0 & _ & Hs) He Hle.
  - by apply inert_untouched.
  - by apply (inert_untouched (on_session key (handshake request (im_epoch (sv_engine s))) s)).
  - exfalso. cbn in *. assert (e' = e) as -> by congruence. rewrite Hv in Hv0. injection Hv0 as <-. lia.
Qed.

Lemma frame_effect_executed key type payload w w' :
  frame_effect key type payload w w' -> sv_requests_handled w'.1 <> sv_requests_handled w.1 ->
  exists e, (decode (reader_of payload)).1 = Some e /\ bound_at w' key (se_seq e).
Proof.
  intros [s s' fs Hin|s s' fs v request _ Hv Hf Hin|s s' fs fs' e r im _ [Hd (v & Hv & Hh & _ & _ & Hlt) _] _ Hin] Hne;
    cbn in Hne.
  - pose proof (in_registration _ _ Hin) as E. injection E as _ _ E _. by destruct Hne.
  - pose proof (in_registration _ _ Hin) as E. injection E as _ _ E _. by destruct Hne.
  - exists e. split; [done|]. eapply (inert_bound _ _ fs); [exact Hin|].
    exists (set_ss_last_seq (se_seq e) v). cbn. rewrite lookup_alter_eq, Hv. by split.
Qed.
Lemma request_op_revalidation type body q :
  request_op type body = Some (OpRevalidation q) -> type = MessageType.ResolveInterrupted.
Proof. destruct type; cbn; try done; destruct (decode_payload body); cbn; congruence. Qed.

Lemma frame_effect_engine_inv key type payload w w' :
  frame_effect key type payload w w' -> type <> MessageType.ResolveInterrupted ->
  engine_inv (sv_engine w.1) -> engine_inv (sv_engine w'.1).
Proof.
  intros [s s' fs Hin|s s' fs v request _ Hv Hf Hin|s s' fs fs' e r im _ _ Hd Hin] Ht Hinv; cbn in *;
    rewrite (in_engine _ _ Hin); [done..|]. cbn.
  apply dispatch_perform in Hd. destruct (request_op type _) as [op|] eqn:Hop; [|by destruct Hd as [-> _]].
  destruct Hd as [st Hd]. eapply single_winner_preserved; [done|by eapply request_op_not_close| |done].
  intros found (q & -> & _). exfalso. clear Hd. by apply request_op_revalidation in Hop.
Qed.
End frames.

(** ** Properties of the service *)
Section claims.
Context (send_all : SessionState -> bytes -> Status).

(** C24: no effect without session authority. Whatever frame arrives on a session,
    the engine, the medium and the request counter are as before unless the session
    had completed its handshake and the payload carries this session's identity and
    incarnation, the coordinator's current epoch and an advancing sequence; then
    exactly the dispatched engine call has happened and the sequence is taken. *)
Theorem frame_needs_authority key h payload s fs s' fs' :
  handle_frame send_all key h payload (s, fs) = (s', fs') ->
  (sv_engine s' = sv_engine s /\ fs' = fs /\ sv_requests_handled s' = sv_requests_handled s) \/
  exists v e r v', sv_conns s !! key = Some v /\ ss_handshaken v = true /\
    (decode (reader_of payload)).1 = Some e /\ se_session_id e = ss_id v /\
    se_incarnation e = ss_client v /\ se_epoch e = im_epoch (sv_engine s) /\ ss_last_seq v < se_seq e /\
    dispatch (vo_stop_on_shutdown_message (sv_options s)) (fh_type h) (drop 40 payload) (sv_engine s) fs =
      (r, sv_engine s', fs') /\
    sv_requests_handled s' = wrap64 (sv_requests_handled s + 1) /\
    sv_conns s' !! key = Some v' /\ ss_last_seq v' = se_seq e.
Proof.
  intros E. pose proof (handle_frame_effect send_all key h payload (s, fs)) as H. rewrite E in H.
  inversion H as [? ? ? Hin|? ? ? v request _ Hv _ Hin|? ? ? ? e r im _ [Hd (v & Hv & Hh & Hi & Hc & Hlt) He] Hdis Hin];
    subst.
  - left. by apply (inert_untouched s s' fs').
  - left. by apply (inert_untouched _ s' fs') in Hin.
  - right. destruct (inert_session _ _ key (set_ss_last_seq (se_seq e) v) Hin) as (v' & Hv' & Ha).
    { cbn. by rewrite lookup_alter_eq, Hv. }
    exists v, e, r, v'. pose proof (in_engine _ _ Hin) as Him. cbn in Him.
    pose proof (in_registration _ _ Hin) as R. injection R as _ _ R _. injection Ha as _ _ _ Ha _.
    rewrite Him. by repeat split.
Qed.

(** C21: at most once. Once a request of a session has been executed, the same frame
    never reaches the engine again on that session, whatever frames arrive on any
    session in between. *)
Theorem request_executed_once key h payload l w :
  let w1 := handle_frame send_all key h payload w in
  sv_requests_handled w1.1 <> sv_requests_handled w.1 ->
  let w2 := handle_frames send_all l w1 in
  let w3 := handle_frame send_all key h payload w2 in
  sv_engine w3.1 = sv_engine w2.1 /\ w3.2 = w2.2 /\ sv_requests_handled w3.1 = sv_requests_handled w2.1.
Proof.
  intros w1 Hne w2 w3.
  destruct (frame_effect_executed _ _ _ _ _ (handle_frame_effect send_all key h payload w) Hne)
    as (e & Hd & Hb).
  pose proof (handle_frames_bound send_all l _ _ _ Hb) as Hb2. fold w1 in Hb2. fold w2 in Hb2.
  apply (frame_effect_stale key (fh_type h) payload w2 w3 e (se_seq e)); [|done..].
  apply handle_frame_effect.
Qed.

(** the single winner survives the service. From any state where it holds, every
    sequence of frames on any sessions without a revalidation keeps the engine's
    invariant: unique attempts, bounded epochs, and at most one attempt holding
    current authority per subject generation. *)
Theorem service_single_winner l s fs :
  engine_inv (sv_engine s) ->
  Forall (fun f => fh_type f.1.2 <> MessageType.ResolveInterrupted) l ->
  engine_inv (sv_engine (handle_frames send_all l (s, fs)).1) /\
  forall subject generation a b,
    let st := engine_state (sv_engine (handle_frames send_all l (s, fs)).1) in
    a ∈ ds_attempts st -> b ∈ ds_attempts st ->
    live_authority st subject generation a = true -> live_authority st subject generation b = true -> a = b.
Proof.
  intros Hinv Hl. assert (H : engine_inv (sv_engine (handle_frames send_all l (s, fs)).1)).
  { change (sv_engine s) with (sv_engine (s, fs).1) in Hinv. generalize dependent (s, fs).
    induction Hl as [|f l Hf Hl IH]; intros w Hinv; [done|]. cbn. apply IH.
    eapply frame_effect_engine_inv; [apply handle_frame_effect|done|done]. }
  split; [done|]. intros subject generation a b st Ha Hb La Lb.
  exact (en_winner _ H subject generation a b Ha Hb La Lb).
Qed.
End claims.

(** ** The registry, over every interleaving *)
Section registry.
Context (send_all : SessionState -> bytes -> Status).

(** One step of some thread of the server; the index counts admissions tried. *)
Inductive server_step : Z -> World -> World -> Prop :=
  | st_admit s fs : server_step 1 (s, fs) (admit_session s, fs)
  | st_frame key h payload w : server_step 0 w (handle_frame send_all key h payload w)
  | st_end key s fs : server_step 0 (s, fs) (on_session key session_end s, fs)
  | st_stop s fs : server_step 0 (s, fs) (request_stop s, fs)
  | st_teardown s fs : server_step 0 (s, fs) (teardown s, fs).
Inductive server_steps : Z -> World -> World -> Prop :=
  | sts_refl w : server_steps 0 w w
  | sts_step n m w1 w2 w3 : server_steps n w1 w2 -> server_step m w2 w3 -> server_steps (n + m) w1 w3.

Record registry_inv (s : ServerImpl) : Prop := {
  ri_next : 0 < sv_next_session_id s;
  ri_keys k v : sv_conns s !! k = Some v ->
    0 < k < sv_next_session_id s /\ (ss_id v = k \/ ss_id v = 0);
  ri_unique : NoDup (sv_sessions s);
  ri_known k : k ∈ sv_sessions s -> is_Some (sv_conns s !! k);
  ri_bound : live_sessions s <= vo_max_sessions (sv_options s);
}.

(** Steps that keep the identities of the sessions, or end some. *)
Record fades (s s' : ServerImpl) : Prop := {
  fa_options : sv_options s' = sv_options s;
  fa_next : sv_next_session_id s' = sv_next_session_id s;
  fa_sessions : sv_sessions s' = sv_sessions s \/ sv_sessions s' = [];
  fa_ids k : ss_id <$> sv_conns s' !! k = ss_id <$> sv_conns s !! k \/
    (is_Some (sv_conns s !! k) /\ ss_id <$> sv_conns s' !! k = Some 0);
}.
#[local] Instance fades_trans : Transitive fades.
Proof.
  intros a b c [A1 A2 A3 A4] [B1 B2 B3 B4]. split; [congruence|congruence| |].
  - destruct B3 as [->| ->]; [done|by right].
  - intros k. destruct (A4 k) as [E|[Hs E]], (B4 k) as [F|[Ht F]].
    + left. congruence.
    + right. split; [|done]. destruct (sv_conns a !! k); [by eexists|].
      by destruct Ht as [v Hv]; rewrite Hv in E.
    + right. split; [done|congruence].
    + by right.
Qed.

Lemma inert_fades s s' : inert s s' -> fades s s'.
Proof.
  intros Hin. pose proof (in_registration _ _ Hin) as R. injection R as R1 R2 _ _.
  split; [apply (in_options _ _ Hin)|done|by left|]. intros k. left.
  pose proof (in_sessions _ _ Hin k) as E.
  destruct (sv_conns s' !! k), (sv_conns s !! k); cbn in *; try done. by injection E as -> _.
Qed.

Lemma on_session_fades key f s :
  (forall v, ss_id (f v) = ss_id v \/ ss_id (f v) = 0) -> fades s (on_session key f s).
Proof.
  intros Hf. split; [done|done|by left|]. intros k. cbn.
  destruct (decide (k = key)) as [->|]; [|rewrite lookup_alter_ne by done; by left].
  rewrite lookup_alter_eq. destruct (sv_conns s !! key) as [v|]; cbn; [|by left].
  destruct (Hf v) as [->| ->]; [by left|right; by split; [eexists|]].
Qed.

Lemma frame_fades key h payload w : fades w.1 (handle_frame send_all key h payload w).1.
Proof.
  destruct (handle_frame_effect send_all key h payload w)
    as [s s' fs Hin|s s' fs v request _ Hv Hf Hin|s s' fs fs' e r im _ _ _ Hin]; cbn [fst].
  - by apply inert_fades.
  - etransitivity; [|by apply inert_fades]. apply on_session_fades. by left.
  - etransitivity; [|by apply inert_fades].
    destruct (on_session_fades key (set_ss_last_seq (se_seq e))
      (set_sv_engine im (set_sv_handled (wrap64 (sv_requests_handled s + 1)) s))) as [F1 F2 F3 F4]; [by left|].
    by split.
Qed.

Lemma session_end_id v : ss_id (session_end v) = ss_id v \/ ss_id (session_end v) = 0.
Proof. by right. Qed.

Lemma teardown_fades s : fades s (teardown s).
Proof.
  unfold teardown. destruct (sv_torn_down s); [split; [done|done|by left|by left]|].
  destruct (inert_fades _ _ (request_stop_inert s)) as [F1 F2 F3 F4]. split; [done|done|by right|done].
Qed.

Lemma filter_length_le {A} (p q : A -> bool) l :
  (forall x, x ∈ l -> p x = true -> q x = true) -> (length (List.filter p l) <= length (List.filter q l))%nat.
Proof.
  induction l as [|x l IH]; intros H; [done|]. cbn.
  assert (IH' : (length (List.filter p l) <= length (List.filter q l))%nat)
    by (apply IH; intros y Hy; apply H; by constructor).
  destruct (p x) eqn:Hp; [rewrite (H x) by (done || constructor); cbn; lia|]. destruct (q x); cbn; lia.
Qed.

Lemma fades_live s s' k : fades s s' -> session_live s' k = true -> session_live s k = true.
Proof.
  intros Hf. unfold session_live. destruct (fa_ids _ _ Hf k) as [E|[_ E]];
    destruct (sv_conns s' !! k) as [v'|], (sv_conns s !! k) as [v|]; cbn in *; try done;
    injection E as E; by rewrite E.
Qed.

Lemma fades_inv s s' : fades s s' -> registry_inv s -> registry_inv s'.
Proof.
  intros Hf [H1 H2 H3 H4 H5]. pose proof Hf as [F1 F2 F3 F4]. split.
  - by rewrite F2.
  - intros k v Hv. rewrite F2. destruct (F4 k) as [E|[[v0 Hv0] E]]; rewrite Hv in E; cbn in E.
    + destruct (sv_conns s !! k) as [v0|] eqn:Hv0; [|done]. injection E as ->. by apply H2.
    + injection E as ->. split; [by apply (H2 k v0)|by right].
  - destruct F3 as [->| ->]; [done|constructor].
  - intros k Hk. assert (k ∈ sv_sessions s) as Hk0 by (destruct F3 as [E|E]; rewrite E in Hk; [done|by apply elem_of_nil in Hk]).
    destruct (H4 k Hk0) as [v Hv]. destruct (F4 k) as [E|[_ E]]; [rewrite Hv in E|];
      destruct (sv_conns s' !! k); cbn in E; first [discriminate E | by eexists].
  - rewrite F1. unfold live_sessions in *.
    assert (length (List.filter (session_live s') (sv_sessions s')) <=
            length (List.filter (session_live s) (sv_sessions s)))%nat; [|lia].
    destruct F3 as [->| ->]; [|cbn; lia]. apply filter_length_le. intros x _. by apply fades_live.
Qed.

Lemma live_new s id v k : sv_conns s !! id = None -> ss_id v <> 0 -> k <> id ->
  session_live (set_sv_conns (<[id := v]> (sv_conns s)) s) k = session_live s k.
Proof. intros _ _ Hne. unfold session_live. cbn. by rewrite lookup_insert_ne. Qed.

Lemma admit_inv s : sv_next_session_id s + 1 < two64 -> registry_inv s -> registry_inv (admit_session s).
Proof.
  intros Hw [H1 H2 H3 H4 H5]. unfold admit_session.
  destruct (Z.geb_spec (live_sessions s) (vo_max_sessions (sv_options s))) as [|Hlt]; [by split|].
  set (id := sv_next_session_id s) in *.
  assert (Hfresh : sv_conns s !! id = None).
  { destruct (sv_conns s !! id) as [v|] eqn:E; [|done]. apply H2 in E. lia. }
  assert (Hnot : id ∉ sv_sessions s) by (intros [v Hv]%H4; congruence).
  assert (Hid : wrap64 (id + 1) = id + 1) by (apply Z.mod_small; lia).
  set (conns := <[id := session_new id]> (sv_conns s)).
  set (live := fun k => match conns !! k with Some v => negb (ss_id v =? 0) | None => false end).
  assert (Hlive : forall k, k ∈ sv_sessions s -> live k = session_live s k).
  { intros k Hk. unfold live, conns, session_live. rewrite lookup_insert_ne; [done|]. by intros ->. }
  assert (Hcount : (length (List.filter live (sv_sessions s ++ [id])) <= 1 + length (List.filter (session_live s) (sv_sessions s)))%nat).
  { rewrite List.filter_app, length_app.
    assert (length (List.filter live (sv_sessions s)) <= length (List.filter (session_live s) (sv_sessions s)))%nat.
    { apply filter_length_le. intros x Hx. by rewrite Hlive. }
    cbn. destruct (live id); cbn; lia. }
  unfold reap_finished_sessions. split; cbn.
  - lia.
  - intros k v. rewrite Hid. unfold conns. destruct (decide (k = id)) as [->|].
    + rewrite lookup_insert_eq. intros [= <-]. split; [lia|by left].
    + rewrite lookup_insert_ne by done. intros Hv%H2. lia.
  - apply NoDup_ListNoDup, List.NoDup_filter, NoDup_ListNoDup, NoDup_app. split; [done|].
    split; [|apply NoDup_singleton]. intros k Hk ->%list_elem_of_singleton. done.
  - intros k [Hk _]%list_elem_of_In%filter_In. unfold conns. apply list_elem_of_In, elem_of_app in Hk as [Hk| ->%list_elem_of_singleton].
    + destruct (H4 k Hk) as [v Hv]. exists v. rewrite lookup_insert_ne; [done|]. by intros ->.
    + eexists. apply lookup_insert_eq.
  - unfold live_sessions in *. cbn.
    change (session_live _) with live.
    assert (length (List.filter live (List.filter live (sv_sessions s ++ [id]))) <= length (List.filter live (sv_sessions s ++ [id])))%nat.
    { apply List.filter_length_le. }
    lia.
Qed.

Lemma step_fades n w w' : server_step n w w' -> (n = 0 /\ fades w.1 w'.1) \/ (n = 1 /\ w'.1 = admit_session w.1).
Proof.
  intros [s fs|key h payload w0|key s fs|s fs|s fs]; [by right|left; split; [done|]..].
  - apply frame_fades.
  - apply on_session_fades. apply session_end_id.
  - apply inert_fades, request_stop_inert.
  - apply teardown_fades.
Qed.

Lemma admit_next s : sv_next_session_id (admit_session s) = sv_next_session_id s \/
  sv_next_session_id (admit_session s) = wrap64 (sv_next_session_id s + 1).
Proof. unfold admit_session. case_match; [by left|by right]. Qed.
Lemma admit_options s : sv_options (admit_session s) = sv_options s.
Proof. unfold admit_session. by case_match. Qed.

Lemma steps_inv n w w' : server_steps n w w' -> registry_inv w.1 ->
  sv_next_session_id w.1 + n < two64 ->
  0 <= n /\ registry_inv w'.1 /\ sv_options w'.1 = sv_options w.1 /\
  sv_next_session_id w.1 <= sv_next_session_id w'.1 <= sv_next_session_id w.1 + n /\
  forall k, k < sv_next_session_id w.1 -> session_live w'.1 k = true -> session_live w.1 k = true.
Proof.
  induction 1 as [w|n m w1 w2 w3 Hs IH Hst]; intros Hinv Hn.
  { split; [done|]. split; [done|]. split; [done|]. split; [lia|done]. }
  apply step_fades in Hst as [[-> Hf]|[-> E]].
  - rewrite Z.add_0_r in *. destruct (IH Hinv Hn) as (H0 & Hi & Ho & Hnx & Hl).
    split; [done|]. split; [by eapply fades_inv|]. rewrite (fa_options _ _ Hf), (fa_next _ _ Hf).
    split; [done|]. split; [done|]. intros k Hk Hlk. by apply Hl, (fades_live _ _ _ Hf).
  - destruct (IH Hinv ltac:(lia)) as (H0 & Hi & Ho & Hnx & Hl). rewrite E.
    assert (Hw : sv_next_session_id w2.1 + 1 < two64) by lia.
    split; [lia|]. split; [by apply admit_inv|]. rewrite admit_options. split; [done|].
    pose proof (ri_next _ Hi). split.
    { destruct (admit_next w2.1) as [->| ->]; [lia|]. unfold wrap64. rewrite Z.mod_small by lia. lia. }
    intros k Hk Hlk. apply Hl; [done|]. revert Hlk. unfold admit_session. case_match; [done|].
    unfold session_live, reap_finished_sessions. cbn. rewrite lookup_insert_ne by lia. done.
Qed.

Lemma start_registry listen o im s : vo_max_sessions o >= 0 ->
  server_start listen o im = Success s -> registry_inv s /\ sv_next_session_id s = 1 /\ sv_options s = o.
Proof.
  intros Ho. unfold server_start. destruct (start_refused o); [done|].
  destruct (listen _ _); [done|]. intros [= <-]. split; [|done].
  split; [done| | | |change (0 <= vo_max_sessions o); lia].
  - intros k v Hv. cbn in Hv. by rewrite lookup_empty in Hv.
  - constructor.
  - intros k Hk. cbn in Hk. by apply elem_of_nil in Hk.
Qed.
End registry.

Section registry_claims.
Context (send_all : SessionState -> bytes -> Status).

(** C27: admission. However admissions, frames, session ends and stops interleave
    from the start of the server, no more sessions than the configured maximum are
    ever live, every registered live session carries its own non-zero identity, and
    a session that has ended never becomes live again, so no later session acts
    under its identity. *)
Theorem admission_bounded listen o im s0 fs0 n w m w' :
  0 <= vo_max_sessions o -> server_start listen o im = Success s0 ->
  server_steps send_all n (s0, fs0) w -> server_steps send_all m w w' -> 1 + n + m < two64 ->
  live_sessions w'.1 <= vo_max_sessions o /\ NoDup (sv_sessions w'.1) /\
  (forall k v, sv_conns w'.1 !! k = Some v -> ss_id v = k \/ ss_id v = 0) /\
  forall k, is_Some (sv_conns w.1 !! k) -> session_live w.1 k = false -> session_live w'.1 k = false.
Proof.
  intros Ho Hs H1 H2 Hn. destruct (start_registry listen o im s0) as (Hi & Hx & Hop); [lia|done|].
  assert (Hm : 0 <= m) by (clear -H2; induction H2 as [|? ? ? ? ? _ IH Hst]; [done|]; destruct Hst; lia).
  destruct (steps_inv send_all _ _ _ H1) as (H0 & Hi1 & Ho1 & Hn1 & _); [done|cbn; lia|]. cbn in Hn1, Ho1.
  destruct (steps_inv send_all _ _ _ H2) as (_ & Hi2 & Ho2 & _ & Hl2); [done|lia|].
  split; [rewrite <- Hop, <- Ho1, <- Ho2; by apply ri_bound|]. split; [by apply ri_unique|].
  split; [intros k v Hv; by apply (ri_keys _ Hi2)|].
  intros k [v Hv] Hdead. destruct (session_live w'.1 k) eqn:E; [|done].
  rewrite Hl2 in Hdead; [done| |done]. by apply (ri_keys _ Hi1 k v).
Qed.

End registry_claims.

(** ** Bytes and frames *)
Section refinement.
Context (send_all : SessionState -> bytes -> Status).

Lemma send_control_stop key type payload s :
  sv_stop_requested (send_control send_all key type payload s).2 = sv_stop_requested s.
Proof.
  unfold send_control. destruct (encode_frame _ _ _ _); [|done].
  destruct (sv_conns s !! key); [|done]. cbn. by case_if.
Qed.
Lemma refuse_session_stop key op st s :
  sv_stop_requested (refuse_session send_all key op st s) = sv_stop_requested s.
Proof. apply send_control_stop. Qed.

Lemma dispatch_stop stop type body im fs st b flag im' fs' :
  dispatch stop type body im fs = (st, b, flag, im', fs') -> type <> MessageType.Shutdown -> flag = false.
Proof.
  intros H Ht. unfold dispatch, with_body, malformed_request in H.
  destruct type; try done; try (destruct (decode_payload body); [|by injection H]);
    try (by injection H);
    unfold reply_status, reply_decision, status_reply, decision_reply, ebind, iobind, eret, ioret in H;
    repeat case_match; by simplify_eq.
Qed.

Lemma handle_frame_stop key h payload w : fh_type h <> MessageType.Shutdown ->
  sv_stop_requested (handle_frame send_all key h payload w).1 = sv_stop_requested w.1.
Proof.
  destruct w as [s fs]. intros Ht. unfold handle_frame. cbn [fst snd].
  destruct (sv_conns s !! key) as [v|]; [|done].
  assert (Hr : sv_stop_requested (handle_request send_all key v (fh_type h) payload (s, fs)).1 = sv_stop_requested s).
  { unfold handle_request. case_if; [apply refuse_session_stop|]. case_if; [apply refuse_session_stop|].
    destruct (decode (reader_of payload)).1 as [e|]; [|apply refuse_session_stop].
    destruct (validate_envelope _ _ _); [apply send_control_stop|]. unfold execute.
    destruct (dispatch _ _ _ _ _) as [[[[st b] flag] im] fs'] eqn:E.
    apply dispatch_stop in E as ->; [|done].
    unfold send_response. match goal with |- context [send_control _ key ?t ?p ?s0] =>
      pose proof (send_control_stop key t p s0) as H; destruct (send_control send_all key t p s0) as [sent s2] end.
    cbn in H |- *. by case_if. }
  destruct (fh_type h) eqn:E; try exact Hr. clear Hr.
  cbn. unfold handle_hello. destruct (decode_payload payload); [|apply refuse_session_stop].
  repeat (case_if; [apply refuse_session_stop|]).
  match goal with |- context [send_control _ key ?t ?p ?s0] =>
    pose proof (send_control_stop key t p s0) as H; destruct (send_control send_all key t p s0) as [sent s2] end.
  cbn in H |- *. by case_if.
Qed.

Definition deliver_frames (key : Z) (fs : list WireFrame) (w : World) : World :=
  handle_frames send_all (map (fun f => (key, frame_header f, f.2)) fs) w.

Lemma deliver_frames_app key fs1 fs2 w :
  deliver_frames key (fs1 ++ fs2) w = deliver_frames key fs2 (deliver_frames key fs1 w).
Proof. unfold deliver_frames, handle_frames. by rewrite map_app, foldl_app. Qed.

Lemma deliver_frames_stop key fs w :
  Forall (fun f => f.1 <> MessageType.Shutdown) fs -> sv_stop_requested w.1 = false ->
  sv_stop_requested (deliver_frames key fs w).1 = false.
Proof.
  intros Hfs. revert w. induction Hfs as [|f fs Hf Hfs IH]; intros w Hw; [done|].
  change (sv_stop_requested (deliver_frames key fs (handle_frame send_all key (frame_header f) f.2 w)).1 = false).
  apply IH. by rewrite handle_frame_stop.
Qed.

(** The handler [serve] gives to the decoder. *)
Definition serve_handler (key : Z) (h : FrameHeader) (p : bytes) (st : World * bool) : World * bool :=
  let w := handle_frame send_all key h p st.1 in (w, (st.2 || sv_stop_requested w.1)%bool).

Lemma deliver_serve key fs w :
  Forall (fun f => f.1 <> MessageType.Shutdown) fs -> sv_stop_requested w.1 = false ->
  deliver (serve_handler key) fs (w, false) = (deliver_frames key fs w, false).
Proof.
  intros Hfs. revert w. induction Hfs as [|f fs Hf Hfs IH]; intros w Hw; [done|].
  change (deliver (serve_handler key) (f :: fs) (w, false)) with
    (deliver (serve_handler key) fs (serve_handler key (frame_header f) f.2 (w, false))).
  unfold serve_handler at 2. cbn [fst snd orb].
  rewrite (handle_frame_stop key (frame_header f) f.2 w), Hw by done.
  rewrite IH; [done|by rewrite handle_frame_stop].
Qed.

Lemma serve_loop_stream key max bound chunks fs t0 w :
  Forall (frame_ok bound) fs -> bound <= max -> partial bound t0 ->
  t0 ++ concat chunks = stream_image fs ->
  Forall (fun c => c <> [] /\ Z.of_nat (length c) <= max - bound + 1) chunks ->
  Forall (fun f => f.1 <> MessageType.Shutdown) fs -> sv_stop_requested w.1 = false ->
  serve_loop send_all key (map Received chunks ++ [Received []]) (decoder_clean max t0) false w =
    Some (deliver_frames key fs w).
Proof.
  intros Hfs Hm Ht0 E Hc. revert fs Hfs t0 Ht0 E w. induction Hc as [|c chunks [Hne Hl] Hc IH];
    intros fs Hfs t0 Ht0 E w Hsd Hw.
  - cbn. rewrite Hw. cbn in E. rewrite app_nil_r in E. destruct fs as [|f fs]; [done|]. exfalso.
    apply Forall_cons in Hfs as [Hf _]. pose proof (partial_more max bound t0 Ht0 Hm) as Hn. rewrite E in Hn.
    change (stream_image (f :: fs)) with (frame_image f ++ stream_image fs) in Hn.
    by rewrite (frame_step_image max bound) in Hn.
  - cbn [concat] in E. rewrite app_assoc in E.
    assert (Hnil : partial bound []).
    { destruct Ht0 as (f & k & Hf & Hk & _). exists f, O. split; [done|]. split; [lia|done]. }
    destruct (stream_prefix bound fs [] (t0 ++ c) (concat chunks)) as (fs1 & t1 & fs2 & -> & E1 & Ht1 & E2);
      [done|done|by rewrite app_nil_r|]. rewrite app_nil_r in E2.
    apply Forall_app in Hfs as [Hfs1 Hfs2]. apply Forall_app in Hsd as [Hs1 Hs2].
    pose proof (partial_length bound t0 Ht0).
    cbn [map app serve_loop]. rewrite Hw. cbn [orb]. destruct c as [|b c]; [done|].
    change (fun h p st => _) with (serve_handler key).
    rewrite (decoder_push_stream (serve_handler key) max bound fs1 t1) by (done || lia).
    rewrite deliver_serve by done. change (negb (status_ok status_success)) with false. cbv iota.
    rewrite (IH fs2) by (done || by apply deliver_frames_stop). by rewrite deliver_frames_app.
Qed.

(** C11: the byte stream is the frame list. On a server that has not been asked to
    stop, a session whose peer sends frames, none of them a Shutdown, encoded with at most [limit] bytes of payload, cut into reads of any sizes within the
    decoder's slack, and then closes, is served exactly as if the frames had been
    handed to the handler one by one, after which its socket is closed and its slot
    is free. *)
Theorem serve_refines_frames key limit fs images chunks s mem :
  Forall2 (encoded_as limit) fs images -> limit <= max_frame s -> 0 <= limit ->
  concat chunks = concat images ->
  Forall (fun c => c <> [] /\ Z.of_nat (length c) <= max_frame s - limit + 1) chunks ->
  Forall (fun f => f.1 <> MessageType.Shutdown) fs -> sv_stop_requested s = false ->
  serve send_all key (map Received chunks ++ [Received []]) (s, mem) =
    let w := deliver_frames key fs (s, mem) in Some (on_session key session_end w.1, w.2).
Proof.
  intros Hfs Hm H0 E Hc Hsd Hstop. apply encoded_stream in Hfs as [Hfs Ei]. rewrite Ei in E.
  unfold serve. cbn [fst]. change (decoder_new (max_frame s)) with (decoder_clean (max_frame s) []).
  rewrite (serve_loop_stream key (max_frame s) limit chunks fs []); try done.
  exists (MessageType.Ping, []), O. split; [split; cbn; [lia|unfold kMaxFramePayload; lia]|].
  split; [rewrite frame_image_length; cbn; lia|done].
Qed.
End refinement.
