(* ===== verification/Typed.v ===== *)
(** * What a decoder accepts is well formed

    The codecs promise that well-formed values read back ([codec_law]). This file
    has the converse, for any bytes whatever: what a decoder yields from octets lies
    in the ranges of its fields, with names of the identity grammar, lists within
    their bounds and text within its length ([SoundCodec]). The requests a peer sends
    are typed because they were decoded, not because the peer is trusted. *)
From S2P Require Import Prelude Status Hash Ids Bytes Evidence Policy Authority Attempt Decision.
From S2P Require Import Selector Fs Journal State Store Intake Engine EngineLogic EngineSafety Wire.
From S2P Require Import Image Progress Durable.

(** ** Readers over octets *)
(** From an octet reader [m] yields a value in [P] and leaves an octet reader,
    whether it failed or not. *)
Definition yields {A} (P : A -> Prop) (m : ReadM A) : Prop :=
  forall r, Forall is_u8 (rd_data r) -> P (m r).1 /\ Forall is_u8 (rd_data (m r).2).

Lemma yields_weaken {A} (P Q : A -> Prop) m : yields P m -> (forall x, P x -> Q x) -> yields Q m.
Proof. intros H HPQ r Hr. destruct (H r Hr). auto. Qed.
Lemma yields_ret {A} (P : A -> Prop) x : P x -> yields P (rret x).
Proof. by intros H r Hr. Qed.
Lemma yields_bind {A B} (P : A -> Prop) (Q : B -> Prop) m (k : A -> ReadM B) :
  yields P m -> (forall x, P x -> yields Q (k x)) -> yields Q (rbind m k).
Proof.
  intros Hm Hk r Hr. unfold rbind. destruct (Hm r Hr) as [Hx Hr']. destruct (m r) as [x r']. by apply (Hk x).
Qed.
Lemma yields_is_ok : yields (fun _ => True) rd_is_ok.
Proof. by intros r Hr. Qed.
Lemma yields_fail : yields (fun _ => True) rd_fail.
Proof. by intros r Hr. Qed.

Lemma yields_u8 : yields is_u8 rd_u8.
Proof.
  intros r Hr. unfold rd_u8. destruct (rd_ok r); cbn [negb]; [|split; [cbn; ints|done]].
  destruct (rd_data r) as [|b rest]; [split; [cbn; ints|done]|]. by apply Forall_cons in Hr.
Qed.

Lemma rd_loop_bound n : forall shift value, 0 <= shift -> 0 <= value < 2 ^ shift ->
  yields (fun v => 0 <= v < 2 ^ (shift + 8 * Z.of_nat n)) (rd_loop n shift value).
Proof.
  induction n as [|n IH]; intros shift value Hs Hv; cbn [rd_loop].
  { apply yields_ret. replace (shift + 8 * Z.of_nat 0) with shift by lia. done. }
  eapply yields_bind; [apply yields_u8|]. intros b Hb.
  replace (shift + 8 * Z.of_nat (S n)) with (shift + 8 + 8 * Z.of_nat n) by lia.
  apply IH; [lia|]. split; [apply Z.lor_nonneg; split; [lia|]; apply Z.shiftl_nonneg; ints|].
  assert (Hb' : Z.shiftl b shift < 2 ^ (shift + 8)).
  { rewrite Z.shiftl_mul_pow2, Z.pow_add_r by lia. change (2 ^ 8) with 256.
    pose proof (Z.pow_pos_nonneg 2 shift ltac:(lia) Hs). unfold is_u8 in Hb. nia. }
  assert (H0 : 0 <= Z.shiftl b shift) by (apply Z.shiftl_nonneg; ints).
  assert (Hlt : value < 2 ^ (shift + 8)).
  { eapply Z.lt_le_trans; [apply Hv|]. apply Z.pow_le_mono_r; lia. }
  assert (Hl0 : 0 <= Z.lor value (Z.shiftl b shift)) by (apply Z.lor_nonneg; lia).
  destruct (decide (Z.lor value (Z.shiftl b shift) = 0)) as [->|Hne]; [apply Z.pow_pos_nonneg; lia|].
  apply Z.log2_lt_pow2; [lia|]. rewrite Z.log2_lor by lia.
  assert (Hlog : forall v, 0 <= v < 2 ^ (shift + 8) -> Z.log2 v < shift + 8).
  { intros v Hv'. destruct (decide (v = 0)) as [->|]; [cbn; lia|]. apply Z.log2_lt_pow2; lia. }
  apply Z.max_lub_lt; apply Hlog; lia.
Qed.

Lemma yields_u16 : yields is_u16 rd_u16.
Proof. apply (rd_loop_bound 2 0 0); lia. Qed.
Lemma yields_u32 : yields is_u32 rd_u32.
Proof. apply (rd_loop_bound 4 0 0); lia. Qed.
Lemma yields_u64 : yields is_u64 rd_u64.
Proof. apply (rd_loop_bound 8 0 0); lia. Qed.
Lemma yields_i64 : yields is_i64 rd_i64.
Proof.
  eapply yields_bind; [apply yields_u64|]. intros v Hv. apply yields_ret. unfold to_i64, is_i64.
  destruct (Z.ltb_spec v 9223372036854775808); ints.
Qed.
Lemma yields_bool8 : yields (fun _ => True) rd_bool8.
Proof. eapply yields_bind; [apply yields_u8|]. intros v _. by apply yields_ret. Qed.

(** A read of [size] bytes has them all or has failed. *)
Lemma rd_raw_spec size r : Forall is_u8 (rd_data r) -> 0 <= size ->
  Forall is_u8 (rd_data (rd_raw size r).2) /\
  ((rd_ok (rd_raw size r).2 = false /\ (rd_raw size r).1 = []) \/
   (Forall is_u8 (rd_raw size r).1 /\ Z.of_nat (length (rd_raw size r).1) = size)).
Proof.
  intros Hr Hs. unfold rd_raw. destruct (rd_ok r); cbn [negb orb]; [|by auto].
  destruct (Z.gtb_spec size (Z.of_nat (length (rd_data r)))); [by auto|]. cbn [fst snd rd_data].
  split; [by apply Forall_drop|]. right. split; [by apply Forall_take|]. rewrite length_take. lia.
Qed.

Lemma yields_digest : yields digest_wf rd_digest.
Proof.
  intros r Hr. unfold rd_digest, rbind. destruct (rd_raw_spec 32 r Hr ltac:(lia)) as [Hd H].
  destruct (rd_raw 32 r) as [bs r']. cbn [rd_is_ok fst snd] in *. unfold rd_is_ok.
  destruct (rd_ok r') eqn:E; cbn [negb rret fst snd]; (split; [|done]); [|apply digest_zero_wf].
  destruct H as [[? _]|[Hu Hl]]; [congruence|]. split; [cbn; lia|done].
Qed.
Lemma yields_incarnation : yields incarnation_wf rd_incarnation.
Proof.
  intros r Hr. unfold rd_incarnation, rbind. destruct (rd_raw_spec 16 r Hr ltac:(lia)) as [Hd H].
  destruct (rd_raw 16 r) as [bs r']. cbn [rd_is_ok fst snd] in *. unfold rd_is_ok.
  destruct (rd_ok r') eqn:E; cbn [negb rret fst snd]; (split; [|done]); [|apply incarnation_zero_wf].
  destruct H as [[? _]|[Hu Hl]]; [congruence|]. split; [cbn; lia|done].
Qed.

Lemma yields_blob max_len : 0 <= max_len ->
  yields (fun bs => Forall is_u8 bs /\ Z.of_nat (length bs) <= max_len) (rd_blob max_len).
Proof.
  intros Hm. eapply yields_bind; [apply yields_u32|]. intros n Hn. eapply yields_bind; [apply yields_is_ok|]. intros ok _.
  destruct ok; cbn [negb]; [|apply yields_ret; by split].
  destruct (Z.gtb_spec n max_len) as [Hgt|Hle].
  { eapply yields_bind; [apply yields_fail|]. intros _ _. apply yields_ret. by split. }
  intros r Hr. destruct (rd_raw_spec n r Hr ltac:(ints)) as [Hd [[_ ->]|[Hu Hl]]]; (split; [|done]); [by split|].
  split; [done|lia].
Qed.
Lemma yields_str_max max_len : 0 <= max_len -> yields (text_wf max_len) (rd_str_max max_len).
Proof.
  intros Hm. eapply yields_bind; [by apply yields_blob|]. intros bs [Hu Hl].
  eapply yields_bind; [apply yields_is_ok|]. intros ok _.
  destruct ok; apply yields_ret; unfold text_wf; [by rewrite string_of_bytes_length|done].
Qed.
Lemma yields_str : yields (fun _ => True) rd_str.
Proof. eapply yields_weaken; [by apply yields_str_max|done]. Qed.

Lemma yields_opt {A} (P : A -> Prop) m : yields P m -> yields (opt_wf P) (rd_opt m).
Proof.
  intros Hm. eapply yields_bind; [apply yields_bool8|]. intros [] _; [|by apply yields_ret].
  eapply yields_bind; [exact Hm|]. intros v Hv. apply yields_ret. by intros a [= <-].
Qed.

Lemma yields_ropt {A B} (P : A -> Prop) (Q : B -> Prop) (o : option A) (k : A -> ReadM (option B)) :
  opt_wf P o -> (forall x, P x -> yields (opt_wf Q) (k x)) -> yields (opt_wf Q) (ropt o k).
Proof. intros Ho Hk. destruct o as [x|]; [by apply Hk, Ho|]. by apply yields_ret. Qed.
Lemma yields_nested {A B} (P : A -> Prop) (Q : B -> Prop) m (k : A -> ReadM (option B)) :
  yields (opt_wf P) m -> (forall x, P x -> yields (opt_wf Q) (k x)) -> yields (opt_wf Q) (rbind m (fun o => ropt o k)).
Proof. intros Hm Hk. eapply yields_bind; [exact Hm|]. intros o Ho. by eapply yields_ropt. Qed.

Lemma yields_each {A} (P : A -> Prop) n m : yields (opt_wf P) m ->
  yields (opt_wf (fun l => length l = n /\ Forall P l)) (rd_each n m).
Proof.
  intros Hm. induction n as [|n IH]; cbn [rd_each]; [apply yields_ret; by intros l [= <-]|].
  eapply yields_nested; [exact Hm|]. intros x Hx. eapply yields_nested; [exact IH|]. intros xs [Hl Hxs].
  apply yields_ret. intros l [= <-]. split; [cbn; lia|]. by constructor.
Qed.

Lemma decode_name_typed text : opt_wf name_wf (decode_name text).
Proof. intros n H. by apply decode_name_Some in H as [_ H]. Qed.
Lemma name_parse_typed text : opt_wf (fun n => is_valid_name n = true) (result_value (name_parse text)).
Proof. intros n. unfold name_parse. destruct (is_valid_name text) eqn:E; cbn; [|done]. by intros [= <-]. Qed.

(** The names of a replacement are only read when there is one. *)
Lemma replacement_name_typed (has : bool) text :
  opt_wf (fun n => name_wf n /\ (has = false -> n = EmptyString)) (if has then decode_name text else Some EmptyString).
Proof. intros n. destruct has; [by intros [_ ?]%decode_name_Some|]. intros [= <-]. by split; [left|]. Qed.

(** ** The interface *)
Class SoundCodec (A : Type) `{Codec A} := codec_sound : yields (opt_wf codec_wf) (decode (A := A)).

(** [yields_fields] follows a decoder: fields in order, then guards, then names. *)
Ltac yields_field :=
  lazymatch goal with
  | |- yields _ rd_u8 => apply yields_u8
  | |- yields _ rd_u16 => apply yields_u16
  | |- yields _ rd_u32 => apply yields_u32
  | |- yields _ rd_u64 => apply yields_u64
  | |- yields _ rd_i64 => apply yields_i64
  | |- yields _ rd_bool8 => apply yields_bool8
  | |- yields _ rd_digest => apply yields_digest
  | |- yields _ rd_incarnation => apply yields_incarnation
  | |- yields _ rd_str => apply yields_str
  | |- yields _ (rd_str_max _) => apply yields_str_max; lia
  | |- yields _ rd_is_ok => apply yields_is_ok
  | |- yields _ (rd_opt _) => apply yields_opt; yields_field
  | |- yields _ (rd_each _ _) => apply yields_each; yields_field
  | |- yields _ decode => apply codec_sound
  | |- _ => solve [eauto with codec]
  end.
Ltac yields_fields :=
  cbv beta;
  lazymatch goal with
  | |- yields _ (rbind _ (fun o => ropt o _)) => eapply yields_nested; [yields_field|intros ? ?]; yields_fields
  | |- yields _ (rbind _ _) => eapply yields_bind; [yields_field|intros ? ?]; yields_fields
  | |- yields _ (if _ then _ else _) => case_if; yields_fields
  | |- yields _ (ropt (decode_name _) _) => eapply yields_ropt; [apply decode_name_typed|intros ? ?]; yields_fields
  | |- yields _ (ropt (result_value _) _) => eapply yields_ropt; [apply name_parse_typed|intros ? ?]; yields_fields
  | |- yields _ (ropt ?o _) =>
      eapply (yields_ropt _ _ o); [first [eassumption | apply replacement_name_typed]|intros ? ?]; yields_fields
  | |- yields _ (rret None) => apply yields_ret; done
  | |- yields _ (rret (Some _)) => apply yields_ret; intros ? [= <-]
  | |- _ => idtac
  end.
Ltac sound_codec d wf :=
  change (yields (opt_wf wf) d); unfold d; yields_fields; unfold wf; cbn;
  bool_prop; unfold link_key_valid, link_key_wf; cbn; cbv beta in *; destruct_and?; split_and?; try done.

#[global] Instance stamp_sound : SoundCodec EvidenceStamp.
Proof. sound_codec stamp_decode stamp_wf. Qed.

Lemma gtb_le a b : (a >? b) = false -> a <= b.
Proof. rewrite Z.gtb_ltb, Z.ltb_ge. done. Qed.
Lemma confidence_typed c : is_u32 c -> (c >? kMaxConfidence) = false -> is_confidence c.
Proof. intros H Hc%gtb_le. unfold is_confidence. ints. Qed.
Lemma count_typed {A} bound n (l : list A) :
  is_u32 n -> (n >? bound) = false -> length l = Z.to_nat n -> Z.of_nat (length l) <= bound.
Proof. intros Hn Hb%gtb_le ->. ints. Qed.

#[global] Instance failure_report_sound : SoundCodec FailureReport.
Proof. sound_codec failure_report_decode failure_report_wf. by apply confidence_typed. Qed.
#[global] Instance replacement_report_sound : SoundCodec ReplacementReport.
Proof. sound_codec replacement_report_decode replacement_report_wf. by apply confidence_typed. Qed.
#[global] Instance candidate_sound : SoundCodec ReplacementCandidate.
Proof. sound_codec candidate_decode candidate_wf. Qed.
#[global] Instance expectation_sound : SoundCodec AuthorityExpectation.
Proof. sound_codec expectation_decode expectation_wf. Qed.
#[global] Instance policy_sound : SoundCodec FailoverPolicy.
Proof. sound_codec policy_decode policy_wf. Qed.
#[global] Instance link_definition_sound : SoundCodec LinkDefinition.
Proof. sound_codec link_definition_decode link_definition_wf. Qed.
#[global] Instance topology_sound : SoundCodec TopologySnapshot.
Proof. sound_codec topology_decode topology_wf. by eapply count_typed. Qed.
#[global] Instance failover_request_sound : SoundCodec FailoverRequest.
Proof. sound_codec failover_request_decode failover_request_wf. by eapply count_typed. Qed.
#[global] Instance rollback_request_sound : SoundCodec RollbackRequest.
Proof. sound_codec rollback_request_decode rollback_request_wf. Qed.
#[global] Instance revalidation_request_sound : SoundCodec RevalidationRequest.
Proof. sound_codec revalidation_request_decode revalidation_request_wf. Qed.
#[global] Instance application_report_sound : SoundCodec ApplicationReport.
Proof. sound_codec application_report_decode application_report_wf. Qed.
#[global] Instance verification_report_sound : SoundCodec VerificationReport.
Proof. sound_codec verification_report_decode verification_report_wf. Qed.
#[global] Instance envelope_sound : SoundCodec SessionEnvelope.
Proof. sound_codec envelope_decode envelope_wf. Qed.
#[global] Instance authority_sound : SoundCodec AuthorityVector.
Proof. sound_codec authority_decode authority_wf. Qed.
#[global] Instance fence_sound : SoundCodec FenceRecord.
Proof. sound_codec fence_decode fence_wf. Qed.
#[global] Instance reason_sound : SoundCodec Reason.
Proof. sound_codec reason_decode reason_wf. apply (reason_typed ReasonCode.None). Qed.
#[global] Instance attempt_sound : SoundCodec AttemptRecord.
Proof. sound_codec attempt_decode attempt_wf. by eapply count_typed. Qed.
#[global] Instance directive_sound : SoundCodec ApplyDirective.
Proof. sound_codec directive_decode directive_wf. Qed.
#[global] Instance boot_sound : SoundCodec BootPayload.
Proof. sound_codec boot_decode boot_wf. Qed.
#[global] Instance checkpoint_sound : SoundCodec CheckpointPayload.
Proof. sound_codec checkpoint_decode checkpoint_wf. Qed.
#[global] Instance hello_request_sound : SoundCodec HelloRequest.
Proof. sound_codec hello_request_decode hello_request_wf. Qed.
#[global] Instance response_sound : SoundCodec ResponseEnvelope.
Proof. sound_codec response_decode response_wf. by eapply count_typed. Qed.
#[global] Instance claim_response_sound : SoundCodec ClaimResponse.
Proof. sound_codec claim_response_decode claim_response_wf. by eapply count_typed. Qed.

(** A decision without a replacement has the default one. *)
Lemma yields_replacement has :
  yields (fun x => is_u64 x.2 /\ (has = false -> x = (EmptyString, EmptyString, 0))) (replacement_decode has).
Proof.
  unfold replacement_decode. destruct has; [|apply yields_ret; split; [cbn; ints|done]].
  repeat (eapply yields_bind; [yields_field|intros ? ?]). by apply yields_ret.
Qed.
Lemma yields_reasons limit : yields (opt_wf (fun l => Z.of_nat (length l) <= limit /\ Forall reason_wf l)) (reasons_decode limit).
Proof.
  unfold reasons_decode. yields_fields. eapply yields_weaken; [apply yields_each, codec_sound|].
  intros o Ho l Hl. destruct (Ho l Hl) as [Hn Hr]. split; [|done]. bool_prop. by eapply count_typed.
Qed.
#[export] Hint Resolve yields_replacement yields_reasons : codec.

#[global] Instance assessment_sound : SoundCodec CandidateAssessment.
Proof. sound_codec assessment_decode assessment_wf. by apply confidence_typed. Qed.
#[global] Instance decision_sound : SoundCodec FailoverDecision.
Proof.
  sound_codec decision_decode decision_wf; [|by eapply count_typed].
  intros E. repeat match goal with H : _ = false -> _ |- _ => specialize (H E) end. by subst.
Qed.

(** ** Whole payloads *)
Lemma decode_payload_typed {A} `{SoundCodec A} body (a : A) :
  Forall is_u8 body -> decode_payload body = Some a -> codec_wf a.
Proof.
  intros Hb E. unfold decode_payload in E. destruct (codec_sound (reader_of body) Hb) as [Hs _].
  destruct (decode (reader_of body)) as [[x|] r]; [|done]. cbn [fst] in *. apply Hs.
  by repeat (case_match; simplify_eq).
Qed.
