(* ===== verification/Served.v ===== *)
(** * Lives of a served coordinator

    The lives of [Restart] assume that the inputs of the engine are well typed. Over
    the wire they are: whatever octets arrive on whatever connections, every operation
    the server performs was decoded, so it is typed ([Typed]), and the engine it
    serves goes on with its life. No assumption about the peers is left. *)
From S2P Require Import Prelude Status Hash Ids Bytes Evidence Policy Authority Attempt Decision.
From S2P Require Import Selector Fs Journal State Store Intake Engine EngineLogic EngineSafety Wire.
From S2P Require Import Image Progress Durable Restart Server Typed.

(** ** Operations off the wire *)
Lemma request_op_typed type body op : Forall is_u8 body -> request_op type body = Some op -> operation_typed op.
Proof.
  intros Hb. destruct type; cbn [request_op]; try done;
    match goal with |- ?f <$> ?d = _ -> _ => destruct d eqn:E; [|done] end; intros [= <-]; cbn [operation_typed];
    exact (decode_payload_typed _ _ Hb E).
Qed.

Lemma frame_effect_lives o key type payload w w' : Forall is_u8 payload -> frame_effect key type payload w w' ->
  lives o (sv_engine w.1) w.2 -> lives o (sv_engine w'.1) w'.2.
Proof.
  intros Hp [s s' fs Hin|s s' fs v request _ Hv Hf Hin|s s' fs fs' e r im _ _ Hd Hin] Hl; cbn in *;
    rewrite (in_engine _ _ Hin); [done..|]. cbn.
  apply dispatch_perform in Hd. destruct (request_op type _) as [op|] eqn:Hop; [|by destruct Hd as [-> ->]].
  destruct Hd as [st Hd]. eapply LivesPerformed; [exact Hl|by eapply request_op_not_close| |exact I|exact Hd].
  eapply request_op_typed; [|exact Hop]. by apply Forall_drop.
Qed.

Section served.
Context (send_all : SessionState -> bytes -> Status).

Definition reading_octets (r : Reading) : Prop := match r with Received data => Forall is_u8 data | _ => True end.

(** What the threads of a server do: a frame at a time, whole sessions on the bytes
    they read, admissions, ends, a stop; and the medium starts or stops to fail, or
    others write to it. *)
Inductive peer_step : World -> World -> Prop :=
| PsFrame key h payload w : Forall is_u8 payload -> peer_step w (handle_frame send_all key h payload w)
| PsServe key readings w w' :
    0 <= max_frame w.1 <= kMaxFramePayload -> Forall reading_octets readings ->
    serve send_all key readings w = Some w' -> peer_step w w'
| PsAdmit s fs : peer_step (s, fs) (admit_session s, fs)
| PsEnd key s fs : peer_step (s, fs) (on_session key session_end s, fs)
| PsStop s fs : peer_step (s, fs) (request_stop s, fs)
| PsTeardown s fs : peer_step (s, fs) (teardown s, fs)
| PsMedium s fs fs' : same_lineage_files (store_options_of (im_options (sv_engine s))) fs fs' -> peer_step (s, fs) (s, fs').

Definition world_lives (o : EngineOptions) (w : World) : Prop := lives o (sv_engine w.1) w.2.

Lemma handle_frame_lives o key h payload w : Forall is_u8 payload -> world_lives o w ->
  world_lives o (handle_frame send_all key h payload w).
Proof. intros Hp. eapply frame_effect_lives; [exact Hp|apply handle_frame_effect]. Qed.

(** The frames a decoder cuts out of octets are octets. *)
Lemma deliver_lives o key fs st : Forall (fun f => Forall is_u8 f.2) fs -> world_lives o st.1 ->
  world_lives o (deliver (serve_handler send_all key) fs st).1.
Proof.
  intros Hf. revert st. induction Hf as [|f fs Hf _ IH]; intros st Hl; [done|]. apply IH. by apply handle_frame_lives.
Qed.
Lemma stream_octets fs rest : Forall is_u8 (stream_image fs ++ rest) -> Forall (fun f => Forall is_u8 f.2) fs.
Proof.
  intros H. apply Forall_app in H as [H _]. unfold stream_image in H. induction fs as [|f fs IH]; [constructor|].
  cbn [map concat] in H. apply Forall_app in H as [H1 H2]. constructor; [|by apply IH].
  unfold frame_image in H1. rewrite !Forall_app in H1. by destruct_and?.
Qed.

Lemma serve_loop_lives o key readings : forall d closing w w', decoder_wf d -> Forall reading_octets readings ->
  serve_loop send_all key readings d closing w = Some w' -> world_lives o w -> world_lives o w'.
Proof.
  induction readings as [|r readings IH]; intros d closing w w' Hd Hr; cbn [serve_loop].
  all: case_if; [by intros [= <-]|]. 1: done.
  apply Forall_cons in Hr as [Hx Hr]. destruct r as [| | |[|b data]]; try (by intros [= <-]); [by eapply IH|].
  change (fun h p st => _) with (serve_handler send_all key).
  destruct (decoder_push (serve_handler send_all key) d (b :: data) (w, closing)) as [[pushed d'] [w1 c1]] eqn:E.
  destruct (decoder_push_authentic _ _ _ _ _ _ _ Hd Hx E) as (Hd' & _ & _ & _ & fs & rest & _ & Est & Eb & _).
  intros H Hl. assert (H1 : world_lives o w1).
  { change w1 with (w1, c1).1. rewrite Est. apply deliver_lives; [|done]. apply (stream_octets fs rest). rewrite <- Eb.
    apply Forall_app. split; [apply Hd|done]. }
  revert H. case_if; [by intros [= <-]|]. intros H. by eapply IH.
Qed.

Lemma peer_step_lives o w w' : options_typed (store_options_of o) -> peer_step w w' -> world_lives o w -> world_lives o w'.
Proof.
  intros Ho [key h payload w0 Hp|key readings w0 w1 Hm Hr H|s fs|key s fs|s fs|s fs|s fs fs1 Hfs] Hl.
  - by apply handle_frame_lives.
  - unfold serve in H. destruct (serve_loop _ _ _ _ _ _) as [w2|] eqn:E; [|done]. injection H as <-.
    eapply serve_loop_lives in E; [exact E|by apply decoder_new_wf|done|done].
  - unfold world_lives, admit_session. cbn. by case_if.
  - done.
  - done.
  - unfold world_lives, teardown. cbn. by case_if.
  - destruct (lives_durable_lemma _ o _ _ Ho Hl) as (_ & Hopt & _). eapply LivesMedium; [exact Hl|by rewrite <- Hopt].
Qed.
Lemma peers_lives o w w' : options_typed (store_options_of o) -> rtc peer_step w w' -> world_lives o w -> world_lives o w'.
Proof. intros Ho. induction 1 as [|w1 w2 w3 Hs _ IH]; intros Hl; [done|]. by eapply IH, peer_step_lives. Qed.
End served.

(** ** What peers cannot do *)
(** C13: peers cannot break the coordinator. Serve an engine in the middle of its life
    on any connections: whatever octets arrive on them, in whatever order the threads
    of the server take them and whatever the medium does meanwhile, the engine goes on
    with its life: everything it and its lineage hold stays well typed, and while its
    store works the medium is the image of its lineage, so that a restart reads it
    back. *)
Theorem peers_keep_lives send_all o w w' :
  options_typed (store_options_of o) -> lives o (sv_engine w.1) w.2 -> rtc (peer_step send_all) w w' ->
  lives o (sv_engine w'.1) w'.2 /\ engine_typed (sv_engine w'.1) /\
  state_typed (ds_last_seq (engine_state (sv_engine w'.1))) (engine_state (sv_engine w'.1)) /\
  forall s, im_store (sv_engine w'.1) = Some s -> sm_failed s = false ->
    exists snap recs, image_of snap recs s w'.2 /\
      file_of w'.2 (journal_path (store_options_of o)) = journal_image (covered_by snap) recs.
Proof.
  intros Ho Hl Hw. pose proof (peers_lives send_all o w w' Ho Hw Hl) as Hl'. unfold world_lives in Hl'.
  destruct (lives_durable_lemma _ o _ _ Ho Hl') as (Hd & Hopt & Hc).
  destruct (durable_workable _ _ Hd) as [He Hwk]. destruct (Hwk Hc) as (Hst & _ & _).
  split; [done|]. split; [done|]. split; [done|]. intros s Hs Hf. destruct Hd as [_ Hd]. rewrite Hs in Hd.
  destruct Hd as [Hso Hd]. rewrite Hf in Hd. destruct Hd as (snap & recs & Hi). exists snap, recs. split; [done|]. rewrite <- Hopt, <- Hso.
  by destruct Hi as [_ [_ Hj _ _]].
Qed.
