(* ===== verification/Accept.v ===== *)
(** * The accept thread and the public server

    The loop of the accept thread (server.cpp, [Server::start]) over what the system
    answers in each turn and what the other threads do meanwhile; and the operations of
    the public object. The loop is one of the interleavings of [server_step], so what
    they keep it keeps; it is left on a stop, or after eight failures since the last
    accepted connection, however far apart. *)
From S2P Require Import Prelude Status Hash Ids Bytes Evidence Policy Authority Attempt Decision.
From S2P Require Import Selector Fs Journal State Store Intake Engine EngineLogic EngineSafety Wire Server.

Definition kMaxConsecutiveAcceptFailures : nat := 8.

(** One turn: what the other threads do before the stop flag is read, whether the
    listener becomes readable within the poll interval, what they do until then, and
    whether a connection is accepted. *)
Record AcceptTurn := MkTurn {
  tn_before : World -> World;
  tn_readable : Result bool;
  tn_during : World -> World;
  tn_accepted : bool;
}.

(** A failure of waiting or of accepting: [None] when the loop is left. *)
Definition accept_failed (failures : nat) (w : World) : World * option nat :=
  if sv_stop_requested w.1 then (w, None)
  else let failures := S failures in
  if Nat.leb kMaxConsecutiveAcceptFailures failures then (w, None) else (w, Some failures).

Definition accept_turn (t : AcceptTurn) (failures : nat) (w : World) : World * option nat :=
  let w := tn_before t w in
  if sv_stop_requested w.1 then (w, None)
  else let w := tn_during t w in
  match tn_readable t with
  | Failure _ => accept_failed failures w
  | Success readable =>
      if negb readable then (w, Some failures)
      else if negb (tn_accepted t) then accept_failed failures w
      else ((admit_session w.1, w.2), Some 0%nat)
  end.

Fixpoint accept_loop (turns : list AcceptTurn) (failures : nat) (w : World) : World * option nat :=
  match turns with
  | [] => (w, Some failures)
  | t :: rest =>
      match accept_turn t failures w with
      | (w, None) => (w, None)
      | (w, Some failures) => accept_loop rest failures w
      end
  end.

(** ** The public object *)
(** A [Server] whose [impl_] is null was never started. *)
Definition Server : Type := option ServerImpl.
Definition on_server {A} (not_started : A) (f : ServerImpl -> A) (s : Server) : A :=
  match s with None => not_started | Some s => f s end.
Definition is_running : Server -> bool := on_server false sv_running.
Definition requests_handled : Server -> Z := on_server 0 sv_requests_handled.
Definition sessions_accepted : Server -> Z := on_server 0 sv_sessions_accepted.
Definition sessions_rejected : Server -> Z := on_server 0 sv_sessions_rejected.
Definition bind_failed : Server -> bool := on_server true (fun _ => false).

(** [Server::run] from the moment its wait is over: [None] while it still waits. *)
Definition server_run (s : Server) : option (Status * Server) :=
  match s with
  | None => Some (status_failure Outcome.Closed ReasonCode.NotListening "server is not started", None)
  | Some s => if sv_stop_requested s then Some (status_success, Some (teardown s)) else None
  end.
Definition shutdown (run_active : bool) (s : Server) : Status * Server :=
  (status_success, server_shutdown run_active <$> s).

(** ** The loop is an interleaving *)
Section accepting.
Context (send_all : SessionState -> bytes -> Status).

(** What the other threads do in a turn are steps of the server, [n] admissions at most. *)
Definition turn_steps (n : Z) (t : AcceptTurn) : Prop :=
  exists a b, a + b <= n /\ (forall w, server_steps send_all a w (tn_before t w)) /\
    (forall w, server_steps send_all b w (tn_during t w)).

Lemma server_steps_app n m w1 w2 w3 : server_steps send_all n w1 w2 -> server_steps send_all m w2 w3 ->
  server_steps send_all (n + m) w1 w3.
Proof.
  intros H1 H2. induction H2 as [w|m k w2 w3 w4 _ IH Hs]; [by rewrite Z.add_0_r|].
  rewrite Z.add_assoc. eapply sts_step; [by apply IH|done].
Qed.
Lemma server_steps_nonneg n w w' : server_steps send_all n w w' -> 0 <= n.
Proof. induction 1 as [|n m w1 w2 w3 _ IH Hs]; [done|]. destruct Hs; lia. Qed.

Lemma accept_turn_steps n t failures w : turn_steps n t ->
  exists m, 0 <= m <= n + 1 /\ server_steps send_all m w (accept_turn t failures w).1.
Proof.
  intros (a & b & Hn & Ha & Hb). pose proof (server_steps_nonneg _ _ _ (Ha w)).
  pose proof (server_steps_nonneg _ _ _ (Hb (tn_before t w))). unfold accept_turn. cbv zeta.
  destruct (sv_stop_requested _); [exists a; split; [lia|apply Ha]|].
  pose proof (server_steps_app _ _ _ _ _ (Ha w) (Hb (tn_before t w))) as Hab. set (w' := tn_during t _) in *.
  assert (Hf : (accept_failed failures w').1 = w') by (unfold accept_failed; cbv zeta; by repeat case_match).
  destruct (tn_readable t) as [[]|e]; cbn [negb]; [|by exists (a + b); split; [lia|]|by exists (a + b); split; [lia|rewrite Hf]].
  destruct (tn_accepted t); cbn [negb]; [|by exists (a + b); split; [lia|rewrite Hf]].
  exists (a + b + 1). split; [lia|]. eapply sts_step; [exact Hab|]. destruct w' as [s fs]. apply st_admit.
Qed.

Lemma accept_loop_steps n turns failures w : 0 <= n -> Forall (turn_steps n) turns ->
  exists m, 0 <= m <= (n + 1) * Z.of_nat (length turns) /\ server_steps send_all m w (accept_loop turns failures w).1.
Proof.
  intros Hn H. revert failures w. induction H as [|t turns Ht _ IH]; intros failures w.
  { exists 0. split; [cbn; lia|apply sts_refl]. }
  cbn [accept_loop length]. destruct (accept_turn_steps n t failures w Ht) as (m & Hm & Hs).
  assert (Hl : (n + 1) * Z.of_nat (S (length turns)) = (n + 1) * Z.of_nat (length turns) + (n + 1)) by lia.
  destruct (accept_turn t failures w) as [w1 [f|]]; cbn [fst] in Hs.
  - destruct (IH f w1) as (k & Hk & Hs'). exists (m + k). split; [lia|]. by eapply server_steps_app.
  - exists m. split; [|done]. pose proof (Nat2Z.is_nonneg (length turns)). nia.
Qed.

End accepting.

(** ** How the loop is left *)
Definition turn_fails (t : AcceptTurn) : bool :=
  match tn_readable t with Failure _ => true | Success readable => (readable && negb (tn_accepted t))%bool end.
Definition turn_accepts (t : AcceptTurn) : bool :=
  match tn_readable t with Failure _ => false | Success readable => (readable && tn_accepted t)%bool end.
(** The failures since the last acceptance, on top of those before. *)
Definition failures_since (failures : nat) (turns : list AcceptTurn) : nat :=
  foldl (fun n t => if turn_accepts t then 0%nat else if turn_fails t then S n else n) failures turns.

(** The loop is left on a stop, or by a run of turns at whose end eight have failed
    since the last accepted connection. *)
Lemma accept_loop_left turns failures w w' : accept_loop turns failures w = (w', None) ->
  sv_stop_requested w'.1 = true \/
  exists pre rest, turns = pre ++ rest /\ (kMaxConsecutiveAcceptFailures <= failures_since failures pre)%nat.
Proof.
  revert failures w. induction turns as [|t turns IH]; intros failures w; [done|]. cbn [accept_loop].
  assert (Hfail : forall w1, turn_accepts t = false -> turn_fails t = true ->
    match accept_failed failures w1 with (w, None) => (w, None) | (w, Some f) => accept_loop turns f w end = (w', None) ->
    sv_stop_requested w'.1 = true \/ exists pre rest, t :: turns = pre ++ rest /\
      (kMaxConsecutiveAcceptFailures <= failures_since failures pre)%nat).
  { intros w1 Ha Hf. unfold accept_failed. cbv zeta. destruct (sv_stop_requested w1.1) eqn:Es; [intros [= <-]; by left|].
    destruct (Nat.leb_spec kMaxConsecutiveAcceptFailures (S failures)) as [Hle|_].
    - intros [= <-]. right. exists [t], turns. split; [done|]. unfold failures_since. cbn [foldl]. by rewrite Ha, Hf.
    - intros H. destruct (IH _ _ H) as [?|(pre & rest & -> & Hl)]; [by left|]. right. exists (t :: pre), rest.
      split; [done|]. unfold failures_since in *. cbn [foldl]. by rewrite Ha, Hf. }
  unfold accept_turn. cbv zeta. destruct (sv_stop_requested (tn_before t w).1) eqn:Es; [intros [= <-]; by left|].
  unfold turn_accepts, turn_fails in *. set (w1 := tn_during t _) in *.
  assert (Hgo : forall n w2, (forall rest, failures_since failures (t :: rest) = failures_since n rest) ->
    accept_loop turns n w2 = (w', None) -> sv_stop_requested w'.1 = true \/ exists pre rest, t :: turns = pre ++ rest /\
      (kMaxConsecutiveAcceptFailures <= failures_since failures pre)%nat).
  { intros n w2 Hn H. destruct (IH _ _ H) as [?|(pre & rest & -> & Hl)]; [by left|]. right. exists (t :: pre), rest.
    split; [done|]. by rewrite Hn. }
  assert (Hs : forall rest, failures_since failures (t :: rest) =
    failures_since (if turn_accepts t then 0%nat else if turn_fails t then S failures else failures) rest) by done.
  unfold turn_accepts, turn_fails in Hs. destruct (tn_readable t) as [[]|e]; cbn [negb andb] in *.
  - destruct (tn_accepted t); cbn [negb] in *; [by apply Hgo|by apply Hfail].
  - by apply Hgo.
  - by apply Hfail.
Qed.

(** Eight failures, with idle turns between them, end the thread of a server that
    nobody stopped: it still calls itself running, and [run] still waits. *)
Definition idle_turn : AcceptTurn := MkTurn id (Success false) id false.
Definition failing_turn : AcceptTurn := MkTurn id (Success true) id false.
Lemma accepting_ends_unnoticed s fs : sv_stop_requested s = false -> sv_running s = true ->
  accept_loop (concat (replicate 8 [failing_turn; idle_turn])) 0 (s, fs) = ((s, fs), None) /\
  is_running (Some s) = true /\ server_run (Some s) = None.
Proof.
  intros Hs Hr. split; [|by cbn; rewrite Hs].
  unfold accept_loop, concat, replicate, accept_turn, accept_failed, failing_turn, idle_turn, id.
  cbn. by repeat (rewrite Hs; cbn).
Qed.
