(* ===== verification/Client.v ===== *)
(** * Framed session client

    The request side of the protocol (client.cpp): the handshake, the stamped call
    and every remote operation, over a transport that is a parameter. At the end the
    client is composed with the server of [Server]: over a connection that loses
    nothing, a remote operation is the engine's operation. *)
From S2P Require Import Prelude Status Hash Ids Bytes Evidence Policy Authority Attempt Decision.
From S2P Require Import Selector Fs Journal State Store Intake Engine EngineLogic EngineSafety Wire.
From S2P Require Import Server.

(** ** State *)
(** [cl_socket] is false for [kInvalidSocket]. *)
Record ClientImpl := MkClient {
  cl_socket : bool;
  cl_endpoint : Endpoint;
  cl_role : string;
  cl_hello : HelloResponse;
  cl_seq : Z;
  cl_incarnation : Incarnation;
  cl_max_payload : Z;
}.
Definition hello_none : HelloResponse := MkHelloResponse 0 0 incarnation_zero 0 0 0.
Definition set_cl_socket (b : bool) (c : ClientImpl) : ClientImpl :=
  MkClient b (cl_endpoint c) (cl_role c) (cl_hello c) (cl_seq c) (cl_incarnation c) (cl_max_payload c).
Definition set_cl_seq (n : Z) (c : ClientImpl) : ClientImpl :=
  MkClient (cl_socket c) (cl_endpoint c) (cl_role c) (cl_hello c) n (cl_incarnation c) (cl_max_payload c).
Definition set_cl_hello (h : HelloResponse) (c : ClientImpl) : ClientImpl :=
  MkClient (cl_socket c) (cl_endpoint c) (cl_role c) h (cl_seq c) (cl_incarnation c) (cl_max_payload c).
Definition set_cl_incarnation (i : Incarnation) (c : ClientImpl) : ClientImpl :=
  MkClient (cl_socket c) (cl_endpoint c) (cl_role c) (cl_hello c) (cl_seq c) i (cl_max_payload c).
(** A successful handshake. *)
Definition greeted (h : HelloResponse) (c : ClientImpl) : ClientImpl :=
  MkClient (cl_socket c) (cl_endpoint c) (cl_role c) h 0 (cl_incarnation c) (hr_max_payload h).

(** What [recv_some] will answer, in order; an empty read is the end of the stream. *)
Definition Readings : Type := list (Result bytes).

Record CallResult := MkCall {
  rc_outcome : Outcome;
  rc_reasons : list Reason;
  rc_body : bytes;
}.
Definition rc_has_body (r : CallResult) : bool := negb (Nat.eqb (length (rc_body r)) 0).

Definition connection_closed : Status :=
  status_failure Outcome.Closed ReasonCode.ConnectionClosed "the coordinator closed the connection".

(** The callback of both receive loops: the first frame of a push is kept. *)
Definition keep_first (h : FrameHeader) (p : bytes) (got : option (FrameHeader * bytes)) :
    option (FrameHeader * bytes) :=
  match got with Some _ => got | None => Some (h, p) end.

(** The receive loop: [None] while the peer has not answered yet. *)
Fixpoint receive_frame (decoder : FrameDecoder) (readings : Readings) :
    option (Result (FrameHeader * bytes) * Readings) :=
  match readings with
  | [] => None
  | Failure s :: rest => Some (Failure s, rest)
  | Success [] :: rest => Some (Failure connection_closed, rest)
  | Success data :: rest =>
      let '(pushed, decoder, got) := decoder_push keep_first decoder data None in
      if negb (status_ok pushed) then Some (Failure pushed, rest)
      else match got with
      | None => receive_frame decoder rest
      | Some frame => Some (Success frame, rest)
      end
  end.

(** [Status::of] followed by one [add] per reason, as [to_status] and the handshake
    rebuild a status. *)
Definition rebuild_status (outcome : Outcome) (reasons : list Reason) : Status :=
  foldl (fun s r => status_add s (reason_code r) (reason_detail r)) (status_of outcome) reasons.
Definition to_status (r : CallResult) : Status := rebuild_status (rc_outcome r) (rc_reasons r).

(** After the first frame of the handshake. *)
Definition accept_hello (header : FrameHeader) (payload : bytes) : Result HelloResponse :=
  match fh_type header with
  | MessageType.HelloAck =>
      match decode_payload payload with
      | None => fail Outcome.Invalid ReasonCode.MalformedEncoding "malformed handshake response"
      | Some response =>
          if negb (hr_protocol_version response =? kWireProtocolVersion)
          then fail Outcome.Unsupported ReasonCode.ProtocolVersionMismatch
                 "the coordinator speaks a different protocol version"
          else Success response
      end
  | MessageType.Response =>
      match decode_response payload with
      | Some envelope => Failure (rebuild_status (re_outcome envelope) (re_reasons envelope))
      | None => fail Outcome.Invalid ReasonCode.UnknownMessageType
                  "the coordinator did not answer the handshake"
      end
  | _ => fail Outcome.Invalid ReasonCode.UnknownMessageType "the coordinator did not answer the handshake"
  end.

(** After the first frame of a call: the envelope, and the body behind it. *)
Definition accept_response (header : FrameHeader) (payload : bytes) : Result CallResult :=
  match fh_type header with
  | MessageType.Response =>
      match decode_response payload with
      | None => fail Outcome.Invalid ReasonCode.MalformedEncoding "malformed response envelope"
      | Some envelope =>
          let envelope_bytes := length (encode_payload envelope) in
          if Nat.ltb (length payload) envelope_bytes
          then fail Outcome.Invalid ReasonCode.TrailingBytes "response envelope is longer than the frame"
          else Success (MkCall (re_outcome envelope) (re_reasons envelope) (drop envelope_bytes payload))
      end
  | _ => fail Outcome.Invalid ReasonCode.UnknownMessageType "the coordinator sent an unexpected frame"
  end.

(** ** Operations *)
Section client.
Context {W : Type}.
(** [connect_socket]: the readings of the new connection, or its failure. *)
Context (dial : Endpoint -> W -> Result (Readings * W)).
(** [send_all] of one frame: its status, and what the peer answers to it. *)
Context (transmit : bytes -> W -> Status * Readings * W).

(** A connection: what is still to be read, and the world behind it. *)
Definition Net : Type := Readings * W.
Definition send_frame (frame : bytes) (n : Net) : Status * Net :=
  let '(s, answers, w) := transmit frame n.2 in (s, (n.1 ++ answers, w)).

(** [Client::Impl::handshake]. *)
Definition client_handshake (c : ClientImpl) (n : Net) : option (Status * ClientImpl * Net) :=
  let request := MkHello kWireProtocolVersion (cl_incarnation c) 0 (cl_role c) in
  match encode_frame MessageType.Hello 0 (encode_payload request) kDefaultFramePayload with
  | Failure e => Some (e, c, n)
  | Success frame =>
      let '(sent, n) := send_frame frame n in
      if negb (status_ok sent) then Some (sent, c, n)
      else match receive_frame (decoder_new (cl_max_payload c)) n.1 with
      | None => None
      | Some (Failure s, rest) => Some (s, c, (rest, n.2))
      | Some (Success (header, payload), rest) =>
          match accept_hello header payload with
          | Failure s => Some (s, c, (rest, n.2))
          | Success response => Some (status_success, greeted response c, (rest, n.2))
          end
      end
  end.

(** [Client::Impl::call]: the sequence is taken once the frame was sent. *)
Definition client_call (op : MessageType) (body : bytes) (c : ClientImpl) (n : Net) :
    option (Result CallResult * ClientImpl * Net) :=
  match strong_next (cl_seq c) with
  | None => Some (fail Outcome.Exhausted ReasonCode.CheckedArithmeticOverflow
                    "session sequence space is exhausted", c, n)
  | Some next =>
      let envelope := MkEnvelope (hr_session_id (cl_hello c)) (hr_epoch (cl_hello c)) (cl_incarnation c) next in
      match encode_frame op 0 (encode_payload envelope ++ body) (cl_max_payload c) with
      | Failure e => Some (Failure e, c, n)
      | Success frame =>
          let '(sent, n) := send_frame frame n in
          if negb (status_ok sent) then Some (Failure sent, c, n)
          else
            let c := set_cl_seq next c in
            match receive_frame (decoder_new (cl_max_payload c)) n.1 with
            | None => None
            | Some (Failure s, rest) => Some (Failure s, c, (rest, n.2))
            | Some (Success (header, payload), rest) => Some (accept_response header payload, c, (rest, n.2))
            end
      end
  end.

Definition client_close (c : ClientImpl) : ClientImpl := set_cl_socket false c.

(** [Client::connect], given the incarnation the process drew. *)
Definition client_connect (endpoint : Endpoint) (role : string) (max_frame_payload : Z)
    (incarnation : Incarnation) (w : W) : option (Result (ClientImpl * Net)) :=
  if ((max_frame_payload =? 0) || (max_frame_payload >? kMaxFramePayload))%bool
  then Some (fail Outcome.Invalid ReasonCode.InvalidArgument "max_frame_payload is outside the supported range")
  else match dial endpoint w with
  | Failure s => Some (Failure (status_add s ReasonCode.NotListening (endpoint_to_string endpoint)))
  | Success n =>
      match client_handshake (MkClient true endpoint role hello_none 0 incarnation max_frame_payload) n with
      | None => None
      | Some (s, c, n) => Some (if negb (status_ok s) then Failure s else Success (c, n))
      end
  end.

(** [Client::refresh_handshake]: a new connection under a new incarnation. *)
Definition client_refresh (incarnation : Incarnation) (c : ClientImpl) (n : Net) :
    option (Status * ClientImpl * Net) :=
  let c := client_close c in
  match dial (cl_endpoint c) n.2 with
  | Failure s => Some (s, c, n)
  | Success n => client_handshake (set_cl_incarnation incarnation (set_cl_socket true c)) n
  end.

(** A remote operation that answers a status, and one that answers a value in the
    body, which must be there and decode to its end. *)
Definition remote_status (op : MessageType) (body : bytes) (c : ClientImpl) (n : Net) :
    option (Status * ClientImpl * Net) :=
  match client_call op body c n with
  | None => None
  | Some (Failure s, c, n) => Some (s, c, n)
  | Some (Success r, c, n) => Some (to_status r, c, n)
  end.
Definition remote_value {A} (decode_body : bytes -> option A) (missing : string) (op : MessageType)
    (body : bytes) (c : ClientImpl) (n : Net) : option (Result A * ClientImpl * Net) :=
  match client_call op body c n with
  | None => None
  | Some (Failure s, c, n) => Some (Failure s, c, n)
  | Some (Success r, c, n) =>
      let absent := Failure (status_add (to_status r) ReasonCode.MalformedEncoding missing) in
      Some (if negb (rc_has_body r) then absent
            else match decode_body (rc_body r) with None => absent | Some a => Success a end, c, n)
  end.
Definition remote_decision : MessageType -> bytes -> ClientImpl -> Net ->
    option (Result FailoverDecision * ClientImpl * Net) :=
  remote_value decode_decision_payload "the response carried no decision".

Definition client_publish_failure (r : FailureReport) := remote_status MessageType.PublishFailure (encoded r).
Definition client_publish_replacement (r : ReplacementReport) :=
  remote_status MessageType.PublishReplacement (encoded r).
Definition client_set_policy (p : FailoverPolicy) := remote_status MessageType.SetPolicy (encoded p).
Definition client_set_topology (t : TopologySnapshot) := remote_status MessageType.SetTopology (encoded t).
Definition client_failover (q : FailoverRequest) := remote_decision MessageType.RequestFailover (encoded q).
Definition client_rollback (q : RollbackRequest) := remote_decision MessageType.RequestRollback (encoded q).
Definition client_application (r : ApplicationReport) := remote_decision MessageType.ReportApplication (encoded r).
Definition client_verification (r : VerificationReport) :=
  remote_decision MessageType.ReportVerification (encoded r).
Definition client_revalidation (q : RevalidationRequest) :=
  remote_decision MessageType.ResolveInterrupted (encoded q).
Definition client_inspect (limit : nat) :=
  remote_value decode_engine_view "the response carried no view" MessageType.Inspect
    (encode_payload (MkInspectRequest limit)).
Definition client_claim (max_count : nat) :=
  remote_value (decode_payload (A := ClaimResponse)) "the response carried no directives"
    MessageType.ClaimDirective (encode_payload (MkClaimRequest max_count)).
Definition client_shutdown := remote_status MessageType.Shutdown [].

(** The answer to a ping refreshes the epoch and the coordinator. *)
Definition ping_answer (body : bytes) (h : HelloResponse) : HelloResponse :=
  if Z.of_nat (length body) <? 10 then h
  else
    let '(version, r) := rd_u16 (reader_of body) in
    let '(epoch, r) := rd_u64 r in
    if (rd_ok r && (version =? kWireProtocolVersion))%bool
    then MkHelloResponse (hr_protocol_version h) epoch (rd_incarnation r).1 (hr_session_id h)
           (hr_max_payload h) (hr_server_tick h)
    else h.
Definition client_ping (c : ClientImpl) (n : Net) : option (Status * ClientImpl * Net) :=
  match client_call MessageType.Ping [] c n with
  | None => None
  | Some (Failure s, c, n) => Some (s, c, n)
  | Some (Success r, c, n) => Some (to_status r, set_cl_hello (ping_answer (rc_body r) (cl_hello c)) c, n)
  end.
End client.

(** ** A direct line to the server *)
(** What the source relies on the operating system for, at its best: a connection
    that delivers. The server's end of it is one round of [serve_loop] per frame
    sent; the frames the session sent meanwhile are what the client reads, and an
    ended session is the end of its stream. *)
Record Line := MkLine { li_world : World; li_decoder : FrameDecoder }.

Section line.
Context (key : Z).

Definition line_open (v : SessionState) : bool := (ss_socket v && negb (ss_down v))%bool.
Definition line_closed : Status :=
  status_failure Outcome.IoError ReasonCode.ConnectionClosed "the connection is closed".
Definition line_send (v : SessionState) (frame : bytes) : Status :=
  if line_open v then status_success else line_closed.

Definition line_transmit (frame : bytes) (l : Line) : Status * Readings * Line :=
  match sv_conns (li_world l).1 !! key with
  | None => (line_closed, [], l)
  | Some v =>
      if negb (line_open v) then (line_closed, [], l)
      else
        let '(pushed, decoder, (w, ended)) :=
          decoder_push (serve_handler line_send key) (li_decoder l) frame (li_world l, false) in
        match sv_conns w.1 !! key with
        | None => (status_success, [], MkLine w decoder)
        | Some v' =>
            (status_success,
             map Success (drop (length (ss_sent v)) (ss_sent v')) ++
               (if (negb (status_ok pushed) || ended || negb (line_open v'))%bool then [Success []] else []),
             MkLine w decoder)
        end
  end.

(** The two ends agree on the session. *)
Record session_matches (c : ClientImpl) (l : Line) (v : SessionState) : Prop := {
  sm_session : sv_conns (li_world l).1 !! key = Some v;
  sm_open : line_open v = true;
  sm_shaken : ss_handshaken v = true;
  sm_id : hr_session_id (cl_hello c) = ss_id v;
  sm_client : cl_incarnation c = ss_client v;
  sm_epoch : hr_epoch (cl_hello c) = im_epoch (sv_engine (li_world l).1);
  sm_seq : cl_seq c = ss_last_seq v;
  sm_bound : cl_max_payload c = max_frame (li_world l).1;
  sm_bounded : 40 <= cl_max_payload c <= kMaxFramePayload;
  sm_decoder : li_decoder l = decoder_new (cl_max_payload c);
  sm_running : sv_stop_requested (li_world l).1 = false;
  sm_wf : codec_wf (MkEnvelope (ss_id v) (hr_epoch (cl_hello c)) (ss_client v) (ss_last_seq v));
}.

Lemma encode_frame_fits t p limit : Z.of_nat (length p) <= limit <= kMaxFramePayload ->
  encode_frame t 0 p limit = Success (frame_image (t, p)).
Proof.
  intros H. unfold encode_frame. cbv zeta. rewrite (gtb_false limit), gtb_false by lia. cbn [Z.eqb negb].
  unfold frame_image, frame_crc. cbn [fst snd]. by rewrite crc32c_concat_app.
Qed.

(** One frame, pushed whole into a decoder between two frames. *)
Lemma push_image {St} (h : FrameHeader -> bytes -> St -> St) max f st : frame_ok max f -> 0 <= max ->
  decoder_push h (decoder_new max) (frame_image f) st =
    (status_success, decoder_new max, h (frame_header f) f.2 st).
Proof.
  intros Hf Hm. change (decoder_new max) with (decoder_clean max []).
  rewrite (decoder_push_stream h max max [f] []); [done|by constructor|done| |cbn; by rewrite !app_nil_r|].
  - exists (MessageType.Ping, []), O. split; [split; cbn; [lia|unfold kMaxFramePayload; lia]|].
    split; [rewrite frame_image_length; cbn; lia|done].
  - rewrite frame_image_length. destruct Hf. cbn [length]. unfold kFrameHeaderSize. lia.
Qed.
Lemma receive_image max f rest : frame_ok max f -> 0 <= max ->
  receive_frame (decoder_new max) (Success (frame_image f) :: rest) =
    Some (Success (frame_header f, f.2), rest).
Proof.
  intros Hf Hm. cbn [receive_frame]. rewrite push_image by done.
  destruct (frame_image f) eqn:E; [|done]. apply (f_equal length) in E. by rewrite frame_image_length in E.
Qed.

Lemma envelope_length e : codec_wf e -> length (encode_payload (A := SessionEnvelope) e) = 40%nat.
Proof.
  intros (_ & _ & Hi & _).
  assert (He : emits (envelope_encode e) (le_bytes 8 (se_session_id e) ++ le_bytes 8 (se_epoch e) ++
    inc_bytes (se_incarnation e) ++ le_bytes 8 (se_seq e) ++ [])).
  { unfold envelope_encode. repeat (eapply emits_cons; [|]).
    all: eauto using emits_u64, emits_incarnation, emits_nil. }
  unfold encode_payload, encoded. change (encode e writer_empty) with (envelope_encode e writer_empty).
  rewrite (He writer_empty eq_refl). cbn [wr_buf writer_empty app].
  rewrite !length_app, !le_bytes_length. destruct Hi as [Hi _]. cbn. lia.
Qed.

Lemma on_session_lookup f s : sv_conns (on_session key f s) !! key = f <$> sv_conns s !! key.
Proof. apply lookup_alter_eq. Qed.

(** The server's side of one stamped request. *)
Lemma execute_answers s fs v type seq body st b im' fs' :
  sv_conns s !! key = Some v -> line_open v = true ->
  dispatch (vo_stop_on_shutdown_message (sv_options s)) type body (sv_engine s) fs = ((st, b, false), im', fs') ->
  Z.of_nat (length (response_payload type st b)) <= max_frame s <= kMaxFramePayload ->
  exists s', execute line_send key type seq body (s, fs) = (s', fs') /\
    sv_engine s' = im' /\ sv_options s' = sv_options s /\ sv_stop_requested s' = sv_stop_requested s /\
    sv_conns s' !! key =
      Some (push_ss_sent (frame_image (MessageType.Response, response_payload type st b)) (set_ss_last_seq seq v)).
Proof.
  intros Hv Ho E Hl. unfold execute. cbn [fst snd].
  change (sv_options (set_sv_handled _ s)) with (sv_options s).
  change (sv_engine (set_sv_handled _ s)) with (sv_engine s). rewrite E.
  unfold send_response, send_control. rewrite encode_frame_fits by exact Hl.
  rewrite on_session_lookup. change (sv_conns (set_sv_engine _ _)) with (sv_conns s). rewrite Hv.
  cbn [fmap option_fmap option_map].
  unfold line_send. change (line_open (set_ss_last_seq seq v)) with (line_open v). rewrite Ho.
  change (status_ok status_success) with true. cbn [negb].
  eexists. split; [reflexivity|]. split; [done|]. split; [done|]. split; [done|].
  rewrite !on_session_lookup. change (sv_conns (set_sv_engine _ _)) with (sv_conns s). by rewrite Hv.
Qed.

Lemma request_answers c l v op body st b im' fs' :
  session_matches c l v -> op <> MessageType.Hello -> cl_seq c + 1 < two64 ->
  dispatch (vo_stop_on_shutdown_message (sv_options (li_world l).1)) op body (sv_engine (li_world l).1)
    (li_world l).2 = ((st, b, false), im', fs') ->
  Z.of_nat (length (response_payload op st b)) <= cl_max_payload c ->
  let e := MkEnvelope (hr_session_id (cl_hello c)) (hr_epoch (cl_hello c)) (cl_incarnation c) (cl_seq c + 1) in
  exists s', handle_frame line_send key (frame_header (op, encode_payload e ++ body)) (encode_payload e ++ body)
      (li_world l) = (s', fs') /\
    sv_engine s' = im' /\ sv_options s' = sv_options (li_world l).1 /\ sv_stop_requested s' = false /\
    sv_conns s' !! key = Some (push_ss_sent (frame_image (MessageType.Response, response_payload op st b))
      (set_ss_last_seq (cl_seq c + 1) v)).
Proof.
  intros [Hv Ho Hh Hid Hc He Hq Hm Hb _ Hr Hwf] Hop Hn E Hl e.
  assert (Hew : codec_wf e).
  { destruct Hwf as (H1 & H2 & H3 & H4). unfold e. rewrite Hid, Hc. rewrite Hq in *. cbn in *.
    split; [done|]. split; [done|]. split; [done|]. cbn. destruct H4. ints. }
  destruct l as [[s fs] d]. cbn [li_world fst snd] in *. unfold handle_frame. cbn [fst snd]. rewrite Hv.
  assert (Hreq : handle_request line_send key v op (encode_payload e ++ body) (s, fs) =
    execute line_send key op (cl_seq c + 1) body (s, fs)).
  { unfold handle_request. rewrite Hh. cbn [negb].
    rewrite (proj2 (Z.ltb_ge _ _)) by (rewrite length_app, envelope_length by done; unfold kEnvelopeSize; lia).
    unfold encode_payload at 1. rewrite decode_encoded by done. cbn [fst].
    assert (F : se_session_id e = ss_id v /\ se_incarnation e = ss_client v /\
      se_epoch e = im_epoch (sv_engine s) /\ se_seq e = cl_seq c + 1) by done.
    clearbody e. destruct F as (F1 & F2 & F3 & F4). unfold validate_envelope.
    rewrite F1, F2, F3, F4, !Z.eqb_refl, bool_decide_eq_true_2 by done. cbn [negb].
    rewrite (proj2 (Z.ltb_lt _ _)) by lia. cbn [negb].
    f_equal. rewrite <- (envelope_length e Hew). apply drop_app_length. }
  destruct (execute_answers s fs v op (cl_seq c + 1) body st b im' fs') as (s' & Hx & Hi & Hopt & Hs & Hv');
    [done|done|done|lia|].
  exists s'. rewrite Hr in Hs. split; [|done].
  rewrite <- Hx, <- Hreq. cbn [frame_header fh_type fst]. clear -Hop. by destruct op.
Qed.

(** ** A call over the line *)
Lemma dispatch_epoch stop op body im fs r im' fs' :
  dispatch stop op body im fs = (r, im', fs') -> im_epoch im' = im_epoch im.
Proof.
  intros H%dispatch_perform. destruct (request_op op body) as [o|] eqn:Eo.
  - destruct H as [s H]. apply perform_effects in H as ((H & _) & _); [done|].
    by apply request_op_not_close in Eo.
  - by destruct H as [-> _].
Qed.

Lemma strong_next_small n : 0 <= n -> n + 1 < two64 -> strong_next n = Some (n + 1).
Proof.
  intros H0 H. unfold strong_next. pose proof (checked_add_u64_spec n 1) as Hs.
  destruct (checked_add_u64 n 1) eqn:E; [|].
  all: revert E; unfold checked_add_u64; destruct (_ >? _) eqn:Eg; try congruence.
  rewrite Z.gtb_ltb, Z.ltb_lt in Eg. lia.
Qed.

Lemma accept_own_response op st b :
  response_wf (MkResponse (message_type_code op) (status_outcome st) (status_reasons st)) ->
  accept_response (frame_header (MessageType.Response, response_payload op st b)) (response_payload op st b) =
    Success (MkCall (status_outcome st) (status_reasons st) b).
Proof.
  intros Hw. unfold accept_response. cbn [frame_header fh_type fst].
  unfold response_payload, decode_response.
  set (e := MkResponse (message_type_code op) (status_outcome st) (status_reasons st)) in *.
  unfold encode_payload at 1. rewrite decode_encoded by done. cbn [fst].
  rewrite (proj2 (Nat.ltb_ge _ _)) by (rewrite length_app; lia).
  by rewrite drop_app_length.
Qed.

Lemma stamped_wf c l v : session_matches c l v -> cl_seq c + 1 < two64 ->
  codec_wf (MkEnvelope (hr_session_id (cl_hello c)) (hr_epoch (cl_hello c)) (cl_incarnation c) (cl_seq c + 1)).
Proof.
  intros Hm Hn. destruct (sm_wf _ _ _ Hm) as (H1 & H2 & H3 & H4). cbn in H1, H2, H3, H4.
  rewrite (sm_id _ _ _ Hm), (sm_client _ _ _ Hm). pose proof (sm_seq _ _ _ Hm) as Hq.
  split; [exact H1|]. split; [exact H2|]. split; [exact H3|]. cbn. unfold is_u64 in *. lia.
Qed.

Lemma session_advances c l v s' fs' f : session_matches c l v -> cl_seq c + 1 < two64 ->
  sv_conns s' !! key = Some (push_ss_sent f (set_ss_last_seq (cl_seq c + 1) v)) ->
  im_epoch (sv_engine s') = im_epoch (sv_engine (li_world l).1) ->
  sv_options s' = sv_options (li_world l).1 -> sv_stop_requested s' = false ->
  session_matches (set_cl_seq (cl_seq c + 1) c) (MkLine (s', fs') (decoder_new (cl_max_payload c)))
    (push_ss_sent f (set_ss_last_seq (cl_seq c + 1) v)).
Proof.
  intros Hm Hn Hv He Ho Hs. pose proof (stamped_wf _ _ _ Hm Hn) as Hw.
  rewrite (sm_id _ _ _ Hm), (sm_client _ _ _ Hm) in Hw.
  destruct Hm as [H1 H2 H3 H4 H5 H6 H7 H8 H9 H10 H11 _].
  split; [exact Hv|exact H2|exact H3|exact H4|exact H5| |reflexivity| |exact H9|reflexivity|exact Hs|exact Hw].
  - change (hr_epoch (cl_hello c) = im_epoch (sv_engine s')). by rewrite He.
  - change (cl_max_payload c = max_frame s'). rewrite H8. unfold max_frame. by rewrite Ho.
Qed.

(** One frame of the client and the one frame that answers it. *)
Lemma line_answers l max p t q v v' s' fs' :
  sv_conns (li_world l).1 !! key = Some v -> line_open v = true -> li_decoder l = decoder_new max ->
  frame_ok max (t, p) -> 0 <= max ->
  handle_frame line_send key (frame_header (t, p)) p (li_world l) = (s', fs') ->
  sv_stop_requested s' = false -> sv_conns s' !! key = Some v' ->
  line_open v' = true -> ss_sent v' = ss_sent v ++ [q] ->
  line_transmit (frame_image (t, p)) l = (status_success, [Success q], MkLine (s', fs') (decoder_new max)).
Proof.
  intros Hv Ho Hd Hf Hmax Hh Hs Hv' Ho' Hsent. unfold line_transmit. rewrite Hv, Ho, Hd. cbn [negb].
  rewrite push_image by done. unfold serve_handler. cbn [fst snd]. rewrite Hh. cbn [fst snd].
  rewrite Hv', Hs, Ho', Hsent. by rewrite drop_app_length.
Qed.

(** The client's side of a call that is answered by one response. *)
Lemma call_answered op body c l st b l' :
  let e := MkEnvelope (hr_session_id (cl_hello c)) (hr_epoch (cl_hello c)) (cl_incarnation c) (cl_seq c + 1) in
  0 <= cl_seq c -> cl_seq c + 1 < two64 -> codec_wf e -> 40 <= cl_max_payload c <= kMaxFramePayload ->
  Z.of_nat (40 + length body) <= cl_max_payload c ->
  response_wf (MkResponse (message_type_code op) (status_outcome st) (status_reasons st)) ->
  Z.of_nat (length (response_payload op st b)) <= cl_max_payload c ->
  line_transmit (frame_image (op, encode_payload e ++ body)) l =
    (status_success, [Success (frame_image (MessageType.Response, response_payload op st b))], l') ->
  client_call line_transmit op body c ([], l) =
    Some (Success (MkCall (status_outcome st) (status_reasons st) b), set_cl_seq (cl_seq c + 1) c, ([], l')).
Proof.
  intros e H0 Hn Hew Hb Hbody Hw Hl Ht. unfold client_call. rewrite strong_next_small by done. fold e.
  rewrite encode_frame_fits by (rewrite length_app, envelope_length by done; lia).
  unfold send_frame. cbn [fst snd]. rewrite Ht. change (status_ok status_success) with true. cbn [negb app fst snd].
  change (cl_max_payload (set_cl_seq _ c)) with (cl_max_payload c).
  rewrite receive_image by (lia || (split; cbn [snd]; lia)). cbn [snd].
  by rewrite accept_own_response.
Qed.

Lemma remote_call op body c l v st b im' fs' :
  session_matches c l v -> op <> MessageType.Hello -> cl_seq c + 1 < two64 ->
  Z.of_nat (40 + length body) <= cl_max_payload c ->
  dispatch (vo_stop_on_shutdown_message (sv_options (li_world l).1)) op body (sv_engine (li_world l).1)
    (li_world l).2 = ((st, b, false), im', fs') ->
  response_wf (MkResponse (message_type_code op) (status_outcome st) (status_reasons st)) ->
  Z.of_nat (length (response_payload op st b)) <= cl_max_payload c ->
  exists l' v', client_call line_transmit op body c ([], l) =
      Some (Success (MkCall (status_outcome st) (status_reasons st) b), set_cl_seq (cl_seq c + 1) c, ([], l')) /\
    sv_engine (li_world l').1 = im' /\ (li_world l').2 = fs' /\
    session_matches (set_cl_seq (cl_seq c + 1) c) l' v'.
Proof.
  intros Hm Hop Hn Hbody E Hw Hl. pose proof (stamped_wf _ _ _ Hm Hn) as Hew.
  destruct (request_answers c l v op body st b im' fs' Hm Hop Hn E Hl) as (s' & Hh & Hi & Hopt & Hstop & Hv').
  pose proof (dispatch_epoch _ _ _ _ _ _ _ _ E) as Hep.
  set (l' := MkLine (s', fs') (decoder_new (cl_max_payload c))).
  exists l', (push_ss_sent (frame_image (MessageType.Response, response_payload op st b)) (set_ss_last_seq (cl_seq c + 1) v)).
  split; [|split; [exact Hi|split; [reflexivity|]]].
  - pose proof (sm_bounded _ _ _ Hm). apply (call_answered op body c l); try done.
    + rewrite (sm_seq _ _ _ Hm). destruct (sm_wf _ _ _ Hm) as (_ & _ & _ & [H4 _]). exact H4.
    + eapply (line_answers l (cl_max_payload c) _ _ _ v _ s' fs' (sm_session _ _ _ Hm) (sm_open _ _ _ Hm)
        (sm_decoder _ _ _ Hm)); [|lia|exact Hh|exact Hstop|exact Hv'|exact (sm_open _ _ _ Hm)|done].
      split; cbn [snd]; rewrite length_app, envelope_length by done; lia.
  - apply (session_advances c l); [done..| |done|done]. by rewrite Hi.
Qed.

(** ** Remote operations are local operations *)
(** What a status must satisfy to cross the wire unchanged. *)
Definition sendable (st : Status) : Prop :=
  Z.of_nat (length (status_reasons st)) <= Z.of_nat kMaxReasons /\ Forall reason_wf (status_reasons st).

Lemma sendable_response op st : sendable st ->
  response_wf (MkResponse (message_type_code op) (status_outcome st) (status_reasons st)).
Proof.
  intros [H1 H2]. split; [apply message_type_code_u16|]. split; [|done].
  unfold count_wf. cbn [re_reasons]. exact H1.
Qed.

Lemma rebuild_reasons rs : Forall reason_wf rs -> forall s,
  (length (status_reasons s) + length rs <= kMaxReasons)%nat ->
  foldl (fun s r => status_add s (reason_code r) (reason_detail r)) s rs =
    MkStatus (status_outcome s) (status_reasons s ++ rs).
Proof.
  induction 1 as [|r rs Hr Hrs IH]; intros [o l] Hl; cbn in *; [by rewrite app_nil_r|].
  unfold status_add at 2. cbn [status_reasons status_outcome].
  rewrite (proj2 (Nat.ltb_lt _ _)) by lia. rewrite reason_wf_eta by done.
  rewrite IH by (cbn; rewrite length_app; cbn; lia). cbn. by rewrite <- app_assoc.
Qed.
Lemma rebuild_sendable st : sendable st -> rebuild_status (status_outcome st) (status_reasons st) = st.
Proof.
  intros [H1 H2]. unfold rebuild_status. rewrite rebuild_reasons by (done || (cbn; lia)). by destruct st.
Qed.

(** The operations that answer a status, and those that answer a decision, with the
    message and the body that carry them. *)
Inductive status_call : MessageType -> bytes -> EngM Status -> Prop :=
  | SkFailure r : codec_wf r ->
      status_call MessageType.PublishFailure (encoded r) (epure (publish_failure_report r))
  | SkReplacement r : codec_wf r ->
      status_call MessageType.PublishReplacement (encoded r) (epure (publish_replacement_report r))
  | SkPolicy p : codec_wf p -> status_call MessageType.SetPolicy (encoded p) (set_policy p)
  | SkTopology t : codec_wf t -> status_call MessageType.SetTopology (encoded t) (set_topology t).
Inductive decision_call : MessageType -> bytes -> EngM (Result FailoverDecision) -> Prop :=
  | DkFailover q : codec_wf q -> decision_call MessageType.RequestFailover (encoded q) (request_failover q)
  | DkRollback q : codec_wf q -> decision_call MessageType.RequestRollback (encoded q) (request_rollback q)
  | DkApplication r : codec_wf r ->
      decision_call MessageType.ReportApplication (encoded r) (record_application r)
  | DkVerification r : codec_wf r ->
      decision_call MessageType.ReportVerification (encoded r) (record_verification r)
  | DkRevalidation q : codec_wf q ->
      decision_call MessageType.ResolveInterrupted (encoded q) (resolve_interrupted q).

Lemma with_encoded {A} `{Codec A} detail (a : A) k : codec_wf a -> with_body detail (encoded a) k = k a.
Proof. intros Ha. unfold with_body. change (encoded a) with (encode_payload a). by rewrite decode_payload_encode. Qed.
Lemma status_call_dispatch op body m stop : status_call op body m -> dispatch stop op body = reply_status m.
Proof. destruct 1; cbn [dispatch]; by rewrite with_encoded. Qed.
Lemma decision_call_dispatch op body m stop : decision_call op body m -> dispatch stop op body = reply_decision m.
Proof. destruct 1; cbn [dispatch]; by rewrite with_encoded. Qed.

(** What the client makes of an answer, and what it takes to send it. *)
Definition remote_answer (r : Result FailoverDecision) : Result FailoverDecision :=
  match r with
  | Success d => Success d
  | Failure s => Failure (status_add s ReasonCode.MalformedEncoding "the response carried no decision")
  end.
Definition answer_wf (r : Result FailoverDecision) : Prop :=
  match r with Success d => codec_wf d | Failure s => sendable s end.
Definition answer_size (op : MessageType) (r : Result FailoverDecision) : Z :=
  let '(st, body, _) := decision_reply r in Z.of_nat (length (response_payload op st body)).

Lemma decision_not_empty (d : FailoverDecision) : codec_wf d -> encoded d <> [].
Proof.
  intros Hd E. pose proof (decode_payload_encode d Hd) as H. unfold encode_payload in H. rewrite E in H.
  vm_compute in H. discriminate H.
Qed.

Definition engine_at (l : Line) : EngineImpl := sv_engine (li_world l).1.
Definition medium_at (l : Line) : Fs := (li_world l).2.

Lemma remote_decision_line op body m c l v r im' fs' :
  decision_call op body m -> session_matches c l v -> cl_seq c + 1 < two64 ->
  Z.of_nat (40 + length body) <= cl_max_payload c ->
  m (engine_at l) (medium_at l) = (r, im', fs') ->
  answer_wf r -> answer_size op r <= cl_max_payload c ->
  exists l' v', remote_decision line_transmit op body c ([], l) =
      Some (remote_answer r, set_cl_seq (cl_seq c + 1) c, ([], l')) /\
    engine_at l' = im' /\ medium_at l' = fs' /\ session_matches (set_cl_seq (cl_seq c + 1) c) l' v'.
Proof.
  intros Hc Hm Hn Hb E Hw Hsize.
  assert (Hop : op <> MessageType.Hello) by (by destruct Hc).
  pose proof (decision_call_dispatch op body m (vo_stop_on_shutdown_message (sv_options (li_world l).1)) Hc) as Hd.
  assert (Ed : dispatch (vo_stop_on_shutdown_message (sv_options (li_world l).1)) op body (engine_at l) (medium_at l) =
    (decision_reply r, im', fs')).
  { rewrite Hd. unfold reply_decision, ebind, iobind. by rewrite E. }
  destruct r as [d|s]; cbn [decision_reply answer_wf answer_size] in *.
  - destruct (remote_call op body c l v (status_of (fd_outcome d)) (encoded d) im' fs')
      as (l' & v' & Hcall & Hi & Hf & Hs'); [done..| |done|].
    { apply sendable_response. split; [unfold kMaxReasons; cbn; lia|constructor]. }
    exists l', v'. split; [|done]. unfold remote_decision, remote_value. rewrite Hcall.
    unfold rc_has_body. cbn [rc_body]. pose proof (decision_not_empty d Hw) as Hne.
    destruct (encoded d) as [|x b] eqn:Ex; [done|]. cbn [length Nat.eqb negb]. rewrite <- Ex.
    change (encoded d) with (encode_payload d). unfold decode_decision_payload.
    by rewrite decode_payload_encode.
  - destruct (remote_call op body c l v s [] im' fs') as (l' & v' & Hcall & Hi & Hf & Hs');
      [done..|by apply sendable_response|done|].
    exists l', v'. split; [|done]. unfold remote_decision, remote_value. rewrite Hcall.
    unfold to_status, rc_has_body. cbn [rc_outcome rc_reasons rc_body length Nat.eqb negb]. by rewrite rebuild_sendable.
Qed.

(** An inspection over the line brings the view and moves nothing. *)
Lemma remote_inspect_line limit c l v :
  let view := inspect (engine_at l) limit in
  session_matches c l v -> cl_seq c + 1 < two64 -> (limit <= 256)%nat -> engine_view_wf view ->
  46 <= cl_max_payload c ->
  Z.of_nat (length (response_payload MessageType.Inspect status_success (encode_engine_view view))) <= cl_max_payload c ->
  exists l' v', client_inspect line_transmit limit c ([], l) =
      Some (Success view, set_cl_seq (cl_seq c + 1) c, ([], l')) /\
    engine_at l' = engine_at l /\ medium_at l' = medium_at l /\ session_matches (set_cl_seq (cl_seq c + 1) c) l' v'.
Proof.
  intros view Hm Hn Hlimit Hw Hmax Hsize.
  destruct (remote_call MessageType.Inspect (encode_payload (MkInspectRequest limit)) c l v status_success
    (encode_engine_view view) (engine_at l) (medium_at l)) as (l' & v' & Hcall & Hi & Hf & Hs');
    [done..| |done|done|].
  - unfold dispatch. change (encode_payload (MkInspectRequest limit)) with (encoded (MkInspectRequest limit)).
    by rewrite with_encoded.
  - exists l', v'. split; [|done]. unfold client_inspect, remote_value. rewrite Hcall.
    unfold rc_has_body. cbn [rc_body]. destruct (encode_engine_view view) as [|x b] eqn:Ex.
    { exfalso. assert (H : decode_engine_view (encode_engine_view view) = Some view) by by apply decode_payload_encode.
      assert (Hnil : decode_engine_view [] = None) by (vm_compute; reflexivity). rewrite Ex, Hnil in H. discriminate H. }
    cbn [length Nat.eqb negb]. rewrite <- Ex. unfold decode_engine_view, encode_engine_view.
    by rewrite decode_payload_encode.
Qed.

(** C10: a remote decision is the engine's decision. Over a line whose two ends agree
    on the session, a remote failover, rollback, application, verification or
    revalidation whose request and answer fit a frame performs exactly that engine
    operation, once, on the coordinator's engine and medium; the client receives the
    very decision (a refusal without one gets one more reason), and both ends agree
    on the session again, one sequence further. *)
Theorem remote_decision_is_local op body m c l v r im' fs' :
  decision_call op body m -> session_matches c l v -> cl_seq c + 1 < two64 ->
  Z.of_nat (40 + length body) <= cl_max_payload c ->
  m (engine_at l) (medium_at l) = (r, im', fs') ->
  answer_wf r -> answer_size op r <= cl_max_payload c ->
  exists l' v', remote_decision line_transmit op body c ([], l) =
      Some (remote_answer r, set_cl_seq (cl_seq c + 1) c, ([], l')) /\
    engine_at l' = im' /\ medium_at l' = fs' /\ session_matches (set_cl_seq (cl_seq c + 1) c) l' v'.
Proof. apply remote_decision_line. Qed.

(** a remote publication or definition change is the engine's, and its status
    crosses the wire unchanged. *)
Theorem remote_status_is_local op body m c l v st im' fs' :
  status_call op body m -> session_matches c l v -> cl_seq c + 1 < two64 ->
  Z.of_nat (40 + length body) <= cl_max_payload c ->
  m (engine_at l) (medium_at l) = (st, im', fs') ->
  sendable st -> Z.of_nat (length (response_payload op st [])) <= cl_max_payload c ->
  exists l' v', remote_status line_transmit op body c ([], l) =
      Some (st, set_cl_seq (cl_seq c + 1) c, ([], l')) /\
    engine_at l' = im' /\ medium_at l' = fs' /\ session_matches (set_cl_seq (cl_seq c + 1) c) l' v'.
Proof.
  intros Hc Hm Hn Hb E Hw Hsize.
  assert (Hop : op <> MessageType.Hello) by (by destruct Hc).
  pose proof (status_call_dispatch op body m (vo_stop_on_shutdown_message (sv_options (li_world l).1)) Hc) as Hd.
  destruct (remote_call op body c l v st [] im' fs') as (l' & v' & Hcall & Hi & Hf & Hs');
    [done..| |by apply sendable_response|done|].
  { rewrite Hd. unfold reply_status, ebind, iobind, status_reply.
    fold (engine_at l) (medium_at l). by rewrite E. }
  exists l', v'. split; [|done]. unfold remote_status. rewrite Hcall.
  unfold to_status. cbn [rc_outcome rc_reasons]. by rewrite rebuild_sendable.
Qed.

(** ** The handshake over the line *)
Lemma hello_length h : codec_wf h -> (length (encode_payload (A := HelloRequest) h) <= 96)%nat.
Proof.
  intros (_ & [Hi _] & _ & Hr).
  assert (He : emits (hello_request_encode h) (le_bytes 2 kWireProtocolVersion ++ le_bytes 2 (hq_protocol_version h) ++
    inc_bytes (hq_client_incarnation h) ++ le_bytes 8 (hq_client_epoch h) ++
    (le_bytes 4 (Z.of_nat (String.length (hq_role h))) ++ bytes_of_string (hq_role h)) ++ [])).
  { unfold hello_request_encode. repeat (eapply emits_cons; [|]).
    all: eauto using emits_u16, emits_u64, emits_incarnation, emits_str_max, emits_nil. }
  unfold encode_payload, encoded. change (encode h writer_empty) with (hello_request_encode h writer_empty).
  rewrite (He writer_empty eq_refl). cbn [wr_buf writer_empty app].
  rewrite !length_app, !le_bytes_length, bytes_of_string_length. cbn [length]. lia.
Qed.
Lemma hello_ack_length h : codec_wf h -> length (encode_payload (A := HelloResponse) h) = 48%nat.
Proof.
  intros (_ & _ & [Hi _] & _).
  assert (He : emits (hello_response_encode h) (le_bytes 2 kWireProtocolVersion ++ le_bytes 2 (hr_protocol_version h) ++
    le_bytes 8 (hr_epoch h) ++ inc_bytes (hr_coordinator h) ++ le_bytes 8 (hr_session_id h) ++
    le_bytes 4 (hr_max_payload h) ++ le_bytes 8 (hr_server_tick h) ++ [])).
  { unfold hello_response_encode. repeat (eapply emits_cons; [|]).
    all: eauto using emits_u16, emits_u32, emits_u64, emits_incarnation, emits_nil. }
  unfold encode_payload, encoded. change (encode h writer_empty) with (hello_response_encode h writer_empty).
  rewrite (He writer_empty eq_refl). cbn [wr_buf writer_empty app].
  rewrite !length_app, !le_bytes_length. cbn [length]. lia.
Qed.

(** A session as admission leaves it, before its handshake. *)
Record session_fresh (l : Line) (v : SessionState) : Prop := {
  sf_session : sv_conns (li_world l).1 !! key = Some v;
  sf_open : line_open v = true;
  sf_shaken : ss_handshaken v = false;
  sf_id : is_u64 (ss_id v);
  sf_epoch : is_u64 (im_epoch (sv_engine (li_world l).1));
  sf_coordinator : incarnation_wf (im_incarnation (sv_engine (li_world l).1));
  sf_bounded : 96 <= max_frame (li_world l).1 <= kMaxFramePayload;
  sf_decoder : li_decoder l = decoder_new (max_frame (li_world l).1);
  sf_running : sv_stop_requested (li_world l).1 = false;
}.

Lemma hello_answers l v h : session_fresh l v -> codec_wf h ->
  let s := (li_world l).1 in
  let v' := push_ss_sent (frame_image (MessageType.HelloAck, encode_payload (hello_response v s)))
              (handshake h (im_epoch (sv_engine s)) v) in
  codec_wf (hello_response v s) /\
  exists s', handle_frame line_send key (frame_header (MessageType.Hello, encode_payload h)) (encode_payload h)
      (li_world l) = (s', (li_world l).2) /\
    sv_engine s' = sv_engine s /\ sv_options s' = sv_options s /\ sv_stop_requested s' = false /\
    sv_conns s' !! key = Some v'.
Proof.
  intros [Hv Ho Hh Hid He Hc Hb _ Hs] Hw. destruct l as [[s fs] d]. cbn [li_world fst snd] in *. cbv zeta.
  assert (Hack : codec_wf (hello_response v s)).
  { split; [done|]. split; [exact He|]. split; [exact Hc|]. split; [exact Hid|]. cbn.
    unfold kMaxFramePayload in Hb. rewrite Z.mod_small by lia. unfold kMaxFramePayload. split; [lia|ints]. }
  split; [exact Hack|]. unfold handle_frame. cbn [fst snd frame_header fh_type]. rewrite Hv.
  unfold handle_hello. rewrite decode_payload_encode by done.
  destruct Hw as (Hpv & _). rewrite Hpv, Z.eqb_refl, Hh. cbn [negb].
  change (sv_engine (on_session key (handshake h (im_epoch (sv_engine s))) s)) with (sv_engine s).
  set (s1 := on_session key (handshake h (im_epoch (sv_engine s))) s).
  assert (Hv1 : sv_conns s1 !! key = Some (handshake h (im_epoch (sv_engine s)) v))
    by (unfold s1; rewrite on_session_lookup, Hv; done).
  change (hello_response v s1) with (hello_response v s).
  unfold send_control. change (max_frame s1) with (max_frame s).
  rewrite encode_frame_fits by (rewrite hello_ack_length by done; lia). rewrite Hv1.
  unfold line_send. change (line_open (handshake h _ v)) with (line_open v). rewrite Ho.
  change (status_ok status_success) with true. cbv iota.
  eexists. split; [reflexivity|]. split; [done|]. split; [done|]. split; [exact Hs|].
  rewrite on_session_lookup, Hv1. done.
Qed.

(** C30: the handshake binds the two ends. Over a line to a session that admission
    has just opened, on a server whose frames hold at least 96 octets, a client with a
    valid incarnation and role that takes payloads of at least 48 gets the
    coordinator's epoch, its session identity and the negotiated frame size; both
    ends then agree on the session, and neither the engine nor the medium has moved. *)
Theorem handshake_opens_session c l v :
  session_fresh l v -> incarnation_wf (cl_incarnation c) -> Z.of_nat (String.length (cl_role c)) <= 64 ->
  48 <= cl_max_payload c <= kMaxFramePayload ->
  exists h l' v', client_handshake line_transmit c ([], l) = Some (status_success, greeted h c, ([], l')) /\
    hr_session_id h = ss_id v /\ hr_epoch h = im_epoch (engine_at l) /\
    hr_coordinator h = im_incarnation (engine_at l) /\
    engine_at l' = engine_at l /\ medium_at l' = medium_at l /\ session_matches (greeted h c) l' v'.
Proof.
  intros Hf Hi Hr Hm. set (q := MkHello kWireProtocolVersion (cl_incarnation c) 0 (cl_role c)).
  assert (Hq : codec_wf q) by (split_and!; done).
  destruct (hello_answers l v q Hf Hq) as (Hack & s' & Hh & He & Ho & Hs & Hv').
  pose proof (hello_length q Hq) as Hql. pose proof (hello_ack_length _ Hack) as Hal.
  pose proof Hf as [Hv Hop _ Hid Hep Hc Hb Hd _].
  set (h := hello_response v (li_world l).1) in *.
  set (v' := push_ss_sent _ _) in Hv'.
  set (l' := MkLine (s', (li_world l).2) (decoder_new (max_frame (li_world l).1))).
  exists h, l', v'.
  assert (Ht : line_transmit (frame_image (MessageType.Hello, encode_payload q)) l =
    (status_success, [Success (frame_image (MessageType.HelloAck, encode_payload h))], l')).
  { apply (line_answers l _ _ _ _ v v' s' _ Hv Hop Hd); [split; cbn [snd]; lia|lia|exact Hh|exact Hs|exact Hv'|done|done]. }
  assert (Hmp : hr_max_payload h = max_frame (li_world l).1).
  { cbn. apply Z.mod_small. unfold kMaxFramePayload in Hb. lia. }
  split; [|split; [done|split; [done|split; [done|split; [exact He|split; [done|]]]]]].
  - unfold client_handshake. fold q.
    rewrite encode_frame_fits by (unfold kDefaultFramePayload, kMaxFramePayload; lia).
    unfold send_frame. cbn [fst snd]. rewrite Ht. change (status_ok status_success) with true. cbn [negb app fst snd].
    rewrite receive_image by (lia || (split; cbn [snd]; lia)).
    unfold accept_hello. cbn [frame_header fh_type fst snd]. rewrite decode_payload_encode by done.
    destruct Hack as (Hpv & _). by rewrite Hpv, Z.eqb_refl.
  - split; [exact Hv'|exact Hop|done|done|done| |done| | | |exact Hs|].
    + change (hr_epoch h = im_epoch (sv_engine s')). by rewrite He.
    + change (hr_max_payload h = max_frame s'). rewrite Hmp. unfold max_frame. by rewrite Ho.
    + change (40 <= hr_max_payload h <= kMaxFramePayload). rewrite Hmp. lia.
    + change (decoder_new (max_frame (li_world l).1) = decoder_new (hr_max_payload h)). by rewrite Hmp.
    + split; [exact Hid|]. split; [exact Hep|]. split; [exact Hi|]. cbn. ints.
Qed.
(** The line is the read loop of the server: sending a frame over it is one reading
    of [serve_loop] that carries the frame, with the decoder it leaves behind. *)
Lemma line_serves l frame rest v :
  sv_conns (li_world l).1 !! key = Some v -> line_open v = true ->
  sv_stop_requested (li_world l).1 = false -> frame <> [] ->
  let '(pushed, decoder, (w, ended)) :=
    decoder_push (serve_handler line_send key) (li_decoder l) frame (li_world l, false) in
  (line_transmit frame l).2 = MkLine w decoder /\
  serve_loop line_send key (Received frame :: rest) (li_decoder l) false (li_world l) =
    if negb (status_ok pushed) then Some w else serve_loop line_send key rest decoder ended w.
Proof.
  intros Hv Ho Hs Hne. unfold line_transmit. rewrite Hv, Ho. cbn [negb serve_loop]. rewrite Hs. cbn [orb].
  destruct frame as [|x frame]; [done|]. change (fun h p st => _) with (serve_handler line_send key).
  destruct (decoder_push _ _ _ _) as [[pushed decoder] [w ended]].
  split; [by case_match|done].
Qed.
End line.

(** ** Any transport *)
(** a call takes at most one sequence, and only with a frame that was sent. A
    call that returns either leaves the client as it was, or has had exactly one
    frame accepted by the transport, which carries the session, the epoch, the
    incarnation and the next sequence in front of the body, and has taken that
    sequence, which is then never stamped again. *)
Theorem call_takes_one_sequence {W} (transmit : bytes -> W -> Status * Readings * W) op body c n r c' n' :
  is_u64 (cl_seq c) -> client_call transmit op body c n = Some (r, c', n') ->
  (c' = c /\ exists s, r = Failure s) \/
  (c' = set_cl_seq (cl_seq c + 1) c /\ is_u64 (cl_seq c + 1) /\
   exists frame, encode_frame op 0 (encode_payload (MkEnvelope (hr_session_id (cl_hello c)) (hr_epoch (cl_hello c))
       (cl_incarnation c) (cl_seq c + 1)) ++ body) (cl_max_payload c) = Success frame /\
     status_ok (transmit frame n.2).1.1 = true /\ n'.2 = (transmit frame n.2).2).
Proof.
  intros Hu. unfold client_call. destruct (strong_next (cl_seq c)) as [next|] eqn:En.
  2: { intros [= <- <- <-]. left. split; [done|by eexists]. }
  apply strong_next_Some in En as [-> Hn]; [|done].
  destruct (encode_frame _ _ _ _) as [frame|e] eqn:Ee.
  2: { intros [= <- <- <-]. left. split; [done|by eexists]. }
  unfold send_frame. destruct (transmit frame n.2) as [[s answers] w] eqn:Et.
  destruct (status_ok s) eqn:Hs; cbn [negb].
  2: { intros [= <- <- <-]. left. split; [done|by eexists]. }
  intros H. right.
  assert (Hc : c' = set_cl_seq (cl_seq c + 1) c /\ n'.2 = w).
  { revert H. cbn [fst snd]. destruct (receive_frame _ _) as [[[[h p]|e] rest]|]; [..|done]; by intros [= _ <- <-]. }
  destruct Hc as [-> Hw]. split; [done|]. split; [done|]. exists frame. rewrite Et. done.
Qed.

(** A coordinator that answers the hello with a successful response instead of an
    acknowledgement passes the handshake: the client reports success and keeps the
    session it had, which is none. *)
Lemma ok_response_passes_handshake {W} (transmit : bytes -> W -> Status * Readings * W) c n w :
  Z.of_nat (String.length (cl_role c)) <= 64 -> incarnation_wf (cl_incarnation c) ->
  100 <= cl_max_payload c <= kMaxFramePayload -> n.1 = [] ->
  (forall frame, transmit frame n.2 =
    (status_success, [Success (frame_image (MessageType.Response, response_payload MessageType.Hello status_success []))], w)) ->
  client_handshake transmit c n = Some (status_success, c, ([], w)).
Proof.
  destruct n as [readings w0]. cbn [fst snd]. intros Hr Hi Hm -> Ht. unfold client_handshake.
  assert (Hq : codec_wf (MkHello kWireProtocolVersion (cl_incarnation c) 0 (cl_role c))) by (split_and!; done).
  pose proof (hello_length _ Hq).
  rewrite encode_frame_fits by (unfold kDefaultFramePayload, kMaxFramePayload; lia).
  unfold send_frame. cbn [fst snd]. rewrite Ht. change (status_ok status_success) with true. cbn [negb app fst snd].
  assert (Hl : length (response_payload MessageType.Hello status_success []) = 10%nat) by (vm_compute; done).
  rewrite receive_image by (lia || (split; cbn [snd]; rewrite Hl; unfold kMaxFramePayload; lia)).
  unfold accept_hello. cbn [frame_header fh_type fst snd].
  assert (Hd : decode_response (response_payload MessageType.Hello status_success []) =
    Some (MkResponse (message_type_code MessageType.Hello) Outcome.Ok [])) by (vm_compute; done).
  by rewrite Hd.
Qed.
