(* ===== verification/Tool.v ===== *)
(** * Support of the command-line tools

    Arguments, the topology text, synthetic reports and the printing of statuses and
    decisions (detail/tool_common.cpp). The extractions of [std::istringstream] the
    topology parser uses are written out on strings. *)
From S2P Require Import Prelude Status Hash Ids Bytes Evidence Policy Authority Attempt Decision.
From S2P Require Import Selector Fs.

(** ** Arguments *)
Record Arguments := MkArguments {
  ag_positional : list string;
  ag_options : gmap string string;
}.
Definition arguments_has (a : Arguments) (name : string) : bool :=
  match ag_options a !! name with Some _ => true | None => false end.
Definition arguments_get (a : Arguments) (name fallback : string) : string :=
  default fallback (ag_options a !! name).
Definition bad_option {A} (detail name : string) : Result A :=
  Failure (status_add (status_failure Outcome.Invalid ReasonCode.InvalidArgument detail)
    ReasonCode.InvalidArgument name).
Definition arguments_get_u64 (a : Arguments) (name : string) (fallback : Z) : Result Z :=
  match ag_options a !! name with
  | None => Success fallback
  | Some text =>
      match parse_u64 text with
      | None => bad_option "option is not a decimal integer" name
      | Some value => Success value
      end
  end.
Definition arguments_get_u32 (a : Arguments) (name : string) (fallback : Z) : Result Z :=
  match arguments_get_u64 a name fallback with
  | Failure s => Failure s
  | Success value =>
      if value >? 4294967295 then bad_option "option exceeds the 32-bit range" name else Success value
  end.
Definition arguments_get_bool (a : Arguments) (name : string) (fallback : bool) : Result bool :=
  match ag_options a !! name with
  | None => Success fallback
  | Some text =>
      if existsb (String.eqb text) ["true"; "1"; "yes"]%string then Success true
      else if existsb (String.eqb text) ["false"; "0"; "no"]%string then Success false
      else bad_option "option is not a boolean" name
  end.

(** A token [--name=value] or [--name], which means true. *)
Definition option_of (token : string) : option (string * string) :=
  match token with
  | String "-" (String "-" body) =>
      Some (match lsplit "="%char body with Some (name, value) => (name, value) | None => (body, "true"%string) end)
  | _ => None
  end.
Definition arguments_step (token : string) (a : Arguments) : Result Arguments :=
  match option_of token with
  | None => Success (MkArguments (ag_positional a ++ [token]) (ag_options a))
  | Some (name, value) =>
      if string_empty name then fail Outcome.Invalid ReasonCode.InvalidArgument "empty option name"
      else if arguments_has a name then bad_option "duplicate option" name
      else Success (MkArguments (ag_positional a) (<[name := value]> (ag_options a)))
  end.
Fixpoint arguments_loop (argv : list string) (a : Arguments) : Result Arguments :=
  match argv with
  | [] => Success a
  | token :: rest =>
      match arguments_step token a with Failure s => Failure s | Success a => arguments_loop rest a end
  end.
Definition arguments_parse (argv : list string) : Result Arguments := arguments_loop argv (MkArguments [] ∅).

Definition read_text_file (path : string) : IoM (Result string) :=
  io* opened := fopen_existing path in
  match opened with
  | Some _ => ioret (Failure (status_add (status_failure Outcome.NotFound ReasonCode.InvalidArgument "cannot open file")
                ReasonCode.InvalidArgument path))
  | None =>
      io* fs := io_get in
      let text := default [] (fs_files fs !! path) in
      ioret (if Z.of_nat (length text) >? 1048576
             then fail Outcome.LimitExceeded ReasonCode.LimitExceeded "file exceeds the supported bound"
             else Success (string_of_bytes text))
  end.

(** ** std::istringstream *)
(** What is left to read, and whether no extraction has failed. *)
Record Stream := MkStream { st_rest : string; st_good : bool }.
Definition is_space (ch : Ascii.ascii) : bool :=
  let c := byte_of_ascii ch in ((c =? 32) || ((9 <=? c) && (c <=? 13)))%bool.
Fixpoint skip_space (s : string) : string :=
  match s with String ch s' => if is_space ch then skip_space s' else s | EmptyString => EmptyString end.
Fixpoint span (p : Ascii.ascii -> bool) (s : string) : string * string :=
  match s with
  | EmptyString => (EmptyString, EmptyString)
  | String ch s' => if p ch then let '(l, r) := span p s' in (String ch l, r) else (EmptyString, s)
  end.

(** [fields >> std::string]. *)
Definition stream_word (s : Stream) : string * Stream :=
  if negb (st_good s) then (EmptyString, s)
  else let '(word, rest) := span (fun ch => negb (is_space ch)) (skip_space (st_rest s)) in
  (word, MkStream rest (negb (string_empty word))).

(** [fields >> std::uint64_t]: an optional sign, then digits. A minus sign negates
    the value in 64 bits; without digits, or past the range, the extraction fails. *)
Definition stream_sign (s : string) : bool * string :=
  match s with
  | String "-" s' => (true, s')
  | String "+" s' => (false, s')
  | _ => (false, s)
  end.
Definition stream_u64 (s : Stream) : Z * Stream :=
  if negb (st_good s) then (0, s)
  else
    let '(negative, text) := stream_sign (skip_space (st_rest s)) in
    let '(digits, rest) := span (char_between "0"%char "9"%char) text in
    let value := decimal_value (bytes_of_string digits) in
    if string_empty digits then (0, MkStream rest false)
    else if value >=? two64 then (18446744073709551615, MkStream rest false)
    else (if negative : bool then wrap64 (- value) else value, MkStream rest true).

(** ** Topology text *)
Definition generation_value (line : string) : option string :=
  match lsplit "="%char line with
  | Some (key, value) => if key_is key "generation" then Some value else None
  | None => None
  end.
Definition topology_link_line (fabric line : string) : Result LinkDefinition :=
  let '(keyword, s) := stream_word (MkStream line true) in
  let '(name, s) := stream_word s in
  let '(generation, s) := stream_u64 s in
  let '(capacity, s) := stream_u64 s in
  if (negb (st_good s) || negb (String.eqb keyword "link"))%bool
  then fail Outcome.Invalid ReasonCode.MalformedEncoding
         "topology line must be 'link <name> <generation> <capacity>'"
  else match name_parse name with
  | Failure e => Failure e
  | Success link => Success (MkLink (MkLinkKey fabric link) generation (capacity mod two32))
  end.
Definition topology_line (fabric : string) (t : TopologySnapshot) (line : string) : Result TopologySnapshot :=
  match trim line with
  | EmptyString => Success t
  | String ch _ as line =>
      if Ascii.eqb "#"%char ch then Success t
      else match generation_value line with
      | Some value =>
          match parse_u64 (trim value) with
          | None => fail Outcome.Invalid ReasonCode.MalformedEncoding
                      "topology generation is not a decimal integer"
          | Some generation => Success (MkTopology generation (ts_links t))
          end
      | None =>
          match topology_link_line fabric line with
          | Failure e => Failure e
          | Success definition => Success (MkTopology (ts_generation t) (ts_links t ++ [definition]))
          end
      end
  end.
Fixpoint topology_lines (fabric : string) (t : TopologySnapshot) (lines : list string) : Result TopologySnapshot :=
  match lines with
  | [] => Success t
  | line :: rest =>
      match topology_line fabric t line with
      | Failure e => Failure e
      | Success t => topology_lines fabric t rest
      end
  end.
Definition parse_topology (text fabric : string) : Result TopologySnapshot :=
  match topology_lines fabric (MkTopology 1 []) (split_lines text) with
  | Failure e => Failure e
  | Success t =>
      let t := topology_canonicalise t in
      let valid := topology_validate t in
      if negb (status_ok valid) then Failure valid else Success t
  end.

(** ** Synthetic reports *)
(** A name that the grammar refuses leaves the field empty. *)
Definition name_or_empty (text : string) : string :=
  match name_parse text with Success n => n | Failure _ => EmptyString end.
Definition synthetic_stamp (publisher : string) (incarnation : Incarnation) (epoch seq : Z) : EvidenceStamp :=
  MkStamp (name_or_empty publisher) incarnation epoch seq 0.
Definition synthetic_failure_report (fabric link : string) (link_generation topology_generation : Z)
    (state : ObservationState) (confidence : Z) (publisher : string) (incarnation : Incarnation)
    (epoch seq : Z) : FailureReport :=
  MkFailureReport (MkLinkKey fabric (name_or_empty link)) link_generation topology_generation state
    (make_confidence confidence) (synthetic_stamp publisher incarnation epoch seq).
Definition synthetic_replacement_report (fabric link : string) (link_generation topology_generation : Z)
    (state : ObservationState) (confidence capacity_units cost_units : Z) (adjacency_authorized : bool)
    (publisher : string) (incarnation : Incarnation) (epoch seq : Z) : ReplacementReport :=
  MkReplacementReport (MkLinkKey fabric (name_or_empty link)) link_generation topology_generation state
    (make_confidence confidence) capacity_units cost_units adjacency_authorized 0
    (synthetic_stamp publisher incarnation epoch seq).
Definition deterministic_incarnation (name : string) (epoch : Z) : Incarnation :=
  MkIncarnation (take 16 (digest_bytes
    (builder_finish (builder_add_u64 (builder_add_text [] "lff.publisher" name) "epoch" epoch)))).

(** ** Printing *)
Definition print_line (key value : string) : string := policy_text_line key value.
Definition print_all (lines : list string) : string := foldr String.append EmptyString lines.
Definition print_reason (r : Reason) : string :=
  print_line "reason" (reason_code_name (reason_code r) +:+
    (if string_empty (reason_detail r) then EmptyString else ":" +:+ reason_detail r))%string.
Definition print_status (s : Status) : string :=
  print_all (print_line "outcome" (outcome_name (status_outcome s)) :: map print_reason (status_reasons s)).
Definition print_candidate (a : CandidateAssessment) : string :=
  print_line "candidate" (link_key_to_string (ca_candidate a) +:+ "@" +:+ decimal_text (ca_link_generation a) +:+
    ":" +:+ verdict_name (ca_verdict a) +:+ ":" +:+ reason_code_name (ca_reason a))%string.
Definition print_decision (d : FailoverDecision) : string := print_all ([
  print_line "outcome" (outcome_name (fd_outcome d));
  print_line "kind" (decision_kind_name (fd_kind d));
  print_line "assertion" (assertion_name (fd_assertion d));
  print_line "subject" (link_key_to_string (fd_subject d));
  print_line "subject_generation" (decimal_text (fd_subject_generation d));
  print_line "attempt_seq" (decimal_text (fd_attempt_seq d));
  print_line "attempt_id" (digest_hex (compute_attempt_id (fd_fabric d) (fd_subject d)
    (fd_subject_generation d) (fd_attempt_seq d)));
  print_line "decision_id" (digest_hex (fd_decision_id d));
  print_line "epoch" (decimal_text (fd_epoch d));
  print_line "coordinator" (incarnation_hex (fd_coordinator d));
  print_line "durable" (bool_text (fd_durable d));
  print_line "idempotent_replay" (bool_text (fd_idempotent_replay d));
  print_line "lineage_seq" (decimal_text (fd_lineage_seq d))] ++
  (if fd_has_replacement d
   then [print_line "replacement" (link_key_to_string (fd_replacement d));
         print_line "replacement_generation" (decimal_text (fd_replacement_generation d))]
   else []) ++
  [print_line "authority" (digest_hex (authority_digest (fd_authority d)));
   print_line "evidence_digest" (digest_hex (fd_evidence_digest d))] ++
  map print_reason (fd_reasons d) ++ map print_candidate (fd_candidates d)).
Definition print_limits (label : string) : string := print_line "limits" label.

(** ** Arguments: what a command line means *)
Definition token_options (argv : list string) : list (string * string) := omap option_of argv.
Definition token_words (argv : list string) : list string :=
  List.filter (fun t => match option_of t with Some _ => false | None => true end) argv.

Lemma token_options_cons t argv : token_options (t :: argv) =
  match option_of t with Some o => o :: token_options argv | None => token_options argv end.
Proof. done. Qed.
Lemma token_words_cons t argv : token_words (t :: argv) =
  match option_of t with Some _ => token_words argv | None => t :: token_words argv end.
Proof. unfold token_words. cbn [List.filter]. by destruct (option_of t). Qed.

Lemma arguments_loop_iff argv a b :
  arguments_loop argv a = Success b <->
  Forall (fun o => o.1 <> EmptyString /\ ag_options a !! o.1 = None) (token_options argv) /\
  NoDup (map fst (token_options argv)) /\
  b = MkArguments (ag_positional a ++ token_words argv)
        (foldl (fun m o => <[o.1 := o.2]> m) (ag_options a) (token_options argv)).
Proof.
  revert a. induction argv as [|t argv IH]; intros a.
  { cbn. rewrite app_nil_r. split; [|by intros (_ & _ & ->); destruct a].
    intros [= <-]. split; [constructor|]. split; [apply NoDup_nil_2|]. by destruct a. }
  cbn [arguments_loop]. unfold arguments_step. rewrite token_options_cons, token_words_cons.
  destruct (option_of t) as [[name value]|] eqn:Eo.
  - cbn [map fst]. rewrite Forall_cons, NoDup_cons. cbn [fst snd foldl].
    unfold string_empty, arguments_has. case_bool_decide as He.
    { split; [done|]. by intros [[[H1 _] _] _]. }
    destruct (ag_options a !! name) eqn:El.
    { split; [done|]. intros [[[_ H2] _] _]. cbn in H2. congruence. }
    rewrite IH. cbn [ag_options ag_positional]. split.
    + intros (Hf & Hn & ->). split; [|split; [split; [|done]|done]].
      * split; [done|]. eapply Forall_impl; [exact Hf|]. intros o [H1 H2]. split; [done|].
        by apply lookup_insert_None in H2 as [? _].
      * intros Hin. apply list_elem_of_In, in_map_iff in Hin as (o & Ho & Hin%list_elem_of_In).
        rewrite Forall_forall in Hf. apply Hf in Hin as [_ H2]. rewrite Ho, lookup_insert_eq in H2. done.
    + intros ((_ & Hf) & (Hnin & Hn) & ->). split; [|done]. rewrite Forall_forall in *. intros o Ho.
      destruct (Hf o Ho) as [H1 H2]. split; [done|]. apply lookup_insert_None. split; [done|].
      intros ->. apply Hnin, list_elem_of_In, in_map_iff. exists o. split; [done|by apply list_elem_of_In].
  - rewrite IH. cbn [ag_options ag_positional]. by rewrite <- app_assoc.
Qed.

(** what a command line means. Parsing succeeds exactly when every option has a
    name and no name is given twice; the positional arguments are then the other
    tokens in order, and every option has the value of its one token. *)
Theorem arguments_parse_iff argv a :
  arguments_parse argv = Success a <->
  Forall (fun o => o.1 <> EmptyString) (token_options argv) /\ NoDup (map fst (token_options argv)) /\
  a = MkArguments (token_words argv) (list_to_map (token_options argv)).
Proof.
  unfold arguments_parse. rewrite arguments_loop_iff. cbn [ag_positional ag_options app].
  assert (Hfold : NoDup (map fst (token_options argv)) ->
    foldl (fun m o => <[o.1 := o.2]> m) ∅ (token_options argv) = list_to_map (M := gmap string string) (token_options argv)).
  { intros Hn. rewrite (list_to_map_proper (token_options argv) (rev (token_options argv))) by
      (done || apply Permutation_rev).
    rewrite <- (rev_involutive (token_options argv)) at 1. generalize (rev (token_options argv)). clear.
    intros l. induction l as [|[k v] l IH]; [done|]. cbn [rev]. rewrite foldl_app, IH. cbn. done. }
  split.
  - intros (H1 & H2 & ->). split; [|split; [done|by rewrite Hfold]].
    eapply Forall_impl; [exact H1|]. by intros o [H _].
  - intros (H1 & H2 & ->). split; [|split; [done|by rewrite Hfold]].
    eapply Forall_impl; [exact H1|]. intros o H. split; [done|apply lookup_empty].
Qed.

(** ** The topology text round trips *)
Definition link_line (d : LinkDefinition) : string :=
  ("link " +:+ lk_link (ld_link d) +:+ " " +:+ decimal_text (ld_generation d) +:+ " " +:+
   decimal_text (ld_capacity_units d))%string.
Definition topology_text (generation : Z) (links : list LinkDefinition) : string :=
  (policy_text_line "generation" (decimal_text generation) +:+
   foldr (fun d rest => link_line d +:+ String newline rest) EmptyString links)%string.

Definition word_char (ch : Ascii.ascii) : bool :=
  (negb (is_space ch) && negb (Ascii.eqb "="%char ch))%bool.
Definition wordy (s : string) : bool := string_forallb word_char s.

Lemma wordy_cons c s : wordy (String c s) = (word_char c && wordy s)%bool.
Proof. done. Qed.
Lemma word_char_facts c : word_char c = true ->
  is_space c = false /\ Ascii.eqb "="%char c = false /\ is_blank c = false /\ Ascii.eqb newline c = false.
Proof.
  unfold word_char. intros [Hs%negb_true_iff He%negb_true_iff]%andb_true_iff. split; [done|]. split; [done|].
  unfold is_space in Hs. unfold is_blank. bool_prop.
  assert (~ (9 <= byte_of_ascii c <= 13)) by (intros [H1 H2]; rewrite (proj2 (Z.leb_le _ _) H1), (proj2 (Z.leb_le _ _) H2) in *; done).
  split.
  - rewrite (proj2 (Z.eqb_neq _ _)) by done. rewrite !(proj2 (Z.eqb_neq _ _)) by lia. done.
  - destruct (Ascii.eqb_spec newline c) as [<-|]; [|done]. exfalso. apply H1. vm_compute. split; discriminate.
Qed.

Lemma wordy_name n : is_valid_name n = true -> wordy n = true /\ n <> EmptyString.
Proof.
  unfold is_valid_name. repeat (case_if; [done|]). intros H. split.
  - revert H. unfold wordy. clear. induction n as [|c n IH]; [done|]. cbn.
    intros [Hc Hn]%andb_true_iff. rewrite IH by done. rewrite andb_true_r. revert Hc. clear.
    destruct c as [[] [] [] [] [] [] [] []]; vm_compute; done.
  - intros ->. bool_prop. done.
Qed.
Lemma wordy_decimal n : is_u64 n -> wordy (decimal_text n) = true /\ decimal_text n <> EmptyString.
Proof.
  intros Hn. unfold decimal_text. destruct (decimal_digits_spec 20 n) as (Hv & Hd & Hl); [ints|]. split.
  - unfold wordy. clear Hv Hl. induction Hd as [|b bs Hb _ IH]; [done|]. cbn [string_of_bytes string_forallb].
    rewrite IH, andb_true_r.
    assert (Hall : Forall (fun b => word_char (ascii_of_byte b) = true) (seqZ 48 10)).
    { apply (bool_decide_unpack _). vm_compute. exact I. }
    rewrite Forall_forall in Hall. apply Hall. apply elem_of_seqZ. lia.
  - destruct (decimal_digits 20 n) eqn:E; [cbn in Hl; lia|done].
Qed.

Lemma span_word w rest : wordy w = true ->
  span (fun ch => negb (is_space ch)) (w +:+ String " "%char rest)%string = (w, String " "%char rest).
Proof.
  induction w as [|c w IH]; [done|]. rewrite wordy_cons. intros [Hc Hw]%andb_true_iff.
  apply word_char_facts in Hc as (Hs & _). rewrite string_app_cons. cbn [span]. rewrite Hs. cbn [negb].
  by rewrite IH.
Qed.
Lemma skip_space_word c w : is_space c = false -> skip_space (String " "%char (String c w)) = String c w.
Proof. intros H. cbn. by rewrite H. Qed.

Lemma stream_word_read s w rest : wordy w = true -> w <> EmptyString ->
  skip_space s = (w +:+ String " "%char rest)%string ->
  stream_word (MkStream s true) = (w, MkStream (String " "%char rest) true).
Proof.
  intros Hw Hne Hs. unfold stream_word. cbn [st_good st_rest negb]. rewrite Hs, span_word by done.
  unfold string_empty. by rewrite bool_decide_eq_false_2.
Qed.

Definition digits_only (s : string) : bool := string_forallb (char_between "0"%char "9"%char) s.
Lemma digits_decimal n : is_u64 n -> digits_only (decimal_text n) = true.
Proof.
  intros Hn. unfold decimal_text. destruct (decimal_digits_spec 20 n) as (_ & Hd & _); [ints|].
  unfold digits_only. induction Hd as [|b bs Hb _ IH]; [done|]. cbn [string_of_bytes string_forallb].
  rewrite IH, andb_true_r.
  assert (Hall : Forall (fun b => char_between "0"%char "9"%char (ascii_of_byte b) = true) (seqZ 48 10)).
  { apply (bool_decide_unpack _). vm_compute. exact I. }
  rewrite Forall_forall in Hall. apply Hall. apply elem_of_seqZ. lia.
Qed.
Lemma span_digits w rest : digits_only w = true ->
  (rest = EmptyString \/ exists r, rest = String " "%char r) ->
  span (char_between "0"%char "9"%char) (w +:+ rest)%string = (w, rest).
Proof.
  intros Hw Hr. induction w as [|c w IH].
  - destruct Hr as [->|[r ->]]; done.
  - unfold digits_only in *. cbn [string_forallb] in Hw. apply andb_true_iff in Hw as [Hc Hw].
    rewrite string_app_cons. cbn [span]. by rewrite Hc, IH.
Qed.

Lemma decimal_text_value n : is_u64 n -> decimal_value (bytes_of_string (decimal_text n)) = n.
Proof.
  intros Hn. unfold decimal_text. destruct (decimal_digits_spec 20 n) as (Hv & Hd & _); [ints|].
  rewrite bytes_of_string_of_bytes; [done|]. eapply Forall_impl; [exact Hd|]. cbn. ints.
Qed.

Lemma stream_u64_read s n rest : is_u64 n ->
  (rest = EmptyString \/ exists r, rest = String " "%char r) ->
  skip_space s = (decimal_text n +:+ rest)%string ->
  stream_u64 (MkStream s true) = (n, MkStream rest true).
Proof.
  intros Hn Hr Hs. unfold stream_u64. cbn [st_good st_rest negb]. rewrite Hs.
  pose proof (digits_decimal n Hn) as Hd. destruct (wordy_decimal n Hn) as [_ Hne].
  assert (Hsign : stream_sign (decimal_text n +:+ rest)%string = (false, (decimal_text n +:+ rest)%string)).
  { destruct (decimal_text n) as [|c w]; [done|]. unfold digits_only in Hd. cbn [string_forallb] in Hd.
    apply andb_true_iff in Hd as [Hc _]. revert Hc. clear. rewrite string_app_cons.
    destruct c as [[] [] [] [] [] [] [] []]; vm_compute; done. }
  rewrite Hsign, span_digits by done. rewrite decimal_text_value by done.
  unfold string_empty. rewrite bool_decide_eq_false_2 by done.
  by rewrite (geb_false n) by ints.
Qed.

Lemma lsplit_wordy_app s t : wordy s = true -> lsplit "="%char t = None -> lsplit "="%char (s +:+ t)%string = None.
Proof.
  intros Hs Ht. induction s as [|c s IH]; [done|]. rewrite wordy_cons in Hs.
  apply andb_true_iff in Hs as [(_ & He & _)%word_char_facts Hs].
  rewrite string_app_cons. cbn [lsplit]. by rewrite He, IH.
Qed.
Lemma split_lines_wordy_app s t l ls : wordy s = true -> split_lines t = l :: ls ->
  split_lines (s +:+ t)%string = (s +:+ l)%string :: ls.
Proof.
  intros Hs Ht. induction s as [|c s IH]; [done|]. rewrite wordy_cons in Hs.
  apply andb_true_iff in Hs as [(_ & _ & _ & Hn)%word_char_facts Hs].
  rewrite !string_app_cons. cbn [split_lines]. by rewrite Hn, IH.
Qed.
Lemma trim_back_app s w : trim_back w = w -> w <> EmptyString -> trim_back (s +:+ w)%string = (s +:+ w)%string.
Proof.
  intros Hw Hne. induction s as [|c s IH]; [done|]. rewrite !string_app_cons. cbn [trim_back]. rewrite IH.
  by destruct s, w.
Qed.
Lemma trim_back_wordy w : wordy w = true -> trim_back w = w.
Proof.
  induction w as [|c w IH]; [done|]. rewrite wordy_cons. intros [(_ & _ & Hb & _)%word_char_facts Hw]%andb_true_iff.
  cbn [trim_back]. rewrite IH by done. destruct w; [by rewrite Hb|done].
Qed.
Lemma skip_space_wordy w rest : wordy w = true -> w <> EmptyString ->
  skip_space (String " "%char (w +:+ rest))%string = (w +:+ rest)%string.
Proof.
  intros Hw Hne. destruct w as [|c w]; [done|]. rewrite wordy_cons in Hw.
  apply andb_true_iff in Hw as [(Hs & _)%word_char_facts _]. rewrite string_app_cons. by apply skip_space_word.
Qed.
Lemma string_app_empty s : (s +:+ EmptyString)%string = s.
Proof. induction s as [|c s IH]; [done|]. by rewrite string_app_cons, IH. Qed.

(** A definition the text can carry: of the fabric, under a valid name. *)
Definition listed (fabric : string) (d : LinkDefinition) : Prop :=
  lk_fabric (ld_link d) = fabric /\ is_valid_name (lk_link (ld_link d)) = true /\
  is_u64 (ld_generation d) /\ is_u32 (ld_capacity_units d).
#[global] Instance listed_dec fabric d : Decision (listed fabric d).
Proof. unfold listed. apply _. Defined.

Section link_line.
Context (fabric : string) (d : LinkDefinition) (Hd : listed fabric d).
Definition link_tail : string := (" " +:+ decimal_text (ld_generation d) +:+ " " +:+ decimal_text (ld_capacity_units d))%string.

Lemma line_facts : wordy (lk_link (ld_link d)) = true /\ lk_link (ld_link d) <> EmptyString /\
  is_u64 (ld_generation d) /\ is_u64 (ld_capacity_units d).
Proof. destruct Hd as (_ & Hn & Hg & Hc). apply wordy_name in Hn as [? ?]. repeat split; try done; ints. Qed.

Lemma link_line_trim : trim (link_line d) = link_line d.
Proof.
  destruct line_facts as (Hw & Hne & Hg & Hc). unfold trim, link_line.
  change (trim_front ?s) with s. destruct (wordy_decimal _ Hc) as [Hcw Hcn].
  rewrite <- !string_app_assoc. by apply trim_back_app, Hcn; apply trim_back_wordy.
Qed.
Lemma link_line_no_equals : lsplit "="%char (link_line d) = None.
Proof.
  destruct line_facts as (Hw & Hne & Hg & Hc). destruct (wordy_decimal _ Hc) as [Hcw _], (wordy_decimal _ Hg) as [Hgw _].
  assert (Hsp : forall t, lsplit "="%char t = None -> lsplit "="%char (" " +:+ t)%string = None).
  { intros t E. rewrite string_app_cons. cbn [lsplit String.app]. change (EmptyString +:+ t)%string with t. by rewrite E. }
  unfold link_line. change "link "%string with ("link" +:+ " ")%string. rewrite string_app_assoc.
  apply lsplit_wordy_app; [done|]. apply Hsp. apply lsplit_wordy_app; [done|]. apply Hsp.
  apply lsplit_wordy_app; [done|]. apply Hsp. rewrite <- (string_app_empty (decimal_text _)).
  by apply lsplit_wordy_app.
Qed.
Lemma link_line_split rest :
  split_lines (link_line d +:+ String newline rest)%string = link_line d :: split_lines rest.
Proof.
  destruct line_facts as (Hw & Hne & Hg & Hc). destruct (wordy_decimal _ Hc) as [Hcw _], (wordy_decimal _ Hg) as [Hgw _].
  assert (Hsp : forall t l ls, split_lines t = l :: ls ->
    split_lines (" " +:+ t)%string = (" " +:+ l)%string :: ls).
  { intros t l ls E. rewrite string_app_cons. cbn [split_lines]. change (EmptyString +:+ t)%string with t. by rewrite E. }
  unfold link_line. change "link "%string with ("link" +:+ " ")%string. rewrite !string_app_assoc.
  apply split_lines_wordy_app; [done|]. apply Hsp. apply split_lines_wordy_app; [done|]. apply Hsp.
  apply split_lines_wordy_app; [done|]. apply Hsp.
  rewrite <- (string_app_empty (decimal_text (ld_capacity_units d))) at 2.
  by apply split_lines_wordy_app.
Qed.
Lemma link_line_parse : topology_link_line fabric (link_line d) = Success d.
Proof.
  destruct line_facts as (Hw & Hne & Hg & Hc). unfold topology_link_line.
  destruct (wordy_decimal _ Hc) as [Hcw Hcn], (wordy_decimal _ Hg) as [Hgw Hgn].
  rewrite (stream_word_read _ "link" (lk_link (ld_link d) +:+ link_tail)) by done.
  rewrite (stream_word_read _ (lk_link (ld_link d)) (decimal_text (ld_generation d) +:+ " " +:+ decimal_text (ld_capacity_units d)))
    by (done || by apply skip_space_wordy).
  rewrite (stream_u64_read _ (ld_generation d) (" " +:+ decimal_text (ld_capacity_units d))) by
    (done || (right; by eexists) || by apply skip_space_wordy).
  rewrite (stream_u64_read _ (ld_capacity_units d) EmptyString); [|done|by left|].
  2:{ rewrite string_app_cons. change (EmptyString +:+ ?s)%string with s.
    rewrite <- (string_app_empty (decimal_text (ld_capacity_units d))) at 1. by apply skip_space_wordy. }
  cbn [st_good negb orb String.eqb Ascii.eqb Bool.eqb].
  destruct Hd as (Hf & Hn & _ & Hu). rewrite name_parse_valid by done. rewrite Z.mod_small by (revert Hu; ints).
  destruct d as [[f n] g c]. cbn in *. by subst.
Qed.
Lemma link_line_read t :
  topology_line fabric t (link_line d) = Success (MkTopology (ts_generation t) (ts_links t ++ [d])).
Proof.
  unfold topology_line. rewrite link_line_trim.
  assert (E : generation_value (link_line d) = None) by (unfold generation_value; by rewrite link_line_no_equals).
  pose proof link_line_parse as Hp. destruct (link_line d) as [|ch l] eqn:El; [done|].
  rewrite Hp, E. unfold link_line in El. rewrite string_app_cons in El. injection El as <- _. done.
Qed.
End link_line.

Lemma topology_lines_links fabric t l : Forall (listed fabric) l ->
  topology_lines fabric t (split_lines (foldr (fun d rest => link_line d +:+ String newline rest)%string EmptyString l)) =
  Success (MkTopology (ts_generation t) (ts_links t ++ l)).
Proof.
  intros Hl. revert t. induction Hl as [|d l Hd _ IH]; intros t.
  { cbn. rewrite app_nil_r. by destruct t. }
  cbn [foldr]. rewrite (link_line_split fabric) by done. cbn [topology_lines].
  rewrite link_line_read by done. rewrite IH. cbn [ts_generation ts_links]. by rewrite <- app_assoc.
Qed.

Lemma link_before_not_after a b : link_before a b -> not_after link_definition_less a b.
Proof.
  unfold link_before, not_after, link_definition_less. intros H. rewrite H.
  destruct (link_key_ltb (ld_link b) (ld_link a)) eqn:E; [|done].
  pose proof (st_trans _ _ _ H E) as Hc. by rewrite st_irrefl in Hc.
Qed.
Lemma canonical_order l links : StronglySorted link_before links -> l ≡ₚ links ->
  std_sort link_definition_less l = links.
Proof.
  intros Hs Hp. apply (StronglySorted_unique_strong (not_after link_definition_less)).
  - intros a b Ha Hb H1 H2. rewrite elem_of_std_sort, Hp in Ha.
    apply (sorted_key_unique links); [done..|]. unfold not_after, link_definition_less in H1, H2.
    destruct (link_key_ltb (ld_link b) (ld_link a)) eqn:E1; [done|].
    destruct (link_key_ltb (ld_link a) (ld_link b)) eqn:E2; [done|]. by apply st_total.
  - apply (std_sort_sorted link_definition_less).
  - clear Hp. induction Hs as [|a r _ IH Ha]; constructor; [exact IH|].
    eapply Forall_impl; [exact Ha|]. intros b. apply link_before_not_after.
  - by rewrite std_sort_perm.
Qed.

Lemma generation_line_read fabric t g : is_u64 g ->
  topology_line fabric t ("generation" +:+ String "=" (decimal_text g))%string = Success (MkTopology g (ts_links t)).
Proof.
  intros Hg. assert (Hc : clean (decimal_text g) = true) by by apply clean_decimal.
  unfold topology_line. rewrite trim_unblank by by apply unblank_line.
  assert (E : generation_value ("generation" +:+ String "=" (decimal_text g))%string = Some (decimal_text g)).
  { unfold generation_value. by rewrite lsplit_line. }
  revert E. rewrite string_app_cons. intros E. rewrite E, trim_clean, parse_u64_decimal by done. done.
Qed.

Definition topology_listed (fabric : string) (t : TopologySnapshot) : Prop :=
  is_u64 (ts_generation t) /\ Forall (listed fabric) (ts_links t).
#[global] Instance topology_listed_dec fabric t : Decision (topology_listed fabric t).
Proof. unfold topology_listed. apply _. Defined.

Lemma topology_text_read fabric t l :
  topology_ok t -> topology_listed fabric t -> l ≡ₚ ts_links t ->
  parse_topology (topology_text (ts_generation t) l) fabric = Success t.
Proof.
  intros Hok [Hg Hl] Hp. unfold parse_topology, topology_text.
  rewrite split_lines_line by (done || by apply clean_decimal). cbn [topology_lines].
  rewrite generation_line_read by done. cbn [ts_links].
  rewrite topology_lines_links by by rewrite Hp. cbn [ts_generation ts_links app].
  assert (E : topology_canonicalise (MkTopology (ts_generation t) l) = t).
  { unfold topology_canonicalise. cbn [ts_generation ts_links]. destruct t as [g ls]. cbn in *. f_equal.
    apply canonical_order; [by destruct Hok|done]. }
  rewrite E. apply topology_validate_iff in Hok. by rewrite Hok.
Qed.

(** ** What the parser accepts *)
Lemma digit_char ch : char_between "0"%char "9"%char ch = true -> 48 <= byte_of_ascii ch <= 57.
Proof.
  unfold char_between. change (byte_of_ascii "0"%char) with 48. change (byte_of_ascii "9"%char) with 57. bool_prop. lia.
Qed.
Lemma parse_u64_loop_range value text n : is_u64 value -> parse_u64_loop value text = Some n -> is_u64 n.
Proof.
  revert value. induction text as [|ch text IH]; intros value Hv; cbn [parse_u64_loop]; [by intros [= <-]|].
  destruct (char_between "0"%char "9"%char ch) eqn:Ec; [|done]. apply digit_char in Ec. cbn [negb].
  rewrite checked_mul_u64_spec by ints. case_bool_decide; [|done].
  rewrite checked_add_u64_spec by ints. case_bool_decide; [|done]. apply IH. ints.
Qed.
Lemma parse_u64_range text n : parse_u64 text = Some n -> is_u64 n.
Proof. unfold parse_u64. case_if; [done|]. apply parse_u64_loop_range. ints. Qed.

Lemma span_left p s : string_forallb p (span p s).1 = true.
Proof.
  induction s as [|c s IH]; [done|]. cbn [span]. destruct (p c) eqn:E; [|done].
  destruct (span p s) as [l r]. cbn in *. by rewrite E.
Qed.
Lemma digits_bytes s : digits_only s = true -> Forall (fun b => 48 <= b <= 57) (bytes_of_string s).
Proof.
  unfold digits_only. induction s as [|c s IH]; [constructor|]. cbn [string_forallb].
  intros [Hc%digit_char Hs]%andb_true_iff. constructor; [done|by apply IH].
Qed.
Lemma stream_u64_range s : is_u64 (stream_u64 s).1.
Proof.
  unfold stream_u64. destruct (st_good s); cbn [negb fst]; [|ints].
  destruct (stream_sign _) as [neg text]. pose proof (span_left (char_between "0"%char "9"%char) text) as Hd.
  destruct (span _ text) as [digits rest]. cbn [fst] in Hd. cbn zeta.
  destruct (string_empty digits); [cbn; ints|].
  pose proof (decimal_value_ge 0 _ (digits_bytes _ Hd) ltac:(lia)) as Hge. fold (decimal_value (bytes_of_string digits)) in Hge.
  destruct (Z.geb_spec (decimal_value (bytes_of_string digits)) two64); [cbn; ints|]. cbn [fst].
  destruct neg; [|ints]. unfold wrap64. pose proof (Z.mod_pos_bound (- decimal_value (bytes_of_string digits)) two64 eq_refl). ints.
Qed.

Lemma topology_link_line_listed fabric line d : topology_link_line fabric line = Success d -> listed fabric d.
Proof.
  unfold topology_link_line. destruct (stream_word _) as [k s1]. destruct (stream_word s1) as [n s2].
  pose proof (stream_u64_range s2) as H3. destruct (stream_u64 s2) as [g s3].
  pose proof (stream_u64_range s3) as H4. destruct (stream_u64 s3) as [c s4]. case_if; [done|].
  unfold name_parse. destruct (is_valid_name n) eqn:En; [|done]. intros [= <-].
  repeat split; try done; cbn; try apply H3.
  all: pose proof (Z.mod_pos_bound c two32 eq_refl); ints.
Qed.

Lemma topology_lines_listed fabric t lines t' :
  topology_listed fabric t -> topology_lines fabric t lines = Success t' -> topology_listed fabric t'.
Proof.
  revert t. induction lines as [|line lines IH]; intros t Ht; cbn [topology_lines]; [by intros [= <-]|].
  destruct (topology_line fabric t line) as [t1|] eqn:E; [|done]. apply IH. destruct Ht as [Hg Hl]. revert E.
  unfold topology_line. destruct (trim line) as [|ch s]; [by intros [= <-]|]. case_if; [by intros [= <-]|].
  destruct (generation_value _) as [v|].
  - destruct (parse_u64 _) as [g|] eqn:Ep; [|done]. intros [= <-]. split; [by eapply parse_u64_range|done].
  - destruct (topology_link_line _ _) as [d|] eqn:Ed; [|done]. intros [= <-]. split; [done|].
    apply Forall_app. split; [done|]. constructor; [by eapply topology_link_line_listed|constructor].
Qed.

(** Whatever the text, an accepted topology validates and lists links of the fabric
    under valid names, with values of their width. *)
Lemma parse_topology_sound text fabric t :
  parse_topology text fabric = Success t -> topology_ok t /\ topology_listed fabric t.
Proof.
  unfold parse_topology. destruct (topology_lines _ _ _) as [t0|] eqn:E; [|done].
  destruct (status_ok _) eqn:Ev; [|done]. cbn [negb]. intros [= <-]. apply topology_validate_iff in Ev. split; [done|].
  apply topology_lines_listed in E as [Hg Hl]; [|split; [cbn; ints|constructor]]. split; [done|]. cbn.
  by rewrite (std_sort_perm link_definition_less).
Qed.
Lemma parse_topology_stable text fabric t :
  parse_topology text fabric = Success t ->
  parse_topology (topology_text (ts_generation t) (ts_links t)) fabric = Success t.
Proof. intros [Hok Hl]%parse_topology_sound. by apply topology_text_read. Qed.

(** C36: the topology text. With its link lines in any order, the text of a topology
    parses to that topology exactly when the topology is one the engine accepts, of
    the fabric, under valid names and with values of their width. *)
Theorem parse_topology_text fabric t l :
  l ≡ₚ ts_links t ->
  parse_topology (topology_text (ts_generation t) l) fabric = Success t <->
  topology_ok t /\ topology_listed fabric t.
Proof.
  intros Hp. split; [apply parse_topology_sound|]. intros [Hok Hl]. by apply topology_text_read.
Qed.

(** ** Concrete texts *)
Definition sample_topology : TopologySnapshot :=
  MkTopology 3 [MkLink (MkLinkKey "fab" "a") 1 10; MkLink (MkLinkKey "fab" "b") 2 4294967295].
Definition sample_text : string := topology_text 3 (reverse (ts_links sample_topology)).
Lemma parse_topology_text_witness : parse_topology sample_text "fab" = Success sample_topology.
Proof.
  unfold sample_text. apply (parse_topology_text "fab" sample_topology); [apply reverse_Permutation|].
  split; [|apply (bool_decide_unpack _); vm_compute; exact I].
  apply topology_validate_iff. reflexivity.
Defined.

(** Behaviours of the line parser that its form does not announce: the unsigned
    extraction takes a sign and wraps a negative number, the capacity is cut to 32
    bits, and what follows the capacity is ignored. *)
Lemma signed_link_line_accepted :
  topology_link_line "fab" "link a -1 5" = Success (MkLink (MkLinkKey "fab" "a") 18446744073709551615 5).
Proof. reflexivity. Qed.
Lemma wide_capacity_truncated :
  topology_link_line "fab" "link a 1 4294967297 surplus" = Success (MkLink (MkLinkKey "fab" "a") 1 1).
Proof. reflexivity. Qed.
