(* ===== verification/Process.v ===== *)
(** * The processes of the command line

    What the main programs share (tools/, detail/tool_common.hpp): their exit codes, the
    state of a process that holds a client, the way it runs, and the traffic a run puts
    on the wire. A process that waits for a peer that never answers has no result. *)
From S2P Require Import Prelude Status Hash Ids Bytes Evidence Policy Authority Attempt Decision.
From S2P Require Import Selector Fs Journal State Store Intake Engine EngineLogic EngineSafety Wire.
From S2P Require Import Server Client Tool.

Definition kExitOk : Z := 0.
Definition kExitNegative : Z := 1.
Definition kExitUsage : Z := 2.
Definition kExitTransport : Z := 3.

Definition line_of (text : string) : string := (text +:+ String newline EmptyString)%string.

Section process.
Context {W : Type} (transmit : bytes -> W -> Status * Readings * W).

(** A connected process: its client and connection, the file system, and what it has
    written to the standard output and the standard error. *)
Record Run := MkRun {
  rn_client : ClientImpl;
  rn_net : Net (W := W);
  rn_fs : Fs;
  rn_out : string;
  rn_err : string;
}.
Definition rn_world (r : Run) : W := (rn_net r).2.

Definition Proc (A : Type) : Type := Run -> option (A * Run).
Definition pret {A} (a : A) : Proc A := fun r => Some (a, r).
Definition pbind {A B} (m : Proc A) (k : A -> Proc B) : Proc B := fun r =>
  match m r with None => None | Some (a, r) => k a r end.
Definition pget : Proc Run := fun r => Some (r, r).
Definition psay (text : string) : Proc unit := fun r =>
  Some (tt, MkRun (rn_client r) (rn_net r) (rn_fs r) (rn_out r +:+ text) (rn_err r)).
Definition pcomplain (text : string) : Proc unit := fun r =>
  Some (tt, MkRun (rn_client r) (rn_net r) (rn_fs r) (rn_out r) (rn_err r +:+ text)).
Definition pio {A} (m : IoM A) : Proc A := fun r =>
  let '(a, fs) := m (rn_fs r) in Some (a, MkRun (rn_client r) (rn_net r) fs (rn_out r) (rn_err r)).
Definition pcall {A} (f : ClientImpl -> Net (W := W) -> option (A * ClientImpl * Net)) : Proc A := fun r =>
  match f (rn_client r) (rn_net r) with
  | None => None
  | Some (a, c, n) => Some (a, MkRun c n (rn_fs r) (rn_out r) (rn_err r))
  end.

(** ** Traffic *)
(** The world after frames of these types were handed to the transport, in order. *)
Inductive transmits : list MessageType -> W -> W -> Prop :=
  | TransmitsNil w : transmits [] w w
  | TransmitsCons t p max frame ts w w' :
      encode_frame t 0 p max = Success frame -> transmits ts (transmit frame w).2 w' ->
      transmits (t :: ts) w w'.

Lemma transmits_app ts1 ts2 w1 w2 w3 :
  transmits ts1 w1 w2 -> transmits ts2 w2 w3 -> transmits (ts1 ++ ts2) w1 w3.
Proof. induction 1; [done|]. intros. cbn. econstructor; eauto. Qed.

(** A process whose result and traffic always satisfy [P]. *)
Definition traffic {A} (P : A -> list MessageType -> Prop) (m : Proc A) : Prop :=
  forall r a r', m r = Some (a, r') -> exists ts, transmits ts (rn_world r) (rn_world r') /\ P a ts.
Definition at_most {A} (op : MessageType) (_ : A) (ts : list MessageType) : Prop := ts = [] \/ ts = [op].
Definition at_most_value {A} (op : MessageType) (a : Result A) (ts : list MessageType) : Prop :=
  (ts = [] /\ exists s, a = Failure s) \/ ts = [op].
Definition silent {A} (m : Proc A) : Prop := traffic (fun _ ts => ts = []) m.

Lemma traffic_mono {A} (P Q : A -> list MessageType -> Prop) m :
  (forall a ts, P a ts -> Q a ts) -> traffic P m -> traffic Q m.
Proof. intros H Hm r a r' E. destruct (Hm r a r' E) as (ts & Ht & Hp). exists ts. auto. Qed.
Lemma traffic_ret {A} (P : A -> list MessageType -> Prop) a : P a [] -> traffic P (pret a).
Proof. intros H r a' r' [= <- <-]. exists []. split; [constructor|done]. Qed.
Lemma traffic_bind {A B} (P : A -> list MessageType -> Prop) (Q : B -> list MessageType -> Prop) m k :
  traffic P m -> (forall a ts, P a ts -> traffic (fun b ts' => Q b (ts ++ ts')) (k a)) -> traffic Q (pbind m k).
Proof.
  intros Hm Hk r b r' E. unfold pbind in E. destruct (m r) as [[a r1]|] eqn:Em; [|done].
  destruct (Hm _ _ _ Em) as (ts & Ht & Hp). destruct (Hk a ts Hp _ _ _ E) as (ts' & Ht' & Hq).
  exists (ts ++ ts'). split; [by eapply transmits_app|done].
Qed.
Lemma traffic_silent_bind {A B} (Q : B -> list MessageType -> Prop) (m : Proc A) k :
  silent m -> (forall a, traffic Q (k a)) -> traffic Q (pbind m k).
Proof. intros Hm Hk. eapply traffic_bind; [exact Hm|]. intros a ts ->. apply Hk. Qed.

Lemma silent_say text : silent (psay text).
Proof. intros r a r' [= <- <-]. exists []. split; [constructor|done]. Qed.
Lemma silent_complain text : silent (pcomplain text).
Proof. intros r a r' [= <- <-]. exists []. split; [constructor|done]. Qed.
Lemma silent_get : silent pget.
Proof. intros r a r' [= <- <-]. exists []. split; [constructor|done]. Qed.
Lemma silent_io {A} (m : IoM A) : silent (pio m).
Proof. intros r a r'. unfold pio. destruct (m _). intros [= <- <-]. exists []. split; [constructor|done]. Qed.

(** A call hands at most one frame to the transport: an envelope and the body. *)
Lemma call_frame op body c n r c' n' : client_call transmit op body c n = Some (r, c', n') ->
  (n'.2 = n.2 /\ exists s, r = Failure s) \/
  exists e frame, encode_frame op 0 (encode_payload (A := SessionEnvelope) e ++ body) (cl_max_payload c) = Success frame /\
    n'.2 = (transmit frame n.2).2.
Proof.
  unfold client_call. destruct (strong_next _); [|intros [= <- _ <-]; left; eauto].
  destruct (encode_frame _ _ _ _) as [frame|] eqn:Ef; [|intros [= <- _ <-]; left; eauto].
  unfold send_frame. destruct (transmit frame n.2) as [[s answers] w] eqn:Et. intros E.
  right. eexists _, frame. split; [exact Ef|]. rewrite Et. revert E.
  destruct (status_ok s); cbn [negb fst snd]; [|by intros [= _ _ <-]].
  destruct (receive_frame _ _) as [[[[h p]|e] rest]|]; [..|done]; by intros [= _ _ <-].
Qed.
Lemma call_traffic op body c n r c' n' : client_call transmit op body c n = Some (r, c', n') ->
  exists ts, transmits ts n.2 n'.2 /\ at_most_value op r ts.
Proof.
  intros [[-> Hs]|(e & frame & Ef & ->)]%call_frame.
  - exists []. split; [constructor|left; eauto].
  - exists [op]. split; [|by right]. eapply TransmitsCons; [exact Ef|constructor].
Qed.
Lemma traffic_call {A} op body (f : Result CallResult -> ClientImpl -> A * ClientImpl)
    (P : A -> list MessageType -> Prop) :
  (forall r c, P (f r c).1 [op]) -> (forall s c, P (f (Failure s) c).1 []) ->
  traffic P (pcall (fun c n => match client_call transmit op body c n with
    | None => None | Some (r, c, n) => Some (f r c, n) end)).
Proof.
  intros H1 H0 r a r'. unfold pcall.
  destruct (client_call _ _ _ _ _) as [[[res c] n]|] eqn:E; [|done].
  apply call_traffic in E as (ts & Ht & Hv). specialize (H1 res c). pose proof (fun s => H0 s c) as H0'.
  destruct (f res c) as [x c'] eqn:Ef. intros [= <- <-]. exists ts. split; [exact Ht|].
  destruct Hv as [[-> [s ->]] | -> ]; [|exact H1]. specialize (H0' s). by rewrite Ef in H0'.
Qed.
Lemma pcall_ext {A} (f g : ClientImpl -> Net (W := W) -> option (A * ClientImpl * Net)) P :
  (forall c n, f c n = g c n) -> traffic P (pcall g) -> traffic P (pcall f).
Proof. intros E H r a r'. unfold pcall. rewrite E. apply H. Qed.
Lemma traffic_status op body : traffic (at_most op) (pcall (remote_status transmit op body)).
Proof.
  eapply pcall_ext; [|apply (traffic_call op body (fun r c =>
    (match r with Failure s => s | Success a => to_status a end, c)))]; [|by right|by left].
  intros c n. unfold remote_status. by destruct (client_call _ _ _ _ _) as [[[[] ?] ?]|].
Qed.
Lemma traffic_value {A} (decode_body : bytes -> option A) missing op body :
  traffic (at_most_value op) (pcall (remote_value transmit decode_body missing op body)).
Proof.
  eapply pcall_ext; [|apply (traffic_call op body (fun r c => (match r with Failure s => Failure s | Success a =>
      let absent := Failure (status_add (to_status a) ReasonCode.MalformedEncoding missing) in
      if negb (rc_has_body a) then absent else match decode_body (rc_body a) with None => absent | Some v => Success v end
    end, c)))]; [|by right|left; eauto].
  intros c n. unfold remote_value. by destruct (client_call _ _ _ _ _) as [[[[] ?] ?]|].
Qed.
Lemma traffic_ping : traffic (at_most MessageType.Ping) (pcall (client_ping transmit)).
Proof.
  eapply pcall_ext; [|apply (traffic_call MessageType.Ping [] (fun r c =>
    match r with Failure s => (s, c) | Success a => (to_status a, set_cl_hello (ping_answer (rc_body a) (cl_hello c)) c) end))].
  - intros c n. unfold client_ping. by destruct (client_call _ _ _ _ _) as [[[[] ?] ?]|].
  - intros [] c; by right.
  - by left.
Qed.
End process.

(** How a process ended; [en_run] is its last state, if it ever connected. *)
Record Ended (W : Type) := MkEnded {
  en_code : Z;
  en_out : string;
  en_err : string;
  en_run : option (Run (W := W));
}.
#[global] Arguments MkEnded {W}.
#[global] Arguments en_code {W}.
#[global] Arguments en_run {W}.
Definition ended_early {W} (code : Z) (message : string) : Ended W := MkEnded code "" message None.
Definition ended_with {W} (o : option (Z * Run (W := W))) : option (Ended W) :=
  match o with None => None | Some (code, r) => Some (MkEnded code (rn_out r) (rn_err r) (Some r)) end.

Notation "'proc*' x := m 'in' k" := (pbind m (fun x => k))
  (at level 10, x name, m at level 100, k at level 200) : lff_scope.
#[export] Hint Resolve silent_say silent_complain silent_get silent_io traffic_status traffic_value
  traffic_ping : lff.
