(* ===== verification/Ctl.v ===== *)
(** * The operator's client

    The main program of lffctl (tools/lffctl.cpp). What a command line asks for is a
    pure function of its arguments and, where the coordinator's fabric or epoch enters,
    of an inspected view; the commands put it on the wire and report the answer. *)
From S2P Require Import Prelude Status Hash Ids Bytes Evidence Policy Authority Attempt Decision.
From S2P Require Import Selector Fs Journal State Store Intake Engine EngineLogic EngineSafety Wire.
From S2P Require Import Server Client Tool Process.

(** The text of [usage], line by line. *)
Definition ctl_usage_text : string := foldr (fun l rest => (line_of l +:+ rest)%string) EmptyString [
  "usage: lffctl --endpoint=HOST:PORT <command> [--name=value ...]";
  "";
  "commands:";
  "  ping";
  "  inspect [--history=N]";
  "  shutdown";
  "  set-policy --file=PATH | --generation=N [other policy keys]";
  "  set-topology --file=PATH";
  "  publish-failure --link=L --generation=G --topology-generation=T --state=ST";
  "                  --confidence=C --publisher=P [--publisher-epoch=N]";
  "                  [--publisher-incarnation=HEX] [--observation-seq=N]";
  "  publish-replacement --link=L --generation=G --topology-generation=T --state=ST";
  "                      --confidence=C --capacity=N [--cost=N]";
  "                      [--adjacency-authorized=BOOL] --publisher=P [...]";
  "  failover --link=L --generation=G [--candidates=a,b:7] [--idempotency=HEX]";
  "           [--expect-epoch=N] [--expect-coordinator=HEX]";
  "           [--expect-topology-generation=N] [--expect-policy-generation=N]";
  "  rollback --link=L --attempt-seq=N [--rationale=TEXT]";
  "  apply --link=L --generation=G --attempt-seq=N --attempt-id=HEX [--reject]";
  "  verify --link=L --generation=G --attempt-seq=N --attempt-id=HEX [--not-observed]";
  "  revalidate --link=L --generation=G --attempt-seq=N --verdict=V";
  "  claim [--max=N]";
  "";
  "states: Unknown Up Degraded Down Unusable";
  "verdicts: NotApplied Applied Unknown"]%string.

(** ** What the arguments mean *)
(** A refusal is the message of [fail]. *)
Definition Built (A : Type) : Type := string + A.
Definition need {A B} (o : option A) (message : string) (k : A -> Built B) : Built B :=
  match o with None => inl message | Some a => k a end.
Definition built_bind {A B} (m : Built A) (k : A -> Built B) : Built B :=
  match m with inl message => inl message | inr a => k a end.
Notation "'need*' x := o 'or' message 'in' k" := (need o message (fun x => k))
  (at level 10, x name, o at level 100, message at level 1, k at level 200) : lff_scope.

Definition u64_option (args : Arguments) (name : string) (fallback : Z) : option Z :=
  result_value (arguments_get_u64 args name fallback).
Definition bool_option (args : Arguments) (name : string) (fallback : bool) : option bool :=
  result_value (arguments_get_bool args name fallback).

Definition parse_digest (text : string) : option Digest :=
  if string_empty text then Some digest_zero else digest_parse text.

(** An option that is absent leaves its field unset. *)
Definition expectation_field {A} (args : Arguments) (name : string) (parse : string -> option A) :
    option (option A) :=
  if arguments_has args name
  then match parse (arguments_get args name "") with Some a => Some (Some a) | None => None end
  else Some None.
Definition build_expectation (args : Arguments) : option AuthorityExpectation :=
  let number name := expectation_field args name (fun _ => u64_option args name 0) in
  match number "expect-epoch"%string, expectation_field args "expect-coordinator" incarnation_parse,
        number "expect-topology-generation"%string, number "expect-policy-generation"%string with
  | Some epoch, Some coordinator, Some topology, Some policy =>
      Some (MkExpectation epoch coordinator topology policy None None None)
  | _, _, _, _ => None
  end.

Fixpoint split_loop (separator : Ascii.ascii) (text current : string) : list string :=
  match text with
  | EmptyString => if string_empty current then [] else [current]
  | String ch rest =>
      if Ascii.eqb ch separator then current :: split_loop separator rest EmptyString
      else split_loop separator rest (current +:+ String ch EmptyString)%string
  end.
Definition split_on (separator : Ascii.ascii) (text : string) : list string := split_loop separator text EmptyString.

(** The digits of a candidate's generation, accumulated modulo 2^64. *)
Fixpoint candidate_generation (value : Z) (text : string) : option Z :=
  match text with
  | EmptyString => Some value
  | String ch rest =>
      if negb (char_between "0"%char "9"%char ch) then None
      else candidate_generation (wrap64 (wrap64 (value * 10) + (byte_of_ascii ch - 48))) rest
  end.
Definition candidate_of (fabric spec : string) : Built ReplacementCandidate :=
  match split_on ":"%char spec with
  | [] => inl "invalid candidate link name"%string
  | name :: fields =>
      need* link := result_value (name_parse name) or "invalid candidate link name"%string in
      need* generation := match fields with
          | text :: _ => if string_empty text then Some 0 else candidate_generation 0 text
          | [] => Some 0
          end or "candidate generation must be decimal"%string in
      inr (MkCandidate (MkLinkKey fabric link) generation)
  end.
Fixpoint candidates_of (fabric : string) (specs : list string) : Built (list ReplacementCandidate) :=
  match specs with
  | [] => inr []
  | spec :: rest =>
      if string_empty spec then candidates_of fabric rest
      else built_bind (candidate_of fabric spec) (fun entry =>
           built_bind (candidates_of fabric rest) (fun entries => inr (entry :: entries)))
  end.

Definition build_failover (args : Arguments) (view : EngineView) : Built FailoverRequest :=
  need* fabric := result_value (name_parse (vw_fabric view)) or "invalid fabric or link name"%string in
  need* link := result_value (name_parse (arguments_get args "link" "")) or "invalid fabric or link name"%string in
  need* generation := u64_option args "generation" 0 or "--generation is required and must be non-zero"%string in
  if generation =? 0 then inl "--generation is required and must be non-zero"%string
  else built_bind (candidates_of fabric (split_on ","%char (arguments_get args "candidates" ""))) (fun candidates =>
  need* expected := build_expectation args or "authority expectation is malformed"%string in
  need* key := parse_digest (arguments_get args "idempotency" "") or "--idempotency must be 64 hexadecimal characters"%string in
  inr (MkFailoverRequest (MkLinkKey fabric link) generation candidates expected key)).

Definition build_rollback (args : Arguments) (view : EngineView) : Built RollbackRequest :=
  need* link := result_value (name_parse (arguments_get args "link" "")) or "--link and --attempt-seq are required"%string in
  need* seq := u64_option args "attempt-seq" 0 or "--link and --attempt-seq are required"%string in
  if seq =? 0 then inl "--link and --attempt-seq are required"%string
  else
  need* expected := build_expectation args or "authority expectation is malformed"%string in
  need* key := parse_digest (arguments_get args "idempotency" "") or "--idempotency must be 64 hexadecimal characters"%string in
  inr (MkRollbackRequest (MkLinkKey (vw_fabric view) link) 0 seq expected key
         (arguments_get args "rationale" "operator rollback")).

(** The link, the generation and the attempt that a report names. *)
Definition build_subject (args : Arguments) : Built (string * Z * Z) :=
  need* link := result_value (name_parse (arguments_get args "link" ""))
    or "--link, --generation and --attempt-seq are required"%string in
  need* generation := u64_option args "generation" 0 or "--link, --generation and --attempt-seq are required"%string in
  need* seq := u64_option args "attempt-seq" 0 or "--link, --generation and --attempt-seq are required"%string in
  inr (link, generation, seq).
Definition build_attempt (args : Arguments) : Built (string * Z * Z * Digest) :=
  built_bind (build_subject args) (fun subject =>
  need* id := digest_parse (arguments_get args "attempt-id" "") or "--attempt-id must be 64 hexadecimal characters"%string in
  inr (subject, id)).
Definition build_application (args : Arguments) (view : EngineView) (c : ClientImpl) : Built ApplicationReport :=
  built_bind (build_attempt args) (fun '(link, generation, seq, id) =>
  need* rejected := bool_option args "reject" false or "--reject must be a boolean"%string in
  inr (MkApplicationReport (MkLinkKey (vw_fabric view) link) generation seq id (cl_incarnation c) (vw_epoch view)
         (negb rejected) "ctl apply")).
Definition build_verification (args : Arguments) (view : EngineView) (c : ClientImpl) : Built VerificationReport :=
  built_bind (build_attempt args) (fun '(link, generation, seq, id) =>
  need* missing := bool_option args "not-observed" false or "--not-observed must be a boolean"%string in
  inr (MkVerificationReport (MkLinkKey (vw_fabric view) link) generation seq id (cl_incarnation c) (vw_epoch view)
         (negb missing) "ctl verify")).
Definition build_revalidation (args : Arguments) (view : EngineView) (c : ClientImpl) : Built RevalidationRequest :=
  built_bind (build_subject args) (fun '(link, generation, seq) =>
  need* verdict := revalidation_verdict_parse (arguments_get args "verdict" "Unknown")
    or "--verdict must be NotApplied, Applied or Unknown"%string in
  inr (MkRevalidationRequest (MkLinkKey (vw_fabric view) link) generation seq verdict (cl_incarnation c)
         (vw_epoch view) (arguments_get args "rationale" "ctl revalidate"))).

(** The policy that the options of set-policy spell out. *)
Definition build_policy (args : Arguments) (policy : FailoverPolicy) : Built FailoverPolicy :=
  let malformed := "policy option is not a decimal integer or boolean"%string in
  need* generation := u64_option args "generation" 1 or "--generation must be a decimal integer"%string in
  need* min_failure := u64_option args "min-failure-confidence" (fp_min_failure_confidence policy) or malformed in
  need* min_replacement := u64_option args "min-replacement-confidence" (fp_min_replacement_confidence policy)
    or malformed in
  need* max_age := u64_option args "evidence-max-age-ticks" (fp_evidence_max_age_ticks policy) or malformed in
  need* max_candidates := u64_option args "max-candidates" (fp_max_candidates policy) or malformed in
  need* max_attempts := u64_option args "max-attempts-per-generation" (fp_max_attempts_per_generation policy)
    or malformed in
  need* adjacency := bool_option args "require-adjacency-authorization" (fp_require_adjacency_authorization policy)
    or malformed in
  need* degraded := bool_option args "allow-degraded-replacement" (fp_allow_degraded_replacement policy) or malformed in
  need* enabled := bool_option args "failover-enabled" (fp_failover_enabled policy) or malformed in
  need* verified := bool_option args "require-verified-effect" (fp_require_verified_effect policy) or malformed in
  if ((min_failure >? kMaxConfidence) || (min_replacement >? kMaxConfidence) ||
      (max_candidates >? 4294967295) || (max_attempts >? 4294967295))%bool
  then inl "policy option is out of range"%string
  else
  let policy :=
    set_fp_require_verified_effect verified (set_fp_failover_enabled enabled (set_fp_allow_degraded_replacement degraded
    (set_fp_require_adjacency_authorization adjacency (set_fp_max_attempts_per_generation max_attempts
    (set_fp_max_candidates max_candidates (set_fp_evidence_max_age_ticks max_age
    (set_fp_min_replacement_confidence (make_confidence min_replacement)
    (set_fp_min_failure_confidence (make_confidence min_failure) (set_fp_generation generation policy))))))))) in
  if arguments_has args "agreement"
  then need* rule := agreement_rule_parse (arguments_get args "agreement" "")
         or "--agreement must be unanimous or majority"%string in
       inr (set_fp_agreement rule policy)
  else inr policy.

(** What both publications share: generations, confidence, epoch, sequence, state, and
    the publisher with its incarnation. *)
Record Observed := MkObserved {
  ob_link : string;
  ob_generation : Z;
  ob_topology_generation : Z;
  ob_confidence : Z;
  ob_publisher_epoch : Z;
  ob_observation_seq : Z;
  ob_state : ObservationState;
  ob_publisher : string;
  ob_incarnation : Incarnation;
}.
Definition build_observed (args : Arguments) (view : EngineView) : Built Observed :=
  let malformed := "numeric option is not a decimal integer"%string in
  let link := arguments_get args "link" "" in
  if string_empty link then inl "--link is required"%string
  else
  need* generation := u64_option args "generation" 0 or malformed in
  need* topology := u64_option args "topology-generation" (vw_topology_generation view) or malformed in
  need* confidence := u64_option args "confidence" 1000 or malformed in
  need* epoch := u64_option args "publisher-epoch" 1 or malformed in
  need* seq := u64_option args "observation-seq" 1 or malformed in
  if confidence >? kMaxConfidence then inl "--confidence must be at most 1000"%string
  else
  need* state := observation_state_parse (arguments_get args "state" "Unknown")
    or "--state must be Unknown, Up, Degraded, Down or Unusable"%string in
  let publisher := arguments_get args "publisher" "synthetic-publisher" in
  need* incarnation := (if arguments_has args "publisher-incarnation"
      then incarnation_parse (arguments_get args "publisher-incarnation" "")
      else Some (deterministic_incarnation publisher epoch))
    or "--publisher-incarnation must be 32 hexadecimal characters"%string in
  inr (MkObserved link generation topology confidence epoch seq state publisher incarnation).
Definition failure_of (fabric : string) (o : Observed) : FailureReport :=
  synthetic_failure_report fabric (ob_link o) (ob_generation o) (ob_topology_generation o) (ob_state o)
    (ob_confidence o) (ob_publisher o) (ob_incarnation o) (ob_publisher_epoch o) (ob_observation_seq o).
Definition build_replacement (args : Arguments) (fabric : string) (o : Observed) : Built ReplacementReport :=
  let malformed := "--capacity, --cost and --adjacency-authorized are malformed"%string in
  need* capacity := u64_option args "capacity" 0 or malformed in
  need* cost := u64_option args "cost" 0 or malformed in
  need* adjacency := bool_option args "adjacency-authorized" true or malformed in
  if ((capacity >? 4294967295) || (cost >? 4294967295))%bool
  then inl "--capacity and --cost must fit in 32 bits"%string
  else inr (synthetic_replacement_report fabric (ob_link o) (ob_generation o) (ob_topology_generation o) (ob_state o)
    (ob_confidence o) capacity cost adjacency (ob_publisher o) (ob_incarnation o) (ob_publisher_epoch o)
    (ob_observation_seq o)).

(** ** Commands *)
Section ctl.
Context {W : Type} (transmit : bytes -> W -> Status * Readings * W).

Definition ctl_usage : Proc (W := W) Z := proc* _ := pcomplain ctl_usage_text in pret kExitUsage.
Definition ctl_fail (message : string) : Proc (W := W) Z := proc* _ := pcomplain (line_of message) in pret kExitUsage.
Definition report_status (s : Status) : Proc (W := W) Z :=
  proc* _ := psay (print_status s) in pret (if status_ok s then kExitOk else kExitNegative).
Definition report_decision (r : Result FailoverDecision) : Proc (W := W) Z :=
  match r with
  | Failure s => report_status s
  | Success d =>
      proc* _ := psay (print_decision d) in
      pret (if bool_decide (fd_outcome d = Outcome.Ok) then kExitOk else kExitNegative)
  end.

(** A built request goes out, a refused one ends the program. *)
Definition ctl_send {A B} (built : Built A) (call : A -> ClientImpl -> Net -> option (B * ClientImpl * Net))
    (report : B -> Proc (W := W) Z) : Proc (W := W) Z :=
  match built with
  | inl message => ctl_fail message
  | inr a => proc* answer := pcall (call a) in report answer
  end.
(** An inspection first, for the commands that need the coordinator's view. *)
Definition ctl_viewing (k : EngineView -> Proc (W := W) Z) : Proc (W := W) Z :=
  proc* view := pcall (client_inspect transmit 0) in
  match view with Failure s => report_status s | Success view => k view end.

Definition ctl_inspect (args : Arguments) : Proc (W := W) Z :=
  match u64_option args "history" 16 with
  | None => ctl_fail "--history must be a decimal integer"
  | Some history =>
      proc* view := pcall (client_inspect transmit (Z.to_nat history)) in
      match view with
      | Failure s => report_status s
      | Success view => proc* _ := psay (engine_view_to_string view) in pret kExitOk
      end
  end.
Definition ctl_set_policy (args : Arguments) : Proc (W := W) Z :=
  let policy := set_fp_generation 1 policy_defaults in
  if arguments_has args "file"
  then
    proc* text := pio (read_text_file (arguments_get args "file" "")) in
    match text with
    | Failure s => report_status s
    | Success text =>
        match failover_policy_parse text policy with
        | None => ctl_fail "policy file is malformed"
        | Some policy => proc* s := pcall (client_set_policy transmit policy) in report_status s
        end
    end
  else ctl_send (build_policy args policy) (client_set_policy transmit) report_status.
Definition ctl_set_topology (args : Arguments) : Proc (W := W) Z :=
  if negb (arguments_has args "file") then ctl_fail "set-topology requires --file"
  else
    proc* text := pio (read_text_file (arguments_get args "file" "")) in
    match text with
    | Failure s => report_status s
    | Success text => ctl_viewing (fun view =>
        match parse_topology text (vw_fabric view) with
        | Failure s => report_status s
        | Success topology => proc* s := pcall (client_set_topology transmit topology) in report_status s
        end)
    end.
Definition ctl_publish_failure (args : Arguments) : Proc (W := W) Z := ctl_viewing (fun view =>
  ctl_send (built_bind (build_observed args view) (fun o => inr (failure_of (vw_fabric view) o)))
    (client_publish_failure transmit) report_status).
Definition ctl_publish_replacement (args : Arguments) : Proc (W := W) Z := ctl_viewing (fun view =>
  ctl_send (built_bind (build_observed args view) (build_replacement args (vw_fabric view)))
    (client_publish_replacement transmit) report_status).
Definition ctl_failover (args : Arguments) : Proc (W := W) Z :=
  if string_empty (arguments_get args "link" "") then ctl_fail "--link is required"
  else ctl_viewing (fun view => ctl_send (build_failover args view) (client_failover transmit) report_decision).
Definition ctl_rollback (args : Arguments) : Proc (W := W) Z := ctl_viewing (fun view =>
  ctl_send (build_rollback args view) (client_rollback transmit) report_decision).
Definition ctl_apply (args : Arguments) : Proc (W := W) Z := ctl_viewing (fun view =>
  proc* r := pget in
  ctl_send (build_application args view (rn_client r)) (client_application transmit) report_decision).
Definition ctl_verify (args : Arguments) : Proc (W := W) Z := ctl_viewing (fun view =>
  proc* r := pget in
  ctl_send (build_verification args view (rn_client r)) (client_verification transmit) report_decision).
Definition ctl_revalidate (args : Arguments) : Proc (W := W) Z := ctl_viewing (fun view =>
  proc* r := pget in
  ctl_send (build_revalidation args view (rn_client r)) (client_revalidation transmit) report_decision).

Definition directive_line (d : ApplyDirective) : string := line_of (
  "directive subject=" +:+ link_key_to_string (di_subject d) +:+
  " generation=" +:+ decimal_text (di_subject_generation d) +:+
  " replacement=" +:+ link_key_to_string (di_replacement d) +:+
  " replacement_generation=" +:+ decimal_text (di_replacement_generation d) +:+
  " attempt_seq=" +:+ decimal_text (di_attempt_seq d) +:+
  " attempt_id=" +:+ digest_hex (di_attempt_id d) +:+
  " authority=" +:+ digest_hex (authority_digest (di_authority d)))%string.
Definition ctl_claim (args : Arguments) : Proc (W := W) Z :=
  let refused := ctl_fail "--max must be between 1 and 64" in
  match u64_option args "max" 8 with
  | None => refused
  | Some max_count =>
      if ((max_count =? 0) || (max_count >? 64))%bool then refused
      else
        proc* response := pcall (client_claim transmit (Z.to_nat max_count)) in
        match response with
        | Failure s => report_status s
        | Success response =>
            proc* _ := psay (print_line "directives" (decimal_text (Z.of_nat (length (cr_directives response)))) +:+
                             print_all (map directive_line (cr_directives response)))%string in
            pret kExitOk
        end
  end.

Definition ctl_command (command : string) (args : Arguments) : Proc (W := W) Z :=
  if String.eqb command "ping" then proc* s := pcall (client_ping transmit) in report_status s
  else if String.eqb command "shutdown" then proc* s := pcall (client_shutdown transmit) in report_status s
  else if String.eqb command "inspect" then ctl_inspect args
  else if String.eqb command "set-policy" then ctl_set_policy args
  else if String.eqb command "set-topology" then ctl_set_topology args
  else if String.eqb command "publish-failure" then ctl_publish_failure args
  else if String.eqb command "publish-replacement" then ctl_publish_replacement args
  else if String.eqb command "failover" then ctl_failover args
  else if String.eqb command "rollback" then ctl_rollback args
  else if String.eqb command "apply" then ctl_apply args
  else if String.eqb command "verify" then ctl_verify args
  else if String.eqb command "revalidate" then ctl_revalidate args
  else if String.eqb command "claim" then ctl_claim args
  else ctl_usage.
End ctl.

(** ** The program *)
(** Before the connection: the command and its endpoint, or the end of the program. *)
Definition ctl_prepare {W} (argv : list string) : Ended W + Arguments * string * Endpoint :=
  match arguments_parse argv with
  | Failure s => inl (ended_early kExitUsage (line_of ("argument error: " +:+ status_to_string s)))
  | Success args =>
      match ag_positional args with
      | [] => inl (ended_early kExitUsage ctl_usage_text)
      | command :: _ =>
          let endpoint_text := arguments_get args "endpoint" "" in
          if string_empty endpoint_text then inl (ended_early kExitUsage (line_of "--endpoint is required"))
          else match endpoint_parse endpoint_text with
          | Failure _ => inl (ended_early kExitUsage (line_of "invalid endpoint"))
          | Success endpoint => inr (args, command, endpoint)
          end
      end
  end.
Definition lffctl_main {W} (dial : Endpoint -> W -> Result (Readings * W))
    (transmit : bytes -> W -> Status * Readings * W) (argv : list string) (incarnation : Incarnation)
    (fs : Fs) (w : W) : option (Ended W) :=
  match ctl_prepare argv with
  | inl e => Some e
  | inr (args, command, endpoint) =>
      match client_connect dial transmit endpoint "ctl" kDefaultFramePayload incarnation w with
      | None => None
      | Some (Failure s) => Some (ended_early kExitTransport (line_of ("connect failed: " +:+ status_to_string s)))
      | Some (Success (c, n)) => ended_with (ctl_command transmit command args (MkRun c n fs "" ""))
      end
  end.

(** ** What a command puts on the wire *)
(** The message a command is, and whether the coordinator is inspected before it. *)
Definition ctl_message (command : string) : option (bool * MessageType) :=
  let named name := String.eqb command name in
  if named "ping"%string then Some (false, MessageType.Ping)
  else if named "shutdown"%string then Some (false, MessageType.Shutdown)
  else if named "inspect"%string then Some (false, MessageType.Inspect)
  else if named "set-policy"%string then Some (false, MessageType.SetPolicy)
  else if named "set-topology"%string then Some (true, MessageType.SetTopology)
  else if named "publish-failure"%string then Some (true, MessageType.PublishFailure)
  else if named "publish-replacement"%string then Some (true, MessageType.PublishReplacement)
  else if named "failover"%string then Some (true, MessageType.RequestFailover)
  else if named "rollback"%string then Some (true, MessageType.RequestRollback)
  else if named "apply"%string then Some (true, MessageType.ReportApplication)
  else if named "verify"%string then Some (true, MessageType.ReportVerification)
  else if named "revalidate"%string then Some (true, MessageType.ResolveInterrupted)
  else if named "claim"%string then Some (false, MessageType.ClaimDirective)
  else None.
Definition ctl_traffic (command : string) : list MessageType :=
  match ctl_message command with
  | None => []
  | Some (true, op) => [MessageType.Inspect; op]
  | Some (false, op) => [op]
  end.

(** A run ends as ok, negative or wrong usage; it has sent the first frames of
    [full], and on wrong usage none but an inspection. *)
Definition ends (full : list MessageType) (code : Z) (ts : list MessageType) : Prop :=
  (code = kExitOk \/ code = kExitNegative \/ code = kExitUsage) /\ ts `prefix_of` full /\
  (code = kExitUsage -> Forall (eq MessageType.Inspect) ts).
Definition reported (code : Z) (ts : list MessageType) : Prop :=
  (code = kExitOk \/ code = kExitNegative) /\ ts = [].

Section traffic.
Context {W : Type} (transmit : bytes -> W -> Status * Readings * W).

Lemma ends_usage full : ends full kExitUsage [].
Proof. split; [auto|]. split; [apply prefix_nil|constructor]. Qed.
Lemma ends_reported full ts code : ts `prefix_of` full -> (code = kExitOk \/ code = kExitNegative) -> ends full code ts.
Proof. intros H [-> | ->]; (split; [auto|]; split; [done|discriminate]). Qed.
Lemma traffic_usage full : traffic transmit (ends full) ctl_usage.
Proof. apply traffic_silent_bind; [auto with lff|]. intros _. apply traffic_ret, ends_usage. Qed.
Lemma traffic_fail full message : traffic transmit (ends full) (ctl_fail message).
Proof. apply traffic_silent_bind; [auto with lff|]. intros _. apply traffic_ret, ends_usage. Qed.
Lemma traffic_report_status s : traffic transmit reported (report_status s).
Proof.
  apply traffic_silent_bind; [auto with lff|]. intros _. apply traffic_ret. split; [|done].
  destruct (status_ok s); auto.
Qed.
Lemma traffic_report_decision d : traffic transmit reported (report_decision d).
Proof.
  destruct d as [d|s]; [|apply traffic_report_status].
  apply traffic_silent_bind; [auto with lff|]. intros _. apply traffic_ret. split; [|done].
  case_bool_decide; auto.
Qed.
Lemma traffic_say_ok text : traffic transmit reported (proc* _ := psay text in pret kExitOk).
Proof. apply traffic_silent_bind; [auto with lff|]. intros _. apply traffic_ret. split; auto. Qed.

(** A call whose answer is only reported ends the run. *)
Lemma traffic_reported {A} full op ts (m : Proc A) (report : A -> Proc Z) :
  traffic transmit (fun _ sent => sent = [] \/ sent = [op]) m -> (forall a, traffic transmit reported (report a)) ->
  ts ++ [op] `prefix_of` full ->
  traffic transmit (fun code sent => ends full code (ts ++ sent)) (proc* a := m in report a).
Proof.
  intros Hm Hr Hp. eapply traffic_bind; [exact Hm|]. intros a sent Hs.
  eapply traffic_mono; [|apply Hr]. intros code ts' [Hc ->]. apply ends_reported; [|done].
  rewrite app_nil_r. destruct Hs as [-> | ->]; [|done]. rewrite app_nil_r. etrans; [|exact Hp]. by apply prefix_app_r.
Qed.
Lemma traffic_sent {A B} full op ts (built : Built A)
    (call : A -> ClientImpl -> Net (W := W) -> option (B * ClientImpl * Net)) report :
  (forall a, traffic transmit (fun _ sent => sent = [] \/ sent = [op]) (pcall (call a))) ->
  (forall b, traffic transmit reported (report b)) ->
  ts ++ [op] `prefix_of` full -> Forall (eq MessageType.Inspect) ts ->
  traffic transmit (fun code sent => ends full code (ts ++ sent)) (ctl_send built call report).
Proof.
  intros Hc Hr Hp Hi. destruct built as [message|a]; [|by apply (traffic_reported _ op)].
  apply traffic_silent_bind; [auto with lff|]. intros _. apply traffic_ret. rewrite app_nil_r.
  split; [auto|]. split; [|done]. etrans; [|exact Hp]. by apply prefix_app_r.
Qed.
Lemma traffic_viewing op (k : EngineView -> Proc Z) :
  (forall v, traffic transmit (fun code sent => ends [MessageType.Inspect; op] code ([MessageType.Inspect] ++ sent)) (k v)) ->
  traffic transmit (ends [MessageType.Inspect; op]) (ctl_viewing transmit k).
Proof.
  intros Hk. eapply traffic_bind; [apply traffic_value|]. intros [v|s] ts Hs.
  - destruct Hs as [[_ [s [=]]] | ->]. apply Hk.
  - eapply traffic_mono; [|apply traffic_report_status]. intros code ts' [Hc ->]. apply ends_reported; [|done].
    rewrite app_nil_r. destruct Hs as [[-> _] | ->]; [apply prefix_nil|]. by exists [op].
Qed.
Lemma traffic_any_status op body :
  traffic transmit (fun _ sent => sent = [] \/ sent = [op]) (pcall (remote_status transmit op body)).
Proof. apply traffic_status. Qed.
Lemma traffic_any_value {A} (decode_body : bytes -> option A) missing op body :
  traffic transmit (fun _ sent => sent = [] \/ sent = [op]) (pcall (remote_value transmit decode_body missing op body)).
Proof. eapply traffic_mono; [|apply traffic_value]. intros a ts [[-> _] | ->]; auto. Qed.
#[local] Hint Resolve traffic_any_status traffic_any_value traffic_report_status traffic_report_decision
  traffic_say_ok traffic_usage traffic_fail traffic_ping : core.
#[local] Hint Extern 1 (_ `prefix_of` _) => (by exists []) : core.

(** The commands that only call and report; those that inspect, build and send; and
    the rest. *)
Ltac plain op := apply (traffic_reported _ op []); [apply traffic_any_status|auto|auto].
Ltac viewed op :=
  apply traffic_viewing; intros v; first
    [apply (traffic_sent _ op); [intros ?; apply traffic_any_status || apply traffic_any_value|auto|auto|repeat constructor]
    |apply traffic_silent_bind; [auto with lff|]; intros r;
     apply (traffic_sent _ op); [intros ?; apply traffic_any_value|auto|auto|repeat constructor]].

Lemma traffic_set_policy args : traffic transmit (ends [MessageType.SetPolicy]) (ctl_set_policy transmit args).
Proof.
  unfold ctl_set_policy. cbv zeta. destruct (arguments_has args "file").
  - apply traffic_silent_bind; [auto with lff|]. intros [text|s].
    + destruct (failover_policy_parse _ _); [|auto]. plain MessageType.SetPolicy.
    + eapply traffic_mono; [|apply traffic_report_status]. intros code ts [Hc ->]. by apply ends_reported; [apply prefix_nil|].
  - apply (traffic_sent _ MessageType.SetPolicy []); [intros ?; apply traffic_any_status|auto|auto|constructor].
Qed.
Lemma traffic_set_topology args :
  traffic transmit (ends [MessageType.Inspect; MessageType.SetTopology]) (ctl_set_topology transmit args).
Proof.
  unfold ctl_set_topology. destruct (arguments_has args "file"); cbn [negb]; [|auto].
  apply traffic_silent_bind; [auto with lff|]. intros [text|s].
  - apply traffic_viewing. intros v. destruct (parse_topology _ _).
    + apply (traffic_reported _ MessageType.SetTopology [MessageType.Inspect]); [apply traffic_any_status|auto|auto].
    + eapply traffic_mono; [|apply traffic_report_status]. intros code ts [Hc ->]. apply ends_reported; [|done].
      by exists [MessageType.SetTopology].
  - eapply traffic_mono; [|apply traffic_report_status]. intros code ts [Hc ->]. by apply ends_reported; [apply prefix_nil|].
Qed.

Lemma traffic_inspect args : traffic transmit (ends [MessageType.Inspect]) (ctl_inspect transmit args).
Proof.
  unfold ctl_inspect. destruct (u64_option _ _ _); [|auto].
  apply (traffic_reported _ MessageType.Inspect []); [apply traffic_any_value|intros []; auto|auto].
Qed.
Lemma traffic_claim args : traffic transmit (ends [MessageType.ClaimDirective]) (ctl_claim transmit args).
Proof.
  unfold ctl_claim. cbv zeta. destruct (u64_option _ _ _); [|auto]. case_if; [auto|].
  apply (traffic_reported _ MessageType.ClaimDirective []); [apply traffic_any_value|intros []; auto|auto].
Qed.
Lemma traffic_failover args :
  traffic transmit (ends [MessageType.Inspect; MessageType.RequestFailover]) (ctl_failover transmit args).
Proof. unfold ctl_failover. case_if; [auto|]. viewed MessageType.RequestFailover. Qed.

Lemma traffic_command command args : traffic transmit (ends (ctl_traffic command)) (ctl_command transmit command args).
Proof.
  unfold ctl_command, ctl_traffic, ctl_message.
  repeat match goal with |- context [String.eqb command ?name] => destruct (String.eqb command name) end.
  - apply (traffic_reported _ MessageType.Ping []); [apply traffic_ping|auto|auto].
  - plain MessageType.Shutdown.
  - apply traffic_inspect.
  - apply traffic_set_policy.
  - apply traffic_set_topology.
  - viewed MessageType.PublishFailure.
  - viewed MessageType.PublishReplacement.
  - apply traffic_failover.
  - viewed MessageType.RequestRollback.
  - viewed MessageType.ReportApplication.
  - viewed MessageType.ReportVerification.
  - viewed MessageType.ResolveInterrupted.
  - apply traffic_claim.
  - auto.
Qed.

Lemma encode_frame_failure t flags p max e : encode_frame t flags p max = Failure e -> status_ok e = false.
Proof.
  unfold encode_frame. cbv zeta. generalize (Z.of_nat (length p)). intros n.
  destruct (n >? _); [intros [= <-]; reflexivity|]. destruct (negb (flags =? 0)); [intros [= <-]; reflexivity|done].
Qed.
Lemma handshake_traffic c n s c' n' : client_handshake transmit c n = Some (s, c', n') -> status_ok s = true ->
  transmits transmit [MessageType.Hello] n.2 n'.2.
Proof.
  unfold client_handshake. destruct (encode_frame _ _ _ _) as [frame|e] eqn:Ef.
  - unfold send_frame. destruct (transmit frame n.2) as [[sent answers] w] eqn:Et. intros E Hs.
    assert (n'.2 = w).
    { revert E. destruct (status_ok sent) eqn:Hx; cbn [negb fst snd]; [|intros [= -> _ _]; congruence].
      destruct (receive_frame _ _) as [[[[h p]|e] rest]|]; [..|done]; [|by intros [= _ _ <-]].
      destruct (accept_hello _ _); by intros [= _ _ <-]. }
    eapply TransmitsCons; [exact Ef|]. rewrite Et. subst. constructor.
  - intros [= <- _ _]. apply encode_frame_failure in Ef. congruence.
Qed.
End traffic.

Lemma prepare_ended {W} argv (e : Ended W) : ctl_prepare argv = inl e -> en_run e = None /\ en_code e = kExitUsage.
Proof.
  unfold ctl_prepare. generalize ctl_usage_text. intros text. destruct (arguments_parse argv) as [args|s].
  2: { intros [= <-]. split; reflexivity. }
  destruct (ag_positional args) as [|command rest]; [intros [= <-]; split; reflexivity|].
  destruct (string_empty _); [intros [= <-]; split; reflexivity|].
  destruct (endpoint_parse _); [done|]. intros [= <-]. split; reflexivity.
Qed.

(** what lffctl puts on the wire. A run that connected has sent its hello and then
    the first messages of its command, at most an inspection and the one message the
    command is; a run that ends as wrong usage has sent no message but inspections.
    A run that did not connect ends as wrong usage or as a transport failure. *)
Theorem lffctl_traffic {W} dial (transmit : bytes -> W -> Status * Readings * W) argv incarnation fs w e :
  lffctl_main dial transmit argv incarnation fs w = Some e ->
  match en_run e with
  | None => en_code e = kExitUsage \/ en_code e = kExitTransport
  | Some r => exists args command endpoint readings w0 ts,
      ctl_prepare (W := W) argv = inr (args, command, endpoint) /\ dial endpoint w = Success (readings, w0) /\
      transmits transmit (MessageType.Hello :: ts) w0 (rn_world r) /\
      (en_code e = kExitOk \/ en_code e = kExitNegative \/ en_code e = kExitUsage) /\
      ts `prefix_of` ctl_traffic command /\
      (en_code e = kExitUsage -> Forall (eq MessageType.Inspect) ts)
  end.
Proof.
  unfold lffctl_main. destruct (ctl_prepare argv) as [e0|[[args command] endpoint]] eqn:Ep.
  { intros [= <-]. apply prepare_ended in Ep as [-> ->]. by left. }
  destruct (client_connect _ _ _ _ _ _ _) as [[[c n]|s]|] eqn:Ec; [..|done].
  2: { intros [= <-]. by right. }
  unfold ended_with. destruct (ctl_command _ _ _ _) as [[code r]|] eqn:Er; [|done]. intros [= <-]. cbn [en_run en_code].
  apply traffic_command in Er as (ts & Ht & Hcode & Hp & Hu).
  unfold client_connect in Ec. case_if; [done|]. destruct (dial endpoint w) as [[readings w0]|] eqn:Ed; [|done].
  destruct (client_handshake _ _ _) as [[[s c1] n1]|] eqn:Eh; [|done].
  destruct (status_ok s) eqn:Hs; [|done]. injection Ec as -> ->.
  exists args, command, endpoint, readings, w0, ts. split; [done|]. split; [done|]. split; [|done].
  apply (transmits_app _ [MessageType.Hello] ts _ (rn_world (MkRun c n fs "" ""))); [|exact Ht].
  exact (handshake_traffic _ _ _ _ _ _ Eh Hs).
Qed.

(** ** A decision command is the engine's operation *)
(** What a command line asks of a coordinator with this view: the request it builds,
    and the operation of the engine behind it. *)
Inductive ctl_asks (args : Arguments) (view : EngineView) (c : ClientImpl) :
    string -> MessageType -> bytes -> EngM (Result FailoverDecision) -> Prop :=
  | AskFailover q : arguments_get args "link" "" <> EmptyString -> build_failover args view = inr q -> codec_wf q ->
      ctl_asks args view c "failover" MessageType.RequestFailover (encoded q) (request_failover q)
  | AskRollback q : build_rollback args view = inr q -> codec_wf q ->
      ctl_asks args view c "rollback" MessageType.RequestRollback (encoded q) (request_rollback q)
  | AskApplication q : build_application args view c = inr q -> codec_wf q ->
      ctl_asks args view c "apply" MessageType.ReportApplication (encoded q) (record_application q)
  | AskVerification q : build_verification args view c = inr q -> codec_wf q ->
      ctl_asks args view c "verify" MessageType.ReportVerification (encoded q) (record_verification q)
  | AskRevalidation q : build_revalidation args view c = inr q -> codec_wf q ->
      ctl_asks args view c "revalidate" MessageType.ResolveInterrupted (encoded q) (resolve_interrupted q).

Lemma ctl_asks_call args view c command op body m : ctl_asks args view c command op body m -> decision_call op body m.
Proof. destruct 1; by constructor. Qed.

Lemma viewing_run {W} (transmit : bytes -> W -> Status * Readings * W) k r view c n :
  client_inspect transmit 0 (rn_client r) (rn_net r) = Some (Success view, c, n) ->
  ctl_viewing transmit k r = k view (MkRun c n (rn_fs r) (rn_out r) (rn_err r)).
Proof. intros E. unfold ctl_viewing, pbind, pcall. by rewrite E. Qed.
Lemma send_run {W A B} (built : Built A) (call : A -> ClientImpl -> Net (W := W) -> option (B * ClientImpl * Net)) report a r b c n :
  built = inr a -> call a (rn_client r) (rn_net r) = Some (b, c, n) ->
  ctl_send built call report r = report b (MkRun c n (rn_fs r) (rn_out r) (rn_err r)).
Proof. intros -> E. unfold ctl_send, pbind, pcall. by rewrite E. Qed.

(** The five commands share their shape: inspect, build, call, report. *)
Lemma decision_command_run {W} (transmit : bytes -> W -> Status * Readings * W) args view c n command op body m r answer c2 n2 :
  client_inspect transmit 0 (rn_client r) (rn_net r) = Some (Success view, c, n) ->
  ctl_asks args view c command op body m -> remote_decision transmit op body c n = Some (answer, c2, n2) ->
  ctl_command transmit command args r = report_decision answer (MkRun c2 n2 (rn_fs r) (rn_out r) (rn_err r)).
Proof.
  intros Hi Ha Hc. destruct Ha as [q Hl Hb _|q Hb _|q Hb _|q Hb _|q Hb _].
  - change (ctl_failover transmit args r = report_decision answer (MkRun c2 n2 (rn_fs r) (rn_out r) (rn_err r))).
    unfold ctl_failover. unfold string_empty. rewrite bool_decide_eq_false_2 by done. rewrite (viewing_run _ _ _ _ _ _ Hi).
    by rewrite (send_run _ _ _ q _ answer c2 n2 Hb).
  - change (ctl_rollback transmit args r = report_decision answer (MkRun c2 n2 (rn_fs r) (rn_out r) (rn_err r))).
    unfold ctl_rollback. rewrite (viewing_run _ _ _ _ _ _ Hi). by rewrite (send_run _ _ _ q _ answer c2 n2 Hb).
  - change (ctl_apply transmit args r = report_decision answer (MkRun c2 n2 (rn_fs r) (rn_out r) (rn_err r))).
    unfold ctl_apply. rewrite (viewing_run _ _ _ _ _ _ Hi). unfold pbind at 1, pget.
    by rewrite (send_run _ _ _ q _ answer c2 n2 Hb).
  - change (ctl_verify transmit args r = report_decision answer (MkRun c2 n2 (rn_fs r) (rn_out r) (rn_err r))).
    unfold ctl_verify. rewrite (viewing_run _ _ _ _ _ _ Hi). unfold pbind at 1, pget.
    by rewrite (send_run _ _ _ q _ answer c2 n2 Hb).
  - change (ctl_revalidate transmit args r = report_decision answer (MkRun c2 n2 (rn_fs r) (rn_out r) (rn_err r))).
    unfold ctl_revalidate. rewrite (viewing_run _ _ _ _ _ _ Hi). unfold pbind at 1, pget.
    by rewrite (send_run _ _ _ q _ answer c2 n2 Hb).
Qed.

(** lffctl is the coordinator's hand. Over a line to a running coordinator, failover,
    rollback, apply, verify and revalidate perform exactly the engine's operation on
    the request their arguments spell out against the inspected view, print the very
    decision, and exit with 0 exactly when its outcome is Ok. *)
Lemma asked_is_local key args command op body m r l v d im' fs' :
  let view := inspect (engine_at l) 0 in
  let c := rn_client r in
  ctl_asks args view (set_cl_seq (cl_seq c + 1) c) command op body m ->
  rn_net r = ([], l) -> session_matches key c l v -> cl_seq c + 2 < two64 ->
  engine_view_wf view -> 46 <= cl_max_payload c ->
  Z.of_nat (length (response_payload MessageType.Inspect status_success (encode_engine_view view))) <= cl_max_payload c ->
  Z.of_nat (40 + length body) <= cl_max_payload c ->
  m (engine_at l) (medium_at l) = (Success d, im', fs') -> codec_wf d ->
  answer_size op (Success d) <= cl_max_payload c ->
  exists code r' v', ctl_command (line_transmit key) command args r = Some (code, r') /\
    (code = kExitOk <-> fd_outcome d = Outcome.Ok) /\ (code = kExitNegative <-> fd_outcome d <> Outcome.Ok) /\
    rn_out r' = (rn_out r +:+ print_decision d)%string /\ rn_err r' = rn_err r /\ rn_fs r' = rn_fs r /\
    engine_at (rn_world r') = im' /\ medium_at (rn_world r') = fs' /\ session_matches key (rn_client r') (rn_world r') v'.
Proof.
  intros view c Ha Hn Hm Hseq Hw Hmax Hview Hbody Hop Hd Hsize.
  destruct (remote_inspect_line key 0 c l v Hm) as (l1 & v1 & Hi & He & Hf & Hm1); [lia|lia|done|done|done|].
  destruct (remote_decision_line key op body m (set_cl_seq (cl_seq c + 1) c) l1 v1 (Success d) im' fs')
    as (l2 & v2 & Hc & He2 & Hf2 & Hm2); [by eapply ctl_asks_call|done|cbn; lia|done|by rewrite He, Hf|done|done|].
  unfold c in Hi. rewrite <- Hn in Hi.
  pose proof (decision_command_run _ _ _ _ _ _ _ _ _ _ _ _ _ Hi Ha Hc) as E.
  eexists _, _, v2. split; [exact E|]. split_and!; try done.
  - case_bool_decide; split; intros; (done || congruence).
  - case_bool_decide; split; intros; (done || congruence).
Qed.

(** ** The list of candidates *)
Definition lacks (separator : Ascii.ascii) (s : string) : bool :=
  string_forallb (fun ch => negb (Ascii.eqb ch separator)) s.
Lemma split_loop_last separator w current : lacks separator w = true -> w <> EmptyString ->
  split_loop separator w current = [(current +:+ w)%string].
Proof.
  revert current. induction w as [|ch w IH]; [done|]. intros current Hw _. unfold lacks in Hw. cbn [string_forallb] in Hw.
  apply andb_true_iff in Hw as [Hc%negb_true_iff Hw]. cbn [split_loop]. rewrite Hc.
  destruct w as [|ch' w]; [|rewrite IH by done; by rewrite string_app_assoc].
  cbn [split_loop]. unfold string_empty. rewrite bool_decide_eq_false_2; [done|]. by destruct current.
Qed.
Lemma split_loop_cons separator w rest current : lacks separator w = true ->
  split_loop separator (w +:+ String separator rest)%string current =
    (current +:+ w)%string :: split_loop separator rest EmptyString.
Proof.
  revert current. induction w as [|ch w IH]; intros current Hw.
  - change (split_loop separator (String separator rest) current = (current +:+ EmptyString)%string :: split_loop separator rest EmptyString).
    cbn [split_loop]. by rewrite Ascii.eqb_refl, string_app_empty.
  - unfold lacks in Hw. cbn [string_forallb] in Hw. apply andb_true_iff in Hw as [Hc%negb_true_iff Hw].
    rewrite string_app_cons. cbn [split_loop]. rewrite Hc, IH by done. by rewrite string_app_assoc.
Qed.
Lemma lacks_impl (p : Ascii.ascii -> bool) separator s : p separator = false ->
  string_forallb p s = true -> lacks separator s = true.
Proof.
  intros Hp. unfold lacks. induction s as [|ch s IH]; [done|]. cbn [string_forallb].
  intros [Hc Hs]%andb_true_iff. rewrite IH by done. rewrite andb_true_r. apply negb_true_iff.
  destruct (Ascii.eqb_spec ch separator) as [->|]; [congruence|done].
Qed.
Lemma name_chars n : is_valid_name n = true -> string_forallb name_char n = true.
Proof. unfold is_valid_name. by repeat (case_if; [done|]). Qed.

Lemma candidate_generation_value acc bs :
  Forall (fun b => 48 <= b <= 57) bs -> 0 <= acc ->
  foldl (fun acc b => acc * 10 + (b - 48)) acc bs < two64 ->
  candidate_generation acc (string_of_bytes bs) = Some (foldl (fun acc b => acc * 10 + (b - 48)) acc bs).
Proof.
  intros H. revert acc. induction H as [|b bs Hb Hbs IH]; intros acc Hacc Hlt; [done|].
  cbn [string_of_bytes foldl] in *. cbn [candidate_generation].
  pose proof (decimal_value_ge (acc * 10 + (b - 48)) bs Hbs ltac:(lia)) as Hge.
  rewrite char_between_byte, byte_of_ascii_of_byte by ints.
  change (byte_of_ascii "0"%char) with 48. change (byte_of_ascii "9"%char) with 57.
  rewrite (proj2 (Z.leb_le 48 b)), (proj2 (Z.leb_le b 57)) by lia. cbn [andb negb].
  rewrite !wrap64_small by (rewrite ?wrap64_small by ints; ints). apply IH; [lia|done].
Qed.

(** The text of a list of candidates, in the form the usage announces. *)
Definition candidate_text (c : ReplacementCandidate) : string :=
  (lk_link (rc_candidate c) +:+ String ":" (decimal_text (rc_expected_generation c)))%string.
Definition candidates_text (l : list ReplacementCandidate) : string := String.concat "," (map candidate_text l).
Definition candidate_listed (fabric : string) (c : ReplacementCandidate) : Prop :=
  lk_fabric (rc_candidate c) = fabric /\ is_valid_name (lk_link (rc_candidate c)) = true /\
  lacks ":"%char (lk_link (rc_candidate c)) = true /\ is_u64 (rc_expected_generation c).

Lemma decimal_lacks separator n : is_u64 n -> char_between "0"%char "9"%char separator = false ->
  lacks separator (decimal_text n) = true.
Proof. intros Hn Hs. apply (lacks_impl _ _ _ Hs). by apply digits_decimal. Qed.
Lemma candidate_text_read fabric c : candidate_listed fabric c -> candidate_of fabric (candidate_text c) = inr c.
Proof.
  intros (Hf & Hn & Hcolon & Hg). unfold candidate_of, candidate_text, split_on.
  rewrite split_loop_cons by done.
  destruct (wordy_decimal _ Hg) as [_ Hne].
  rewrite split_loop_last by (done || by apply decimal_lacks). change (EmptyString +:+ ?s)%string with s.
  rewrite name_parse_valid by done. unfold need. cbn [result_value]. unfold string_empty. rewrite bool_decide_eq_false_2 by done.
  assert (E : candidate_generation 0 (decimal_text (rc_expected_generation c)) = Some (rc_expected_generation c)).
  { unfold decimal_text. destruct (decimal_digits_spec 20 (rc_expected_generation c)) as (Hv & Hd & _); [ints|].
    unfold decimal_value in Hv. rewrite candidate_generation_value; rewrite ?Hv; [done|done|lia|ints]. }
  rewrite E. destruct c as [[f l] g]. cbn in *. by subst.
Qed.
Lemma candidate_text_nonempty c : candidate_text c <> EmptyString.
Proof. unfold candidate_text. destruct (lk_link _); done. Qed.
Lemma candidate_text_lacks fabric c : candidate_listed fabric c -> lacks ","%char (candidate_text c) = true.
Proof.
  intros (_ & Hn & _ & Hg). unfold candidate_text.
  assert (H : forall s t, lacks ","%char s = true -> lacks ","%char t = true -> lacks ","%char (s +:+ t)%string = true).
  { intros s t Hs Ht. induction s as [|ch s IH]; [done|]. rewrite string_app_cons. unfold lacks in *.
    cbn [string_forallb] in *. apply andb_true_iff in Hs as [-> Hs]. by apply IH. }
  apply H; [apply (lacks_impl name_char); [done|by apply name_chars]|].
  change (lacks ","%char (decimal_text (rc_expected_generation c)) = true). by apply decimal_lacks.
Qed.

(** the candidates of a command line. The announced form of a list of candidates of
    the fabric, with valid names without a colon and 64-bit generations, is read back as that list. *)
Theorem candidates_text_read fabric l : Forall (candidate_listed fabric) l ->
  candidates_of fabric (split_on "," (candidates_text l)) = inr l.
Proof.
  unfold candidates_text, split_on. induction 1 as [|c l Hc Hl IH]; [done|]. cbn [map].
  assert (Hhead : forall specs entries, candidates_of fabric specs = inr entries ->
    candidates_of fabric (candidate_text c :: specs) = inr (c :: entries)).
  { intros specs entries E. cbn [candidates_of]. unfold string_empty.
    rewrite bool_decide_eq_false_2 by apply candidate_text_nonempty. by rewrite candidate_text_read, E. }
  destruct l as [|c' l].
  - cbn [map String.concat]. rewrite split_loop_last by (apply candidate_text_nonempty || by eapply candidate_text_lacks).
    by apply Hhead.
  - cbn [map] in *. change (String.concat "," (candidate_text c :: candidate_text c' :: map candidate_text l)) with
      (candidate_text c +:+ String "," (String.concat "," (candidate_text c' :: map candidate_text l)))%string.
    rewrite split_loop_cons by by eapply candidate_text_lacks. by apply Hhead.
Qed.

(** A valid link name that holds a colon cannot be asked for: it is taken for another
    link with an expected generation. *)
Lemma colon_candidate_misread : is_valid_name "rack:7" = true /\
  candidate_of "fab" "rack:7" = inr (MkCandidate (MkLinkKey "fab" "rack") 7).
Proof. split; reflexivity. Qed.
(** The generation of a candidate is not checked for overflow: 2^64 + 1 is read as 1. *)
Lemma candidate_generation_wraps :
  candidate_of "fab" "b:18446744073709551617" = inr (MkCandidate (MkLinkKey "fab" "b") 1).
Proof. reflexivity. Qed.
