(* ===== verification/Spelling.v ===== *)
(** * What a command line says

    The command lines of lffctl read from the other side: how a request is spelled,
    as the usage announces it, and what a printed decision says, both without the
    builders and the printer of Ctl.v. The builders read back what is spelled, so a
    spelled command performs the engine's operation on that very request. *)
From S2P Require Import Prelude Status Hash Ids Bytes Evidence Policy Authority Attempt Decision.
From S2P Require Import Selector Fs Journal State Store Intake Engine EngineLogic EngineSafety Wire.
From S2P Require Import Server Client Tool Process Ctl.

(** ** Spelling a request *)
(** An option with its value, [--name=value], or a flag, [--name]. *)
Definition CliOption : Type := string * option string.
Definition option_word (o : CliOption) : string :=
  match o with
  | (name, Some value) => ("--" +:+ name +:+ String "="%char value)%string
  | (name, None) => ("--" +:+ name)%string
  end.
Definition valued (name value : string) : CliOption := (name, Some value).
Definition given {A} (name : string) (text : A -> string) (o : option A) : list CliOption :=
  match o with Some a => [valued name (text a)] | None => [] end.
Definition raised (name : string) (b : bool) : list CliOption := if b then [(name, None)] else [].

Definition expectation_options (e : AuthorityExpectation) : list CliOption :=
  given "expect-epoch" decimal_text (ae_epoch e) ++ given "expect-coordinator" incarnation_hex (ae_coordinator e) ++
  given "expect-topology-generation" decimal_text (ae_topology_generation e) ++
  given "expect-policy-generation" decimal_text (ae_policy_generation e).
Definition failover_options (q : FailoverRequest) : list CliOption :=
  [valued "link" (lk_link (fq_subject q)); valued "generation" (decimal_text (fq_subject_generation q));
   valued "candidates" (candidates_text (fq_candidates q)); valued "idempotency" (digest_hex (fq_idempotency_key q))] ++
  expectation_options (fq_expected q).
Definition rollback_options (q : RollbackRequest) : list CliOption :=
  [valued "link" (lk_link (bq_subject q)); valued "attempt-seq" (decimal_text (bq_attempt_seq q));
   valued "rationale" (bq_rationale q); valued "idempotency" (digest_hex (bq_idempotency_key q))] ++
  expectation_options (bq_expected q).
Definition subject_options (subject : LinkKey) (generation seq : Z) : list CliOption :=
  [valued "link" (lk_link subject); valued "generation" (decimal_text generation);
   valued "attempt-seq" (decimal_text seq)].
Definition application_options (q : ApplicationReport) : list CliOption :=
  subject_options (ar_subject q) (ar_subject_generation q) (ar_attempt_seq q) ++
  [valued "attempt-id" (digest_hex (ar_attempt_id q))] ++ raised "reject" (negb (ar_accepted q)).
Definition verification_options (q : VerificationReport) : list CliOption :=
  subject_options (vr_subject q) (vr_subject_generation q) (vr_attempt_seq q) ++
  [valued "attempt-id" (digest_hex (vr_attempt_id q))] ++ raised "not-observed" (negb (vr_effect_observed q)).
Definition revalidation_options (q : RevalidationRequest) : list CliOption :=
  subject_options (vq_subject q) (vq_subject_generation q) (vq_attempt_seq q) ++
  [valued "verdict" (revalidation_verdict_name (vq_verdict q)); valued "rationale" (vq_rationale q)].

(** The expectations an operator can express. *)
Definition sayable (e : AuthorityExpectation) : Prop :=
  ae_subject_generation e = None /\ ae_policy_digest e = None /\ ae_topology_digest e = None.

(** The options of a command that say a request to the coordinator of this view, for
    a client of this incarnation: the message, its body and the operation of the engine. *)
Inductive spelled (view : EngineView) (by_client : Incarnation) :
    string -> list CliOption -> MessageType -> bytes -> EngM (Result FailoverDecision) -> Prop :=
  | SpelledFailover q : codec_wf q -> lk_fabric (fq_subject q) = vw_fabric view -> fq_subject_generation q <> 0 ->
      Forall (candidate_listed (vw_fabric view)) (fq_candidates q) -> sayable (fq_expected q) ->
      spelled view by_client "failover" (failover_options q) MessageType.RequestFailover (encoded q) (request_failover q)
  | SpelledRollback q : codec_wf q -> lk_fabric (bq_subject q) = vw_fabric view -> bq_subject_generation q = 0 ->
      bq_attempt_seq q <> 0 -> sayable (bq_expected q) ->
      spelled view by_client "rollback" (rollback_options q) MessageType.RequestRollback (encoded q) (request_rollback q)
  | SpelledApplication q : codec_wf q -> lk_fabric (ar_subject q) = vw_fabric view ->
      ar_applier_incarnation q = by_client -> ar_applier_epoch q = vw_epoch view -> ar_detail q = "ctl apply"%string ->
      spelled view by_client "apply" (application_options q) MessageType.ReportApplication (encoded q) (record_application q)
  | SpelledVerification q : codec_wf q -> lk_fabric (vr_subject q) = vw_fabric view ->
      vr_verifier_incarnation q = by_client -> vr_verifier_epoch q = vw_epoch view -> vr_detail q = "ctl verify"%string ->
      spelled view by_client "verify" (verification_options q) MessageType.ReportVerification (encoded q)
        (record_verification q)
  | SpelledRevalidation q : codec_wf q -> lk_fabric (vq_subject q) = vw_fabric view ->
      vq_observer_incarnation q = by_client -> vq_observer_epoch q = vw_epoch view ->
      spelled view by_client "revalidate" (revalidation_options q) MessageType.ResolveInterrupted (encoded q)
        (resolve_interrupted q).

(** A command line: the command and its options, in any order. *)
Definition command_line (argv : list string) (command : string) (endpoint : Endpoint) (options : list CliOption) : Prop :=
  argv ≡ₚ command :: map option_word (valued "endpoint" (endpoint_to_string endpoint) :: options).

(** ** What is printed *)
(** The value of the first line [name=value] of a text. *)
Fixpoint field_in (name : string) (lines : list string) : option string :=
  match lines with
  | [] => None
  | line :: rest =>
      match lsplit "="%char line with
      | Some (key, value) => if String.eqb key name then Some value else field_in name rest
      | None => field_in name rest
      end
  end.
Definition printed (text name : string) : option string := field_in name (split_lines text).

(** The lines a decision is read off by, a replacement only where there is one. *)
Definition decision_lines (d : FailoverDecision) : list (string * string) := ([
    ("outcome", outcome_name (fd_outcome d)); ("kind", decision_kind_name (fd_kind d));
    ("assertion", assertion_name (fd_assertion d));
    ("subject", lk_fabric (fd_subject d) +:+ "/" +:+ lk_link (fd_subject d));
    ("subject_generation", decimal_text (fd_subject_generation d));
    ("attempt_seq", decimal_text (fd_attempt_seq d));
    ("attempt_id", digest_hex (compute_attempt_id (fd_fabric d) (fd_subject d) (fd_subject_generation d) (fd_attempt_seq d)));
    ("decision_id", digest_hex (fd_decision_id d)); ("epoch", decimal_text (fd_epoch d));
    ("coordinator", incarnation_hex (fd_coordinator d)); ("durable", if fd_durable d then "true" else "false");
    ("idempotent_replay", if fd_idempotent_replay d then "true" else "false");
    ("lineage_seq", decimal_text (fd_lineage_seq d))]%string ++
    if fd_has_replacement d
    then [("replacement", lk_fabric (fd_replacement d) +:+ "/" +:+ lk_link (fd_replacement d));
          ("replacement_generation", decimal_text (fd_replacement_generation d))]%string
    else []).
Definition says_decision (text : string) (d : FailoverDecision) : Prop :=
  Forall (fun p => printed text p.1 = Some p.2) (decision_lines d).

(** ** The arguments of a command line *)
Definition worth (o : CliOption) : string * string := (o.1, default "true"%string o.2).
Fixpoint assoc (options : list (string * string)) (name : string) : option string :=
  match options with
  | [] => None
  | (key, value) :: rest => if String.eqb key name then Some value else assoc rest name
  end.
Lemma assoc_app l1 l2 name :
  assoc (l1 ++ l2) name = match assoc l1 name with Some v => Some v | None => assoc l2 name end.
Proof. induction l1 as [|[k v] l1 IH]; [done|]. cbn [app assoc]. by destruct (String.eqb k name). Qed.
Lemma assoc_lookup options name : list_to_map (M := gmap string string) options !! name = assoc options name.
Proof.
  induction options as [|[k v] options IH]; [done|]. cbn [list_to_map foldr assoc]. cbn [uncurry fst snd].
  destruct (String.eqb_spec k name) as [->|Hk]; [by rewrite lookup_insert_eq|by rewrite lookup_insert_ne].
Qed.

Lemma lsplit_lacks s : lacks "="%char s = true -> lsplit "="%char s = None.
Proof.
  unfold lacks. induction s as [|c s IH]; [done|]. cbn [string_forallb lsplit]. intros [Hc%negb_true_iff Hs]%andb_true_iff.
  rewrite Ascii.eqb_sym, Hc. by rewrite IH.
Qed.
Lemma lsplit_at s v : lacks "="%char s = true -> lsplit "="%char (s +:+ String "="%char v)%string = Some (s, v).
Proof.
  unfold lacks. induction s as [|c s IH]; [done|]. cbn [string_forallb]. intros [Hc%negb_true_iff Hs]%andb_true_iff.
  rewrite string_app_cons. cbn [lsplit]. rewrite Ascii.eqb_sym, Hc. by rewrite IH.
Qed.
Lemma option_of_word o : lacks "="%char o.1 = true -> option_of (option_word o) = Some (worth o).
Proof.
  destruct o as [name [value|]]; cbn [fst]; intros Hn.
  - change (Some (match lsplit "="%char (name +:+ String "="%char value)%string with
      Some (n, v) => (n, v) | None => ((name +:+ String "="%char value)%string, "true"%string) end) = Some (name, value)).
    by rewrite lsplit_at.
  - change (Some (match lsplit "="%char name with Some (n, v) => (n, v) | None => (name, "true"%string) end) =
      Some (name, "true"%string)). by rewrite lsplit_lacks.
Qed.

Lemma token_words_perm l1 l2 : l1 ≡ₚ l2 -> token_words l1 ≡ₚ token_words l2.
Proof.
  induction 1 as [|t l1 l2 _ IH|t1 t2 l|l1 l2 l3 _ IH1 _ IH2]; [done|..|by rewrite IH1].
  - rewrite !token_words_cons. destruct (option_of t); [done|by rewrite IH].
  - rewrite !token_words_cons. destruct (option_of t1), (option_of t2); try done. apply perm_swap.
Qed.

(** The names of a well-formed list of options: no empty one, none with an equals
    sign, no name twice. *)
Definition well_named (options : list CliOption) : bool :=
  (forallb (fun o : CliOption => lacks "="%char o.1 && negb (string_empty o.1)) options && bool_decide (NoDup (map fst options)))%bool.
Lemma options_said options : Forall (fun o : CliOption => lacks "="%char o.1 = true) options ->
  token_options (map option_word options) = map worth options /\ token_words (map option_word options) = [].
Proof.
  induction 1 as [|o options Ho _ IH]; [done|]. cbn [map]. rewrite token_options_cons, token_words_cons, option_of_word by done.
  destruct IH as [-> ->]. done.
Qed.
Lemma command_line_parse argv command options : argv ≡ₚ command :: map option_word options ->
  option_of command = None -> well_named options = true ->
  exists args, arguments_parse argv = Success args /\ ag_positional args = [command] /\
    forall name, ag_options args !! name = assoc (map worth options) name.
Proof.
  intros Hp Hc [Hn Hd%bool_decide_eq_true]%andb_true_iff.
  rewrite forallb_forall in Hn.
  assert (Hl : Forall (fun o : CliOption => lacks "="%char o.1 = true) options /\ Forall (fun o : CliOption => o.1 <> EmptyString) options).
  { rewrite !Forall_forall. split; intros o Ho%list_elem_of_In; apply Hn in Ho as [Hl He%negb_true_iff]%andb_true_iff; [done|].
    by apply bool_decide_eq_false in He. }
  destruct Hl as [Hl He]. destruct (options_said options Hl) as [Ho Hw].
  assert (Ht : token_options argv ≡ₚ map worth options).
  { unfold token_options. rewrite Hp. change (omap option_of (command :: map option_word options)) with
      (token_options (command :: map option_word options)). rewrite token_options_cons, Hc. by rewrite Ho. }
  assert (Hnames : map fst (map worth options) = map fst options) by (rewrite map_map; by apply map_ext).
  eexists. split; [|split].
  - apply arguments_parse_iff. split; [|split; [|reflexivity]].
    + rewrite Ht. apply Forall_map. exact He.
    + rewrite Ht, Hnames. exact Hd.
  - cbn [ag_positional]. apply token_words_perm in Hp. rewrite token_words_cons, Hc, Hw in Hp.
    by apply Permutation_singleton_r in Hp.
  - intros name. cbn [ag_options]. rewrite <- assoc_lookup.
    f_equal. apply list_to_map_proper; [|exact Ht].
    change (NoDup (map fst (token_options argv))). rewrite Ht, Hnames. exact Hd.
Qed.

(** ** The builders read back what is spelled *)
Section said.
Context (args : Arguments) (options : list CliOption).
Hypothesis Hsaid : forall name, ag_options args !! name = assoc (map worth options) name.

Lemma get_said name fallback v : assoc (map worth options) name = Some v -> arguments_get args name fallback = v.
Proof. intros E. unfold arguments_get. by rewrite Hsaid, E. Qed.
Lemma u64_said name fallback n : assoc (map worth options) name = Some (decimal_text n) -> is_u64 n ->
  u64_option args name fallback = Some n.
Proof. intros E Hn. unfold u64_option, arguments_get_u64. by rewrite Hsaid, E, parse_u64_decimal. Qed.
Lemma flag_said name (b : bool) : assoc (map worth options) name = (if b then Some "true"%string else None) ->
  bool_option args name false = Some b.
Proof. intros E. unfold bool_option, arguments_get_bool. rewrite Hsaid, E. by destruct b. Qed.
Lemma field_said {A} name (parse : string -> option A) (text : A -> string) (o : option A) :
  assoc (map worth options) name = text <$> o ->
  (forall a, o = Some a -> arguments_get args name "" = text a -> parse (text a) = Some a) ->
  expectation_field args name parse = Some o.
Proof.
  intros E Hp. unfold expectation_field, arguments_has. rewrite Hsaid, E. destruct o as [a|]; [|done]. cbn [fmap option_fmap option_map].
  assert (Hg : arguments_get args name "" = text a) by (by apply get_said).
  by rewrite Hg, Hp.
Qed.
Lemma idempotency_said d : assoc (map worth options) "idempotency" = Some (digest_hex d) -> digest_wf d ->
  parse_digest (arguments_get args "idempotency" "") = Some d.
Proof.
  intros E Hd. rewrite (get_said _ _ _ E). unfold parse_digest, string_empty.
  rewrite bool_decide_eq_false_2; [by apply digest_parse_hex|]. intros He.
  apply (f_equal String.length) in He. unfold digest_hex in He. rewrite hex_of_bytes_length in He. destruct Hd as [Hl _].
  rewrite Hl in He. discriminate He.
Qed.

(** The expectation of a request, whose options come last. *)
Lemma expectation_said front e : options = front ++ expectation_options e ->
  forallb (fun o : CliOption => negb (String.prefix "expect-" o.1)) front = true ->
  expectation_wf e -> sayable e -> build_expectation args = Some e.
Proof.
  intros Ho Hfront (He & Hc & Ht & Hp & _) (H1 & H2 & H3).
  assert (Hnone : forall name, String.prefix "expect-" name = true -> assoc (map worth front) name = None).
  { intros name Hname. clear Ho. induction front as [|[key v] front IH]; [done|]. cbn [forallb] in Hfront.
    apply andb_true_iff in Hfront as [Hk%negb_true_iff Hfront]. cbn [map assoc worth fst snd] in *.
    destruct (String.eqb_spec key name) as [->|]; [congruence|by apply IH]. }
  assert (Hlook : forall name, String.prefix "expect-" name = true ->
    assoc (map worth options) name = assoc (map worth (expectation_options e)) name).
  { intros name Hname. rewrite Ho, map_app, assoc_app. by rewrite Hnone. }
  destruct e as [epoch coordinator topology policy sg pd td]. cbn in H1, H2, H3. subst sg pd td.
  unfold build_expectation. cbv zeta.
  rewrite (field_said "expect-epoch" _ decimal_text epoch), (field_said "expect-coordinator" _ incarnation_hex coordinator),
    (field_said "expect-topology-generation" _ decimal_text topology), (field_said "expect-policy-generation" _ decimal_text policy); [done|..].
  all: try (rewrite Hlook by done; by destruct epoch, coordinator, topology, policy).
  - intros a E _. apply u64_said; [|by apply (Hp a)]. rewrite Hlook by done. rewrite E. by destruct epoch, coordinator, topology.
  - intros a E _. apply u64_said; [|by apply (Ht a)]. rewrite Hlook by done. rewrite E. by destruct epoch, coordinator, policy.
  - intros a E _. apply incarnation_parse_hex. by apply (Hc a).
  - intros a E _. apply u64_said; [|by apply (He a)]. rewrite Hlook by done. rewrite E. by destruct coordinator, topology, policy.
Qed.
End said.

Section read_back.
Context (args : Arguments) (endpoint : string) (view : EngineView).
Abbreviation said options := (forall name, ag_options args !! name = assoc (map worth (valued "endpoint" endpoint :: options)) name).

Ltac read Hs := erewrite (get_said _ _ Hs) by reflexivity; cbn [valued snd default from_option id].

Lemma failover_said q : said (failover_options q) -> codec_wf q -> lk_fabric (fq_subject q) = vw_fabric view ->
  fq_subject_generation q <> 0 -> Forall (candidate_listed (vw_fabric view)) (fq_candidates q) -> sayable (fq_expected q) ->
  build_failover args view = inr q.
Proof.
  intros Hs ([Hfab Hlink] & Hg & _ & _ & He & Hk) Hf Hg0 Hcand Hsay. unfold build_failover, need.
  rewrite <- Hf, name_parse_valid by done. cbn [result_value].
  read Hs. rewrite name_parse_valid by done. cbn [result_value].
  rewrite (u64_said _ _ Hs "generation" 0 (fq_subject_generation q)) by (done || reflexivity).
  rewrite (proj2 (Z.eqb_neq _ _)) by done. read Hs.
  rewrite Hf, candidates_text_read by done. cbn [built_bind].
  rewrite (expectation_said _ _ Hs (take 5 (valued "endpoint" endpoint :: failover_options q)) (fq_expected q) eq_refl) by done.
  rewrite (idempotency_said _ _ Hs (fq_idempotency_key q)) by (done || reflexivity). rewrite <- Hf.
  by destruct q as [[] ? ? ? ?].
Qed.
Lemma rollback_said q : said (rollback_options q) -> codec_wf q -> lk_fabric (bq_subject q) = vw_fabric view ->
  bq_subject_generation q = 0 -> bq_attempt_seq q <> 0 -> sayable (bq_expected q) -> build_rollback args view = inr q.
Proof.
  intros Hs ([Hfab Hlink] & _ & Hq & He & Hk & _) Hf Hg Hq0 Hsay. unfold build_rollback, need.
  read Hs. rewrite name_parse_valid by done. cbn [result_value].
  rewrite (u64_said _ _ Hs "attempt-seq" 0 (bq_attempt_seq q)) by (done || reflexivity).
  rewrite (proj2 (Z.eqb_neq _ _)) by done.
  rewrite (expectation_said _ _ Hs (take 5 (valued "endpoint" endpoint :: rollback_options q)) (bq_expected q) eq_refl) by done.
  rewrite (idempotency_said _ _ Hs (bq_idempotency_key q)) by (done || reflexivity). read Hs.
  destruct q as [[] ? ? ? ? ?]. cbn in *. by subst.
Qed.

Lemma subject_said options subject generation seq : said (subject_options subject generation seq ++ options) ->
  is_valid_name (lk_link subject) = true -> is_u64 generation -> is_u64 seq ->
  build_subject args = inr (lk_link subject, generation, seq).
Proof.
  intros Hs Hl Hg Hq. unfold build_subject, need. read Hs. rewrite name_parse_valid by done. cbn [result_value].
  rewrite (u64_said _ _ Hs "generation" 0 generation) by (done || reflexivity).
  by rewrite (u64_said _ _ Hs "attempt-seq" 0 seq) by (done || reflexivity).
Qed.
Lemma attempt_said options subject generation seq id :
  said (subject_options subject generation seq ++ [valued "attempt-id" (digest_hex id)] ++ options) ->
  is_valid_name (lk_link subject) = true -> is_u64 generation -> is_u64 seq -> digest_wf id ->
  build_attempt args = inr (lk_link subject, generation, seq, id).
Proof.
  intros Hs Hl Hg Hq Hd. unfold build_attempt. rewrite (subject_said _ _ _ _ Hs) by done. cbn [built_bind]. unfold need.
  read Hs. by rewrite digest_parse_hex.
Qed.

Lemma application_said c q : said (application_options q) -> codec_wf q -> lk_fabric (ar_subject q) = vw_fabric view ->
  ar_applier_incarnation q = cl_incarnation c -> ar_applier_epoch q = vw_epoch view -> ar_detail q = "ctl apply"%string ->
  build_application args view c = inr q.
Proof.
  intros Hs ([_ Hl] & Hg & Hq & Hd & _) Hf Hi He Ht. unfold build_application.
  rewrite (attempt_said _ _ _ _ _ Hs) by done. cbn [built_bind]. unfold need.
  rewrite (flag_said _ _ Hs "reject" (negb (ar_accepted q))) by (unfold application_options; by destruct (ar_accepted q)).
  rewrite negb_involutive, <- Hi, <- He, <- Ht, <- Hf. by destruct q as [[] ? ? ? ? ? ? ?].
Qed.
Lemma verification_said c q : said (verification_options q) -> codec_wf q -> lk_fabric (vr_subject q) = vw_fabric view ->
  vr_verifier_incarnation q = cl_incarnation c -> vr_verifier_epoch q = vw_epoch view -> vr_detail q = "ctl verify"%string ->
  build_verification args view c = inr q.
Proof.
  intros Hs ([_ Hl] & Hg & Hq & Hd & _) Hf Hi He Ht. unfold build_verification.
  rewrite (attempt_said _ _ _ _ _ Hs) by done. cbn [built_bind]. unfold need.
  rewrite (flag_said _ _ Hs "not-observed" (negb (vr_effect_observed q))) by (unfold verification_options; by destruct (vr_effect_observed q)).
  rewrite negb_involutive, <- Hi, <- He, <- Ht, <- Hf. by destruct q as [[] ? ? ? ? ? ? ?].
Qed.
Lemma revalidation_said c q : said (revalidation_options q) -> codec_wf q -> lk_fabric (vq_subject q) = vw_fabric view ->
  vq_observer_incarnation q = cl_incarnation c -> vq_observer_epoch q = vw_epoch view ->
  build_revalidation args view c = inr q.
Proof.
  intros Hs ([_ Hl] & Hg & Hq & _) Hf Hi He. unfold build_revalidation.
  rewrite (subject_said _ _ _ _ Hs) by done. cbn [built_bind]. unfold need.
  read Hs. rewrite revalidation_verdict_parse_name. read Hs.
  rewrite <- Hi, <- He, <- Hf. by destruct q as [[] ? ? ? ? ? ?].
Qed.
End read_back.

(** ** The lines of a decision *)
Lemma lacks_app separator s t : lacks separator s = true -> lacks separator t = true ->
  lacks separator (s +:+ t)%string = true.
Proof.
  unfold lacks. induction s as [|c s IH]; [done|]. rewrite string_app_cons. cbn [string_forallb].
  intros [-> Hs]%andb_true_iff Ht. by apply IH.
Qed.
Lemma lacks_name separator n : name_char separator = false -> name_wf n -> lacks separator n = true.
Proof. intros Hc [->|Hn]; [done|]. apply (lacks_impl name_char); [done|by apply name_chars]. Qed.
Lemma hex_lacks bs : lacks newline (hex_of_bytes bs) = true.
Proof.
  assert (Hd : Forall (fun n => Ascii.eqb (hex_digit n) newline = false) (seqZ 0 16)).
  { apply (bool_decide_unpack _). vm_compute. exact I. }
  rewrite Forall_forall in Hd.
  assert (Hn : forall z, Ascii.eqb (hex_digit (Z.land z 15)) newline = false).
  { intros z. apply Hd, elem_of_seqZ. change 15 with (Z.ones 4). rewrite Z.land_ones by lia.
    pose proof (Z.mod_pos_bound z (2 ^ 4)). lia. }
  unfold lacks. induction bs as [|b bs IH]; [done|]. cbn [hex_of_bytes string_forallb]. by rewrite !Hn, IH.
Qed.
Lemma key_lacks k : link_key_wf k -> lacks newline (lk_fabric k +:+ "/" +:+ lk_link k)%string = true.
Proof. intros [Hf Hl]. by repeat apply lacks_app; (done || apply lacks_name). Qed.

Lemma split_lines_lacks s rest : lacks newline s = true ->
  split_lines (s +:+ String newline rest)%string = s :: split_lines rest.
Proof.
  unfold lacks. induction s as [|c s IH]; [done|]. cbn [string_forallb]. intros [Hc%negb_true_iff Hs]%andb_true_iff.
  rewrite string_app_cons. cbn [split_lines]. by rewrite Ascii.eqb_sym, Hc, IH.
Qed.
Lemma printed_cons key value rest name :
  lacks newline key = true -> lacks "="%char key = true -> lacks newline value = true ->
  printed (print_line key value +:+ rest)%string name = if String.eqb key name then Some value else printed rest name.
Proof.
  intros Hn He Hv. unfold printed, print_line, policy_text_line.
  assert (E : ((key +:+ "=" +:+ value +:+ String newline EmptyString) +:+ rest)%string =
    ((key +:+ String "="%char value) +:+ String newline rest)%string).
  { rewrite !string_app_assoc. reflexivity. }
  etrans; [exact (f_equal (fun t => field_in name (split_lines t)) E)|].
  rewrite split_lines_lacks by by apply lacks_app.
  cbn [field_in]. by rewrite lsplit_at.
Qed.

(** Lines come off one by one: each value is read back, and the lines of other names
    do not change what is read. *)
Definition printable (p : string * string) : bool :=
  (lacks newline p.1 && lacks "="%char p.1 && lacks newline p.2)%bool.
Lemma printed_lines lines rest : forallb printable lines = true -> NoDup (map fst lines) ->
  Forall (fun p => printed (print_all (map (fun p => print_line p.1 p.2) lines) +:+ rest)%string p.1 = Some p.2) lines.
Proof.
  assert (E : forall p lines, (print_all (map (fun p => print_line p.1 p.2) (p :: lines)) +:+ rest)%string =
    (print_line p.1 p.2 +:+ (print_all (map (fun p => print_line p.1 p.2) lines) +:+ rest))%string).
  { intros p lines'. apply string_app_assoc. }
  induction lines as [|p lines IH]; [done|]. cbn [forallb map]. rewrite NoDup_cons.
  intros [[[Hn He]%andb_true_iff Hv]%andb_true_iff Hl]%andb_true_iff [Hnew Hd]. rewrite Forall_cons. split.
  - etrans; [exact (f_equal (fun t => printed t p.1) (E p lines))|]. rewrite printed_cons by done. by rewrite String.eqb_refl.
  - specialize (IH Hl Hd). rewrite Forall_forall in *. intros q Hq.
    etrans; [exact (f_equal (fun t => printed t q.1) (E p lines))|]. rewrite printed_cons by done.
    destruct (String.eqb_spec p.1 q.1) as [Heq|_]; [|by apply IH]. contradict Hnew. rewrite Heq. by apply list_elem_of_fmap_2.
Qed.

Lemma print_all_app l1 l2 : print_all (l1 ++ l2) = (print_all l1 +:+ print_all l2)%string.
Proof. induction l1 as [|l l1 IH]; [done|]. change (print_all ((l :: l1) ++ l2)) with (l +:+ print_all (l1 ++ l2))%string.
  rewrite IH. symmetry. apply string_app_assoc. Qed.
Lemma decision_lines_printable d : decision_wf d -> forallb printable (decision_lines d) = true.
Proof.
  intros (_ & _ & Hs & Hg & Hr & Hrg & _ & Hq & _ & He & _ & _ & _ & Hl & _).
  assert (Hnum : forall n, is_u64 n -> lacks newline (decimal_text n) = true) by (intros; by apply decimal_lacks).
  assert (Hn : forall key value, lacks newline key = true -> lacks "="%char key = true -> lacks newline value = true ->
    printable (key, value) = true) by (intros k v H1 H2 H3; unfold printable; cbn [fst snd]; by rewrite H1, H2, H3).
  assert (Hcons : forall p l, printable p = true -> forallb printable l = true -> forallb printable (p :: l) = true)
    by (intros p l H1 H2; cbn [forallb]; by rewrite H1, H2).
  unfold decision_lines. rewrite forallb_app. apply andb_true_iff. split.
  - repeat (apply Hcons; [apply Hn; [reflexivity|reflexivity|]|]); [..|reflexivity].
    + by destruct (fd_outcome d).
    + by destruct (fd_kind d).
    + by destruct (fd_assertion d).
    + by apply key_lacks.
    + by apply Hnum.
    + by apply Hnum.
    + apply hex_lacks.
    + apply hex_lacks.
    + by apply Hnum.
    + apply hex_lacks.
    + by destruct (fd_durable d).
    + by destruct (fd_idempotent_replay d).
    + by apply Hnum.
  - destruct (fd_has_replacement d); [|reflexivity].
    repeat (apply Hcons; [apply Hn; [reflexivity|reflexivity|]|]); [by apply key_lacks|by apply Hnum|reflexivity].
Qed.
Lemma print_decision_says d : decision_wf d -> says_decision (print_decision d) d.
Proof.
  intros Hd. unfold says_decision.
  assert (E : exists rest, print_decision d = (print_all (map (fun p => print_line p.1 p.2) (decision_lines d)) +:+ rest)%string).
  { unfold print_decision. rewrite app_assoc, print_all_app. eexists. apply (f_equal2 String.append); [|reflexivity].
    apply f_equal. unfold decision_lines. rewrite map_app. apply f_equal2; [reflexivity|]. by destruct (fd_has_replacement d). }
  destruct E as [rest ->]. apply printed_lines; [by apply decision_lines_printable|].
  unfold decision_lines. rewrite map_app. apply (bool_decide_unpack _). destruct (fd_has_replacement d); vm_compute; exact I.
Qed.

(** ** A decision command is the engine's operation *)
Lemma spelled_shape view by_client command options op body m : spelled view by_client command options op body m ->
  option_of command = None /\ forall endpoint, well_named (valued "endpoint" endpoint :: options) = true.
Proof.
  assert (Hk : forall endpoint l, well_named (valued "endpoint" endpoint :: l) = well_named (valued "endpoint" "" :: l)) by done.
  destruct 1 as [q|q|q|q|q]; (split; [reflexivity|]); intros endpoint; rewrite Hk.
  - unfold failover_options. destruct (fq_expected q) as [[] [] [] [] ? ? ?]; reflexivity.
  - unfold rollback_options. destruct (bq_expected q) as [[] [] [] [] ? ? ?]; reflexivity.
  - unfold application_options. destruct (ar_accepted q); reflexivity.
  - unfold verification_options. destruct (vr_effect_observed q); reflexivity.
  - reflexivity.
Qed.

(** The builders of Ctl.v make of a spelled command the very request it says. *)
Lemma spelled_asked args endpoint view c command options op body m :
  (forall name, ag_options args !! name = assoc (map worth (valued "endpoint" endpoint :: options)) name) ->
  spelled view (cl_incarnation c) command options op body m -> ctl_asks args view c command op body m.
Proof.
  intros Hs H. destruct H as [q Hw Hf Hg Hc He|q Hw Hf Hg Hq He|q Hw Hf Hi He Ht|q Hw Hf Hi He Ht|q Hw Hf Hi He].
  - apply AskFailover; [|by eapply failover_said|done]. erewrite (get_said _ _ Hs) by reflexivity.
    intros Hl. destruct Hw as ([_ Hv] & _). change (lk_link (fq_subject q) = EmptyString) in Hl. rewrite Hl in Hv. discriminate Hv.
  - apply AskRollback; [by eapply rollback_said|done].
  - apply AskApplication; [by eapply application_said|done].
  - apply AskVerification; [by eapply verification_said|done].
  - apply AskRevalidation; [by eapply revalidation_said|done].
Qed.
Lemma spelled_prepared {W} argv command endpoint view by_client options op body m :
  command_line argv command endpoint options -> endpoint_wf endpoint ->
  spelled view by_client command options op body m ->
  exists args, ctl_prepare (W := W) argv = inr (args, command, endpoint) /\
    forall name, ag_options args !! name = assoc (map worth (valued "endpoint" (endpoint_to_string endpoint) :: options)) name.
Proof.
  intros Hl He Hs. destruct (spelled_shape _ _ _ _ _ _ _ Hs) as [Hc Hn].
  destruct (command_line_parse _ _ _ Hl Hc (Hn _)) as (args & Hp & Hpos & Hsaid). exists args. split; [|exact Hsaid].
  unfold ctl_prepare. rewrite Hp, Hpos. erewrite (get_said _ _ Hsaid) by reflexivity.
  change (default "true"%string (Some (endpoint_to_string endpoint))) with (endpoint_to_string endpoint).
  pose proof (endpoint_parse_to_string endpoint He) as E. cbn [snd valued default from_option id]. cbv zeta. rewrite E.
  destruct (string_empty (endpoint_to_string endpoint)) eqn:Ee; [|done].
  unfold endpoint_parse in E. rewrite Ee in E. discriminate E.
Qed.

(** C16: lffctl is the coordinator's hand. Take a failover, rollback, apply, verify or
    revalidate request and spell it as a command line, its options in any order: the
    link, the generation, the candidates, the expectations that are set, the
    idempotency key, the attempt, the verdict, and [--reject] or [--not-observed]
    exactly where the report is negative. Run over an open session with a running
    coordinator, that command line performs exactly the engine's operation on that
    very request, in its coordinator's fabric and, for reports, with the client's
    incarnation and the coordinator's epoch. It exits with 0 exactly when the outcome
    of the decision is Ok, and with the negative code otherwise; it prints the decision,
    whose outcome, kind, assertion, subject, attempt, identities, epoch, durability,
    lineage sequence and replacement are read off the [name=value] lines of the output. *)
Theorem ctl_decision_is_local key argv command endpoint options op body m r l v d im' fs' :
  let view := inspect (engine_at l) 0 in
  let c := rn_client r in
  command_line argv command endpoint options -> endpoint_wf endpoint ->
  spelled view (cl_incarnation c) command options op body m ->
  rn_net r = ([], l) -> session_matches key c l v -> cl_seq c + 2 < two64 ->
  engine_view_wf view -> 46 <= cl_max_payload c ->
  Z.of_nat (length (response_payload MessageType.Inspect status_success (encode_engine_view view))) <= cl_max_payload c ->
  Z.of_nat (40 + length body) <= cl_max_payload c ->
  m (engine_at l) (medium_at l) = (Success d, im', fs') -> codec_wf d ->
  answer_size op (Success d) <= cl_max_payload c ->
  exists args code r' v' text,
    ctl_prepare (W := Line) argv = inr (args, command, endpoint) /\
    ctl_command (line_transmit key) command args r = Some (code, r') /\
    (code = kExitOk <-> fd_outcome d = Outcome.Ok) /\ (code = kExitNegative <-> fd_outcome d <> Outcome.Ok) /\
    rn_out r' = (rn_out r +:+ text)%string /\ says_decision text d /\ rn_err r' = rn_err r /\ rn_fs r' = rn_fs r /\
    engine_at (rn_world r') = im' /\ medium_at (rn_world r') = fs' /\ session_matches key (rn_client r') (rn_world r') v'.
Proof.
  intros view c Hl He Hs Hn Hm Hseq Hw Hmax Hview Hbody Hop Hd Hsize.
  destruct (spelled_prepared (W := Line) _ _ _ _ _ _ _ _ _ Hl He Hs) as (args & Hp & Hsaid).
  assert (Ha : ctl_asks args view (set_cl_seq (cl_seq c + 1) c) command op body m) by (by eapply spelled_asked).
  destruct (asked_is_local key args command op body m r l v d im' fs' Ha Hn Hm Hseq Hw Hmax Hview Hbody Hop Hd Hsize)
    as (code & r' & v' & Hr & Hok & Hneg & Ho & H).
  exists args, code, r', v', (print_decision d).
  split; [exact Hp|]. split; [exact Hr|]. split; [exact Hok|]. split; [exact Hneg|]. split; [exact Ho|].
  split; [by apply print_decision_says|exact H].
Qed.
