(* ===== verification/Worker.v ===== *)
(** * The external applier

    The main program of lff-worker (tools/lff-worker.cpp): it claims directives, writes
    an effect record for each, acknowledges it, reads it back and reports what it saw.
    The crash point between effect and acknowledgement is a point where a run may stop;
    the delay between empty rounds is not modelled. *)
From S2P Require Import Prelude Status Hash Ids Bytes Evidence Policy Authority Attempt Decision.
From S2P Require Import Selector Fs Journal State Store Intake Engine EngineLogic EngineSafety Wire.
From S2P Require Import Server Client Tool Process.

Definition worker_usage_text : string := foldr (fun l rest => (line_of l +:+ rest)%string) EmptyString [
  "usage: lff-worker --endpoint=HOST:PORT --effect-dir=DIR [options]";
  "";
  "  --endpoint=HOST:PORT   coordinator endpoint (required)";
  "  --effect-dir=DIR       directory for applied effect records (required)";
  "  --id=NAME              worker name reported to the coordinator";
  "  --iterations=N         stop after N claim rounds (0 = run until stopped)";
  "  --idle-ms=N            delay between empty claim rounds (default 10)";
  "  --reject               refuse every directive instead of applying it";
  "  --verify=false         do not report verification after applying";
  "  --ready-file=PATH      write readiness once the coordinator is reached";
  "  --exit-file=PATH       stop when this file appears"]%string.

(** ** Effect records *)
Definition effect_text (d : ApplyDirective) (worker : string) : string := print_all [
  print_line "subject" (link_key_to_string (di_subject d));
  print_line "subject_generation" (decimal_text (di_subject_generation d));
  print_line "replacement" (link_key_to_string (di_replacement d));
  print_line "replacement_generation" (decimal_text (di_replacement_generation d));
  print_line "attempt_seq" (decimal_text (di_attempt_seq d));
  print_line "attempt_id" (digest_hex (di_attempt_id d));
  print_line "authority" (digest_hex (authority_digest (di_authority d)));
  print_line "worker" worker].

Fixpoint ends_in_separator (path : string) : bool :=
  match path with
  | EmptyString => false
  | String ch EmptyString => (Ascii.eqb ch "/"%char || Ascii.eqb ch "\"%char)%bool
  | String _ rest => ends_in_separator rest
  end.
Definition effect_path (directory : string) (d : ApplyDirective) : string :=
  (directory +:+ (if (negb (string_empty directory) && negb (ends_in_separator directory))%bool then "/" else "") +:+
   lk_fabric (di_subject d) +:+ "_" +:+ lk_link (di_subject d) +:+ "_" +:+
   decimal_text (di_subject_generation d) +:+ "_" +:+ decimal_text (di_attempt_seq d) +:+ ".applied")%string.

(** An [std::ofstream] opened for truncation, written and flushed. *)
Definition write_stream (path text : string) : IoM bool :=
  io* opened := fopen_truncate path in
  match opened with
  | Some _ => ioret false
  | None =>
      io* written := fwrite path (bytes_of_string text) in
      ioret (Nat.eqb written.1 (length (bytes_of_string text)))
  end.
Definition write_effect (directory : string) (d : ApplyDirective) (worker : string) : IoM (option string) :=
  let path := effect_path directory d in
  io* ok := write_stream path (effect_text d worker) in
  ioret (if ok : bool then Some path else None).
(** Whether any text can be read from the file. *)
Definition read_effect (path : string) : IoM bool :=
  io* opened := fopen_existing path in
  match opened with
  | Some _ => ioret false
  | None =>
      io* o := io_outcome in
      io* fs := io_get in
      let data := default [] (fs_files fs !! path) in
      let text := match o with None => data | Some (n, _) => take n data end in
      ioret (negb (Nat.eqb (length text) 0))
  end.

(** ** Reports *)
Definition application_of (d : ApplyDirective) (incarnation : Incarnation) (epoch : Epoch) (accepted : bool)
    (detail : string) : ApplicationReport :=
  MkApplicationReport (di_subject d) (di_subject_generation d) (di_attempt_seq d) (di_attempt_id d)
    incarnation epoch accepted detail.
Definition verification_of (d : ApplyDirective) (incarnation : Incarnation) (epoch : Epoch) (observed : bool) :
    VerificationReport :=
  MkVerificationReport (di_subject d) (di_subject_generation d) (di_attempt_seq d) (di_attempt_id d)
    incarnation epoch observed (if observed then "effect record read back" else "effect record missing").

Record WorkerOptions := MkWorker {
  wk_effect_dir : string;
  wk_name : string;
  wk_iterations : Z;
  wk_reject : bool;
  wk_verify : bool;
  wk_exit_file : string;
}.

(** ** One directive, one round, the loop *)
Section worker.
Context {W : Type} (transmit : bytes -> W -> Status * Readings * W).
(** Whether the exit file can be opened at the end of this round. *)
Context (exit_file_opens : Z -> bool).
Context (o : WorkerOptions) (incarnation : Incarnation).

(** [inl code] ends the program; [inr applied] goes on. *)
Definition worker_stop (what : string) (s : Status) : Proc (W := W) (Z + Z) :=
  proc* _ := pcomplain (line_of (what +:+ status_to_string s)) in pret (inl kExitTransport).

Definition worker_rejects (d : ApplyDirective) (applied : Z) : Proc (W := W) (Z + Z) :=
  proc* r := pget in
  let report := application_of d incarnation (hr_epoch (cl_hello (rn_client r))) false "synthetic rejection" in
  proc* decision := pcall (client_application transmit report) in
  match decision with
  | Failure s => worker_stop "report failed: " s
  | Success _ => proc* _ := psay (print_line "rejected" (digest_hex (di_attempt_id d))) in pret (inr applied)
  end.
Definition worker_acknowledges (d : ApplyDirective) (applied : Z) (k : Proc (W := W) (Z + Z)) : Proc (W := W) (Z + Z) :=
  proc* r := pget in
  let report := application_of d incarnation (hr_epoch (cl_hello (rn_client r))) true "synthetic apply" in
  proc* acknowledged := pcall (client_application transmit report) in
  match acknowledged with
  | Failure s => worker_stop "acknowledge failed: " s
  | Success _ =>
      proc* _ := psay (print_line "acknowledged" (digest_hex (di_attempt_id d))) in
      if negb (wk_verify o) then pret (inr applied) else k
  end.
Definition worker_verifies (d : ApplyDirective) (path : string) (applied : Z) : Proc (W := W) (Z + Z) :=
  proc* r := pget in
  proc* observed := pio (read_effect path) in
  let report := verification_of d incarnation (hr_epoch (cl_hello (rn_client r))) observed in
  proc* verified := pcall (client_verification transmit report) in
  match verified with
  | Failure s => worker_stop "verify failed: " s
  | Success _ => proc* _ := psay (print_line "verified" (digest_hex (di_attempt_id d))) in pret (inr applied)
  end.
Definition worker_directive (d : ApplyDirective) (applied : Z) : Proc (W := W) (Z + Z) :=
  if wk_reject o then worker_rejects d applied
  else
    proc* written := pio (write_effect (wk_effect_dir o) d (wk_name o)) in
    match written with
    | None => proc* _ := pcomplain (line_of "cannot write effect record") in pret (inl kExitTransport)
    | Some path =>
        let applied := wrap64 (applied + 1) in
        proc* _ := psay (print_line "applied" path) in
        worker_acknowledges d applied (worker_verifies d path applied)
    end.
Fixpoint worker_directives (ds : list ApplyDirective) (applied : Z) : Proc (W := W) (Z + Z) :=
  match ds with
  | [] => pret (inr applied)
  | d :: rest =>
      proc* went := worker_directive d applied in
      match went with inl code => pret (inl code) | inr applied => worker_directives rest applied end
  end.
Definition worker_round (applied : Z) : Proc (W := W) (Z + Z) :=
  proc* claimed := pcall (client_claim transmit 8) in
  match claimed with
  | Failure s => worker_stop "claim failed: " s
  | Success response => worker_directives (cr_directives response) applied
  end.
Definition worker_done (round : Z) : bool :=
  (((wk_iterations o >? 0) && (round >=? wk_iterations o)) ||
   (negb (string_empty (wk_exit_file o)) && exit_file_opens round))%bool.
Fixpoint worker_loop (fuel : nat) (round applied : Z) : Proc (W := W) Z :=
  match fuel with
  | O => fun _ => None
  | S fuel =>
      let round := wrap64 (round + 1) in
      proc* went := worker_round applied in
      match went with
      | inl code => pret code
      | inr applied =>
          if worker_done round
          then proc* _ := psay (line_of ("rounds=" +:+ decimal_text round +:+ " applied=" +:+ decimal_text applied)) in
               pret kExitOk
          else worker_loop fuel round applied
      end
  end.
End worker.

(** ** The program *)
Definition worker_prepare (argv : list string) : (Z * string) + Arguments * Endpoint * WorkerOptions :=
  match arguments_parse argv with
  | Failure s => inl (kExitUsage, line_of ("argument error: " +:+ status_to_string s)%string)
  | Success args =>
      let endpoint_text := arguments_get args "endpoint" "" in
      let effect_dir := arguments_get args "effect-dir" "" in
      if (string_empty endpoint_text || string_empty effect_dir)%bool then inl (kExitUsage, worker_usage_text)
      else match endpoint_parse endpoint_text with
      | Failure _ => inl (kExitUsage, line_of "invalid endpoint")
      | Success endpoint =>
          match arguments_get_u64 args "iterations" 0, arguments_get_u64 args "idle-ms" 10,
                arguments_get_bool args "reject" false, arguments_get_bool args "verify" true with
          | Success iterations, Success _, Success reject, Success verify =>
              inr (args, endpoint, MkWorker effect_dir (arguments_get args "id" "synthetic-worker") iterations reject
                     verify (arguments_get args "exit-file" ""))
          | _, _, _, _ => inl (kExitUsage, line_of "numeric option error")
          end
      end
  end.
Definition ready_text (endpoint : Endpoint) (name : string) (c : ClientImpl) : string := print_all [
  print_line "endpoint" (endpoint_to_string endpoint);
  print_line "incarnation" (incarnation_hex (cl_incarnation c));
  print_line "epoch" (decimal_text (hr_epoch (cl_hello c)));
  print_line "worker" name].

(** From the connection on: readiness, then the loop. *)
Definition worker_connected {W} (transmit : bytes -> W -> Status * Readings * W) (exit_file_opens : Z -> bool)
    (args : Arguments) (endpoint : Endpoint) (o : WorkerOptions) (fuel : nat) : Proc (W := W) Z :=
  proc* r := pget in
  let c := rn_client r in
  let run := worker_loop transmit exit_file_opens o (cl_incarnation c) fuel 0 0 in
  if arguments_has args "ready-file"
  then
    proc* written := pio (write_stream (arguments_get args "ready-file" "") (ready_text endpoint (wk_name o) c)) in
    if negb written
    then proc* _ := pcomplain (line_of "cannot write ready file") in pret kExitTransport
    else run
  else proc* _ := psay (print_line "incarnation" (incarnation_hex (cl_incarnation c))) in run.
Definition worker_main {W} (dial : Endpoint -> W -> Result (Readings * W))
    (transmit : bytes -> W -> Status * Readings * W) (exit_file_opens : Z -> bool) (argv : list string)
    (incarnation : Incarnation) (fuel : nat) (fs : Fs) (w : W) : option (Ended W) :=
  match worker_prepare argv with
  | inl (code, message) => Some (ended_early code message)
  | inr (args, endpoint, o) =>
      match client_connect dial transmit endpoint "worker" kDefaultFramePayload incarnation w with
      | None => None
      | Some (Failure s) => Some (ended_early kExitTransport (line_of ("connect failed: " +:+ status_to_string s)))
      | Some (Success (c, n)) =>
          ended_with (worker_connected transmit exit_file_opens args endpoint o fuel (MkRun c n fs "" ""))
      end
  end.

(** ** What a worker may do *)
(** The steps of an honest applier, on its file system and the world behind its
    connection: it claims, refuses, writes the effect of a directive and nothing else,
    acknowledges only an effect whose record is in place, and reports an effect as
    observed only when there is something to read. *)
Definition sends {W} (transmit : bytes -> W -> Status * Readings * W) (op : MessageType) (body : bytes) (w w' : W) : Prop :=
  exists e max frame, encode_frame op 0 (encode_payload (A := SessionEnvelope) e ++ body) max = Success frame /\
    w' = (transmit frame w).2.
Definition effect_in_place (o : WorkerOptions) (d : ApplyDirective) (fs : Fs) : Prop :=
  fs_files fs !! effect_path (wk_effect_dir o) d = Some (bytes_of_string (effect_text d (wk_name o))).

Section honest.
Context {W : Type} (transmit : bytes -> W -> Status * Readings * W).
Context (exit_file_opens : Z -> bool) (o : WorkerOptions) (incarnation : Incarnation).

Inductive honest_step : Fs * W -> Fs * W -> Prop :=
  | HonestClaim fs w w' body : sends transmit MessageType.ClaimDirective body w w' -> honest_step (fs, w) (fs, w')
  | HonestWrite fs fs' w d : wk_reject o = false ->
      (forall p, p <> effect_path (wk_effect_dir o) d -> fs_files fs' !! p = fs_files fs !! p) ->
      honest_step (fs, w) (fs', w)
  | HonestLook fs fs' w : fs_files fs' = fs_files fs -> honest_step (fs, w) (fs', w)
  | HonestReject fs w w' d epoch detail :
      sends transmit MessageType.ReportApplication (encoded (application_of d incarnation epoch false detail)) w w' ->
      honest_step (fs, w) (fs, w')
  | HonestAcknowledge fs w w' d epoch detail : wk_reject o = false -> effect_in_place o d fs ->
      sends transmit MessageType.ReportApplication (encoded (application_of d incarnation epoch true detail)) w w' ->
      honest_step (fs, w) (fs, w')
  | HonestVerify fs w w' d epoch observed : effect_in_place o d fs ->
      sends transmit MessageType.ReportVerification (encoded (verification_of d incarnation epoch observed)) w w' ->
      honest_step (fs, w) (fs, w').

Definition place (r : Run (W := W)) : Fs * W := (rn_fs r, rn_world r).
Definition honest {A} (Q : A -> Run (W := W) -> Prop) (P : Run (W := W) -> Prop) (m : Proc A) : Prop :=
  forall r a r', P r -> m r = Some (a, r') -> rtc honest_step (place r) (place r') /\ Q a r'.
Definition anyrun : Run (W := W) -> Prop := fun _ => True.

Lemma honest_ret {A} (Q : A -> Run -> Prop) (P : Run -> Prop) a : (forall r, P r -> Q a r) -> honest Q P (pret a).
Proof. intros H r a' r' Hp [= <- <-]. split; [constructor|auto]. Qed.
Lemma honest_bind {A B} (R : A -> Run -> Prop) (Q : B -> Run -> Prop) P m k :
  honest R P m -> (forall a, honest Q (R a) (k a)) -> honest Q P (pbind m k).
Proof.
  intros Hm Hk r b r' Hp E. unfold pbind in E. destruct (m r) as [[a r1]|] eqn:Em; [|done].
  destruct (Hm _ _ _ Hp Em) as [H1 Hr]. destruct (Hk _ _ _ _ Hr E) as [H2 Hq]. split; [by etrans|done].
Qed.
Lemma honest_weaken {A} (Q Q' : A -> Run -> Prop) (P P' : Run -> Prop) m :
  (forall r, P' r -> P r) -> (forall a r, Q a r -> Q' a r) -> honest Q P m -> honest Q' P' m.
Proof. intros H1 H2 H r a r' Hp E. destruct (H r a r' (H1 _ Hp) E). auto. Qed.

(** Conditions on the file system alone. *)
Definition on_fs (P : Fs -> Prop) (r : Run (W := W)) : Prop := P (rn_fs r).
Lemma honest_say P text : honest (fun _ => on_fs P) (on_fs P) (psay text).
Proof. intros r a r' Hp [= <- <-]. split; [constructor|exact Hp]. Qed.
Lemma honest_complain P text : honest (fun _ => on_fs P) (on_fs P) (pcomplain text).
Proof. intros r a r' Hp [= <- <-]. split; [constructor|exact Hp]. Qed.
Lemma honest_get P : honest (fun _ => on_fs P) (on_fs P) pget.
Proof. intros r a r' Hp [= <- <-]. split; [constructor|exact Hp]. Qed.
Lemma honest_io {A} P Q (m : IoM A) :
  (forall fs w, P fs -> rtc honest_step (fs, w) ((m fs).2, w) /\ Q (m fs).1 (m fs).2) ->
  honest (fun a => on_fs (Q a)) (on_fs P) (pio m).
Proof.
  intros H r a r' Hp. unfold pio. specialize (H (rn_fs r) (rn_world r) Hp).
  destruct (m (rn_fs r)) as [x fs]. intros [= <- <-]. exact H.
Qed.
Lemma honest_call {A} P op body (f : ClientImpl -> Net (W := W) -> option (A * ClientImpl * Net)) :
  (forall c n a c' n', f c n = Some (a, c', n') -> n'.2 = n.2 \/ sends transmit op body n.2 n'.2) ->
  (forall fs w w', P fs -> sends transmit op body w w' -> honest_step (fs, w) (fs, w')) ->
  honest (fun _ => on_fs P) (on_fs P) (pcall f).
Proof.
  intros Hf Hs r a r' Hp. unfold pcall. destruct (f _ _) as [[[x c] n]|] eqn:E; [|done]. intros [= <- <-].
  split; [|exact Hp]. destruct (Hf _ _ _ _ _ E) as [Hw|Hw].
  - unfold place, rn_world. cbn [rn_fs rn_net]. rewrite Hw. constructor.
  - apply rtc_once. apply Hs; [exact Hp|exact Hw].
Qed.
Lemma value_sends {A} (decode_body : bytes -> option A) missing op body c n a c' n' :
  remote_value transmit decode_body missing op body c n = Some (a, c', n') -> n'.2 = n.2 \/ sends transmit op body n.2 n'.2.
Proof.
  unfold remote_value. destruct (client_call _ _ _ _ _) as [[[r c1] n1]|] eqn:E; [|done]. intros H.
  assert (n' = n1) as -> by (by destruct r; injection H as _ _ <-).
  apply call_frame in E as [[-> _]|(e & frame & Ef & Hw)]; [by left|]. right. by eexists _, _, _.
Qed.

End honest.

Lemma write_stream_spec path text fs :
  (forall p, p <> path -> fs_files (write_stream path text fs).2 !! p = fs_files fs !! p) /\
  ((write_stream path text fs).1 = true ->
   fs_files (write_stream path text fs).2 !! path = Some (bytes_of_string text)).
Proof.
  unfold write_stream, iobind. destruct (fopen_truncate path fs) as [opened fs1] eqn:E1.
  pose proof (fopen_truncate_files _ _ _ _ E1) as H1. destruct opened as [e|]; [done|].
  apply fopen_truncate_empty in E1. destruct (fwrite path (bytes_of_string text) fs1) as [[n e] fs2] eqn:E2.
  apply fwrite_spec in E2 as [H2 Hn]. cbn [fst snd ioret]. rewrite H2. split.
  - intros p Hp. rewrite lookup_insert_ne by done. by apply H1.
  - intros Hl%Nat.eqb_eq. rewrite lookup_insert_eq, E1. cbn [default app]. by rewrite take_ge by lia.
Qed.
Lemma read_effect_files path fs : fs_files (read_effect path fs).2 = fs_files fs.
Proof.
  unfold read_effect, fopen_existing, iobind. destruct (io_call fs) as [e fs1] eqn:E1. apply io_call_files in E1.
  destruct e as [e|]; [exact E1|]. unfold io_get, ioret. destruct (fs_files fs1 !! path); [|exact E1].
  destruct (io_outcome fs1) as [x fs2] eqn:E2. apply io_outcome_files in E2. cbn [snd]. by rewrite E2.
Qed.

Section loop.
Context {W : Type} (transmit : bytes -> W -> Status * Readings * W).
Context (exit_file_opens : Z -> bool) (o : WorkerOptions) (incarnation : Incarnation).
Definition any_fs (_ : Fs) : Prop := True.

Lemma honest_any {A} (Q : A -> Run -> Prop) P m :
  honest transmit o incarnation Q P m -> honest transmit o incarnation (fun _ => on_fs any_fs) P m.
Proof. apply honest_weaken; done. Qed.
Lemma honest_stop what s : honest transmit o incarnation (fun _ => on_fs any_fs) (on_fs any_fs) (worker_stop what s).
Proof. eapply honest_bind; [apply honest_complain|]. intros ?. by apply honest_ret. Qed.

Lemma honest_rejects d applied :
  honest transmit o incarnation (fun _ => on_fs any_fs) (on_fs any_fs) (worker_rejects transmit incarnation d applied).
Proof.
  eapply honest_bind; [apply honest_get|]. intros r. cbv zeta. eapply honest_bind.
  - apply (honest_call _ _ _ any_fs MessageType.ReportApplication (encoded (application_of d incarnation
      (hr_epoch (cl_hello (rn_client r))) false "synthetic rejection"))); [intros *; apply value_sends|].
    intros fs w w' _ H. by eapply HonestReject.
  - intros [x|s]; [|apply honest_stop]. eapply honest_bind; [apply honest_say|]. intros ?. by apply honest_ret.
Qed.
Lemma honest_verifies d applied :
  honest transmit o incarnation (fun _ => on_fs any_fs) (on_fs (effect_in_place o d))
    (worker_verifies transmit incarnation d (effect_path (wk_effect_dir o) d) applied).
Proof.
  eapply honest_bind; [apply honest_get|]. intros r. eapply honest_bind.
  - apply (honest_io _ _ _ (effect_in_place o d) (fun _ => effect_in_place o d)). intros fs w H.
    pose proof (read_effect_files (effect_path (wk_effect_dir o) d) fs) as E.
    split; [by apply rtc_once, HonestLook|]. unfold effect_in_place. by rewrite E.
  - intros observed. cbv zeta. eapply honest_bind.
    + apply (honest_call _ _ _ (effect_in_place o d) MessageType.ReportVerification (encoded (verification_of d
        incarnation (hr_epoch (cl_hello (rn_client r))) observed))); [intros *; apply value_sends|].
      intros fs w w' Hin H. by eapply HonestVerify.
    + intros [x|s]; [|by eapply honest_weaken; [| |apply honest_stop]].
      eapply honest_bind; [apply honest_say|]. intros ?. by apply honest_ret.
Qed.
Lemma honest_acknowledges d applied k : wk_reject o = false ->
  honest transmit o incarnation (fun _ => on_fs any_fs) (on_fs (effect_in_place o d)) k ->
  honest transmit o incarnation (fun _ => on_fs any_fs) (on_fs (effect_in_place o d))
    (worker_acknowledges transmit o incarnation d applied k).
Proof.
  intros Hr Hk. eapply honest_bind; [apply honest_get|]. intros r. cbv zeta. eapply honest_bind.
  - apply (honest_call _ _ _ (effect_in_place o d) MessageType.ReportApplication (encoded (application_of d
      incarnation (hr_epoch (cl_hello (rn_client r))) true "synthetic apply"))); [intros *; apply value_sends|].
    intros fs w w' Hin H. by eapply HonestAcknowledge.
  - intros [x|s]; [|by eapply honest_weaken; [| |apply honest_stop]].
    eapply honest_bind; [apply honest_say|]. intros ?. destruct (negb (wk_verify o)); [by apply honest_ret|exact Hk].
Qed.
Lemma honest_directive d applied :
  honest transmit o incarnation (fun _ => on_fs any_fs) (on_fs any_fs) (worker_directive transmit o incarnation d applied).
Proof.
  unfold worker_directive. destruct (wk_reject o) eqn:Hr; [apply honest_rejects|]. eapply honest_bind.
  - apply (honest_io _ _ _ any_fs (fun written fs => match written with
      | Some path => path = effect_path (wk_effect_dir o) d /\ effect_in_place o d fs | None => True end)).
    intros fs w _. pose proof (write_stream_spec (effect_path (wk_effect_dir o) d) (effect_text d (wk_name o)) fs) as [Hw Hc].
    unfold write_effect, iobind. destruct (write_stream _ _ fs) as [ok fs']. cbn [fst snd ioret] in *.
    split; [apply rtc_once; by eapply HonestWrite|]. destruct ok; [|done]. split; [done|by apply Hc].
  - intros [path|].
    + intros r a r' [-> Hin]. revert r a r' Hin. cbv zeta. eapply honest_bind; [apply honest_say|].
      intros ?. by apply honest_acknowledges, honest_verifies.
    + eapply honest_bind; [by eapply honest_weaken; [| |apply (honest_complain _ _ _ any_fs)]|].
      intros ?. by apply honest_ret.
Qed.
Lemma honest_directives ds applied :
  honest transmit o incarnation (fun _ => on_fs any_fs) (on_fs any_fs) (worker_directives transmit o incarnation ds applied).
Proof.
  revert applied. induction ds as [|d ds IH]; intros applied; [by apply honest_ret|].
  eapply honest_bind; [apply honest_directive|]. intros [code|n]; [by apply honest_ret|apply IH].
Qed.
Lemma honest_loop fuel round applied :
  honest transmit o incarnation (fun _ => on_fs any_fs) (on_fs any_fs)
    (worker_loop transmit exit_file_opens o incarnation fuel round applied).
Proof.
  revert round applied. induction fuel as [|fuel IH]; intros round applied; [done|]. cbn [worker_loop]. cbv zeta.
  eapply honest_bind.
  - unfold worker_round. eapply honest_bind.
    + apply (honest_call _ _ _ any_fs MessageType.ClaimDirective (encode_payload (MkClaimRequest 8)));
        [intros *; apply value_sends|]. intros fs w w' _ H. by eapply HonestClaim.
    + intros [x|s]; [apply honest_directives|apply honest_stop].
  - intros [code|n]; [by apply honest_ret|]. destruct (worker_done _ _ _); [|apply IH].
    eapply honest_bind; [apply honest_say|]. intros ?. by apply honest_ret.
Qed.
End loop.

(** C17: the worker is honest. From its connection on, and but for the readiness file,
    everything a run does to its file system and sends to the coordinator is a sequence
    of honest steps: an acceptance is sent only while the effect record of the
    directive is in place, and an effect is reported as seen or missing only after it
    was written. *)
Theorem worker_is_honest {W} dial (transmit : bytes -> W -> Status * Readings * W) opens argv incarnation fuel fs w e r :
  worker_main dial transmit opens argv incarnation fuel fs w = Some e -> en_run e = Some r ->
  exists args endpoint o c n fs0, worker_prepare argv = inr (args, endpoint, o) /\
    client_connect dial transmit endpoint "worker" kDefaultFramePayload incarnation w = Some (Success (c, n)) /\
    (forall p, arguments_has args "ready-file" = false \/ p <> arguments_get args "ready-file" "" ->
       fs_files fs0 !! p = fs_files fs !! p) /\
    rtc (honest_step transmit o (cl_incarnation c)) (fs0, n.2) (rn_fs r, rn_world r).
Proof.
  unfold worker_main. destruct (worker_prepare argv) as [[code message]|[[args endpoint] o]] eqn:Ep; [by intros [= <-]|].
  destruct (client_connect _ _ _ _ _ _ _) as [[[c n]|s]|] eqn:Ec; [..|done]; [|by intros [= <-]].
  unfold ended_with. destruct (worker_connected _ _ _ _ _ _ _) as [[code r1]|] eqn:Er; [|done].
  intros [= <-]. cbn [en_run]. intros [= <-]. revert Er. unfold worker_connected.
  unfold pbind at 1, pget. cbn [rn_client]. destruct (arguments_has args "ready-file") eqn:Eh.
  - pose proof (write_stream_spec (arguments_get args "ready-file" "") (ready_text endpoint (wk_name o) c) fs) as [Hw _].
    unfold pbind at 1, pio. cbn [rn_fs]. destruct (write_stream _ _ fs) as [ok fs0]. cbn [fst snd] in Hw.
    intros Er. exists args, endpoint, o, c, n, fs0. split; [done|]. split; [exact Ec|]. split.
    { intros p [Hp|Hp]; [congruence|by apply Hw]. }
    destruct ok; cbn [negb] in Er; [|by injection Er as _ <-].
    apply (honest_loop transmit opens o (cl_incarnation c)) in Er as [H _]; [exact H|done].
  - intros Er. exists args, endpoint, o, c, n, fs. split; [done|]. split; [exact Ec|]. split; [done|].
    revert Er. unfold pbind at 1, psay. intros Er.
    apply (honest_loop transmit opens o (cl_incarnation c)) in Er as [H _]; [exact H|done].
Qed.

(** ** A bounded worker ends *)
Section bounded.
Context {W : Type} (transmit : bytes -> W -> Status * Readings * W).
Context (opens : Z -> bool) (o : WorkerOptions) (incarnation : Incarnation).
(** Every call gets an answer or an error. *)
Context (answers : forall op body c n, client_call transmit op body c n <> None).

Definition returns {A} (m : Proc (W := W) A) : Prop := forall r, m r <> None.
Lemma returns_bind {A B} (m : Proc A) (k : A -> Proc B) : returns m -> (forall a, returns (k a)) -> returns (pbind m k).
Proof. intros Hm Hk r. unfold pbind. specialize (Hm r). destruct (m r) as [[a r1]|]; [apply Hk|done]. Qed.
Lemma returns_ret {A} (a : A) : returns (pret a).
Proof. done. Qed.
Lemma returns_say text : returns (psay text).
Proof. done. Qed.
Lemma returns_complain text : returns (pcomplain text).
Proof. done. Qed.
Lemma returns_get : returns pget.
Proof. done. Qed.
Lemma returns_io {A} (m : IoM A) : returns (pio m).
Proof. intros r. unfold pio. by destruct (m _). Qed.
Lemma returns_value {A} (decode_body : bytes -> option A) missing op body :
  returns (pcall (remote_value transmit decode_body missing op body)).
Proof.
  intros r. unfold pcall, remote_value. specialize (answers op body (rn_client r) (rn_net r)).
  by destruct (client_call _ _ _ _ _) as [[[[] ?] ?]|].
Qed.
#[local] Hint Resolve returns_bind returns_ret returns_say returns_complain returns_get returns_io : core.

Lemma returns_stop what s : returns (worker_stop what s).
Proof. unfold worker_stop. auto. Qed.
#[local] Hint Resolve returns_stop : core.
Lemma returns_directive d applied : returns (worker_directive transmit o incarnation d applied).
Proof.
  unfold worker_directive. destruct (wk_reject o).
  - apply returns_bind; [auto|]. intros r. apply returns_bind; [apply returns_value|]. intros []; auto.
  - apply returns_bind; [auto|]. intros [path|]; [|auto]. apply returns_bind; [auto|]. intros _.
    apply returns_bind; [auto|]. intros r. apply returns_bind; [apply returns_value|]. intros []; [|auto].
    apply returns_bind; [auto|]. intros _. destruct (negb (wk_verify o)); [auto|].
    apply returns_bind; [auto|]. intros r1. apply returns_bind; [auto|]. intros observed.
    apply returns_bind; [apply returns_value|]. intros []; auto.
Qed.
Lemma returns_round applied : returns (worker_round transmit o incarnation applied).
Proof.
  apply returns_bind; [apply returns_value|]. intros [resp|s]; [|auto].
  generalize (cr_directives resp). intros ds. revert applied. induction ds as [|d ds IH]; intros applied; [apply returns_ret|].
  apply returns_bind; [apply returns_directive|]. intros [code|n]; [auto|apply IH].
Qed.

(** The rounds that remain are fuel enough, and more fuel changes nothing. *)
Lemma loop_bounded extra rounds round applied :
  0 <= round -> round + Z.of_nat rounds = wk_iterations o -> (0 < rounds)%nat -> is_u64 (wk_iterations o) ->
  forall r, exists result, worker_loop transmit opens o incarnation (rounds + extra) round applied r = Some result /\
    worker_loop transmit opens o incarnation rounds round applied r = Some result.
Proof.
  revert round applied. induction rounds as [|rounds IH]; intros round applied H0 Hsum Hpos Hu r; [lia|].
  cbn [worker_loop Nat.add]. cbv zeta. rewrite wrap64_small by (clear -H0 Hsum Hu; ints).
  unfold pbind. pose proof (returns_round applied r) as Hr.
  destruct (worker_round _ _ _ _ r) as [[[code|n] r1]|]; [by eexists| |done].
  destruct (worker_done opens o (round + 1)) eqn:Ed; [by eexists|]. apply IH; [lia|lia| |done].
  unfold worker_done in Ed. apply orb_false_iff in Ed as [Ed _]. apply andb_false_iff in Ed. destruct Ed as [Ed|Ed].
  - rewrite Z.gtb_ltb, Z.ltb_ge in Ed. lia.
  - rewrite Z.geb_leb, Z.leb_gt in Ed. lia.
Qed.
End bounded.

(** C39: a worker with a number of rounds ends. If every call is answered or fails, a
    run with --iterations=N ends, within N rounds: fuel N is enough and more gives the
    same end. *)
Theorem worker_ends {W} dial (transmit : bytes -> W -> Status * Readings * W) opens argv incarnation fs w args endpoint o :
  worker_prepare argv = inr (args, endpoint, o) -> 0 < wk_iterations o < two64 ->
  (forall op body c n, client_call transmit op body c n <> None) ->
  client_connect dial transmit endpoint "worker" kDefaultFramePayload incarnation w <> None ->
  exists e, forall fuel, (Z.to_nat (wk_iterations o) <= fuel)%nat ->
    worker_main dial transmit opens argv incarnation fuel fs w = Some e.
Proof.
  intros Ep Hi Ha Hc. unfold worker_main. rewrite Ep.
  destruct (client_connect _ _ _ _ _ _ _) as [[[c n]|s]|]; [..|done]; [|by eexists].
  assert (H : forall r, exists result, forall fuel, (Z.to_nat (wk_iterations o) <= fuel)%nat ->
    worker_loop transmit opens o (cl_incarnation c) fuel 0 0 r = Some result).
  { intros r. destruct (loop_bounded transmit opens o (cl_incarnation c) Ha 0 (Z.to_nat (wk_iterations o)) 0 0
      ltac:(lia) ltac:(lia) ltac:(lia) ltac:(ints) r) as (result & _ & E). exists result. intros fuel Hf.
    destruct (loop_bounded transmit opens o (cl_incarnation c) Ha (fuel - Z.to_nat (wk_iterations o))
      (Z.to_nat (wk_iterations o)) 0 0 ltac:(lia) ltac:(lia) ltac:(lia) ltac:(ints) r) as (result' & E1 & E2).
    replace (Z.to_nat (wk_iterations o) + _)%nat with fuel in E1 by lia. congruence. }
  unfold worker_connected. unfold pbind at 1, pget. cbn [rn_client]. destruct (arguments_has args "ready-file").
  - unfold pbind at 1. destruct (pio _ _) as [[[] r]|] eqn:Er; cbn [negb].
    + destruct (H r) as [[code r'] Hr]. eexists. intros fuel Hf. by rewrite (Hr fuel Hf).
    + by eexists.
    + unfold pio in Er. by destruct (write_stream _ _ _).
  - unfold pbind at 1, psay. destruct (H (MkRun c n fs ("" +:+ print_line "incarnation" (incarnation_hex (cl_incarnation c)))%string "")) as [[code r'] Hr].
    eexists. intros fuel Hf. cbn [rn_client rn_net rn_fs rn_out rn_err]. by rewrite (Hr fuel Hf).
Qed.

(** ** A directive, end to end *)
Lemma write_effect_calm o d fs : fs_faults fs = [] ->
  exists fs', write_effect (wk_effect_dir o) d (wk_name o) fs = (Some (effect_path (wk_effect_dir o) d), fs') /\
    fs_faults fs' = [] /\ effect_in_place o d fs'.
Proof.
  intros Hf. unfold effect_in_place, write_effect, write_stream, fopen_truncate, fwrite, iobind, io_call, io_outcome, io_get, iobind.
  rewrite Hf. unfold ioret, io_put_file, set_files. cbn [fs_files fs_faults fst snd].
  rewrite Hf, Nat.eqb_refl. cbn [fs_files fs_faults]. eexists. split; [reflexivity|]. split; [reflexivity|].
  cbn [fs_files]. by rewrite !lookup_insert_eq.
Qed.
Lemma read_effect_calm o d fs : fs_faults fs = [] -> effect_in_place o d fs ->
  read_effect (effect_path (wk_effect_dir o) d) fs = (true, fs).
Proof.
  intros Hf Hp. unfold effect_in_place in Hp.
  unfold read_effect, fopen_existing, iobind, io_call, io_outcome, io_get, iobind. rewrite Hf. unfold ioret.
  rewrite Hp. rewrite Hf. rewrite Hp. by destruct fs.
Qed.

Section local.
Context (key : Z).

(** The answer of a decision call, as a step of the process. *)
Lemma decision_step op body m r l v answer im' fs' :
  decision_call op body m -> rn_net r = ([], l) -> session_matches key (rn_client r) l v ->
  cl_seq (rn_client r) + 1 < two64 -> Z.of_nat (40 + length body) <= cl_max_payload (rn_client r) ->
  m (engine_at l) (medium_at l) = (Success answer, im', fs') -> codec_wf answer ->
  answer_size op (Success answer) <= cl_max_payload (rn_client r) ->
  exists l' v', pcall (remote_decision (line_transmit key) op body) r =
      Some (Success answer, MkRun (set_cl_seq (cl_seq (rn_client r) + 1) (rn_client r)) ([], l') (rn_fs r) (rn_out r) (rn_err r)) /\
    engine_at l' = im' /\ medium_at l' = fs' /\
    session_matches key (set_cl_seq (cl_seq (rn_client r) + 1) (rn_client r)) l' v'.
Proof.
  intros Hc Hn Hm Hq Hb E Hw Hs.
  destruct (remote_decision_line key op body m (rn_client r) l v (Success answer) im' fs')
    as (l' & v' & Hr & He & Hf & Hm'); [done..|]. exists l', v'. split; [|done]. unfold pcall. by rewrite Hn, Hr.
Qed.
End local.

(** C18: a directive is carried out. A worker that applies and verifies, on a calm file
    system and over a line to a running coordinator, writes the effect record and
    makes the engine record first the acknowledgement and then the verification of
    the observed effect, for the attempt of the directive and under its incarnation. *)
Theorem directive_is_carried_out key o incarnation d applied r l v d1 im1 fs1 d2 im2 fs2 :
  let c := rn_client r in
  let report := application_of d incarnation (hr_epoch (cl_hello c)) true "synthetic apply" in
  let verification := verification_of d incarnation (hr_epoch (cl_hello c)) true in
  wk_reject o = false -> wk_verify o = true -> fs_faults (rn_fs r) = [] -> rn_net r = ([], l) ->
  session_matches key c l v -> cl_seq c + 2 < two64 -> codec_wf report -> codec_wf verification ->
  Z.of_nat (40 + length (encoded report)) <= cl_max_payload c ->
  Z.of_nat (40 + length (encoded verification)) <= cl_max_payload c ->
  record_application report (engine_at l) (medium_at l) = (Success d1, im1, fs1) ->
  record_verification verification im1 fs1 = (Success d2, im2, fs2) -> codec_wf d1 -> codec_wf d2 ->
  answer_size MessageType.ReportApplication (Success d1) <= cl_max_payload c ->
  answer_size MessageType.ReportVerification (Success d2) <= cl_max_payload c ->
  exists r' v', worker_directive (line_transmit key) o incarnation d applied r = Some (inr (wrap64 (applied + 1)), r') /\
    effect_in_place o d (rn_fs r') /\ engine_at (rn_world r') = im2 /\ medium_at (rn_world r') = fs2 /\
    session_matches key (rn_client r') (rn_world r') v'.
Proof.
  intros c report verification Hrej Hver Hcalm Hn Hm Hq Hw1 Hw2 Hb1 Hb2 E1 E2 Hd1 Hd2 Hs1 Hs2.
  unfold worker_directive. rewrite Hrej.
  destruct (write_effect_calm o d (rn_fs r) Hcalm) as (fs' & Ew & Hcalm' & Hin).
  unfold pbind at 1, pio. rewrite Ew. cbv zeta. unfold pbind at 1, psay. cbn [rn_client rn_net rn_fs rn_out rn_err].
  unfold worker_acknowledges. unfold pbind at 1, pget. cbn [rn_client]. fold c. fold report. unfold pbind at 1.
  set (r1 := MkRun _ _ _ _ _).
  destruct (decision_step key MessageType.ReportApplication (encoded report) (record_application report) r1 l v d1 im1 fs1)
    as (l1 & v1 & Hr1 & He1 & Hf1 & Hm1); [exact (DkApplication report Hw1)|exact Hn|exact Hm|change (cl_seq c + 1 < two64); lia|exact Hb1|exact E1|exact Hd1|exact Hs1|].
  unfold client_application. rewrite Hr1. unfold pbind at 1, psay. rewrite Hver. cbn [negb rn_client rn_net rn_fs rn_out rn_err].
  unfold worker_verifies. unfold pbind at 1, pget. unfold pbind at 1, pio. cbn [rn_client rn_net rn_fs rn_out rn_err].
  change (rn_fs r1) with fs'. rewrite read_effect_calm by done.
  change (hr_epoch (cl_hello (set_cl_seq _ (rn_client r1)))) with (hr_epoch (cl_hello c)). fold verification.
  unfold pbind at 1. set (r2 := MkRun _ _ _ _ _).
  destruct (decision_step key MessageType.ReportVerification (encoded verification) (record_verification verification) r2 l1 v1 d2 im2 fs2)
    as (l2 & v2 & Hr2 & He2 & Hf2 & Hm2); [exact (DkVerification verification Hw2)|reflexivity|exact Hm1|change (cl_seq c + 1 + 1 < two64); lia|exact Hb2|by rewrite He1, Hf1|exact Hd2|exact Hs2|].
  unfold client_verification. rewrite Hr2. eexists _, v2. split; [reflexivity|]. split; [exact Hin|]. split; [exact He2|]. split; [exact Hf2|exact Hm2].
Qed.
