(* ===== verification/Fabricd.v ===== *)
(** * The coordinator daemon

    The main program of lff-fabricd (tools/lff-fabricd.cpp): from a command line to the
    options of the engine and of the service, opening both, and closing the engine. The
    watcher thread is a loop over what it observes; signals, the delay between
    observations and the listener's descriptor are not modelled. *)
From S2P Require Import Prelude Status Hash Ids Bytes Evidence Policy Authority Attempt Decision.
From S2P Require Import Selector Fs Journal State Store Intake Engine EngineLogic EngineSafety.
From S2P Require Import Image Progress Durable Restart Wire Server Client Tool Process.

Definition fabricd_usage_text : string := foldr (fun l rest => (line_of l +:+ rest)%string) EmptyString [
  "usage: lff-fabricd --state=DIR [options]";
  "";
  "  --state=DIR                 durable lineage directory (required)";
  "  --fabric=NAME               fabric name (default: synthetic-fabric)";
  "  --listen=HOST:PORT          listen endpoint (default: 127.0.0.1:0)";
  "  --topology-file=PATH        topology definition file";
  "  --policy-file=PATH          policy definition file";
  "  --topology-generation=N     generation for a generated topology";
  "  --link=NAME:GEN:CAPACITY    add one generated topology link (repeatable via comma)";
  "  --max-sessions=N            concurrent session bound (default 64)";
  "  --max-frame=N               maximum frame payload in bytes (default 262144)";
  "  --snapshot-every=N          snapshot every N lineage records (default 1024)";
  "  --no-snapshot               disable snapshot compaction";
  "  --strict-tail               refuse a torn journal tail instead of repairing it";
  "  --ready-file=PATH           write host/port/epoch once the service is listening";
  "  --exit-after=N              stop after N handled requests (0 = never)"]%string.

(** ** The options *)
Fixpoint csv_loop (text current : string) : list string :=
  match text with
  | EmptyString => if string_empty current then [] else [current]
  | String ch rest =>
      if Ascii.eqb ch ","%char
      then (if string_empty current then [] else [current]) ++ csv_loop rest EmptyString
      else csv_loop rest (current +:+ String ch EmptyString)%string
  end.
Definition split_csv (text : string) : list string := csv_loop text EmptyString.
Fixpoint colon_loop (text current : string) : list string :=
  match text with
  | EmptyString => [current]
  | String ch rest =>
      if Ascii.eqb ch ":"%char then current :: colon_loop rest EmptyString
      else colon_loop rest (current +:+ String ch EmptyString)%string
  end.
Definition split_colon (text : string) : list string := colon_loop text EmptyString.
Definition parse_decimal : string -> option Z := parse_u64.

(** One NAME:GEN:CAPACITY; a refusal is the message on the standard error. *)
Definition link_spec (fabric spec : string) : string + LinkDefinition :=
  match split_colon spec with
  | [name; generation; capacity] =>
      match name_parse name with
      | Failure _ => inl "invalid link name"%string
      | Success link =>
          let refused := inl "link generation and capacity must be decimal and in range"%string in
          match parse_decimal generation, parse_decimal capacity with
          | Some generation, Some capacity =>
              if ((generation =? 0) || (capacity >? 4294967295))%bool then refused
              else inr (MkLink (MkLinkKey fabric link) generation capacity)
          | _, _ => refused
          end
      end
  | _ => inl "link specification must be NAME:GEN:CAPACITY"%string
  end.
Fixpoint link_specs (fabric : string) (specs : list string) : string + list LinkDefinition :=
  match specs with
  | [] => inr []
  | spec :: rest =>
      match link_spec fabric spec with
      | inl message => inl message
      | inr d => match link_specs fabric rest with inl message => inl message | inr ds => inr (d :: ds) end
      end
  end.

(** The members an option leaves at their defaults. *)
Definition engine_limits_default : EngineLimits :=
  MkLimits 512 8192 (Z.to_nat 4096) (Z.to_nat 8192) (Z.to_nat 8192) (Z.to_nat 4096) (Z.to_nat 256) kMaxPolicyCandidates.

Record FabricConfig := MkFabric {
  fc_options : EngineOptions;
  fc_server : ServerOptions;
  fc_exit_after : Z;
  fc_ready_file : option string;
}.
(** A run that ends before the service: the exit code and the standard error. *)
Definition Refusal : Type := Z * string.
Definition usage_error {A} (message : string) : Refusal + A := inl (kExitUsage, line_of message).

Definition fabricd_policy (args : Arguments) : IoM (Refusal + FailoverPolicy) :=
  let policy := set_fp_generation 1 policy_defaults in
  if arguments_has args "policy-file"
  then
    io* text := read_text_file (arguments_get args "policy-file" "") in
    ioret (match text with
           | Failure s => usage_error ("cannot read policy: " +:+ status_to_string s)
           | Success text =>
               match failover_policy_parse text policy with
               | None => usage_error "policy file is malformed"
               | Some policy => inr policy
               end
           end)
  else ioret (inr policy).
Definition fabricd_topology (fabric : string) (args : Arguments) : IoM (Refusal + TopologySnapshot) :=
  if arguments_has args "topology-file"
  then
    io* text := read_text_file (arguments_get args "topology-file" "") in
    ioret (match text with
           | Failure s => usage_error ("cannot read topology: " +:+ status_to_string s)
           | Success text =>
               match parse_topology text fabric with
               | Failure s => usage_error ("topology file is malformed: " +:+ status_to_string s)
               | Success topology => inr topology
               end
           end)
  else if arguments_has args "link"
  then ioret (match arguments_get_u64 args "topology-generation" 1 with
       | Failure _ => usage_error "invalid topology generation"
       | Success generation =>
           match link_specs fabric (split_csv (arguments_get args "link" "")) with
           | inl message => usage_error message
           | inr links => inr (topology_canonicalise (MkTopology generation links))
           end
       end)
  else ioret (inr (MkTopology 1 [])).

Definition fabricd_configure (args : Arguments) : IoM (Refusal + FabricConfig) :=
  let state := arguments_get args "state" "" in
  if string_empty state then ioret (inl (kExitUsage, fabricd_usage_text))
  else match name_parse (arguments_get args "fabric" "synthetic-fabric") with
  | Failure s => ioret (usage_error ("invalid fabric name: " +:+ status_to_string s))
  | Success fabric =>
  match endpoint_parse (arguments_get args "listen" "127.0.0.1:0") with
  | Failure s => ioret (usage_error ("invalid listen endpoint: " +:+ status_to_string s))
  | Success endpoint =>
  match arguments_get_u64 args "max-sessions" 64, arguments_get_u64 args "max-frame" 262144,
        arguments_get_u64 args "snapshot-every" 1024, arguments_get_u64 args "exit-after" 0,
        arguments_get_bool args "no-snapshot" false, arguments_get_bool args "strict-tail" false with
  | Success max_sessions, Success max_frame, Success snapshot_every, Success exit_after,
    Success no_snapshot, Success strict_tail =>
      io* policy := fabricd_policy args in
      match policy with
      | inl refusal => ioret (inl refusal)
      | inr policy =>
          io* topology := fabricd_topology fabric args in
          match topology with
          | inl refusal => ioret (inl refusal)
          | inr topology => ioret (inr (MkFabric
              (MkEngineOptions fabric policy topology state engine_limits_default snapshot_every
                 (negb no_snapshot) (negb strict_tail))
              (MkServerOptions endpoint true max_sessions max_frame 32 true) exit_after
              (if arguments_has args "ready-file" then Some (arguments_get args "ready-file" "") else None)))
          end
      end
  | _, _, _, _, _, _ => ioret (usage_error "numeric option error")
  end
  end
  end.
Definition fabricd_prepare (argv : list string) : IoM (Refusal + FabricConfig) :=
  match arguments_parse argv with
  | Failure s => ioret (usage_error ("argument error: " +:+ status_to_string s))
  | Success args => fabricd_configure args
  end.

(** ** Opening *)
Section daemon.
(** The process: its incarnation, its build, and how the listener is created, with the
    endpoint it was bound to. *)
Context (incarnation : Incarnation) (toolchain architecture : string) (fault_injection : bool).
Context (listen : Endpoint -> Z -> option Status) (bound : Endpoint -> Endpoint).

Definition ready_lines (endpoint : Endpoint) (im : EngineImpl) : string := print_all [
  print_line "endpoint" (endpoint_to_string endpoint);
  print_line "host" (ep_host endpoint);
  print_line "port" (decimal_text (ep_port endpoint));
  print_line "epoch" (decimal_text (im_epoch im));
  print_line "coordinator" (incarnation_hex (im_incarnation im));
  print_line "fault_injection" (if fault_injection then "enabled" else "disabled")].
Definition stdout_lines (endpoint : Endpoint) (im : EngineImpl) : string := print_all [
  print_line "endpoint" (endpoint_to_string endpoint);
  print_line "epoch" (decimal_text (im_epoch im));
  print_line "coordinator" (incarnation_hex (im_incarnation im))].

(** A running service with what was printed, or the end of the program. *)
Definition fabricd_open (config : FabricConfig) : IoM (Refusal + ServerImpl * string) :=
  io* engine := engine_open (fc_options config) incarnation toolchain architecture in
  match engine with
  | Failure s => ioret (inl (kExitTransport, line_of ("engine open failed: " +:+ status_to_string s)))
  | Success im =>
      match server_start listen (fc_server config) im with
      | Failure s => ioret (inl (kExitTransport, line_of ("listen failed: " +:+ status_to_string s)))
      | Success server =>
          let endpoint := bound (vo_endpoint (fc_server config)) in
          match fc_ready_file config with
          | Some path =>
              io* written := write_file_atomic path (bytes_of_string (ready_lines endpoint im)) in
              ioret (if negb (status_ok written)
                     then inl (kExitTransport, line_of ("cannot write ready file: " +:+ status_to_string written))
                     else inr (server, ""%string))
          | None => ioret (inr (server, stdout_lines endpoint im))
          end
      end
  end.
Definition fabricd_start (argv : list string) : IoM (Refusal + FabricConfig * ServerImpl * string) :=
  io* config := fabricd_prepare argv in
  match config with
  | inl refusal => ioret (inl refusal)
  | inr config =>
      io* started := fabricd_open config in
      ioret (match started with inl refusal => inl refusal | inr (server, out) => inr (config, server, out) end)
  end.
End daemon.

(** After the service: the exit code and the standard error. *)
Definition fabricd_finish (server : ServerImpl) : IoM Refusal :=
  io* closed := engine_close (sv_engine server) in
  ioret (if negb (status_ok closed.1)
         then (kExitTransport, line_of ("engine close failed: " +:+ status_to_string closed.1))
         else (kExitOk, ""%string)).

(** The whole program. [run] is the service until it has stopped: what its threads do to
    the server and the medium. *)
Definition handle_signal (stop_requested : bool) : bool := true.
Definition fabricd_main (incarnation : Incarnation) (toolchain architecture : string) (fault_injection : bool)
    (listen : Endpoint -> Z -> option Status) (bound : Endpoint -> Endpoint)
    (run : ServerImpl -> IoM ServerImpl) (argv : list string) : IoM (Z * string * string) :=
  io* started := fabricd_start incarnation toolchain architecture fault_injection listen bound argv in
  match started with
  | inl (code, err) => ioret (code, EmptyString, err)
  | inr (_, server, out) =>
      io* server := run server in
      io* ended := fabricd_finish server in
      ioret (ended.1, out, ended.2)
  end.

(** ** The watcher *)
(** What the watcher thread sees each time it looks: whether a stop was requested, and
    how many requests were handled. It answers whether it shut the service down, or
    [None] while it still watches. *)
Fixpoint watch_budget (budget : Z) (seen : list (bool * Z)) : option bool :=
  match seen with
  | [] => None
  | (stop_requested, handled) :: rest =>
      if negb stop_requested
      then if handled >=? budget then Some true else watch_budget budget rest
      else Some false
  end.
Fixpoint watch_signal (seen : list (bool * Z)) : option bool :=
  match seen with
  | [] => None
  | (stop_requested, _) :: rest => if negb stop_requested then watch_signal rest else Some true
  end.
Definition fabricd_watcher (config : FabricConfig) (seen : list (bool * Z)) : option bool :=
  if fc_exit_after config >? 0 then watch_budget (fc_exit_after config) seen else watch_signal seen.

(** ** What a daemon guarantees *)
Section guarantees.
Context (send_all : SessionState -> bytes -> Status).
(** One step of the service that is not a revalidation the engine executes. *)
Inductive service_step : World -> World -> Prop :=
  | SvFrame key h payload w : fh_type h <> MessageType.ResolveInterrupted ->
      service_step w (handle_frame send_all key h payload w)
  | SvOther n w w' : server_step send_all n w w' -> sv_engine w'.1 = sv_engine w.1 -> service_step w w'.

Lemma service_keeps_inv w w' : rtc service_step w w' -> engine_inv (sv_engine w.1) -> engine_inv (sv_engine w'.1).
Proof.
  induction 1 as [w|w1 w2 w3 Hs _ IH]; [done|]. intros Hi. apply IH.
  destruct Hs as [key h payload w Ht|n w w' _ E]; [|by rewrite E].
  eapply frame_effect_engine_inv; [apply handle_frame_effect|exact Ht|exact Hi].
Qed.

(** the daemon as a whole. On an empty directory, or one a coordinator left behind, a
    daemon that comes up serves a valid policy and topology under an epoch that is new
    to the directory, with no authority left over; and
    whatever its threads then interleave, but for a revalidation, at most one attempt
    holds current authority per subject generation. *)
Theorem daemon_keeps_single_winner incarnation toolchain architecture injection listen bound config fs server out fs1 w :
  fabricd_open incarnation toolchain architecture injection listen bound config fs = (inr (server, out), fs1) ->
  options_typed (store_options_of (fc_options config)) -> openable (store_options_of (fc_options config)) fs ->
  rtc service_step (server, fs1) w ->
  policy_ok (eo_policy (fc_options config)) /\ topology_ok (eo_topology (fc_options config)) /\
  (exists s fs2, store_open (store_options_of (fc_options config)) fs = (Success s, fs2) /\
     im_epoch (sv_engine server) = ds_epoch (sm_state s) + 1) /\
  (forall subject generation, active_authority (engine_state (sv_engine server)) subject generation = None) /\
  engine_inv (sv_engine w.1) /\
  forall subject generation a b, let st := engine_state (sv_engine w.1) in
    a ∈ ds_attempts st -> b ∈ ds_attempts st ->
    live_authority st subject generation a = true -> live_authority st subject generation b = true -> a = b.
Proof.
  unfold fabricd_open, iobind at 1. destruct (engine_open _ _ _ _ fs) as [[im|e] fs0] eqn:Eo; [|done].
  destruct (server_start listen (fc_server config) im) as [s0|e] eqn:Es; [|done].
  intros E Hty Hop Hw. assert (server = s0 /\ sv_engine s0 = im) as [-> Him].
  { split.
    - revert E. cbv zeta. destruct (fc_ready_file config); [|by intros [= -> _ _]].
      unfold iobind. destruct (write_file_atomic _ _ _) as [written fs']. cbn. destruct (status_ok written); [by intros [= -> _ _]|done].
    - revert Es. unfold server_start. destruct (start_refused _); [done|]. destruct (listen _ _); [done|]. by intros [= <-]. }
  assert (Hv : open_refused (fc_options config) = None).
  { revert Eo. unfold engine_open. by destruct (open_refused _). }
  destruct (engine_open_inv _ _ _ _ _ _ _ Hty Hop Eo) as (Hi & (s & fs2 & Hopen & Hep) & Hnone).
  unfold open_refused in Hv. cbv zeta in Hv.
  destruct (status_ok (policy_validate _)) eqn:Hp; [|done]. destruct (status_ok (topology_validate _)) eqn:Ht; [|done].
  assert (Hinv : engine_inv (sv_engine w.1)) by (apply (service_keeps_inv _ _ Hw); cbn; by rewrite Him).
  split; [by apply policy_validate_iff|]. split; [by apply topology_validate_iff|].
  split; [exists s, fs2; split; [exact Hopen|by rewrite Him]|]. split; [by rewrite Him|]. split; [exact Hinv|].
  intros subject generation a b Ha Hb' La Lb. exact (en_winner _ Hinv subject generation a b Ha Hb' La Lb).
Qed.
End guarantees.

(** ** The watcher *)
(** A daemon with a request budget shuts its service down exactly when it sees the
    budget used up before it sees a stop: a stop request makes the watcher leave
    without a shutdown, and the service goes on. *)
Lemma watch_budget_iff budget seen :
  (watch_budget budget seen = Some true <->
   exists before n after, seen = before ++ (false, n) :: after /\ budget <= n /\
     Forall (fun o => o.1 = false /\ o.2 < budget) before) /\
  (watch_budget budget seen = Some false <->
   exists before n after, seen = before ++ (true, n) :: after /\
     Forall (fun o => o.1 = false /\ o.2 < budget) before).
Proof.
  induction seen as [|[stop n] seen [IH1 IH2]]; cbn [watch_budget].
  { split; (split; [done|]). all: by intros ([] & n & after & [=] & _). }
  destruct stop; cbn [negb].
  - split; (split; [try done|]).
    + intros ([|o before] & m & after & [=] & _ & Hf). subst. by apply Forall_cons in Hf as [[? _] _].
    + intros _. by exists [], n, seen.
    + done.
  - destruct (Z.geb_spec n budget) as [Hn|Hn].
    + split; (split; [try done|]).
      * intros _. exists [], n, seen. split; [done|]. split; [lia|constructor].
      * done.
      * intros ([|o before] & m & after & [=] & Hf). subst. apply Forall_cons in Hf as [[_ ?] _]. cbn in *. lia.
    + rewrite IH1, IH2. split.
      * split.
        -- intros (before & m & after & -> & Hm & Hf). exists ((false, n) :: before), m, after. split; [done|].
           split; [done|]. by constructor.
        -- intros ([|o before] & m & after & [=] & Hm & Hf); [lia|]. subst.
           apply Forall_cons in Hf as [_ Hf]. by exists before, m, after.
      * split.
        -- intros (before & m & after & -> & Hf). exists ((false, n) :: before), m, after. split; [done|]. by constructor.
        -- intros ([|o before] & m & after & [=] & Hf). subst.
           apply Forall_cons in Hf as [_ Hf]. by exists before, m, after.
Qed.
Lemma stop_ignored_with_budget config seen : 0 < fc_exit_after config ->
  fabricd_watcher config ((true, 0) :: seen) = Some false /\ watch_signal ((true, 0) :: seen) = Some true.
Proof. intros H. unfold fabricd_watcher. rewrite Z.gtb_ltb, (proj2 (Z.ltb_lt _ _)) by done. done. Qed.
