(* ===== verification/Daemon.v ===== *)
(** * The daemon from its command line

    Whatever the arguments, the policy file and the topology file of lff-fabricd say, the
    options it opens its engine with are well typed: the parsers check what they read.
    So a daemon that comes up begins a life, or goes on with the one its directory
    holds, and its peers can only have it go on. *)
From S2P Require Import Prelude Status Hash Ids Bytes Evidence Policy Authority Attempt Decision.
From S2P Require Import Selector Fs Journal State Store Intake Engine EngineLogic EngineSafety.
From S2P Require Import Image Progress Durable Restart Wire Server Typed Served Client Tool Process Fabricd.

(** ** What the parsers accept *)
Lemma parse_bounded_range bound value n : parse_bounded bound value = Some n -> 0 <= n <= bound.
Proof.
  unfold parse_bounded. destruct (parse_u64 value) as [m|] eqn:E; [|done]. cbn. apply parse_u64_range in E.
  destruct (Z.gtb_spec m bound); [done|]. intros [= <-]. ints.
Qed.

Lemma policy_assign_wf p key value p' : policy_assign p key value = Some p' -> policy_wf p -> policy_wf p'.
Proof.
  unfold policy_assign. intros H (P1 & P2 & P3 & P4 & P5 & P6 & P7 & P8).
  repeat match type of H with
  | (if key_is _ _ then _ else _) = _ => destruct (key_is _ _)
  | (_ ≫= _) = _ => apply bind_Some in H as (n & Hn & [= <-])
  end; try done.
  all: first [apply parse_u64_range in Hn|apply parse_bounded_range in Hn; unfold kMaxConfidence in Hn|idtac].
  all: unfold policy_wf; cbn; split_and!; try done; ints.
Qed.
Lemma policy_parse_line_wf p line p' : policy_parse_line p line = Some p' -> policy_wf p -> policy_wf p'.
Proof.
  unfold policy_parse_line. destruct (trim line); [by intros [= <-]|]. case_if; [by intros [= <-]|].
  destruct (lsplit _ _) as [[k v]|]; [|done]. apply policy_assign_wf.
Qed.
Lemma policy_parse_wf text p p' : failover_policy_parse text p = Some p' -> policy_wf p -> policy_wf p'.
Proof.
  unfold failover_policy_parse. revert p. induction (split_lines text) as [|line lines IH]; intros p; cbn [policy_parse_lines].
  { by intros [= <-]. }
  intros (p1 & H1 & H2)%bind_Some Hp. eapply IH; [exact H2|]. by eapply policy_parse_line_wf.
Qed.

Lemma link_spec_listed fabric spec d : link_spec fabric spec = inr d -> listed fabric d.
Proof.
  unfold link_spec, name_parse, parse_decimal. destruct (split_colon spec) as [|n [|g [|c [|]]]]; try done.
  destruct (is_valid_name n) eqn:En; [|done]. cbn [negb].
  destruct (parse_u64 g) as [gv|] eqn:Eg; [|done]. destruct (parse_u64 c) as [cv|] eqn:Ec; [|done].
  apply parse_u64_range in Eg, Ec. destruct (_ || _)%bool eqn:E; [done|]. intros [= <-]. bool_prop.
  repeat split; try done; cbn; ints.
Qed.
Lemma link_specs_listed fabric specs ds : link_specs fabric specs = inr ds -> Forall (listed fabric) ds.
Proof.
  revert ds. induction specs as [|spec specs IH]; intros ds; cbn [link_specs]; [by intros [= <-]|].
  destruct (link_spec fabric spec) as [|d] eqn:Ed; [done|]. destruct (link_specs fabric specs) as [|ds'] eqn:Es; [done|].
  intros [= <-]. constructor; [by eapply link_spec_listed|by apply IH].
Qed.

Lemma listed_topology_wf fabric t : is_valid_name fabric = true -> topology_listed fabric t -> topology_ok t -> topology_wf t.
Proof.
  intros Hf [Hg Hl] Hok. split; [done|]. split; [by apply topology_ok_bound|]. eapply Forall_impl; [exact Hl|].
  intros d (Ef & Hn & H1 & H2). split; [right; by rewrite Ef|]. split; [by right|done].
Qed.

Lemma fabricd_policy_wf args fs p fs' : fabricd_policy args fs = (inr p, fs') -> policy_wf p.
Proof.
  unfold fabricd_policy. cbv zeta. destruct (arguments_has _ _); [|by intros [= <- _]; vm_compute].
  unfold iobind. destruct (read_text_file _ fs) as [[text|e] fs1]; cbn; [|done].
  destruct (failover_policy_parse _ _) as [p1|] eqn:E; [|done]. intros [= <- _].
  eapply policy_parse_wf; [exact E|]. by vm_compute.
Qed.
Lemma fabricd_topology_listed fabric args fs t fs' : fabricd_topology fabric args fs = (inr t, fs') -> topology_listed fabric t.
Proof.
  unfold fabricd_topology. destruct (arguments_has args "topology-file").
  { unfold iobind. destruct (read_text_file _ fs) as [[text|e] fs1]; cbn; [|done].
    destruct (parse_topology _ _) as [t1|] eqn:E; [|done]. intros [= <- _]. by apply parse_topology_sound in E as [_ H]. }
  destruct (arguments_has args "link"); [|intros [= <- _]; split; [cbn; ints|constructor]].
  destruct (arguments_get_u64 _ _ _) as [g|] eqn:Eg; [|done].
  destruct (link_specs _ _) as [|ds] eqn:Ed; [done|]. intros [= <- _]. split.
  - cbn. unfold arguments_get_u64 in Eg. destruct (ag_options args !! _) as [text|]; [|injection Eg as <-; ints].
    destruct (parse_u64 text) as [n|] eqn:En; [|done]. injection Eg as <-. by eapply parse_u64_range.
  - unfold topology_canonicalise. cbn [ts_links]. rewrite (std_sort_perm link_definition_less). by eapply link_specs_listed.
Qed.

(** Every configuration the command line yields, if the engine does not refuse it, is
    well typed. *)
Lemma fabricd_configure_typed args fs config fs' : fabricd_configure args fs = (inr config, fs') ->
  open_refused (fc_options config) = None -> options_typed (store_options_of (fc_options config)).
Proof.
  unfold fabricd_configure. cbv zeta. destruct (string_empty (arguments_get args "state" "")) eqn:Es; [done|].
  unfold name_parse. destruct (is_valid_name _) eqn:En; cbn [negb]; [|done].
  destruct (endpoint_parse _) as [endpoint|]; [|done]. do 6 (case_match; [|done]).
  unfold iobind. destruct (fabricd_policy args fs) as [[|p] fs1] eqn:Ep; [done|].
  destruct (fabricd_topology _ args fs1) as [[|t] fs2] eqn:Et; [done|]. intros [= <- _] Hr.
  apply fabricd_policy_wf in Ep. apply fabricd_topology_listed in Et. unfold open_refused in Hr. cbv zeta in Hr.
  cbn [fc_options eo_policy eo_topology] in Hr.
  destruct (status_ok (policy_validate p)) eqn:Hp; [|done]. destruct (status_ok (topology_validate t)) eqn:Ht; [|done].
  split; [done|done|done|]. split; [|done]. eapply listed_topology_wf; [exact En|done|by apply topology_validate_iff].
Qed.

(** ** Reading the command line leaves a quiet medium as it is *)
Lemma openable_calm so fs : openable so fs -> fs_calm fs.
Proof. by intros []. Qed.

Lemma read_text_calm path fs : fs_calm fs -> (read_text_file path fs).2 = fs.
Proof.
  intros Hc. unfold read_text_file, fopen_existing, iobind. rewrite io_call_calm by done. cbn.
  by destruct (fs_files fs !! path).
Qed.
Lemma fabricd_prepare_calm argv fs : fs_calm fs -> (fabricd_prepare argv fs).2 = fs.
Proof.
  intros Hc. unfold fabricd_prepare. destruct (arguments_parse argv) as [args|]; [|done].
  assert (Hp : (fabricd_policy args fs).2 = fs).
  { unfold fabricd_policy. cbv zeta. destruct (arguments_has _ _); [|done]. unfold iobind.
    pose proof (read_text_calm (arguments_get args "policy-file" "") fs Hc) as H.
    destruct (read_text_file _ fs) as [r fs1]. cbn in *. by subst fs1. }
  assert (Ht : forall fabric, (fabricd_topology fabric args fs).2 = fs).
  { intros fabric. unfold fabricd_topology. destruct (arguments_has args "topology-file"); [|by destruct (arguments_has args "link")].
    unfold iobind. pose proof (read_text_calm (arguments_get args "topology-file" "") fs Hc) as H.
    destruct (read_text_file _ fs) as [r fs1]. cbn in *. by subst fs1. }
  unfold fabricd_configure. cbv zeta. destruct (string_empty _); [done|]. destruct (name_parse _) as [fabric|]; [|done].
  destruct (endpoint_parse _); [|done]. do 6 (case_match; [|done]). unfold iobind.
  destruct (fabricd_policy args fs) as [[r|p] fs1]; cbn in Hp; subst fs1; [done|].
  specialize (Ht fabric). by destruct (fabricd_topology fabric args fs) as [[r|t] fs1]; cbn in Ht; subst fs1.
Qed.

(** ** From the command line to the peers *)
(** The readiness file is none of the files of the lineage. *)
Definition spares (so : StoreOptions) (path : string) : Prop :=
  forall p, p ∈ [snapshot_path so; journal_path so] -> p <> path /\ p <> (path +:+ ".tmp")%string.

Lemma write_file_atomic_spares so path data fs s fs' : spares so path ->
  write_file_atomic path data fs = (s, fs') -> same_lineage_files so fs fs'.
Proof.
  intros Hsp E. apply write_file_atomic_cases in E as (_ & _ & H).
  split; apply H; apply Hsp; repeat constructor.
Qed.

Section guarantees.
Context (incarnation : Incarnation) (toolchain architecture : string) (fault_injection : bool).
Context (listen : Endpoint -> Z -> option Status) (bound : Endpoint -> Endpoint).

(** What a start that succeeds has done. *)
Lemma fabricd_start_run argv fs config server out fs1 : fs_calm fs ->
  fabricd_start incarnation toolchain architecture fault_injection listen bound argv fs = (inr (config, server, out), fs1) ->
  fabricd_open incarnation toolchain architecture fault_injection listen bound config fs = (inr (server, out), fs1) /\
  exists args fs0, fabricd_configure args fs = (inr config, fs0).
Proof.
  intros Hc. unfold fabricd_start, iobind. pose proof (fabricd_prepare_calm argv fs Hc) as Hp.
  destruct (fabricd_prepare argv fs) as [[r|c] fs0] eqn:E; cbn in Hp; subst fs0; [done|].
  destruct (fabricd_open _ _ _ _ _ _ c fs) as [[r|[s t]] fs2] eqn:Eo; [done|]. intros [= <- <- <- <-]. split; [done|].
  unfold fabricd_prepare in E. destruct (arguments_parse argv) as [args|]; [|done]. by exists args, fs.
Qed.

Lemma fabricd_open_run config fs server out fs1 :
  fabricd_open incarnation toolchain architecture fault_injection listen bound config fs = (inr (server, out), fs1) ->
  exists fs0, engine_open (fc_options config) incarnation toolchain architecture fs = (Success (sv_engine server), fs0) /\
    ((forall path, fc_ready_file config = Some path -> spares (store_options_of (fc_options config)) path) ->
     same_lineage_files (store_options_of (fc_options config)) fs0 fs1).
Proof.
  unfold fabricd_open, iobind at 1. destruct (engine_open _ _ _ _ fs) as [[im|e] fs0] eqn:Eo; [|done].
  destruct (server_start listen (fc_server config) im) as [s0|e] eqn:Es; [|done].
  assert (Him : sv_engine s0 = im).
  { revert Es. unfold server_start. destruct (start_refused _); [done|]. destruct (listen _ _); [done|]. by intros [= <-]. }
  cbv zeta. destruct (fc_ready_file config) as [path|].
  - unfold iobind. destruct (write_file_atomic _ _ _) as [written fs'] eqn:Ew. cbn [ioret].
    destruct (status_ok written); [|done]. cbn [negb]. intros [= <- _ <-]. exists fs0. rewrite Him. split; [done|].
    intros Hsp. eapply write_file_atomic_spares; [by apply Hsp|exact Ew].
  - intros [= <- _ <-]. exists fs0. by rewrite Him.
Qed.

(** C19: the daemon from its command line. Whatever the arguments and the files they name
    say, but for a ready-file that names a file of the lineage: on an empty directory, or
    one a coordinator left behind with its attempts within the limit of the table, a
    daemon that comes up serves a valid policy and topology under an epoch that is new to the directory, with
    no authority left over. Whatever octets its peers then send, it goes on with the life
    of the directory, everything it holds staying well typed; and whatever frames its
    threads interleave, but for a revalidation, at most one attempt holds current
    authority per subject generation. *)
Theorem daemon_from_command_line send_all argv fs config server out fs1
    (o := fc_options config) (so := store_options_of o) :
  fabricd_start incarnation toolchain architecture fault_injection listen bound argv fs = (inr (config, server, out), fs1) ->
  build_typed incarnation toolchain architecture -> openable so fs -> table_fits o fs ->
  (forall path, fc_ready_file config = Some path -> spares so path) ->
  policy_ok (eo_policy o) /\ topology_ok (eo_topology o) /\
  (exists s fs2, store_open so fs = (Success s, fs2) /\ im_epoch (sv_engine server) = ds_epoch (sm_state s) + 1) /\
  (forall subject generation, active_authority (engine_state (sv_engine server)) subject generation = None) /\
  (forall w, rtc (peer_step send_all) (server, fs1) w -> lives o (sv_engine w.1) w.2 /\ engine_typed (sv_engine w.1)) /\
  (forall w, rtc (service_step send_all) (server, fs1) w -> single_winner (engine_state (sv_engine w.1))).
Proof.
  intros E Hb Hop Hfit Hsp. destruct (fabricd_start_run _ _ _ _ _ _ (openable_calm _ _ Hop) E) as (Eo & args & fs0 & Ec).
  destruct (fabricd_open_run _ _ _ _ _ Eo) as (fs2 & Ee & Hfs).
  assert (Hr : open_refused o = None) by (unfold engine_open in Ee; fold o in Ee; by destruct (open_refused o)).
  pose proof (fabricd_configure_typed _ _ _ _ Ec Hr) as Ho. fold o so in Ho.
  destruct (daemon_keeps_single_winner send_all _ _ _ _ _ _ _ _ _ _ _ _ Eo Ho Hop (rtc_refl _ _)) as (Hp & Ht & He & Hn & _).
  split; [exact Hp|]. split; [exact Ht|]. split; [exact He|]. split; [exact Hn|].
  assert (Hl : lives o (sv_engine server) fs1).
  { eapply LivesMedium; [by eapply LivesOpened|]. by apply Hfs. }
  split.
  - intros w Hw. pose proof (peers_lives send_all o _ _ Ho Hw Hl) as Hl'. split; [exact Hl'|].
    by destruct (lives_typed o _ _ Ho Hl').
  - intros w Hw. destruct (daemon_keeps_single_winner send_all _ _ _ _ _ _ _ _ _ _ _ _ Eo Ho Hop Hw) as (_ & _ & _ & _ & Hi & _).
    by apply en_winner.
Qed.
End guarantees.
