(* ===== verification/Embed.v ===== *)
(** * Programs that embed the engine

    The example (examples/minimal_failover.cpp) and the consumer of the installed package
    (consumer/main.cpp): one process that opens an engine on a directory it has cleared,
    reports a failure and an alternate, asks for the failover, and closes; the example
    also applies and verifies it. Their publisher's incarnation, the build texts and the
    directory for temporary files are arguments. *)
From S2P Require Import Prelude Status Hash Ids Bytes Evidence Policy Authority Attempt Decision.
From S2P Require Import Selector Fs Journal State Store Intake Engine EngineLogic EngineSafety.
From S2P Require Import Image Progress Durable Restart Wire Server Client Tool Process Fabricd.

(** ** version.hpp, version.cpp *)
Definition kVersionMajor : Z := 1.
Definition kVersionMinor : Z := 0.
Definition kVersionPatch : Z := 0.
Definition kVersionString : string := "1.0.0".
(** The macros the compiler predefines. *)
Record Predefined := MkPredefined {
  pd_MSC_VER : bool; pd_clang : bool; pd_GNUC : bool;
  pd_M_X64 : bool; pd_x86_64 : bool; pd_M_IX86 : bool; pd_i386 : bool; pd_M_ARM64 : bool; pd_aarch64 : bool;
}.
Definition build_toolchain (m : Predefined) : string :=
  if pd_MSC_VER m then "msvc" else if pd_clang m then "clang" else if pd_GNUC m then "gcc" else "unknown".
Definition build_architecture (m : Predefined) : string :=
  if (pd_M_X64 m || pd_x86_64 m)%bool then "x86_64"
  else if (pd_M_IX86 m || pd_i386 m)%bool then "x86"
  else if (pd_M_ARM64 m || pd_aarch64 m)%bool then "aarch64"
  else "unknown".

Lemma version_string : kVersionString =
  (decimal_text kVersionMajor +:+ "." +:+ decimal_text kVersionMinor +:+ "." +:+ decimal_text kVersionPatch)%string.
Proof. reflexivity. Qed.
(** Whatever it is built with, the boot record can be written. *)
Lemma build_texts_typed m incarnation : incarnation_wf incarnation ->
  build_typed incarnation (build_toolchain m) (build_architecture m).
Proof. intros H. split; [done|]. unfold build_toolchain, build_architecture, text_wf. split; repeat case_match; cbn; lia. Qed.

(** ** std::filesystem::remove_all *)
(** Everything at and below a path goes. When a removal fails, after any number of
    files, what is left stays, and the error is ignored. *)
Definition below (dir path : string) : bool := (String.eqb path dir || String.prefix (dir +:+ "/") path)%bool.
Definition remove_all (dir : string) : IoM unit :=
  io* outcome := io_outcome in
  fun fs =>
    let inside := List.filter (fun p : string => below dir p) (map_to_list (fs_files fs)).*1 in
    match outcome with
    | None => (tt, MkFs (foldr delete (fs_files fs) inside)
                     (filter (fun p : string => below dir p = false) (fs_dirs fs)) (fs_faults fs))
    | Some (n, _) => (tt, set_files (foldr delete (fs_files fs) (take n inside)) fs)
    end.

(** The exit code, the standard output and the standard error. *)
Definition Outputs : Type := Z * string * string.

Section programs.
Context (incarnation publisher : Incarnation) (toolchain architecture : string) (temporary : string).
Definition state_dir (argv : list string) (fallback : string) : string :=
  match argv with dir :: _ => dir | [] => (temporary +:+ "/" +:+ fallback)%string end.
Definition named (text : string) : string := default EmptyString (result_value (name_parse text)).

(** ** examples/minimal_failover.cpp *)
Definition minimal_failure_report (fabric : string) (sequence : Z) : FailureReport :=
  MkFailureReport (MkLinkKey fabric (named "uplink-a")) 2 1 ObservationState.Down (make_confidence 990)
    (MkStamp (named "synthetic-monitor") publisher 1 sequence 0).
Definition minimal_replacement_report (fabric : string) (sequence : Z) : ReplacementReport :=
  MkReplacementReport (MkLinkKey fabric (named "uplink-b")) 5 1 ObservationState.Up (make_confidence 980)
    40000 7 true 0 (MkStamp (named "synthetic-monitor") publisher 1 sequence 0).
Definition minimal_options (fabric dir : string) : EngineOptions :=
  MkEngineOptions fabric
    (set_fp_min_replacement_capacity 1000 (set_fp_generation 1 policy_defaults))
    (topology_canonicalise (MkTopology 1 [MkLink (MkLinkKey fabric (named "uplink-a")) 2 10000;
                                          MkLink (MkLinkKey fabric (named "uplink-b")) 5 40000]))
    dir engine_limits_default 1024 true true.
Definition minimal_request (fabric : string) : FailoverRequest :=
  MkFailoverRequest (MkLinkKey fabric (named "uplink-a")) 2 [MkCandidate (MkLinkKey fabric (named "uplink-b")) 0]
    expectation_none digest_zero.
Definition minimal_application (fabric : string) (im : EngineImpl) (granted : FailoverDecision) : ApplicationReport :=
  let q := minimal_request fabric in
  MkApplicationReport (fq_subject q) (fq_subject_generation q) (fd_attempt_seq granted)
    (compute_attempt_id fabric (fq_subject q) (fq_subject_generation q) (fd_attempt_seq granted))
    publisher (im_epoch im) true "synthetic applier".
Definition minimal_verification (fabric : string) (im : EngineImpl) (granted : FailoverDecision) : VerificationReport :=
  let q := minimal_request fabric in
  MkVerificationReport (fq_subject q) (fq_subject_generation q) (fd_attempt_seq granted)
    (compute_attempt_id fabric (fq_subject q) (fq_subject_generation q) (fd_attempt_seq granted))
    publisher (im_epoch im) true "synthetic verification".
Definition answer_text (r : Result FailoverDecision) : string :=
  match r with Success d => decision_to_string d | Failure s => status_to_string s end.

(** What the example does with its open engine. *)
Definition minimal_run (fabric dir : string) (im : EngineImpl) (out : string) : IoM Outputs :=
  let '(observed, im) := publish_failure_report (minimal_failure_report fabric 1) im in
  let '(alternate, im) := publish_replacement_report (minimal_replacement_report fabric 2) im in
  let out := (out +:+ line_of ("publish-failure    " +:+ status_to_string observed)
                  +:+ line_of ("publish-replacement " +:+ status_to_string alternate))%string in
  io* answer := request_failover (minimal_request fabric) im in
  let im := answer.2 in
  match answer.1 with
  | Failure s => ioret (1, out, line_of ("failover failed: " +:+ status_to_string s))
  | Success granted =>
      let out := (out +:+ line_of ("failover           " +:+ decision_to_string granted))%string in
      if negb (enum_eqb (fd_kind granted) DecisionKind.Grant) then ioret (1, out, line_of "expected a grant")
      else
        io* acknowledged := record_application (minimal_application fabric im granted) im in
        let out := (out +:+ line_of ("acknowledge        " +:+ answer_text acknowledged.1))%string in
        let im := acknowledged.2 in
        io* verified := record_verification (minimal_verification fabric im granted) im in
        let out := (out +:+ line_of ("verify             " +:+ answer_text verified.1))%string in
        let im := verified.2 in
        let out := (out +:+ engine_view_to_string (inspect im 4))%string in
        io* closed := engine_close im in
        io* _ := remove_all dir in
        ioret (if status_ok closed.1 then 0 else 1, out, EmptyString)
  end.
Definition minimal_main (argv : list string) : IoM Outputs :=
  let dir := state_dir argv "lff-example-minimal" in
  io* _ := remove_all dir in
  match name_parse "synthetic-fabric" with
  | Failure _ => ioret (1, EmptyString, line_of "fabric name rejected")
  | Success fabric =>
      io* engine := engine_open (minimal_options fabric dir) incarnation toolchain architecture in
      match engine with
      | Failure s => ioret (1, EmptyString, line_of ("open failed: " +:+ status_to_string s))
      | Success im => minimal_run fabric dir im (line_of ("SYNTHETIC fixture; state dir " +:+ dir))
      end
  end.

(** ** consumer/main.cpp *)
Definition consumer_failure (fabric : string) : FailureReport :=
  MkFailureReport (MkLinkKey fabric (named "primary")) 1 1 ObservationState.Down (make_confidence 990)
    (MkStamp (named "consumer-monitor") publisher 1 1 0).
Definition consumer_replacement (fabric : string) : ReplacementReport :=
  MkReplacementReport (MkLinkKey fabric (named "standby")) 2 1 ObservationState.Up (make_confidence 990)
    2000 0 true 0 (MkStamp (named "consumer-monitor") publisher 1 2 0).
Definition consumer_options (fabric dir : string) : EngineOptions :=
  MkEngineOptions fabric (set_fp_generation 1 policy_defaults)
    (topology_canonicalise (MkTopology 1 [MkLink (MkLinkKey fabric (named "primary")) 1 1000;
                                          MkLink (MkLinkKey fabric (named "standby")) 2 2000]))
    dir engine_limits_default 1024 true true.
Definition consumer_request (fabric : string) : FailoverRequest :=
  MkFailoverRequest (fr_subject (consumer_failure fabric)) (fr_link_generation (consumer_failure fabric))
    [MkCandidate (rr_candidate (consumer_replacement fabric)) 0] expectation_none digest_zero.

Definition consumer_run (fabric dir : string) (im : EngineImpl) (out : string) : IoM Outputs :=
  let '(observed, im) := publish_failure_report (consumer_failure fabric) im in
  if negb (status_ok observed) then ioret (1, (out +:+ line_of "publish_failure=failed")%string, EmptyString) else
  let '(alternate, im) := publish_replacement_report (consumer_replacement fabric) im in
  if negb (status_ok alternate) then ioret (1, (out +:+ line_of "publish_replacement=failed")%string, EmptyString) else
  io* answer := request_failover (consumer_request fabric) im in
  let im := answer.2 in
  match answer.1 with
  | Failure s => ioret (1, (out +:+ line_of ("failover=failed:" +:+ status_to_string s))%string, EmptyString)
  | Success d =>
      let out := (out +:+ line_of ("decision=" +:+ decision_kind_name (fd_kind d) +:+ " assertion=" +:+
                                   assertion_name (fd_assertion d) +:+ " durable=" +:+ bool_text (fd_durable d))
                  +:+ line_of ("decision_id=" +:+ digest_hex (fd_decision_id d))
                  +:+ line_of ("policy_digest=" +:+ digest_hex (policy_digest (engine_policy (Some im)))))%string in
      if negb (enum_eqb (fd_kind d) DecisionKind.Grant) then ioret (1, (out +:+ line_of "expected=grant")%string, EmptyString)
      else
        io* closed := engine_close im in
        io* _ := remove_all dir in
        let out := (out +:+ line_of ("closed=" +:+ if status_ok closed.1 then "ok" else "failed"))%string in
        ioret (if status_ok closed.1 then 0 else 1, out, EmptyString)
  end.
Definition consumer_main (argv : list string) : IoM Outputs :=
  let dir := state_dir argv "lff-consumer-state" in
  io* _ := remove_all dir in
  let out := (line_of ("version=" +:+ kVersionString)
              +:+ line_of ("toolchain=" +:+ toolchain +:+ " arch=" +:+ architecture))%string in
  match name_parse "consumer-fabric" with
  | Failure _ => ioret (1, (out +:+ line_of "fabric_name=rejected")%string, EmptyString)
  | Success fabric =>
      io* engine := engine_open (consumer_options fabric dir) incarnation toolchain architecture in
      match engine with
      | Failure s => ioret (1, (out +:+ line_of ("open=failed:" +:+ status_to_string s))%string, EmptyString)
      | Success im => consumer_run fabric dir im (out +:+ line_of ("epoch=" +:+ decimal_text (im_epoch im)))%string
      end
  end.
End programs.

(** ** What a cleared directory gives *)
Lemma foldr_delete_lookup {A} (l : list string) (m : gmap string A) p :
  (p ∈ l \/ m !! p = None) -> foldr delete m l !! p = None.
Proof.
  induction l as [|x l IH]; cbn [foldr]; [intros [Hp|Hp]; [by apply elem_of_nil in Hp|done]|]. intros Hp.
  destruct (decide (x = p)) as [->|Hne]; [apply lookup_delete_eq|]. rewrite lookup_delete_ne by done.
  apply IH. destruct Hp as [[->|Hp]%elem_of_cons|Hp]; [done|by left|by right].
Qed.
Lemma below_self dir : below dir dir = true.
Proof. unfold below. by rewrite String.eqb_refl. Qed.
Lemma below_child dir name : below dir (dir +:+ String "/"%char name)%string = true.
Proof.
  unfold below. apply orb_true_iff. right. induction dir as [|c dir IH]; [by destruct name|].
  change (String.prefix (String c (dir +:+ "/")) (String c (dir +:+ String "/"%char name)) = true)%string.
  cbn [String.prefix]. by destruct (Ascii.ascii_dec c c).
Qed.
Lemma remove_all_gone dir fs p : fs_calm fs -> below dir p = true -> fs_files (remove_all dir fs).2 !! p = None.
Proof.
  intros Hc Hp. unfold remove_all, iobind. rewrite io_outcome_calm by done. cbn. apply foldr_delete_lookup.
  destruct (fs_files fs !! p) as [d|] eqn:E; [left|by right].
  apply list_elem_of_In, filter_In. split; [|done]. apply list_elem_of_In, list_elem_of_fmap. exists (p, d).
  split; [done|]. by apply elem_of_map_to_list.
Qed.
(** Whatever a quiet medium held, a cleared directory is one to begin a life in. *)
Lemma remove_all_fresh so fs : fs_calm fs -> let fs' := (remove_all (sp_directory so) fs).2 in
  fs_calm fs' /\ directory_usable so fs' /\ fs_files fs' !! snapshot_path so = None /\
  fs_files fs' !! journal_path so = None.
Proof.
  intros Hc. split; [unfold remove_all, iobind; by rewrite io_outcome_calm|].
  split; [right; apply remove_all_gone; [done|apply below_self]|].
  split; apply remove_all_gone; first [done|apply below_child].
Qed.

Lemma minimal_options_typed dir : string_empty dir = false ->
  options_typed (store_options_of (minimal_options "synthetic-fabric" dir)).
Proof.
  intros H. split; [exact H|reflexivity|..]; (split; [apply (bool_decide_unpack _)|]); vm_compute; first [exact I|reflexivity].
Qed.
(** The engine of the example begins a life, whatever the directory held before. *)
Lemma minimal_begins_a_life incarnation toolchain architecture dir fs im fs' :
  fs_calm fs -> string_empty dir = false -> build_typed incarnation toolchain architecture ->
  engine_open (minimal_options "synthetic-fabric" dir) incarnation toolchain architecture (remove_all dir fs).2 =
    (Success im, fs') ->
  lives (minimal_options "synthetic-fabric" dir) im fs' /\ engine_inv im.
Proof.
  intros Hc Hd Hb E. pose proof (minimal_options_typed dir Hd) as Ho.
  destruct (remove_all_fresh (store_options_of (minimal_options "synthetic-fabric" dir)) fs Hc) as (C & D & S & J).
  assert (Hop : openable (store_options_of (minimal_options "synthetic-fabric" dir)) (remove_all dir fs).2) by by constructor.
  split; [|by apply engine_open_inv in E as (? & _)]. eapply LivesOpened; [exact Hop|by apply fresh_fits|exact Hb|exact E].
Qed.

(** Exit code 0 means a grant, and a shutdown that was recorded. *)
Lemma minimal_run_zero publisher fabric dir im out fs out' err fs' :
  minimal_run publisher fabric dir im out fs = (0, out', err, fs') ->
  exists im1 d im2 fs2, request_failover (minimal_request fabric) im1 fs = (Success d, im2, fs2) /\
    fd_kind d = DecisionKind.Grant /\ im_store im1 = im_store im /\
    exists im3 fs3 closed im4 fs4, engine_close im3 fs3 = (closed, im4, fs4) /\ status_ok closed = true.
Proof.
  unfold minimal_run. destruct (publish_failure_report _ im) as [observed im0] eqn:E0.
  destruct (publish_replacement_report _ im0) as [alternate im1] eqn:E1. cbv zeta.
  unfold iobind at 1. destruct (request_failover _ im1 fs) as [[[d|e] im2] fs2] eqn:E2; cbn [fst snd]; [|done].
  assert (Him : im_store im1 = im_store im).
  { pose proof (pf_store _ _ (publish_failure_frame (minimal_failure_report publisher fabric 1) im)) as F0.
    pose proof (pf_store _ _ (publish_replacement_frame (minimal_replacement_report publisher fabric 2) im0)) as F1.
    rewrite E0 in F0. rewrite E1 in F1. cbn in F0, F1. congruence. }
  destruct (enum_eqb (fd_kind d) DecisionKind.Grant) eqn:Ek; cbn [negb]; [|done]. apply enum_eqb_eq in Ek.
  unfold iobind at 1. destruct (record_application _ im2 fs2) as [[a im3] fs3]. cbn [fst snd].
  unfold iobind at 1. destruct (record_verification _ im3 fs3) as [[v im4] fs4]. cbn [fst snd].
  unfold iobind at 1. destruct (engine_close im4 fs4) as [[closed im5] fs5] eqn:E5. cbn [fst snd].
  unfold iobind. destruct (remove_all dir fs5) as [[] fs6]. destruct (status_ok closed) eqn:Ec; [|done]. intros _.
  exists im1, d, im2, fs2. split; [exact E2|]. split; [exact Ek|]. split; [exact Him|].
  by exists im4, fs4, closed, im5, fs5.
Qed.
