(* ===== verification/Socket.v ===== *)
(** * Sockets

    The socket helpers (detail/socket.cpp) over the answers of the operating system,
    which are arguments: what [getaddrinfo] finds and what each call on a candidate
    answers, the return values of [send] and [recv]. The open descriptors are a set, so
    that what is left open is part of every result. *)
From S2P Require Import Prelude Status Hash Ids Bytes.

Definition last_socket_error_text (code : Z) : string := ("code=" +:+ decimal_text code)%string.
(** [SocketHandle]: a descriptor; [kInvalidSocket] is [None]. *)
Definition socket_failure (what : string) (code : Z) : Status :=
  status_add (status_failure Outcome.IoError ReasonCode.SocketError what)
    ReasonCode.InternalError (last_socket_error_text code).
Definition resolution_failure : Status :=
  status_failure Outcome.Invalid ReasonCode.InvalidArgument "endpoint address could not be resolved".


(** Starting up, once per process: what [WSAStartup] answers, [None] where there is
    nothing to start. The status is kept. *)
Definition perform_startup (startup : option Z) : Status :=
  match startup with
  | Some result =>
      if negb (result =? 0)
      then status_failure Outcome.IoError ReasonCode.SocketError "WSAStartup failed" else status_success
  | None => status_success
  end.
Definition initialise_networking (startup : option Z) (started : option Status) : Status * option Status :=
  let status := default (perform_startup startup) started in (status, Some status).
Lemma initialise_once startup startup' started :
  let first := initialise_networking startup started in initialise_networking startup' first.2 = first.
Proof. done. Qed.

(** The handle that is shut down in both directions, if the system is called. *)
Definition shutdown_socket (h : option Z) : option Z := h.

(** The host that [make_address] resolves: brackets around it are dropped. *)
Fixpoint last_char (s : string) : option Ascii.ascii :=
  match s with
  | EmptyString => None
  | String ch EmptyString => Some ch
  | String _ rest => last_char rest
  end.
Definition address_host (host : string) : string :=
  match host with
  | String "[" rest =>
      match last_char rest with
      | Some "]"%char => String.substring 0 (String.length rest - 1) rest
      | _ => host
      end
  | _ => host
  end.

(** ** Opening *)
(** What the system answers for one resolved address: the descriptor of [socket], and
    whether [bind], [listen] and [connect] succeed on it. *)
Record Candidate := MkAddress {
  sa_socket : option Z;
  sa_bind : bool;
  sa_listen : bool;
  sa_connect : bool;
}.
Definition opened (h : Z) (open : gset Z) : gset Z := {[h]} ∪ open.
Definition close_socket (h : option Z) (open : gset Z) : gset Z :=
  match h with None => open | Some h => open ∖ {[h]} end.

(** The first candidate on which every step succeeds; the others are closed again. *)
Fixpoint first_usable (usable : Candidate -> bool) (candidates : list Candidate) (open : gset Z) : option Z * gset Z :=
  match candidates with
  | [] => (None, open)
  | c :: rest =>
      match sa_socket c with
      | None => first_usable usable rest open
      | Some h =>
          let open := opened h open in
          if usable c then (Some h, open) else first_usable usable rest (close_socket (Some h) open)
      end
  end.

(** The answer of [getsockname]. *)
Inductive SocketName := NameFailed | NameIn (port : Z) | NameOther.

(** [create_listener], after [initialise_networking] answered [started]. *)
Definition create_listener (started : Status) (resolved : option (list Candidate)) (name : SocketName) (code : Z)
    (endpoint : Endpoint) (open : gset Z) : Result (Z * Endpoint) * gset Z :=
  if negb (status_ok started) then (Failure started, open)
  else match resolved with
  | None => (Failure resolution_failure, open)
  | Some candidates =>
      match first_usable (fun c => sa_bind c && sa_listen c)%bool candidates open with
      | (None, open) => (Failure (socket_failure "bind/listen failed" code), open)
      | (Some listener, open) =>
          match name with
          | NameFailed => (Failure (socket_failure "getsockname failed" code), close_socket (Some listener) open)
          | NameIn port => (Success (listener, MkEndpoint (ep_host endpoint) port), open)
          | NameOther => (Failure (status_failure Outcome.Unsupported ReasonCode.FeatureUnsupported
                            "unsupported address family"), close_socket (Some listener) open)
          end
      end
  end.
Definition connect_socket (started : Status) (resolved : option (list Candidate)) (code : Z) (open : gset Z) :
    Result Z * gset Z :=
  if negb (status_ok started) then (Failure started, open)
  else match resolved with
  | None => (Failure resolution_failure, open)
  | Some candidates =>
      match first_usable sa_connect candidates open with
      | (None, open) => (Failure (socket_failure "connect failed" code), open)
      | (Some socket, open) => (Success socket, open)
      end
  end.
Definition wait_readable (socket : option Z) (ready code : Z) : Result bool :=
  match socket with
  | None => fail Outcome.Closed ReasonCode.NotListening "socket is closed"
  | Some _ => if ready <? 0 then Failure (socket_failure "select failed" code) else Success (ready >? 0)
  end.
Definition accept_socket (accepted : option Z) (code : Z) (open : gset Z) : Result Z * gset Z :=
  match accepted with
  | None => (Failure (socket_failure "accept failed" code), open)
  | Some h => (Success h, opened h open)
  end.

(** ** Sending and receiving *)
Definition kSocketChunk : Z := 1048576.

Section send.
(** What [send] answers when this many bytes are offered at this offset, and [errno]. *)
Context (send : Z -> Z -> Z) (code : Z).

(** The loop of [send_all]: its status and the bytes the system took, in order. One
    round takes at least one byte, so as many rounds as there are bytes are enough;
    [None] is running out of them. *)
Fixpoint send_loop (fuel : nat) (data : bytes) (offset : Z) (taken : bytes) : option (Status * bytes) :=
  if offset >=? Z.of_nat (length data) then Some (status_success, taken)
  else match fuel with
  | O => None
  | S fuel =>
      let remaining := Z.of_nat (length data) - offset in
      let chunk := if remaining >? kSocketChunk then kSocketChunk else remaining in
      let sent := send offset chunk in
      if sent <=? 0 then Some (socket_failure "send failed" code, taken)
      else send_loop fuel data (offset + sent)
             (taken ++ take (Z.to_nat sent) (drop (Z.to_nat offset) data))
  end.
Definition send_all (data : bytes) : option (Status * bytes) := send_loop (length data) data 0 [].
End send.

(** What [recv] brings: an error, or bytes, none of them when the peer has closed. *)
Definition recv_some (capacity : Z) (received : option bytes) (code : Z) : Result bytes :=
  if capacity =? 0 then Success []
  else match received with
  | None => Failure (socket_failure "recv failed" code)
  | Some [] => fail Outcome.Closed ReasonCode.ConnectionClosed "peer closed"
  | Some data => Success data
  end.

(** ** No descriptor is lost *)
(** The descriptors the system hands out are not open yet. *)
Definition fresh_handles (candidates : list Candidate) (open : gset Z) : Prop :=
  Forall (fun c => match sa_socket c with Some h => h ∉ open | None => True end) candidates.
#[global] Instance fresh_handles_dec candidates open : Decision (fresh_handles candidates open).
Proof. unfold fresh_handles. apply Forall_dec. intros c. destruct (sa_socket c); apply _. Defined.

Lemma reclose h open : h ∉ open -> close_socket (Some h) (opened h open) = open.
Proof.
  intros H. unfold close_socket, opened. apply set_eq. intros x.
  rewrite elem_of_difference, elem_of_union, elem_of_singleton. split; [tauto|]. intros Hx.
  split; [by right|]. by intros ->.
Qed.
Lemma first_usable_spec usable candidates open : fresh_handles candidates open ->
  match first_usable usable candidates open with
  | (None, open') => open' = open /\ forall c, c ∈ candidates -> sa_socket c = None \/ usable c = false
  | (Some h, open') => open' = opened h open /\ (h ∉ open) /\
      exists c, c ∈ candidates /\ sa_socket c = Some h /\ usable c = true
  end.
Proof.
  intros Hf. induction Hf as [|c rest Hc _ IH]; [split; [done|]; by intros c ?%elem_of_nil|]. cbn [first_usable].
  destruct (sa_socket c) as [h|] eqn:Es; [cbv zeta; destruct (usable c) eqn:Eu|].
  - split; [done|]. split; [done|]. exists c. split; [by left|done].
  - rewrite reclose by done. destruct (first_usable _ _ _) as [[h'|] open'].
    + destruct IH as (H1 & H2 & c' & H3 & H4). split; [done|]. split; [done|]. exists c'. split; [by right|done].
    + destruct IH as [H1 H2]. split; [done|]. intros c' [->|H]%elem_of_cons; [by right|by apply H2].
  - destruct (first_usable _ _ _) as [[h'|] open'].
    + destruct IH as (H1 & H2 & c' & H3 & H4). split; [done|]. split; [done|]. exists c'. split; [by right|done].
    + destruct IH as [H1 H2]. split; [done|]. intros c' [->|H]%elem_of_cons; [by left|by apply H2].
Qed.

(** no descriptor is lost. Whatever the system answers, a failed [create_listener] or
    [connect_socket] leaves exactly the descriptors that were open, and a successful
    one exactly one more, the one it returns; connecting fails only when no candidate
    could be used. *)
Theorem descriptors_accounted started resolved name code endpoint open :
  match resolved with Some candidates => fresh_handles candidates open | None => True end ->
  match create_listener started resolved name code endpoint open with
  | (Failure s, open') => status_ok s = false /\ open' = open
  | (Success (h, bound), open') => (h ∉ open) /\ open' = {[h]} ∪ open /\ ep_host bound = ep_host endpoint /\ name = NameIn (ep_port bound)
  end /\
  match connect_socket started resolved code open with
  | (Failure s, open') => open' = open /\ (status_ok started = true -> forall candidates c, resolved = Some candidates ->
      c ∈ candidates -> sa_socket c = None \/ sa_connect c = false)
  | (Success h, open') => (h ∉ open) /\ open' = {[h]} ∪ open
  end.
Proof.
  intros Hf. unfold create_listener, connect_socket. destruct (status_ok started) eqn:Es; cbn [negb].
  2: { split; [done|]. split; [done|]. congruence. }
  destruct resolved as [candidates|]; [|by split; [|split; [|congruence]]]. split.
  - pose proof (first_usable_spec (fun c => sa_bind c && sa_listen c)%bool candidates open Hf) as H.
    destruct (first_usable _ _ _) as [[h|] open']; [|by destruct H as [-> _]].
    destruct H as (-> & Hh & _). destruct name; [|done|]; by rewrite reclose.
  - pose proof (first_usable_spec sa_connect candidates open Hf) as H.
    destruct (first_usable _ _ _) as [[h|] open']; [by destruct H as (-> & Hh & _)|].
    destruct H as [-> H]. split; [done|]. intros _ candidates' c [= <-]. apply H.
Qed.
Lemma descriptors_accounted_witness :
  create_listener status_success (Some [MkAddress (Some 5) false true false; MkAddress (Some 5) true true false])
    (NameIn 4000) 98 (MkEndpoint "h" 0) {[ 3 ]} = (Success (5, MkEndpoint "h" 4000), {[ 5; 3 ]}) /\
  (5 : Z) ∉ ({[ 3 ]} : gset Z).
Proof.
  set (cs := Some [MkAddress (Some 5) false true false; MkAddress (Some 5) true true false]).
  assert (Hf : match cs with Some candidates => fresh_handles candidates {[ 3 ]} | None => True end).
  { apply (bool_decide_unpack _). vm_compute. exact I. }
  destruct (descriptors_accounted status_success cs (NameIn 4000) 98 (MkEndpoint "h" 0) {[ 3 ]} Hf) as [H _].
  split; [vm_compute; reflexivity|exact (proj1 H)].
Defined.

(** ** All or a prefix *)
(** [send] takes at most what it was offered. *)
Definition send_bounded (send : Z -> Z -> Z) : Prop := forall offset chunk, send offset chunk <= chunk.

Lemma take_app_drop {A} (l : list A) m n : take n l ++ take m (drop n l) = take (n + m) l.
Proof. revert n. induction l as [|x l IH]; intros [|n]; cbn; [by rewrite take_nil|by rewrite take_nil|done|by rewrite IH]. Qed.
Lemma send_loop_spec send code fuel data offset :
  send_bounded send -> 0 <= offset <= Z.of_nat (length data) -> Z.of_nat (length data) <= offset + Z.of_nat fuel ->
  exists s n, send_loop send code fuel data offset (take (Z.to_nat offset) data) = Some (s, take n data) /\
    (status_ok s = true -> n = length data) /\ (status_ok s = false -> (n < length data)%nat).
Proof.
  intros Hb. revert offset. induction fuel as [|fuel IH]; intros offset Ho Hf; cbn [send_loop].
  - rewrite Z.geb_leb, (proj2 (Z.leb_le _ _)) by lia. exists status_success, (length data).
    split; [by rewrite !take_ge by lia|done].
  - destruct (Z.geb_spec offset (Z.of_nat (length data))) as [Hd|Hd].
    { exists status_success, (length data). split; [by rewrite !take_ge by lia|done]. }
    cbv zeta. set (chunk := if _ >? _ then _ else _).
    assert (Hc : chunk <= Z.of_nat (length data) - offset).
    { unfold chunk. destruct (Z.gtb_spec (Z.of_nat (length data) - offset) kSocketChunk); lia. }
    specialize (Hb offset chunk). destruct (Z.leb_spec (send offset chunk) 0) as [Hs|Hs].
    { exists (socket_failure "send failed" code), (Z.to_nat offset). split; [done|]. split; [done|]. intros _. lia. }
    rewrite take_app_drop. rewrite <- Z2Nat.inj_add by lia. apply IH; lia.
Qed.

(** all bytes or a prefix. If [send] takes at most what it is offered, [send_all]
    ends whatever it takes: with success exactly when every byte was taken, once and in
    order, and otherwise with the bytes of a proper prefix taken. *)
Theorem send_all_complete send code data : send_bounded send ->
  exists s taken, send_all send code data = Some (s, taken) /\ taken `prefix_of` data /\
    (status_ok s = true <-> taken = data).
Proof.
  intros Hb. destruct (send_loop_spec send code (length data) data 0 Hb) as (s & n & E & H1 & H2); [lia|lia|].
  exists s, (take n data). split; [exact E|]. split; [by eexists; rewrite take_drop|]. split.
  - intros Hs. rewrite H1 by done. apply firstn_all.
  - intros Ht. destruct (status_ok s) eqn:Es; [done|]. specialize (H2 eq_refl).
    apply (f_equal length) in Ht. rewrite length_take in Ht. lia.
Qed.
Lemma send_all_complete_witness : exists s taken,
  send_all (fun _ chunk => Z.min 2 chunk) 0 [1; 2; 3; 4; 5] = Some (s, taken) /\ status_ok s = true /\ taken = [1; 2; 3; 4; 5].
Proof.
  assert (Hb : send_bounded (fun _ chunk => Z.min 2 chunk)) by (intros offset chunk; apply Z.le_min_r).
  destruct (send_all_complete _ 0 [1; 2; 3; 4; 5] Hb) as (s & taken & H1 & _ & H2). exists s, taken.
  split; [exact H1|]. vm_compute in H1. injection H1 as <- <-. split; reflexivity.
Defined.
