(* ===== verification/Fault.v ===== *)
(** * Crash points

    The fault injection (detail/fault.cpp): the names of the points and when a process
    that reaches one ends. Whether injection is compiled in and what the environment
    says are arguments. *)
From S2P Require Import Prelude.

Module CrashPoint.
Inductive CrashPoint :=
| None
| BeforeCommit
| AfterCommit
| AfterApply
| BeforeCompletion
| DuringCheckpoint.
End CrashPoint.
Abbreviation CrashPoint := CrashPoint.CrashPoint.

Definition crash_point_code (v : CrashPoint) : Z :=
  match v with
  | CrashPoint.None => 0
  | CrashPoint.BeforeCommit => 1
  | CrashPoint.AfterCommit => 2
  | CrashPoint.AfterApply => 3
  | CrashPoint.BeforeCompletion => 4
  | CrashPoint.DuringCheckpoint => 5
  end.
#[global] Instance crash_point_enum : EnumCode CrashPoint := {|
  enum_values := [CrashPoint.None; CrashPoint.BeforeCommit; CrashPoint.AfterCommit; CrashPoint.AfterApply;
    CrashPoint.BeforeCompletion; CrashPoint.DuringCheckpoint];
  enum_code := crash_point_code;
  enum_nonneg := ltac:(by intros []);
  enum_nth := ltac:(by intros []);
|}.
#[global] Instance crash_point_eq_dec : EqDecision CrashPoint := enum_eq_dec.

Definition kCrashPointNames : list (CrashPoint * string) := [
  (CrashPoint.None, "none");
  (CrashPoint.BeforeCommit, "before-commit");
  (CrashPoint.AfterCommit, "after-commit");
  (CrashPoint.AfterApply, "after-apply");
  (CrashPoint.BeforeCompletion, "before-completion");
  (CrashPoint.DuringCheckpoint, "during-checkpoint")
]%string.
Definition crash_point_name (v : CrashPoint) : string := table_name "unrecognised" kCrashPointNames v.
Definition crash_point_parse (text : string) : option CrashPoint := table_parse kCrashPointNames text.

Definition read_environment (raw : option string) : string := default EmptyString raw.
(** The value of LFF_CRASH_POINT, empty when it is not set. *)
Definition parse_environment (compiled : bool) (raw : string) : CrashPoint :=
  if negb compiled then CrashPoint.None
  else match raw with
  | EmptyString => CrashPoint.None
  | _ => match crash_point_parse raw with Some point => point | None => CrashPoint.None end
  end.
(** Parsed once; later changes of the environment are not seen. *)
Definition configured_crash_point (compiled : bool) (raw : string) (known : option CrashPoint) :
    CrashPoint * option CrashPoint :=
  let point := default (parse_environment compiled raw) known in (point, Some point).
Definition crash_point_configured (compiled : bool) (raw : string) (point : CrashPoint) : bool :=
  match point with
  | CrashPoint.None => false
  | _ => bool_decide (parse_environment compiled raw = point)
  end.
Definition kCrashExit : Z := 97.
(** The exit code of the process, when it ends here. *)
Definition hit_crash_point (compiled : bool) (raw : string) (point : CrashPoint) : option Z :=
  if negb (crash_point_configured compiled raw point) then None else Some kCrashExit.

Lemma crash_point_parse_name v : crash_point_parse (crash_point_name v) = Some v.
Proof. table_roundtrip. Qed.

(** A process ends at a point exactly when injection is compiled in and the environment
    names that point; no name ends it at the point that stands for none. *)
Lemma hit_crash_point_iff compiled raw point :
  hit_crash_point compiled raw point = Some kCrashExit <->
  compiled = true /\ point <> CrashPoint.None /\ crash_point_parse raw = Some point.
Proof.
  unfold hit_crash_point, crash_point_configured, parse_environment.
  destruct compiled; cbn [negb]; [|split; [by destruct point|by intros [? _]]].
  assert (Hr : match raw with EmptyString => CrashPoint.None | _ =>
      match crash_point_parse raw with Some p => p | None => CrashPoint.None end end =
    match crash_point_parse raw with Some p => p | None => CrashPoint.None end) by by destruct raw.
  rewrite Hr. destruct (crash_point_parse raw) as [p|]; destruct point; cbn [negb]; try case_bool_decide; cbn [negb];
    (split; [intros ?; split_and!; congruence|intros (_ & ? & ?); congruence]).
Qed.
