(* ===== verification/Scenario.v ===== *)
(** * A concrete deployment

    A small fabric, executed: one subject link and two alternates, two publishers,
    an in-memory medium. The states below are computed by the definitions of the
    model and are the inputs of the concrete instances of the theorems; the
    examples also exhibit the behaviours recorded as findings. *)
From S2P Require Import Prelude Status Hash Ids Bytes Evidence Policy Authority Attempt Decision.
From S2P Require Import Selector Fs Journal State Store Intake Engine EngineLogic EngineSafety Wire.
From S2P Require Import Server Client.

Definition sc_link (name : string) : LinkKey := MkLinkKey "fab" name.
Definition sc_subject : LinkKey := sc_link "a".
Definition sc_policy : FailoverPolicy := set_fp_generation 1 policy_defaults.
Definition sc_topology : TopologySnapshot :=
  MkTopology 1 [MkLink (sc_link "a") 1 10; MkLink (sc_link "b") 1 10; MkLink (sc_link "c") 1 10].
Definition sc_incarnation (n : Z) : Incarnation := MkIncarnation (n :: repeat 7 15).
Definition sc_limits : EngineLimits := MkLimits 4 8 8 8 8 4 4 4.
Definition sc_options : EngineOptions :=
  MkEngineOptions "fab" sc_policy sc_topology "d" sc_limits 1024 false true.
Definition sc_fs : Fs := MkFs ∅ ∅ [].

Definition sc_stamp (p : string) (seq : Z) : EvidenceStamp := MkStamp p (sc_incarnation 9) 1 seq 0.
Definition sc_failure (p : string) (seq : Z) : FailureReport :=
  MkFailureReport sc_subject 1 1 ObservationState.Down 950 (sc_stamp p seq).
Definition sc_replacement (p name : string) (seq : Z) : ReplacementReport :=
  MkReplacementReport (sc_link name) 1 1 ObservationState.Up 950 20 1 true 1 (sc_stamp p seq).
Definition sc_key (n : Z) : Digest := MkDigest (n :: repeat 1 31).
Definition sc_request (n : Z) : FailoverRequest :=
  MkFailoverRequest sc_subject 1 [MkCandidate (sc_link "b") 0; MkCandidate (sc_link "c") 1]
    expectation_none (sc_key n).

(** The engine right after it opened on an empty medium. *)
Definition sc_open (n : Z) (fs : Fs) : Result EngineImpl * Fs :=
  engine_open sc_options (sc_incarnation n) "gcc" "x86_64" fs.
Definition sc_boot : EngineImpl * Fs :=
  match sc_open 1 sc_fs with
  | (Success im, fs) => (im, fs)
  | (Failure _, fs) => (engine_initial sc_options None incarnation_zero 0, fs)
  end.

Fixpoint sc_run (ops : list Operation) (im : EngineImpl) (fs : Fs) : EngineImpl * Fs :=
  match ops with
  | [] => (im, fs)
  | op :: rest => let '(_, im, fs) := perform op im fs in sc_run rest im fs
  end.

Definition sc_evidence : list Operation :=
  [OpPublishFailure (sc_failure "p" 1); OpPublishReplacement (sc_replacement "p" "b" 1);
   OpPublishReplacement (sc_replacement "p" "c" 1)].

(** *** Two authorities after an eviction *)
Definition sw_topology : TopologySnapshot :=
  MkTopology 1 (map (fun n => MkLink (sc_link n) 1 10) ["a"; "b"; "c"; "d"]).
Definition sw_options : EngineOptions :=
  MkEngineOptions "fab" sc_policy sw_topology "d" (MkLimits 4 8 4 8 8 4 4 4) 1024 false true.
Definition sw_request (name : string) : Operation :=
  OpFailover (MkFailoverRequest (sc_link name) 1 [MkCandidate (sc_link "d") 0] expectation_none digest_zero).
Definition sw_failure (name : string) (seq : Z) : Operation :=
  OpPublishFailure (MkFailureReport (sc_link name) 1 1 ObservationState.Down 950 (sc_stamp "p" seq)).
Definition sw_healthy (seq : Z) : Operation := OpPublishReplacement (sc_replacement "p" "d" seq).
Definition sw_reject (seq : Z) (id : Digest) : Operation :=
  OpApplication (MkApplicationReport (sc_link "a") 1 seq id (sc_incarnation 5) 1 false "no").
Definition sw_id (name : string) (seq : Z) : Digest := compute_attempt_id "fab" (sc_link name) 1 seq.

(** Undecided attempts on b, then on c, while a holds authority: the low sequences
    of b are evicted; a's rejected attempt makes room for the grant on b. *)
Definition sw_before : list Operation :=
  [sw_failure "a" 1; sw_healthy 1; sw_request "a"; sw_request "b"; sw_request "b"; sw_request "b";
   sw_request "c"; sw_request "c"; sw_reject 1 (sw_id "a" 1); sw_failure "b" 1; sw_request "b"].
Definition sw_after : list Operation := [sw_failure "b" 1; sw_healthy 1; sw_request "b"].
Definition sw_state : EngineImpl * Fs :=
  match engine_open sw_options (sc_incarnation 1) "gcc" "x86_64" sc_fs with
  | (Success im, fs) =>
      let '(_, fs) := sc_run sw_before im fs in
      match engine_open sw_options (sc_incarnation 2) "gcc" "x86_64" fs with
      | (Success im, fs) => sc_run sw_after im fs
      | (Failure _, fs) => (engine_initial sw_options None incarnation_zero 0, fs)
      end
  | (Failure _, fs) => (engine_initial sw_options None incarnation_zero 0, fs)
  end.
Definition sw_rebind : Operation := OpRevalidation (MkRevalidationRequest (sc_link "b") 1 2
  RevalidationVerdict.Applied (sc_incarnation 5) 2 "seen").

(** ** Reading a run *)
Definition result_or {A} (default : A) (r : Result A) : A :=
  match r with Success v => v | Failure _ => default end.

Lemma surjective_triple {A B C} (x : A * B * C) : x = (x.1.1, x.1.2, x.2).
Proof. by destruct x as [[a b] c]. Qed.

(** [answered x]: the computation [x] succeeds; its parts then name the answer. *)
Ltac answered x :=
  let H := fresh in
  assert (H : result_ok x.1.1 = true) by (vm_compute; reflexivity);
  revert H; generalize x; intros [[[? | ?] ?] ?] H; [reflexivity|discriminate H].

(** The engine's invariant along a run, by its preservation. *)
Definition plain_operation (op : Operation) : bool :=
  match op with OpClose | OpRevalidation _ => false | _ => true end.
Lemma run_inv ops im fs : Forall (fun op => plain_operation op = true) ops ->
  engine_inv im -> engine_inv (sc_run ops im fs).1.
Proof.
  intros H. revert im fs. induction H as [|op ops Hop _ IH]; intros im fs Hi; [done|].
  cbn. destruct (perform op im fs) as [[s im'] fs'] eqn:E. apply IH.
  refine (single_winner_preserved _ _ _ _ _ _ Hi _ _ E); [by intros ->|].
  intros found (q & -> & _). done.
Qed.
(** An engine without attempts satisfies the invariant as soon as its epoch and its
    incarnation are those of the medium. *)
Lemma fresh_inv im : engine_bound im -> ds_attempts (engine_state im) = [] ->
  0 <= ds_epoch (engine_state im) -> engine_inv im.
Proof.
  intros Hb Ha He. assert (Hn : forall r, r ∉ ds_attempts (engine_state im)).
  { intros r. rewrite Ha. apply not_elem_of_nil. }
  split; [done| | |split; [done|]].
  - unfold keys_unique. rewrite Ha. apply NoDup_nil_2.
  - by intros ? ? r1 ? ?%Hn.
  - by intros ? ?%Hn.
Qed.

Lemma fresh_evidence im : is_u64 (lm_max_evidence_entries (eo_limits (im_options im))) ->
  im_publishers im = ∅ -> im_failure_evidence im = ∅ -> im_replacement_evidence im = ∅ ->
  im_evidence_entries im = 0 -> evidence_inv im.
Proof.
  intros Hl Hp Hf Hr He. split; [done|..]; rewrite ?Hp, ?Hf, ?Hr, ?He.
  - reflexivity.
  - destruct Hl; lia.
  - rewrite map_size_empty. lia.
  - intros k b p r H _. by rewrite lookup_empty in H.
  - intros k b p r H _. by rewrite lookup_empty in H.
Qed.

(** ** The instances of the engine's theorems *)
Lemma sc_boot_opened : sc_open 1 sc_fs = (Success sc_boot.1, sc_boot.2).
Proof.
  assert (H : result_ok (sc_open 1 sc_fs).1 = true) by (vm_compute; reflexivity).
  unfold sc_boot. destruct (sc_open 1 sc_fs) as [[im|e] fs]; [reflexivity|discriminate H].
Qed.
Lemma sc_boot_inv : engine_inv sc_boot.1.
Proof.
  apply fresh_inv; [split; vm_compute; reflexivity|vm_compute; reflexivity|].
  apply Z.leb_le. vm_compute. reflexivity.
Qed.
Lemma sc_boot_evidence : evidence_inv sc_boot.1.
Proof. apply fresh_evidence; [split; [apply Z.leb_le|apply Z.ltb_lt]|..]; vm_compute; reflexivity. Qed.

(** Open, with the evidence of a failure of [a] and of two healthy alternates. *)
Definition sc_ready : EngineImpl * Fs := sc_run sc_evidence sc_boot.1 sc_boot.2.
Lemma sc_ready_inv : engine_inv sc_ready.1.
Proof. apply run_inv; [repeat constructor|apply sc_boot_inv]. Qed.

(** The answer to the first request: a grant. *)
Definition sc_grant : Result FailoverDecision * EngineImpl * Fs :=
  request_failover (sc_request 1) sc_ready.1 sc_ready.2.
Definition sc_decision : FailoverDecision := result_or decision_none sc_grant.1.1.
Definition sc_granted : EngineImpl * Fs := (sc_grant.1.2, sc_grant.2).
Lemma sc_grant_answer :
  request_failover (sc_request 1) sc_ready.1 sc_ready.2 = (Success sc_decision, sc_granted.1, sc_granted.2).
Proof. unfold sc_decision, sc_granted, sc_grant. answered (request_failover (sc_request 1) sc_ready.1 sc_ready.2). Qed.
Lemma sc_grant_fresh : fresh_grant sc_decision.
Proof. split; vm_compute; reflexivity. Qed.
Lemma sc_granted_inv : engine_inv sc_granted.1.
Proof.
  refine (single_winner_preserved (OpFailover (sc_request 1)) sc_ready.1 sc_ready.2 status_success
    sc_granted.1 sc_granted.2 sc_ready_inv _ _ _); [discriminate|by intros f (q & [=] & _)|].
  cbn [perform]. unfold edecide, ebind, iobind. rewrite sc_grant_answer. reflexivity.
Qed.

(** [performed op im fs]: the state after an operation that succeeds. *)
Lemma edecide_answer (m : EngM (Result FailoverDecision)) im fs d im' fs' :
  m im fs = (Success d, im', fs') -> edecide m im fs = (status_success, im', fs').
Proof. intros H. unfold edecide, ebind, iobind. by rewrite H. Qed.
Lemma sc_grant_performed : perform (OpFailover (sc_request 1)) sc_ready.1 sc_ready.2 =
  (status_success, sc_granted.1, sc_granted.2).
Proof. exact (edecide_answer _ _ _ _ _ _ sc_grant_answer). Qed.

Definition after (op : Operation) (w : EngineImpl * Fs) : EngineImpl * Fs :=
  ((perform op w.1 w.2).1.2, (perform op w.1 w.2).2).
Definition answer_to (op : Operation) (w : EngineImpl * Fs) : Status := (perform op w.1 w.2).1.1.
Lemma after_performed op w : perform op w.1 w.2 = (answer_to op w, (after op w).1, (after op w).2).
Proof. unfold answer_to, after. by destruct (perform op w.1 w.2) as [[s im] fs]. Qed.

Definition sc_first (w : EngineImpl * Fs) : AttemptRecord :=
  hd attempt_none (ds_attempts (engine_state w.1)).
Lemma hd_member {A} (d : A) l : negb (Nat.eqb (length l) 0) = true -> hd d l ∈ l.
Proof. destruct l; [discriminate|intros _; apply list_elem_of_here]. Qed.

(** The replacement carries the traffic: acknowledged, then verified. *)
Definition sc_acknowledge : Operation := OpApplication (MkApplicationReport sc_subject 1 1
  (fd_attempt_id sc_decision) (sc_incarnation 5) 1 true "programmed").
Definition sc_verify : Operation := OpVerification (MkVerificationReport sc_subject 1 1
  (fd_attempt_id sc_decision) (sc_incarnation 5) 1 true "traffic seen").
Definition sc_acknowledged : EngineImpl * Fs := after sc_acknowledge sc_granted.
Definition sc_committed : EngineImpl * Fs := after sc_verify sc_acknowledged.

Lemma grant_sound_witness : exists link verdict chosen seq,
  grant_conditions (advance_tick sc_ready.1) (sc_request 1) link verdict chosen seq /\
  fd_authority sc_decision = grant_authority (advance_tick sc_ready.1) (sc_request 1) link verdict chosen seq.
Proof.
  destruct (grant_sound _ _ _ _ _ _ sc_grant_answer sc_grant_fresh) as (_ & l & v & c & n & r & H & _ & Ha & _).
  exists l, v, c, n. split; [exact H|exact Ha].
Defined.

Lemma single_winner_preserved_witness : engine_inv sc_granted.1.
Proof.
  refine (single_winner_preserved _ _ _ _ _ _ sc_ready_inv _ _ sc_grant_performed); [discriminate|].
  intros f (q & H & _). discriminate H.
Defined.

Lemma grant_exclusive_witness : exists a, a ∈ ds_attempts (engine_state sc_granted.1) /\
  at_attempt_id a = fd_attempt_id sc_decision /\ at_phase a = AttemptPhase.Authorized.
Proof.
  destruct (grant_exclusive _ _ _ _ _ _ (en_bound _ sc_ready_inv) sc_grant_answer sc_grant_fresh)
    as (_ & a & Ha & _ & _ & Hid & _ & Hp & _).
  exists a. split; [exact Ha|split; [exact Hid|exact Hp]].
Defined.

Lemma attempt_lifecycle_witness :
  (exists r, r ∈ ds_attempts (engine_state sc_ready.1) /\ descends r (sc_first sc_granted)) \/
  enters sc_ready.1 (OpFailover (sc_request 1)) (sc_first sc_granted).
Proof.
  apply (attempt_lifecycle _ _ _ _ _ _ _ sc_grant_performed). apply hd_member. vm_compute. reflexivity.
Defined.

Lemma committed_needs_effect_witness : at_phase (sc_first sc_committed) = AttemptPhase.Committed /\
  (sc_first sc_committed ∈ ds_attempts (engine_state sc_acknowledged.1) \/
   exists r, r ∈ ds_attempts (engine_state sc_acknowledged.1) /\
     attempt_identity (sc_first sc_committed) = attempt_identity r /\
     commit_cause sc_acknowledged.1 sc_verify r (sc_first sc_committed)).
Proof.
  assert (Hp : at_phase (sc_first sc_committed) = AttemptPhase.Committed) by (vm_compute; reflexivity).
  split; [exact Hp|].
  refine (committed_needs_effect _ _ _ _ _ _ _ (after_performed sc_verify sc_acknowledged) _ Hp).
  apply hd_member. vm_compute. reflexivity.
Defined.

(** A restart over the medium left by the grant. *)
Definition sc_reopened : EngineImpl * Fs :=
  (result_or sc_boot.1 (sc_open 2 sc_granted.2).1, (sc_open 2 sc_granted.2).2).
Lemma sc_reopen_opened :
  engine_open sc_options (sc_incarnation 2) "gcc" "x86_64" sc_granted.2 = (Success sc_reopened.1, sc_reopened.2).
Proof.
  assert (H : result_ok (sc_open 2 sc_granted.2).1 = true) by (vm_compute; reflexivity).
  unfold sc_reopened. change (engine_open _ _ _ _ _) with (sc_open 2 sc_granted.2).
  revert H. generalize (sc_open 2 sc_granted.2). intros [[im|s] fs] H; [reflexivity|discriminate H].
Qed.

(** The table of a medium, checked. *)
Definition table_checked (st : DurableState) : bool :=
  (bool_decide (NoDup (map attempt_key (ds_attempts st))) && (0 <=? ds_epoch st) &&
   forallb (fun r => av_epoch (at_authority r) <=? ds_epoch st) (ds_attempts st))%bool.
Lemma table_checked_sound st : table_checked st = true -> keys_unique (ds_attempts st) /\ epochs_bounded st.
Proof.
  unfold table_checked. rewrite !andb_true_iff. intros [[H1%bool_decide_eq_true H2%Z.leb_le] H3].
  split; [exact H1|]. split; [exact H2|]. intros r Hr.
  rewrite forallb_forall in H3. by apply Z.leb_le, H3, list_elem_of_In.
Qed.

(** A medium whose next write is cut short: the request is not answered by a grant,
    and the store refuses from then on. *)
Definition sc_torn : EngineImpl * Fs :=
  after (OpFailover (sc_request 1)) (sc_ready.1, MkFs (fs_files sc_ready.2) (fs_dirs sc_ready.2) [Some (7%nat, 28)]).

Lemma failed_store_grants_nothing_witness :
  store_failed (im_store sc_torn.1) = true /\
  same_core (engine_lineage sc_torn.1) (engine_lineage (after (OpFailover (sc_request 2)) sc_torn).1).
Proof.
  assert (Hf : store_failed (im_store sc_torn.1) = true) by (vm_compute; reflexivity).
  split; [exact Hf|].
  assert (Hop : OpFailover (sc_request 2) <> OpClose) by discriminate.
  exact (proj1 (failed_store_grants_nothing _ _ _ _ _ _ Hf Hop
    (after_performed (OpFailover (sc_request 2)) sc_torn))).
Defined.

Definition sc_entry : IdempotencyEntry := hd (idempotency_of (sc_key 1) sc_decision) (ds_idempotency (engine_state sc_granted.1)).
Lemma idempotent_replay_witness :
  exists d, request_failover (sc_request 1) sc_granted.1 sc_granted.2 =
      (Success d, advance_tick sc_granted.1, sc_granted.2) /\
    fd_idempotent_replay d = true /\ fd_decision_id d = ie_decision_id sc_entry.
Proof.
  assert (Hu : unavailable sc_granted.1 = None) by (vm_compute; reflexivity).
  assert (Hr : request_refused (advance_tick sc_granted.1) (sc_request 1) = None) by (vm_compute; reflexivity).
  assert (Hf : find_idempotency (engine_state sc_granted.1) (fq_idempotency_key (sc_request 1)) = Some sc_entry)
    by (vm_compute; reflexivity).
  destruct (idempotent_replay _ _ sc_granted.2 _ Hu Hr Hf) as (d & H1 & H2 & _ & H3 & _).
  exists d. split; [exact H1|split; [exact H2|exact H3]].
Defined.

(** ** The instances of the evidence theorems *)
Definition sc_reported : EngineImpl := (publish_failure_report (sc_failure "p" 4) sc_boot.1).2.
Lemma sc_report_accepted :
  publish_failure_report (sc_failure "p" 4) sc_boot.1 = (status_success, sc_reported).
Proof.
  assert (H : (publish_failure_report (sc_failure "p" 4) sc_boot.1).1 = status_success) by (vm_compute; reflexivity).
  unfold sc_reported. revert H. generalize (publish_failure_report (sc_failure "p" 4) sc_boot.1).
  intros [s im] H. cbn [fst] in H. rewrite H. reflexivity.
Qed.
Lemma publication_accounting_witness :
  evidence_inv (publish_failure_report (sc_failure "p" 4) sc_boot.1).2 /\
  evidence_inv (publish_replacement_report (sc_replacement "p" "b" 1) sc_boot.1).2.
Proof.
  destruct (publication_accounting _ sc_boot_evidence) as [H1 H2].
  split; [exact (proj1 (H1 (sc_failure "p" 4)))|exact (proj1 (H2 (sc_replacement "p" "b" 1)))].
Defined.
Lemma observation_replay_refused_witness :
  status_ok (publish_failure_report (sc_failure "p" 3) sc_reported).1 = false.
Proof.
  assert (Hle : es_observation_seq (fr_stamp (sc_failure "p" 3)) <= es_observation_seq (fr_stamp (sc_failure "p" 4)))
    by (vm_compute; discriminate).
  pose proof (observation_replay_refused (sc_failure "p" 4) (sc_failure "p" 3) _ _ sc_boot_evidence
    sc_report_accepted eq_refl eq_refl eq_refl Hle) as H.
  revert H. destruct (publish_failure_report (sc_failure "p" 3) sc_reported) as [s im2]. intros [H _]. exact H.
Defined.

(** ** Deciding well-formedness *)
#[global] Instance count_wf_dec {A} n (l : list A) : Decision (count_wf n l).
Proof. unfold count_wf. apply _. Defined.
#[global] Instance opt_wf_dec {A} (P : A -> Prop) `{!forall x, Decision (P x)} o : Decision (opt_wf P o).
Proof.
  destruct o as [a|]; [|left; by intros ? [=]].
  destruct (decide (P a)); [left; by intros ? [= <-]|right; intros Ho; by apply n, Ho].
Defined.
#[global] Instance attempt_wf_dec r : Decision (attempt_wf r).
Proof. unfold attempt_wf. apply _. Defined.
#[global] Instance link_key_valid_dec k : Decision (link_key_valid k).
Proof. unfold link_key_valid. apply _. Defined.
#[global] Instance idempotency_wf_dec e : Decision (idempotency_wf e).
Proof. unfold idempotency_wf. destruct (ie_has_replacement e); apply _. Defined.
Ltac evaluate := refine (bool_decide_eq_true_1 _ _); vm_compute; reflexivity.

Definition state_checked (st : DurableState) : bool :=
  (bool_decide (is_valid_name (ds_fabric st) = true) && bool_decide (policy_wf (ds_policy st)) &&
   bool_decide (topology_wf (ds_topology st)) && bool_decide (is_u64 (ds_epoch st)) &&
   bool_decide (incarnation_wf (ds_coordinator st)) && bool_decide (is_u64 (ds_last_seq st)) &&
   bool_decide (is_u64 (ds_boot_count st)) && bool_decide (is_u64 (ds_record_count st)) &&
   bool_decide (is_u64 (ds_epoch_advances st)) &&
   bool_decide (count_wf 1000000 (ds_attempts st) /\ Forall attempt_wf (ds_attempts st)) &&
   bool_decide (count_wf 1000000 (ds_fences st) /\ Forall fence_wf (ds_fences st)) &&
   bool_decide (count_wf 1000000 (ds_idempotency st) /\ Forall idempotency_wf (ds_idempotency st)))%bool.
Lemma state_checked_sound st : state_checked st = true -> state_wf st.
Proof. unfold state_checked. rewrite !andb_true_iff, !bool_decide_eq_true. intros H. destruct_and!. by split. Qed.
Lemma sc_granted_wf : state_wf (engine_state sc_granted.1).
Proof. apply state_checked_sound. vm_compute. reflexivity. Qed.

(** ** The instances of the store, journal and snapshot theorems *)
Definition sc_payload : bytes := match serialise (engine_state sc_granted.1) with Success p => p | Failure _ => [] end.
Lemma sc_payload_serialised : serialise (engine_state sc_granted.1) = Success sc_payload.
Proof.
  assert (H : result_ok (serialise (engine_state sc_granted.1)) = true) by (vm_compute; reflexivity).
  unfold sc_payload. revert H. generalize (serialise (engine_state sc_granted.1)).
  intros [p|s] H; [reflexivity|discriminate H].
Qed.
Lemma deserialise_serialise_witness : deserialise sc_payload = Success (engine_state sc_granted.1).
Proof. exact (deserialise_serialise _ _ sc_granted_wf sc_payload_serialised). Defined.

Lemma unframe_one_byte_corruption_witness :
  is_failure (unframe_snapshot (<[40%nat := 255]> (frame_snapshot sc_payload))) = true.
Proof.
  assert (Hp : Forall is_u8 sc_payload) by evaluate.
  assert (Hb : is_u8 255) by evaluate.
  assert (Hi : (40 < length (frame_snapshot sc_payload))%nat) by (apply Nat.ltb_lt; vm_compute; reflexivity).
  assert (Hn : frame_snapshot sc_payload !! 40%nat <> Some 255) by (vm_compute; discriminate).
  exact (unframe_one_byte_corruption _ _ _ Hp Hb Hi Hn).
Defined.

(** The store of the engine that has just opened, and the same store on a medium
    whose next write is cut after seven bytes. *)
Definition sc_opened : StoreImpl * Fs :=
  match store_open (store_options_of sc_options) sc_fs with
  | (Success s, fs) => (s, fs)
  | (Failure _, fs) =>
      (MkStore (MkLineage (store_options_of sc_options) state_empty status_initial) None true 0, fs)
  end.
Definition sc_journal_ok (base : LineageSeq) (recs : list RecordView) (s : StoreImpl) (fs : Fs) : bool :=
  (bool_decide (journal_ok base recs) &&
   bool_decide (file_of fs (journal_path (sm_options s)) = journal_image base recs) &&
   (ds_last_seq (sm_state s) =? last_seq_of base recs) &&
   match sm_writer s with
   | Some w => (bool_decide (jw_path w = journal_path (sm_options s)) &&
                (jw_last_seq w =? ds_last_seq (sm_state s)) && negb (jw_failed w))%bool
   | None => false
   end)%bool.
Lemma sc_journal_sound base recs s fs : sc_journal_ok base recs s fs = true -> journal_of base recs s fs.
Proof.
  unfold sc_journal_ok. destruct (sm_writer s) as [w|] eqn:Ew; rewrite !andb_true_iff; [|by intros [_ [=]]].
  intros [[[H1%bool_decide_eq_true H2%bool_decide_eq_true] H3%Z.eqb_eq] [[H4%bool_decide_eq_true H5%Z.eqb_eq] H6%negb_true_iff]].
  split; [done..|]. by exists w.
Qed.

Lemma sc_opened_journal faults : journal_of 0 [] sc_opened.1 (MkFs (fs_files sc_opened.2) (fs_dirs sc_opened.2) faults).
Proof. apply sc_journal_sound. vm_compute. reflexivity. Qed.

Definition sc_apply (seq : LineageSeq) (l : Lineage) : Lineage := set_ln_state (set_ds_policy sc_policy (ln_state l)) l.
Definition sc_commit (faults : list (option (nat * Z))) : Status * StoreImpl * Fs :=
  store_commit_impl sc_opened.1 RecordType.PolicyCommit (encode_policy_payload sc_policy) sc_apply
    (MkFs (fs_files sc_opened.2) (fs_dirs sc_opened.2) faults).
Definition sc_tear : list (option (nat * Z)) := [Some (7%nat, 28)].
Lemma sc_commit_run faults :
  store_commit_impl sc_opened.1 RecordType.PolicyCommit (encode_policy_payload sc_policy) sc_apply
    (MkFs (fs_files sc_opened.2) (fs_dirs sc_opened.2) faults) =
  ((sc_commit faults).1.1, (sc_commit faults).1.2, (sc_commit faults).2).
Proof. unfold sc_commit. apply surjective_triple. Qed.
Lemma sc_apply_options : keeps_options sc_apply.
Proof. intros seq l. reflexivity. Qed.
Lemma sc_policy_bytes : Forall is_u8 (encode_policy_payload sc_policy).
Proof. evaluate. Qed.

Lemma commit_failure_is_final_witness :
  sm_lineage (sc_commit sc_tear).1.2 = sm_lineage sc_opened.1 /\ sm_failed (sc_commit sc_tear).1.2 = true.
Proof.
  assert (Hs : status_ok (sc_commit sc_tear).1.1 = false) by (vm_compute; reflexivity).
  destruct (commit_failure_is_final _ _ _ _ _ _ _ _
    (sc_commit_run sc_tear) Hs) as (H1 & H2 & _).
  split; [exact H1|exact H2].
Defined.

Lemma commit_refines_append_witness :
  journal_of 0 [MkView RecordType.PolicyCommit 1 (encode_policy_payload sc_policy)]
    (sc_commit []).1.2 (sc_commit []).2.
Proof.
  assert (Hs : status_ok (sc_commit []).1.1 = true) by (vm_compute; reflexivity).
  destruct (commit_refines_append _ _ _ _ _ _ _ _ _ _ (sc_opened_journal []) sc_policy_bytes sc_apply_options
    (sc_commit_run [])) as [H _].
  exact (proj1 (H Hs)).
Defined.

Lemma commit_crash_safe_witness : exists recs1 result cut l,
  (recs1 = [] \/ recs1 = [MkView RecordType.PolicyCommit 1 (encode_policy_payload sc_policy)]) /\
  replay_bytes apply_record true (file_of (sc_commit sc_tear).2 (journal_path (sm_options sc_opened.1)))
    (sm_lineage sc_opened.1) = (Success result, cut, l) /\
  jo_records_replayed result = Z.of_nat (length recs1).
Proof.
  assert (Hl : Z.of_nat (length (encode_policy_payload sc_policy)) <= kMaxRecordPayload) by evaluate.
  assert (Hq : ds_last_seq (sm_state sc_opened.1) < 18446744073709551615) by evaluate.
  assert (Hr : run_hook apply_record ([] ++ [MkView RecordType.PolicyCommit 1 (encode_policy_payload sc_policy)])
    (sm_lineage sc_opened.1) = (None, sc_apply 1 (sm_lineage sc_opened.1))) by (vm_compute; reflexivity).
  destruct (commit_crash_safe _ _ _ _ _ _ _ _ _ _ _ _ _ (sc_opened_journal sc_tear) sc_policy_bytes
    sc_apply_options Hl Hq (sc_commit_run sc_tear) Hr) as (recs1 & result & cut & l & H1 & _ & _ & H2 & H3).
  exists recs1, result, cut, l. split; [exact H1|split; [exact H2|exact H3]].
Defined.

(** The store of the second start, before its fence. *)
Definition sc_restored : Result StoreImpl * Fs := store_open (store_options_of sc_options) sc_granted.2.
Definition sc_restored_store : StoreImpl := result_or sc_opened.1 sc_restored.1.
Definition sc_fenced : Result nat * LineageStore * Fs :=
  fence_restart_authority (Some sc_restored_store) 2 (sc_incarnation 2) sc_restored.2.
Definition sc_fenced_count : nat := result_or 0%nat sc_fenced.1.1.
Lemma sc_fence_run : fence_restart_authority (Some sc_restored_store) 2 (sc_incarnation 2) sc_restored.2 =
  (Success sc_fenced_count, sc_fenced.1.2, sc_fenced.2).
Proof.
  unfold sc_fenced_count, sc_fenced.
  answered (fence_restart_authority (Some sc_restored_store) 2 (sc_incarnation 2) sc_restored.2).
Qed.
Lemma restart_leaves_nothing_in_flight_witness : sc_fenced_count = 1%nat /\
  exists s', sc_fenced.1.2 = Some s' /\ forall r', r' ∈ ds_attempts (sm_state s') -> is_terminal r' = true.
Proof.
  assert (Hu : keys_unique (ds_attempts (sm_state sc_restored_store))).
  { assert (H : table_checked (sm_state sc_restored_store) = true) by (vm_compute; reflexivity).
    exact (proj1 (table_checked_sound _ H)). }
  destruct (restart_leaves_nothing_in_flight _ _ _ _ _ _ _ Hu sc_fence_run) as (s' & Hs & _ & _ & _ & H).
  split; [vm_compute; reflexivity|]. exists s'. split; [exact Hs|]. intros r' Hr. exact (proj1 (restarted_all _ _ H r' Hr)).
Defined.

(** A journal of two records, applied by the store's own callback. *)
Definition sc_records : list RecordView :=
  [MkView RecordType.PolicyCommit 1 (encode_policy_payload sc_policy);
   MkView RecordType.TopologyCommit 2 (encode_topology_payload sc_topology)].
Definition sc_blank : Lineage := sm_lineage sc_opened.1.
Lemma sc_records_ok : journal_ok 0 sc_records.
Proof. evaluate. Qed.
Lemma sc_records_replayed : run_hook apply_record sc_records sc_blank = (None, (run_hook apply_record sc_records sc_blank).2).
Proof.
  assert (H : (run_hook apply_record sc_records sc_blank).1 = None) by (vm_compute; reflexivity).
  revert H. generalize (run_hook apply_record sc_records sc_blank). intros [o l] H. cbn in H. rewrite H. reflexivity.
Qed.
Lemma replay_any_prefix_witness : exists recs1 recs2 st1, sc_records = recs1 ++ recs2 /\
  replay_bytes apply_record true (take 150 (journal_image 0 sc_records)) sc_blank =
  (Success (MkOpenResult (MkJournalHeader kJournalFormatVersion 0 0) (last_seq_of 0 recs1)
     (negb (Nat.eqb 150 (length (journal_image 0 recs1)))) false (Z.of_nat (length recs1))
     (150 - Z.of_nat (length (journal_image 0 recs1)))),
   if negb (Nat.eqb 150 (length (journal_image 0 recs1))) then Some (Z.of_nat (length (journal_image 0 recs1))) else None, st1).
Proof.
  assert (Hn : (32 <= 150 <= length (journal_image 0 sc_records))%nat)
    by (split; apply Nat.leb_le; vm_compute; reflexivity).
  destruct (replay_any_prefix apply_record 0 sc_records 150 sc_blank _ sc_records_ok sc_records_replayed Hn)
    as (recs1 & recs2 & st1 & H1 & _ & _ & _ & H2).
  exists recs1, recs2, st1. split; [exact H1|exact H2].
Defined.
Lemma replay_one_byte_corruption_witness : exists s st',
  replay_bytes apply_record true (<[60%nat := 255]> (journal_image 0 sc_records)) sc_blank = (Failure s, None, st').
Proof.
  assert (Hb : is_u8 255) by evaluate.
  assert (Hi : (60 < length (journal_image 0 sc_records))%nat) by (apply Nat.ltb_lt; vm_compute; reflexivity).
  assert (Hn : journal_image 0 sc_records !! 60%nat <> Some 255) by (vm_compute; discriminate).
  exact (replay_one_byte_corruption apply_record true 0 sc_records 60 255 sc_blank sc_records_ok Hb Hi Hn).
Defined.
Lemma note_attempt_retention_witness :
  sc_first sc_granted ∈ ds_attempts (ln_state (note_attempt (sc_first sc_granted) sc_blank)).
Proof.
  assert (H : attempt_phase_is_terminal (at_phase (sc_first sc_granted)) = false) by (vm_compute; reflexivity).
  exact (proj1 (proj2 (note_attempt_retention (sc_first sc_granted) sc_blank)) H).
Defined.

(** ** The instances of the selector's theorems *)
Definition sc_input : SelectionInput :=
  selection_input (advance_tick sc_ready.1) (sc_request 1) (MkLink (sc_link "a") 1 10).
Lemma sc_input_unique : candidates_unique sc_input.
Proof.
  assert (H : bool_decide (NoDup (map rs_candidate (si_candidates sc_input))) = true) by (vm_compute; reflexivity).
  exact (bool_decide_eq_true_1 _ H).
Qed.
Lemma select_replacement_perm_witness :
  select_replacement (with_candidates sc_input (rev (si_candidates sc_input))) = select_replacement sc_input.
Proof. exact (select_replacement_perm _ _ sc_input_unique (Permutation_rev _)). Defined.
Lemma validate_select_replacement_witness :
  validate_selection sc_input (select_replacement sc_input) = status_success.
Proof. exact (validate_select_replacement _ sc_input_unique). Defined.
Lemma validate_selection_sound_witness : exists i a,
  so_selected_index (select_replacement sc_input) = Some i /\
  so_assessments (select_replacement sc_input) !! i = Some a /\ ca_verdict a = Verdict.Eligible.
Proof.
  assert (Hv : status_ok (validate_selection sc_input (select_replacement sc_input)) = true) by (vm_compute; reflexivity).
  assert (Hs : so_status (select_replacement sc_input) = SelectionStatus.Selected) by (vm_compute; reflexivity).
  destruct (validate_selection_sound _ _ Hv Hs) as (i & a & H1 & H2 & H3 & _).
  exists i, a. split; [exact H1|split; [exact H2|exact H3]].
Defined.

(** ** The instances of the definitions' theorems *)
Lemma failover_policy_text_roundtrip_witness :
  failover_policy_parse (failover_policy_to_string sc_policy) policy_defaults = Some sc_policy.
Proof.
  assert (H : policy_text_wf sc_policy) by evaluate.
  exact (failover_policy_text_roundtrip _ policy_defaults H).
Defined.
Definition sc_shuffled : TopologySnapshot :=
  MkTopology 1 [MkLink (sc_link "c") 1 10; MkLink (sc_link "a") 1 10; MkLink (sc_link "b") 1 10].
Lemma topology_canonicalise_perm_witness :
  topology_digest (topology_canonicalise sc_shuffled) = topology_digest (topology_canonicalise sc_topology).
Proof.
  assert (Ho : topology_ok (topology_canonicalise sc_shuffled)).
  { refine (proj1 (topology_validate_iff _) _). vm_compute. reflexivity. }
  assert (Hp : ts_links sc_shuffled ≡ₚ ts_links sc_topology) by (cbn; solve_Permutation).
  exact (proj2 (topology_canonicalise_perm _ sc_topology Ho eq_refl Hp)).
Defined.

(** ** The instances of the wire's and the server's theorems *)
#[global] Instance view_count_dec n : Decision (view_count n).
Proof. unfold view_count. apply _. Defined.
#[global] Instance directive_wf_dec d : Decision (directive_wf d).
Proof. unfold directive_wf. change (codec_wf (di_authority d)) with (authority_wf (di_authority d)). apply _. Defined.
#[global] Instance response_wf_dec e : Decision (response_wf e).
Proof. unfold response_wf. apply _. Defined.

Definition view_checked (v : EngineView) : bool :=
  (is_valid_name (vw_fabric v) && bool_decide (is_u64 (vw_epoch v)) &&
   bool_decide (incarnation_wf (vw_coordinator v)) && bool_decide (is_u64 (vw_policy_generation v)) &&
   bool_decide (is_u64 (vw_topology_generation v)) && bool_decide (digest_wf (vw_policy_digest v)) &&
   bool_decide (digest_wf (vw_topology_digest v)) && bool_decide (is_u64 (vw_boot_count v)) &&
   bool_decide (is_u64 (vw_last_seq v)) && bool_decide (view_count (vw_tracked_publishers v)) &&
   bool_decide (0 <= vw_evidence_entries v <= kMaxViewCount) &&
   bool_decide (view_count (vw_retained_attempts v)) && bool_decide (view_count (vw_retained_fences v)) &&
   bool_decide (view_count (vw_retained_decisions v)) && bool_decide (view_count (vw_pending_directives v)) &&
   bool_decide (view_count (vw_active_authorities v)) && bool_decide (view_count (vw_interrupted_attempts v)) &&
   bool_decide (count_wf 256 (vw_recent_attempts v) /\ Forall attempt_wf (vw_recent_attempts v)) &&
   bool_decide (count_wf 256 (vw_recent_fences v) /\ Forall fence_wf (vw_recent_fences v)))%bool.
Lemma view_checked_sound v : view_checked v = true -> engine_view_wf v.
Proof. unfold view_checked. rewrite !andb_true_iff, !bool_decide_eq_true. intros H. destruct_and!. by split. Qed.

Definition sc_hello : HelloRequest := MkHello kWireProtocolVersion (sc_incarnation 3) 0 "worker".
Definition sc_view : EngineView := inspect sc_granted.1 8.
Definition sc_claims : ClaimResponse := MkClaimResponse (pending_directives sc_granted.1 4).
Lemma wire_bodies_roundtrip_witness :
  decode_payload (encode_payload sc_hello) = Some sc_hello /\
  decode_payload (encode_payload sc_claims) = Some sc_claims /\
  decode_engine_view (encode_engine_view sc_view) = Some sc_view.
Proof.
  assert (H1 : hello_request_wf sc_hello) by evaluate.
  assert (H2 : hello_response_wf (MkHelloResponse kWireProtocolVersion 1 (sc_incarnation 1) 1 1024 0)) by evaluate.
  assert (H3 : claim_request_wf (MkClaimRequest 4)) by (split; apply Nat.leb_le; vm_compute; reflexivity).
  assert (H4 : claim_response_wf sc_claims).
  { assert (Hb : bool_decide (count_wf 64 (cr_directives sc_claims) /\ Forall directive_wf (cr_directives sc_claims)) = true)
      by (vm_compute; reflexivity).
    exact (bool_decide_eq_true_1 _ Hb). }
  assert (H5 : inspect_request_wf (MkInspectRequest 8)) by (apply Nat.leb_le; vm_compute; reflexivity).
  assert (H6 : engine_view_wf sc_view) by (apply view_checked_sound; vm_compute; reflexivity).
  assert (H7 : response_wf (MkResponse 17 Outcome.Ok [])) by evaluate.
  destruct (wire_bodies_roundtrip _ _ _ _ _ _ _ [] H1 H2 H3 H4 H5 H6 H7) as (G1 & _ & _ & G2 & _ & G3 & _).
  split; [exact G1|split; [exact G2|exact G3]].
Defined.

(** A server on the engine that has its evidence, with one client. *)
Definition sc_send (v : SessionState) (frame : bytes) : Status := status_success.
Definition sc_endpoint : Endpoint := MkEndpoint "127.0.0.1" 7400.
Definition sc_server_options : ServerOptions := MkServerOptions sc_endpoint true 2 65536 16 false.
Definition sc_server : ServerImpl :=
  result_or (MkServer sc_server_options sc_ready.1 false true 0 0 0 1 ∅ [] false)
    (server_start (fun _ _ => None) sc_server_options sc_ready.1).
Definition sc_world : World := (admit_session sc_server, sc_ready.2).
Definition sc_body : bytes :=
  encode_payload (MkEnvelope 1 1 (sc_incarnation 3) 1) ++ encode_payload (sc_request 1).
Definition sc_frames : list WireFrame :=
  [(MessageType.Hello, encode_payload sc_hello); (MessageType.RequestFailover, sc_body)].
Definition sc_shaken : World :=
  handle_frame sc_send 1 (frame_header (MessageType.Hello, encode_payload sc_hello)) (encode_payload sc_hello) sc_world.
Definition sc_ask : FrameHeader := frame_header (MessageType.RequestFailover, sc_body).
Definition sc_asked : World := handle_frame sc_send 1 sc_ask sc_body sc_shaken.

Lemma sc_asked_handled : sv_requests_handled sc_asked.1 <> sv_requests_handled sc_shaken.1.
Proof. vm_compute. discriminate. Qed.

Lemma frame_needs_authority_witness : exists v v',
  sv_conns sc_shaken.1 !! 1 = Some v /\ ss_handshaken v = true /\
  sv_conns sc_asked.1 !! 1 = Some v' /\ ss_last_seq v' = 1.
Proof.
  assert (E : handle_frame sc_send 1 sc_ask sc_body (sc_shaken.1, sc_shaken.2) = (sc_asked.1, sc_asked.2)).
  { unfold sc_asked. generalize sc_shaken. intros [s fs]. cbn [fst snd].
    generalize (handle_frame sc_send 1 sc_ask sc_body (s, fs)). intros [s' fs']. reflexivity. }
  destruct (frame_needs_authority _ _ _ _ _ _ _ _ E) as [(_ & _ & H)|(v & e & r & v' & Hv & Hh & Hd & _ & _ & _ & _ & _ & _ & Hv' & Hs)].
  - exfalso. exact (sc_asked_handled H).
  - exists v, v'. split; [exact Hv|]. split; [exact Hh|]. split; [exact Hv'|]. rewrite Hs.
    assert (He : (decode (A := SessionEnvelope) (reader_of sc_body)).1 = Some (MkEnvelope 1 1 (sc_incarnation 3) 1))
      by (vm_compute; reflexivity).
    rewrite He in Hd. injection Hd as Hd. rewrite <- Hd. reflexivity.
Defined.

Lemma request_executed_once_witness :
  sv_requests_handled (handle_frame sc_send 1 sc_ask sc_body sc_asked).1 = sv_requests_handled sc_asked.1.
Proof. exact (proj2 (proj2 (request_executed_once sc_send 1 sc_ask sc_body [] sc_shaken sc_asked_handled))). Defined.

Lemma service_single_winner_witness :
  engine_inv (sv_engine (handle_frames sc_send [(1, sc_ask, sc_body)] sc_shaken).1).
Proof.
  assert (Hi : engine_inv (sv_engine sc_shaken.1)).
  { assert (E : sv_engine sc_shaken.1 = sc_ready.1) by (vm_compute; reflexivity). rewrite E. exact sc_ready_inv. }
  assert (Hf : Forall (fun f : Z * FrameHeader * bytes => fh_type f.1.2 <> MessageType.ResolveInterrupted)
    [(1, sc_ask, sc_body)]) by (constructor; [discriminate|constructor]).
  pose proof (service_single_winner sc_send [(1, sc_ask, sc_body)] _ sc_shaken.2 Hi Hf) as [H _].
  rewrite <- surjective_pairing in H. exact H.
Defined.

Lemma sc_server_started : server_start (fun _ _ => None) sc_server_options sc_ready.1 = Success sc_server.
Proof. reflexivity. Qed.
Lemma admission_bounded_witness :
  live_sessions (admit_session (admit_session (admit_session sc_server))) <= 2.
Proof.
  assert (H1 : server_steps sc_send 2 (sc_server, sc_ready.2) (admit_session (admit_session sc_server), sc_ready.2)).
  { apply (sts_step sc_send 1 1 _ (admit_session sc_server, sc_ready.2)); [|constructor].
    apply (sts_step sc_send 0 1 _ (sc_server, sc_ready.2)); constructor. }
  assert (H2 : server_steps sc_send 1 (admit_session (admit_session sc_server), sc_ready.2) (admit_session (admit_session (admit_session sc_server)), sc_ready.2)).
  { apply (sts_step sc_send 0 1 _ (admit_session (admit_session sc_server), sc_ready.2)); constructor. }
  assert (Ho : 0 <= vo_max_sessions sc_server_options) by evaluate.
  assert (Hn : 1 + 2 + 1 < two64) by evaluate.
  exact (proj1 (admission_bounded sc_send _ _ _ _ _ _ _ _ _ Ho sc_server_started H1 H2 Hn)).
Defined.

(** The same two frames as a stream, cut in the middle of the second. *)
Definition sc_stream : bytes := stream_image sc_frames.
Definition sc_chunks : list bytes := [take 100 sc_stream; drop 100 sc_stream].
Lemma serve_refines_frames_witness :
  serve sc_send 1 (map Received sc_chunks ++ [Received []]) sc_world =
    let w := deliver_frames sc_send 1 sc_frames sc_world in Some (on_session 1 session_end w.1, w.2).
Proof.
  assert (Hf : Forall2 (encoded_as 1000) sc_frames (map frame_image sc_frames)).
  { unfold sc_frames. cbn [map]. constructor; [vm_compute; reflexivity|constructor; [vm_compute; reflexivity|constructor]]. }
  assert (Hc : concat sc_chunks = concat (map frame_image sc_frames)) by (vm_compute; reflexivity).
  assert (Hs : Forall (fun c : bytes => c <> [] /\ Z.of_nat (length c) <= max_frame sc_world.1 - 1000 + 1) sc_chunks).
  { repeat constructor; vm_compute; discriminate. }
  assert (Hm : 1000 <= max_frame sc_world.1) by (vm_compute; discriminate).
  assert (H0 : 0 <= 1000) by evaluate.
  assert (Ht : Forall (fun f : WireFrame => f.1 <> MessageType.Shutdown) sc_frames) by (repeat constructor; discriminate).
  assert (Hq : sv_stop_requested sc_world.1 = false) by (vm_compute; reflexivity).
  exact (serve_refines_frames sc_send 1 1000 sc_frames _ sc_chunks _ _ Hf Hm H0 Hc Hs Ht Hq).
Defined.

(** ** The instances of the client's theorems *)
#[global] Instance session_state_eq_dec : EqDecision SessionState.
Proof. solve_decision. Defined.
#[global] Instance status_eq_dec : EqDecision Status.
Proof. solve_decision. Defined.
#[global] Instance frame_decoder_eq_dec : EqDecision FrameDecoder.
Proof. solve_decision. Defined.
#[global] Instance assessment_wf_dec a : Decision (assessment_wf a).
Proof. unfold assessment_wf. apply _. Defined.
#[global] Instance decision_wf_dec d : Decision (decision_wf d).
Proof. unfold decision_wf. apply _. Defined.
#[global] Instance candidate_wf_dec c : Decision (candidate_wf c).
Proof. unfold candidate_wf. apply _. Defined.
#[global] Instance expectation_wf_dec e : Decision (expectation_wf e).
Proof. unfold expectation_wf. apply _. Defined.
#[global] Instance failure_report_wf_dec r : Decision (failure_report_wf r).
Proof. unfold failure_report_wf, stamp_wf. apply _. Defined.
#[global] Instance envelope_wf_dec e : Decision (envelope_wf e).
Proof. unfold envelope_wf. apply _. Defined.
#[global] Instance request_wf_dec q : Decision (failover_request_wf q).
Proof. unfold failover_request_wf. apply _. Defined.

Definition sc_line : Line := MkLine sc_world (decoder_new 65536).
Definition sc_client : ClientImpl := MkClient true sc_endpoint "worker" hello_none 0 (sc_incarnation 3) kDefaultFramePayload.

Definition fresh_checked (l : Line) (v : SessionState) : bool :=
  (bool_decide (sv_conns (li_world l).1 !! 1 = Some v) && line_open v && negb (ss_handshaken v) &&
   bool_decide (is_u64 (ss_id v)) && bool_decide (is_u64 (im_epoch (sv_engine (li_world l).1))) &&
   bool_decide (incarnation_wf (im_incarnation (sv_engine (li_world l).1))) &&
   bool_decide (96 <= max_frame (li_world l).1 <= kMaxFramePayload) &&
   bool_decide (li_decoder l = decoder_new (max_frame (li_world l).1)) && negb (sv_stop_requested (li_world l).1))%bool.
Lemma fresh_checked_sound l v : fresh_checked l v = true -> session_fresh 1 l v.
Proof.
  unfold fresh_checked. rewrite !andb_true_iff, !negb_true_iff, !bool_decide_eq_true.
  intros H. destruct_and!. by split.
Qed.
Lemma handshake_opens_session_witness : exists h l' v',
  client_handshake (line_transmit 1) sc_client ([], sc_line) = Some (status_success, greeted h sc_client, ([], l')) /\
  hr_session_id h = 1 /\ hr_epoch h = 1 /\ session_matches 1 (greeted h sc_client) l' v'.
Proof.
  assert (Hf : session_fresh 1 sc_line (session_new 1)) by (apply fresh_checked_sound; vm_compute; reflexivity).
  assert (Hi : incarnation_wf (cl_incarnation sc_client)) by evaluate.
  assert (Hr : Z.of_nat (String.length (cl_role sc_client)) <= 64) by evaluate.
  assert (Hm : 48 <= cl_max_payload sc_client <= kMaxFramePayload) by evaluate.
  destruct (handshake_opens_session 1 _ _ _ Hf Hi Hr Hm) as (h & l' & v' & H1 & H2 & H3 & _ & _ & _ & H4).
  exists h, l', v'. split; [exact H1|]. split; [exact H2|]. split; [|exact H4].
  rewrite H3. vm_compute. reflexivity.
Defined.

(** The same connection after its handshake. *)
Definition sc_greeted : ClientImpl := greeted (hello_response (session_new 1) sc_world.1) sc_client.
Definition sc_connected : Line := MkLine
  (handle_frame line_send 1 (frame_header (MessageType.Hello, encode_payload sc_hello)) (encode_payload sc_hello) sc_world)
  (decoder_new 65536).
Definition sc_session : SessionState := default (session_new 0) (sv_conns (li_world sc_connected).1 !! 1).
Definition matched_checked (c : ClientImpl) (l : Line) (v : SessionState) : bool :=
  (bool_decide (sv_conns (li_world l).1 !! 1 = Some v) && line_open v && ss_handshaken v &&
   bool_decide (hr_session_id (cl_hello c) = ss_id v) && bool_decide (cl_incarnation c = ss_client v) &&
   bool_decide (hr_epoch (cl_hello c) = im_epoch (sv_engine (li_world l).1)) &&
   bool_decide (cl_seq c = ss_last_seq v) && bool_decide (cl_max_payload c = max_frame (li_world l).1) &&
   bool_decide (40 <= cl_max_payload c <= kMaxFramePayload) &&
   bool_decide (li_decoder l = decoder_new (cl_max_payload c)) && negb (sv_stop_requested (li_world l).1) &&
   bool_decide (envelope_wf (MkEnvelope (ss_id v) (hr_epoch (cl_hello c)) (ss_client v) (ss_last_seq v))))%bool.
Lemma matched_checked_sound c l v : matched_checked c l v = true -> session_matches 1 c l v.
Proof.
  unfold matched_checked. rewrite !andb_true_iff, !negb_true_iff, !bool_decide_eq_true.
  intros H. destruct_and!. by split.
Qed.
Lemma sc_connected_matches : session_matches 1 sc_greeted sc_connected sc_session.
Proof. apply matched_checked_sound. vm_compute. reflexivity. Qed.

Lemma sc_connected_engine : engine_at sc_connected = sc_ready.1 /\ medium_at sc_connected = sc_ready.2.
Proof. split; vm_compute; reflexivity. Qed.
Lemma remote_decision_is_local_witness : exists l' v',
  client_failover (line_transmit 1) (sc_request 1) sc_greeted ([], sc_connected) =
    Some (Success sc_decision, set_cl_seq 1 sc_greeted, ([], l')) /\
  engine_at l' = sc_granted.1 /\ session_matches 1 (set_cl_seq 1 sc_greeted) l' v'.
Proof.
  assert (Hq : failover_request_wf (sc_request 1)) by evaluate.
  assert (Hn : cl_seq sc_greeted + 1 < two64) by evaluate.
  assert (Hb : Z.of_nat (40 + length (encoded (sc_request 1))) <= cl_max_payload sc_greeted) by (vm_compute; discriminate).
  assert (Hd : decision_wf sc_decision).
  { assert (H : bool_decide (decision_wf sc_decision) = true) by (vm_compute; reflexivity).
    exact (bool_decide_eq_true_1 _ H). }
  assert (Hs : answer_size MessageType.RequestFailover (Success sc_decision) <= cl_max_payload sc_greeted)
    by (vm_compute; discriminate).
  pose proof sc_grant_answer as E. destruct sc_connected_engine as [E1 E2]. rewrite <- E1, <- E2 in E.
  destruct (remote_decision_is_local 1 _ _ _ _ _ _ _ _ _ (DkFailover _ Hq) sc_connected_matches Hn Hb E Hd Hs)
    as (l' & v' & H1 & H2 & _ & H3).
  exists l', v'. split; [exact H1|split; [exact H2|exact H3]].
Defined.

Definition sc_publish : EngM Status := epure (publish_failure_report (sc_failure "q" 1)).
Lemma remote_status_is_local_witness : exists st l' v',
  client_publish_failure (line_transmit 1) (sc_failure "q" 1) sc_greeted ([], sc_connected) =
    Some (st, set_cl_seq 1 sc_greeted, ([], l')) /\
  st = (sc_publish (engine_at sc_connected) (medium_at sc_connected)).1.1 /\
  session_matches 1 (set_cl_seq 1 sc_greeted) l' v'.
Proof.
  assert (Hq : failure_report_wf (sc_failure "q" 1)) by evaluate.
  assert (Hn : cl_seq sc_greeted + 1 < two64) by evaluate.
  assert (Hb : Z.of_nat (40 + length (encoded (sc_failure "q" 1))) <= cl_max_payload sc_greeted) by (vm_compute; discriminate).
  set (x := sc_publish (engine_at sc_connected) (medium_at sc_connected)).
  assert (Hst : x.1.1 = status_success) by (vm_compute; reflexivity).
  assert (Hw : sendable x.1.1) by (rewrite Hst; split; [apply Z.leb_le; vm_compute; reflexivity|constructor]).
  assert (Hs : Z.of_nat (length (response_payload MessageType.PublishFailure x.1.1 [])) <= cl_max_payload sc_greeted)
    by (rewrite Hst; vm_compute; discriminate).
  destruct (remote_status_is_local 1 _ _ _ _ _ _ _ _ _ (SkFailure _ Hq) sc_connected_matches Hn Hb
    (surjective_triple x) Hw Hs) as (l' & v' & H1 & _ & _ & H3).
  exists x.1.1, l', v'. split; [exact H1|split; [reflexivity|exact H3]].
Defined.

Lemma call_takes_one_sequence_witness :
  (client_call (line_transmit 1) MessageType.Ping [] sc_greeted ([], sc_connected)) <> None /\
  forall r c' n', client_call (line_transmit 1) MessageType.Ping [] sc_greeted ([], sc_connected) = Some (r, c', n') ->
    c' = sc_greeted \/ c' = set_cl_seq 1 sc_greeted.
Proof.
  split; [vm_compute; discriminate|]. intros r c' n' E.
  assert (Hu : is_u64 (cl_seq sc_greeted)) by evaluate.
  destruct (call_takes_one_sequence _ _ _ _ _ _ _ _ Hu E) as [[H _]|[H _]]; [left|right]; exact H.
Defined.

(** ** Behaviours worth knowing *)
(** A restart that fences an attempt writes a fence record whose payload carries
    sequence 0; the next start reads it back, compares it with its position in the
    journal and refuses the whole journal as corrupt. *)
Lemma fenced_journal_refused :
  (sc_open 3 sc_reopened.2).1 =
    Failure (corrupt ReasonCode.CorruptRecord "fence record sequence does not match its lineage position").
Proof. vm_compute. reflexivity. Qed.

(** A crash between the two halves of a checkpoint, after the snapshot has replaced
    the old one and before the journal is rebuilt, leaves a directory that cannot be
    opened any more. *)
Definition sc_half_checkpoint : Fs :=
  match im_store sc_granted.1 with
  | Some s => (checkpoint_snapshot s sc_granted.2).2
  | None => sc_granted.2
  end.
Lemma half_checkpoint_refused :
  (sc_open 3 sc_half_checkpoint).1 =
    Failure (status_add (status_failure Outcome.Conflict ReasonCode.SequenceRegression
      "journal base sequence does not match the snapshot") ReasonCode.InvalidArgument "0").
Proof. vm_compute. reflexivity. Qed.

(** Attempt sequences are numbered by counting the retained attempts, so a sequence is
    reused once older attempts were evicted. Here an interrupted attempt of the
    previous incarnation and a new one are both live for the same subject
    generation, after a revalidation re-bound the older one: the hypothesis of
    [single_winner_preserved] on revalidations is needed. *)
Definition sw_live (w : EngineImpl * Fs) : list (Z * AttemptPhase) :=
  map (fun r => (at_attempt_seq r, at_phase r))
    (List.filter (live_authority (engine_state w.1) (sc_link "b") 1) (ds_attempts (engine_state w.1))).
Lemma rebinding_gives_two_winners :
  sw_live sw_state = [(3, AttemptPhase.Authorized)] /\
  sw_live (after sw_rebind sw_state) = [(2, AttemptPhase.Committed); (3, AttemptPhase.Authorized)].
Proof. vm_compute. split; reflexivity. Qed.

(** A committed attempt is terminal, so the fence of a restart leaves it alone and the
    new epoch does not count it: the generation it served is granted again, to
    another link, and no fence records that the first one has lost it. *)
Definition sc_other : FailoverRequest :=
  MkFailoverRequest sc_subject 1 [MkCandidate (sc_link "b") 0] expectation_none (sc_key 2).
Definition sc_restarted : EngineImpl * Fs :=
  (result_or sc_boot.1 (sc_open 2 sc_committed.2).1, (sc_open 2 sc_committed.2).2).
Definition sc_informed : EngineImpl * Fs := sc_run sc_evidence sc_restarted.1 sc_restarted.2.
Definition sc_regranted : Result FailoverDecision * EngineImpl * Fs :=
  request_failover sc_other sc_informed.1 sc_informed.2.
Lemma committed_generation_granted_again :
  at_replacement (sc_first sc_committed) = sc_link "c" /\
  fd_kind (result_or decision_none sc_regranted.1.1) = DecisionKind.Grant /\
  fd_replacement (result_or decision_none sc_regranted.1.1) = sc_link "b" /\
  ds_fences (engine_state sc_regranted.1.2) = [].
Proof. vm_compute. split_and!; reflexivity. Qed.

(** A report refused because the evidence table is full leaves an empty bucket for
    its link, which no counter sees. *)
Definition sc_crowded : EngineImpl :=
  set_im_options (MkEngineOptions "fab" sc_policy sc_topology "d" (MkLimits 4 1 8 8 8 4 4 4) 1024 false true)
    (after (OpPublishReplacement (sc_replacement "p" "b" 1)) sc_boot).1.
Lemma refused_report_leaves_a_bucket :
  let r := publish_failure_report (sc_failure "p" 2) sc_crowded in
  status_ok r.1 = false /\ size (im_failure_evidence sc_crowded) = 0%nat /\
  size (im_failure_evidence r.2) = 1%nat /\ im_evidence_entries r.2 = im_evidence_entries sc_crowded.
Proof. vm_compute. split_and!; reflexivity. Qed.
