(* ===== verification/Deployment.v ===== *)
(** * The programs, run

    The concrete deployment of [Scenario] under its command-line programs: a daemon that
    comes up on an empty directory, lffctl asking its coordinator for a failover, a
    worker carrying the directive out. The runs are the inputs at which the theorems
    about the programs are applied. *)
From S2P Require Import Prelude Status Hash Ids Bytes Evidence Policy Authority Attempt Decision.
From S2P Require Import Selector Fs Journal State Store Intake Engine EngineLogic EngineSafety.
From S2P Require Import Image Progress Durable Restart Wire Server Typed Served Client Tool Process Ctl Spelling Worker Fabricd Daemon Embed Scenario.

#[local] Instance application_wf_dec r : Decision (application_report_wf r).
Proof. unfold application_report_wf. apply _. Defined.
#[local] Instance verification_wf_dec r : Decision (verification_report_wf r).
Proof. unfold verification_report_wf. apply _. Defined.

(** A connection to the one session of the server. *)
Definition dp_dial (_ : Endpoint) (l : Line) : Result (Readings * Line) := Success ([], l).
Definition dp_endpoint : string := "--endpoint=127.0.0.1:7400".

(** ** lffctl *)
Definition dp_request : list string :=
  ["failover"; dp_endpoint; "--link=a"; "--generation=1"; "--candidates=b,c:1";
   "--idempotency=" +:+ digest_hex (sc_key 1)]%string.
Definition dp_ctl (argv : list string) : option (Ended Line) :=
  lffctl_main dp_dial (line_transmit 1) argv (sc_incarnation 3) sc_fs sc_line.
Definition ended_code {W} (o : option (Ended W)) : Z := match o with Some e => en_code e | None => -1 end.

Example dp_request_granted : ended_code (dp_ctl dp_request) = kExitOk.
Proof. vm_compute. reflexivity. Qed.
Example dp_usage : ended_code (dp_ctl ["failover"; dp_endpoint; "--link=a"]%string) = kExitUsage.
Proof. vm_compute. reflexivity. Qed.

Lemma ended_connected {W} (o : option (Ended W)) :
  (match o with Some e => match en_run e with Some _ => true | None => false end | None => false end) = true ->
  exists e r, o = Some e /\ en_run e = Some r.
Proof. destruct o as [e|]; [|done]. destruct (en_run e) as [r|] eqn:E; [|done]. by exists e, r. Qed.

Lemma lffctl_traffic_witness : exists r w0 ts, dp_ctl dp_request = Some (MkEnded kExitOk (rn_out r) (rn_err r) (Some r)) /\
  transmits (line_transmit 1) (MessageType.Hello :: ts) w0 (rn_world r) /\
  ts `prefix_of` [MessageType.Inspect; MessageType.RequestFailover].
Proof.
  destruct (ended_connected (dp_ctl dp_request)) as (e & r & E & Er); [vm_compute; reflexivity|].
  pose proof (lffctl_traffic _ _ _ _ _ _ _ E) as H. rewrite Er in H.
  destruct H as (args & command & endpoint & readings & w0 & ts & Hp & _ & Ht & _ & Hpre & _).
  assert (Hc : command = "failover"%string).
  { assert (Hx : match ctl_prepare (W := Line) dp_request with inr (_, c, _) => c | inl _ => "" end%string = "failover"%string)
      by (vm_compute; reflexivity). rewrite Hp in Hx. exact Hx. }
  rewrite Hc in Hpre. exists r, w0, ts. split; [|split; [exact Ht|exact Hpre]].
  assert (Hcode : en_code e = kExitOk) by (pose proof dp_request_granted as G; rewrite E in G; exact G).
  revert E. unfold dp_ctl, lffctl_main. rewrite Hp. destruct (client_connect _ _ _ _ _ _ _) as [[[c n]|s]|]; [..|done].
  - unfold ended_with. destruct (ctl_command _ _ _ _) as [[code r1]|]; [|done]. intros [= <-].
    cbn [en_run en_code] in *. injection Er as ->. by rewrite Hcode.
  - intros [= <-]. discriminate Er.
Defined.

(** The same request on an open connection, its options in another order. *)
Definition dp_spelled : list string :=
  ["--idempotency=" +:+ digest_hex (sc_key 1); "--generation=1"; "failover"; "--candidates=b:0,c:1"; dp_endpoint;
   "--link=a"]%string.
Definition dp_run : Run (W := Line) := MkRun sc_greeted ([], sc_connected) sc_fs "" "".
Definition dp_view : EngineView := inspect (engine_at sc_connected) 0.
Lemma dp_spelled_line : command_line dp_spelled "failover" (MkEndpoint "127.0.0.1" 7400) (failover_options (sc_request 1)).
Proof. unfold command_line. apply (bool_decide_unpack _). vm_compute. exact I. Qed.
Lemma dp_says : spelled dp_view (cl_incarnation sc_greeted) "failover" (failover_options (sc_request 1))
  MessageType.RequestFailover (encoded (sc_request 1)) (request_failover (sc_request 1)).
Proof.
  apply SpelledFailover; [evaluate|reflexivity|discriminate|..|by split_and!].
  repeat (constructor; [split_and!; [reflexivity|reflexivity|reflexivity|evaluate]|]). constructor.
Qed.
Lemma ctl_decision_is_local_witness : exists args r' text,
  ctl_prepare (W := Line) dp_spelled = inr (args, "failover"%string, MkEndpoint "127.0.0.1" 7400) /\
  ctl_command (line_transmit 1) "failover" args dp_run = Some (kExitOk, r') /\
  rn_out r' = text /\ says_decision text sc_decision /\ engine_at (rn_world r') = sc_granted.1.
Proof.
  assert (Hn : cl_seq sc_greeted + 2 < two64) by evaluate.
  assert (Hv : engine_view_wf dp_view) by (apply view_checked_sound; vm_compute; reflexivity).
  assert (Hm : 46 <= cl_max_payload sc_greeted) by evaluate.
  assert (H1 : Z.of_nat (length (response_payload MessageType.Inspect status_success (encode_engine_view dp_view)))
    <= cl_max_payload sc_greeted) by (vm_compute; discriminate).
  assert (H2 : Z.of_nat (40 + length (encoded (sc_request 1))) <= cl_max_payload sc_greeted) by (vm_compute; discriminate).
  assert (Hd : decision_wf sc_decision).
  { assert (H : bool_decide (decision_wf sc_decision) = true) by (vm_compute; reflexivity).
    exact (bool_decide_eq_true_1 _ H). }
  assert (H3 : answer_size MessageType.RequestFailover (Success sc_decision) <= cl_max_payload sc_greeted)
    by (vm_compute; discriminate).
  assert (He : endpoint_wf (MkEndpoint "127.0.0.1" 7400)) by (apply (bool_decide_unpack _); vm_compute; exact I).
  pose proof sc_grant_answer as E. destruct sc_connected_engine as [E1 E2]. rewrite <- E1, <- E2 in E.
  pose proof (ctl_decision_is_local 1 dp_spelled "failover" (MkEndpoint "127.0.0.1" 7400) (failover_options (sc_request 1))
    MessageType.RequestFailover (encoded (sc_request 1)) (request_failover (sc_request 1)) dp_run sc_connected sc_session
    sc_decision sc_granted.1 sc_granted.2) as T. cbv zeta in T.
  change (inspect (engine_at sc_connected) 0) with dp_view in T. change (rn_client dp_run) with sc_greeted in T.
  specialize (T dp_spelled_line He dp_says eq_refl sc_connected_matches Hn Hv Hm H1 H2 E Hd H3).
  destruct T as (args & code & r' & v' & text & Hp & Hr & [_ Hok] & _ & Ho & Hsays & _ & _ & Hend & _).
  assert (Hnil : forall s, ("" +:+ s)%string = s) by done.
  change (rn_out dp_run) with ""%string in Ho. rewrite Hnil in Ho.
  exists args, r', text. rewrite Hok in Hr by (vm_compute; reflexivity).
  split; [exact Hp|]. split; [exact Hr|]. split; [exact Ho|]. split; [exact Hsays|exact Hend].
Defined.

(** ** The worker *)
Definition dp_line : Line := MkLine (set_sv_engine sc_granted.1 sc_world.1, sc_granted.2) (decoder_new 65536).
Definition dp_worker_argv : list string := [dp_endpoint; "--effect-dir=/effects"; "--iterations=1"]%string.
Definition dp_worked : option (Ended Line) :=
  worker_main dp_dial (line_transmit 1) (fun _ => false) dp_worker_argv (sc_incarnation 3) 1 sc_fs dp_line.
Definition dp_directive : ApplyDirective :=
  hd (MkDirective link_key_none 0 link_key_none 0 0 digest_zero (at_authority attempt_none) 0) (pending_directives sc_granted.1 8).
Definition dp_worker : WorkerOptions := MkWorker "/effects" "synthetic-worker" 1 false true "".

(** One round of the worker commits the granted attempt and leaves its effect record. *)
Example dp_committed : match dp_worked with
  | Some (MkEnded code _ _ (Some r)) => code = kExitOk /\
      map at_phase (ds_attempts (engine_state (engine_at (rn_world r)))) = [AttemptPhase.Committed] /\
      effect_in_place dp_worker dp_directive (rn_fs r)
  | _ => False
  end.
Proof. vm_compute. split_and!; reflexivity. Qed.

Lemma worker_is_honest_witness : exists r c fs0 w0, dp_worked = Some (MkEnded kExitOk (rn_out r) (rn_err r) (Some r)) /\
  fs_files fs0 = ∅ /\ rtc (honest_step (line_transmit 1) dp_worker (cl_incarnation c)) (fs0, w0) (rn_fs r, rn_world r).
Proof.
  destruct (ended_connected dp_worked) as (e & r & E & Er); [vm_compute; reflexivity|].
  destruct (worker_is_honest _ _ _ _ _ _ _ _ _ _ E Er) as (args & endpoint & o & c & n & fs0 & Hp & Hc & Hf & Hr).
  assert (Hprep : match worker_prepare dp_worker_argv with inr (a, _, o) => arguments_has a "ready-file" = false /\ o = dp_worker | inl _ => False end)
    by (vm_compute; split; reflexivity).
  rewrite Hp in Hprep. destruct Hprep as [Hready ->]. exists r, c, fs0, n.2. split; [|split; [|exact Hr]].
  - assert (Hcode : ended_code dp_worked = kExitOk) by (vm_compute; reflexivity). rewrite E in Hcode. cbn in Hcode.
    revert E. unfold dp_worked, worker_main. rewrite Hp, Hc. unfold ended_with.
    destruct (worker_connected _ _ _ _ _ _ _) as [[code r1]|]; [|done]. intros [= <-].
    cbn [en_run en_code] in *. injection Er as ->. by rewrite Hcode.
  - apply map_eq. intros p. rewrite Hf by by left. reflexivity.
Defined.

(** A coordinator that hangs up after every frame. *)
Definition dp_hangup (_ : bytes) (u : unit) : Status * Readings * unit := (status_success, [Success []], u).
Lemma receive_ends decoder rs : receive_frame decoder (rs ++ [Success []]) <> None.
Proof.
  revert decoder. induction rs as [|[data|s] rs IH]; intros decoder; [done| |done]. cbn [app receive_frame].
  destruct data as [|x data]; [done|]. destruct (decoder_push _ _ _ _) as [[pushed decoder'] got].
  destruct (negb (status_ok pushed)); [done|]. destruct got; [done|apply IH].
Qed.
Lemma hangup_answers op body c n : client_call dp_hangup op body c n <> None.
Proof.
  unfold client_call. destruct (strong_next _); [|done]. destruct (encode_frame _ _ _ _); [|done].
  unfold send_frame, dp_hangup. cbn [fst snd]. change (status_ok status_success) with true. cbn [negb].
  pose proof (receive_ends (decoder_new (cl_max_payload (set_cl_seq z c))) n.1) as H.
  destruct (receive_frame _ _) as [[[[h p]|s] rest]|]; done.
Qed.
Lemma hangup_connects endpoint role max incarnation :
  client_connect (fun _ u => Success ([], u)) dp_hangup endpoint role max incarnation tt <> None.
Proof.
  unfold client_connect. destruct (_ || _)%bool; [done|]. unfold client_handshake.
  destruct (encode_frame _ _ _ _); [|done]. unfold send_frame, dp_hangup. cbn [fst snd app].
  change (status_ok status_success) with true. cbn [negb].
  pose proof (receive_ends (decoder_new max) []) as H. cbn [app] in H.
  match goal with |- context [receive_frame ?d ?rs] => change d with (decoder_new max) end.
  destruct (receive_frame _ _) as [[[[h p]|s] rest]|]; [|done|done]. by destruct (accept_hello h p).
Qed.
Definition dp_five_rounds : list string := [dp_endpoint; "--effect-dir=/effects"; "--iterations=5"]%string.
Lemma worker_ends_witness : exists e,
  worker_main (fun _ u => Success ([], u)) dp_hangup (fun _ => false) dp_five_rounds (sc_incarnation 3) 5 sc_fs tt = Some e /\
  worker_main (fun _ u => Success ([], u)) dp_hangup (fun _ => false) dp_five_rounds (sc_incarnation 3) 50 sc_fs tt = Some e.
Proof.
  destruct (worker_prepare dp_five_rounds) as [x|[[args endpoint] o]] eqn:Ep.
  { exfalso. revert Ep. vm_compute. discriminate. }
  assert (Hi : wk_iterations o = 5).
  { assert (Hx : match worker_prepare dp_five_rounds with inr (_, _, o) => wk_iterations o | inl _ => 0 end = 5) by (vm_compute; reflexivity).
    rewrite Ep in Hx. exact Hx. }
  assert (Hb : 0 < wk_iterations o < two64) by (rewrite Hi; split; reflexivity).
  assert (Hc : client_connect (fun _ u => Success ([], u)) dp_hangup endpoint "worker" kDefaultFramePayload (sc_incarnation 3) tt <> None) by apply hangup_connects.
  destruct (worker_ends _ _ (fun _ => false) _ _ sc_fs tt _ _ _ Ep Hb hangup_answers Hc) as [e He].
  exists e. split; apply He; rewrite Hi; apply Nat.leb_le; reflexivity.
Defined.

(** One directive on an open connection to the coordinator that granted it. *)
Definition dp_greeted : ClientImpl := greeted (hello_response (session_new 1) (li_world dp_line).1) sc_client.
Definition dp_connected : Line := MkLine
  (handle_frame line_send 1 (frame_header (MessageType.Hello, encode_payload sc_hello)) (encode_payload sc_hello) (li_world dp_line))
  (decoder_new 65536).
Definition dp_session : SessionState := default (session_new 0) (sv_conns (li_world dp_connected).1 !! 1).
Definition dp_worker_run : Run (W := Line) := MkRun dp_greeted ([], dp_connected) sc_fs "" "".
Definition dp_report : ApplicationReport := application_of dp_directive (sc_incarnation 3) 1 true "synthetic apply".
Definition dp_verification : VerificationReport := verification_of dp_directive (sc_incarnation 3) 1 true.
Definition dp_reported : Result FailoverDecision * EngineImpl * Fs :=
  record_application dp_report (engine_at dp_connected) (medium_at dp_connected).
Definition dp_verified : Result FailoverDecision * EngineImpl * Fs :=
  record_verification dp_verification dp_reported.1.2 dp_reported.2.
Lemma dp_reported_answer : record_application dp_report (engine_at dp_connected) (medium_at dp_connected) =
  (Success (result_or decision_none dp_reported.1.1), dp_reported.1.2, dp_reported.2).
Proof. unfold dp_reported. answered (record_application dp_report (engine_at dp_connected) (medium_at dp_connected)). Qed.
Lemma dp_verified_answer : record_verification dp_verification dp_reported.1.2 dp_reported.2 =
  (Success (result_or decision_none dp_verified.1.1), dp_verified.1.2, dp_verified.2).
Proof. unfold dp_verified. answered (record_verification dp_verification dp_reported.1.2 dp_reported.2). Qed.

Lemma dp_report_checked : @bool_decide _ (application_wf_dec dp_report) = true.
Proof. vm_compute. reflexivity. Qed.
Lemma dp_verification_checked : @bool_decide _ (verification_wf_dec dp_verification) = true.
Proof. vm_compute. reflexivity. Qed.
Lemma directive_is_carried_out_witness : exists r',
  worker_directive (line_transmit 1) dp_worker (sc_incarnation 3) dp_directive 0 dp_worker_run = Some (inr 1, r') /\
  effect_in_place dp_worker dp_directive (rn_fs r') /\ engine_at (rn_world r') = dp_verified.1.2.
Proof.
  assert (Hm : session_matches 1 dp_greeted dp_connected dp_session) by (apply matched_checked_sound; vm_compute; reflexivity).
  assert (Hn : cl_seq dp_greeted + 2 < two64) by evaluate.
  assert (W1 : application_report_wf dp_report).
  { exact (bool_decide_eq_true_1 (Decision0 := application_wf_dec dp_report) _ dp_report_checked). }
  assert (W2 : verification_report_wf dp_verification).
  { exact (bool_decide_eq_true_1 (Decision0 := verification_wf_dec dp_verification) _ dp_verification_checked). }
  assert (B1 : Z.of_nat (40 + length (encoded dp_report)) <= cl_max_payload dp_greeted) by (vm_compute; discriminate).
  assert (B2 : Z.of_nat (40 + length (encoded dp_verification)) <= cl_max_payload dp_greeted) by (vm_compute; discriminate).
  assert (D1 : decision_wf (result_or decision_none dp_reported.1.1)).
  { assert (H : bool_decide (decision_wf (result_or decision_none dp_reported.1.1)) = true) by (vm_compute; reflexivity).
    exact (bool_decide_eq_true_1 _ H). }
  assert (D2 : decision_wf (result_or decision_none dp_verified.1.1)).
  { assert (H : bool_decide (decision_wf (result_or decision_none dp_verified.1.1)) = true) by (vm_compute; reflexivity).
    exact (bool_decide_eq_true_1 _ H). }
  assert (S1 : answer_size MessageType.ReportApplication (Success (result_or decision_none dp_reported.1.1)) <= cl_max_payload dp_greeted)
    by (vm_compute; discriminate).
  assert (S2 : answer_size MessageType.ReportVerification (Success (result_or decision_none dp_verified.1.1)) <= cl_max_payload dp_greeted)
    by (vm_compute; discriminate).
  pose proof (directive_is_carried_out 1 dp_worker (sc_incarnation 3) dp_directive 0 dp_worker_run dp_connected dp_session
    (result_or decision_none dp_reported.1.1) dp_reported.1.2 dp_reported.2
    (result_or decision_none dp_verified.1.1) dp_verified.1.2 dp_verified.2) as T. cbv zeta in T.
  change (rn_client dp_worker_run) with dp_greeted in T.
  assert (He : hr_epoch (cl_hello dp_greeted) = 1) by (vm_compute; reflexivity). rewrite He in T.
  fold dp_report dp_verification in T. change (wrap64 (0 + 1)) with 1 in T.
  destruct (T eq_refl eq_refl eq_refl eq_refl Hm Hn W1 W2 B1 B2 dp_reported_answer dp_verified_answer D1 D2 S1 S2)
    as (r' & v' & H1 & H2 & H3 & _).
  exists r'. split; [exact H1|]. split; [exact H2|exact H3].
Defined.

(** ** The daemon *)
Definition dp_daemon_argv : list string := ["--state=d"; "--fabric=fab"; "--link=a:1:10,b:1:10,c:1:10"]%string.
Definition dp_config : Refusal + FabricConfig := (fabricd_prepare dp_daemon_argv sc_fs).1.
Definition dp_daemon (config : FabricConfig) : (Refusal + ServerImpl * string) * Fs :=
  fabricd_open (sc_incarnation 1) "gcc" "x86_64" false (fun _ _ => None) id config sc_fs.

Example dp_daemon_prints : match dp_config with
  | inr config => match (dp_daemon config).1 with
      | inr (server, out) => out = ("endpoint=127.0.0.1:0" +:+ String newline ("epoch=1" +:+ String newline
          ("coordinator=" +:+ incarnation_hex (sc_incarnation 1) +:+ String newline "")))%string
      | inl _ => False
      end
  | inl _ => False
  end.
Proof. vm_compute. reflexivity. Qed.

Definition dp_start : (Refusal + FabricConfig * ServerImpl * string) * Fs :=
  fabricd_start (sc_incarnation 1) "gcc" "x86_64" false (fun _ _ => None) id dp_daemon_argv sc_fs.
Lemma daemon_from_command_line_witness : exists config server out fs1,
  dp_start = (inr (config, server, out), fs1) /\ topology_ok (eo_topology (fc_options config)) /\
  lives (fc_options config) (sv_engine (request_stop server)) fs1 /\
  single_winner (engine_state (sv_engine (admit_session server))).
Proof.
  assert (Hok : match dp_start.1 with
    | inr (config, server, out) => (bool_decide (options_typed (store_options_of (fc_options config))) &&
        bool_decide (directory_usable (store_options_of (fc_options config)) sc_fs) &&
        negb (has_value (fs_files sc_fs !! snapshot_path (store_options_of (fc_options config)))) &&
        negb (has_value (fs_files sc_fs !! journal_path (store_options_of (fc_options config)))) &&
        negb (has_value (fc_ready_file config)))%bool
    | inl _ => false end = true) by (vm_compute; reflexivity).
  destruct dp_start as [[refusal|[[config server] out]] fs1] eqn:E; [discriminate Hok|].
  cbn [fst] in Hok. rewrite !andb_true_iff, !negb_true_iff in Hok.
  destruct Hok as ((((H2 & H3) & H4) & H5) & H6). apply bool_decide_eq_true_1 in H2, H3.
  exists config, server, out, fs1. split; [reflexivity|].
  assert (F1 : fs_files sc_fs !! snapshot_path (store_options_of (fc_options config)) = None)
    by (destruct (fs_files sc_fs !! snapshot_path _); [discriminate H4|reflexivity]).
  assert (F2 : fs_files sc_fs !! journal_path (store_options_of (fc_options config)) = None)
    by (destruct (fs_files sc_fs !! journal_path _); [discriminate H5|reflexivity]).
  assert (Hb : build_typed (sc_incarnation 1) "gcc" "x86_64").
  { split; [apply (bool_decide_unpack _); vm_compute; exact I|]. split; apply (bool_decide_unpack _); vm_compute; exact I. }
  destruct (daemon_from_command_line (sc_incarnation 1) "gcc" "x86_64" false (fun _ _ => None) id sc_send
    dp_daemon_argv sc_fs config server out fs1 E Hb) as (_ & Ht & _ & _ & Hl & Hw).
  - constructor; [reflexivity|exact H3|exact F1|exact F2].
  - apply fresh_fits; [exact H2|reflexivity|exact H3|exact F1|exact F2].
  - intros path Hp. rewrite Hp in H6. discriminate H6.
  - split; [exact Ht|]. split.
    + apply (Hl (request_stop server, fs1)). apply rtc_once, PsStop.
    + apply (Hw (admit_session server, fs1)). apply rtc_once. apply (SvOther _ 1); [constructor|].
      unfold admit_session. cbn [fst]. by repeat case_match.
Defined.

(** ** The programs that embed the engine *)
(** Run on a medium that holds other things, below the directory and beside it. *)
Definition dp_littered : Fs := MkFs {["x/old" := [1]; "xy" := [2]]} {["x/sub"; "y"]} [].
Definition dp_ended (r : Outputs * Fs) : Z * string * list (string * bytes) * list string :=
  (r.1.1.1, r.1.2, map_to_list (fs_files r.2), elements (fs_dirs r.2)).
Example minimal_example_completes :
  dp_ended (minimal_main (sc_incarnation 1) (sc_incarnation 2) "gcc" "x86_64" "/tmp" ["x"] dp_littered) =
    (0, ""%string, [("xy", [2])], ["y"]).
Proof. vm_compute. reflexivity. Qed.
Example consumer_prints :
  consumer_main (sc_incarnation 1) (sc_incarnation 2) "gcc" "x86_64" "/tmp" ["x"] dp_littered =
    (0, print_all [line_of "version=1.0.0"; line_of "toolchain=gcc arch=x86_64"; line_of "epoch=1";
       line_of "decision=Grant assertion=Authorization durable=true";
       line_of "decision_id=c4d98a3e7cd83fcbc2c4705ed1c4f20a7c9955938d0a877d24fac0b2324b7407";
       line_of "policy_digest=c06223ef5255a1ba607f1a3939941a70a1e2b360b9031a938b09c5249883a152";
       line_of "closed=ok"], ""%string, MkFs {["xy" := [2]]} {["y"]} []).
Proof. vm_compute. reflexivity. Qed.
(** Where the directory cannot be created the example reports the failure of the open. *)
Example minimal_example_fails :
  dp_ended (minimal_main (sc_incarnation 1) (sc_incarnation 2) "gcc" "x86_64" "/tmp" ["x"]
    (MkFs ∅ ∅ [None; None; Some (0%nat, 28)])) = (1,
    line_of "open failed: IoError(InternalError=cannot create state directory)", [], []).
Proof. vm_compute. reflexivity. Qed.
