(* ===== verification/Lifetimes.v ===== *)
(** * Lives of a coordinator, run

    The concrete deployment of [Scenario] through its lifetimes: the life up to the
    first grant, with the directory reopened after a kill; a life with snapshots
    through a policy change, whose fence would refuse the directory, and a clean
    shutdown, after which it opens; an attempt driven to its completion. *)
From S2P Require Import Prelude Status Hash Ids Bytes Evidence Policy Authority Attempt Decision.
From S2P Require Import Selector Fs Journal State Store Intake Engine EngineLogic EngineSafety.
From S2P Require Import Image Progress Durable Restart Reopen History Leases Revocation Liveness Wire Server Typed Served Client Scenario.

#[local] Instance application_report_wf_dec r : Decision (application_report_wf r).
Proof. unfold application_report_wf. apply _. Defined.
#[local] Instance verification_report_wf_dec r : Decision (verification_report_wf r).
Proof. unfold verification_report_wf. apply _. Defined.
#[local] Instance replacement_report_wf_dec r : Decision (replacement_report_wf r).
Proof. unfold replacement_report_wf. apply _. Defined.
#[local] Instance reading_octets_dec r : Decision (reading_octets r).
Proof. destruct r; apply _. Defined.

(** ** Lives of runs *)
Definition run_typed (ops : list Operation) : Prop := Forall (fun op => op <> OpClose /\ operation_typed op) ops.
(** [typed_run] checks a run operation by operation. *)
Ltac typed_run := repeat (apply Forall_cons; split; [split; [discriminate|evaluate]|]); apply Forall_nil; exact I.
Lemma lives_run o ops im fs : run_typed ops -> lives o im fs -> lives o (sc_run ops im fs).1 (sc_run ops im fs).2.
Proof.
  intros H. revert im fs. induction H as [|op ops [Hop Ht] _ IH]; intros im fs Hl; [done|].
  cbn [sc_run]. destruct (perform op im fs) as [[s im'] fs'] eqn:E. apply IH. by eapply LivesPerformed.
Qed.
Lemma lives_after o op w : op <> OpClose -> operation_typed op -> lives o w.1 w.2 -> lives o (after op w).1 (after op w).2.
Proof. intros Hop Ht Hl. eapply LivesPerformed; [exact Hl|done|done|exact I|apply after_performed]. Qed.

Lemma sc_options_typed : options_typed (store_options_of sc_options).
Proof. split; [reflexivity|reflexivity|split; [evaluate|reflexivity]|split; [evaluate|reflexivity]]. Qed.
Lemma sc_build n : incarnation_wf (sc_incarnation n) -> build_typed (sc_incarnation n) "gcc" "x86_64".
Proof. intros H. split; [done|]. split; evaluate. Qed.

Lemma sc_fresh : openable (store_options_of sc_options) sc_fs.
Proof. constructor; [reflexivity|by right|reflexivity|reflexivity]. Qed.
Lemma sc_fits : table_fits sc_options sc_fs.
Proof. apply fresh_fits; [apply sc_options_typed|reflexivity|by right|reflexivity|reflexivity]. Qed.
Lemma sc_boot_lives : lives sc_options sc_boot.1 sc_boot.2.
Proof.
  apply (LivesOpened _ _ (sc_incarnation 1) "gcc" "x86_64" sc_fs);
    [apply sc_fresh|apply sc_fits|apply sc_build; evaluate|exact sc_boot_opened].
Qed.
Lemma sc_evidence_typed : run_typed sc_evidence.
Proof. typed_run. Qed.
Lemma sc_ready_lives : lives sc_options sc_ready.1 sc_ready.2.
Proof. apply lives_run; [apply sc_evidence_typed|apply sc_boot_lives]. Qed.
Lemma sc_granted_lives : lives sc_options sc_granted.1 sc_granted.2.
Proof.
  eapply LivesPerformed; [exact sc_ready_lives| | |exact I|exact sc_grant_performed]; [discriminate|]. evaluate.
Qed.

Lemma lives_typed_witness : engine_typed sc_granted.1 /\ is_u64 (ds_last_seq (engine_state sc_granted.1)) /\
  Forall (attempt_typed (ds_last_seq (engine_state sc_granted.1))) (ds_attempts (engine_state sc_granted.1)).
Proof.
  destruct (lives_typed sc_options sc_granted.1 sc_granted.2 sc_options_typed sc_granted_lives) as (H1 & [] & H2).
  split; [exact H1|]. split; [exact H2|assumption].
Defined.

(** The process is killed after the grant; the directory opens with the attempt. *)
Definition sc_store (im : EngineImpl) : StoreImpl :=
  match im_store im with
  | Some s => s
  | None => MkStore (MkLineage (store_options_of sc_options) (state_initial (store_options_of sc_options)) status_initial)
      None true 0
  end.
Lemma sc_store_open im : negb (store_failed (im_store im)) = true ->
  im_store im = Some (sc_store im) /\ sm_failed (sc_store im) = false.
Proof. unfold sc_store. destruct (im_store im) as [s|]; cbn; [|done]. by destruct (sm_failed s). Qed.

Lemma restart_restores_witness :
  match store_open (store_options_of sc_options) (settled sc_granted.2) with
  | (Success s', _) => same_lineage (sm_lineage s') (sm_lineage (sc_store sc_granted.1)) /\
      length (ds_attempts (sm_state s')) = 1%nat
  | (Failure _, _) => False
  end.
Proof.
  destruct (sc_store_open sc_granted.1) as [Hs Hf]; [vm_compute; reflexivity|].
  assert (Hm : medium_readable (store_options_of sc_options) sc_granted.2).
  { split; apply Z.leb_le; vm_compute; reflexivity. }
  assert (Hd : directory_usable (store_options_of sc_options) sc_granted.2) by (left; evaluate).
  destruct (restart_restores sc_options sc_granted.1 (sc_store sc_granted.1) sc_granted.2 sc_options_typed
    sc_granted_lives Hs Hf Hm Hd) as (base & recs & _ & _ & H).
  assert (Hn : match store_open (store_options_of sc_options) (settled sc_granted.2) with
    | (Success s', _) => Nat.eqb (length (ds_attempts (sm_state s'))) 1 | (Failure _, _) => false end = true)
    by (vm_compute; reflexivity).
  revert H Hn. destruct (store_open _ _) as [[s'|e] fs'].
  - intros (_ & _ & H) Hn. split; [exact H|]. by apply Nat.eqb_eq.
  - intros _ Hn. discriminate Hn.
Defined.

Lemma settled_quiet fs : fs_faults fs = [] -> settled fs = fs.
Proof. destruct fs. cbn. by intros ->. Qed.
Lemma sc_granted_openable : openable (store_options_of sc_options) sc_granted.2.
Proof.
  rewrite <- (settled_quiet sc_granted.2) by (vm_compute; reflexivity). apply DirectoryAtRest.
  - destruct (sc_store_open sc_granted.1) as [Hs Hf]; [vm_compute; reflexivity|].
    destruct (lives_durable_lemma _ _ _ _ sc_options_typed sc_granted_lives) as (Hd & Hopt & _).
    rewrite <- Hopt. exact (healthy_at_rest _ _ _ Hd Hs Hf).
  - split; apply Z.leb_le; vm_compute; reflexivity.
  - left; evaluate.
Qed.
Lemma restart_revokes_authority_witness :
  im_epoch sc_reopened.1 = 2 /\
  (exists s, Forall2 restarted (ds_attempts (sm_state s)) (ds_attempts (engine_state sc_reopened.1)) /\
     map at_phase (ds_attempts (sm_state s)) = [AttemptPhase.Authorized]) /\
  map at_phase (ds_attempts (engine_state sc_reopened.1)) = [AttemptPhase.Interrupted] /\
  active_authority (engine_state sc_reopened.1) sc_subject 1 = None.
Proof.
  destruct (restart_revokes_authority _ _ _ _ _ _ _ sc_options_typed sc_granted_openable sc_reopen_opened)
    as (s & fs1 & Hs & _ & _ & Hall & _ & Hn & _).
  split; [vm_compute; reflexivity|]. split; [|split; [vm_compute; reflexivity|apply Hn]].
  exists s. split; [exact Hall|].
  assert (Hp : match (store_open (store_options_of sc_options) sc_granted.2).1 with
    | Success s => map at_phase (ds_attempts (sm_state s)) | Failure _ => [] end = [AttemptPhase.Authorized])
    by (vm_compute; reflexivity). rewrite Hs in Hp. exact Hp.
Defined.

(** ** Another policy *)
Definition lf_policy : FailoverPolicy := set_fp_generation 2 sc_policy.
Lemma set_policy_revokes_witness :
  answer_to (OpSetPolicy lf_policy) sc_granted = status_success /\
  (forall r, r ∈ ds_attempts (engine_state (after (OpSetPolicy lf_policy) sc_granted).1) ->
     attempt_phase_holds_authority (at_phase r) = false) /\
  exists base recs more,
    file_of sc_granted.2 (journal_path (store_options_of sc_options)) = journal_image base recs /\
    file_of (after (OpSetPolicy lf_policy) sc_granted).2 (journal_path (store_options_of sc_options)) =
      journal_image base (recs ++ more) /\
    map rv_type more = [RecordType.PolicyCommit; RecordType.AttemptUpdate; RecordType.Fence].
Proof.
  assert (Hs : answer_to (OpSetPolicy lf_policy) sc_granted = status_success) by (vm_compute; reflexivity).
  split; [exact Hs|]. pose proof (after_performed (OpSetPolicy lf_policy) sc_granted) as E. cbn [perform] in E. rewrite Hs in E.
  assert (Hg : fp_generation lf_policy <> fp_generation (ds_policy (engine_state sc_granted.1))) by (vm_compute; discriminate).
  assert (Hp : policy_wf lf_policy) by evaluate.
  destruct (sc_store_open sc_granted.1) as [Hst Hf]; [vm_compute; reflexivity|].
  destruct (set_policy_revokes sc_options lf_policy _ _ _ _ _ _ sc_options_typed sc_granted_lives Hst Hf Hp E eq_refl Hg)
    as (_ & H & (base & recs & more & J & J' & _ & Hm) & _).
  split; [exact H|]. exists base, recs, more. split; [exact J|]. split; [exact J'|].
  apply (f_equal (map fst)) in Hm. rewrite map_map in Hm.
  change (map (fun x => (said x).1) more) with (map rv_type more) in Hm. rewrite Hm.
  vm_compute. reflexivity.
Defined.

(** ** The same life over the wire *)
(** The bytes of a session: its hello and its request, in two reads, then noise that
    ends it. *)
Definition lf_readings : list Reading := map Received (sc_chunks ++ [[1; 2; 3; 255]]) ++ [Received (repeat 7 40)].
Definition lf_served : World := default sc_world (serve sc_send 1 lf_readings sc_world).
Lemma peers_keep_lives_witness :
  lives sc_options (sv_engine lf_served.1) lf_served.2 /\ engine_typed (sv_engine lf_served.1) /\
  length (ds_attempts (engine_state (sv_engine lf_served.1))) = 1%nat.
Proof.
  assert (Hs : serve sc_send 1 lf_readings sc_world = Some lf_served).
  { assert (H : has_value (serve sc_send 1 lf_readings sc_world) = true) by (vm_compute; reflexivity).
    unfold lf_served. destruct (serve sc_send 1 lf_readings sc_world); [reflexivity|discriminate H]. }
  assert (Hl : lives sc_options (sv_engine sc_world.1) sc_world.2) by exact sc_ready_lives.
  destruct (peers_keep_lives sc_send sc_options sc_world lf_served sc_options_typed Hl) as (H1 & H2 & _).
  { apply rtc_once. eapply PsServe; [split; apply Z.leb_le; vm_compute; reflexivity| |exact Hs].
    apply (bool_decide_eq_true_1 _). vm_compute. reflexivity. }
  split; [exact H1|]. split; [exact H2|]. vm_compute. reflexivity.
Defined.

(** ** Killed after the grant, and started again *)
Lemma killed_coordinator_returns_witness : exists im' fs',
  engine_open sc_options (sc_incarnation 2) "gcc" "x86_64" (settled sc_granted.2) = (Success im', fs') /\
  im_epoch im' = 2 /\ lives sc_options im' fs' /\
  Forall2 comes_back (ds_attempts (engine_state sc_granted.1)) (ds_attempts (engine_state im')).
Proof.
  destruct (sc_store_open sc_granted.1) as [Hs Hf]; [vm_compute; reflexivity|].
  destruct (killed_coordinator_returns sc_options sc_granted.1 (sc_store sc_granted.1) sc_granted.2 (sc_incarnation 2)
    "gcc" "x86_64" sc_options_typed sc_granted_lives Hs Hf) as (base & recs & _ & H).
  - split; apply Z.leb_le; vm_compute; reflexivity.
  - left; evaluate.
  - apply sc_build. evaluate.
  - apply Nat.leb_le. vm_compute. reflexivity.
  - split_and!; apply Z.ltb_lt; vm_compute; reflexivity.
  - assert (Hn : result_ok (engine_open sc_options (sc_incarnation 2) "gcc" "x86_64" (settled sc_granted.2)).1 = true)
      by (vm_compute; reflexivity).
    assert (He : ds_epoch (engine_state sc_granted.1) = 1) by (vm_compute; reflexivity). rewrite He in H.
    revert H Hn. destruct (engine_open _ _ _ _ _) as [[im'|e] fs'].
    + intros (_ & Hl & Hep & Hat & _) _. exists im', fs'. auto.
    + intros _ Hn. discriminate Hn.
Defined.

(** ** One winner, and its successor *)
Lemma not_rebinding op im : match op with OpRevalidation _ => False | _ => True end -> uncontested op im.
Proof. by intros H found (q & -> & _). Qed.
Lemma uncontested_run o ops im fs : run_typed ops ->
  Forall (fun op => match op with OpRevalidation _ => False | _ => True end) ops ->
  lives_under uncontested o im fs -> lives_under uncontested o (sc_run ops im fs).1 (sc_run ops im fs).2.
Proof.
  intros H1 H2. revert im fs H1. induction H2 as [|op ops Hn _ IH]; intros im fs H1 Hl; [done|].
  apply Forall_cons in H1 as [[Hop Ht] H1].
  cbn [sc_run]. destruct (perform op im fs) as [[s im'] fs'] eqn:E. apply IH; [done|].
  eapply LivesPerformed; [done..|by apply not_rebinding|done].
Qed.
Lemma sc_granted_uncontested : lives_under uncontested sc_options sc_granted.1 sc_granted.2.
Proof.
  eapply LivesPerformed; [| | | |exact sc_grant_performed]; [|discriminate|evaluate|apply not_rebinding; exact I].
  apply uncontested_run; [apply sc_evidence_typed|repeat (apply Forall_cons; split; [exact I|]); apply Forall_nil; exact I|].
  apply (LivesOpened _ _ (sc_incarnation 1) "gcc" "x86_64" sc_fs);
    [apply sc_fresh|apply sc_fits|apply sc_build; evaluate|exact sc_boot_opened].
Qed.
Lemma single_winner_for_life_witness : engine_inv sc_granted.1.
Proof. apply (single_winner_for_life sc_options sc_granted.1 sc_granted.2 sc_options_typed sc_granted_uncontested). Defined.

Lemma fencing_tokens_grow_witness : exists im' fs', restart sc_options sc_granted (im', fs') /\
  epoch_of sc_granted < epoch_of (im', fs') /\ length (ds_attempts (engine_state sc_granted.1)) = 1%nat /\
  forall r, r ∈ ds_attempts (engine_state sc_granted.1) -> authority_current (engine_state im') r = false.
Proof.
  assert (Hn : match engine_open sc_options (sc_incarnation 2) "gcc" "x86_64" (settled sc_granted.2) with
    | (Success im', _) => true | (Failure _, _) => false end = true) by (vm_compute; reflexivity).
  destruct (engine_open sc_options (sc_incarnation 2) "gcc" "x86_64" (settled sc_granted.2)) as [[im'|e] fs'] eqn:E;
    [|discriminate Hn]. exists im', fs'.
  assert (Hr : restart sc_options sc_granted (im', fs')).
  { rewrite (surjective_pairing sc_granted). eapply Restarted; [| | | |apply (sc_build 2); evaluate|exact E].
    - destruct (sc_store_open sc_granted.1) as [Hs Hf]; [vm_compute; reflexivity|].
      destruct (lives_durable_lemma _ _ _ _ sc_options_typed sc_granted_lives) as ((_ & Hd) & _ & _).
      rewrite Hs in Hd. destruct Hd as [_ Hd]. rewrite Hf in Hd. destruct Hd as (snap & recs & Hi).
      exists (sc_store sc_granted.1), snap, recs. split; [exact Hs|]. left. exact Hi.
    - split; apply Z.leb_le; vm_compute; reflexivity.
    - left; evaluate.
    - intros s fs1 Es. assert (Hl : match store_open (store_options_of sc_options) (settled sc_granted.2) with
        | (Success s, _) => Nat.leb (length (ds_attempts (sm_state s))) (lm_max_attempts (eo_limits sc_options))
        | (Failure _, _) => false end = true) by (vm_compute; reflexivity).
      rewrite Es in Hl. by apply Nat.leb_le. }
  split; [exact Hr|].
  destruct (fencing_tokens_grow sc_options sc_granted sc_granted (im', fs') (im', fs') sc_options_typed
    sc_granted_lives (rtc_refl _ _) Hr (rtc_refl _ _)) as [H1 H2].
  split; [exact H1|]. split; [vm_compute; reflexivity|]. intros r Hin. apply (H2 r Hin).
Defined.

(** ** Leases taken and handed over *)
Lemma engine_implements_leases_witness :
  (exists move, allowed (OpFailover (sc_request 1)) sc_ready.1 move /\
     lease_step (leases sc_ready.1) (leases sc_granted.1) move) /\
  has_value (le_holder (leases sc_ready.1) sc_subject 1) = false /\
  has_value (le_holder (leases sc_granted.1) sc_subject 1) = true.
Proof.
  split; [|split; vm_compute; reflexivity].
  refine (engine_implements_leases (OpFailover (sc_request 1)) _ _ _ _ _ sc_ready_inv _ sc_grant_performed).
  discriminate.
Defined.

(** The applier rejects the first attempt; the second is granted. *)
Definition lf_reject : Operation := OpApplication (MkApplicationReport sc_subject 1 1
  (fd_attempt_id sc_decision) (sc_incarnation 5) 1 false "no").
Definition lf_freed : moment := after lf_reject sc_granted.
Definition lf_regranted : moment := after (OpFailover (sc_request 2)) lf_freed.
Definition lf_holder (w : moment) : Z := default 0 ((fun h : Holder => h.1.2) <$> holder_at w sc_subject 1).
Example lf_handed_over : lf_holder sc_granted = 1 /\ lf_holder lf_freed = 0 /\ lf_holder lf_regranted = 2.
Proof. split_and!; vm_compute; reflexivity. Qed.

Lemma turn_after o op w : op <> OpClose -> operation_typed op -> goes_on any_operation o w (after op w).
Proof.
  intros Hop Ht. left. rewrite (surjective_pairing w) at 1. rewrite (surjective_pairing (after op w)).
  eapply TurnPerformed; [done|done|exact I|]. apply after_performed.
Qed.
Lemma handover_needs_release_witness : exists h h', h' <> h /\ holder_at sc_granted sc_subject 1 = Some h /\
  holder_at lf_regranted sc_subject 1 = Some h' /\
  ((exists w0, rtc (goes_on any_operation sc_options) sc_granted w0 /\
      rtc (goes_on any_operation sc_options) w0 lf_regranted /\ holder_at w0 sc_subject 1 = None) \/
   (exists w0 w1, rtc (goes_on any_operation sc_options) sc_granted w0 /\
      rtc (goes_on any_operation sc_options) w1 lf_regranted /\ reclaimed sc_subject 1 w0 w1)).
Proof.
  destruct lf_handed_over as (N1 & _ & N2). unfold lf_holder in N1, N2.
  destruct (holder_at sc_granted sc_subject 1) as [h|] eqn:E1; [|discriminate N1].
  destruct (holder_at lf_regranted sc_subject 1) as [h'|] eqn:E2; [|discriminate N2]. cbn in N1, N2.
  assert (Hne : h' <> h) by (clear - N1 N2; intros ->; congruence).
  assert (Hr : rtc (goes_on any_operation sc_options) sc_granted lf_regranted).
  { eapply rtc_l; [apply (turn_after _ lf_reject); [discriminate|evaluate]|].
    apply rtc_once, turn_after; [discriminate|evaluate]. }
  pose proof (en_winner _ (lives_inv _ _ _ sc_options_typed sc_granted_uncontested) sc_subject 1) as Hw.
  pose proof (handover_needs_release sc_options sc_granted lf_regranted sc_subject 1 h h' sc_options_typed
    sc_granted_lives Hw Hr E1 E2 Hne) as H.
  exists h, h'. split; [exact Hne|]. split; [reflexivity|]. split; [reflexivity|exact H].
Defined.

(** ** A life with snapshots *)
(** Granted, then fenced by a policy change. *)
Definition lf_options : EngineOptions :=
  MkEngineOptions "fab" sc_policy sc_topology "d" sc_limits 1024 true true.
Definition lf_open (n : Z) (fs : Fs) : Result EngineImpl * Fs :=
  engine_open lf_options (sc_incarnation n) "gcc" "x86_64" fs.
Definition lf_boot : EngineImpl * Fs :=
  match lf_open 1 sc_fs with
  | (Success im, fs) => (im, fs)
  | (Failure _, fs) => (engine_initial lf_options None incarnation_zero 0, fs)
  end.
Lemma lf_boot_opened : lf_open 1 sc_fs = (Success lf_boot.1, lf_boot.2).
Proof.
  assert (H : result_ok (lf_open 1 sc_fs).1 = true) by (vm_compute; reflexivity).
  unfold lf_boot. destruct (lf_open 1 sc_fs) as [[im|e] fs]; [reflexivity|discriminate H].
Qed.
Lemma lf_options_typed : options_typed (store_options_of lf_options).
Proof. split; [reflexivity|reflexivity|split; [evaluate|reflexivity]|split; [evaluate|reflexivity]]. Qed.
Lemma lf_fresh : openable (store_options_of lf_options) sc_fs.
Proof. constructor; [reflexivity|by right|reflexivity|reflexivity]. Qed.
Lemma lf_fits : table_fits lf_options sc_fs.
Proof. apply fresh_fits; [apply lf_options_typed|reflexivity|by right|reflexivity|reflexivity]. Qed.
Definition lf_operations : list Operation :=
  sc_evidence ++ [OpFailover (sc_request 1); OpSetPolicy (set_fp_generation 2 sc_policy)].
Definition lf_fenced : EngineImpl * Fs := sc_run lf_operations lf_boot.1 lf_boot.2.
Lemma lf_fenced_lives : lives lf_options lf_fenced.1 lf_fenced.2.
Proof.
  apply lives_run; [typed_run|].
  apply (LivesOpened _ _ (sc_incarnation 1) "gcc" "x86_64" sc_fs);
    [apply lf_fresh|apply lf_fits|apply sc_build; evaluate|exact lf_boot_opened].
Qed.

(** Killed now, the directory is refused; shut down, it opens with its fence. *)
Lemma lf_killed_refused : (store_open (store_options_of lf_options) (settled lf_fenced.2)).1 =
  Failure (corrupt ReasonCode.CorruptRecord "fence record sequence does not match its lineage position").
Proof. vm_compute. reflexivity. Qed.

Lemma clean_shutdown_restores_witness : exists im' fs', engine_close lf_fenced.1 lf_fenced.2 = (status_success, im', fs') /\
  exists s' fs'', store_open (store_options_of lf_options) (settled fs') = (Success s', fs'') /\
    ds_fences (sm_state s') <> [].
Proof.
  destruct (sc_store_open lf_fenced.1) as [Hs Hf]; [vm_compute; reflexivity|].
  destruct (clean_shutdown_restores lf_options lf_fenced.1 (sc_store lf_fenced.1) lf_fenced.2 lf_options_typed
    lf_fenced_lives) as (im' & fs' & E & _ & H); [vm_compute; reflexivity|exact Hs|exact Hf|reflexivity| | |].
  - apply Z.ltb_lt. vm_compute. reflexivity.
  - apply Z.leb_le. vm_compute. reflexivity.
  - exists im', fs'. split; [exact E|]. destruct H as (s' & fs'' & E' & _ & Hl).
    { left. assert (Hd : bool_decide ("d"%string ∈ fs_dirs (engine_close lf_fenced.1 lf_fenced.2).2) = true)
        by (vm_compute; reflexivity). rewrite E in Hd. exact (bool_decide_eq_true_1 _ Hd). }
    exists s', fs''. split; [exact E'|]. apply same_lineage_parts in Hl as (_ & _ & _ & _ & _ & _ & _ & _ & _ & Hfe & _).
    unfold sm_state. rewrite Hfe. assert (Hn : Nat.eqb (length (ds_fences (sm_state (sc_store lf_fenced.1)))) 0 = false)
      by (vm_compute; reflexivity). intros Hz. unfold sm_state in Hn. rewrite Hz in Hn. discriminate Hn.
Defined.

(** ** An attempt driven to its completion *)
Definition lf_report : ApplicationReport := MkApplicationReport sc_subject 1 1
  (fd_attempt_id sc_decision) (sc_incarnation 5) 1 true "programmed".
Definition lf_verification : VerificationReport := MkVerificationReport sc_subject 1 1
  (fd_attempt_id sc_decision) (sc_incarnation 5) 1 true "traffic seen".

Lemma sc_granted_thrives : thriving sc_granted.1 sc_granted.2.
Proof.
  destruct (lives_durable_lemma _ sc_options sc_granted.1 sc_granted.2 sc_options_typed sc_granted_lives) as (Hd & _ & _).
  split; [exact Hd|]. split; [vm_compute; reflexivity|]. split; vm_compute; reflexivity.
Qed.

Lemma authorized_attempt_commits_witness : exists d1 im1 fs1 d2 im2 fs2,
  record_application lf_report sc_granted.1 sc_granted.2 = (Success d1, im1, fs1) /\
  record_verification lf_verification im1 fs1 = (Success d2, im2, fs2) /\ fd_outcome d2 = Outcome.Ok /\
  reached im2 (sc_first sc_granted) AttemptPhase.Committed.
Proof.
  assert (Hp : fp_require_verified_effect (ds_policy (engine_state sc_granted.1)) = true) by (vm_compute; reflexivity).
  assert (Hf : bool_decide (find_attempt (engine_state sc_granted.1) (at_subject (sc_first sc_granted))
    (at_attempt_seq (sc_first sc_granted)) = Some (sc_first sc_granted)) = true) by (vm_compute; reflexivity).
  destruct (authorized_attempt_commits sc_granted.1 sc_granted.2 (sc_first sc_granted) lf_report lf_verification
    sc_granted_thrives) as (d1 & im1 & fs1 & E1 & _ & _ & H).
  - apply Z.ltb_lt. vm_compute. reflexivity.
  - exact (bool_decide_eq_true_1 _ Hf).
  - vm_compute. reflexivity.
  - apply Nat.leb_le. vm_compute. reflexivity.
  - split; [evaluate|]. split_and!; vm_compute; reflexivity.
  - split; [evaluate|]. split_and!; vm_compute; reflexivity.
  - rewrite Hp in H. destruct H as (_ & d2 & im2 & fs2 & E2 & Ho & _ & Hr). exists d1, im1, fs1, d2, im2, fs2. auto.
Defined.

(** ** A lineage lost to one failed stat *)
(** [path_exists] takes an error of the file system for absence. When the check for
    the journal fails, opening takes the directory for a new one, creates a bare
    journal over the one that is there and starts again from the initial state. *)
Definition lf_unreadable : Fs := MkFs (fs_files sc_granted.2) (fs_dirs sc_granted.2) [None; None; None; None; Some (0%nat, 5)].
Lemma stat_error_discards_lineage :
  length (ds_attempts (engine_state sc_granted.1)) = 1%nat /\
  match store_open (store_options_of sc_options) lf_unreadable with
  | (Success s, fs) => ds_attempts (sm_state s) = [] /\ ds_epoch (sm_state s) = 0 /\
      file_of fs (journal_path (store_options_of sc_options)) = build_journal_header 0
  | (Failure _, _) => False
  end.
Proof. vm_compute. split_and!; reflexivity. Qed.
